(* ===== verification/_CoqProject ===== *)
-Q . S2P
Prelude.v
GoStrings.v
ScopeSet.v
Act.v
Domain.v
Db.v
Effects.v
Crypto.v
Stores.v
Order.v
StoreOrder.v
MintIssuer.v
TokenService.v
TokenProofs.v
Scenario.v
TokenTheorems.v
Fronting.v
FrontingTheorems.v
Revocation.v
Introspection.v
StoreTheorems.v
IntrospectionTheorems.v
RevocationTheorems.v
Authorize.v
AuthorizeTheorems.v
BrokerIssuer.v
ExchangeScopes.v
TokenExchange.v
ExchangeProofs.v
ExchangeBroker.v
ExchangeTheorems.v
ExchangeFailure.v
GrantAdmin.v
GrantAdminTheorems.v
XAAStores.v
ClientCredentials.v
XAAServices.v
JWTBearer.v
MachineProofs.v
MachineTheorems.v
MachineRefinement.v
MachineRevocation.v
ClientValidation.v
Admin.v
Accounts.v
AdminProofs.v
AdminTheorems.v
AdminOutcomes.v
ResourceAdmin.v
Registry.v
ResourceAdminTheorems.v
Runs.v
Connect.v
ConnectTheorems.v
ConnectRoundTrip.v
Registration.v
RegistrationTheorems.v
Encoding.v
Lockout.v
LockoutTheorems.v
WebSession.v
UserCache.v
WebSessionTheorems.v
UserCacheTheorems.v
OIDC.v
OIDCTheorems.v
Login.v
LoginTheorems.v
Ssrf.v
SsrfTheorems.v
CIMDFetcher.v
CIMDFetcherTheorems.v
CIMDFetcherProgress.v
CIMDFetcherRuns.v
ResourceServer.v
ResourceServerTheorems.v
UrlValues.v
Endpoints.v
EndpointsTheorems.v
