(* ===== verification/Prelude.v ===== *)
(** * Verification of the authplane authorization server

    The program is an OAuth 2.1 authorization server in Go: HTTP handlers call
    services ([src/internal/services]), services call stores
    ([src/internal/adapters/sqlite]) through ports, on entities and rules of
    [src/internal/domain] and primitives of [src/internal/crypto].  Handlers
    run concurrently on one database; a store method is one SQL statement or
    one short transaction.

    ** How the code is represented

    - A table is a [gmap] from its primary key to a record ([Db.v],
      [Domain.v]).  A NULL column is the empty string or [None]; UNIQUE and
      FOREIGN KEY constraints are checked by the operations ([Stores.v]).
    - A handler is a computation [M A] ([Effects.v]) over the tables, a step
      counter and the audit trail.  The environment says, for every step,
      whether the call fails, the time, the random string and what other
      requests did to the tables just before it.  A theorem that quantifies
      over the environment therefore covers every fault and every
      interleaving, restricted only by the [rely] it states.
    - Every store call a handler makes is kept in a history ([w_steps]), so a
      theorem can say which tables a check was made on ([seen]) and what each
      step changed.
    - Times are nanoseconds in [Z]; stored times are compared as the trimmed
      RFC 3339 texts the code writes.
    - SHA-256, HMAC, bcrypt, JWS, URL parsing and the settings are fields of
      [Params] and [Config].  No theorem assumes collision resistance or
      unforgeability: theorems speak about hashes and about tokens that the
      opener accepts.
    - Spans, metrics and logs are left out; audit rows are kept.

    ** Files

    - [Prelude]: automation, finite-map and fixpoint lemmas.
    - [GoStrings]: [strings.Fields], [strings.Join], sorting.
    - [ScopeSet]: domain/scope/matching.go.
    - [Act]: domain/token/exchange.go and the agent chain.
    - [Domain]: the entities, their transitions and validation, errors, audit
      events.
    - [Db]: tables and the order of stored times (sqlite/db.go).
    - [Effects]: the monad, transactions (sqlite/transaction.go).
    - [Crypto]: pkce.go, client_secret.go, jwt.go, dpop.go, assertion.go.
    - [Stores]: one module per SQLite store, one definition per method.
    - [Order], [StoreOrder]: traces; the security order [db_step] (constraints
      kept, revocations and consumptions never undone) and that each store
      operation of the grants respects it.
    - [MintIssuer]: agent_identity.go, mint_issuer.go.
    - [TokenService]: token.go, the authorization-code and refresh grants.
      [TokenProofs], [TokenTheorems]: single use of codes, refresh tokens and
      DPoP proofs under any interleaving; the gates a success passed; reuse
      and replay responses; what an error leaves behind; scope resolution.
    - [Authorize], [AuthorizeTheorems]: authorize.go and consent.go; what a
      pending session was checked against, that a grant and a code carry what
      the session's owner approved and nothing else, and that the tokens of
      the code carry it too; a failed consent writes nothing; a resource
      without a URI escapes the catalog check.
    - [Fronting], [FrontingTheorems]: fronting.go; the cycle search decides
      reachability, links stay acyclic and inside the catalogs, the cascade is
      exact; two concurrent creates can still close a cycle.
    - [Introspection], [IntrospectionTheorems]: introspection.go; an active
      answer was deserved, a revoked token is never active, nothing is
      written; the machine-token lookup fails open.
    - [Revocation], [RevocationTheorems]: revocation.go; a caller only reaches
      its own tokens, and introspection then refuses them; revoking a user's
      access token is a no-op that is audited as a revocation.
    - [BrokerIssuer]: broker_issuer.go; the encryptor and the protocol adapters
      are arguments, and the class [BrokerDeps] says what is relied on.
    - [ExchangeScopes], [TokenExchange]: token_exchange.go, the scope rules and
      the handler.  [ExchangeProofs], [ExchangeBroker], [ExchangeTheorems]: an
      answered exchange was authorized, by a fronting link, the caller's own
      token, a consent or an attestation; its delegation chain extends the
      subject token's; without a resource it only narrows.  [ExchangeFailure]: a
      refused exchange leaves no live token.
    - [GrantAdmin], [GrantAdminTheorems]: grant_admin.go; revoking a consent
      reaches everything that rests on it, and beats a concurrent exchange in
      every interleaving.
    - [XAAStores]: the stores of trusted identity providers, policies, subject
      mappings and spent assertions, and the JWKS cache (idpjwks/cache.go),
      whose HTTP fetch is an argument with the class [CacheDeps].
      [XAAServices]: xaa_policy.go, subject_mapping.go, xaa_idp.go.
    - [ClientCredentials], [JWTBearer]: client_credentials.go, jwt_bearer.go.
      [MachineProofs], [MachineTheorems]: what a machine token was checked
      against; an assertion buys one token under any interleaving, also across
      purges of the replay records; a blank scope parameter takes the policy's
      maximum.  [MachineRefinement]: the abstract specification of the client
      credentials grant (which scopes the tables entitle a request to) and that
      the handler implements it, success and refusal.  [MachineRevocation]: a
      client can revoke its token, and introspection then refuses it.
    - [ClientValidation], [Admin]: client/validation.go, admin.go and the audit
      query of the store; bcrypt, the enabled grants and the audit bounds are
      arguments.  [Accounts]: the order of the optimistic lock on the client
      and user rows, and that the five grants leave those rows alone.
      [AdminProofs], [AdminTheorems]: every administrator's operation respects
      that order, an edit takes effect at one step on the row it meant, a
      revoked client is locked out of every grant.  [AdminOutcomes]: deletions
      are all or nothing, a forced logout reaches every session (and the access
      tokens of 500), a rotated secret replaces the old one, the audit feed is
      bounded.
    - [ResourceAdmin]: resource_admin.go, broker_provider_admin.go and
      issuance_admin.go; the secret encoder and the JSON codec are arguments.
      [Registry]: the invariant of the resource, provider and link tables and
      the rules to show that a program keeps it at each store call.
      [ResourceAdminTheorems]: every operation keeps it; a client taken off a
      resource's list can no longer exchange for it; no literal secret is
      stored.
    - [Runs]: runs that only read, and runs with one write.
    - [Connect]: connect.go with the store of pending states; the protocol
      adapters, the encryptor and URL rewriting are arguments ([ConnectDeps]).
      [ConnectTheorems], [ConnectRoundTrip]: where a connect may return to;
      completion once, by the user who started it; what was started can be
      completed; a disconnected user gets nothing more from the provider.
    - [Registration], [RegistrationTheorems]: dcr.go, cimd.go, user_auth.go and
      the uniform comparison of bcrypt.go; a client that registers itself is
      confined and, without a user, powerless; a denied login tells nothing.
    - [Encoding]: base64, decimal conversion, splitting and trimming of the Go library,
      with their round trips.
    - [Lockout], [LockoutTheorems]: api/shared/authlockout.go; the calls to the
      tracker as a step relation; a lockout in force is never forgotten, and
      failures before a lockout are bounded, whatever else is posted.
    - [WebSession], [WebSessionTheorems]: api/shared/session.go and redirect.go;
      the session cookie is read back until it expires, a handler sees a user
      only for such a cookie and an active account, a disabled account is out,
      and a redirect stays on the server.
    - [UserCache], [UserCacheTheorems]: adapters/cache/bounded.go and
      adapters/storage/user_cache.go as a system of interleaved steps; how long
      a disabled account can still be answered as active.
    - [OIDC], [OIDCTheorems]: static/state_codec.go, services/oidc.go and
      api/public/oauth/oidc.go; the signed state, the account a federated
      sign-in reaches, and what the callback demands.
    - [Login], [LoginTheorems]: api/public/oauth/login.go; what is demanded
      before a password is compared, the one step each request takes in the
      tracker, and the form that is accepted.
    - [Ssrf], [SsrfTheorems]: internal/ssrf/transport.go; the networks as
      address blocks, and that a filtering transport only dials an address
      outside them, which it does not resolve again.
    - [CIMDFetcher]: adapters/cimd, with calls, shared flights, slots and
      connections as a system of interleaved steps.  The documented contract of
      singleflight is part of the steps: one execution per key, whose result
      everyone who joined it gets.  [CIMDFetcherTheorems]: where an answered
      document comes from, how long it is cached, and what the class
      [LawfulFetcher] promises to the registration.  [CIMDFetcherProgress]:
      bounds under load, failures that keep a URL quiet, and that no call waits
      for another.  [CIMDFetcherRuns]: runs, and the gaps of the path gate and
      of long lifetimes.
    - [ResourceServer], [ResourceServerTheorems]: api/shared/jwt_middleware.go
      and bearer.go; what an admitted request was checked for, that a DPoP
      proof buys one request at the resource servers and the token endpoint
      together, and that a good request gets through.
    - [UrlValues], [Endpoints], [EndpointsTheorems]: api/public/oauth,
      connection/consent_url.go and shared/errors.go; the query strings and
      Basic credentials of Go's library with their round trips, the handlers
      in front of the services, where an authorization response goes, what a
      consent needs, and that the text of an internal failure stays inside.
    - [StoreTheorems]: the lineage revocation of the issuance log is exact;
      expiry of pending sessions up to a second.
    - [Scenario]: a small concrete server on which the theorems are exercised.

    ** Bounds

    The breadth-first search of fronting links takes its fuel as an argument
    and answers [None] when it runs out; [assertNoCycle_decides] shows that one
    unit more than the number of links is enough.  The paging loop of the
    refresh-family cascade takes its number of rounds; [RevokeConsent_reaches]
    shows that enough rounds to page through the active families end it.  The
    recursive lineage query is iterated as often as there are mint rows, which
    [lineage_closed] shows to be a fixpoint.  A number is printed with as many
    rounds as it has bits, which [FormatUint_digits] shows to be enough.
    Everything else is structural.  [retryAfterSeconds] rounds up on integers
    where the code goes through a float; the two agree for lockouts of any
    realistic length.

    ** Not modelled

    The discovery documents (as_metadata.go, prm.go, jwks.go) are assembled
    from configuration and keep no state.  HTTP routing, the handlers of the
    administration API and of the connect flow, JSON and templates, configuration loading,
    start-up, observability, key files, the PostgreSQL adapter (the same
    contracts on another engine), Vault and the OIDC provider client are glue or
    talk to services outside the repository. *)

From stdpp Require Export base gmap strings list sorting.
From Stdlib Require Export ZArith.

(** ** Automation

    [go_db] collects the facts on the Go standard-library functions that the
    components use; [guar_db] collects, for every operation of the model, the
    lemma that says it only moves the tables forward (see [Order.v]). *)

Create HintDb go_db.
Create Rewrite HintDb go_rw.
Create HintDb guar_db.

(** [case_all] performs every case analysis a [match] or an [if] of the goal
    or of a hypothesis is stuck on, with its equation, and cleans up. *)

Ltac case_step :=
  match goal with
  | |- context [match ?x with _ => _ end] => destruct x eqn:?
  | H : context [match ?x with _ => _ end] |- _ => destruct x eqn:?
  end; simplify_eq/=.

Ltac case_all := repeat case_step.

(** [bool_decide] facts in hypotheses turned into propositions. *)

Ltac unbool :=
  repeat match goal with
  | H : bool_decide _ = true |- _ => apply bool_decide_eq_true in H
  | H : bool_decide _ = false |- _ => apply bool_decide_eq_false in H
  | H : andb _ _ = true |- _ => apply andb_true_iff in H as [??]
  | H : orb _ _ = false |- _ => apply orb_false_iff in H as [??]
  | H : negb _ = true |- _ => apply negb_true_iff in H
  | H : negb _ = false |- _ => apply negb_false_iff in H
  | H : ¬ (?a ≠ ?b) |- _ => apply dec_stable in H
  end.

(** ** Generic lemmas on lists and finite maps *)

(** The first row of a table, in iteration order, that satisfies [P]: what a
    [SELECT ... WHERE P] read with [QueryRow] returns. *)

Definition find_row `{Countable K} {A} (P : A → bool) (m : gmap K A) : option A :=
  head (filter (λ a, P a = true) ((map_to_list m).*2)).

Lemma find_row_Some `{Countable K} {A} (P : A → bool) (m : gmap K A) a :
  find_row P m = Some a → ∃ k, m !! k = Some a ∧ P a = true.
Proof.
  unfold find_row. intros Hh.
  assert (a ∈ filter (λ a, P a = true) (map_to_list m).*2) as Hin.
  { destruct (filter _ _); simplify_eq/=. left. }
  apply list_elem_of_filter in Hin as [HP Hin].
  apply list_elem_of_fmap in Hin as [[k a'] [-> Hk]].
  apply elem_of_map_to_list in Hk. eauto.
Qed.

Lemma find_row_None `{Countable K} {A} (P : A → bool) (m : gmap K A) :
  find_row P m = None ↔ ∀ k a, m !! k = Some a → P a = false.
Proof.
  unfold find_row. split.
  - intros Hh k a Hk. destruct (P a) eqn:HP; [|done]. exfalso.
    assert (a ∈ filter (λ a, P a = true) (map_to_list m).*2) as Hin.
    { apply list_elem_of_filter. split; [done|].
      apply list_elem_of_fmap. exists (k, a). split; [done|].
      by apply elem_of_map_to_list. }
    destruct (filter _ _); [by apply elem_of_nil in Hin|done].
  - intros Hall. destruct (filter _ _) as [|a l] eqn:Hf; [done|exfalso].
    assert (a ∈ filter (λ a, P a = true) (map_to_list m).*2) as Hin.
    { rewrite Hf. left. }
    apply list_elem_of_filter in Hin as [HP Hin].
    apply list_elem_of_fmap in Hin as [[k a'] [-> Hk]].
    apply elem_of_map_to_list, Hall in Hk. simpl in *. congruence.
Qed.

(** When at most one row satisfies [P] the read is determined. *)

Lemma find_row_unique `{Countable K} {A} (P : A → bool) (m : gmap K A) k a :
  m !! k = Some a → P a = true →
  (∀ k' a', m !! k' = Some a' → P a' = true → a' = a) →
  find_row P m = Some a.
Proof.
  intros Hk HP Hun. destruct (find_row P m) as [a'|] eqn:Hf.
  - apply find_row_Some in Hf as (k' & Hk' & HP'). f_equal. eauto.
  - rewrite find_row_None in Hf. specialize (Hf _ _ Hk). congruence.
Qed.

(** [slices.Contains] *)

Definition slices_Contains (l : list string) (x : string) : bool :=
  bool_decide (x ∈ l).

Lemma slices_Contains_spec l x : slices_Contains l x = true ↔ x ∈ l.
Proof. apply bool_decide_eq_true. Qed.

(** Duplicates removed, keeping the first occurrence: a loop that appends to
    a slice only what a [seen] map does not hold yet. *)

Fixpoint dedup_seen (seen : gset string) (l : list string) : list string :=
  match l with
  | [] => []
  | x :: l => if bool_decide (x ∈ seen) then dedup_seen seen l
              else x :: dedup_seen ({[x]} ∪ seen) l
  end.

Definition dedup (l : list string) : list string := dedup_seen ∅ l.

Lemma elem_of_dedup_seen seen l x :
  x ∈ dedup_seen seen l ↔ x ∈ l ∧ x ∉ seen.
Proof.
  revert seen. induction l as [|y l IH]; intros seen; simpl; [set_solver|].
  case_bool_decide; [rewrite IH; set_solver|].
  rewrite elem_of_cons, IH.
  destruct (decide (x = y)) as [->|]; set_solver.
Qed.

Lemma elem_of_dedup l x : x ∈ dedup l ↔ x ∈ l.
Proof. unfold dedup. rewrite elem_of_dedup_seen. set_solver. Qed.

Lemma NoDup_dedup_seen seen l : NoDup (dedup_seen seen l).
Proof.
  revert seen. induction l as [|y l IH]; intros seen; simpl; [constructor|].
  case_bool_decide; [done|]. constructor; [|done].
  rewrite elem_of_dedup_seen. set_solver.
Qed.

Lemma NoDup_dedup l : NoDup (dedup l).
Proof. apply NoDup_dedup_seen. Qed.

#[export] Hint Resolve NoDup_dedup : go_db.

Lemma size_list_to_set_le `{Countable A} (l : list A) : size (list_to_set l : gset A) ≤ length l.
Proof.
  induction l as [|x l IH]; simpl; [done|].
  destruct (decide (x ∈ (list_to_set l : gset A))).
  - replace ({[x]} ∪ list_to_set l) with (list_to_set l : gset A) by set_solver. lia.
  - rewrite size_union by set_solver. rewrite size_singleton. lia.
Qed.

(** ** Bounded iteration to a fixpoint

    An inflationary operator on finite sets whose values stay inside [U]
    reaches a fixpoint within [size U] rounds. *)

Section closure.
Context `{Countable A} (f : gset A → gset A) (U : gset A).
Hypothesis inflationary : ∀ X, X ⊆ f X.
Hypothesis bounded : ∀ X, X ⊆ U → f X ⊆ U.

Lemma iter_bounded n X : X ⊆ U → Nat.iter n f X ⊆ U.
Proof. intros HX. induction n as [|n IH]; simpl; [done|by apply bounded]. Qed.

Lemma iter_inflationary n X : X ⊆ Nat.iter n f X.
Proof. induction n as [|n IH]; simpl; [done|]. etrans; [exact IH|apply inflationary]. Qed.

Lemma iter_progress n X :
  f (Nat.iter n f X) = Nat.iter n f X ∨ n ≤ size (Nat.iter n f X).
Proof.
  induction n as [|n [IH|IH]]; simpl; [right; lia|left; by rewrite !IH|].
  destruct (decide (f (Nat.iter n f X) = Nat.iter n f X)) as [Heq|Hne]; [left; by rewrite !Heq|right].
  assert (Nat.iter n f X ⊂ f (Nat.iter n f X)) as Hs.
  { split; [apply inflationary|]. intros Hs. apply Hne, (anti_symm (⊆)); [done|apply inflationary]. }
  apply subset_size in Hs. lia.
Qed.

Lemma iter_fixpoint X : X ⊆ U → f (Nat.iter (size U) f X) = Nat.iter (size U) f X.
Proof.
  intros HX. destruct (iter_progress (size U) X) as [|Hn]; [done|].
  pose proof (iter_bounded (size U) X HX) as HU.
  assert (Nat.iter (size U) f X = U) as ->.
  { apply leibniz_equiv, set_subseteq_size_equiv; [done|]. lia. }
  apply (anti_symm (⊆)); [by apply bounded|apply inflationary].
Qed.

End closure.
