(* ===== verification/GoStrings.v ===== *)
(** * The Go string functions the server uses

    [strings.Fields], [strings.Join], [strings.HasPrefix], [sort.Strings] on
    byte strings.  [strings.Fields] separates at the six ASCII white-space
    bytes; the multi-byte Unicode spaces that Go also accepts are ordinary
    bytes here (scope tokens are ASCII, RFC 6749 §3.3). *)

From S2P Require Import Prelude.

#[local] Arguments String.append : simpl nomatch.

(** ** strings.Fields and strings.Join *)

Definition is_space (c : Ascii.ascii) : bool :=
  let n := Ascii.nat_of_ascii c in
  orb (bool_decide (n = 32)) (bool_decide (9 ≤ n ∧ n ≤ 13)).

Fixpoint fields_from (cur s : string) : list string :=
  match s with
  | EmptyString => if bool_decide (cur = "") then [] else [cur]
  | String c s' =>
      if is_space c
      then (if bool_decide (cur = "") then fields_from "" s'
            else cur :: fields_from "" s')
      else fields_from (cur +:+ String c "") s'
  end.

Definition strings_Fields (s : string) : list string := fields_from "" s.

Fixpoint strings_Join (sep : string) (l : list string) : string :=
  match l with
  | [] => ""
  | [w] => w
  | w :: l' => w +:+ sep +:+ strings_Join sep l'
  end.

(** A word: what [strings.Fields] can return. *)

Fixpoint no_space (s : string) : bool :=
  match s with
  | EmptyString => true
  | String c s' => andb (negb (is_space c)) (no_space s')
  end.

Definition is_word (s : string) : Prop := s ≠ "" ∧ no_space s = true.

#[export] Instance is_word_dec s : Decision (is_word s).
Proof. unfold is_word. apply _. Defined.

Lemma string_app_assoc (a b c : string) : (a +:+ b) +:+ c = a +:+ (b +:+ c).
Proof. induction a; simpl; congruence. Qed.

Lemma string_app_nil_r (a : string) : a +:+ "" = a.
Proof. induction a; simpl; congruence. Qed.

Lemma no_space_app a b : no_space (a +:+ b) = andb (no_space a) (no_space b).
Proof. induction a as [|c a IH]; simpl; [done|]. by rewrite IH, andb_assoc. Qed.

Lemma fields_from_words cur s :
  no_space cur = true → Forall is_word (fields_from cur s).
Proof.
  revert cur. induction s as [|c s IH]; intros cur Hcur; simpl.
  - case_bool_decide; repeat constructor; done.
  - destruct (is_space c) eqn:Hc.
    + case_bool_decide; [by apply IH|]. constructor; [done|by apply IH].
    + apply IH. rewrite no_space_app, Hcur. simpl. by rewrite Hc.
Qed.

Lemma strings_Fields_words s : Forall is_word (strings_Fields s).
Proof. by apply fields_from_words. Qed.

Lemma fields_from_word cur w s :
  no_space w = true → fields_from cur (w +:+ s) = fields_from (cur +:+ w) s.
Proof.
  revert cur. induction w as [|c w IH]; intros cur Hw; simpl in *.
  - by rewrite string_app_nil_r.
  - unbool. rewrite H. rewrite IH by done. f_equal. rewrite string_app_assoc. done.
Qed.

Lemma fields_from_word_end cur w :
  no_space w = true → cur +:+ w ≠ "" → fields_from cur w = [cur +:+ w].
Proof.
  intros Hw Hne. rewrite <-(string_app_nil_r w) at 1. rewrite fields_from_word by done.
  simpl. by rewrite bool_decide_eq_false_2.
Qed.

(** Splitting a space-joined list of words gives the list back. *)

Lemma Fields_Join ws :
  Forall is_word ws → strings_Fields (strings_Join " " ws) = ws.
Proof.
  unfold strings_Fields. induction 1 as [|w ws [Hne Hw] Hws IH]; [done|].
  destruct ws as [|w' ws'].
  - simpl. by rewrite fields_from_word_end.
  - change (strings_Join " " (w :: w' :: ws'))
      with (w +:+ " " +:+ strings_Join " " (w' :: ws')).
    rewrite fields_from_word by done.
    change ("" +:+ w) with w.
    change (fields_from w (" " +:+ strings_Join " " (w' :: ws'))) with
      (if bool_decide (w = "") then fields_from "" (strings_Join " " (w' :: ws'))
       else w :: fields_from "" (strings_Join " " (w' :: ws'))).
    rewrite bool_decide_eq_false_2 by done. by rewrite IH.
Qed.

Lemma strings_Fields_word w : is_word w → strings_Fields w = [w].
Proof. intros Hw. apply (Fields_Join [w]). by constructor. Qed.

(** ** sort.Strings *)

Definition string_le (a b : string) : Prop := String.leb a b = true.

#[export] Instance string_le_dec a b : Decision (string_le a b).
Proof. unfold string_le. apply _. Defined.

#[export] Instance string_le_total : Total string_le.
Proof. intros a b. apply String.leb_total. Qed.

#[export] Instance string_le_antisymm : AntiSymm (=) string_le.
Proof. intros a b. apply String.leb_antisym. Qed.

Lemma string_compare_refl a : String.compare a a = Eq.
Proof.
  pose proof (String.compare_antisym a a) as H.
  destruct (String.compare a a); done.
Qed.

Lemma ascii_compare_refl a : Ascii.compare a a = Eq.
Proof.
  pose proof (Ascii.compare_antisym a a) as H.
  destruct (Ascii.compare a a); done.
Qed.

Lemma ascii_compare_lt_trans a b c :
  Ascii.compare a b = Lt → Ascii.compare b c = Lt → Ascii.compare a c = Lt.
Proof. unfold Ascii.compare. rewrite !N.compare_lt_iff. lia. Qed.

Lemma string_le_cons x a y b :
  string_le (String x a) (String y b) ↔
  Ascii.compare x y = Lt ∨ (x = y ∧ string_le a b).
Proof.
  unfold string_le, String.leb. simpl. split.
  - destruct (Ascii.compare x y) eqn:E; try done; [|by left].
    apply Ascii.compare_eq_iff in E as ->. by right.
  - intros [->|[-> H]]; [done|]. by rewrite ascii_compare_refl.
Qed.

#[export] Instance string_le_trans : Transitive string_le.
Proof.
  intros a. induction a as [|x a IH]; intros b c; [by destruct c|].
  destruct b as [|y b]; [done|]. destruct c as [|z c]; [done|].
  rewrite !string_le_cons. intros [H1|[-> H1]] [H2|[-> H2]]; eauto.
  left. by eapply ascii_compare_lt_trans.
Qed.

#[export] Instance string_le_preorder : PreOrder string_le.
Proof. split; [|apply _]. intros a. by destruct (total string_le a a). Qed.

Definition sort_Strings (l : list string) : list string := merge_sort string_le l.

Lemma sort_Strings_perm l : sort_Strings l ≡ₚ l.
Proof. apply merge_sort_Permutation. Qed.

Lemma elem_of_sort_Strings l x : x ∈ sort_Strings l ↔ x ∈ l.
Proof. by rewrite sort_Strings_perm. Qed.

Lemma sort_Strings_Sorted l : Sorted string_le (sort_Strings l).
Proof. apply Sorted_merge_sort, _. Qed.

Lemma NoDup_sort_Strings l : NoDup (sort_Strings l) ↔ NoDup l.
Proof. by rewrite sort_Strings_perm. Qed.

(** Sorting depends on the elements only, not on their order: this is what
    makes the iteration order of a Go map invisible after a sort. *)

Lemma sort_Strings_proper l1 l2 : l1 ≡ₚ l2 → sort_Strings l1 = sort_Strings l2.
Proof.
  intros Hp. apply (Sorted_unique string_le).
  - apply sort_Strings_Sorted.
  - apply sort_Strings_Sorted.
  - by rewrite !sort_Strings_perm.
Qed.

(** A sorted slice without duplicates is determined by its set of elements. *)

Lemma sorted_nodup_ext l1 l2 :
  NoDup l1 → NoDup l2 → (∀ x, x ∈ l1 ↔ x ∈ l2) → sort_Strings l1 = sort_Strings l2.
Proof. intros. apply sort_Strings_proper. by apply NoDup_Permutation. Qed.

Lemma sort_Strings_nil l : sort_Strings l = [] ↔ l = [].
Proof.
  split; [|by intros ->]. intros H. pose proof (sort_Strings_perm l) as Hp.
  rewrite H in Hp. by apply Permutation_nil_l in Hp.
Qed.

(** The least element heads the sorted slice. *)

Lemma sort_Strings_head l x l' :
  sort_Strings l = x :: l' → x ∈ l ∧ ∀ y, y ∈ l → string_le x y.
Proof.
  intros H.
  assert (∀ y, y ∈ l ↔ y ∈ x :: l') as Hel.
  { intros y. by rewrite <-H, elem_of_sort_Strings. }
  split; [apply Hel; left|]. intros y Hy. apply Hel in Hy.
  pose proof (StronglySorted_merge_sort string_le l) as Hs.
  unfold sort_Strings in H. rewrite H in Hs.
  apply elem_of_cons in Hy as [->|Hy]; [reflexivity|].
  apply StronglySorted_inv in Hs as [_ Hf].
  rewrite Forall_forall in Hf. by apply Hf.
Qed.

(** ** strings.HasPrefix and friends *)

Fixpoint strings_HasPrefix (s p : string) {struct p} : bool :=
  match p, s with
  | EmptyString, _ => true
  | String a p', String b s' => if bool_decide (a = b) then strings_HasPrefix s' p' else false
  | _, EmptyString => false
  end.

Fixpoint strings_TrimPrefix (s p : string) {struct p} : string :=
  match p, s with
  | EmptyString, _ => s
  | String a p', String b s' =>
      if bool_decide (a = b) then
        (if strings_HasPrefix s' p' then strings_TrimPrefix s' p' else s)
      else s
  | _, EmptyString => s
  end.

#[export] Hint Resolve strings_Fields_words sort_Strings_Sorted : go_db.
#[export] Hint Rewrite elem_of_sort_Strings elem_of_dedup : go_rw.

Example Fields_example : strings_Fields "  read  write " = ["read"; "write"].
Proof. vm_compute. reflexivity. Qed.

Example sort_example : sort_Strings ["b"; "a"; "ab"] = ["a"; "ab"; "b"].
Proof. vm_compute. reflexivity. Qed.
