(* ===== verification/ScopeSet.v ===== *)
(** * internal/domain/scope: sets of scope strings

    [scope.Set] is a Go map used as a set, modelled by [gset string]; every
    operation of [matching.go] is a definition of the same name. *)

From S2P Require Import Prelude GoStrings.

Module Scope.

Definition Parse (s : string) : gset string := list_to_set (strings_Fields s).

Definition New (scopes : list string) : gset string :=
  list_to_set (filter (λ s, s ≠ "") scopes).

Definition Slice (ss : gset string) : list string := sort_Strings (elements ss).

Definition to_String (ss : gset string) : string :=
  if bool_decide (size ss = 0) then "" else strings_Join " " (Slice ss).

Definition Contains (ss : gset string) (scope : string) : bool :=
  bool_decide (scope ∈ ss).

Definition IsEmpty (ss : gset string) : bool := bool_decide (size ss = 0).

Definition Len (ss : gset string) : nat := size ss.

(** [for s := range ss { if !other.Contains(s) { return false } }] *)

Definition IsSubset (ss other : gset string) : bool :=
  forallb (Contains other) (elements ss).

(** The loop runs over the smaller of the two sets. *)

Definition Intersect (ss other : gset string) : gset string :=
  let '(a, b) := if bool_decide (size other < size ss) then (other, ss) else (ss, other) in
  list_to_set (filter (λ s, Contains b s = true) (elements a)).

Definition Union (ss other : gset string) : gset string :=
  list_to_set (elements ss) ∪ list_to_set (elements other).

Definition Equal (ss other : gset string) : bool :=
  if bool_decide (size ss ≠ size other) then false else IsSubset ss other.

(** The scopes of a set written by [Parse] are words. *)

Definition wf (ss : gset string) : Prop := set_Forall is_word ss.

#[export] Instance wf_dec ss : Decision (wf ss).
Proof. unfold wf. apply _. Defined.

(** ** Reflection of the boolean tests *)

Lemma Contains_spec ss x : Contains ss x = true ↔ x ∈ ss.
Proof. apply bool_decide_eq_true. Qed.

Lemma IsEmpty_spec ss : IsEmpty ss = true ↔ ss = ∅.
Proof. unfold IsEmpty. rewrite bool_decide_eq_true. rewrite size_empty_iff. apply leibniz_equiv_iff. Qed.

Lemma IsEmpty_false ss : IsEmpty ss = false ↔ ss ≠ ∅.
Proof. rewrite <-IsEmpty_spec. destruct (IsEmpty ss); naive_solver. Qed.

Lemma IsSubset_spec ss other : IsSubset ss other = true ↔ ss ⊆ other.
Proof.
  unfold IsSubset. rewrite forallb_forall. split.
  - intros H x Hx. apply Contains_spec, H. apply list_elem_of_In, elem_of_elements, Hx.
  - intros H x Hx. apply Contains_spec, H. apply elem_of_elements, list_elem_of_In, Hx.
Qed.

Lemma IsSubset_false ss other : IsSubset ss other = false ↔ ¬ ss ⊆ other.
Proof. rewrite <-IsSubset_spec. destruct (IsSubset ss other); naive_solver. Qed.

(** ** The optimised loops compute the set operations *)

(** Iterating over the smaller set gives the intersection. *)

Lemma Intersect_spec ss other : Intersect ss other = ss ∩ other.
Proof.
  unfold Intersect. apply set_eq. intros x.
  case_bool_decide; rewrite elem_of_list_to_set, list_elem_of_filter, Contains_spec,
    elem_of_elements, elem_of_intersection; tauto.
Qed.

Lemma Union_spec ss other : Union ss other = ss ∪ other.
Proof. unfold Union. by rewrite !list_to_set_elements_L. Qed.

(** Comparing sizes first and inclusion in one direction decides equality. *)

Lemma Equal_spec ss other : Equal ss other = true ↔ ss = other.
Proof.
  unfold Equal. case_bool_decide as Hsz.
  - split; [done|]. by intros ->.
  - rewrite IsSubset_spec. split; [|by intros ->].
    intros Hsub. apply leibniz_equiv, set_subseteq_size_equiv; [done|]. lia.
Qed.

Lemma elem_of_New x scopes : x ∈ New scopes ↔ x ∈ scopes ∧ x ≠ "".
Proof. unfold New. rewrite elem_of_list_to_set, list_elem_of_filter. tauto. Qed.

Lemma elem_of_Parse x s : x ∈ Parse s ↔ x ∈ strings_Fields s.
Proof. apply elem_of_list_to_set. Qed.

Lemma elem_of_Slice x ss : x ∈ Slice ss ↔ x ∈ ss.
Proof. unfold Slice. by rewrite elem_of_sort_Strings, elem_of_elements. Qed.

Lemma NoDup_Slice ss : NoDup (Slice ss).
Proof. unfold Slice. rewrite NoDup_sort_Strings. apply NoDup_elements. Qed.

Lemma Parse_wf s : wf (Parse s).
Proof.
  intros x Hx. apply elem_of_Parse in Hx.
  pose proof (strings_Fields_words s) as Hf. rewrite Forall_forall in Hf. by apply Hf.
Qed.

Lemma Slice_words ss : wf ss → Forall is_word (Slice ss).
Proof. intros Hwf. apply Forall_forall. intros x Hx. apply Hwf, elem_of_Slice, Hx. Qed.

Lemma Slice_empty : Slice ∅ = [].
Proof. done. Qed.

Lemma Fields_to_String ss : wf ss → strings_Fields (to_String ss) = Slice ss.
Proof.
  intros Hwf. unfold to_String. case_bool_decide as Hsz.
  - apply size_empty_inv, leibniz_equiv in Hsz as ->. done.
  - by apply Fields_Join, Slice_words.
Qed.

(** ** Round trips *)

Lemma Parse_to_String ss : wf ss → Parse (to_String ss) = ss.
Proof.
  intros Hwf. unfold Parse. rewrite Fields_to_String by done.
  apply set_eq. intros x. by rewrite elem_of_list_to_set, elem_of_Slice.
Qed.

Lemma to_String_empty ss : wf ss → to_String ss = "" ↔ ss = ∅.
Proof.
  intros Hwf. split; [|by intros ->].
  intros H. rewrite <-(Parse_to_String ss Hwf), H. done.
Qed.

(** The printed form does not depend on how the set was built, and printing a
    parsed string is idempotent: it yields the canonical form. *)

Lemma to_String_canonical s : Parse (to_String (Parse s)) = Parse s.
Proof. apply Parse_to_String, Parse_wf. Qed.

(** Scope sets behave as sets of scope words.  The loops that iterate over
    the smaller operand, compare sizes first or insert one element at a time
    compute intersection, union, equality and inclusion; and writing a parsed
    scope string and parsing it again gives the same set, so a stored scope
    reads back as it was granted. *)
Theorem scope_operations_correct ss other s :
  Intersect ss other = ss ∩ other ∧ Union ss other = ss ∪ other ∧
  (Equal ss other = true ↔ ss = other) ∧ (IsSubset ss other = true ↔ ss ⊆ other) ∧
  Parse (to_String (Parse s)) = Parse s ∧ NoDup (Slice ss).
Proof.
  split; [apply Intersect_spec|]. split; [apply Union_spec|]. split; [apply Equal_spec|].
  split; [apply IsSubset_spec|]. split; [apply to_String_canonical|apply NoDup_Slice].
Qed.

End Scope.

#[export] Hint Resolve Scope.Parse_wf : go_db.
