(* ===== verification/Act.v ===== *)
(** * internal/domain/token/exchange.go: the RFC 8693 delegation chain

    JSON values, [ActClaim], its conversions to and from the JWT map, the
    removal of structural claims, the depth that bounds a chain, and the
    agent chain of [internal/services/agent_identity.go] built from it. *)

From S2P Require Import Prelude GoStrings.

#[local] Set Warnings "-register-all".

(** ** JSON values: [interface{}] as [encoding/json] fills it *)

Inductive json :=
  | JNull
  | JBool (b : bool)
  | JNum (z : Z)
  | JStr (s : string)
  | JArr (l : list json)
  | JObj (m : gmap string json).

Module Act.

Definition TokenTypeAccessToken : string := "urn:ietf:params:oauth:token-type:access_token".
Definition TokenTypeJWT : string := "urn:ietf:params:oauth:token-type:jwt".
Definition GrantTypeTokenExchange : string := "urn:ietf:params:oauth:grant-type:token-exchange".

Definition IsValidSubjectTokenType (tokenType : string) : bool :=
  orb (bool_decide (tokenType = TokenTypeAccessToken)) (bool_decide (tokenType = TokenTypeJWT)).

(** A nil [*ActClaim] is [None]; a nil [Extras] map is the empty one, which
    is how every reader of the field treats it. *)

Inductive ActClaim := MkAct {
  Sub : string;
  Nested : option ActClaim;
  Extras : gmap string json
}.

(** Induction down the chain. *)

Lemma ActClaim_chain_ind (P : ActClaim → Prop) :
  (∀ s e, P (MkAct s None e)) →
  (∀ s a e, P a → P (MkAct s (Some a) e)) → ∀ a, P a.
Proof.
  intros H0 H1. fix IH 1. intros [s [a|] e]; [apply H1, IH|apply H0].
Qed.

Definition nonIdentityClaimKeys : list string := ["exp"; "nbf"; "aud"; "iat"; "jti"].

Definition strip_keys (ks : list string) (m : gmap string json) : gmap string json :=
  foldl (λ m k, delete k m) m ks.
#[global] Arguments strip_keys : simpl never.

Fixpoint sanitize_chain (a : ActClaim) : ActClaim :=
  match a with
  | MkAct s None e => MkAct s None (strip_keys nonIdentityClaimKeys e)
  | MkAct s (Some n) e =>
      MkAct s (Some (sanitize_chain n)) (strip_keys nonIdentityClaimKeys e)
  end.

Definition SanitizeNonIdentityClaims (a : option ActClaim) : option ActClaim :=
  sanitize_chain <$> a.

Fixpoint chain_depth (a : ActClaim) : nat :=
  match a with
  | MkAct _ None _ => 1
  | MkAct _ (Some n) _ => S (chain_depth n)
  end.

Definition Depth (a : option ActClaim) : nat :=
  match a with None => 0 | Some a => chain_depth a end.

(** Extras first, then [sub] and [act] on top of them. *)

Fixpoint act_map (a : ActClaim) : gmap string json :=
  match a with
  | MkAct s None e => delete "act" (<["sub" := JStr s]> e)
  | MkAct s (Some n) e => <["act" := JObj (act_map n)]> (<["sub" := JStr s]> e)
  end.

Definition ActClaimToMap (a : option ActClaim) : option (gmap string json) :=
  act_map <$> a.

Definition sub_of (m : gmap string json) : string :=
  match m !! "sub" with Some (JStr s) => s | _ => "" end.

Definition extras_of (m : gmap string json) : gmap string json :=
  delete "act" (delete "sub" m).

(** The nested object under ["act"]; only that key is followed. *)

Fixpoint act_of_json (j : json) : option ActClaim :=
  match j with
  | JObj m =>
      Some (MkAct (sub_of m)
        (map_fold (λ k v acc, if bool_decide (k = "act") then act_of_json v else acc) None m)
        (extras_of m))
  | _ => None
  end.

Definition ActClaimFromMap (m : option (gmap string json)) : option ActClaim :=
  match m with None => None | Some m => act_of_json (JObj m) end.

(** ** The agent chain (agent_identity.go) *)

Definition maxAgentChainLength : nat := 8.

Fixpoint chain_subs (a : ActClaim) : list string :=
  match a with
  | MkAct s None _ => [s]
  | MkAct s (Some n) _ => s :: chain_subs n
  end.

Definition buildAgentChain (actMap : option (gmap string json)) : list string :=
  match ActClaimFromMap actMap with
  | None => []
  | Some a => reverse (chain_subs a)
  end.

(** ** Predicates on chains *)

(** Hops whose extras hold neither of the two reserved keys. *)

Fixpoint plain (a : ActClaim) : Prop :=
  match a with
  | MkAct _ n e =>
      e !! "sub" = None ∧ e !! "act" = None ∧
      match n with None => True | Some n => plain n end
  end.

(** No hop carries a structural claim. *)

Fixpoint identity_only (a : ActClaim) : Prop :=
  match a with
  | MkAct _ n e =>
      (∀ k, k ∈ nonIdentityClaimKeys → e !! k = None) ∧
      match n with None => True | Some n => identity_only n end
  end.

(** ** Lemmas *)

Lemma fold_single (f : json → option ActClaim) (m : gmap string json) k :
  map_fold (λ k' v acc, if bool_decide (k' = k) then f v else acc) None m
  = m !! k ≫= f.
Proof.
  apply (map_fold_weak_ind (λ r m, r = m !! k ≫= f)).
  - by rewrite lookup_empty.
  - intros i x m' r Hi ->. case_bool_decide as Hk.
    + subst. by rewrite lookup_insert_eq.
    + by rewrite lookup_insert_ne.
Qed.

Lemma act_of_obj m :
  act_of_json (JObj m) = Some (MkAct (sub_of m) (m !! "act" ≫= act_of_json) (extras_of m)).
Proof. simpl. by rewrite fold_single. Qed.

Lemma lookup_strip_keys ks m k :
  strip_keys ks m !! k = if bool_decide (k ∈ ks) then None else m !! k.
Proof.
  unfold strip_keys. revert m. induction ks as [|k' ks IH]; intros m; simpl; [done|].
  rewrite IH, lookup_delete.
  repeat case_bool_decide; repeat case_decide; set_solver.
Qed.

Lemma sanitize_chain_depth a : chain_depth (sanitize_chain a) = chain_depth a.
Proof. induction a using ActClaim_chain_ind; simpl; congruence. Qed.

Lemma sanitize_chain_identity a : identity_only (sanitize_chain a).
Proof.
  induction a using ActClaim_chain_ind; simpl; (split; [|done]);
    intros k Hk; rewrite lookup_strip_keys; by rewrite bool_decide_eq_true_2.
Qed.

Lemma sanitize_chain_subs a : chain_subs (sanitize_chain a) = chain_subs a.
Proof. induction a using ActClaim_chain_ind; simpl; congruence. Qed.

Lemma plain_sanitize a : plain a → plain (sanitize_chain a).
Proof.
  induction a using ActClaim_chain_ind; simpl; intros (Hs & Ha & Hn);
    rewrite !lookup_strip_keys, Hs, Ha; repeat case_bool_decide; naive_solver.
Qed.

Lemma sub_of_act_map a : sub_of (act_map a) = Sub a.
Proof.
  destruct a as [s [n|] e]; unfold sub_of; simpl.
  - by rewrite lookup_insert_ne, lookup_insert_eq.
  - by rewrite lookup_delete_ne, lookup_insert_eq.
Qed.

Lemma extras_of_act_map a :
  plain a → extras_of (act_map a) = Extras a.
Proof.
  destruct a as [s n e]. simpl. intros (Hs & Ha & _). apply map_eq. intros k.
  unfold extras_of. destruct n as [n|]; simpl;
    rewrite !lookup_delete; repeat case_decide; simplify_eq; try done;
    rewrite ?lookup_delete_ne, ?lookup_insert_ne by done; done.
Qed.

Lemma act_of_act_map a : plain a → act_of_json (JObj (act_map a)) = Some a.
Proof.
  induction a as [s e|s a e IH] using ActClaim_chain_ind; intros Hp;
    rewrite act_of_obj, sub_of_act_map, extras_of_act_map by done.
  - simpl. by rewrite lookup_delete_eq.
  - destruct Hp as (_ & _ & Hn). change (act_map (MkAct s (Some a) e) !! "act")
      with (<["act" := JObj (act_map a)]> (<["sub" := JStr s]> e) !! "act").
    rewrite lookup_insert_eq. cbn [mbind option_bind].
    by rewrite IH.
Qed.

Lemma chain_subs_length a : length (chain_subs a) = chain_depth a.
Proof. induction a using ActClaim_chain_ind; simpl; congruence. Qed.

(** What [FromMap] reads is always plain: the reserved keys never reach the
    extras of any hop. *)

Lemma act_of_json_plain_aux n : ∀ j a,
  act_of_json j = Some a → chain_depth a ≤ n → plain a.
Proof.
  induction n as [|n IH]; intros j a Hj Hd.
  - destruct a as [s [b|] e]; simpl in Hd; lia.
  - destruct j as [| | | | |m]; try done.
    rewrite act_of_obj in Hj. simplify_eq. simpl in *.
    repeat split.
    + unfold extras_of. by rewrite lookup_delete_ne, lookup_delete_eq.
    + unfold extras_of. by rewrite lookup_delete_eq.
    + destruct (m !! "act" ≫= act_of_json) as [b|] eqn:Hb; [|done].
      destruct (m !! "act") as [j|]; [|done]. simpl in Hb. eapply IH; [done|lia].
Qed.

Lemma act_of_json_plain j a : act_of_json j = Some a → plain a.
Proof. intros H. eapply act_of_json_plain_aux; eauto. Qed.

(** ** Theorems *)

(** Reading back what was written gives the same chain, hop for hop. *)

Theorem FromMap_ToMap (a : ActClaim) :
  plain a → ActClaimFromMap (ActClaimToMap (Some a)) = Some a.
Proof. apply act_of_act_map. Qed.

(** An act claim cannot spoof its actor.  Whatever the extras hold, the written map names the hop's own [sub], and
    carries an ["act"] key exactly when the hop has a nested actor. *)

Theorem ToMap_not_spoofable (a : ActClaim) :
  act_map a !! "sub" = Some (JStr (Sub a)) ∧
  act_map a !! "act" = (λ n, JObj (act_map n)) <$> Nested a.
Proof.
  destruct a as [s [n|] e]; simpl; split.
  - by rewrite lookup_insert_ne, lookup_insert_eq.
  - by rewrite lookup_insert_eq.
  - by rewrite lookup_delete_ne, lookup_insert_eq.
  - by rewrite lookup_delete_eq.
Qed.

(** The delegation chain survives a hop.  A chain read from any JWT map and sanitised survives the next write and
    read unchanged, keeps its depth and its actors, and holds no structural
    claim at any hop. *)

Theorem sanitized_chain_stable (m : gmap string json) :
  match ActClaimFromMap (Some m) with
  | None => False
  | Some a =>
      let b := sanitize_chain a in
      SanitizeNonIdentityClaims (Some a) = Some b ∧
      identity_only b ∧ Depth (Some b) = Depth (Some a) ∧
      chain_subs b = chain_subs a ∧
      ActClaimFromMap (ActClaimToMap (Some b)) = Some b
  end.
Proof.
  unfold ActClaimFromMap. destruct (act_of_json (JObj m)) as [a|] eqn:Ha.
  - split; [done|]. split; [apply sanitize_chain_identity|].
    split; [apply sanitize_chain_depth|]. split; [apply sanitize_chain_subs|].
    apply act_of_act_map, plain_sanitize. by eapply act_of_json_plain.
  - by rewrite act_of_obj in Ha.
Qed.

(** The agent chain lists the actors from the innermost to the current one,
    one per hop. *)

Theorem buildAgentChain_spec (a : ActClaim) :
  plain a →
  buildAgentChain (ActClaimToMap (Some a)) = reverse (chain_subs a) ∧
  length (buildAgentChain (ActClaimToMap (Some a))) = Depth (Some a) ∧
  last (buildAgentChain (ActClaimToMap (Some a))) = Some (Sub a).
Proof.
  intros Hp. unfold buildAgentChain. rewrite FromMap_ToMap by done.
  split; [done|]. split.
  - by rewrite length_reverse, chain_subs_length.
  - rewrite last_reverse. by destruct a as [s [n|] e].
Qed.

End Act.
