(* ===== verification/Domain.v ===== *)
(** * internal/domain: errors, audit events and entities

    One module per entity of the domain packages, with the source's field and
    method names.  Times are [Z], nanoseconds since the Unix epoch; a nil
    [*time.Time] is [None].  Methods that read the clock take the instant as
    an argument. *)

From S2P Require Import Prelude GoStrings ScopeSet.

(** ** Errors (domain/errors.go)

    [errors.Is] looks through [fmt.Errorf "%w"], so a wrapped sentinel is the
    sentinel.  [EFault] is any error that carries no domain code: a store,
    key or provider failure.  [EOther] is an [fmt.Errorf] without sentinel. *)

Inductive err :=
  | ErrInvalidGrant | ErrInvalidClient | ErrClientNotFound | ErrInvalidScope
  | ErrCodeConsumed | ErrFamilyRevoked | ErrReuseRevocationFailed
  | ErrConsentRequired | ErrSessionExpired | ErrInvalidRedirectURI
  | ErrInvalidPKCE | ErrClientSuspended | ErrUserNotFound
  | ErrStoreReturnedNoUser | ErrRefreshTokenReused | ErrUnauthorizedClient
  | ErrDPoPReplay | ErrDPoPInvalidProof | ErrDPoPNonceRequired
  | ErrDPoPNonceMismatch | ErrTokenExchangeNotAuthorized
  | ErrTokenExchangeChainTooDeep | ErrInvalidTarget | ErrResourceNotFound
  | ErrAmbiguousResource | ErrInvalidSlug | ErrBrokerActorNotAllowed
  | ErrScopeNotInCatalog | ErrConsentResourceNotMint
  | ErrFrontingLinkNotFound | ErrFrontingLinkExists | ErrFrontingLinkCycle
  | ErrIssuanceNotFound
  | ErrAdapterNotRegistered | ErrBrokerGrantConflict
  | ErrUpstreamInvalidGrant | ErrUpstreamUnavailable | ErrUpstreamScopeDowngrade
  | ErrStateConflict
  | ErrClientConflict | ErrUserConflict | ErrUserAlreadyExists
  | ErrClientHasActiveTokens | ErrUserHasActiveTokens
  | ErrResourceHasReferences | ErrBrokerProviderHasReferences | ErrResourceHasFrontingLinks
  | ErrServiceNotFound | ErrConnectionNotFound | ErrStateNotFound | ErrInvalidState
  | ErrStateForeignUser | ErrInvalidReturnURL | ErrAmbiguousBrokerResource
  | ErrPendingStateNotFound | ErrInvalidCredentials | ErrRegistrationDisabled
  | ErrNoConnectStep          (* ports/output/broker_protocol.go *)
  | ErrSecretInputRejected    (* ports/output/secret_encoder.go *)
  | ErrIDPNotFound | ErrIDPDisabled | ErrAssertionInvalid | ErrAssertionExpired
  | ErrAssertionAudienceMismatch | ErrAssertionIssuerUntrusted | ErrAssertionTypeMismatch
  | ErrAssertionClientMismatch | ErrAssertionPolicyDenied | ErrAssertionReplay
  | ErrSubjectMappingNotFound | ErrXAAPolicyNotFound | ErrSubjectMappingDuplicate
  | errMappedUserInactive   (* services/subject_mapping.go, wraps ErrInvalidGrant *)
  | ErrOIDCAuthFailed | ErrOIDCUnavailable | ErrOIDCEmailInUse
  | FrontingLinkMissingError (source target : string)
  | ConsentRequiredError (provider resource cause denied : string) (missing : list string)
  | EInvalidRequest (msg : string)
  | EConflict (msg : string)
  | EOther (msg : string)
  | EFault.

#[global] Instance err_eq_dec : EqDecision err.
Proof. solve_decision. Defined.

Definition ErrorCode (e : err) : string :=
  match e with
  | ErrInvalidGrant | ErrCodeConsumed | ErrFamilyRevoked | ErrReuseRevocationFailed
  | ErrSessionExpired | ErrInvalidPKCE | ErrRefreshTokenReused
  | ErrIDPDisabled | ErrAssertionInvalid | ErrAssertionExpired | ErrAssertionAudienceMismatch
  | ErrAssertionIssuerUntrusted | ErrAssertionTypeMismatch | ErrAssertionReplay
  | errMappedUserInactive | ErrInvalidCredentials => "invalid_grant"
  | ErrInvalidClient | ErrClientSuspended | ErrAssertionClientMismatch => "invalid_client"
  | ErrClientNotFound | ErrUserNotFound | ErrResourceNotFound
  | ErrFrontingLinkNotFound | ErrIssuanceNotFound | ErrIDPNotFound
  | ErrXAAPolicyNotFound | ErrConnectionNotFound => "not_found"
  | ErrInvalidScope | ErrScopeNotInCatalog => "invalid_scope"
  | ErrConsentRequired | ConsentRequiredError _ _ _ _ _ => "consent_required"
  | ErrInvalidRedirectURI | ErrAmbiguousResource | ErrInvalidSlug
  | ErrBrokerActorNotAllowed | ErrConsentResourceNotMint | ErrFrontingLinkCycle
  | ErrSubjectMappingDuplicate | ErrServiceNotFound | ErrStateNotFound | ErrInvalidState
  | ErrInvalidReturnURL | ErrAmbiguousBrokerResource | ErrPendingStateNotFound
  | FrontingLinkMissingError _ _ | EInvalidRequest _ => "invalid_request"
  | ErrUnauthorizedClient => "unauthorized_client"
  | ErrDPoPReplay | ErrDPoPInvalidProof => "invalid_dpop_proof"
  | ErrDPoPNonceRequired | ErrDPoPNonceMismatch => "use_dpop_nonce"
  | ErrTokenExchangeNotAuthorized | ErrTokenExchangeChainTooDeep
  | ErrAssertionPolicyDenied | ErrSubjectMappingNotFound
  | ErrStateForeignUser | ErrRegistrationDisabled | ErrOIDCAuthFailed => "access_denied"
  | ErrOIDCUnavailable => "temporarily_unavailable"
  | ErrInvalidTarget => "invalid_target"
  | ErrFrontingLinkExists | ErrStateConflict | ErrBrokerGrantConflict
  | ErrClientConflict | ErrUserConflict | ErrUserAlreadyExists
  | ErrClientHasActiveTokens | ErrUserHasActiveTokens
  | ErrResourceHasReferences | ErrBrokerProviderHasReferences | ErrResourceHasFrontingLinks
  | ErrOIDCEmailInUse | EConflict _ => "conflict"
  | ErrAdapterNotRegistered | ErrUpstreamInvalidGrant | ErrUpstreamUnavailable
  | ErrUpstreamScopeDowngrade | ErrNoConnectStep | ErrSecretInputRejected
  | ErrStoreReturnedNoUser | EOther _ | EFault => "server_error"
  end.

Definition CauseConsentMissing : string := "consent_missing".
Definition CauseScopeInsufficient : string := "scope_insufficient".

(** ** Audit events (domain/audit/entity.go) *)

Module Audit.

Inductive Action :=
  | ActionTokenIssued | ActionTokenIssueDenied | ActionTokenRefreshed
  | ActionTokenRefreshDenied | ActionTokenRevoked | ActionConsentGranted
  | ActionConsentDenied | ActionFamilyRevoked | ActionFamilyRevocationFailed
  | ActionFamilyDenylistFailed | ActionAuthCodeReused | ActionTokenIntrospected
  | ActionTokenIntrospectDenied | ActionTokenExchanged
  | ActionTokenExchangeDenied | ActionUpstreamTokenIssued | ActionFrontingLinkCreated
  | ActionFrontingLinkPatched | ActionFrontingLinkDeleted
  | ActionConsentGrantRevokedAdmin | ActionBrokerGrantRevokedAdmin
  | ActionClientCredentialsIssued | ActionClientCredentialsDenied
  | ActionJWTBearerIssued | ActionJWTBearerDenied
  | ActionClientCreatedAdmin | ActionClientSecretRotated | ActionClientUpdated
  | ActionClientSuspended | ActionClientRevoked | ActionClientDeleted
  | ActionUserCreated | ActionUserUpdated | ActionUserDisabled | ActionUserDeleted
  | ActionForceLogout
  | ActionResourceCreated | ActionResourcePatched | ActionResourceDeleted
  | ActionResourcePolicyExchangeAllowedClientAdded | ActionResourcePolicyExchangeAllowedClientRemoved
  | ActionResourcePolicyConnectAllowedReturnURLAdded | ActionResourcePolicyConnectAllowedReturnURLRemoved
  | ActionResourcePolicyRuntimeClientAdded | ActionResourcePolicyRuntimeClientRemoved
  | ActionBrokerProviderCreated | ActionBrokerProviderPatched | ActionBrokerProviderDeleted
  | ActionIssuanceRevokedAdmin | ActionBrokerGrantCreated | ActionBrokerGrantRevoked
  | ActionClientRegistered | ActionUserLogin | ActionUserLoginFailed
  | ActionUserOIDCLogin | ActionUserOIDCLoginFailed | ActionAuthLockedOut.

#[global] Instance Action_eq_dec : EqDecision Action.
Proof. solve_decision. Defined.

Record Event := NewEvent {
  action : Action;
  ActorID : string;
  ClientID : string;
  IP : string;
  Detail : string
}.

End Audit.

(** ** Clients (domain/client/entity.go) *)

(** The components of a parsed URL the code reads ([net/url]). *)

Record URL := MkURL {
  url_Scheme : string;
  url_Host : string;
  url_Hostname : string;
  url_Path : string;
  url_RawQuery : string;
  url_Fragment : string;
  url_Rest : string     (* user info, opaque part and raw forms *)
}.

(** [u.Scheme = strings.ToLower(u.Scheme)], the same for the host. *)

Definition fold_case (lower : string → string) (u : URL) : URL :=
  MkURL (lower (url_Scheme u)) (lower (url_Host u)) (lower (url_Hostname u))
    (url_Path u) (url_RawQuery u) (url_Fragment u) (url_Rest u).

Module Client.

Inductive ClientStatus := StatusActive | StatusSuspended | StatusRevoked.

#[global] Instance ClientStatus_eq_dec : EqDecision ClientStatus.
Proof. solve_decision. Defined.

Inductive RegSource := SourceDCR | SourceCIMD | SourceAdmin.

#[global] Instance RegSource_eq_dec : EqDecision RegSource.
Proof. solve_decision. Defined.

Record Client := MkClient {
  ID : string;
  SecretHash : string;
  Name : string;
  RedirectURIs : list string;
  GrantTypes : list string;
  ResponseTypes : list string;
  TokenEndpointAuthMethod : string;
  Status : ClientStatus;
  RegistrationSource : RegSource;
  CIMDURL : string;
  ApplicationType : string;
  Scope : string;
  IsAgent : bool;
  AgentDescription : string;
  Version : Z;
  IssuedAt : Z;
  UpdatedAt : Z
}.

Definition status_text (s : ClientStatus) : string :=
  match s with StatusActive => "active" | StatusSuspended => "suspended" | StatusRevoked => "revoked" end.

Definition source_text (s : RegSource) : string :=
  match s with SourceDCR => "dcr" | SourceCIMD => "cimd" | SourceAdmin => "admin" end.

Definition IsPublic (c : Client) : bool := bool_decide (SecretHash c = "").
Definition IsActive (c : Client) : bool := bool_decide (Status c = StatusActive).

Definition set_status (c : Client) (s : ClientStatus) (now : Z) : Client :=
  {| ID := ID c; SecretHash := SecretHash c; Name := Name c;
     RedirectURIs := RedirectURIs c; GrantTypes := GrantTypes c;
     ResponseTypes := ResponseTypes c;
     TokenEndpointAuthMethod := TokenEndpointAuthMethod c; Status := s;
     RegistrationSource := RegistrationSource c; CIMDURL := CIMDURL c;
     ApplicationType := ApplicationType c; Scope := Scope c;
     IsAgent := IsAgent c; AgentDescription := AgentDescription c;
     Version := Version c; IssuedAt := IssuedAt c; UpdatedAt := now |}.

(** The row with another version and registration time. *)

Definition set_row (c : Client) (version issuedAt : Z) : Client :=
  {| ID := ID c; SecretHash := SecretHash c; Name := Name c;
     RedirectURIs := RedirectURIs c; GrantTypes := GrantTypes c;
     ResponseTypes := ResponseTypes c;
     TokenEndpointAuthMethod := TokenEndpointAuthMethod c; Status := Status c;
     RegistrationSource := RegistrationSource c; CIMDURL := CIMDURL c;
     ApplicationType := ApplicationType c; Scope := Scope c;
     IsAgent := IsAgent c; AgentDescription := AgentDescription c;
     Version := version; IssuedAt := issuedAt; UpdatedAt := UpdatedAt c |}.

Definition Suspend (now : Z) (c : Client) : Client + err :=
  if bool_decide (Status c ≠ StatusActive) then inr ErrStateConflict
  else inl (set_status c StatusSuspended now).

Definition Revoke (now : Z) (c : Client) : Client := set_status c StatusRevoked now.

Definition Reactivate (now : Z) (c : Client) : Client + err :=
  if bool_decide (Status c ≠ StatusSuspended) then inr ErrStateConflict
  else inl (set_status c StatusActive now).

Definition isLoopback (host : string) : bool :=
  orb (bool_decide (host = "localhost"))
    (orb (bool_decide (host = "127.0.0.1")) (bool_decide (host = "::1"))).

(** [url_parse] is [net/url.Parse]; [None] is its error. *)

Definition matchesLoopbackRedirect (url_parse : string → option URL)
    (registered uri : string) : bool :=
  match url_parse registered with
  | None => false
  | Some r =>
      if negb (isLoopback (url_Hostname r)) then false else
      match url_parse uri with
      | None => false
      | Some u =>
          andb (bool_decide (url_Scheme r = url_Scheme u))
            (andb (bool_decide (url_Hostname r = url_Hostname u))
              (andb (bool_decide (url_Path r = url_Path u))
                (bool_decide (url_RawQuery r = url_RawQuery u))))
      end
  end.

Definition HasRedirectURI (url_parse : string → option URL) (c : Client) (uri : string) : bool :=
  existsb (λ registered, orb (bool_decide (registered = uri))
                           (matchesLoopbackRedirect url_parse registered uri))
    (RedirectURIs c).

Definition EffectiveApplicationType (c : Client) : string :=
  if bool_decide (ApplicationType c = "") then "web" else ApplicationType c.

(** One status change made through the entity's methods. *)

Inductive status_step (now : Z) : Client → Client → Prop :=
  | step_suspend c c' : Suspend now c = inl c' → status_step now c c'
  | step_revoke c : status_step now c (Revoke now c)
  | step_reactivate c c' : Reactivate now c = inl c' → status_step now c c'.

End Client.

(** [hasGrantType] (services/client_credentials.go) *)

Fixpoint hasGrantType (grantTypes : list string) (target : string) : bool :=
  match grantTypes with
  | [] => false
  | gt :: l => if bool_decide (gt = target) then true else hasGrantType l target
  end.

Lemma hasGrantType_spec l t : hasGrantType l t = true ↔ t ∈ l.
Proof.
  induction l as [|x l IH]; simpl; [set_solver|].
  case_bool_decide; [set_solver|]. rewrite IH. set_solver.
Qed.

(** ** Users (domain/user/entity.go) *)

Module User.

Inductive UserStatus := StatusActive | StatusDisabled.

#[global] Instance UserStatus_eq_dec : EqDecision UserStatus.
Proof. solve_decision. Defined.

Record User := MkUser {
  ID : string;
  Email : string;
  Name : string;
  PasswordHash : string;
  IsAdmin : bool;      (* Role == RoleAdmin *)
  Status : UserStatus;
  IsLocal : bool;      (* Provider == ProviderLocal *)
  ProviderSub : string;
  Version : Z;
  CreatedAt : Z;
  UpdatedAt : Z
}.

Definition set_status (u : User) (s : UserStatus) (now : Z) : User :=
  {| ID := ID u; Email := Email u; Name := Name u; PasswordHash := PasswordHash u;
     IsAdmin := IsAdmin u; Status := s; IsLocal := IsLocal u;
     ProviderSub := ProviderSub u; Version := Version u; CreatedAt := CreatedAt u;
     UpdatedAt := now |}.

Definition set_row (u : User) (version createdAt : Z) : User :=
  {| ID := ID u; Email := Email u; Name := Name u; PasswordHash := PasswordHash u;
     IsAdmin := IsAdmin u; Status := Status u; IsLocal := IsLocal u;
     ProviderSub := ProviderSub u; Version := version; CreatedAt := createdAt;
     UpdatedAt := UpdatedAt u |}.

Definition IsActive (u : User) : bool := bool_decide (Status u = StatusActive).

Definition Disable (now : Z) (u : User) : User + err :=
  if bool_decide (Status u ≠ StatusActive) then inr ErrStateConflict
  else inl (set_status u StatusDisabled now).

Definition Enable (now : Z) (u : User) : User + err :=
  if bool_decide (Status u ≠ StatusDisabled) then inr ErrStateConflict
  else inl (set_status u StatusActive now).

End User.

(** ** Authorization sessions (domain/session/entity.go) *)

Module Session.

Record AuthSession := MkSession {
  ID : string;
  ClientID : string;
  UserID : string;
  RedirectURI : string;
  Scope : string;
  Resource : string;
  State : string;
  CodeHash : string;
  CodeChallenge : string;
  CodeChallengeMethod : string;
  ExpiresAt : Z;
  ConsumedAt : option Z;
  CreatedAt : Z
}.

Definition AuthCodeTTL : Z := 600000000000.

Definition IsExpired (now : Z) (s : AuthSession) : bool := bool_decide (ExpiresAt s < now)%Z.
Definition IsConsumed (s : AuthSession) : bool := bool_decide (ConsumedAt s ≠ None).

Definition with_consumed (s : AuthSession) (t : option Z) : AuthSession :=
  {| ID := ID s; ClientID := ClientID s; UserID := UserID s; RedirectURI := RedirectURI s;
     Scope := Scope s; Resource := Resource s; State := State s; CodeHash := CodeHash s;
     CodeChallenge := CodeChallenge s; CodeChallengeMethod := CodeChallengeMethod s;
     ExpiresAt := ExpiresAt s; ConsumedAt := t; CreatedAt := CreatedAt s |}.

Definition with_code (s : AuthSession) (codeHash scope : string) : AuthSession :=
  {| ID := ID s; ClientID := ClientID s; UserID := UserID s; RedirectURI := RedirectURI s;
     Scope := scope; Resource := Resource s; State := State s; CodeHash := codeHash;
     CodeChallenge := CodeChallenge s; CodeChallengeMethod := CodeChallengeMethod s;
     ExpiresAt := ExpiresAt s; ConsumedAt := ConsumedAt s; CreatedAt := CreatedAt s |}.

End Session.

(** ** Token families and refresh tokens (domain/token/entity.go) *)

Module Family.

Inductive FamilyStatus := FamilyActive | FamilyRevoked.

#[global] Instance FamilyStatus_eq_dec : EqDecision FamilyStatus.
Proof. solve_decision. Defined.

Record Family := MkFamily {
  ID : string;
  ClientID : string;
  UserID : string;
  Scope : string;
  Resource : string;
  Status : FamilyStatus;
  CreatedAt : Z;
  RevokedAt : option Z;
  AuthSessionID : string
}.

Definition status_text (x : FamilyStatus) : string :=
  match x with FamilyActive => "active" | FamilyRevoked => "revoked" end.

Definition IsActive (f : Family) : bool := bool_decide (Status f = FamilyActive).

Definition Revoke (now : Z) (f : Family) : Family :=
  {| ID := ID f; ClientID := ClientID f; UserID := UserID f; Scope := Scope f;
     Resource := Resource f; Status := FamilyRevoked; CreatedAt := CreatedAt f;
     RevokedAt := Some now; AuthSessionID := AuthSessionID f |}.

End Family.

Module Refresh.

Record RefreshToken := MkRefresh {
  ID : string;
  FamilyID : string;
  TokenHash : string;
  ExpiresAt : Z;
  ConsumedAt : option Z;
  CreatedAt : Z
}.

Definition IsExpired (now : Z) (t : RefreshToken) : bool := bool_decide (ExpiresAt t < now)%Z.
Definition IsConsumed (t : RefreshToken) : bool := bool_decide (ConsumedAt t ≠ None).

Definition consume (now : Z) (t : RefreshToken) : RefreshToken :=
  {| ID := ID t; FamilyID := FamilyID t; TokenHash := TokenHash t;
     ExpiresAt := ExpiresAt t; ConsumedAt := Some now; CreatedAt := CreatedAt t |}.

End Refresh.

(** ** Machine tokens (domain/token/machine.go) *)

Module Machine.

Record MachineToken := MkMachine {
  JTI : string;
  ClientID : string;
  Scopes : gset string;
  Resource : string;
  IssuedAt : Z;
  ExpiresAt : Z;
  Revoked : bool
}.

Definition revoke (t : MachineToken) : MachineToken :=
  {| JTI := JTI t; ClientID := ClientID t; Scopes := Scopes t; Resource := Resource t;
     IssuedAt := IssuedAt t; ExpiresAt := ExpiresAt t; Revoked := true |}.

End Machine.

(** ** Resources, grants, issuances (domain/resource) *)

Module Resource.

Inductive BackendKind := BackendMint | BackendBroker | BackendUnknown (s : string).

#[global] Instance BackendKind_eq_dec : EqDecision BackendKind.
Proof. solve_decision. Defined.

Record ScopeDef := MkScopeDef { Name : string; Description : string; Upstream : string }.

Record Resource := MkResource {
  ID : string;
  Slug : string;
  DisplayName : string;
  URI : string;
  Kind : BackendKind;
  BrokerProviderID : string;
  Scopes : list ScopeDef;
  AllowedClientIDs : list string;   (* Policy.Exchange.AllowedClientIDs *)
  RuntimeClientIDs : list string;   (* Policy.Runtime.ClientIDs *)
  AllowedReturnURLs : list string;  (* Policy.Connect.AllowedReturnURLs *)
  CreatedAt : Z;
  UpdatedAt : Z
}.

Definition IsMint (r : Resource) : bool := bool_decide (Kind r = BackendMint).
Definition IsBroker (r : Resource) : bool := bool_decide (Kind r = BackendBroker).

Definition scope_names (r : Resource) : list string := Name <$> Scopes r.

(** [slugPattern]: [^[a-z0-9][a-z0-9-]{0,63}$] *)

Definition slug_char (hyphen : bool) (c : Ascii.ascii) : bool :=
  let n := Ascii.nat_of_ascii c in
  orb (bool_decide (97 ≤ n ∧ n ≤ 122))
    (orb (bool_decide (48 ≤ n ∧ n ≤ 57)) (andb hyphen (bool_decide (n = 45)))).

Fixpoint all_chars (P : Ascii.ascii → bool) (s : string) : bool :=
  match s with EmptyString => true | String c s' => andb (P c) (all_chars P s') end.

Definition slug_match (s : string) : bool :=
  match s with
  | EmptyString => false
  | String c s' => andb (slug_char false c)
                     (andb (all_chars (slug_char true) s') (bool_decide (String.length s' ≤ 63)))
  end.

(** [strings.ToLower] on ASCII *)

Definition lower_char (c : Ascii.ascii) : Ascii.ascii :=
  let n := Ascii.nat_of_ascii c in
  if bool_decide (65 ≤ n ∧ n ≤ 90) then Ascii.ascii_of_nat (n + 32) else c.

Fixpoint strings_ToLower (s : string) : string :=
  match s with EmptyString => "" | String c s' => String (lower_char c) (strings_ToLower s') end.

Definition NormalizeSlug (s : string) : string + err :=
  let canonical := strings_ToLower s in
  if slug_match canonical then inl canonical else inr ErrInvalidSlug.

Definition validateResourceURI (url_parse : string → option URL) (uri : string) : option err :=
  if bool_decide (uri = "") then None else
  match url_parse uri with
  | None => Some (EOther "uri must be a valid URL")
  | Some u =>
      if bool_decide (url_Scheme u = "") then Some (EOther "uri must be absolute")
      else if negb (orb (bool_decide (url_Scheme u = "http")) (bool_decide (url_Scheme u = "https")))
      then Some (EOther "uri scheme must be http or https")
      else if bool_decide (url_Host u = "") then Some (EOther "uri must include a host")
      else None
  end.

Fixpoint validate_scopes_from (seen : gset string) (scopes : list ScopeDef) : option err :=
  match scopes with
  | [] => None
  | s :: l =>
      if bool_decide (Name s = "") then Some (EOther "scope name must not be empty")
      else if bool_decide (Name s ∈ seen) then Some (EOther "scope name duplicates an earlier entry")
      else validate_scopes_from ({[Name s]} ∪ seen) l
  end.

Definition validateResourceScopes (scopes : list ScopeDef) : option err :=
  validate_scopes_from ∅ scopes.

Definition Validate (url_parse : string → option URL) (r : Resource) : option err :=
  if bool_decide (Slug r = "") then Some ErrInvalidSlug
  else if negb (slug_match (Slug r)) then Some ErrInvalidSlug
  else
    let kind_err :=
      match Kind r with
      | BackendMint => if bool_decide (BrokerProviderID r ≠ "")
          then Some (EOther "mint resource must not reference a broker provider") else None
      | BackendBroker => if bool_decide (BrokerProviderID r = "")
          then Some (EOther "broker resource must reference a broker provider") else None
      | BackendUnknown _ => Some (EOther "backend_kind must be mint or broker")
      end in
    match kind_err with
    | Some e => Some e
    | None =>
        match validateResourceURI url_parse (URI r) with
        | Some e => Some e
        | None => validateResourceScopes (Scopes r)
        end
    end.

End Resource.

Module Grant.

Record ConsentGrant := MkGrant {
  ID : string;
  UserID : string;
  ClientID : string;
  ResourceID : string;
  Scopes : list string;
  CreatedAt : Z;
  UpdatedAt : Z;
  RevokedAt : option Z
}.

Definition IsRevoked (g : ConsentGrant) : bool := bool_decide (RevokedAt g ≠ None).

Definition revoke (now : Z) (g : ConsentGrant) : ConsentGrant :=
  MkGrant (ID g) (UserID g) (ClientID g) (ResourceID g) (Scopes g) (CreatedAt g) now (Some now).

Definition CoversScopes (g : ConsentGrant) (requested : list string) : bool :=
  if bool_decide (requested = []) then true
  else forallb (λ s, bool_decide (s ∈ (list_to_set (Scopes g) : gset string))) requested.

Lemma CoversScopes_spec g requested :
  CoversScopes g requested = true ↔ ∀ s, s ∈ requested → s ∈ Scopes g.
Proof.
  unfold CoversScopes. case_bool_decide as Hr; [subst; set_solver|].
  rewrite forallb_forall. setoid_rewrite bool_decide_eq_true.
  setoid_rewrite <-list_elem_of_In. set_solver.
Qed.

End Grant.

(** ** Broker providers and grants (domain/resource/broker_provider.go, grant.go)

    Byte strings are [string]; the protocol name selects the adapter. *)

Module Broker.

Record BrokerProvider := MkProvider {
  ID : string;
  Slug : string;
  DisplayName : string;
  Protocol : string;
  ConfigData : string;
  EncSecretData : string;
  EncSecretBackend : string;
  p_CreatedAt : Z;
  p_UpdatedAt : Z
}.

Record BrokerGrant := MkBrokerGrant {
  g_ID : string;
  UserID : string;
  BrokerProviderID : string;
  CredentialData : string;
  ScopesGranted : list string;
  EncBackend : string;
  Version : Z;
  CreatedAt : Z;
  UpdatedAt : Z;
  RevokedAt : option Z
}.

Definition IsRevoked (g : BrokerGrant) : bool := bool_decide (RevokedAt g ≠ None).

Definition with_credential (g : BrokerGrant) (cred : string) (now : Z) : BrokerGrant :=
  MkBrokerGrant (g_ID g) (UserID g) (BrokerProviderID g) cred (ScopesGranted g) (EncBackend g)
    (Version g) (CreatedAt g) now (RevokedAt g).

End Broker.

(** ** Pending connect flows (domain/resource/connect_pending_state.go)

    [None] for the expiry is Go's zero time. *)

Module Pending.

Record ConnectPendingState := MkPending {
  ID : string;
  UserID : string;
  ProviderID : string;
  ResourceID : string;
  CodeVerifier : string;
  ReturnURL : string;
  Scopes : list string;
  ExpiresAt : option Z
}.

Definition IsExpired (now : Z) (s : ConnectPendingState) : bool :=
  match ExpiresAt s with Some t => negb (bool_decide (now < t)%Z) | None => false end.

End Pending.

Module Issuance.

Definition MaxAgentChainLength : nat := 8.

Record Issuance := MkIssuance {
  ID : string;
  SubjectUserID : string;
  ClientID : string;
  ResourceID : string;
  Scopes : list string;
  BackendKind : Resource.BackendKind;
  Revocable : bool;
  IssuedAt : Z;
  ExpiresAt : Z;
  RevokedAt : option Z;
  JTI : string;
  DPoPJKT : string;
  AgentID : string;
  AgentChain : list string;
  ConsentClientID : string;
  ParentJTI : string
}.

Definition IsRevoked (i : Issuance) : bool := bool_decide (RevokedAt i ≠ None).

(** [SetAgentChain] keeps the first [MaxAgentChainLength] entries. *)

Definition truncate_chain (chain : list string) : list string :=
  if bool_decide (MaxAgentChainLength < length chain)
  then take MaxAgentChainLength chain else chain.

Definition revoke (now : Z) (i : Issuance) : Issuance :=
  {| ID := ID i; SubjectUserID := SubjectUserID i; ClientID := ClientID i;
     ResourceID := ResourceID i; Scopes := Scopes i; BackendKind := BackendKind i;
     Revocable := Revocable i; IssuedAt := IssuedAt i; ExpiresAt := ExpiresAt i;
     RevokedAt := Some now; JTI := JTI i; DPoPJKT := DPoPJKT i; AgentID := AgentID i;
     AgentChain := AgentChain i; ConsentClientID := ConsentClientID i;
     ParentJTI := ParentJTI i |}.

End Issuance.

(** ** Fronting links (domain/resource/fronting_link.go) *)

Module Link.

Record FrontingLink := MkLink {
  SourceSlug : string;
  TargetSlug : string;
  ScopeMap : gmap string (list string);
  CreatedAt : Z;
  CreatedBy : string
}.

Definition SourceScopes (m : gmap string (list string)) : list string :=
  sort_Strings ((map_to_list m).*1).

Definition target_set (m : gmap string (list string)) : gset string :=
  list_to_set (concat ((map_to_list m).*2)).

Definition TargetScopes (m : gmap string (list string)) : list string :=
  sort_Strings (elements (target_set m)).

Definition ReferencesSourceScope (m : gmap string (list string)) (scope : string) : bool :=
  bool_decide (is_Some (m !! scope)).

Definition ReferencesTargetScope (m : gmap string (list string)) (scope : string) : bool :=
  existsb (λ vs, existsb (λ v, bool_decide (v = scope)) vs) ((map_to_list m).*2).

Fixpoint validate_targets (seen : gset string) (tgts : list string) : option err :=
  match tgts with
  | [] => None
  | t :: l =>
      if bool_decide (t = "") then Some (EInvalidRequest "scope_map entry contains an empty target scope")
      else if bool_decide (t ∈ seen) then Some (EInvalidRequest "scope_map entry contains duplicate target scope")
      else validate_targets ({[t]} ∪ seen) l
  end.

Definition validate_entry (e : string * list string) : option err :=
  let '(src, tgts) := e in
  if bool_decide (src = "") then Some (EInvalidRequest "scope_map keys must not be empty")
  else if bool_decide (tgts = []) then Some (EInvalidRequest "scope_map entry must list at least one target scope")
  else validate_targets ∅ tgts.

(** The first failing entry, in iteration order, decides the message. *)

Fixpoint validate_entries (es : list (string * list string)) : option err :=
  match es with
  | [] => None
  | e :: l => match validate_entry e with Some x => Some x | None => validate_entries l end
  end.

Definition Validate (l : FrontingLink) : option err :=
  if bool_decide (SourceSlug l = "") then Some (EInvalidRequest "source slug is required")
  else if bool_decide (TargetSlug l = "") then Some (EInvalidRequest "target slug is required")
  else if negb (Resource.slug_match (SourceSlug l)) then Some (EInvalidRequest "source slug is malformed")
  else if negb (Resource.slug_match (TargetSlug l)) then Some (EInvalidRequest "target slug is malformed")
  else if bool_decide (SourceSlug l = TargetSlug l) then Some (EInvalidRequest "source and target must differ (no self-loop)")
  else if bool_decide (size (ScopeMap l) = 0) then Some (EInvalidRequest "scope_map must contain at least one entry")
  else validate_entries (map_to_list (ScopeMap l)).

End Link.

(** ** Enterprise-managed authorization (domain/idp, domain/xaa, domain/token/assertion.go)

    In a policy [Scopes] distinguishes nil ([None]) from an empty list; of the
    two other lists only the members matter. *)

Module XAA.

Record TrustedIDP := MkIDP {
  idp_ID : string;
  idp_Name : string;
  idp_Issuer : string;
  JWKSUri : string;
  idp_Audience : string;
  idp_Enabled : bool;
  idp_CreatedAt : Z;
  idp_UpdatedAt : Z
}.

Record Policy := MkPolicy {
  p_ID : string;
  p_Name : string;
  p_IDPID : string;
  ClientIDs : list string;
  p_Scopes : option (list string);
  Resources : list string;
  p_Enabled : bool;
  p_CreatedAt : Z;
  p_UpdatedAt : Z
}.

Record SubjectMapping := MkMapping {
  m_ID : string;
  m_IDPID : string;
  IDPSubject : string;
  LocalUserID : string;
  m_CreatedAt : Z
}.

(** The claims of an ID-JAG assertion. *)

Record IdentityAssertion := MkAssertion {
  a_Issuer : string;
  a_Subject : string;
  a_Audience : string;
  a_Resource : string;
  a_ClientID : string;
  a_JTI : string;
  a_Expiry : Z;
  a_IssuedAt : Z;
  a_Scope : string
}.

Record JWK := MkJWK { KeyID : string; Key : string }.

(** An entry of the JWKS cache (adapters/idpjwks/cache.go). *)

Record Entry := MkEntry { e_keys : list JWK; e_expiresAt : Z }.

Definition validateHTTPSURL (url_parse : string → option URL) (raw field : string) : option err :=
  if bool_decide (raw = "") then Some (EOther (field +:+ " is required")) else
  match url_parse raw with
  | None => Some (EOther (field +:+ " is not a valid URL"))
  | Some u =>
      if bool_decide (url_Scheme u ≠ "https") then Some (EOther (field +:+ " must use HTTPS scheme"))
      else if bool_decide (url_Host u = "") then Some (EOther (field +:+ " must have a host"))
      else None
  end.

Definition Validate (url_parse : string → option URL) (idp : TrustedIDP) : option err :=
  if bool_decide (idp_Name idp = "") then Some (EOther "name is required") else
  match validateHTTPSURL url_parse (idp_Issuer idp) "issuer" with
  | Some x => Some x
  | None =>
      match (if bool_decide (JWKSUri idp ≠ "") then validateHTTPSURL url_parse (JWKSUri idp) "jwks_uri" else None) with
      | Some x => Some x
      | None => if bool_decide (idp_Audience idp = "") then Some (EOther "audience is required") else None
      end
  end.

End XAA.
