(* ===== verification/Db.v ===== *)
(** * The database: tables and the text order of stored times

    [internal/adapters/sqlite] keeps one table per entity.  A table is a
    [gmap] from its primary key to its row; the UNIQUE and FOREIGN KEY
    constraints of [migrations/sqlite] are checked by the operations that
    insert (see [Stores.v]).  Times are stored as RFC 3339 text with the
    trailing zeros of the fraction trimmed ([formatTime]), and SQL compares
    that text. *)

From S2P Require Import Prelude GoStrings ScopeSet Domain.

(** ** formatTime and the comparison of stored times *)

Module SqlTime.

Definition nano : Z := 1000000000.

Definition sec (t : Z) : Z := (t / nano)%Z.
Definition frac (t : Z) : Z := (t mod nano)%Z.

(** [k] decimal digits of [n], most significant first. *)

Fixpoint digits (k : nat) (n : Z) : string :=
  match k with
  | 0 => ""
  | S k' => String (Ascii.ascii_of_nat (48 + Z.to_nat ((n / 10 ^ Z.of_nat k') mod 10)%Z)) (digits k' n)
  end.

Fixpoint trim_zeros (s : string) : string :=
  match s with
  | EmptyString => ""
  | String c s' =>
      let t := trim_zeros s' in
      if andb (bool_decide (t = "")) (bool_decide (Ascii.nat_of_ascii c = 48)) then "" else String c t
  end.

(** What follows the seconds in [time.RFC3339Nano] for a UTC time: the
    trimmed fraction, if any, and the zone letter. *)

Definition suffix (t : Z) : string :=
  if bool_decide (frac t = 0%Z) then "Z"
  else "." +:+ trim_zeros (digits 9 (frac t)) +:+ "Z".

(** [expires_at < ?] on two stored times.  Up to the seconds the texts have
    the same width and the order of the instants (years 0 to 9999); within
    the same second the order is the one of the suffixes. *)

Definition text_lt (a b : Z) : bool :=
  if bool_decide (sec a = sec b)
  then String.ltb (suffix a) (suffix b)
  else bool_decide (sec a < sec b)%Z.

(** The text order follows time up to one second. *)

Lemma text_lt_skew a b : text_lt a b = true → (a < b + nano)%Z.
Proof.
  unfold text_lt. intros H.
  pose proof (Z.div_mod a nano) as Ha. pose proof (Z.div_mod b nano) as Hb.
  pose proof (Z.mod_pos_bound a nano) as Ha'. pose proof (Z.mod_pos_bound b nano) as Hb'.
  unfold sec, nano in *.
  case_bool_decide; unbool; lia.
Qed.

Lemma text_lt_of_lt a b : (a + nano <= b)%Z → text_lt a b = true.
Proof.
  unfold text_lt. intros H.
  pose proof (Z.div_mod a nano) as Ha. pose proof (Z.div_mod b nano) as Hb.
  pose proof (Z.mod_pos_bound a nano) as Ha'. pose proof (Z.mod_pos_bound b nano) as Hb'.
  unfold sec, nano in *.
  case_bool_decide; [lia|]. apply bool_decide_eq_true. lia.
Qed.

End SqlTime.

(** ** Tables *)

(** The tables of the enterprise-managed grant, and the JWKS cache of its
    identity providers, which all requests of the process share. *)

Record XAATables := MkXAA {
  trusted_idps : gmap string XAA.TrustedIDP;
  xaa_policies : gmap string XAA.Policy;
  subject_mappings : gmap string XAA.SubjectMapping;
  assertion_jtis : gmap string Z;               (* jti -> expires_at *)
  jwks_cache : gmap string XAA.Entry            (* issuer -> keys *)
}.

Definition empty_xaa : XAATables := MkXAA ∅ ∅ ∅ ∅ ∅.

Record DB := MkDB {
  clients : gmap string Client.Client;
  users : gmap string User.User;
  auth_sessions : gmap string Session.AuthSession;
  token_families : gmap string Family.Family;
  refresh_tokens : gmap string Refresh.RefreshToken;
  access_token_jtis : gmap string (string * Z);   (* jti -> family_id, expires_at *)
  revoked_jtis : gmap string Z;                   (* jti -> expires_at *)
  machine_tokens : gmap string Machine.MachineToken;
  issuances : gmap string Issuance.Issuance;
  resources : gmap string Resource.Resource;
  consent_grants : gmap (string * string * string) Grant.ConsentGrant; (* user, client, resource *)
  fronting_links : gmap (string * string) Link.FrontingLink;           (* source, target *)
  dpop_jtis : gmap string Z;
  dpop_nonces : gmap string Z;
  broker_providers : gmap string Broker.BrokerProvider;
  broker_grants : gmap (string * string) Broker.BrokerGrant;            (* user, provider *)
  xaa : XAATables;
  connect_states : gmap string Pending.ConnectPendingState
}.

(** Replacing one table. *)

Definition set_clients (t : gmap string Client.Client) (d : DB) : DB :=
  MkDB t (users d) (auth_sessions d) (token_families d) (refresh_tokens d) (access_token_jtis d)
    (revoked_jtis d) (machine_tokens d) (issuances d) (resources d) (consent_grants d)
    (fronting_links d) (dpop_jtis d) (dpop_nonces d)
    (broker_providers d) (broker_grants d) (xaa d) (connect_states d).

Definition set_users (t : gmap string User.User) (d : DB) : DB :=
  MkDB (clients d) t (auth_sessions d) (token_families d) (refresh_tokens d) (access_token_jtis d)
    (revoked_jtis d) (machine_tokens d) (issuances d) (resources d) (consent_grants d)
    (fronting_links d) (dpop_jtis d) (dpop_nonces d)
    (broker_providers d) (broker_grants d) (xaa d) (connect_states d).

Definition set_sessions (t : gmap string Session.AuthSession) (d : DB) : DB :=
  MkDB (clients d) (users d) t (token_families d) (refresh_tokens d) (access_token_jtis d)
    (revoked_jtis d) (machine_tokens d) (issuances d) (resources d) (consent_grants d)
    (fronting_links d) (dpop_jtis d) (dpop_nonces d)
    (broker_providers d) (broker_grants d) (xaa d) (connect_states d).

Definition set_families (t : gmap string Family.Family) (d : DB) : DB :=
  MkDB (clients d) (users d) (auth_sessions d) t (refresh_tokens d) (access_token_jtis d)
    (revoked_jtis d) (machine_tokens d) (issuances d) (resources d) (consent_grants d)
    (fronting_links d) (dpop_jtis d) (dpop_nonces d)
    (broker_providers d) (broker_grants d) (xaa d) (connect_states d).

Definition set_refresh (t : gmap string Refresh.RefreshToken) (d : DB) : DB :=
  MkDB (clients d) (users d) (auth_sessions d) (token_families d) t (access_token_jtis d)
    (revoked_jtis d) (machine_tokens d) (issuances d) (resources d) (consent_grants d)
    (fronting_links d) (dpop_jtis d) (dpop_nonces d)
    (broker_providers d) (broker_grants d) (xaa d) (connect_states d).

Definition set_tracked (t : gmap string (string * Z)) (d : DB) : DB :=
  MkDB (clients d) (users d) (auth_sessions d) (token_families d) (refresh_tokens d) t
    (revoked_jtis d) (machine_tokens d) (issuances d) (resources d) (consent_grants d)
    (fronting_links d) (dpop_jtis d) (dpop_nonces d)
    (broker_providers d) (broker_grants d) (xaa d) (connect_states d).

Definition set_revoked (t : gmap string Z) (d : DB) : DB :=
  MkDB (clients d) (users d) (auth_sessions d) (token_families d) (refresh_tokens d)
    (access_token_jtis d) t (machine_tokens d) (issuances d) (resources d) (consent_grants d)
    (fronting_links d) (dpop_jtis d) (dpop_nonces d)
    (broker_providers d) (broker_grants d) (xaa d) (connect_states d).

Definition set_machine (t : gmap string Machine.MachineToken) (d : DB) : DB :=
  MkDB (clients d) (users d) (auth_sessions d) (token_families d) (refresh_tokens d)
    (access_token_jtis d) (revoked_jtis d) t (issuances d) (resources d) (consent_grants d)
    (fronting_links d) (dpop_jtis d) (dpop_nonces d)
    (broker_providers d) (broker_grants d) (xaa d) (connect_states d).

Definition set_issuances (t : gmap string Issuance.Issuance) (d : DB) : DB :=
  MkDB (clients d) (users d) (auth_sessions d) (token_families d) (refresh_tokens d)
    (access_token_jtis d) (revoked_jtis d) (machine_tokens d) t (resources d) (consent_grants d)
    (fronting_links d) (dpop_jtis d) (dpop_nonces d)
    (broker_providers d) (broker_grants d) (xaa d) (connect_states d).

Definition set_resources (t : gmap string Resource.Resource) (d : DB) : DB :=
  MkDB (clients d) (users d) (auth_sessions d) (token_families d) (refresh_tokens d)
    (access_token_jtis d) (revoked_jtis d) (machine_tokens d) (issuances d) t (consent_grants d)
    (fronting_links d) (dpop_jtis d) (dpop_nonces d)
    (broker_providers d) (broker_grants d) (xaa d) (connect_states d).

Definition set_grants (t : gmap (string * string * string) Grant.ConsentGrant) (d : DB) : DB :=
  MkDB (clients d) (users d) (auth_sessions d) (token_families d) (refresh_tokens d)
    (access_token_jtis d) (revoked_jtis d) (machine_tokens d) (issuances d) (resources d) t
    (fronting_links d) (dpop_jtis d) (dpop_nonces d)
    (broker_providers d) (broker_grants d) (xaa d) (connect_states d).

Definition set_links (t : gmap (string * string) Link.FrontingLink) (d : DB) : DB :=
  MkDB (clients d) (users d) (auth_sessions d) (token_families d) (refresh_tokens d)
    (access_token_jtis d) (revoked_jtis d) (machine_tokens d) (issuances d) (resources d)
    (consent_grants d) t (dpop_jtis d) (dpop_nonces d)
    (broker_providers d) (broker_grants d) (xaa d) (connect_states d).

Definition set_dpop_jtis (t : gmap string Z) (d : DB) : DB :=
  MkDB (clients d) (users d) (auth_sessions d) (token_families d) (refresh_tokens d)
    (access_token_jtis d) (revoked_jtis d) (machine_tokens d) (issuances d) (resources d)
    (consent_grants d) (fronting_links d) t (dpop_nonces d)
    (broker_providers d) (broker_grants d) (xaa d) (connect_states d).

Definition set_broker_grants (t : gmap (string * string) Broker.BrokerGrant) (d : DB) : DB :=
  MkDB (clients d) (users d) (auth_sessions d) (token_families d) (refresh_tokens d)
    (access_token_jtis d) (revoked_jtis d) (machine_tokens d) (issuances d) (resources d)
    (consent_grants d) (fronting_links d) (dpop_jtis d) (dpop_nonces d) (broker_providers d) t (xaa d) (connect_states d).

Definition set_providers (t : gmap string Broker.BrokerProvider) (d : DB) : DB :=
  MkDB (clients d) (users d) (auth_sessions d) (token_families d) (refresh_tokens d)
    (access_token_jtis d) (revoked_jtis d) (machine_tokens d) (issuances d) (resources d)
    (consent_grants d) (fronting_links d) (dpop_jtis d) (dpop_nonces d) t (broker_grants d) (xaa d)
    (connect_states d).

Definition set_states (t : gmap string Pending.ConnectPendingState) (d : DB) : DB :=
  MkDB (clients d) (users d) (auth_sessions d) (token_families d) (refresh_tokens d)
    (access_token_jtis d) (revoked_jtis d) (machine_tokens d) (issuances d) (resources d)
    (consent_grants d) (fronting_links d) (dpop_jtis d) (dpop_nonces d)
    (broker_providers d) (broker_grants d) (xaa d) t.

Definition set_xaa (t : XAATables) (d : DB) : DB :=
  MkDB (clients d) (users d) (auth_sessions d) (token_families d) (refresh_tokens d)
    (access_token_jtis d) (revoked_jtis d) (machine_tokens d) (issuances d) (resources d)
    (consent_grants d) (fronting_links d) (dpop_jtis d) (dpop_nonces d)
    (broker_providers d) (broker_grants d) t (connect_states d).

Definition set_idps (t : gmap string XAA.TrustedIDP) (d : DB) : DB :=
  set_xaa (MkXAA t (xaa_policies (xaa d)) (subject_mappings (xaa d)) (assertion_jtis (xaa d))
             (jwks_cache (xaa d))) d.

Definition set_policies (t : gmap string XAA.Policy) (d : DB) : DB :=
  set_xaa (MkXAA (trusted_idps (xaa d)) t (subject_mappings (xaa d)) (assertion_jtis (xaa d))
             (jwks_cache (xaa d))) d.

Definition set_mappings (t : gmap string XAA.SubjectMapping) (d : DB) : DB :=
  set_xaa (MkXAA (trusted_idps (xaa d)) (xaa_policies (xaa d)) t (assertion_jtis (xaa d))
             (jwks_cache (xaa d))) d.

Definition set_assertions (t : gmap string Z) (d : DB) : DB :=
  set_xaa (MkXAA (trusted_idps (xaa d)) (xaa_policies (xaa d)) (subject_mappings (xaa d)) t
             (jwks_cache (xaa d))) d.

Definition set_jwks (t : gmap string XAA.Entry) (d : DB) : DB :=
  set_xaa (MkXAA (trusted_idps (xaa d)) (xaa_policies (xaa d)) (subject_mappings (xaa d))
             (assertion_jtis (xaa d)) t) d.

Definition empty_db : DB := MkDB ∅ ∅ ∅ ∅ ∅ ∅ ∅ ∅ ∅ ∅ ∅ ∅ ∅ ∅ ∅ ∅ empty_xaa ∅.
