(* ===== verification/Effects.v ===== *)
(** * Effects: store calls, clock, randomness, failures and interference

    A handler is a computation [M A]: it reads the environment and moves a
    [World] (tables, step counter, audit trail).  Every call that leaves the
    process takes one step of the counter:

    - [fault n] says whether the call made at step [n] fails; a failing store
      call leaves the tables as they were;
    - [clock n] is the instant read at step [n];
    - [rand n] is the random string drawn at step [n];
    - [interfere n] is what the other requests did to the tables since the
      previous store call.  A theorem that quantifies over [Env] therefore
      covers every interleaving with other requests, restricted only by what
      it assumes of [interfere].

    An [Err] does not undo writes; [with_tx] does, as [WithTransaction]. *)

From S2P Require Import Prelude GoStrings ScopeSet Act Domain Db.

Inductive res (A : Type) := Ok (a : A) | Err (e : err).
Arguments Ok {A} a.
Arguments Err {A} e.

(** ** Parameters: cryptography and URL parsing

    The Go standard library and go-jose.  [jws_open] is [jwt.ParseSigned]
    with the typ, key and signature checks; [proof_open] the same for a DPoP
    proof, with the thumbprint of its key. *)

Record AccessTokenClaims := MkClaims {
  c_Issuer : string;
  c_Subject : string;
  c_Audience : list string;
  c_ClientID : string;
  c_Scope : string;
  c_JTI : string;
  c_IssuedAt : Z;
  c_Expiry : Z;
  c_NotBefore : Z;
  c_Cnf : option (gmap string json);
  c_Act : option (gmap string json);
  c_AgentID : string;
  c_AgentChain : list string
}.

Record DPoPClaims := MkDPoPClaims {
  d_JTI : string; d_HTM : string; d_HTU : string; d_IAT : Z;
  d_Nonce : string; d_ATH : string; d_JKT : string
}.

(** A parsed JWS with one signature, before its signature is checked: the
    headers, and what [json.Unmarshal] makes of the payload, read for [iss]
    alone and as a whole assertion ([None] is its error). *)

Record ParsedAssertion := MkParsed {
  j_typ : string;
  j_kid : string;
  j_iss : option string;
  j_claims : option XAA.IdentityAssertion
}.

Record Params := MkParams {
  sha256_hex : string → string;
  sha256_b64url : string → string;
  hmac_b64 : string → string → string;
  bcrypt_ok : string → string → bool;
  pepper : string;
  url_parse : string → option URL;
  url_string : URL → string;          (* (URL).String *)
  jws_sign : AccessTokenClaims → string;
  jws_open : string → option AccessTokenClaims;
  proof_open : string → option DPoPClaims;
  jag_parse : string → option ParsedAssertion;    (* jose.ParseSigned, asymmetric algorithms *)
  jag_verify : string → string → bool             (* key, token: Verify *)
}.

Record Config := MkConfig {
  AccessTokenExpiry : Z;
  RefreshTokenExpiry : Z;
  DPoPEnabled : bool;
  RequireNonce : bool;
  ProofLifetime : Z;
  Issuer : string;
  RequireScope : bool;
  AllowSelfExchange : bool;
  MaxChainDepth : nat;
  ExchangeTokenExpiry : Z;
  ClientCredentialsTokenExpiry : Z;
  XAATokenExpiry : Z;
  MaxAssertionAge : Z;
  RequireResource : bool;
  SubjectMode : string
}.

Record Env := MkEnv {
  fault : nat → bool;
  clock : nat → Z;
  rand : nat → string;
  interfere : nat → DB → DB;
  params : Params;
  config : Config
}.

(** [w_steps] is a history variable: the tables before and after every store
    call the handler made itself, in order.  No operation reads it. *)

Record World := MkWorld {
  w_db : DB;
  w_tick : nat;
  w_audit : list Audit.Event;
  w_steps : list (DB * DB)
}.

(** One step of the counter, with new tables and the history it adds. *)

Definition after (w : World) (d : DB) (l : list (DB * DB)) : World :=
  MkWorld d (S (w_tick w)) (w_audit w) (w_steps w ++ l).

Definition M (A : Type) : Type := Env → World → res A * World.

#[export] Instance M_ret : MRet M := λ A a _ w, (Ok a, w).

#[export] Instance M_bind : MBind M := λ A B k m e w,
  match m e w with
  | (Ok a, w') => k a e w'
  | (Err x, w') => (Err x, w')
  end.

Definition throw {A} (x : err) : M A := λ _ w, (Err x, w).

(** [x, err := m]: the error as a value. *)

Definition try {A} (m : M A) : M (res A) := λ e w,
  let '(r, w') := m e w in (Ok r, w').

Definition ask {A} (f : Env → A) : M A := λ e w, (Ok (f e), w).

(** One store call. *)

Definition store {A} (f : Z → DB → res A * DB) : M A := λ e w,
  let n := w_tick w in
  let d := interfere e n (w_db w) in
  if fault e n then (Err EFault, after w d [])
  else let '(r, d') := f (clock e n) d in (r, after w d' [(d, d')]).

(** A read that changes nothing. *)

Definition query {A} (f : Z → DB → res A) : M A := store (λ t d, (f t d, d)).

(** A per-request configuration, issuer or key provider; it can fail. *)

Definition provider {A} (f : Env → A) : M A := λ e w,
  let w' := after w (w_db w) [] in
  if fault e (w_tick w) then (Err EFault, w') else (Ok (f e), w').

Definition time_Now : M Z := λ e w,
  (Ok (clock e (w_tick w)), after w (w_db w) []).

Definition GenerateRandomString : M string := λ e w,
  (Ok (rand e (w_tick w)), after w (w_db w) []).

(** Best-effort audit record: it never fails the request. *)

Definition record_audit (wired : bool) (ev : Audit.Event) : M unit := λ _ w,
  (Ok tt, if wired then MkWorld (w_db w) (w_tick w) (w_audit w ++ [ev]) (w_steps w) else w).

(** [WithTransaction]: the single connection isolates the body, an error or a
    failed commit restores the tables as they were when it began.  In the
    history a committed transaction is one step. *)

Definition quiet_env (e : Env) : Env :=
  MkEnv (fault e) (clock e) (rand e) (λ _ d, d) (params e) (config e).

Definition with_tx {A} (m : M A) : M A := λ e w,
  let d := interfere e (w_tick w) (w_db w) in
  if fault e (w_tick w) then (Err EFault, after w d []) else
  match m (quiet_env e) (after w d []) with
  | (Err x, w') => (Err x, MkWorld d (w_tick w') (w_audit w') (w_steps w))
  | (Ok a, w') =>
      if fault e (w_tick w')
      then (Err EFault, MkWorld d (S (w_tick w')) (w_audit w') (w_steps w))
      else (Ok a, MkWorld (w_db w') (S (w_tick w')) (w_audit w') (w_steps w ++ [(d, w_db w')]))
  end.

Definition in_tx {A} (wired : bool) (m : M A) : M A := if wired then with_tx m else m.

(** [when c m]: [if c { m }]. *)

Definition when (c : bool) (m : M unit) : M unit := if c then m else mret tt.

(** Failing when a check does not hold. *)

Definition ensure (c : bool) (x : err) : M unit := if c then mret tt else throw x.

(** ** Reasoning about computations *)

Lemma bind_ok {A B} (m : M A) (k : A → M B) e w b w' :
  (m ≫= k) e w = (Ok b, w') → ∃ a w1, m e w = (Ok a, w1) ∧ k a e w1 = (Ok b, w').
Proof. unfold mbind, M_bind. destruct (m e w) as [[a|x] w1]; naive_solver. Qed.

Lemma bind_err {A B} (m : M A) (k : A → M B) e w x w' :
  (m ≫= k) e w = (Err x, w') →
  m e w = (Err x, w') ∨ ∃ a w1, m e w = (Ok a, w1) ∧ k a e w1 = (Err x, w').
Proof. unfold mbind, M_bind. destruct (m e w) as [[a|y] w1]; naive_solver. Qed.

Lemma bind_cases {A B} (m : M A) (k : A → M B) e w r w' :
  (m ≫= k) e w = (r, w') →
  (∃ x, m e w = (Err x, w') ∧ r = Err x) ∨ ∃ a w1, m e w = (Ok a, w1) ∧ k a e w1 = (r, w').
Proof. unfold mbind, M_bind. destruct (m e w) as [[a|y] w1]; naive_solver. Qed.

Lemma bind_step {A B} (m : M A) (k : A → M B) e w a w1 :
  m e w = (Ok a, w1) → (m ≫= k) e w = k a e w1.
Proof. unfold mbind, M_bind. by intros ->. Qed.

Lemma bind_stop {A B} (m : M A) (k : A → M B) e w x w1 :
  m e w = (Err x, w1) → (m ≫= k) e w = (Err x, w1).
Proof. unfold mbind, M_bind. by intros ->. Qed.

Lemma ret_ok {A} (a b : A) e w w' : (mret a : M A) e w = (Ok b, w') → a = b ∧ w = w'.
Proof. unfold mret, M_ret. naive_solver. Qed.

Lemma throw_ok {A} x (b : A) e w w' : (throw x : M A) e w = (Ok b, w') → False.
Proof. unfold throw. naive_solver. Qed.

Lemma try_ok {A} (m : M A) e w r w' : try m e w = (Ok r, w') → m e w = (r, w').
Proof. unfold try. destruct (m e w). naive_solver. Qed.

Lemma try_not_err {A} (m : M A) e w x w' : try m e w = (Err x, w') → False.
Proof. unfold try. destruct (m e w). naive_solver. Qed.

Lemma try_run {A} (m : M A) e w r w' : m e w = (r, w') → try m e w = (Ok r, w').
Proof. unfold try. by intros ->. Qed.

Lemma ensure_ok c x e w b w' : ensure c x e w = (Ok b, w') → c = true ∧ w = w'.
Proof. unfold ensure. destruct c; [|done]. unfold mret, M_ret. naive_solver. Qed.

Lemma ensure_err c x e w y w' : ensure c x e w = (Err y, w') → c = false ∧ y = x ∧ w' = w.
Proof. unfold ensure. destruct c; [done|]. unfold throw. naive_solver. Qed.

Lemma provider_ok {A} (f : Env → A) e w a w' :
  provider f e w = (Ok a, w') → a = f e ∧ w' = after w (w_db w) [].
Proof. unfold provider. case_match; naive_solver. Qed.

Lemma provider_run {A} (f : Env → A) e w :
  (∀ n, fault e n = false) → provider f e w = (Ok (f e), after w (w_db w) []).
Proof. intros Hf. unfold provider. by rewrite Hf. Qed.

(** A successful store call ran on some tables [d], which are in the history. *)

Lemma store_ok {A} (f : Z → DB → res A * DB) e w a w' :
  store f e w = (Ok a, w') → ∃ now d d',
    d = interfere e (w_tick w) (w_db w) ∧ now = clock e (w_tick w) ∧
    f now d = (Ok a, d') ∧ w' = after w d' [(d, d')].
Proof.
  unfold store. case_match; [done|]. destruct (f _ _) as [r d'] eqn:E. intros [= -> <-].
  eauto 10.
Qed.

Lemma query_ok {A} (f : Z → DB → res A) e w a w' :
  query f e w = (Ok a, w') → ∃ now d,
    d = interfere e (w_tick w) (w_db w) ∧ now = clock e (w_tick w) ∧
    f now d = Ok a ∧ w' = after w d [(d, d)].
Proof.
  intros H. apply store_ok in H as (now & d & d' & ? & ? & [= Hf <-] & ->). eauto 10.
Qed.

(** [mstep H] takes one [bind] of a successful run [H] apart. *)

Ltac mstep H :=
  let a := fresh "a" in let w := fresh "w" in let Hm := fresh "Hm" in
  apply bind_ok in H as (a & w & Hm & H);
  lazymatch type of Hm with
  | ensure _ _ _ _ = _ => apply ensure_ok in Hm as [Hm ->]
  | try _ _ _ = _ => apply try_ok in Hm
  | mret _ _ _ = _ => apply ret_ok in Hm as [<- <-]
  | provider _ _ _ = _ => apply provider_ok in Hm as [-> ->]
  | _ => idtac
  end.
