(* ===== verification/Crypto.v ===== *)
(** * internal/crypto: the checks around the primitives

    PKCE (pkce.go), client secrets (client_secret.go), access-token claims
    (jwt.go) and DPoP proofs (dpop.go).  The primitives themselves (SHA-256,
    HMAC, bcrypt, JWS) are fields of [Params]. *)

From S2P Require Import Prelude GoStrings ScopeSet Act Domain Db Effects.

Definition HashSHA256 (p : Params) (s : string) : string := sha256_hex p s.
Definition ComputeS256Challenge (p : Params) (verifier : string) : string := sha256_b64url p verifier.

(** ** PKCE *)

Definition PKCEMinVerifierLength : nat := 43.
Definition PKCEMaxVerifierLength : nat := 128.

(** [A-Za-z0-9], [-], [.], [_] and [~] *)

Definition pkce_char (c : Ascii.ascii) : bool :=
  let n := Ascii.nat_of_ascii c in
  orb (bool_decide (65 ≤ n ∧ n ≤ 90))
    (orb (bool_decide (97 ≤ n ∧ n ≤ 122))
      (orb (bool_decide (48 ≤ n ∧ n ≤ 57)) (bool_decide (n ∈ [45; 46; 95; 126])))).

Definition VerifyS256 (p : Params) (verifier challenge : string) : bool :=
  if bool_decide (verifier = "") then false
  else if orb (bool_decide (String.length verifier < PKCEMinVerifierLength))
            (bool_decide (PKCEMaxVerifierLength < String.length verifier)) then false
  else if negb (Resource.all_chars pkce_char verifier) then false
  else if bool_decide (challenge = "") then false
  else bool_decide (ComputeS256Challenge p verifier = challenge).

Definition ValidateChallengeMethod (method : string) : bool := bool_decide (method = "S256").

Lemma VerifyS256_spec p v c :
  VerifyS256 p v c = true →
  43 ≤ String.length v ≤ 128 ∧ c ≠ "" ∧ ComputeS256Challenge p v = c.
Proof.
  unfold VerifyS256, PKCEMinVerifierLength, PKCEMaxVerifierLength.
  repeat case_bool_decide; simpl; try done; case_all; unbool; try done.
  intros _. repeat split; try lia; done.
Qed.

(** ** Client secrets *)

Definition clientSecretScheme : string := "hs256$".

Definition CompareClientSecret (p : Params) (hash plaintext : string) : bool :=
  if strings_HasPrefix hash clientSecretScheme then
    if bool_decide (pepper p = "") then false
    else bool_decide (strings_TrimPrefix hash clientSecretScheme = hmac_b64 p (pepper p) plaintext)
  else bcrypt_ok p hash plaintext.

Definition HashClientSecret (p : Params) (HashBcrypt : string → option string) (plaintext : string) : option string :=
  if bool_decide (pepper p = "") then HashBcrypt plaintext
  else Some (clientSecretScheme +:+ hmac_b64 p (pepper p) plaintext).

(** With a pepper configured, a stored secret verifies against itself and
    against nothing with a different digest. *)

Lemma CompareClientSecret_hmac p bh s s' h :
  pepper p ≠ "" → HashClientSecret p bh s = Some h →
  CompareClientSecret p h s' = true ↔ hmac_b64 p (pepper p) s = hmac_b64 p (pepper p) s'.
Proof.
  intros Hp. unfold HashClientSecret, CompareClientSecret. rewrite bool_decide_eq_false_2 by done. intros [= <-].
  replace (strings_HasPrefix (clientSecretScheme +:+ hmac_b64 p (pepper p) s) clientSecretScheme)
    with true; [|reflexivity].
  replace (strings_TrimPrefix (clientSecretScheme +:+ hmac_b64 p (pepper p) s) clientSecretScheme)
    with (hmac_b64 p (pepper p) s); [|reflexivity].
  rewrite bool_decide_eq_true. done.
Qed.

(** ** Access tokens *)

Definition Unix (t : Z) : Z := (t / SqlTime.nano)%Z.

Definition ValidateAccessTokenClaims (c : AccessTokenClaims) : bool :=
  negb (orb (bool_decide (c_Issuer c = ""))
    (orb (bool_decide (c_Subject c = ""))
      (orb (match c_Audience c with [] => true | a :: _ => bool_decide (a = "") end)
        (orb (bool_decide (c_ClientID c = ""))
          (orb (bool_decide (c_JTI c = ""))
            (orb (bool_decide (c_Expiry c = 0%Z)) (bool_decide (c_IssuedAt c = 0%Z)))))))).

(** [SignAccessTokenContext]: the claims gate, then the signer, which can
    fail (a remote key). *)

Definition SignAccessToken (c : AccessTokenClaims) : M string :=
  if ValidateAccessTokenClaims c then provider (λ e, jws_sign (params e) c)
  else throw (EOther "required claim missing").

Definition clockSkew : Z := 30.

Definition VerifyAccessToken (p : Params) (now : Z) (token : string) : option AccessTokenClaims :=
  match jws_open p token with
  | None => None
  | Some c =>
      if bool_decide (c_Expiry c = 0%Z) then None
      else if bool_decide (c_Expiry c + clockSkew < Unix now)%Z then None
      else if bool_decide (c_IssuedAt c = 0%Z) then None
      else if andb (bool_decide (c_NotBefore c ≠ 0%Z))
                (bool_decide (Unix now < c_NotBefore c - clockSkew)%Z) then None
      else Some c
  end.

Definition VerifyAccessTokenWithIssuer (p : Params) (now : Z) (token expectedIssuer : string)
    : option AccessTokenClaims :=
  match VerifyAccessToken p now token with
  | None => None
  | Some c => if bool_decide (c_Issuer c ≠ expectedIssuer) then None else Some c
  end.

Lemma VerifyAccessToken_spec p now tok iss c :
  VerifyAccessTokenWithIssuer p now tok iss = Some c →
  jws_open p tok = Some c ∧ c_Issuer c = iss ∧ (Unix now <= c_Expiry c + clockSkew)%Z.
Proof.
  unfold VerifyAccessTokenWithIssuer, VerifyAccessToken.
  destruct (jws_open p tok) as [c'|]; [|done].
  repeat (case_match; try done). intros; simplify_eq. unbool.
  split; [done|]. split; [done|lia].
Qed.

(** ** DPoP proofs *)

Definition strings_EqualFold (a b : string) : bool :=
  bool_decide (Resource.strings_ToLower a = Resource.strings_ToLower b).

Definition validateHTU (p : Params) (htu reqURL : string) : bool :=
  match url_parse p htu, url_parse p reqURL with
  | Some h, Some r =>
      if negb (strings_EqualFold (url_Scheme h) (url_Scheme r)) then false
      else if negb (strings_EqualFold (url_Host h) (url_Host r)) then false
      else bool_decide (url_Path h = url_Path r)
  | _, _ => false
  end.

(** The services pass an empty server nonce and an empty access-token hash,
    and check the nonce themselves. *)

Definition ValidateProof (p : Params) (now : Z) (proof method reqURL serverNonce accessTokenHash : string)
    (proofLifetime : Z) : DPoPClaims + err :=
  match proof_open p proof with
  | None => inr ErrDPoPInvalidProof
  | Some c =>
      if bool_decide (d_JTI c = "") then inr ErrDPoPInvalidProof
      else if negb (strings_EqualFold (d_HTM c) method) then inr ErrDPoPInvalidProof
      else if negb (validateHTU p (d_HTU c) reqURL) then inr ErrDPoPInvalidProof
      else if bool_decide (d_IAT c = 0%Z) then inr ErrDPoPInvalidProof
      else if bool_decide (proofLifetime < Z.abs (now - d_IAT c * SqlTime.nano))%Z
      then inr ErrDPoPInvalidProof
      else if andb (bool_decide (serverNonce ≠ "")) (bool_decide (d_Nonce c = ""))
      then inr ErrDPoPNonceRequired
      else if andb (bool_decide (serverNonce ≠ "")) (bool_decide (d_Nonce c ≠ serverNonce))
      then inr ErrDPoPNonceMismatch
      else if andb (bool_decide (accessTokenHash ≠ ""))
                (orb (bool_decide (d_ATH c = "")) (bool_decide (d_ATH c ≠ accessTokenHash)))
      then inr ErrDPoPInvalidProof
      else inl c
  end.

Lemma ValidateProof_window p now proof m u n a life c :
  ValidateProof p now proof m u n a life = inl c →
  proof_open p proof = Some c ∧ (Z.abs (now - d_IAT c * SqlTime.nano) <= life)%Z.
Proof.
  unfold ValidateProof. destruct (proof_open p proof) as [c'|]; [|done].
  repeat (case_match; try done). intros; simplify_eq. split; [done|]. unbool. lia.
Qed.

(** ** Identity assertions (assertion.go) *)

(** The value of an int64 expression. *)

Definition int64 (z : Z) : Z := ((z + 2 ^ 63) mod 2 ^ 64 - 2 ^ 63)%Z.

Lemma int64_small z : (- 2 ^ 63 <= z < 2 ^ 63)%Z → int64 z = z.
Proof. intros Hz. unfold int64. rewrite Z.mod_small; lia. Qed.

(** [trustedKeys.Key(kid)] *)

Definition keys_of (kid : string) (keys : list XAA.JWK) : list XAA.JWK :=
  filter (λ k, XAA.KeyID k = kid) keys.

(** The signature check: the first key of the header's [kid], any key when
    the header has none.  (With no key at all the payload stays empty and
    the claims do not parse, which is the same error.) *)

Definition signature_ok (p : Params) (raw kid : string) (keys : list XAA.JWK) : bool :=
  if bool_decide (kid ≠ "") then
    match keys_of kid keys with
    | [] => false
    | k :: _ => jag_verify p (XAA.Key k) raw
    end
  else existsb (λ k, jag_verify p (XAA.Key k) raw) keys.

(** The claims, at the Unix time [now]. *)

Definition validateAssertionClaims (now : Z) (expectedAudience : string) (maxAge : Z)
    (claims : XAA.IdentityAssertion) : XAA.IdentityAssertion + err :=
  if bool_decide (XAA.a_Expiry claims = 0%Z) then inr ErrAssertionInvalid
  else if bool_decide (int64 (XAA.a_Expiry claims + clockSkew) < now)%Z then inr ErrAssertionExpired
  else if bool_decide (XAA.a_IssuedAt claims = 0%Z) then inr ErrAssertionInvalid
  else if bool_decide (now + clockSkew < XAA.a_IssuedAt claims)%Z then inr ErrAssertionInvalid
  else if andb (bool_decide (0 < maxAge)%Z)
            (bool_decide (XAA.a_IssuedAt claims < now - Z.quot maxAge SqlTime.nano)%Z)
  then inr ErrAssertionExpired
  else if bool_decide (XAA.a_Audience claims = "") then inr ErrAssertionInvalid
  else if bool_decide (XAA.a_Audience claims ≠ expectedAudience) then inr ErrAssertionAudienceMismatch
  else if bool_decide (XAA.a_Issuer claims = "") then inr ErrAssertionInvalid
  else if bool_decide (XAA.a_Subject claims = "") then inr ErrAssertionInvalid
  else if bool_decide (XAA.a_ClientID claims = "") then inr ErrAssertionInvalid
  else if bool_decide (XAA.a_JTI claims = "") then inr ErrAssertionInvalid
  else inl claims.

Definition ValidateIDJAG (p : Params) (now : Z) (raw : string) (trustedKeys : list XAA.JWK)
    (expectedAudience : string) (maxAge : Z) : XAA.IdentityAssertion + err :=
  if bool_decide (raw = "") then inr ErrAssertionInvalid else
  match jag_parse p raw with
  | None => inr ErrAssertionInvalid
  | Some parsed =>
      if bool_decide (j_typ parsed ≠ "oauth-id-jag+jwt") then inr ErrAssertionTypeMismatch
      else if negb (signature_ok p raw (j_kid parsed) trustedKeys) then inr ErrAssertionInvalid
      else match j_claims parsed with
           | None => inr ErrAssertionInvalid
           | Some claims => validateAssertionClaims (Unix now) expectedAudience maxAge claims
           end
  end.

(** An accepted assertion was signed by one of the keys, is addressed to this
    server, has a jti and is within its lifetime. *)

Record accepted_assertion (p : Params) (now : Z) (raw : string) (keys : list XAA.JWK) (aud : string)
    (a : XAA.IdentityAssertion) : Prop := {
  aa_parsed : ∃ parsed, jag_parse p raw = Some parsed ∧ j_claims parsed = Some a ∧
    j_typ parsed = "oauth-id-jag+jwt";
  aa_signed : ∃ k, k ∈ keys ∧ jag_verify p (XAA.Key k) raw = true;
  aa_audience : XAA.a_Audience a = aud;
  aa_jti : XAA.a_JTI a ≠ "";
  aa_subject : XAA.a_Subject a ≠ "" ∧ XAA.a_Issuer a ≠ "";
  aa_fresh : (Unix now <= int64 (XAA.a_Expiry a + clockSkew))%Z
}.

Lemma ValidateIDJAG_ok p now raw keys aud maxAge a :
  ValidateIDJAG p now raw keys aud maxAge = inl a → accepted_assertion p now raw keys aud a.
Proof.
  unfold ValidateIDJAG. case_bool_decide; [done|]. destruct (jag_parse p raw) as [parsed|] eqn:Hp; [|done].
  case_bool_decide as Ht; [done|]. destruct (signature_ok p raw (j_kid parsed) keys) eqn:Hs; [|done]. simpl.
  destruct (j_claims parsed) as [claims|] eqn:Hc; [|done]. unfold validateAssertionClaims.
  repeat (case_match; [done|]). intros [= <-]. unbool. split; try done.
  - exists parsed. by split_and!.
  - unfold signature_ok in Hs. destruct (bool_decide (j_kid parsed ≠ "")).
    + destruct (keys_of (j_kid parsed) keys) as [|k l] eqn:Hk; [done|]. exists k. split; [|done].
      assert (k ∈ keys_of (j_kid parsed) keys) as Hin by (rewrite Hk; left).
      by apply list_elem_of_filter in Hin as [_ ?].
    + apply existsb_exists in Hs as (k & Hk & ?). exists k. split; [|done]. by apply list_elem_of_In.
  - by apply Z.nlt_ge.
Qed.
