(* ===== verification/Stores.v ===== *)
(** * internal/adapters/sqlite: the store operations

    One module per store, one definition per method.  Each method is a single
    SQL statement or a short transaction on the one connection, so it is one
    [store] step: it happens atomically or fails and changes nothing.  A
    UNIQUE, PRIMARY KEY or FOREIGN KEY violation is an error of the driver
    ([EFault]) unless the method maps it. *)

From S2P Require Import Prelude GoStrings ScopeSet Act Domain Db Effects.

(** A row with a nullable key column: the empty string is stored as NULL,
    and NULL equals nothing. *)

Definition sql_eq (col v : string) : bool := andb (bool_decide (col ≠ "")) (bool_decide (col = v)).

Lemma sql_eq_spec c v : sql_eq c v = true ↔ c ≠ "" ∧ c = v.
Proof. unfold sql_eq. rewrite andb_true_iff, !bool_decide_eq_true. done. Qed.

(** Rows that an UPDATE with condition [P] would change. *)

Definition count_rows `{Countable K} {A} (P : A → bool) (m : gmap K A) : nat :=
  size (filter (λ kv, P kv.2 = true) m).

(** [UPDATE t SET row = f row WHERE P row] *)

Definition update_rows `{Countable K} {A} (P : A → bool) (f : A → A) (m : gmap K A) : gmap K A :=
  (λ a, if P a then f a else a) <$> m.

(** [DELETE FROM t WHERE P row] *)

Definition delete_rows `{Countable K} {A} (P : A → bool) (m : gmap K A) : gmap K A :=
  filter (λ kv, P kv.2 = false) m.

Lemma lookup_update_rows `{Countable K} {A} (P : A → bool) (f : A → A) (m : gmap K A) k :
  update_rows P f m !! k = (λ a, if P a then f a else a) <$> m !! k.
Proof. apply lookup_fmap. Qed.

Lemma lookup_delete_rows `{Countable K} {A} (P : A → bool) (m : gmap K A) k a :
  delete_rows P m !! k = Some a ↔ m !! k = Some a ∧ P a = false.
Proof. unfold delete_rows. by rewrite map_lookup_filter_Some. Qed.

(** The deletion of token families, with the rows that reference them. *)

Definition delete_families (P : Family.Family → bool) (d : DB) : DB :=
  let gone := λ id, match token_families d !! id with Some f => P f | None => false end in
  set_families (delete_rows P (token_families d))
    (set_refresh (delete_rows (λ t, gone (Refresh.FamilyID t)) (refresh_tokens d))
      (set_tracked (delete_rows (λ x, gone x.1) (access_token_jtis d)) d)).

(** ** TokenStore (token.go) *)

Module TokenStore.

Definition CreateFamily (f : Family.Family) : M unit := store (λ _ d,
  if bool_decide (is_Some (token_families d !! Family.ID f)) then (Err EFault, d)
  else if bool_decide (clients d !! Family.ClientID f = None) then (Err EFault, d)
  else if bool_decide (users d !! Family.UserID f = None) then (Err EFault, d)
  else if bool_decide (is_Some (find_row (λ g, sql_eq (Family.AuthSessionID g) (Family.AuthSessionID f))
                                 (token_families d))) then (Err EFault, d)
  else (Ok tt, set_families (<[Family.ID f := f]> (token_families d)) d)).

Definition GetFamily (id : string) : M Family.Family := query (λ _ d,
  match token_families d !! id with
  | Some f => Ok f
  | None => Err ErrInvalidGrant
  end).

Definition GetFamilyByAuthSessionID (sid : string) : M Family.Family := query (λ _ d,
  match find_row (λ g, sql_eq (Family.AuthSessionID g) sid) (token_families d) with
  | Some f => Ok f
  | None => Err ErrInvalidGrant
  end).

(** Family row and refresh tokens in one transaction; the answer is whether
    this call changed the family. *)

Definition revoke_family_row (now : Z) (id : string) (d : DB) : DB :=
  match token_families d !! id with
  | Some f => if Family.IsActive f
              then set_families (<[id := Family.Revoke now f]> (token_families d)) d else d
  | None => d
  end.

Definition revoke_family_tables (now : Z) (id : string) (d : DB) : DB :=
  set_refresh
    (update_rows (λ t, andb (bool_decide (Refresh.FamilyID t = id))
                         (bool_decide (Refresh.ConsumedAt t = None)))
       (Refresh.consume now) (refresh_tokens d))
    (revoke_family_row now id d).

Definition RevokeFamily (id : string) : M bool := store (λ now d,
  (Ok (match token_families d !! id with Some f => Family.IsActive f | None => false end),
   revoke_family_tables now id d)).

Definition CreateRefreshToken (rt : Refresh.RefreshToken) : M unit := store (λ _ d,
  if bool_decide (is_Some (refresh_tokens d !! Refresh.ID rt)) then (Err EFault, d)
  else if bool_decide (is_Some (find_row (λ t, bool_decide (Refresh.TokenHash t = Refresh.TokenHash rt))
                                 (refresh_tokens d))) then (Err EFault, d)
  else if bool_decide (token_families d !! Refresh.FamilyID rt = None) then (Err EFault, d)
  else (Ok tt, set_refresh (<[Refresh.ID rt := rt]> (refresh_tokens d)) d)).

Definition GetRefreshTokenByHash (hash : string) : M Refresh.RefreshToken := query (λ _ d,
  match find_row (λ t, bool_decide (Refresh.TokenHash t = hash)) (refresh_tokens d) with
  | Some t => Ok t
  | None => Err ErrInvalidGrant
  end).

(** The conditional UPDATE: only a row whose [consumed_at] is NULL changes. *)

Definition ConsumeRefreshToken (id : string) : M Refresh.RefreshToken := store (λ now d,
  match refresh_tokens d !! id with
  | None => (Err ErrInvalidGrant, d)
  | Some t =>
      match Refresh.ConsumedAt t with
      | None => (Ok (Refresh.consume now t),
                 set_refresh (<[id := Refresh.consume now t]> (refresh_tokens d)) d)
      | Some _ => (Err ErrRefreshTokenReused, d)
      end
  end).

Definition PurgeExpired : M nat := store (λ now d,
  let P := λ t, SqlTime.text_lt (Refresh.ExpiresAt t) now in
  (Ok (count_rows P (refresh_tokens d)),
   set_refresh (delete_rows P (refresh_tokens d)) d)).

(** [ORDER BY created_at DESC]: the order of the texts; rows of the same text
    come in the order of the table. *)

Definition newest_first (a b : Family.Family) : Prop :=
  SqlTime.text_lt (Family.CreatedAt a) (Family.CreatedAt b) = false.

#[global] Instance newest_first_dec : RelDecision newest_first.
Proof. intros a b. unfold newest_first. apply _. Defined.

(** An empty field of the filter does not constrain; a zero limit is 50. *)

Record FamilyFilter := MkFamilyFilter {
  ff_ClientID : string; ff_UserID : string; ff_Status : string; ff_Limit : nat; ff_Offset : nat
}.

Definition family_matches (f : FamilyFilter) (x : Family.Family) : bool :=
  andb (orb (bool_decide (ff_ClientID f = "")) (bool_decide (Family.ClientID x = ff_ClientID f)))
    (andb (orb (bool_decide (ff_UserID f = "")) (bool_decide (Family.UserID x = ff_UserID f)))
       (orb (bool_decide (ff_Status f = "")) (bool_decide (Family.status_text (Family.Status x) = ff_Status f)))).

Definition family_rows (f : FamilyFilter) (d : DB) : list Family.Family :=
  filter (λ x, family_matches f x = true) (merge_sort newest_first ((map_to_list (token_families d)).*2)).

(** Two statements: the count, then the page. *)

Definition ListFamilies (f : FamilyFilter) : M (list Family.Family * nat) :=
  total ← query (λ _ d, Ok (length (family_rows f d)));
  rows ← query (λ _ d, Ok (take (if bool_decide (ff_Limit f = 0) then 50 else ff_Limit f)
                             (drop (ff_Offset f) (family_rows f d))));
  mret (rows, total).

Lemma elem_of_family_rows f d x :
  x ∈ family_rows f d ↔ family_matches f x = true ∧ ∃ k, token_families d !! k = Some x.
Proof.
  unfold family_rows. rewrite list_elem_of_filter, merge_sort_Permutation, list_elem_of_fmap. apply and_iff_compat_l. split.
  - intros ([k x'] & -> & Hk). apply elem_of_map_to_list in Hk. eauto.
  - intros (k & Hk). exists (k, x). split; [done|]. by apply elem_of_map_to_list.
Qed.

Definition CountActiveByClientID (clientID : string) : M nat := query (λ _ d,
  Ok (count_rows (λ f, andb (bool_decide (Family.ClientID f = clientID)) (Family.IsActive f))
        (token_families d))).

(** These two revoke the family rows only: refresh tokens stay unconsumed and
    are refused through the family's status. *)

Definition revoke_families_where (P : Family.Family → bool) : M nat := store (λ now d,
  let Q := λ f, andb (P f) (Family.IsActive f) in
  (Ok (count_rows Q (token_families d)),
   set_families (update_rows Q (Family.Revoke now) (token_families d)) d)).

Definition RevokeByClientID (clientID : string) : M nat :=
  revoke_families_where (λ f, bool_decide (Family.ClientID f = clientID)).

Definition RevokeByUserID (userID : string) : M nat :=
  revoke_families_where (λ f, bool_decide (Family.UserID f = userID)).

(** [since] is a Unix time in seconds. *)

Definition CountIssuedSince (since : Z) : M nat := query (λ _ d,
  Ok (count_rows (λ f, negb (SqlTime.text_lt (Family.CreatedAt f) (since * SqlTime.nano))) (token_families d))).

Definition CountRevokedSince (since : Z) : M nat := query (λ _ d,
  Ok (count_rows (λ f, match Family.RevokedAt f with
                       | Some t => andb (negb (Family.IsActive f)) (negb (SqlTime.text_lt t (since * SqlTime.nano)))
                       | None => false
                       end) (token_families d))).

End TokenStore.

(** ** RevocationStore (revocation.go) *)

Module RevocationStore.

(** [INSERT OR IGNORE]: a known jti is left alone; the foreign key on the
    family is not covered by IGNORE. *)

Definition TrackJTI (jti familyID : string) (expiresAt : Z) : M unit := store (λ _ d,
  match access_token_jtis d !! jti with
  | Some _ => (Ok tt, d)
  | None =>
      if bool_decide (token_families d !! familyID = None) then (Err EFault, d)
      else (Ok tt, set_tracked (<[jti := (familyID, expiresAt)]> (access_token_jtis d)) d)
  end).

(** The JTIs tracked for a family, with their expiry. *)

Definition family_jtis (familyID : string) (d : DB) : gmap string Z :=
  snd <$> filter (λ kv, kv.2.1 = familyID) (access_token_jtis d).

Definition RevokeByFamily (familyID : string) : M unit := store (λ _ d,
  (Ok tt, set_revoked (revoked_jtis d ∪ family_jtis familyID d) d)).

Definition RevokeJTI (jti : string) : M unit := store (λ now d,
  let expiresAt := match access_token_jtis d !! jti with
                   | Some (_, t) => t
                   | None => (now + 3600 * SqlTime.nano)%Z
                   end in
  (Ok tt, set_revoked (revoked_jtis d ∪ {[jti := expiresAt]}) d)).

Definition IsRevoked (jti : string) : M bool := query (λ _ d,
  Ok (bool_decide (is_Some (revoked_jtis d !! jti)))).

Definition PurgeExpired : M nat := store (λ now d,
  let P := λ kv : string * Z, SqlTime.text_lt kv.2 now in
  let Q := λ t : Z, SqlTime.text_lt t now in
  (Ok (count_rows P (access_token_jtis d) + count_rows Q (revoked_jtis d)),
   set_revoked (delete_rows Q (revoked_jtis d))
     (set_tracked (delete_rows P (access_token_jtis d)) d))).

End RevocationStore.

(** ** SessionStore (session.go) *)

Module SessionStore.

Definition Create (s : Session.AuthSession) : M unit := store (λ _ d,
  if bool_decide (is_Some (auth_sessions d !! Session.ID s)) then (Err EFault, d)
  else if bool_decide (is_Some (find_row (λ x, sql_eq (Session.CodeHash x) (Session.CodeHash s))
                                 (auth_sessions d))) then (Err EFault, d)
  else (Ok tt, set_sessions (<[Session.ID s := s]> (auth_sessions d)) d)).

Definition GetByID (id : string) : M Session.AuthSession := query (λ _ d,
  match auth_sessions d !! id with Some s => Ok s | None => Err ErrInvalidGrant end).

(** [AlreadyConsumed s] is the pair [(s, ErrCodeConsumed)]. *)

Inductive consume_result := Consumed (s : Session.AuthSession) | AlreadyConsumed (s : Session.AuthSession).

Definition ConsumeByCodeHash (h : string) : M consume_result := store (λ now d,
  match find_row (λ s, andb (sql_eq (Session.CodeHash s) h)
                         (bool_decide (Session.ConsumedAt s = None))) (auth_sessions d) with
  | Some s =>
      let s' := Session.with_consumed s (Some now) in
      (Ok (Consumed s'), set_sessions (<[Session.ID s := s']> (auth_sessions d)) d)
  | None =>
      match find_row (λ s, sql_eq (Session.CodeHash s) h) (auth_sessions d) with
      | None => (Err ErrInvalidGrant, d)
      | Some s => (Ok (AlreadyConsumed s), d)
      end
  end).

Definition UpdateCodeHashAndScope (sessionID codeHash scope : string) : M unit := store (λ now d,
  match auth_sessions d !! sessionID with
  | None => (Err ErrInvalidGrant, d)
  | Some s =>
      if negb (andb (SqlTime.text_lt now (Session.ExpiresAt s))
                 (bool_decide (Session.ConsumedAt s = None))) then (Err ErrInvalidGrant, d)
      else if bool_decide (is_Some (find_row (λ x, andb (sql_eq (Session.CodeHash x) codeHash)
                                                   (bool_decide (Session.ID x ≠ sessionID)))
                                     (auth_sessions d))) then (Err EFault, d)
      else (Ok tt, set_sessions (<[sessionID := Session.with_code s codeHash scope]> (auth_sessions d)) d)
  end).

Definition Delete (id : string) : M unit := store (λ _ d,
  (Ok tt, set_sessions (delete id (auth_sessions d)) d)).

Definition DeleteExpired : M nat := store (λ now d,
  let P := λ s, SqlTime.text_lt (Session.ExpiresAt s) now in
  (Ok (count_rows P (auth_sessions d)), set_sessions (delete_rows P (auth_sessions d)) d)).

End SessionStore.

(** ** ClientStore, UserStore: the reads the grants make *)

Module ClientStore.

Definition GetByID (id : string) : M Client.Client := query (λ _ d,
  match clients d !! id with Some c => Ok c | None => Err ErrInvalidClient end).

(** A missing row is [(nil, nil)]. *)

Definition GetByCIMDURL (url : string) : M (option Client.Client) := query (λ _ d,
  Ok (find_row (λ c, sql_eq (Client.CIMDURL c) url) (clients d))).

Definition first_version (c : Client.Client) : Client.Client :=
  if bool_decide (Client.Version c = 0%Z) then Client.set_row c 1 (Client.IssuedAt c) else c.

Definition Create (c : Client.Client) : M unit := store (λ _ d,
  if bool_decide (is_Some (clients d !! Client.ID c)) then (Err (EOther "client already exists"), d)
  else (Ok tt, set_clients (<[Client.ID c := first_version c]> (clients d)) d)).

(** The optimistic lock: [WHERE id = ? AND version = ?]; [issued_at] is not
    among the columns that are set. *)

Definition Update (c : Client.Client) : M unit := store (λ _ d,
  match clients d !! Client.ID c with
  | Some old =>
      if bool_decide (Client.Version old = Client.Version c)
      then (Ok tt, set_clients (<[Client.ID c := Client.set_row c (Client.Version c + 1) (Client.IssuedAt old)]> (clients d)) d)
      else (Err ErrClientConflict, d)
  | None => (Err ErrClientConflict, d)
  end).

Definition newest_first (a b : Client.Client) : Prop :=
  SqlTime.text_lt (Client.IssuedAt a) (Client.IssuedAt b) = false.

#[global] Instance newest_first_dec : RelDecision newest_first.
Proof. intros a b. unfold newest_first. apply _. Defined.

Definition matches (status source : string) (c : Client.Client) : bool :=
  andb (orb (bool_decide (status = "")) (bool_decide (Client.status_text (Client.Status c) = status)))
    (orb (bool_decide (source = "")) (bool_decide (Client.source_text (Client.RegistrationSource c) = source))).

(** SQLite has no OFFSET without LIMIT: that statement does not parse. *)

Definition List (status source : string) (limit offset : Z) : M (list Client.Client) := query (λ _ d,
  let rows := filter (λ c, matches status source c = true) (merge_sort newest_first ((map_to_list (clients d)).*2)) in
  if bool_decide (0 < limit)%Z then Ok (take (Z.to_nat limit) (drop (Z.to_nat offset) rows))
  else if bool_decide (0 < offset)%Z then Err EFault
  else Ok rows).

Definition by_name (a b : Client.Client) : Prop := string_le (Client.Name a) (Client.Name b).

#[global] Instance by_name_dec : RelDecision by_name.
Proof. intros a b. unfold by_name. apply _. Defined.

Definition ListAgents : M (list Client.Client) := query (λ _ d,
  Ok (filter (λ c, andb (Client.IsAgent c) (Client.IsActive c) = true) (merge_sort by_name ((map_to_list (clients d)).*2)))).

(** ON DELETE CASCADE: the families of the client with their refresh tokens
    and tracked jtis, its machine tokens and its consent grants. *)

Definition cascade (id : string) (d : DB) : DB :=
  set_grants (delete_rows (λ g, bool_decide (Grant.ClientID g = id)) (consent_grants d))
    (set_machine (delete_rows (λ t, bool_decide (Machine.ClientID t = id)) (machine_tokens d))
      (delete_families (λ f, bool_decide (Family.ClientID f = id))
        (set_clients (delete id (clients d)) d))).

Definition Delete (id : string) : M unit := store (λ _ d,
  match clients d !! id with
  | None => (Err ErrInvalidClient, d)
  | Some _ => (Ok tt, cascade id d)
  end).

Definition Count (status : string) : M nat := query (λ _ d,
  Ok (count_rows (λ c, orb (bool_decide (status = "")) (bool_decide (Client.status_text (Client.Status c) = status)))
        (clients d))).

End ClientStore.

Module UserStore.

Definition GetByID (id : string) : M User.User := query (λ _ d,
  match users d !! id with Some u => Ok u | None => Err ErrUserNotFound end).

Definition GetByEmail (email : string) : M User.User :=
  if bool_decide (email = "") then throw ErrUserNotFound else
  query (λ _ d, match find_row (λ u, sql_eq (User.Email u) email) (users d) with
                | Some u => Ok u | None => Err ErrUserNotFound end).

(** Of a federated provider ([local = false]) or of the local one. *)

Definition GetByProviderSub (local : bool) (sub : string) : M User.User := query (λ _ d,
  match find_row (λ u, andb (bool_decide (User.IsLocal u = local)) (bool_decide (User.ProviderSub u = sub))) (users d) with
  | Some u => Ok u | None => Err ErrUserNotFound end).

(** UNIQUE (email), and UNIQUE (provider, provider_sub) for the federated
    accounts, against the other rows. *)

Definition taken (u : User.User) (d : DB) : bool :=
  bool_decide (is_Some (find_row (λ v, andb (bool_decide (User.ID v ≠ User.ID u))
    (orb (sql_eq (User.Email v) (User.Email u))
       (andb (negb (User.IsLocal v)) (andb (negb (User.IsLocal u))
          (sql_eq (User.ProviderSub v) (User.ProviderSub u)))))) (users d))).

Definition first_version (u : User.User) : User.User :=
  if bool_decide (User.Version u = 0%Z) then User.set_row u 1 (User.CreatedAt u) else u.

Definition Create (u : User.User) : M unit := store (λ _ d,
  if orb (bool_decide (is_Some (users d !! User.ID u))) (taken u d) then (Err ErrUserAlreadyExists, d)
  else (Ok tt, set_users (<[User.ID u := first_version u]> (users d)) d)).

Definition Update (u : User.User) : M unit := store (λ _ d,
  match users d !! User.ID u with
  | Some old =>
      if bool_decide (User.Version old = User.Version u) then
        if taken u d then (Err ErrUserAlreadyExists, d)
        else (Ok tt, set_users (<[User.ID u := User.set_row u (User.Version u + 1) (User.CreatedAt old)]> (users d)) d)
      else (Err ErrUserConflict, d)
  | None => (Err ErrUserConflict, d)
  end).

Definition oldest_first (a b : User.User) : Prop :=
  SqlTime.text_lt (User.CreatedAt b) (User.CreatedAt a) = false.

#[global] Instance oldest_first_dec : RelDecision oldest_first.
Proof. intros a b. unfold oldest_first. apply _. Defined.

Definition List : M (list User.User) := query (λ _ d, Ok (merge_sort oldest_first ((map_to_list (users d)).*2))).

(** ON DELETE CASCADE: the families of the user with their refresh tokens and
    tracked jtis, the consent grants and the broker grants. *)

Definition cascade (id : string) (d : DB) : DB :=
  set_broker_grants (delete_rows (λ g, bool_decide (Broker.UserID g = id)) (broker_grants d))
    (set_grants (delete_rows (λ g, bool_decide (Grant.UserID g = id)) (consent_grants d))
      (delete_families (λ f, bool_decide (Family.UserID f = id))
        (set_users (delete id (users d)) d))).

Definition Delete (id : string) : M unit := store (λ _ d,
  match users d !! id with
  | None => (Err ErrUserNotFound, d)
  | Some _ => (Ok tt, cascade id d)
  end).

Definition Count : M nat := query (λ _ d, Ok (size (users d))).

End UserStore.

(** ** MachineTokenStore (machine_token.go) *)

Module MachineTokenStore.

Definition Save (mt : Machine.MachineToken) : M unit := store (λ _ d,
  if bool_decide (is_Some (machine_tokens d !! Machine.JTI mt)) then (Err EFault, d)
  else if bool_decide (clients d !! Machine.ClientID mt = None) then (Err EFault, d)
  else (Ok tt, set_machine (<[Machine.JTI mt := mt]> (machine_tokens d)) d)).

(** A missing row is [(nil, nil)]. *)

Definition GetByJTI (jti : string) : M (option Machine.MachineToken) := query (λ _ d,
  Ok (machine_tokens d !! jti)).

Definition Revoke (jti : string) : M unit := store (λ _ d,
  (Ok tt, set_machine (alter Machine.revoke jti (machine_tokens d)) d)).

Definition RevokeByClientID (clientID : string) : M nat := store (λ _ d,
  let P := λ t, andb (bool_decide (Machine.ClientID t = clientID)) (negb (Machine.Revoked t)) in
  (Ok (count_rows P (machine_tokens d)),
   set_machine (update_rows P Machine.revoke (machine_tokens d)) d)).

Definition PurgeExpired : M unit := store (λ now d,
  (Ok tt, set_machine (delete_rows (λ t, SqlTime.text_lt (Machine.ExpiresAt t) now)
                         (machine_tokens d)) d)).

Definition newest_first (a b : Machine.MachineToken) : Prop :=
  SqlTime.text_lt (Machine.IssuedAt a) (Machine.IssuedAt b) = false.

#[global] Instance newest_first_dec : RelDecision newest_first.
Proof. intros a b. unfold newest_first. apply _. Defined.

(** [revoked = FALSE AND expires_at > ?], of one client when one is given. *)

Definition live_row (clientID : string) (now : Z) (t : Machine.MachineToken) : bool :=
  andb (negb (Machine.Revoked t))
    (andb (SqlTime.text_lt now (Machine.ExpiresAt t))
       (orb (bool_decide (clientID = "")) (bool_decide (Machine.ClientID t = clientID)))).

Definition live_rows (clientID : string) (now : Z) (d : DB) : list Machine.MachineToken :=
  filter (λ t, live_row clientID now t = true) (merge_sort newest_first ((map_to_list (machine_tokens d)).*2)).

(** Two statements: the count, then the page; a zero limit is 50. *)

Definition List (clientID : string) (limit offset : nat) : M (list Machine.MachineToken * nat) :=
  now ← time_Now;
  total ← query (λ _ d, Ok (length (live_rows clientID now d)));
  rows ← query (λ _ d, Ok (take (if bool_decide (limit = 0) then 50 else limit) (drop offset (live_rows clientID now d))));
  mret (rows, total).

Definition CountIssuedSince (since : Z) : M nat := query (λ _ d,
  Ok (count_rows (λ t, negb (SqlTime.text_lt (Machine.IssuedAt t) (since * SqlTime.nano))) (machine_tokens d))).

Definition CountRevokedSince (since : Z) : M nat := query (λ _ d,
  Ok (count_rows (λ t, andb (Machine.Revoked t) (negb (SqlTime.text_lt (Machine.IssuedAt t) (since * SqlTime.nano))))
        (machine_tokens d))).

End MachineTokenStore.

(** ** ResourceStore (resource_store.go) and ResourceRegistry *)

Module ResourceStore.

Definition matching (v : string) (d : DB) : list Resource.Resource :=
  filter (λ r, Resource.Slug r = v ∨ Resource.URI r = v) ((map_to_list (resources d)).*2).

(** [LIMIT 2]: enough rows to tell one match from several. *)

Definition Resolve (slugOrURI : string) : M (list Resource.Resource) := query (λ _ d,
  if bool_decide (slugOrURI = "") then Ok [] else Ok (take 2 (matching slugOrURI d))).

Definition GetBySlug (slug : string) : M Resource.Resource := query (λ _ d,
  match find_row (λ r, bool_decide (Resource.Slug r = slug)) (resources d) with
  | Some r => Ok r | None => Err ErrResourceNotFound end).

Definition GetByID (id : string) : M Resource.Resource := query (λ _ d,
  match resources d !! id with Some r => Ok r | None => Err ErrResourceNotFound end).

Definition runtime_matching (clientID : string) (d : DB) : list Resource.Resource :=
  filter (λ r, clientID ∈ Resource.RuntimeClientIDs r) ((map_to_list (resources d)).*2).

Definition FindByRuntimeClientID (clientID : string) : M Resource.Resource := query (λ _ d,
  if bool_decide (clientID = "") then Err ErrResourceNotFound else
  match take 2 (runtime_matching clientID d) with
  | [] => Err ErrResourceNotFound
  | [r] => Ok r
  | _ => Err ErrAmbiguousResource
  end).

(** [ORDER BY slug].  [None] is the empty kind; an offset needs a limit. *)

Definition slug_le (a b : Resource.Resource) : Prop := string_le (Resource.Slug a) (Resource.Slug b).

#[global] Instance slug_le_dec : RelDecision slug_le.
Proof. intros a b. unfold slug_le. apply _. Defined.

Definition by_slug (d : DB) : list Resource.Resource := merge_sort slug_le ((map_to_list (resources d)).*2).

Record Filter := MkFilter {
  f_BackendKind : option Resource.BackendKind; f_BrokerProviderID : string; f_Limit : nat; f_Offset : nat
}.

Definition no_filter : Filter := MkFilter None "" 0 0.

Definition matches (f : Filter) (r : Resource.Resource) : bool :=
  andb (match f_BackendKind f with None => true | Some k => bool_decide (Resource.Kind r = k) end)
    (orb (bool_decide (f_BrokerProviderID f = "")) (bool_decide (Resource.BrokerProviderID r = f_BrokerProviderID f))).

Definition list_rows (f : Filter) (d : DB) : list Resource.Resource :=
  let all := filter (λ r, matches f r = true) (by_slug d) in
  if bool_decide (0 < f_Limit f) then take (f_Limit f) (drop (f_Offset f) all) else all.

Definition List (f : Filter) : M (list Resource.Resource) := query (λ _ d, Ok (list_rows f d)).

Lemma list_rows_all d : list_rows no_filter d = by_slug d.
Proof. unfold list_rows. simpl. induction (by_slug d) as [|r l IH]; [done|]. by rewrite filter_cons_True, IH. Qed.

Lemma elem_of_by_slug d r : r ∈ by_slug d ↔ ∃ k, resources d !! k = Some r.
Proof.
  unfold by_slug. rewrite merge_sort_Permutation, list_elem_of_fmap. split.
  - intros ([k r'] & -> & Hk). apply elem_of_map_to_list in Hk. eauto.
  - intros (k & Hk). exists (k, r). split; [done|]. by apply elem_of_map_to_list.
Qed.

(** The CHECKs on the kind and the foreign key on the provider. *)

Definition row_ok (r : Resource.Resource) (d : DB) : bool :=
  match Resource.Kind r with
  | Resource.BackendMint => bool_decide (Resource.BrokerProviderID r = "")
  | Resource.BackendBroker =>
      andb (bool_decide (Resource.BrokerProviderID r ≠ ""))
        (bool_decide (is_Some (broker_providers d !! Resource.BrokerProviderID r)))
  | Resource.BackendUnknown _ => false
  end.

Definition slug_taken (r : Resource.Resource) (d : DB) : bool :=
  bool_decide (is_Some (find_row (λ x, andb (bool_decide (Resource.Slug x = Resource.Slug r))
                                         (bool_decide (Resource.ID x ≠ Resource.ID r))) (resources d))).

Definition set_slug (r : Resource.Resource) (slug : string) (createdAt : Z) : Resource.Resource :=
  Resource.MkResource (Resource.ID r) slug (Resource.DisplayName r) (Resource.URI r) (Resource.Kind r)
    (Resource.BrokerProviderID r) (Resource.Scopes r) (Resource.AllowedClientIDs r) (Resource.RuntimeClientIDs r)
    (Resource.AllowedReturnURLs r) createdAt (Resource.UpdatedAt r).

Definition Create (r : Resource.Resource) : M unit :=
  match Resource.NormalizeSlug (Resource.Slug r) with
  | inr x => throw x
  | inl slug =>
      let r := set_slug r slug (Resource.CreatedAt r) in
      store (λ _ d,
        if bool_decide (is_Some (resources d !! Resource.ID r)) then (Err EFault, d)
        else if slug_taken r d then (Err EFault, d)
        else if negb (row_ok r d) then (Err EFault, d)
        else (Ok tt, set_resources (<[Resource.ID r := r]> (resources d)) d))
  end.

(** A fronting link holds the slug of its resources: there is no ON UPDATE
    action.  [created_at] is not set. *)

Definition slug_referenced (slug : string) (d : DB) : bool :=
  bool_decide (is_Some (find_row (λ l, orb (bool_decide (Link.SourceSlug l = slug))
                                         (bool_decide (Link.TargetSlug l = slug))) (fronting_links d))).

Definition Update (r : Resource.Resource) : M unit :=
  match Resource.NormalizeSlug (Resource.Slug r) with
  | inr x => throw x
  | inl slug =>
      store (λ _ d,
        match resources d !! Resource.ID r with
        | None => (Err ErrResourceNotFound, d)
        | Some old =>
            let r := set_slug r slug (Resource.CreatedAt old) in
            if slug_taken r d then (Err EFault, d)
            else if negb (row_ok r d) then (Err EFault, d)
            else if andb (bool_decide (slug ≠ Resource.Slug old)) (slug_referenced (Resource.Slug old) d) then (Err EFault, d)
            else (Ok tt, set_resources (<[Resource.ID r := r]> (resources d)) d)
        end)
  end.

(** ON DELETE RESTRICT of the grants, issuances, pending connects and links. *)

Definition referenced (r : Resource.Resource) (d : DB) : bool :=
  orb (bool_decide (is_Some (find_row (λ g, bool_decide (Grant.ResourceID g = Resource.ID r)) (consent_grants d))))
    (orb (bool_decide (is_Some (find_row (λ i, bool_decide (Issuance.ResourceID i = Resource.ID r)) (issuances d))))
      (orb (bool_decide (is_Some (find_row (λ p, bool_decide (Pending.ResourceID p = Resource.ID r)) (connect_states d))))
         (slug_referenced (Resource.Slug r) d))).

Definition Delete (id : string) : M unit := store (λ _ d,
  match resources d !! id with
  | None => (Err ErrResourceNotFound, d)
  | Some r => if referenced r d then (Err ErrResourceHasReferences, d)
              else (Ok tt, set_resources (delete id (resources d)) d)
  end).

End ResourceStore.

(** ** BrokerProviderStore (broker_provider_store.go): the read the registry makes *)

Module BrokerProviderStore.

Definition GetByID (id : string) : M Broker.BrokerProvider := query (λ _ d,
  match broker_providers d !! id with Some p => Ok p | None => Err ErrResourceNotFound end).

Definition GetBySlug (slug : string) : M Broker.BrokerProvider := query (λ _ d,
  match find_row (λ p, bool_decide (Broker.Slug p = slug)) (broker_providers d) with
  | Some p => Ok p | None => Err ErrResourceNotFound end).

Definition slug_le (a b : Broker.BrokerProvider) : Prop := string_le (Broker.Slug a) (Broker.Slug b).

#[global] Instance slug_le_dec : RelDecision slug_le.
Proof. intros a b. unfold slug_le. apply _. Defined.

Definition List : M (list Broker.BrokerProvider) := query (λ _ d,
  Ok (merge_sort slug_le ((map_to_list (broker_providers d)).*2))).

Definition configDataString (data : string) : string := if bool_decide (data = "") then "{}" else data.

(** CHECK (protocol IN …) and UNIQUE (slug) *)

Definition protocol_ok (p : Broker.BrokerProvider) : bool :=
  bool_decide (Broker.Protocol p ∈ ["oauth"; "api_key"; "service_account"]).

Definition slug_taken (p : Broker.BrokerProvider) (d : DB) : bool :=
  bool_decide (is_Some (find_row (λ x, andb (bool_decide (Broker.Slug x = Broker.Slug p))
                                         (bool_decide (Broker.ID x ≠ Broker.ID p))) (broker_providers d))).

Definition stored (p : Broker.BrokerProvider) (slug : string) (createdAt : Z) : Broker.BrokerProvider :=
  Broker.MkProvider (Broker.ID p) slug (Broker.DisplayName p) (Broker.Protocol p) (configDataString (Broker.ConfigData p))
    (Broker.EncSecretData p) (Broker.EncSecretBackend p) createdAt (Broker.p_UpdatedAt p).

Definition Create (p : Broker.BrokerProvider) : M unit :=
  match Resource.NormalizeSlug (Broker.Slug p) with
  | inr x => throw x
  | inl slug =>
      let p := stored p slug (Broker.p_CreatedAt p) in
      store (λ _ d,
        if bool_decide (is_Some (broker_providers d !! Broker.ID p)) then (Err EFault, d)
        else if slug_taken p d then (Err EFault, d)
        else if negb (protocol_ok p) then (Err EFault, d)
        else (Ok tt, set_providers (<[Broker.ID p := p]> (broker_providers d)) d))
  end.

Definition Update (p : Broker.BrokerProvider) : M unit :=
  match Resource.NormalizeSlug (Broker.Slug p) with
  | inr x => throw x
  | inl slug =>
      store (λ _ d,
        match broker_providers d !! Broker.ID p with
        | None => (Err ErrResourceNotFound, d)
        | Some old =>
            let p := stored p slug (Broker.p_CreatedAt old) in
            if slug_taken p d then (Err EFault, d)
            else if negb (protocol_ok p) then (Err EFault, d)
            else (Ok tt, set_providers (<[Broker.ID p := p]> (broker_providers d)) d)
        end)
  end.

(** ON DELETE RESTRICT of the resources, broker grants and pending connects. *)

Definition referenced (id : string) (d : DB) : bool :=
  orb (bool_decide (is_Some (find_row (λ r, bool_decide (Resource.BrokerProviderID r = id)) (resources d))))
    (orb (bool_decide (is_Some (find_row (λ g, bool_decide (Broker.BrokerProviderID g = id)) (broker_grants d))))
       (bool_decide (is_Some (find_row (λ p, bool_decide (Pending.ProviderID p = id)) (connect_states d))))).

Definition Delete (id : string) : M unit := store (λ _ d,
  match broker_providers d !! id with
  | None => (Err ErrResourceNotFound, d)
  | Some _ => if referenced id d then (Err ErrBrokerProviderHasReferences, d)
              else (Ok tt, set_providers (delete id (broker_providers d)) d)
  end).

End BrokerProviderStore.

(** ** ConnectPendingStateStore (connect_pending_state_store.go) *)

Module ConnectPendingStateStore.

Definition Insert (st : Pending.ConnectPendingState) : M unit := store (λ _ d,
  if bool_decide (is_Some (connect_states d !! Pending.ID st)) then (Err EFault, d)
  else if bool_decide (broker_providers d !! Pending.ProviderID st = None) then (Err EFault, d)
  else if bool_decide (resources d !! Pending.ResourceID st = None) then (Err EFault, d)
  else (Ok tt, set_states (<[Pending.ID st := st]> (connect_states d)) d)).

(** One transaction: [expires_at > ?], then the delete.  The zero time is
    before every other. *)

Definition live (now : Z) (st : Pending.ConnectPendingState) : bool :=
  match Pending.ExpiresAt st with Some t => SqlTime.text_lt now t | None => false end.

Definition Consume (id : string) : M Pending.ConnectPendingState := store (λ now d,
  match connect_states d !! id with
  | Some st => if live now st then (Ok st, set_states (delete id (connect_states d)) d)
               else (Err ErrPendingStateNotFound, d)
  | None => (Err ErrPendingStateNotFound, d)
  end).

Definition PurgeExpired (before : Z) : M nat := store (λ _ d,
  let P := λ st, match Pending.ExpiresAt st with Some t => SqlTime.text_lt t before | None => true end in
  (Ok (count_rows P (connect_states d)), set_states (delete_rows P (connect_states d)) d)).

End ConnectPendingStateStore.

Module ResourceRegistry.

Definition Resolve (slugOrURI : string) : M Resource.Resource :=
  rows ← ResourceStore.Resolve slugOrURI;
  match rows with
  | [] => throw ErrResourceNotFound
  | [r] => mret r
  | _ => throw ErrAmbiguousResource
  end.

Definition FindByRuntimeClientID (clientID : string) : M Resource.Resource :=
  ResourceStore.FindByRuntimeClientID clientID.

(** A mint resource has no provider. *)

Definition GetWithProvider (resourceID : string) : M (Resource.Resource * option Broker.BrokerProvider) :=
  res ← ResourceStore.GetByID resourceID;
  if negb (Resource.IsBroker res) then mret (res, None) else
  prov ← BrokerProviderStore.GetByID (Resource.BrokerProviderID res);
  mret (res, Some prov).

Definition ListScopes (resourceID : string) : M (list Resource.ScopeDef) :=
  res ← ResourceStore.GetByID resourceID; mret (Resource.Scopes res).

(** The flat shape [List] answers with. *)

Record ResourceInfo := MkInfo { URI : string; Scopes : list string }.

Definition resourceToInfo (r : Resource.Resource) : ResourceInfo :=
  MkInfo (Resource.URI r) (Resource.scope_names r).

Definition List : M (list ResourceInfo) :=
  rows ← ResourceStore.List ResourceStore.no_filter; mret (resourceToInfo <$> rows).

End ResourceRegistry.

(** ** ConsentGrantStore (consent_grant_store.go) *)

Module ConsentGrantStore.

Definition Get (userID clientID resourceID : string) : M (option Grant.ConsentGrant) := query (λ _ d,
  Ok (match consent_grants d !! (userID, clientID, resourceID) with
      | Some g => if Grant.IsRevoked g then None else Some g
      | None => None
      end)).

(** The row, active or revoked. *)

Definition GetByID (id : string) : M (option Grant.ConsentGrant) := query (λ _ d,
  Ok (find_row (λ g, bool_decide (Grant.ID g = id)) (consent_grants d))).

(** Every row of the id is stamped, revoked or not. *)

Definition Revoke (id : string) : M unit := store (λ now d,
  (Ok tt, set_grants (update_rows (λ g, bool_decide (Grant.ID g = id)) (Grant.revoke now) (consent_grants d)) d)).

Definition newest_first (a b : Grant.ConsentGrant) : Prop :=
  SqlTime.text_lt (Grant.CreatedAt a) (Grant.CreatedAt b) = false.

#[global] Instance newest_first_dec : RelDecision newest_first.
Proof. intros a b. unfold newest_first. apply _. Defined.

Definition ListForUser (userID : string) : M (list Grant.ConsentGrant) := query (λ _ d,
  Ok (filter (λ g, Grant.UserID g = userID) (merge_sort newest_first ((map_to_list (consent_grants d)).*2)))).

(** [ON CONFLICT(user_id, client_id, resource_id) DO UPDATE]: the existing row
    keeps its id and creation time and is no longer revoked. *)

Definition upsert_row (g : Grant.ConsentGrant) (old : option Grant.ConsentGrant) : Grant.ConsentGrant :=
  match old with
  | None => g
  | Some o => Grant.MkGrant (Grant.ID o) (Grant.UserID o) (Grant.ClientID o) (Grant.ResourceID o)
                (Grant.Scopes g) (Grant.CreatedAt o) (Grant.UpdatedAt g) None
  end.

Definition Upsert (g : Grant.ConsentGrant) : M unit := store (λ _ d,
  let k := (Grant.UserID g, Grant.ClientID g, Grant.ResourceID g) in
  if orb (bool_decide (users d !! Grant.UserID g = None))
       (orb (bool_decide (clients d !! Grant.ClientID g = None))
          (bool_decide (resources d !! Grant.ResourceID g = None))) then (Err EFault, d)
  else if andb (bool_decide (consent_grants d !! k = None))
            (bool_decide (is_Some (find_row (λ x, bool_decide (Grant.ID x = Grant.ID g)) (consent_grants d))))
  then (Err EFault, d)
  else (Ok tt, set_grants (<[k := upsert_row g (consent_grants d !! k)]> (consent_grants d)) d)).

End ConsentGrantStore.

(** ** BrokerGrantStore (broker_grant_store.go)

    UNIQUE (user_id, broker_provider_id) is the key of the table. *)

Module BrokerGrantStore.

Definition Get (userID providerID : string) : M (option Broker.BrokerGrant) := query (λ _ d,
  Ok (match broker_grants d !! (userID, providerID) with
      | Some g => if Broker.IsRevoked g then None else Some g
      | None => None
      end)).

Definition GetByID (id : string) : M (option Broker.BrokerGrant) := query (λ _ d,
  Ok (find_row (λ g, bool_decide (Broker.g_ID g = id)) (broker_grants d))).

Definition key (g : Broker.BrokerGrant) : string * string := (Broker.UserID g, Broker.BrokerProviderID g).

Definition insert_refused (g : Broker.BrokerGrant) (d : DB) : bool :=
  orb (bool_decide (users d !! Broker.UserID g = None))
    (orb (bool_decide (broker_providers d !! Broker.BrokerProviderID g = None))
       (bool_decide (is_Some (find_row (λ x, bool_decide (Broker.g_ID x = Broker.g_ID g)) (broker_grants d))))).

Definition with_version (g : Broker.BrokerGrant) (v : Z) : Broker.BrokerGrant :=
  Broker.MkBrokerGrant (Broker.g_ID g) (Broker.UserID g) (Broker.BrokerProviderID g)
    (Broker.CredentialData g) (Broker.ScopesGranted g) (Broker.EncBackend g) v
    (Broker.CreatedAt g) (Broker.UpdatedAt g) (Broker.RevokedAt g).

Definition Create (g : Broker.BrokerGrant) : M unit := store (λ _ d,
  if orb (bool_decide (is_Some (broker_grants d !! key g))) (insert_refused g d) then (Err EFault, d)
  else (Ok tt, set_broker_grants (<[key g := with_version g 1]> (broker_grants d)) d)).

(** On conflict the stored row keeps its id and creation time, takes the new
    credential and is no longer revoked.  (A zero creation time, which no
    caller passes, would be replaced by [now].) *)

Definition upsert_row (now : Z) (g : Broker.BrokerGrant) (old : option Broker.BrokerGrant) : Broker.BrokerGrant :=
  match old with
  | None => Broker.MkBrokerGrant (Broker.g_ID g) (Broker.UserID g) (Broker.BrokerProviderID g)
              (Broker.CredentialData g) (Broker.ScopesGranted g) (Broker.EncBackend g) 1
              (Broker.CreatedAt g) now None
  | Some o => Broker.MkBrokerGrant (Broker.g_ID o) (Broker.UserID o) (Broker.BrokerProviderID o)
                (Broker.CredentialData g) (Broker.ScopesGranted g) (Broker.EncBackend g) (Broker.Version o + 1)
                (Broker.CreatedAt o) now None
  end.

Definition Upsert (g : Broker.BrokerGrant) : M Broker.BrokerGrant := store (λ now d,
  if andb (bool_decide (broker_grants d !! key g = None)) (insert_refused g d) then (Err EFault, d)
  else
    let row := upsert_row now g (broker_grants d !! key g) in
    (Ok row, set_broker_grants (<[key g := row]> (broker_grants d)) d)).

(** The optimistic lock: the row is matched by id and version; whether it is
    revoked is not looked at, and [revoked_at] is not written. *)

Definition version_match (g x : Broker.BrokerGrant) : bool :=
  andb (bool_decide (Broker.g_ID x = Broker.g_ID g)) (bool_decide (Broker.Version x = Broker.Version g)).

Definition rotate_row (now : Z) (g x : Broker.BrokerGrant) : Broker.BrokerGrant :=
  Broker.MkBrokerGrant (Broker.g_ID x) (Broker.UserID x) (Broker.BrokerProviderID x)
    (Broker.CredentialData g) (Broker.ScopesGranted g) (Broker.EncBackend g) (Broker.Version x + 1)
    (Broker.CreatedAt x) now (Broker.RevokedAt x).

Definition UpdateWithVersion (g : Broker.BrokerGrant) : M unit := store (λ now d,
  if bool_decide (count_rows (version_match g) (broker_grants d) = 0) then (Err ErrBrokerGrantConflict, d)
  else (Ok tt, set_broker_grants (update_rows (version_match g) (rotate_row now g) (broker_grants d)) d)).

Definition Revoke (id : string) : M unit := store (λ now d,
  (Ok tt, set_broker_grants
     (update_rows (λ g, bool_decide (Broker.g_ID g = id))
        (λ g, Broker.MkBrokerGrant (Broker.g_ID g) (Broker.UserID g) (Broker.BrokerProviderID g)
                (Broker.CredentialData g) (Broker.ScopesGranted g) (Broker.EncBackend g) (Broker.Version g)
                (Broker.CreatedAt g) now (Some now))
        (broker_grants d)) d)).

Definition newest_first (a b : Broker.BrokerGrant) : Prop :=
  SqlTime.text_lt (Broker.CreatedAt a) (Broker.CreatedAt b) = false.

#[global] Instance newest_first_dec : RelDecision newest_first.
Proof. intros a b. unfold newest_first. apply _. Defined.

Definition ListForUser (userID : string) : M (list Broker.BrokerGrant) := query (λ _ d,
  Ok (filter (λ g, Broker.UserID g = userID) (merge_sort newest_first ((map_to_list (broker_grants d)).*2)))).

End BrokerGrantStore.

(** ** DPoPNonceStore (dpop_nonce.go) *)

Module DPoPNonceStore.

Definition ConsumeJTI (jti : string) (expiry : Z) : M unit := store (λ _ d,
  match dpop_jtis d !! jti with
  | Some _ => (Err ErrDPoPReplay, d)
  | None => (Ok tt, set_dpop_jtis (<[jti := expiry]> (dpop_jtis d)) d)
  end).

Definition ValidateNonce (nonce : string) : M unit := query (λ now d,
  match dpop_nonces d !! nonce with
  | None => Err ErrDPoPNonceMismatch
  | Some t => if bool_decide (t < now)%Z then Err ErrDPoPNonceMismatch else Ok tt
  end).

Definition purge_jtis (now : Z) (d : DB) : DB :=
  set_dpop_jtis (delete_rows (λ t, SqlTime.text_lt t now) (dpop_jtis d)) d.

End DPoPNonceStore.

(** ** IssuanceStore (issuance_store.go) *)

Module IssuanceStore.

Definition Insert (i : Issuance.Issuance) : M unit := store (λ _ d,
  if bool_decide (is_Some (issuances d !! Issuance.ID i)) then (Err EFault, d)
  else if bool_decide (resources d !! Issuance.ResourceID i = None) then (Err EFault, d)
  else if bool_decide (is_Some (find_row (λ x, sql_eq (Issuance.JTI x) (Issuance.JTI i)) (issuances d)))
  then (Err EFault, d)
  else (Ok tt, set_issuances (<[Issuance.ID i := i]> (issuances d)) d)).

Definition GetByID (id : string) : M (option Issuance.Issuance) := query (λ _ d,
  Ok (issuances d !! id)).

Definition GetByJTI (jti : string) : M (option Issuance.Issuance) := query (λ _ d,
  Ok (find_row (λ x, sql_eq (Issuance.JTI x) jti) (issuances d))).

(** [issued_at >= ? ORDER BY issued_at DESC] *)

Definition newest_first (a b : Issuance.Issuance) : Prop :=
  SqlTime.text_lt (Issuance.IssuedAt a) (Issuance.IssuedAt b) = false.

#[global] Instance newest_first_dec : RelDecision newest_first.
Proof. intros a b. unfold newest_first. apply _. Defined.

Definition list_where (P : Issuance.Issuance → bool) (since : Z) : M (list Issuance.Issuance) := query (λ _ d,
  Ok (filter (λ i, andb (P i) (negb (SqlTime.text_lt (Issuance.IssuedAt i) since)) = true)
        (merge_sort newest_first ((map_to_list (issuances d)).*2)))).

Definition ListForUser (userID : string) (since : Z) : M (list Issuance.Issuance) :=
  list_where (λ i, bool_decide (Issuance.SubjectUserID i = userID)) since.

Definition ListForActor (clientID : string) (since : Z) : M (list Issuance.Issuance) :=
  list_where (λ i, bool_decide (Issuance.ClientID i = clientID)) since.

Definition ListForResource (resourceID : string) (since : Z) : M (list Issuance.Issuance) :=
  list_where (λ i, bool_decide (Issuance.ResourceID i = resourceID)) since.

Definition revoke_row (now : Z) (id : string) (t : gmap string Issuance.Issuance)
    : gmap string Issuance.Issuance :=
  alter (λ i, if Issuance.IsRevoked i then i else Issuance.revoke now i) id t.

Definition Revoke (id : string) : M unit := store (λ now d,
  (Ok tt, set_issuances (revoke_row now id (issuances d)) d)).

(** The recursive query of [RevokeFamily]: [lineage_root] is its first
    SELECT, [lineage_grow] one round of the UNION with the second.  A round
    only adds jtis of stored rows, so as many rounds as there are rows reach
    the fixpoint the recursion stops at. *)

Definition is_mint_row (i : Issuance.Issuance) : bool :=
  andb (bool_decide (Issuance.BackendKind i = Resource.BackendMint)) (bool_decide (Issuance.JTI i ≠ "")).

Definition lineage_root (userID clientID resourceID : string) (i : Issuance.Issuance) : bool :=
  andb (bool_decide (Issuance.SubjectUserID i = userID))
    (andb (bool_decide (Issuance.ResourceID i = resourceID))
      (andb (is_mint_row i)
        (orb (sql_eq (Issuance.ConsentClientID i) clientID)
          (andb (bool_decide (Issuance.ConsentClientID i = ""))
            (bool_decide (Issuance.ClientID i = clientID)))))).

Definition jtis_where (P : Issuance.Issuance → bool) (t : gmap string Issuance.Issuance) : gset string :=
  list_to_set (Issuance.JTI <$> filter (λ i, P i = true) ((map_to_list t).*2)).

Definition lineage_grow (t : gmap string Issuance.Issuance) (l : gset string) : gset string :=
  l ∪ jtis_where (λ i, andb (is_mint_row i)
                         (andb (bool_decide (Issuance.ParentJTI i ≠ ""))
                            (bool_decide (Issuance.ParentJTI i ∈ l)))) t.

Definition lineage (userID clientID resourceID : string) (t : gmap string Issuance.Issuance) : gset string :=
  Nat.iter (size (jtis_where is_mint_row t)) (lineage_grow t)
    (jtis_where (lineage_root userID clientID resourceID) t).

Definition family_row (l : gset string) (i : Issuance.Issuance) : bool :=
  andb (is_mint_row i) (andb (bool_decide (Issuance.JTI i ∈ l)) (negb (Issuance.IsRevoked i))).

Definition RevokeFamily (userID clientID resourceID : string) : M nat := store (λ now d,
  let P := family_row (lineage userID clientID resourceID (issuances d)) in
  (Ok (count_rows P (issuances d)),
   set_issuances (update_rows P (Issuance.revoke now) (issuances d)) d)).

Definition PurgeExpired (before : Z) : M nat := store (λ _ d,
  let P := λ i, match Issuance.RevokedAt i with
                | None => SqlTime.text_lt (Issuance.ExpiresAt i) before
                | Some t => SqlTime.text_lt t before
                end in
  (Ok (count_rows P (issuances d)), set_issuances (delete_rows P (issuances d)) d)).

(** *** What the recursion reaches *)

Inductive descends (u c r : string) (t : gmap string Issuance.Issuance) : string → Prop :=
  | descends_root k i : t !! k = Some i → lineage_root u c r i = true → descends u c r t (Issuance.JTI i)
  | descends_child k i p : t !! k = Some i → is_mint_row i = true →
      sql_eq (Issuance.ParentJTI i) p = true → descends u c r t p → descends u c r t (Issuance.JTI i).

Lemma elem_of_jtis_where P t j :
  j ∈ jtis_where P t ↔ ∃ k i, t !! k = Some i ∧ P i = true ∧ Issuance.JTI i = j.
Proof.
  unfold jtis_where. rewrite elem_of_list_to_set, list_elem_of_fmap. split.
  - intros (i & -> & Hi). apply list_elem_of_filter in Hi as [HP Hi].
    apply list_elem_of_fmap in Hi as [[k i'] [-> Hk]]. apply elem_of_map_to_list in Hk. eauto.
  - intros (k & i & Hk & HP & <-). exists i. split; [done|].
    apply list_elem_of_filter. split; [done|]. apply list_elem_of_fmap.
    exists (k, i). split; [done|]. by apply elem_of_map_to_list.
Qed.

Lemma lineage_grow_spec t l j :
  j ∈ lineage_grow t l ↔ j ∈ l ∨
    ∃ k i, t !! k = Some i ∧ is_mint_row i = true ∧ Issuance.ParentJTI i ≠ "" ∧
           Issuance.ParentJTI i ∈ l ∧ Issuance.JTI i = j.
Proof.
  unfold lineage_grow. rewrite elem_of_union, elem_of_jtis_where.
  setoid_rewrite andb_true_iff. setoid_rewrite andb_true_iff.
  setoid_rewrite bool_decide_eq_true. naive_solver.
Qed.

Lemma lineage_closed u c r t :
  lineage_grow t (lineage u c r t) = lineage u c r t.
Proof.
  unfold lineage. apply iter_fixpoint.
  - intros X j Hj. apply lineage_grow_spec. by left.
  - intros X HX j. rewrite lineage_grow_spec, elem_of_jtis_where. rewrite <-elem_of_jtis_where.
    intros [Hj|(k & i & ? & ? & ? & ? & ?)]; [by apply HX|]. apply elem_of_jtis_where. eauto.
  - intros j. rewrite !elem_of_jtis_where. unfold lineage_root.
    intros (k & i & ? & HP & ?). exists k, i. by unbool.
Qed.

Lemma lineage_spec u c r t j : j ∈ lineage u c r t ↔ descends u c r t j.
Proof.
  split.
  - unfold lineage. generalize (size (jtis_where is_mint_row t)). intros n. revert j.
    induction n as [|n IH]; intros j; simpl.
    + rewrite elem_of_jtis_where. intros (k & i & ? & ? & <-). by eapply descends_root.
    + rewrite lineage_grow_spec. intros [?|(k & i & ? & ? & ? & Hp & <-)]; [eauto|].
      eapply descends_child; eauto. by apply sql_eq_spec.
  - induction 1 as [k i Hk Hr|k i p Hk Hm Hp _ IH].
    + unfold lineage. apply (iter_inflationary (lineage_grow t)).
      * intros X x Hx. apply lineage_grow_spec. by left.
      * apply elem_of_jtis_where. eauto.
    + rewrite <-lineage_closed, lineage_grow_spec. right. exists k, i.
      apply sql_eq_spec in Hp as [? Hp]. subst p. done.
Qed.

End IssuanceStore.

(** ** FrontingLinkStore (fronting_link_store.go) *)

Module FrontingLinkStore.

(** [ORDER BY source_slug, target_slug] *)

Definition link_le (a b : Link.FrontingLink) : Prop :=
  (Link.SourceSlug a = Link.SourceSlug b ∧ string_le (Link.TargetSlug a) (Link.TargetSlug b)) ∨
  (Link.SourceSlug a ≠ Link.SourceSlug b ∧ string_le (Link.SourceSlug a) (Link.SourceSlug b)).

#[global] Instance link_le_dec : RelDecision link_le.
Proof. intros a b. unfold link_le. apply _. Defined.

Definition rows (d : DB) : list Link.FrontingLink :=
  merge_sort link_le ((map_to_list (fronting_links d)).*2).

Record Filter := MkFilter { Source : string; Target : string; Limit : nat; Offset : nat }.

Definition matches (f : Filter) (l : Link.FrontingLink) : bool :=
  andb (orb (bool_decide (Source f = "")) (bool_decide (Link.SourceSlug l = Source f)))
    (orb (bool_decide (Target f = "")) (bool_decide (Link.TargetSlug l = Target f))).

Definition touches (slug : string) (l : Link.FrontingLink) : bool :=
  orb (bool_decide (Link.SourceSlug l = slug)) (bool_decide (Link.TargetSlug l = slug)).

Definition Get (sourceSlug targetSlug : string) : M Link.FrontingLink := query (λ _ d,
  match fronting_links d !! (sourceSlug, targetSlug) with
  | Some l => Ok l | None => Err ErrFrontingLinkNotFound end).

Definition list_rows (f : Filter) (d : DB) : list Link.FrontingLink :=
  let all := filter (λ l, matches f l = true) (rows d) in
  if bool_decide (0 < Limit f) then take (Limit f) (drop (Offset f) all) else all.

Definition List (f : Filter) : M (list Link.FrontingLink) := query (λ _ d, Ok (list_rows f d)).

Definition ListForResource (slug : string) : M (list Link.FrontingLink) := query (λ _ d,
  Ok (filter (λ l, touches slug l = true) (rows d))).

Definition Create (l : Link.FrontingLink) : M unit := store (λ _ d,
  let k := (Link.SourceSlug l, Link.TargetSlug l) in
  if bool_decide (is_Some (fronting_links d !! k)) then (Err ErrFrontingLinkExists, d)
  else if orb (bool_decide (find_row (λ r, bool_decide (Resource.Slug r = Link.SourceSlug l)) (resources d) = None))
            (bool_decide (find_row (λ r, bool_decide (Resource.Slug r = Link.TargetSlug l)) (resources d) = None))
  then (Err (EInvalidRequest "source_slug or target_slug does not reference an existing resource"), d)
  else (Ok tt, set_links (<[k := l]> (fronting_links d)) d)).

Definition with_map (l : Link.FrontingLink) (m : gmap string (list string)) : Link.FrontingLink :=
  Link.MkLink (Link.SourceSlug l) (Link.TargetSlug l) m (Link.CreatedAt l) (Link.CreatedBy l).

Definition Update (l : Link.FrontingLink) : M unit := store (λ _ d,
  let k := (Link.SourceSlug l, Link.TargetSlug l) in
  match fronting_links d !! k with
  | None => (Err ErrFrontingLinkNotFound, d)
  | Some old => (Ok tt, set_links (<[k := with_map old (Link.ScopeMap l)]> (fronting_links d)) d)
  end).

Definition Delete (sourceSlug targetSlug : string) : M unit := store (λ _ d,
  match fronting_links d !! (sourceSlug, targetSlug) with
  | None => (Err ErrFrontingLinkNotFound, d)
  | Some _ => (Ok tt, set_links (delete (sourceSlug, targetSlug) (fronting_links d)) d)
  end).

Definition DeleteForResource (slug : string) : M nat := store (λ _ d,
  (Ok (count_rows (touches slug) (fronting_links d)),
   set_links (delete_rows (touches slug) (fronting_links d)) d)).

Lemma elem_of_rows d l :
  l ∈ rows d ↔ ∃ k, fronting_links d !! k = Some l.
Proof.
  unfold rows. rewrite merge_sort_Permutation, list_elem_of_fmap. split.
  - intros ([k l'] & -> & Hk). apply elem_of_map_to_list in Hk. eauto.
  - intros (k & Hk). exists (k, l). split; [done|]. by apply elem_of_map_to_list.
Qed.

End FrontingLinkStore.
