(* ===== verification/Order.v ===== *)
(** * Traces and the security order on tables

    [Traced S P m]: every store call [m] makes itself moves the tables by
    [S], every audit event it records satisfies [P], and, when the other
    requests also move the tables by [S], so does the whole run.

    The order used for the grants is [db_step]: the tables stay well formed
    (keys, UNIQUE and FOREIGN KEY constraints) and only move forward (a
    revoked family, token or issuance stays revoked, a consumed refresh token
    or code stays consumed, a denylisted jti stays denylisted).  With [S] the
    equality, [Traced] says that a computation only reads. *)

From S2P Require Import Prelude GoStrings ScopeSet Act Domain Db Effects Crypto Stores.

(** ** Traces *)

Definition rely (S : relation DB) (e : Env) : Prop := ∀ n d, S d (interfere e n d).

(** [history S d g d']: from the tables [d] to the tables [d'] the steps [g]
    happened in this order, and before, between and after them the tables
    moved by [S] too. *)

Inductive history (S : relation DB) : DB → list (DB * DB) → DB → Prop :=
  | history_nil d d' : S d d' → history S d [] d'
  | history_cons d d1 d2 g d' : S d d1 → S d1 d2 → history S d2 g d' → history S d ((d1, d2) :: g) d'.

Definition Traced (S : relation DB) (P : Audit.Event → Prop) {A} (m : M A) : Prop :=
  ∀ e w r w', m e w = (r, w') → ∃ l a,
    w_steps w' = w_steps w ++ l ∧ w_audit w' = w_audit w ++ a ∧
    Forall (λ s, S s.1 s.2) l ∧ Forall P a ∧ (rely S e → history S (w_db w) l (w_db w')).

Section history.
Context {S : relation DB} `{HS : !PreOrder S}.

Lemma history_end d g d' : history S d g d' → S d d'.
Proof. induction 1 as [|d d1 d2 g d' H1 H2 _ IH]; [done|]. etrans; [exact H1|]. by etrans. Qed.

Lemma history_before d0 d g d' : S d0 d → history S d g d' → history S d0 g d'.
Proof.
  intros H0 Hh. destruct Hh as [d d' H|d d1 d2 g d' H1 H2 Hh]; constructor; try done; by etrans.
Qed.

Lemma history_app d g1 d1 g2 d2 :
  history S d g1 d1 → history S d1 g2 d2 → history S d (g1 ++ g2) d2.
Proof.
  induction 1 as [d d' H|d x y g d' H1 H2 _ IH]; simpl; intros Hh.
  - by eapply history_before.
  - constructor; auto.
Qed.

Lemma history_lookup d g d' i x y : history S d g d' → g !! i = Some (x, y) → S d x ∧ S x y.
Proof.
  intros Hh. revert i. induction Hh as [d|d d1 d2 g d' H1 H2 Hh IH]; intros i Hi; [done|].
  destruct i as [|i]; simplify_eq/=; [done|]. destruct (IH _ Hi). split; [|done].
  etrans; [exact H1|]. by etrans.
Qed.

Lemma history_order d g d' i j x y x' y' :
  history S d g d' → i < j → g !! i = Some (x, y) → g !! j = Some (x', y') → S y x'.
Proof.
  intros Hh. revert i j. induction Hh as [d|d d1 d2 g d' H1 H2 Hh IH]; intros i j Hij Hi Hj; [done|].
  destruct j as [|j]; [lia|]. destruct i as [|i]; simplify_eq/=.
  - by destruct (history_lookup _ _ _ _ _ _ Hh Hj).
  - eapply (IH i j); eauto. lia.
Qed.

End history.

Section traced.
Context {S : relation DB} `{HS : !PreOrder S} {P : Audit.Event → Prop}.

Lemma traced_pure {A} (m : M A) (r : Env → World → res A) :
  (∀ e w, m e w = (r e w, w) ∨ m e w = (r e w, after w (w_db w) [])) → Traced S P m.
Proof.
  intros Hm e w r0 w' Hr. exists [], [].
  destruct (Hm e w) as [H|H]; rewrite H in Hr; simplify_eq/=; rewrite ?app_nil_r; repeat split; try done;
    by intros; constructor.
Qed.

Lemma traced_ret {A} (a : A) : Traced S P (mret a : M A).
Proof. apply (traced_pure _ (λ _ _, Ok a)). by left. Qed.

Lemma traced_throw {A} x : Traced S P (throw x : M A).
Proof. apply (traced_pure _ (λ _ _, Err x)). by left. Qed.

Lemma traced_ask {A} (f : Env → A) : Traced S P (ask f).
Proof. apply (traced_pure _ (λ e _, Ok (f e))). by left. Qed.

Lemma traced_ensure c x : Traced S P (ensure c x).
Proof. unfold ensure. destruct c; [apply traced_ret|apply traced_throw]. Qed.

Lemma traced_now : Traced S P time_Now.
Proof. apply (traced_pure _ (λ e w, Ok (clock e (w_tick w)))). by right. Qed.

Lemma traced_rand : Traced S P GenerateRandomString.
Proof. apply (traced_pure _ (λ e w, Ok (rand e (w_tick w)))). by right. Qed.

Lemma traced_provider {A} (f : Env → A) : Traced S P (provider f).
Proof.
  apply (traced_pure _ (λ e w, if fault e (w_tick w) then Err EFault else Ok (f e))).
  right. unfold provider. by case_match.
Qed.

Lemma traced_audit b ev : P ev → Traced S P (record_audit b ev).
Proof.
  intros HP e w r w' [= <- <-]. exists [], (if b then [ev] else []).
  destruct b; simpl; rewrite ?app_nil_r; repeat split; auto; by intros; constructor.
Qed.

(** Sequencing, when the first part only answers with values that satisfy [Q]. *)

Definition Returns {A} (Q : A → Prop) (m : M A) : Prop := ∀ e w a w', m e w = (Ok a, w') → Q a.

Lemma traced_bind_post {A B} (Q : A → Prop) (m : M A) (k : A → M B) :
  Traced S P m → Returns Q m → (∀ a, Q a → Traced S P (k a)) → Traced S P (m ≫= k).
Proof.
  intros Hm HQ Hk e w r w' Hr. unfold mbind, M_bind in Hr.
  destruct (m e w) as [[a|x] w1] eqn:E; [|simplify_eq; eauto].
  destruct (Hm _ _ _ _ E) as (l1 & a1 & Hl1 & Ha1 & Fl1 & Fa1 & Hs1).
  destruct (Hk a (HQ _ _ _ _ E) _ _ _ _ Hr) as (l2 & a2 & Hl2 & Ha2 & Fl2 & Fa2 & Hs2).
  exists (l1 ++ l2), (a1 ++ a2). rewrite Hl2, Hl1, Ha2, Ha1, !app_assoc.
  repeat split; auto using Forall_app_2. intros HR. by eapply history_app; [apply Hs1|apply Hs2].
Qed.

Lemma traced_bind {A B} (m : M A) (k : A → M B) :
  Traced S P m → (∀ a, Traced S P (k a)) → Traced S P (m ≫= k).
Proof. intros Hm Hk. apply (traced_bind_post (λ _, True)); unfold Returns; auto. Qed.

Lemma traced_try {A} (m : M A) : Traced S P m → Traced S P (try m).
Proof.
  intros Hm e w r w' Hr. unfold try in Hr. destruct (m e w) eqn:E.
  simplify_eq. eauto.
Qed.

Lemma traced_when c m : Traced S P m → Traced S P (when c m).
Proof. unfold when. destruct c; [done|]. intros. apply traced_ret. Qed.

Lemma traced_store {A} (f : Z → DB → res A * DB) :
  (∀ t d, S d (f t d).2) → Traced S P (store f).
Proof.
  intros Hf e w r w' Hr. unfold store in Hr.
  destruct (fault e (w_tick w)); simplify_eq/=.
  - exists [], []. rewrite ?app_nil_r. repeat split; auto. intros HR. constructor. apply HR.
  - specialize (Hf (clock e (w_tick w)) (interfere e (w_tick w) (w_db w))).
    destruct (f _ _) as [r0 d']; simplify_eq/=.
    exists [(interfere e (w_tick w) (w_db w), d')], []. rewrite ?app_nil_r.
    repeat split; auto. intros HR. by repeat constructor.
Qed.

Lemma traced_query {A} (f : Z → DB → res A) : Traced S P (query f).
Proof. apply traced_store. reflexivity. Qed.

Lemma rely_quiet e : rely S (quiet_env e).
Proof. intros n d. simpl. reflexivity. Qed.

Lemma traced_tx {A} (m : M A) : Traced S P m → Traced S P (with_tx m).
Proof.
  intros Hm e w r w' Hr. unfold with_tx in Hr.
  set (d := interfere e (w_tick w) (w_db w)) in *.
  assert (rely S e → S (w_db w) d) as Hd by (intros HR; apply HR).
  destruct (fault e (w_tick w)).
  { simplify_eq/=. exists [], []. rewrite ?app_nil_r. repeat split; auto. intros HR. constructor; auto. }
  destruct (m _ _) as [[a|x] w1] eqn:E;
    destruct (Hm _ _ _ _ E) as (l1 & a1 & Hl1 & Ha1 & Fl1 & Fa1 & Hs1);
    specialize (Hs1 (rely_quiet e)); apply history_end in Hs1; simpl in *;
    [destruct (fault e (w_tick w1))|]; simplify_eq/=.
  - exists [], a1. rewrite app_nil_r. repeat split; auto. intros HR. constructor; auto.
  - exists [(d, w_db w1)], a1. repeat split; auto. intros HR. repeat constructor; auto; reflexivity.
  - exists [], a1. rewrite app_nil_r. repeat split; auto. intros HR. constructor; auto.
Qed.

Lemma traced_in_tx {A} b (m : M A) : Traced S P m → Traced S P (in_tx b m).
Proof. unfold in_tx. destruct b; [apply traced_tx|done]. Qed.

End traced.

(** A computation whose events satisfy more and whose steps are smaller. *)

Lemma traced_weaken (P Q : Audit.Event → Prop) S {A} (m : M A) :
  (∀ ev, P ev → Q ev) → Traced S P m → Traced S Q m.
Proof.
  intros HPQ Hm e w r w' Hr. destruct (Hm _ _ _ _ Hr) as (l & a & ? & ? & ? & ? & ?).
  exists l, a. repeat split; auto. eapply Forall_impl; eauto.
Qed.

#[export] Hint Resolve traced_ret traced_throw traced_ask traced_ensure traced_now
  traced_rand traced_provider traced_try traced_when traced_query traced_in_tx : guar_db.

#[export] Hint Extern 0 (PreOrder _) => apply _ : guar_db.

(** [traced] proves a [Traced] goal by following the code: binds, branches,
    then the lemma of each operation from [guar_db]. *)

Ltac traced_step :=
  lazymatch goal with
  | |- Traced _ _ (mbind _ _) => apply traced_bind; [|intros ?]
  | |- Traced _ _ (if ?b then _ else _) => destruct b eqn:?
  | |- Traced _ _ (match ?x with _ => _ end) => destruct x eqn:?
  | |- Traced _ _ (let _ := _ in _) => cbv zeta
  | |- Traced _ _ (try _) => apply traced_try
  | |- Traced _ _ (when _ _) => apply traced_when
  | |- Traced _ _ (in_tx _ _) => apply traced_in_tx
  | |- Traced _ _ (record_audit _ _) => apply traced_audit
  | |- Traced _ _ _ => solve [auto with guar_db nocore]
  end.

Ltac traced := repeat traced_step.

(** ** The security order *)

Section tables.
Context `{Countable K} {A : Type}.

Definition table_le (R : relation A) (m m' : gmap K A) : Prop :=
  ∀ k a, m !! k = Some a → ∃ a', m' !! k = Some a' ∧ R a a'.

#[global] Instance table_le_preorder (R : relation A) `{!PreOrder R} : PreOrder (table_le R).
Proof.
  split.
  - intros m k a Hk. exists a. split; [done|reflexivity].
  - intros m1 m2 m3 H1 H2 k a Hk. destruct (H1 _ _ Hk) as (b & Hb & Rb).
    destruct (H2 _ _ Hb) as (c & Hc & Rc). exists c. split; [done|by etrans].
Qed.

Lemma table_le_insert (R : relation A) `{!PreOrder R} (m : gmap K A) k a :
  (∀ b, m !! k = Some b → R b a) → table_le R m (<[k:=a]> m).
Proof.
  intros Hb j b Hj. destruct (decide (k = j)) as [->|Hne].
  - exists a. rewrite lookup_insert_eq. eauto.
  - exists b. rewrite lookup_insert_ne by done. split; [done|reflexivity].
Qed.

Lemma table_le_map (R : relation A) (g : A → A) (m : gmap K A) :
  (∀ a, R a (g a)) → table_le R m (g <$> m).
Proof. intros Hg k a Hk. exists (g a). rewrite lookup_fmap, Hk. eauto. Qed.

(** UNIQUE on a column; [None] is NULL. *)

Definition unique_on (col : A → option string) (m : gmap K A) : Prop :=
  ∀ k1 k2 a1 a2 v, m !! k1 = Some a1 → m !! k2 = Some a2 →
    col a1 = Some v → col a2 = Some v → k1 = k2.

Lemma unique_on_insert col (m : gmap K A) k a :
  (∀ j b v, j ≠ k → m !! j = Some b → col b = Some v → col a = Some v → False) →
  unique_on col m → unique_on col (<[k:=a]> m).
Proof.
  intros Hf Hu k1 k2 a1 a2 v. rewrite !lookup_insert_Some.
  intros [[-> ->]|[? ?]] [[-> ->]|[? ?]] ? ?; eauto; exfalso; eapply Hf; eauto.
Qed.

Lemma unique_on_map col (g : A → A) (m : gmap K A) :
  (∀ a, col (g a) = col a) → unique_on col m → unique_on col (g <$> m).
Proof.
  intros Hg Hu k1 k2 a1 a2 v. rewrite !lookup_fmap_Some.
  intros (b1 & <- & ?) (b2 & <- & ?). rewrite !Hg. eauto.
Qed.

Definition keyed (key : A → K) (m : gmap K A) : Prop := ∀ k a, m !! k = Some a → key a = k.

Lemma keyed_insert key (m : gmap K A) k a :
  key a = k → keyed key m → keyed key (<[k:=a]> m).
Proof. intros Ha Hk j b. rewrite lookup_insert_Some. naive_solver. Qed.

Lemma keyed_map key (g : A → A) (m : gmap K A) :
  (∀ a, key (g a) = key a) → keyed key m → keyed key (g <$> m).
Proof. intros Hg Hk j b. rewrite lookup_fmap_Some. intros (c & <- & ?). rewrite Hg. eauto. Qed.

End tables.

(** *** Rows only move forward *)

Definition fam_le (f f' : Family.Family) : Prop :=
  f' = f ∨ (Family.IsActive f = true ∧ ∃ now, f' = Family.Revoke now f).
Definition rt_le (t t' : Refresh.RefreshToken) : Prop :=
  t' = t ∨ (Refresh.ConsumedAt t = None ∧ ∃ now, t' = Refresh.consume now t).
Definition mt_le (t t' : Machine.MachineToken) : Prop := t' = t ∨ t' = Machine.revoke t.
Definition iss_le (i i' : Issuance.Issuance) : Prop :=
  i' = i ∨ (Issuance.RevokedAt i = None ∧ ∃ now, i' = Issuance.revoke now i).

#[export] Instance fam_le_preorder : PreOrder fam_le.
Proof. split; [by left|]. intros f g h [->|[? [n ->]]] [->|[H' [n' ->]]]; unfold fam_le; eauto; done. Qed.
#[export] Instance rt_le_preorder : PreOrder rt_le.
Proof. split; [by left|]. intros f g h [->|[? [n ->]]] [->|[? [n' ->]]]; unfold rt_le; eauto; done. Qed.
#[export] Instance mt_le_preorder : PreOrder mt_le.
Proof. split; [by left|]. intros f g h [->| ->] [->| ->]; unfold mt_le; eauto. Qed.
#[export] Instance iss_le_preorder : PreOrder iss_le.
Proof. split; [by left|]. intros f g h [->|[? [n ->]]] [->|[? [n' ->]]]; unfold iss_le; eauto; done. Qed.

(** A session whose code was redeemed is never changed or deleted. *)

Definition sessions_le (m m' : gmap string Session.AuthSession) : Prop :=
  ∀ k s, m !! k = Some s → Session.ConsumedAt s ≠ None → m' !! k = Some s.

Record db_le (d d' : DB) : Prop := {
  le_families : table_le fam_le (token_families d) (token_families d');
  le_refresh : table_le rt_le (refresh_tokens d) (refresh_tokens d');
  le_sessions : sessions_le (auth_sessions d) (auth_sessions d');
  le_tracked : table_le eq (access_token_jtis d) (access_token_jtis d');
  le_revoked : table_le (λ _ _, True) (revoked_jtis d) (revoked_jtis d');
  le_machine : table_le mt_le (machine_tokens d) (machine_tokens d');
  le_issuances : table_le iss_le (issuances d) (issuances d');
  le_dpop : table_le (λ _ _, True) (dpop_jtis d) (dpop_jtis d');
  le_assertions : table_le (λ _ _, True) (assertion_jtis (xaa d)) (assertion_jtis (xaa d'))
}.

#[export] Instance True_preorder {A} : PreOrder (λ _ _ : A, True).
Proof. by split. Qed.

#[export] Instance db_le_preorder : PreOrder db_le.
Proof.
  split.
  - intros d. split; try reflexivity. by intros k s.
  - intros d1 d2 d3 [] []. split; try (by etrans).
    intros k s Hk Hc. eauto.
Qed.

(** *** Constraints of the schema *)

Definition nullable (s : string) : option string := if bool_decide (s = "") then None else Some s.

Record wf_db (d : DB) : Prop := {
  wf_families_key : keyed Family.ID (token_families d);
  wf_families_session : unique_on (λ f, nullable (Family.AuthSessionID f)) (token_families d);
  wf_refresh_key : keyed Refresh.ID (refresh_tokens d);
  wf_refresh_hash : unique_on (λ t, Some (Refresh.TokenHash t)) (refresh_tokens d);
  wf_refresh_family : ∀ k t, refresh_tokens d !! k = Some t →
                             is_Some (token_families d !! Refresh.FamilyID t);
  wf_sessions_key : keyed Session.ID (auth_sessions d);
  wf_sessions_code : unique_on (λ s, nullable (Session.CodeHash s)) (auth_sessions d);
  wf_tracked_family : ∀ j x, access_token_jtis d !! j = Some x → is_Some (token_families d !! x.1);
  wf_machine_key : keyed Machine.JTI (machine_tokens d);
  wf_issuances_key : keyed Issuance.ID (issuances d);
  wf_issuances_jti : unique_on (λ i, nullable (Issuance.JTI i)) (issuances d)
}.

Definition db_step (d d' : DB) : Prop := wf_db d → wf_db d' ∧ db_le d d'.

#[export] Instance db_step_preorder : PreOrder db_step.
Proof.
  split; [by intros d|]. intros d1 d2 d3 H1 H2 Hwf.
  destruct (H1 Hwf) as [Hwf2 Hle1]. destruct (H2 Hwf2) as [? Hle2].
  split; [done|by etrans].
Qed.

Lemma wf_empty : wf_db empty_db.
Proof. by split. Qed.

(** *** One table changes *)

Lemma table_le_is_Some `{Countable K} {A} (R : relation A) (m m' : gmap K A) k :
  table_le R m m' → is_Some (m !! k) → is_Some (m' !! k).
Proof. intros Hle [a Ha]. destruct (Hle _ _ Ha) as (b & Hb & _). eauto. Qed.

Ltac one_table H :=
  let Hwf := fresh "Hwf" in
  intros Hwf; destruct (H Hwf) as (?&?); destruct_and?; pose proof Hwf as []; split; split; simpl;
  try done; try reflexivity; try (by intros ???); eauto using table_le_is_Some.

Lemma step_families d t :
  (wf_db d → keyed Family.ID t ∧ unique_on (λ f, nullable (Family.AuthSessionID f)) t ∧
             table_le fam_le (token_families d) t) →
  db_step d (set_families t d).
Proof. intros H. one_table H. Qed.

Lemma step_refresh d t :
  (wf_db d → keyed Refresh.ID t ∧ unique_on (λ f, Some (Refresh.TokenHash f)) t ∧
             (∀ k x, t !! k = Some x → is_Some (token_families d !! Refresh.FamilyID x)) ∧
             table_le rt_le (refresh_tokens d) t) →
  db_step d (set_refresh t d).
Proof. intros H. one_table H. Qed.

Lemma step_sessions d t :
  (wf_db d → keyed Session.ID t ∧ unique_on (λ s, nullable (Session.CodeHash s)) t ∧
             sessions_le (auth_sessions d) t) →
  db_step d (set_sessions t d).
Proof. intros H. one_table H. Qed.

Lemma step_tracked d t :
  (wf_db d → (∀ j x, t !! j = Some x → is_Some (token_families d !! x.1)) ∧
             table_le eq (access_token_jtis d) t) →
  db_step d (set_tracked t d).
Proof. intros H. one_table H. Qed.

Lemma step_revoked d t :
  table_le (λ _ _, True) (revoked_jtis d) t → db_step d (set_revoked t d).
Proof. intros Hle [] . split; split; simpl; try done; try reflexivity. by intros ???. Qed.

Lemma step_machine d t :
  (wf_db d → keyed Machine.JTI t ∧ table_le mt_le (machine_tokens d) t) →
  db_step d (set_machine t d).
Proof. intros H. one_table H. Qed.

Lemma step_issuances d t :
  (wf_db d → keyed Issuance.ID t ∧ unique_on (λ i, nullable (Issuance.JTI i)) t ∧
             table_le iss_le (issuances d) t) →
  db_step d (set_issuances t d).
Proof. intros H. one_table H. Qed.

Lemma step_dpop_jtis d t :
  table_le (λ _ _, True) (dpop_jtis d) t → db_step d (set_dpop_jtis t d).
Proof. intros Hle [] . split; split; simpl; try done; try reflexivity. by intros ???. Qed.

(** Consent grants, broker grants and fronting links are outside the order. *)

Lemma step_grants d t : db_step d (set_grants t d).
Proof. intros []. split; split; simpl; try done; try reflexivity. by intros ???. Qed.

Lemma step_links d t : db_step d (set_links t d).
Proof. intros []. split; split; simpl; try done; try reflexivity. by intros ???. Qed.

Lemma step_broker_grants d t : db_step d (set_broker_grants t d).
Proof. intros []. split; split; simpl; try done; try reflexivity. by intros ???. Qed.

Lemma step_assertions d t :
  table_le (λ _ _, True) (assertion_jtis (xaa d)) t → db_step d (set_assertions t d).
Proof. intros Hle [] . split; split; simpl; try done; try reflexivity. by intros ???. Qed.

(** The other tables of the enterprise-managed grant too. *)

Lemma step_xaa d t :
  assertion_jtis t = assertion_jtis (xaa d) → db_step d (set_xaa t d).
Proof. intros Ht []. split; split; simpl; rewrite ?Ht; try done; try reflexivity. by intros ???. Qed.

Lemma nullable_Some s v : nullable s = Some v ↔ s = v ∧ v ≠ "".
Proof. unfold nullable. case_bool_decide; naive_solver. Qed.

(** The constraint check of an INSERT is what [unique_on_insert] asks for. *)

Lemma not_stored `{Countable K} {A} (col : A → string) (v : string) (m : gmap K A) :
  ¬ is_Some (find_row (λ x, sql_eq (col x) v) m) →
  ∀ k a, m !! k = Some a → col a ≠ "" → col a ≠ v.
Proof.
  intros Hf k a Hk Hne Heq. apply Hf.
  destruct (find_row _ _) eqn:E; [eauto|]. rewrite find_row_None in E.
  specialize (E _ _ Hk). by rewrite (proj2 (sql_eq_spec _ _)) in E.
Qed.

(** ** Histories of several requests

    [merge l1 l2 g]: the steps [l1] of one request and [l2] of another are at
    different places of [g]; the remaining steps are those of other requests. *)

Inductive merge {A} : list A → list A → list A → Prop :=
  | merge_nil : merge [] [] []
  | merge_left x l1 l2 g : merge l1 l2 g → merge (x :: l1) l2 (x :: g)
  | merge_right x l1 l2 g : merge l1 l2 g → merge l1 (x :: l2) (x :: g)
  | merge_other x l1 l2 g : merge l1 l2 g → merge l1 l2 (x :: g).

Lemma merge_sym {A} (l1 l2 g : list A) : merge l1 l2 g → merge l2 l1 g.
Proof. induction 1; constructor; done. Qed.

Lemma merge_lookup_l {A} (l1 l2 g : list A) i x :
  merge l1 l2 g → l1 !! i = Some x → ∃ i', g !! i' = Some x.
Proof.
  intros Hm. revert i. induction Hm as [|y l1 l2 g _ IH|y l1 l2 g _ IH|y l1 l2 g _ IH]; intros i Hi.
  - done.
  - destruct i as [|i]; simplify_eq/=; [by exists 0|]. destruct (IH _ Hi) as [j ?]. by exists (Datatypes.S j).
  - destruct (IH _ Hi) as [j ?]. by exists (Datatypes.S j).
  - destruct (IH _ Hi) as [j ?]. by exists (Datatypes.S j).
Qed.

Lemma merge_lookup {A} (l1 l2 g : list A) i j x y :
  merge l1 l2 g → l1 !! i = Some x → l2 !! j = Some y →
  ∃ i' j', i' ≠ j' ∧ g !! i' = Some x ∧ g !! j' = Some y.
Proof.
  intros Hm. revert i j.
  induction Hm as [|z l1 l2 g Hm IH|z l1 l2 g Hm IH|z l1 l2 g Hm IH]; intros i j Hi Hj.
  - done.
  - destruct i as [|i]; simplify_eq/=.
    + destruct (merge_lookup_l _ _ _ _ _ (merge_sym _ _ _ Hm) Hj) as [j' ?].
      by exists 0, (Datatypes.S j').
    + destruct (IH _ _ Hi Hj) as (i' & j' & ? & ? & ?). exists (Datatypes.S i'), (Datatypes.S j'). auto.
  - destruct j as [|j]; simplify_eq/=.
    + destruct (merge_lookup_l _ _ _ _ _ Hm Hi) as [i' ?]. by exists (Datatypes.S i'), 0.
    + destruct (IH _ _ Hi Hj) as (i' & j' & ? & ? & ?). exists (Datatypes.S i'), (Datatypes.S j'). auto.
  - destruct (IH _ _ Hi Hj) as (i' & j' & ? & ? & ?). exists (Datatypes.S i'), (Datatypes.S j'). auto.
Qed.

Lemma merge_app {A} (l1 l2 : list A) : merge l1 l2 (l1 ++ l2).
Proof.
  induction l1 as [|x l1 IH]; simpl; [|by constructor].
  induction l2 as [|y l2 IH]; simpl; by constructor.
Qed.

(** The steps a run added to its history. *)

Definition own_steps (w w' : World) : list (DB * DB) := drop (length (w_steps w)) (w_steps w').

Lemma own_steps_app w w' l : w_steps w' = w_steps w ++ l → own_steps w w' = l.
Proof. unfold own_steps. intros ->. by rewrite drop_app_length. Qed.

(** [seen w w' x]: the run from [w] to [w'] made the step [x]. *)

Definition seen (w w' : World) (x : DB * DB) : Prop := x ∈ own_steps w w'.

Lemma traced_steps S P {A} (m : M A) e w r w' :
  Traced S P m → m e w = (r, w') → w_steps w' = w_steps w ++ own_steps w w'.
Proof.
  intros Hm Hr. destruct (Hm _ _ _ _ Hr) as (l & _ & Hl & _). by rewrite (own_steps_app _ _ _ Hl).
Qed.

Lemma own_steps_trans w w1 w2 :
  w_steps w1 = w_steps w ++ own_steps w w1 → w_steps w2 = w_steps w1 ++ own_steps w1 w2 →
  own_steps w w2 = own_steps w w1 ++ own_steps w1 w2.
Proof. intros H1 H2. apply own_steps_app. by rewrite H2, H1, app_assoc. Qed.

(** [extends w w']: the history of [w'] continues the one of [w]. *)

Definition extends (w w' : World) : Prop := ∃ l, w_steps w' = w_steps w ++ l.

#[export] Instance extends_preorder : PreOrder extends.
Proof.
  split; [by exists []; rewrite app_nil_r|].
  intros w1 w2 w3 [l H1] [l' H2]. exists (l ++ l'). by rewrite H2, H1, app_assoc.
Qed.

Lemma traced_extends {S P} {A} (m : M A) e w r w' :
  Traced S P m → m e w = (r, w') → extends w w'.
Proof. intros Hm Hr. destruct (Hm _ _ _ _ Hr) as (l & _ & Hl & _). by exists l. Qed.

Lemma seen_left w w1 w2 x : extends w w1 → extends w1 w2 → seen w w1 x → seen w w2 x.
Proof.
  intros [l1 H1] [l2 H2]. unfold seen. rewrite (own_steps_app _ _ _ H1).
  rewrite (own_steps_app w w2 (l1 ++ l2)); [set_solver|]. by rewrite H2, H1, app_assoc.
Qed.

Lemma seen_right w w1 w2 x : extends w w1 → extends w1 w2 → seen w1 w2 x → seen w w2 x.
Proof.
  intros [l1 H1] [l2 H2]. unfold seen. rewrite (own_steps_app _ _ _ H2).
  rewrite (own_steps_app w w2 (l1 ++ l2)); [set_solver|]. by rewrite H2, H1, app_assoc.
Qed.

Lemma seen_sub w w1 w2 w3 x :
  extends w w1 → extends w1 w2 → extends w2 w3 → seen w1 w2 x → seen w w3 x.
Proof. intros H1 H2 H3 Hx. eapply seen_right; [exact H1|by etrans|]. by eapply seen_left. Qed.

Lemma seen_after w d x : seen w (after w d [x]) x.
Proof. unfold seen. rewrite (own_steps_app _ _ [x]) by done. set_solver. Qed.

Lemma extends_after w d l : extends w (after w d l).
Proof. by exists l. Qed.

Lemma own_steps_quiet w w1 w2 :
  extends w w1 → extends w1 w2 → own_steps w1 w2 = [] → own_steps w w2 = own_steps w w1.
Proof.
  intros [l1 H1] [l2 H2]. rewrite (own_steps_app _ _ _ H1), (own_steps_app _ _ _ H2). intros ->.
  apply own_steps_app. by rewrite H2, H1, app_nil_r.
Qed.

(** Consecutive worlds of a run, collected by [ext_all P] from the equations
    of its steps; [P] is the predicate the handler's events satisfy. *)

Ltac ext_of P H :=
  lazymatch type of H with
  | ?m ?e ?w = (_, ?w') =>
      lazymatch goal with
      | _ : extends w w' |- _ => fail
      | |- _ =>
          assert (extends w w') by
            (refine (traced_extends (S:=db_step) (P:=P) m e w _ w' _ H); traced)
      end
  end.

Ltac ext_all P := repeat match goal with H : _ = (_, _) |- _ => ext_of P H end.

(** [chain_ext] proves [extends] by following them; [seen_tac] proves [seen]
    for a step of a sub-run. *)

Ltac chain_ext :=
  solve [ reflexivity | assumption | apply extends_after
        | match goal with
          | H : extends ?w ?w1 |- extends ?w ?w2 => apply (PreOrder_Transitive w w1 w2 H); chain_ext
          | |- extends ?w (after ?v ?d ?l) =>
              apply (PreOrder_Transitive w v (after v d l)); [chain_ext|apply extends_after]
          | H : extends ?v ?w2 |- extends ?w ?w2 =>
              apply (PreOrder_Transitive w v w2); [chain_ext|exact H]
          end ].

Ltac seen_tac :=
  try change (?x ∈ own_steps ?w ?w') with (seen w w' x);
  match goal with
  | H : seen ?w1 ?w2 ?x |- seen ?w ?w3 ?x =>
      apply (seen_sub w w1 w2 w3 x); [chain_ext|chain_ext|chain_ext|exact H]
  | |- seen ?w (after ?w _ [_]) _ => apply seen_after
  end.

(** A successful call, in terms of the history. *)

Lemma store_seen {A} (f : Z → DB → res A * DB) e w a w' :
  store f e w = (Ok a, w') → ∃ now d d',
    f now d = (Ok a, d') ∧ seen w w' (d, d') ∧ w_db w' = d' ∧ (∀ S, rely S e → S (w_db w) d).
Proof.
  intros H. apply store_ok in H as (now & d & d' & -> & _ & Hf & ->).
  exists now, (interfere e (w_tick w) (w_db w)), d'.
  repeat split; [done|apply seen_after|]. intros S HS. apply HS.
Qed.

Lemma query_seen {A} (f : Z → DB → res A) e w a w' :
  query f e w = (Ok a, w') → ∃ now d,
    f now d = Ok a ∧ seen w w' (d, d) ∧ w_db w' = d ∧ (∀ S, rely S e → S (w_db w) d).
Proof.
  intros H. apply store_seen in H as (now & d & d' & [= Hf <-] & ? & ? & ?). eauto 10.
Qed.

(** A key of a growing table is claimed by at most one of two requests. *)

Lemma claimed_once {B} (T : DB → gmap string B) key d0 dn g l1 l2 x y :
  (∀ d d', db_le d d' → table_le (λ _ _, True) (T d) (T d')) →
  wf_db d0 → history db_step d0 g dn → merge l1 l2 g → x ∈ l1 → y ∈ l2 →
  T x.1 !! key = None → is_Some (T x.2 !! key) → T y.1 !! key = None → is_Some (T y.2 !! key) → False.
Proof.
  intros HT Hwf Hh Hm Hx Hy Hx1 Hx2 Hy1 Hy2.
  apply list_elem_of_lookup in Hx as [i Hx], Hy as [j Hy].
  destruct (merge_lookup _ _ _ _ _ _ _ Hm Hx Hy) as (i' & j' & Hne & Hi & Hj).
  assert (∀ q q' a b, q < q' → g !! q = Some a → g !! q' = Some b →
    is_Some (T a.2 !! key) → T b.1 !! key = None → False) as Hlt.
  { clear -HT Hwf Hh. intros q q' [a a'] [b b'] Hq Ha Hb Hs Hn. simpl in *.
    destruct (history_lookup _ _ _ _ _ _ Hh Ha) as [H0 H1]. destruct (H1 (proj1 (H0 Hwf))) as [Hw _].
    destruct (history_order _ _ _ q q' _ _ _ _ Hh Hq Ha Hb Hw) as [_ Hle].
    destruct (table_le_is_Some _ _ _ _ (HT _ _ Hle) Hs). congruence. }
  destruct (decide (i' < j')); [by eapply (Hlt i' j')|]. eapply (Hlt j' i'); eauto. lia.
Qed.

(** A committed transaction ran its body alone. *)

Lemma in_tx_ok {S : relation DB} `{!PreOrder S} {A} b (m : M A) e w a w' :
  in_tx b m e w = (Ok a, w') → rely S e → ∃ e' w0 w1,
    m e' w0 = (Ok a, w1) ∧ rely S e' ∧ params e' = params e ∧
    S (w_db w) (w_db w0) ∧ w_db w1 = w_db w'.
Proof.
  unfold in_tx. destruct b.
  - unfold with_tx. intros H HR. case_match; [done|].
    destruct (m _ _) as [[b|x] w1] eqn:E; [|done]. case_match; [done|]. simplify_eq/=.
    eexists _, _, w1. split; [exact E|]. split; [apply rely_quiet|]. split; [done|]. simpl.
    split; [apply HR|done].
  - intros H HR. exists e, w, w'. split_and!; try done.
Qed.

(** The tables after a run in a well-behaved environment. *)

Lemma traced_db {P} {A} (m : M A) e w r w' :
  Traced db_step P m → m e w = (r, w') → rely db_step e → wf_db (w_db w) →
  wf_db (w_db w') ∧ db_le (w_db w) (w_db w').
Proof. intros Hm Hr HR Hwf. destruct (Hm _ _ _ _ Hr) as (l & a & _ & _ & _ & _ & Hs).
  apply history_end in Hs; auto. Qed.

Tactic Notation "db_after" constr(P) hyp(H) "using" hyp(HR) hyp(Hwf) "as" ident(Hwf') ident(Hle) :=
  lazymatch type of H with
  | ?m ?e ?w = (?r, ?w') =>
      assert (wf_db (w_db w') ∧ db_le (w_db w) (w_db w')) as [Hwf' Hle] by
        (refine (traced_db (P:=P) m e w r w' _ H HR Hwf); traced)
  end.

Lemma history_rest {S : relation DB} `{HS : !PreOrder S} d g d' i x y :
  history S d g d' → g !! i = Some (x, y) → S y d'.
Proof.
  intros Hh. revert i. induction Hh as [d|d d1 d2 g d' H1 H2 Hh IH]; intros i Hi; [done|].
  destruct i as [|i]; simplify_eq/=; [by eapply history_end|]. eauto.
Qed.

(** A step of a run lies between its first and its last tables. *)

Lemma seen_between {P} {A} (m : M A) e w r w' x :
  Traced db_step P m → m e w = (r, w') → rely db_step e → wf_db (w_db w) → seen w w' x →
  wf_db x.1 ∧ wf_db x.2 ∧ db_le (w_db w) x.1 ∧ db_le x.1 x.2 ∧ db_le x.2 (w_db w').
Proof.
  intros Hm Hr HR Hwf Hx. destruct (Hm _ _ _ _ Hr) as (l & _ & Hl & _ & _ & _ & Hh).
  specialize (Hh HR). unfold seen in Hx. rewrite (own_steps_app _ _ _ Hl) in Hx.
  apply list_elem_of_lookup in Hx as [i Hi]. destruct x as [x y]. simpl.
  destruct (history_lookup _ _ _ _ _ _ Hh Hi) as [H1 H2].
  destruct (H1 Hwf) as [? ?]. destruct (H2 ltac:(done)) as [? ?].
  destruct (history_rest _ _ _ _ _ _ Hh Hi ltac:(done)). done.
Qed.

Lemma traced_seen {S P} {A} (m : M A) e w r w' x :
  Traced S P m → m e w = (r, w') → seen w w' x → S x.1 x.2.
Proof.
  intros Hm Hr Hx. destruct (Hm _ _ _ _ Hr) as (l & _ & Hl & _ & Hf & _).
  unfold seen in Hx. rewrite (own_steps_app _ _ _ Hl) in Hx. by eapply Forall_forall in Hf.
Qed.

(** A step of a run starts from tables the first ones moved to. *)

Lemma seen_from {S : relation DB} `{!PreOrder S} {P} {A} (m : M A) e w r w' x :
  Traced S P m → m e w = (r, w') → rely S e → seen w w' x → S (w_db w) x.1.
Proof.
  intros Hm Hr HR Hx. destruct (Hm _ _ _ _ Hr) as (l & _ & Hl & _ & _ & _ & Hh).
  specialize (Hh HR). unfold seen in Hx. rewrite (own_steps_app _ _ _ Hl) in Hx.
  apply list_elem_of_lookup in Hx as [i Hi]. destruct x as [x y].
  by destruct (history_lookup _ _ _ _ _ _ Hh Hi).
Qed.

(** ** The errors a computation can answer with *)

Definition Fails (E : err → Prop) {A} (m : M A) : Prop := ∀ e w x w', m e w = (Err x, w') → E x.

Section fails.
Context {E : err → Prop}.

Lemma fails_ret {A} (a : A) : Fails E (mret a : M A).
Proof. by intros e w x w'. Qed.

Lemma fails_throw {A} x : E x → Fails E (throw x : M A).
Proof. by intros HE e w y w' [= <- _]. Qed.

Lemma fails_bind {A B} (m : M A) (k : A → M B) :
  Fails E m → (∀ a, Fails E (k a)) → Fails E (m ≫= k).
Proof. intros Hm Hk e w x w' H. apply bind_err in H as [H|(a & w1 & _ & H)]; [by eapply Hm|by eapply Hk]. Qed.

Lemma fails_try {A} (m : M A) : Fails E (try m).
Proof. intros e w x w' H. by apply try_not_err in H. Qed.

Lemma fails_ask {A} (f : Env → A) : Fails E (ask f).
Proof. by intros e w x w'. Qed.

Lemma fails_now : Fails E time_Now.
Proof. by intros e w x w'. Qed.

Lemma fails_rand : Fails E GenerateRandomString.
Proof. by intros e w x w'. Qed.

Lemma fails_audit b ev : Fails E (record_audit b ev).
Proof. by intros e w x w'. Qed.

Lemma fails_ensure c x : E x → Fails E (ensure c x).
Proof. unfold ensure. destruct c; [intros; apply fails_ret|apply fails_throw]. Qed.

Lemma fails_when c m : Fails E m → Fails E (when c m).
Proof. unfold when. destruct c; [done|]. intros. apply fails_ret. Qed.

Lemma fails_provider {A} (f : Env → A) : E EFault → Fails E (provider f).
Proof. intros HE e w x w'. unfold provider. case_match; naive_solver. Qed.

Lemma fails_store {A} (f : Z → DB → res A * DB) :
  E EFault → (∀ t d x, (f t d).1 = Err x → E x) → Fails E (store f).
Proof.
  intros HE Hf e w x w'. unfold store. case_match; [naive_solver|].
  destruct (f _ _) as [r d'] eqn:Hd. intros [= -> _]. eapply Hf. by rewrite Hd.
Qed.

Lemma fails_query {A} (f : Z → DB → res A) :
  E EFault → (∀ t d x, f t d = Err x → E x) → Fails E (query f).
Proof. intros HE Hf. by apply fails_store. Qed.

Lemma fails_tx {A} (m : M A) : E EFault → Fails E m → Fails E (with_tx m).
Proof.
  intros HE Hm e w x w'. unfold with_tx. case_match; [naive_solver|].
  destruct (m _ _) as [[a|y] w1] eqn:Hr; [case_match; naive_solver|].
  intros [= <- _]. by eapply Hm.
Qed.

Lemma fails_in_tx {A} b (m : M A) : E EFault → Fails E m → Fails E (in_tx b m).
Proof. unfold in_tx. destruct b; [apply fails_tx|done]. Qed.

End fails.

(** [fails] follows the code like [traced]; it leaves the membership of each
    error that can be thrown. *)

Ltac fails_step :=
  lazymatch goal with
  | |- Fails _ (mbind _ _) => apply fails_bind; [|intros ?]
  | |- Fails _ (if ?b then _ else _) => destruct b eqn:?
  | |- Fails _ (match ?x with _ => _ end) => destruct x eqn:?
  | |- Fails _ (let _ := _ in _) => cbv zeta
  | |- Fails _ (mret _) => apply fails_ret
  | |- Fails _ (throw _) => apply fails_throw
  | |- Fails _ (try _) => apply fails_try
  | |- Fails _ (ask _) => apply fails_ask
  | |- Fails _ time_Now => apply fails_now
  | |- Fails _ GenerateRandomString => apply fails_rand
  | |- Fails _ (record_audit _ _) => apply fails_audit
  | |- Fails _ (ensure _ _) => apply fails_ensure
  | |- Fails _ (when _ _) => apply fails_when
  | |- Fails _ (provider _) => apply fails_provider
  | |- Fails _ (in_tx _ _) => apply fails_in_tx
  | |- Fails _ (query _) => apply fails_query; [|intros ???; repeat case_match; intros; simplify_eq/=]
  | |- Fails _ (store _) => apply fails_store; [|intros ???; simpl; repeat case_match; intros; simplify_eq/=]
  end.

Ltac fails := repeat fails_step.

(** ** What a failing run leaves behind *)

(** The steps of a run that fails. *)

Definition ErrTraced (S : relation DB) {A} (m : M A) : Prop :=
  ∀ e w x w', m e w = (Err x, w') → ∃ l, w_steps w' = w_steps w ++ l ∧ Forall (λ s, S s.1 s.2) l.

Lemma err_traced {S P} {A} (m : M A) : Traced S P m → ErrTraced S m.
Proof. intros Hm e w x w' H. destruct (Hm _ _ _ _ H) as (l & _ & ? & _ & ? & _). eauto. Qed.

Lemma err_traced_bind {S P} {A B} (m : M A) (k : A → M B) :
  Traced S P m → (∀ a, ErrTraced S (k a)) → ErrTraced S (m ≫= k).
Proof.
  intros Hm Hk e w x w' H. apply bind_err in H as [H|(a & w1 & H1 & H2)]; [by eapply err_traced|].
  destruct (Hm _ _ _ _ H1) as (l1 & _ & E1 & _ & F1 & _). destruct (Hk _ _ _ _ _ H2) as (l2 & E2 & F2).
  exists (l1 ++ l2). rewrite E2, E1, app_assoc. auto using Forall_app_2.
Qed.

(** A transaction that fails leaves no step. *)

Lemma err_traced_tx {S} {A} (m : M A) : ErrTraced S (in_tx true m).
Proof.
  intros e w x w' H. exists []. rewrite app_nil_r. split; [|done]. simpl in H. unfold with_tx in H.
  repeat case_match; simplify_eq/=; by rewrite ?app_nil_r.
Qed.

(** A committed transaction ran its body alone, from the tables it found, and
    is one step of the history. *)

Lemma tx_committed {A} (m : M A) e w a w' :
  with_tx m e w = (Ok a, w') → ∃ d w1,
    m (quiet_env e) (after w d []) = (Ok a, w1) ∧ w_db w' = w_db w1 ∧ seen w w' (d, w_db w') ∧
    (∀ S, rely S e → S (w_db w) d).
Proof.
  unfold with_tx. destruct (fault e (w_tick w)); [done|].
  destruct (m (quiet_env e) _) as [[b|x] w1] eqn:Hm; [|done].
  destruct (fault e (w_tick w1)); [done|]. intros [= <- <-].
  exists (interfere e (w_tick w) (w_db w)), w1. split; [exact Hm|]. split; [done|]. split; [|intros S HR; apply HR].
  unfold seen, own_steps. simpl. rewrite drop_app_length. by left.
Qed.
