(* ===== verification/StoreOrder.v ===== *)
(** * Every store operation used by the grants respects the security order

    One lemma per method of [Stores.v], registered in [guar_db]; the services
    then obtain the property of a whole handler from the tactic [traced].
    The purges ([PurgeExpired], [DeleteExpired]) and the deletion of a pending
    session are outside the order: they remove rows. *)

From S2P Require Import Prelude GoStrings ScopeSet Act Domain Db Effects Crypto Stores Order.

Section operations.
Context {P : Audit.Event → Prop}.

Ltac op f := unfold f; apply traced_store; intros now d; simpl;
  repeat (case_match; simpl); try reflexivity; unbool.

Lemma traced_CreateFamily f : Traced db_step P (TokenStore.CreateFamily f).
Proof.
  op TokenStore.CreateFamily. apply step_families. intros [].
  repeat split; [by apply keyed_insert| |apply (table_le_insert _)].
  - apply unique_on_insert; [|done]. intros j b v _ Hj. rewrite !nullable_Some. intros [<- ?] [Heq ?].
    eapply (not_stored Family.AuthSessionID); eauto.
  - intros b Hb. destruct H. eauto.
Qed.

Lemma step_revoke_family now id d : db_step d (TokenStore.revoke_family_tables now id d).
Proof.
  unfold TokenStore.revoke_family_tables.
  set (d1 := TokenStore.revoke_family_row now id d).
  assert (db_step d d1 ∧ refresh_tokens d1 = refresh_tokens d) as [Hd1 Hr].
  { subst d1. unfold TokenStore.revoke_family_row. repeat case_match; try (split; [reflexivity|done]). split; [|done].
    apply step_families. intros [].
    repeat split; [apply keyed_insert; [simpl; eauto|done]| |apply (table_le_insert _)].
    - apply unique_on_insert; [|done]. intros j b v ? Hj ? ?.
      by assert (j = id) by eauto.
    - intros b Hb. simplify_eq. right. eauto. }
  etrans; [exact Hd1|]. apply step_refresh. rewrite Hr. intros [].
  repeat split.
  - apply keyed_map; [|by rewrite <-Hr]. intros a. by case_match.
  - apply unique_on_map; [|by rewrite <-Hr]. intros a. by case_match.
  - intros k x. rewrite lookup_update_rows, fmap_Some, <-Hr. intros (t & Ht & ->).
    replace (Refresh.FamilyID _) with (Refresh.FamilyID t); [by eauto|by case_match].
  - apply table_le_map. intros t. case_match; [|by left]. unbool. right. eauto.
Qed.

Lemma traced_RevokeFamily id : Traced db_step P (TokenStore.RevokeFamily id).
Proof. apply traced_store. intros. apply step_revoke_family. Qed.

Lemma traced_CreateRefreshToken rt : Traced db_step P (TokenStore.CreateRefreshToken rt).
Proof.
  op TokenStore.CreateRefreshToken. apply step_refresh. intros [].
  repeat split; [by apply keyed_insert| | |apply (table_le_insert _)].
  - apply unique_on_insert; [|done]. intros j b v _ Hj [= <-] [= Heq].
    destruct H0. destruct (find_row _ _) eqn:E; [eauto|]. rewrite find_row_None in E.
    specialize (E _ _ Hj). unbool. congruence.
  - intros k x. rewrite lookup_insert_Some. intros [[<- <-]|[_ Hx]]; [|eauto].
    by apply not_eq_None_Some.
  - intros b Hb. destruct H. eauto.
Qed.

Lemma traced_ConsumeRefreshToken id : Traced db_step P (TokenStore.ConsumeRefreshToken id).
Proof.
  op TokenStore.ConsumeRefreshToken. apply step_refresh. intros [].
  repeat split; [apply keyed_insert; [simpl; eauto|done]| | |apply (table_le_insert _)].
  - apply unique_on_insert; [|done]. intros j b v ? Hj ? ?. by assert (j = id) by eauto.
  - intros k x. rewrite lookup_insert_Some. intros [[<- <-]|[_ Hx]]; simpl; eauto.
  - intros b Hb. simplify_eq. right. eauto.
Qed.

Lemma traced_revoke_families_where Q : Traced db_step P (TokenStore.revoke_families_where Q).
Proof.
  op TokenStore.revoke_families_where. apply step_families. intros [].
  repeat split.
  - apply keyed_map; [|done]. intros a. by case_match.
  - apply unique_on_map; [|done]. intros a. by case_match.
  - apply table_le_map. intros f. case_match; [|by left]. unbool. right. eauto.
Qed.

Lemma traced_TrackJTI j f x : Traced db_step P (RevocationStore.TrackJTI j f x).
Proof.
  op RevocationStore.TrackJTI. apply step_tracked. intros [].
  split; [|apply table_le_insert; [split; congruence|]; congruence].
  intros k y. rewrite lookup_insert_Some. intros [[<- <-]|[_ Hx]]; [|eauto].
  by apply not_eq_None_Some.
Qed.

Lemma traced_RevokeByFamily f : Traced db_step P (RevocationStore.RevokeByFamily f).
Proof.
  op RevocationStore.RevokeByFamily. apply step_revoked. intros k a Hk.
  exists a. split; [|done]. by apply lookup_union_Some_l.
Qed.

Lemma traced_RevokeJTI j : Traced db_step P (RevocationStore.RevokeJTI j).
Proof.
  op RevocationStore.RevokeJTI; apply step_revoked; intros k a Hk;
    exists a; (split; [|done]); by apply lookup_union_Some_l.
Qed.

Lemma traced_SessionCreate s : Traced db_step P (SessionStore.Create s).
Proof.
  op SessionStore.Create. apply step_sessions. intros [].
  repeat split; [by apply keyed_insert| |].
  - apply unique_on_insert; [|done]. intros j b v _ Hj. rewrite !nullable_Some. intros [<- ?] [Heq ?].
    eapply (not_stored Session.CodeHash); eauto.
  - intros k x Hx _. rewrite lookup_insert_ne; [done|]. intros Heq. subst k. destruct H. eauto.
Qed.

Lemma traced_ConsumeByCodeHash h : Traced db_step P (SessionStore.ConsumeByCodeHash h).
Proof.
  op SessionStore.ConsumeByCodeHash. apply step_sessions. intros [].
  apply find_row_Some in H as (k & Hk & HP). unbool.
  pose proof (wf_sessions_key _ _ Hk) as <-.
  repeat split; [by apply keyed_insert| |].
  - apply unique_on_insert; [|done]. intros j b v ? Hj ? ?.
    by assert (j = Session.ID a) by eauto.
  - intros k x Hx Hc. rewrite lookup_insert_ne; [done|]. intros Heq. subst k. simplify_eq.
Qed.

Lemma traced_UpdateCodeHashAndScope i h s :
  Traced db_step P (SessionStore.UpdateCodeHashAndScope i h s).
Proof.
  op SessionStore.UpdateCodeHashAndScope. apply step_sessions. intros [].
  repeat split; [apply keyed_insert; [simpl; eauto|done]| |].
  - apply unique_on_insert; [|done]. intros j b v ? Hj.
    rewrite !nullable_Some. simpl. intros [<- ?] [Heq ?].
    destruct H1. destruct (find_row _ _) eqn:E; [eauto|]. rewrite find_row_None in E.
    specialize (E _ _ Hj). apply andb_false_iff in E as [E|E].
    + by rewrite (proj2 (sql_eq_spec _ _)) in E.
    + unbool. rewrite (wf_sessions_key _ _ Hj) in E. by destruct E.
  - intros k x Hx Hc. rewrite lookup_insert_ne; [done|]. intros ->. simplify_eq.
Qed.

Lemma traced_MachineSave t : Traced db_step P (MachineTokenStore.Save t).
Proof.
  op MachineTokenStore.Save. apply step_machine. intros [].
  split; [by apply keyed_insert|apply (table_le_insert _)].
  intros b Hb. destruct H. eauto.
Qed.

Lemma traced_MachineRevoke j : Traced db_step P (MachineTokenStore.Revoke j).
Proof.
  op MachineTokenStore.Revoke. apply step_machine. intros []. split.
  - intros k a. rewrite lookup_alter_Some. intros [(<- & b & ? & ->)|[_ ?]]; simpl; eauto.
  - intros k a Hk. destruct (decide (k = j)) as [->|].
    + exists (Machine.revoke a). rewrite lookup_alter_eq, Hk. split; [done|by right].
    + exists a. rewrite lookup_alter_ne by done. split; [done|by left].
Qed.

Lemma traced_MachineRevokeByClientID c : Traced db_step P (MachineTokenStore.RevokeByClientID c).
Proof.
  op MachineTokenStore.RevokeByClientID. apply step_machine. intros []. split.
  - apply keyed_map; [|done]. intros a. by case_match.
  - apply table_le_map. intros t. case_match; [by right|by left].
Qed.

Lemma traced_IssuanceInsert i : Traced db_step P (IssuanceStore.Insert i).
Proof.
  op IssuanceStore.Insert. apply step_issuances. intros [].
  repeat split; [by apply keyed_insert| |apply (table_le_insert _)].
  - apply unique_on_insert; [|done]. intros j b v _ Hj. rewrite !nullable_Some. intros [<- ?] [Heq ?].
    eapply (not_stored Issuance.JTI); eauto.
  - intros b Hb. destruct H. eauto.
Qed.

Lemma traced_IssuanceRevoke id : Traced db_step P (IssuanceStore.Revoke id).
Proof.
  op IssuanceStore.Revoke. apply step_issuances. intros []. unfold IssuanceStore.revoke_row.
  assert (∀ k a, alter (λ i, if Issuance.IsRevoked i then i else Issuance.revoke now i) id
            (issuances d) !! k = Some a →
          ∃ b, issuances d !! k = Some b ∧ Issuance.ID a = Issuance.ID b ∧ Issuance.JTI a = Issuance.JTI b) as Ha.
  { intros k a. rewrite lookup_alter_Some. intros [(<- & b & ? & ->)|[_ ?]]; [|eauto].
    exists b. by case_match. }
  repeat split.
  - intros k a Hk. destruct (Ha _ _ Hk) as (b & Hb & -> & _). eauto.
  - intros k1 k2 a1 a2 v H1 H2. destruct (Ha _ _ H1) as (b1 & Hb1 & _ & ->).
    destruct (Ha _ _ H2) as (b2 & Hb2 & _ & ->). eauto.
  - intros k a Hk. destruct (decide (k = id)) as [->|].
    + eexists. rewrite lookup_alter_eq, Hk. split; [done|]. unfold Issuance.IsRevoked.
      case_bool_decide as Hr; [by left|]. right. eauto.
    + exists a. rewrite lookup_alter_ne by done. split; [done|by left].
Qed.

Lemma traced_IssuanceRevokeFamily u c r : Traced db_step P (IssuanceStore.RevokeFamily u c r).
Proof.
  op IssuanceStore.RevokeFamily. apply step_issuances. intros []. repeat split.
  - apply keyed_map; [|done]. intros a. by case_match.
  - apply unique_on_map; [|done]. intros a. by case_match.
  - apply table_le_map. intros i. case_match eqn:E; [|by left]. unfold IssuanceStore.family_row in E.
    unbool. unfold Issuance.IsRevoked in *. unbool. right. split; [done|eauto].
Qed.

Lemma traced_Upsert g : Traced db_step P (ConsentGrantStore.Upsert g).
Proof. op ConsentGrantStore.Upsert. apply step_grants. Qed.

Lemma traced_ConsumeJTI j x : Traced db_step P (DPoPNonceStore.ConsumeJTI j x).
Proof.
  op DPoPNonceStore.ConsumeJTI. apply step_dpop_jtis, (table_le_insert _); done.
Qed.

Lemma traced_LinkCreate l : Traced db_step P (FrontingLinkStore.Create l).
Proof. op FrontingLinkStore.Create. apply step_links. Qed.

Lemma traced_LinkUpdate l : Traced db_step P (FrontingLinkStore.Update l).
Proof. op FrontingLinkStore.Update. apply step_links. Qed.

Lemma traced_LinkDelete s t : Traced db_step P (FrontingLinkStore.Delete s t).
Proof. op FrontingLinkStore.Delete. apply step_links. Qed.

Lemma traced_LinkDeleteForResource s : Traced db_step P (FrontingLinkStore.DeleteForResource s).
Proof. op FrontingLinkStore.DeleteForResource. apply step_links. Qed.

Lemma traced_BrokerCreate g : Traced db_step P (BrokerGrantStore.Create g).
Proof. op BrokerGrantStore.Create. apply step_broker_grants. Qed.

Lemma traced_BrokerUpsert g : Traced db_step P (BrokerGrantStore.Upsert g).
Proof. op BrokerGrantStore.Upsert. apply step_broker_grants. Qed.

Lemma traced_BrokerUpdate g : Traced db_step P (BrokerGrantStore.UpdateWithVersion g).
Proof. op BrokerGrantStore.UpdateWithVersion. apply step_broker_grants. Qed.

Lemma traced_BrokerRevoke id : Traced db_step P (BrokerGrantStore.Revoke id).
Proof. op BrokerGrantStore.Revoke. apply step_broker_grants. Qed.

(** Reads, for any order. *)

Lemma traced_ConsentRevoke id : Traced db_step P (ConsentGrantStore.Revoke id).
Proof. apply traced_store. intros. apply step_grants. Qed.

Context {S : relation DB} `{!PreOrder S}.

Lemma traced_ListFamilies f : Traced S P (TokenStore.ListFamilies f).
Proof. unfold TokenStore.ListFamilies. traced. Qed.

Lemma traced_registry_Resolve s : Traced S P (ResourceRegistry.Resolve s).
Proof. unfold ResourceRegistry.Resolve. traced; apply traced_query. Qed.

Lemma traced_registry_List : Traced S P ResourceRegistry.List.
Proof. unfold ResourceRegistry.List. traced; apply traced_query. Qed.

Lemma traced_registry_GetWithProvider id : Traced S P (ResourceRegistry.GetWithProvider id).
Proof. unfold ResourceRegistry.GetWithProvider. traced; apply traced_query. Qed.

End operations.

#[export] Hint Resolve traced_CreateFamily traced_RevokeFamily traced_CreateRefreshToken
  traced_ConsumeRefreshToken traced_revoke_families_where traced_TrackJTI
  traced_RevokeByFamily traced_RevokeJTI traced_SessionCreate traced_ConsumeByCodeHash
  traced_UpdateCodeHashAndScope traced_MachineSave traced_MachineRevoke
  traced_MachineRevokeByClientID traced_IssuanceInsert traced_IssuanceRevoke
  traced_IssuanceRevokeFamily traced_Upsert traced_ConsumeJTI traced_LinkCreate
  traced_LinkUpdate traced_LinkDelete traced_LinkDeleteForResource
  traced_registry_Resolve traced_registry_List traced_registry_GetWithProvider
  traced_ConsentRevoke traced_ListFamilies traced_BrokerCreate traced_BrokerUpsert traced_BrokerUpdate traced_BrokerRevoke : guar_db.

(** The reads are [query]s behind their names. *)

#[export] Hint Extern 1 (Traced _ _ (TokenStore.GetFamily _)) => apply traced_query : guar_db.
#[export] Hint Extern 1 (Traced _ _ (TokenStore.GetFamilyByAuthSessionID _)) => apply traced_query : guar_db.
#[export] Hint Extern 1 (Traced _ _ (TokenStore.GetRefreshTokenByHash _)) => apply traced_query : guar_db.
#[export] Hint Extern 1 (Traced _ _ (RevocationStore.IsRevoked _)) => apply traced_query : guar_db.
#[export] Hint Extern 1 (Traced _ _ (SessionStore.GetByID _)) => apply traced_query : guar_db.
#[export] Hint Extern 1 (Traced _ _ (ClientStore.GetByID _)) => apply traced_query : guar_db.
#[export] Hint Extern 1 (Traced _ _ (UserStore.GetByID _)) => apply traced_query : guar_db.
#[export] Hint Extern 1 (Traced _ _ (MachineTokenStore.GetByJTI _)) => apply traced_query : guar_db.
#[export] Hint Extern 1 (Traced _ _ (ResourceStore.Resolve _)) => apply traced_query : guar_db.
#[export] Hint Extern 1 (Traced _ _ (ResourceStore.GetBySlug _)) => apply traced_query : guar_db.
#[export] Hint Extern 1 (Traced _ _ (ResourceStore.FindByRuntimeClientID _)) => apply traced_query : guar_db.
#[export] Hint Extern 1 (Traced _ _ (ResourceStore.List _)) => apply traced_query : guar_db.
#[export] Hint Extern 1 (Traced _ _ (ConsentGrantStore.Get _ _ _)) => apply traced_query : guar_db.
#[export] Hint Extern 1 (Traced _ _ (DPoPNonceStore.ValidateNonce _)) => apply traced_query : guar_db.
#[export] Hint Extern 1 (Traced _ _ (IssuanceStore.GetByID _)) => apply traced_query : guar_db.
#[export] Hint Extern 1 (Traced _ _ (IssuanceStore.GetByJTI _)) => apply traced_query : guar_db.
#[export] Hint Extern 1 (Traced _ _ (FrontingLinkStore.Get _ _)) => apply traced_query : guar_db.
#[export] Hint Extern 1 (Traced _ _ (FrontingLinkStore.List _)) => apply traced_query : guar_db.
#[export] Hint Extern 1 (Traced _ _ (FrontingLinkStore.ListForResource _)) => apply traced_query : guar_db.
#[export] Hint Extern 1 (Traced _ _ (ClientStore.GetByCIMDURL _)) => apply traced_query : guar_db.
#[export] Hint Extern 1 (Traced _ _ (ResourceStore.GetByID _)) => apply traced_query : guar_db.
#[export] Hint Extern 1 (Traced _ _ (ResourceRegistry.FindByRuntimeClientID _)) => apply traced_query : guar_db.
#[export] Hint Extern 1 (Traced _ _ (BrokerProviderStore.GetByID _)) => apply traced_query : guar_db.
#[export] Hint Extern 1 (Traced _ _ (BrokerGrantStore.Get _ _)) => apply traced_query : guar_db.
#[export] Hint Extern 1 (Traced _ _ (BrokerGrantStore.GetByID _)) => apply traced_query : guar_db.
#[export] Hint Extern 1 (Traced _ _ (ConsentGrantStore.GetByID _)) => apply traced_query : guar_db.
#[export] Hint Extern 1 (Traced _ _ (ConsentGrantStore.ListForUser _)) => apply traced_query : guar_db.
#[export] Hint Extern 1 (Traced _ _ (BrokerGrantStore.ListForUser _)) => apply traced_query : guar_db.
