(* ===== verification/MintIssuer.v ===== *)
(** * internal/services: agent identity claims and the mint issuer

    [agent_identity.go] decides the [agent_id] and [agent_chain] claims;
    [mint_issuer.go] builds and signs the access token and writes its row in
    the issuance log.  A zero [time.Time] is [None]. *)

From S2P Require Import Prelude GoStrings ScopeSet Act Domain Db Effects Crypto Stores Order StoreOrder.

(** ** Agent identity (agent_identity.go) *)

Module AgentIdentity.

Record AgentIdentityClaims := MkAgent { AgentID : string; AgentChain : list string }.

(** [attachClaimsForClient] sets the two fields of a claims value; the result
    says whether it attached anything. *)

Definition attachClaimsForClient (act : option (gmap string json)) (c : Client.Client)
    (claims : AgentIdentityClaims) : AgentIdentityClaims * bool :=
  if negb (Client.IsAgent c) then (claims, false)
  else
    let chain :=
      match act with
      | None => AgentChain claims
      | Some _ =>
          let chain := Act.buildAgentChain act in
          if bool_decide (Act.maxAgentChainLength < length chain)
          then take Act.maxAgentChainLength chain else chain
      end in
    (MkAgent (Client.ID c) chain, true).

Definition liftAgentIdentityClaims (temp : AgentIdentityClaims) : option AgentIdentityClaims :=
  if andb (bool_decide (AgentID temp = "")) (bool_decide (length (AgentChain temp) = 0))
  then None else Some temp.

Definition extractAgentIdentityClaimsForClient (wired : bool) (c : Client.Client)
    (act : option (gmap string json)) : option AgentIdentityClaims :=
  if wired then liftAgentIdentityClaims (attachClaimsForClient act c (MkAgent "" [])).1 else None.

Definition extractAgentIdentityClaims (wired : bool) (clientID : string)
    (act : option (gmap string json)) : M (option AgentIdentityClaims) :=
  if wired then
    c ← ClientStore.GetByID clientID;
    mret (liftAgentIdentityClaims (attachClaimsForClient act c (MkAgent "" [])).1)
  else mret None.

Definition agentIDOf (a : option AgentIdentityClaims) : string :=
  match a with Some a => AgentID a | None => "" end.
Definition agentChainOf (a : option AgentIdentityClaims) : list string :=
  match a with Some a => AgentChain a | None => [] end.

(** Only an agent client gets an [agent_id], it is the client's own id, and
    the chain fits the column of the issuance log. *)

Lemma extract_agent wired c act :
  let a := extractAgentIdentityClaimsForClient wired c act in
  (agentIDOf a ≠ "" → Client.IsAgent c = true ∧ agentIDOf a = Client.ID c) ∧
  length (agentChainOf a) ≤ Act.maxAgentChainLength.
Proof.
  unfold extractAgentIdentityClaimsForClient, liftAgentIdentityClaims, attachClaimsForClient.
  destruct wired, (Client.IsAgent c); simpl; try (split; [done|lia]).
  destruct act as [m|]; simpl; repeat case_match; simpl; unbool; (split; [done|]);
    rewrite ?length_take; lia.
Qed.

End AgentIdentity.

(** ** MintIssuer (mint_issuer.go) *)

Module MintIssuer.
Import AgentIdentity.

Record IssueRequest := MkIssueRequest {
  ResourceOf : option Resource.Resource;
  ProviderOf : option Broker.BrokerProvider;
  SubjectUserID : string;
  ActorClientID : string;
  Scopes : list string;
  AgentIdentity : option AgentIdentityClaims;
  DPoPJKT : string;
  ConsentClientID : string;
  ParentJTI : string;
  Audience : list string;
  ActOf : option (gmap string json);
  NotBefore : option Z;
  Expiry : option Z
}.

Record IssueResponse := MkIssueResponse {
  AccessToken : string;
  TokenType : string;
  ExpiresIn : Z;
  IssuanceID : string
}.

Definition mintAudience (req : IssueRequest) (issuer : string) : list string :=
  if bool_decide (0 < length (Audience req)) then Audience req
  else match ResourceOf req with
       | Some r => if bool_decide (Resource.URI r ≠ "") then [Resource.URI r] else [issuer]
       | None => [issuer]
       end.

(** [int(d.Seconds())] *)

Definition seconds (d : Z) : Z := Z.quot d SqlTime.nano.

Definition mint_claims (req : IssueRequest) (issuer jti : string) (now expiry : Z) : AccessTokenClaims :=
  {| c_Issuer := issuer;
     c_Subject := SubjectUserID req;
     c_Audience := mintAudience req issuer;
     c_ClientID := ActorClientID req;
     c_Scope := strings_Join " " (Scopes req);
     c_JTI := jti;
     c_IssuedAt := Unix now;
     c_Expiry := Unix expiry;
     c_NotBefore := Unix (default now (NotBefore req));
     c_Cnf := if bool_decide (DPoPJKT req ≠ "") then Some {["jkt" := JStr (DPoPJKT req)]} else None;
     c_Act := ActOf req;
     c_AgentID := agentIDOf (AgentIdentity req);
     c_AgentChain := agentChainOf (AgentIdentity req) |}.

Definition mint_issuance (req : IssueRequest) (r : Resource.Resource) (jti : string) (now expiry : Z)
    : Issuance.Issuance :=
  {| Issuance.ID := jti;
     Issuance.SubjectUserID := SubjectUserID req;
     Issuance.ClientID := ActorClientID req;
     Issuance.ResourceID := Resource.ID r;
     Issuance.Scopes := Scopes req;
     Issuance.BackendKind := Resource.BackendMint;
     Issuance.Revocable := true;
     Issuance.IssuedAt := now;
     Issuance.ExpiresAt := expiry;
     Issuance.RevokedAt := None;
     Issuance.JTI := jti;
     Issuance.DPoPJKT := DPoPJKT req;
     Issuance.AgentID := agentIDOf (AgentIdentity req);
     Issuance.AgentChain := Issuance.truncate_chain (agentChainOf (AgentIdentity req));
     Issuance.ConsentClientID := ConsentClientID req;
     Issuance.ParentJTI := ParentJTI req |}.

Definition Issue (req : IssueRequest) : M IssueResponse :=
  match Expiry req with
  | None => throw (EOther "mint issuer requires a non-zero Expiry")
  | Some expiry =>
      now ← time_Now;
      issuer ← provider (λ e, Issuer (config e));
      _ ← provider (λ _, tt);  (* GetSigningKey *)
      jti ← GenerateRandomString;
      signed ← SignAccessToken (mint_claims req issuer jti now expiry);
      _ ← match ResourceOf req with
          | Some r => IssuanceStore.Insert (mint_issuance req r jti now expiry)
          | None => mret tt
          end;
      mret (MkIssueResponse signed
              (if bool_decide (DPoPJKT req ≠ "") then "DPoP" else "Bearer")
              (seconds (expiry - now)) jti)
  end.

(** What a successful issue signed: the claims of the request, for the jti of
    the response, stamped with one of the instants of the run. *)

Lemma Issue_ok req e w resp w' :
  Issue req e w = (Ok resp, w') → ∃ expiry now,
    Expiry req = Some expiry ∧
    let c := mint_claims req (Issuer (config e)) (IssuanceID resp) now expiry in
    AccessToken resp = jws_sign (params e) c ∧
    ValidateAccessTokenClaims c = true ∧
    TokenType resp = (if bool_decide (DPoPJKT req ≠ "") then "DPoP" else "Bearer").
Proof.
  unfold Issue. destruct (Expiry req) as [expiry|]; [|done]. intros H.
  repeat mstep H. apply ret_ok in H as [<- <-]. exists expiry, a. split; [done|]. simpl.
  unfold SignAccessToken in *. destruct (ValidateAccessTokenClaims _); [|done].
  match goal with H : provider _ _ _ = _ |- _ => apply provider_ok in H as [-> ->] end.
  done.
Qed.

Lemma traced_Issue P req : Traced db_step P (Issue req).
Proof. unfold Issue, SignAccessToken. traced. Qed.

#[global] Hint Resolve traced_Issue : guar_db.

End MintIssuer.
