(* ===== verification/TokenService.v ===== *)
(** * internal/services/token.go: the authorization-code and refresh grants

    [Wiring] records which optional dependencies are non-nil.  The two long
    handlers are split where the source numbers its steps; the split functions
    are composed in the source's order. *)

From S2P Require Import Prelude GoStrings ScopeSet Act Domain Db Effects Crypto Stores Order StoreOrder MintIssuer.

Module TokenService.
Import AgentIdentity MintIssuer.

Record Wiring := MkWiring {
  has_users : bool;
  has_revocation : bool;
  has_audit : bool;
  has_registry : bool;
  has_dpop : bool;
  has_tx : bool;
  has_agentIdentity : bool
}.

Record ExchangeCodeRequest := MkExchangeCode {
  Code : string;
  CodeVerifier : string;
  ec_ClientID : string;
  ec_ClientSecret : string;
  RedirectURI : string;
  ec_Resource : string;
  ec_DPoPProof : string;
  ec_HTTPMethod : string;
  ec_HTTPURL : string
}.

Record RefreshTokenRequest := MkRefreshRequest {
  RefreshTokenValue : string;
  rt_ClientID : string;
  rt_ClientSecret : string;
  rt_Scope : string;
  rt_Resource : string;
  rt_DPoPProof : string;
  rt_HTTPMethod : string;
  rt_HTTPURL : string
}.

Record TokenResponse := MkTokenResponse {
  resp_AccessToken : string;
  resp_TokenType : string;
  resp_ExpiresIn : Z;
  resp_RefreshToken : string;
  resp_Scope : string
}.

Record TokenConfig := MkTokenConfig { cfg_Access : Z; cfg_Refresh : Z }.

Definition tokenConfig : M TokenConfig :=
  provider (λ e, MkTokenConfig (AccessTokenExpiry (config e)) (RefreshTokenExpiry (config e))).

(** ** refreshScope *)

(** Every branch of [scopeDenialError] wraps [ErrInvalidScope]. *)

Definition scopeDenialError (c : Client.Client) (ceiling : gset string) : err := ErrInvalidScope.

Definition refreshScope (requested familyScope : string) (c : Client.Client) : string + err :=
  let granted := Scope.Parse familyScope in
  let ceiling := Scope.Parse (Client.Scope c) in
  if bool_decide (requested ≠ "") then
    let asked := Scope.Parse requested in
    if negb (Scope.IsSubset asked granted) then inr ErrInvalidScope
    else if andb (negb (Scope.IsEmpty ceiling)) (negb (Scope.IsSubset asked ceiling))
    then inr (scopeDenialError c ceiling)
    else inl (Scope.to_String asked)
  else if orb (Scope.IsEmpty ceiling) (Scope.IsSubset granted ceiling) then inl familyScope
  else
    let narrowed := Scope.Intersect granted ceiling in
    if Scope.IsEmpty narrowed then inr (scopeDenialError c ceiling)
    else inl (Scope.to_String narrowed).

Section service.
Variable s : Wiring.

(** ** authenticateClient *)

Definition authenticateClient (clientID clientSecret : string) : M Client.Client :=
  r ← try (ClientStore.GetByID clientID);
  match r with
  | Err _ => throw ErrInvalidClient
  | Ok c =>
      p ← ask params;
      if negb (Client.IsActive c) then throw ErrClientSuspended
      else if negb (Client.IsPublic c) then
        if bool_decide (clientSecret = "") then throw ErrInvalidClient
        else if negb (CompareClientSecret p (Client.SecretHash c) clientSecret) then throw ErrInvalidClient
        else mret c
      else if bool_decide (clientSecret ≠ "") then throw ErrInvalidClient
      else mret c
  end.

(** ** validateRequestedResource *)

Definition resourceIdentityEqual (p : Params) (a b : string) : bool :=
  match url_parse p a, url_parse p b with
  | Some au, Some bu =>
      bool_decide (url_string p (fold_case Resource.strings_ToLower au) =
                   url_string p (fold_case Resource.strings_ToLower bu))
  | _, _ => false
  end.

Definition validateRequestedResource (requested authorized : string) : M unit :=
  if orb (bool_decide (requested = "")) (bool_decide (requested = authorized)) then mret tt else
  p ← ask params;
  if resourceIdentityEqual p requested authorized then mret tt
  else if has_registry s then
    r ← try (ResourceRegistry.Resolve requested);
    match r with
    | Err _ => throw ErrInvalidTarget
    | Ok requestedRes =>
        if bool_decide (authorized ≠ "") then
          a ← try (ResourceRegistry.Resolve authorized);
          match a with
          | Ok authorizedRes =>
              if bool_decide (Resource.ID authorizedRes = Resource.ID requestedRes) then mret tt
              else throw ErrInvalidTarget
          | Err _ => throw ErrInvalidTarget
          end
        else throw ErrInvalidTarget
    end
  else throw ErrInvalidTarget.

(** ** buildMintRequest *)

Record mintParams := MkMintParams {
  mp_UserID : string;
  mp_ClientID : string;
  mp_Scope : string;
  mp_Resource : string;
  mp_DPoPJKT : string;
  mp_Agent : option AgentIdentityClaims
}.

Definition buildMintRequest (now expiry : Z) (p : mintParams) : M IssueRequest :=
  res ← (if andb (has_registry s) (bool_decide (mp_Resource p ≠ "")) then
           r ← try (ResourceRegistry.Resolve (mp_Resource p));
           mret (match r with Ok res => Some res | Err _ => None end)
         else mret None);
  mret (MkIssueRequest res None (mp_UserID p) (mp_ClientID p) (strings_Fields (mp_Scope p))
          (mp_Agent p) (mp_DPoPJKT p) (mp_ClientID p) ""
          (if bool_decide (mp_Resource p ≠ "") then [mp_Resource p] else [])
          None (Some now) (Some expiry)).

(** ** createRefreshToken, trackJTI *)

Definition createRefreshToken (familyID : string) (now refreshExpiry : Z) : M string :=
  refreshPlain ← GenerateRandomString;
  p ← ask params;
  id ← GenerateRandomString;
  _ ← TokenStore.CreateRefreshToken
        (Refresh.MkRefresh id familyID (HashSHA256 p refreshPlain) (now + refreshExpiry)%Z None now);
  mret refreshPlain.

Definition trackJTI (jti familyID : string) (expiry : Z) : M unit :=
  when (has_revocation s) (_ ← try (RevocationStore.TrackJTI jti familyID expiry); mret tt).

(** ** validateDPoP *)

Definition validateDPoP (proof method reqURL accessTokenHash : string) : M string :=
  if negb (has_dpop s) then mret "" else
  cfg ← provider config;
  if negb (DPoPEnabled cfg) then mret "" else
  p ← ask params;
  now ← time_Now;
  match ValidateProof p now proof method reqURL "" accessTokenHash (ProofLifetime cfg) with
  | inr x => throw x
  | inl result =>
      _ ← (if RequireNonce cfg then
             if bool_decide (d_Nonce result = "") then throw ErrDPoPNonceRequired
             else
               r ← try (DPoPNonceStore.ValidateNonce (d_Nonce result));
               match r with Ok _ => mret tt | Err _ => throw ErrDPoPNonceMismatch end
           else mret tt);
      now' ← time_Now;
      _ ← DPoPNonceStore.ConsumeJTI (d_JTI result) (now' + ProofLifetime cfg * 2)%Z;
      mret (d_JKT result)
  end.

(** [if req.DPoPProof != ""] *)

Definition proof_thumbprint (proof method reqURL : string) : M string :=
  if bool_decide (proof ≠ "") then validateDPoP proof method reqURL "" else mret "".

(** ** Reuse detection *)

Record reuseTarget := MkReuseTarget { rt_familyID : string; path : string; detailPrefix : string }.

Definition refreshReuseTarget (rt : Refresh.RefreshToken) : reuseTarget :=
  MkReuseTarget (Refresh.FamilyID rt) "reuse" "reuse_detection".

Definition codeReuseTarget (familyID : string) : reuseTarget :=
  MkReuseTarget familyID "code_reuse" "code_reuse".

Definition auditReuse (a : Audit.Action) (detail : string) : M unit :=
  record_audit (has_audit s) (Audit.NewEvent a "" "" "" detail).

Definition reportReuseHalfFailure (tgt : reuseTarget) (half : string) (a : Audit.Action) : M unit :=
  auditReuse a (detailPrefix tgt +:+ " family=" +:+ rt_familyID tgt +:+ " path=" +:+ path tgt +:+ " half=" +:+ half).

Definition revokeFamilyHalf (tgt : reuseTarget) : M bool :=
  r ← try (TokenStore.RevokeFamily (rt_familyID tgt));
  match r with
  | Err _ => _ ← reportReuseHalfFailure tgt "family" Audit.ActionFamilyRevocationFailed; mret false
  | Ok false => mret true
  | Ok true =>
      _ ← auditReuse Audit.ActionFamilyRevoked (detailPrefix tgt +:+ " family=" +:+ rt_familyID tgt);
      mret true
  end.

Definition denylistFamilyJTIs (tgt : reuseTarget) : M bool :=
  if negb (has_revocation s) then mret true else
  r ← try (RevocationStore.RevokeByFamily (rt_familyID tgt));
  match r with
  | Ok _ => mret true
  | Err _ => _ ← reportReuseHalfFailure tgt "jti" Audit.ActionFamilyDenylistFailed; mret false
  end.

Definition runReuseHalves (tgt : reuseTarget) : M (bool * bool) :=
  familyRevoked ← revokeFamilyHalf tgt;
  jtisDenylisted ← denylistFamilyJTIs tgt;
  mret (familyRevoked, jtisDenylisted).

Definition revokeFamilyOnReuse (rt : Refresh.RefreshToken) : M unit :=
  h ← runReuseHalves (refreshReuseTarget rt);
  if negb h.1 then throw ErrReuseRevocationFailed else throw ErrFamilyRevoked.

Definition consumeOrRevokeFamily (rt : Refresh.RefreshToken) : M unit :=
  r ← try (TokenStore.ConsumeRefreshToken (Refresh.ID rt));
  match r with
  | Ok _ => mret tt
  | Err x =>
      if bool_decide (x ≠ ErrRefreshTokenReused) then throw x
      else revokeFamilyOnReuse rt
  end.

Definition handleCodeReuse (sess : Session.AuthSession) (verifier clientID : string) : M unit :=
  p ← ask params;
  let verifierOK := VerifyS256 p verifier (Session.CodeChallenge sess) in
  let clientOK := bool_decide (clientID = Session.ClientID sess) in
  let credentialed := andb verifierOK clientOK in
  let label := if credentialed then "valid" else "invalid" in
  _ ← record_audit (has_audit s)
        (Audit.NewEvent Audit.ActionAuthCodeReused (Session.UserID sess) (Session.ClientID sess) ""
           ("code_reuse session=" +:+ Session.ID sess +:+ " verifier=" +:+ label));
  if negb credentialed then mret tt else
  r ← try (TokenStore.GetFamilyByAuthSessionID (Session.ID sess));
  match r with
  | Err _ => mret tt
  | Ok fam =>
      let tgt := codeReuseTarget (Family.ID fam) in
      if negb (Family.IsActive fam) then _ ← denylistFamilyJTIs tgt; mret tt
      else _ ← runReuseHalves tgt; mret tt
  end.

(** ** exchangeCode *)

(** Steps 1 to 1.5: token lifetimes, then consume the code. *)

Definition consumeCode (req : ExchangeCodeRequest) : M (TokenConfig * Session.AuthSession) :=
  cfg ← tokenConfig;
  p ← ask params;
  r ← SessionStore.ConsumeByCodeHash (HashSHA256 p (Code req));
  match r with
  | SessionStore.AlreadyConsumed sess =>
      _ ← handleCodeReuse sess (CodeVerifier req) (ec_ClientID req);
      throw ErrCodeConsumed
  | SessionStore.Consumed sess => mret (cfg, sess)
  end.

(** Step 6.5: the subject of a redeemed code. *)

Definition checkCodeSubject (sess : Session.AuthSession) : M unit :=
  if andb (has_users s) (bool_decide (Session.UserID sess ≠ "")) then
    r ← try (UserStore.GetByID (Session.UserID sess));
    match r with
    | Err ErrUserNotFound => throw ErrInvalidGrant
    | Err x => throw x
    | Ok u => if negb (User.IsActive u) then throw ErrInvalidGrant else mret tt
    end
  else mret tt.

(** Steps 2 to 6.5. *)

Definition checkCode (req : ExchangeCodeRequest) (sess : Session.AuthSession)
    : M (Client.Client * option AgentIdentityClaims) :=
  now ← time_Now;
  _ ← ensure (negb (Session.IsExpired now sess)) ErrInvalidGrant;
  _ ← ensure (bool_decide (ec_ClientID req = Session.ClientID sess)) ErrInvalidClient;
  _ ← ensure (bool_decide (RedirectURI req = Session.RedirectURI sess)) ErrInvalidGrant;
  authedClient ← authenticateClient (Session.ClientID sess) (ec_ClientSecret req);
  let agentClaims := extractAgentIdentityClaimsForClient (has_agentIdentity s) authedClient None in
  p ← ask params;
  _ ← ensure (VerifyS256 p (CodeVerifier req) (Session.CodeChallenge sess)) ErrInvalidPKCE;
  _ ← validateRequestedResource (ec_Resource req) (Session.Resource sess);
  _ ← checkCodeSubject sess;
  mret (authedClient, agentClaims).

(** Step 9: the family and its refresh token. *)

Definition createFamilyAndRefresh (family : Family.Family) (jti : string) (now expiry : Z)
    (issueRefresh : bool) (refreshExpiry : Z) : M string :=
  _ ← TokenStore.CreateFamily family;
  _ ← trackJTI jti (Family.ID family) expiry;
  if negb issueRefresh then mret ""
  else createRefreshToken (Family.ID family) now refreshExpiry.

(** Steps 7 to the end. *)

Definition issueForCode (req : ExchangeCodeRequest) (cfg : TokenConfig) (sess : Session.AuthSession)
    (authedClient : Client.Client) (agentClaims : option AgentIdentityClaims) : M TokenResponse :=
  dpopJKT ← proof_thumbprint (ec_DPoPProof req) (ec_HTTPMethod req) (ec_HTTPURL req);
  now ← time_Now;
  let expiry := (now + cfg_Access cfg)%Z in
  ireq ← buildMintRequest now expiry
           (MkMintParams (Session.UserID sess) (Session.ClientID sess) (Session.Scope sess)
              (Session.Resource sess) dpopJKT agentClaims);
  mintResp ← Issue ireq;
  familyID ← GenerateRandomString;
  let family := Family.MkFamily familyID (Session.ClientID sess) (Session.UserID sess)
                  (Session.Scope sess) (Session.Resource sess) Family.FamilyActive now None
                  (Session.ID sess) in
  refreshPlain ← in_tx (has_tx s)
    (createFamilyAndRefresh family (IssuanceID mintResp) now expiry
       (hasGrantType (Client.GrantTypes authedClient) "refresh_token") (cfg_Refresh cfg));
  _ ← record_audit (has_audit s)
        (Audit.NewEvent Audit.ActionTokenIssued (Session.UserID sess) (Session.ClientID sess) ""
           ("family=" +:+ familyID));
  mret (MkTokenResponse (AccessToken mintResp) (TokenType mintResp) (seconds (cfg_Access cfg))
          refreshPlain (Session.Scope sess)).

Definition exchangeCode (req : ExchangeCodeRequest) : M TokenResponse :=
  cs ← consumeCode req;
  ca ← checkCode req cs.2;
  issueForCode req cs.1 cs.2 ca.1 ca.2.

(** ** refreshToken *)

Record Refreshable := MkRefreshable {
  rf_token : Refresh.RefreshToken;
  rf_family : Family.Family;
  rf_client : Client.Client;
  rf_agent : option AgentIdentityClaims;
  rf_scope : string;
  rf_cfg : TokenConfig
}.

(** Everything before the token is consumed. *)

Definition checkRefresh (req : RefreshTokenRequest) : M Refreshable :=
  p ← ask params;
  r ← try (TokenStore.GetRefreshTokenByHash (HashSHA256 p (RefreshTokenValue req)));
  match r with
  | Err _ => throw ErrInvalidGrant
  | Ok rt =>
      now ← time_Now;
      _ ← ensure (negb (Refresh.IsExpired now rt)) ErrInvalidGrant;
      family ← TokenStore.GetFamily (Refresh.FamilyID rt);
      _ ← ensure (Family.IsActive family) ErrFamilyRevoked;
      _ ← ensure (bool_decide (rt_ClientID req = Family.ClientID family)) ErrInvalidClient;
      authedClient ← authenticateClient (Family.ClientID family) (rt_ClientSecret req);
      _ ← ensure (hasGrantType (Client.GrantTypes authedClient) "refresh_token") ErrUnauthorizedClient;
      _ ← validateRequestedResource (rt_Resource req) (Family.Resource family);
      let agentClaims := extractAgentIdentityClaimsForClient (has_agentIdentity s) authedClient None in
      match refreshScope (rt_Scope req) (Family.Scope family) authedClient with
      | inr x => throw x
      | inl effectiveScope =>
          cfg ← tokenConfig;
          mret (MkRefreshable rt family authedClient agentClaims effectiveScope cfg)
      end
  end.

(** Step 4: every failure answers [invalid_grant]. *)

Definition checkRefreshSubject (family : Family.Family) : M unit :=
  if andb (has_users s) (bool_decide (Family.UserID family ≠ "")) then
    r ← try (UserStore.GetByID (Family.UserID family));
    match r with
    | Err _ => throw ErrInvalidGrant
    | Ok u => if negb (User.IsActive u) then throw ErrInvalidGrant else mret tt
    end
  else mret tt.

(** Steps 4 to the end. *)

Definition issueRefreshed (req : RefreshTokenRequest) (x : Refreshable) : M TokenResponse :=
  _ ← checkRefreshSubject (rf_family x);
  dpopJKT ← proof_thumbprint (rt_DPoPProof req) (rt_HTTPMethod req) (rt_HTTPURL req);
  now ← time_Now;
  let expiry := (now + cfg_Access (rf_cfg x))%Z in
  ireq ← buildMintRequest now expiry
           (MkMintParams (Family.UserID (rf_family x)) (Family.ClientID (rf_family x)) (rf_scope x)
              (Family.Resource (rf_family x)) dpopJKT (rf_agent x));
  mintResp ← Issue ireq;
  _ ← trackJTI (IssuanceID mintResp) (Family.ID (rf_family x)) expiry;
  family ← TokenStore.GetFamily (Family.ID (rf_family x));
  if negb (Family.IsActive family) then
    _ ← when (bool_decide (IssuanceID mintResp ≠ ""))
          (_ ← try (IssuanceStore.Revoke (IssuanceID mintResp)); mret tt);
    throw ErrFamilyRevoked
  else
    refreshPlain ← createRefreshToken (Family.ID family) now (cfg_Refresh (rf_cfg x));
    _ ← record_audit (has_audit s)
          (Audit.NewEvent Audit.ActionTokenRefreshed (Family.UserID family) (Family.ClientID family) ""
             ("family=" +:+ Family.ID family));
    mret (MkTokenResponse (AccessToken mintResp) (TokenType mintResp)
            (seconds (cfg_Access (rf_cfg x))) refreshPlain (rf_scope x)).

Definition refreshToken (req : RefreshTokenRequest) : M TokenResponse :=
  x ← checkRefresh req;
  _ ← consumeOrRevokeFamily (rf_token x);
  issueRefreshed req x.

(** ** The exported methods: a deferred denial record *)

Definition recordDenied (a : Audit.Action) (clientID : string) (x : err) : M unit :=
  record_audit (has_audit s) (Audit.NewEvent a clientID clientID "" ("reason=" +:+ ErrorCode x)).

Definition denied_on_error {A} (a : Audit.Action) (clientID : string) (m : M A) : M A :=
  r ← try m;
  match r with
  | Ok v => mret v
  | Err x => _ ← recordDenied a clientID x; throw x
  end.

Definition ExchangeCode (req : ExchangeCodeRequest) : M TokenResponse :=
  denied_on_error Audit.ActionTokenIssueDenied (ec_ClientID req) (exchangeCode req).

Definition RefreshToken (req : RefreshTokenRequest) : M TokenResponse :=
  denied_on_error Audit.ActionTokenRefreshDenied (rt_ClientID req) (refreshToken req).

End service.
End TokenService.
