(* ===== verification/TokenProofs.v ===== *)
(** * Theorems on the authorization-code and refresh grants *)

From S2P Require Import Prelude GoStrings ScopeSet Act Domain Db Effects Crypto Stores Order StoreOrder MintIssuer TokenService.
Import AgentIdentity MintIssuer TokenService.

(** ** Every path respects the security order *)

Section guarantee.
Context (s : Wiring) {P : Audit.Event → Prop}.

Section reads.
Context {S : relation DB} `{!PreOrder S}.

Lemma traced_authenticateClient c x : Traced S P (authenticateClient c x).
Proof. unfold authenticateClient. traced. Qed.

Lemma traced_validateRequestedResource a b : Traced S P (validateRequestedResource s a b).
Proof. unfold validateRequestedResource. traced. Qed.

Lemma traced_buildMintRequest n x p : Traced S P (buildMintRequest s n x p).
Proof. unfold buildMintRequest. traced. Qed.

Lemma traced_tokenConfig : Traced S P tokenConfig.
Proof. apply traced_provider. Qed.

Hint Resolve traced_authenticateClient traced_validateRequestedResource traced_tokenConfig : guar_db.

Lemma traced_checkRefresh req : Traced S P (checkRefresh s req).
Proof. unfold checkRefresh. traced. Qed.

Lemma traced_checkCodeSubject x : Traced S P (checkCodeSubject s x).
Proof. unfold checkCodeSubject. traced. Qed.

Lemma traced_checkRefreshSubject x : Traced S P (checkRefreshSubject s x).
Proof. unfold checkRefreshSubject. traced. Qed.

Hint Resolve traced_checkCodeSubject : guar_db.

Lemma traced_checkCode req x : Traced S P (checkCode s req x).
Proof. unfold checkCode. traced. Qed.

End reads.

Lemma traced_createRefreshToken f n x : Traced db_step P (createRefreshToken f n x).
Proof. unfold createRefreshToken. traced. Qed.

Lemma traced_trackJTI j f x : Traced db_step P (trackJTI s j f x).
Proof. unfold trackJTI. traced. Qed.

Lemma traced_proof_thumbprint p m u : Traced db_step P (proof_thumbprint s p m u).
Proof. unfold proof_thumbprint, validateDPoP. traced. Qed.

End guarantee.

#[export] Hint Resolve traced_authenticateClient traced_validateRequestedResource
  traced_buildMintRequest traced_tokenConfig traced_checkRefresh traced_checkCodeSubject
  traced_checkRefreshSubject traced_checkCode traced_createRefreshToken traced_trackJTI
  traced_proof_thumbprint : guar_db.

(** The events a handler records itself: anything but the two denials. *)

Definition not_denial (ev : Audit.Event) : Prop :=
  Audit.action ev ≠ Audit.ActionTokenIssueDenied ∧ Audit.action ev ≠ Audit.ActionTokenRefreshDenied.

Lemma traced_runReuseHalves s t : Traced db_step not_denial (runReuseHalves s t).
Proof.
  unfold runReuseHalves, revokeFamilyHalf, denylistFamilyJTIs, reportReuseHalfFailure, auditReuse.
  traced; done.
Qed.

Lemma traced_denylistFamilyJTIs s t : Traced db_step not_denial (denylistFamilyJTIs s t).
Proof. unfold denylistFamilyJTIs, reportReuseHalfFailure, auditReuse. traced; done. Qed.

#[export] Hint Resolve traced_runReuseHalves traced_denylistFamilyJTIs : guar_db.

Lemma traced_consumeOrRevokeFamily s t : Traced db_step not_denial (consumeOrRevokeFamily s t).
Proof. unfold consumeOrRevokeFamily, revokeFamilyOnReuse. traced. Qed.

Lemma traced_handleCodeReuse s x v c : Traced db_step not_denial (handleCodeReuse s x v c).
Proof. unfold handleCodeReuse. traced; done. Qed.

#[export] Hint Resolve traced_consumeOrRevokeFamily traced_handleCodeReuse : guar_db.

Lemma traced_consumeCode s req : Traced db_step not_denial (consumeCode s req).
Proof. unfold consumeCode. traced. Qed.

Lemma traced_issueForCode s req cfg x c a : Traced db_step not_denial (issueForCode s req cfg x c a).
Proof. unfold issueForCode, createFamilyAndRefresh. traced; done. Qed.

Lemma traced_issueRefreshed s req x : Traced db_step not_denial (issueRefreshed s req x).
Proof. unfold issueRefreshed. traced; done. Qed.

#[export] Hint Resolve traced_consumeCode traced_issueForCode traced_issueRefreshed : guar_db.

Lemma traced_exchangeCode s req : Traced db_step not_denial (exchangeCode s req).
Proof. unfold exchangeCode. traced. Qed.

Lemma traced_refreshToken s req : Traced db_step not_denial (refreshToken s req).
Proof. unfold refreshToken. traced. Qed.

Lemma traced_denied s (a : Audit.Action) c {A} (m : M A) :
  Traced db_step not_denial m → Traced db_step (λ _, True) (denied_on_error s a c m).
Proof.
  intros Hm. unfold denied_on_error, recordDenied. traced; try done.
  eapply traced_weaken; [|exact Hm]. done.
Qed.

Lemma traced_ExchangeCode s req : Traced db_step (λ _, True) (ExchangeCode s req).
Proof. apply traced_denied, traced_exchangeCode. Qed.

Lemma traced_RefreshToken s req : Traced db_step (λ _, True) (RefreshToken s req).
Proof. apply traced_denied, traced_refreshToken. Qed.

(** ** What a successful step established *)

Lemma denied_ok s a c {A} (m : M A) e w v w' :
  denied_on_error s a c m e w = (Ok v, w') → m e w = (Ok v, w').
Proof.
  unfold denied_on_error. intros H. mstep H. destruct a0 as [v0|x].
  - apply ret_ok in H as [-> ->]. done.
  - mstep H. by apply throw_ok in H.
Qed.

(** The secret check of an active client. *)

Definition authentic (p : Params) (c : Client.Client) (secret : string) : Prop :=
  Client.IsActive c = true ∧
  if Client.IsPublic c then secret = ""
  else secret ≠ "" ∧ CompareClientSecret p (Client.SecretHash c) secret = true.

Lemma authenticateClient_ok id secret e w c w' :
  authenticateClient id secret e w = (Ok c, w') → ∃ d,
    seen w w' (d, d) ∧ clients d !! id = Some c ∧ authentic (params e) c secret.
Proof.
  unfold authenticateClient. intros H. mstep H. destruct a as [c0|x]; [|by apply throw_ok in H].
  unfold ClientStore.GetByID in Hm. apply query_seen in Hm as (now & d & Hd & Hs & _).
  mstep H. injection Hm as <- <-. destruct (clients d !! id) as [c1|] eqn:Hc; simplify_eq.
  exists d. unfold authentic.
  destruct (Client.IsActive c0) eqn:Ha; [|by apply throw_ok in H].
  destruct (Client.IsPublic c0) eqn:Hp; simpl in *; repeat case_match;
    try (by apply throw_ok in H); apply ret_ok in H as [-> ->]; unbool;
    rewrite ?Hp; try congruence; split_and!; auto.
Qed.

Record refresh_gates (req : RefreshTokenRequest) (e : Env) (w w' : World) (x : Refreshable) : Prop := {
  rg_token : ∃ d k, seen w w' (d, d) ∧ refresh_tokens d !! k = Some (rf_token x) ∧
    Refresh.TokenHash (rf_token x) = HashSHA256 (params e) (RefreshTokenValue req);
  rg_live : ∃ n, (clock e n <= Refresh.ExpiresAt (rf_token x))%Z;
  rg_family : ∃ d, seen w w' (d, d) ∧
    token_families d !! Refresh.FamilyID (rf_token x) = Some (rf_family x) ∧
    Family.IsActive (rf_family x) = true;
  rg_owner : rt_ClientID req = Family.ClientID (rf_family x);
  rg_client : ∃ d, seen w w' (d, d) ∧
    clients d !! rt_ClientID req = Some (rf_client x) ∧
    authentic (params e) (rf_client x) (rt_ClientSecret req);
  rg_grant : "refresh_token" ∈ Client.GrantTypes (rf_client x);
  rg_scope : refreshScope (rt_Scope req) (Family.Scope (rf_family x)) (rf_client x) = inl (rf_scope x);
  rg_agent : ∃ wired, rf_agent x = extractAgentIdentityClaimsForClient wired (rf_client x) None;
  rg_cfg : rf_cfg x = MkTokenConfig (AccessTokenExpiry (config e)) (RefreshTokenExpiry (config e))
}.

Lemma checkRefresh_ok s req e w x w' :
  checkRefresh s req e w = (Ok x, w') → refresh_gates req e w w' x.
Proof.
  unfold checkRefresh. intros H. mstep H. injection Hm as <- <-.
  mstep H. destruct a as [rt|y]; [|by apply throw_ok in H].
  mstep H. mstep H. mstep H. mstep H. mstep H. mstep H. mstep H. mstep H.
  destruct (refreshScope _ _ _) as [sc|y] eqn:Hsc; [|by apply throw_ok in H].
  mstep H. apply ret_ok in H as [<- <-]. ext_all (λ _ : Audit.Event, True).
  pose proof Hm as Hrd. unfold TokenStore.GetRefreshTokenByHash in Hrd.
  apply query_seen in Hrd as (n0 & d0 & Hd0 & Hs0 & _).
  destruct (find_row _ _) as [rt'|] eqn:Hf; simplify_eq.
  apply find_row_Some in Hf as (k & Hk & Hh).
  pose proof Hm2 as Hfd. unfold TokenStore.GetFamily in Hfd.
  apply query_seen in Hfd as (n1 & d1 & Hd1 & Hs1 & _).
  destruct (token_families d1 !! _) as [f|] eqn:Hf; simplify_eq.
  pose proof Hm5 as Hcl. apply authenticateClient_ok in Hcl as (d2 & Hs2 & Hc2 & Hau).
  unfold tokenConfig in Hm8. apply provider_ok in Hm8 as [-> ->]. unbool.
  split; simpl; try done.
  - exists d0, k. split; [seen_tac|done].
  - unfold time_Now in Hm0. injection Hm0 as <- <-. eexists. unfold Refresh.IsExpired in *. unbool.
    apply Z.nlt_ge. done.
  - exists d1. split; [seen_tac|done].
  - exists d2. rewrite Hm4. split; [seen_tac|done].
  - by apply hasGrantType_spec.
  - eauto.
Qed.

(** The step that consumes a refresh token. *)

Definition consumes_refresh (id : string) (x : DB * DB) : Prop :=
  ∃ t now, refresh_tokens x.1 !! id = Some t ∧ Refresh.ConsumedAt t = None ∧
           refresh_tokens x.2 !! id = Some (Refresh.consume now t).

Lemma consumeOrRevokeFamily_ok s rt e w u w' :
  consumeOrRevokeFamily s rt e w = (Ok u, w') →
  ∃ x, seen w w' x ∧ consumes_refresh (Refresh.ID rt) x.
Proof.
  unfold consumeOrRevokeFamily. intros H. mstep H. destruct a as [t|y].
  - apply ret_ok in H as [_ ->]. unfold TokenStore.ConsumeRefreshToken in Hm.
    apply store_seen in Hm as (now & d & d' & Hd & Hs & _). exists (d, d'). split; [done|].
    destruct (refresh_tokens d !! _) as [t0|] eqn:Ht; [|done].
    destruct (Refresh.ConsumedAt t0) eqn:Hc; [done|]. simplify_eq.
    exists t0, now. simpl. by rewrite lookup_insert_eq.
  - case_bool_decide; [by apply throw_ok in H|]. unfold revokeFamilyOnReuse in H. mstep H.
    case_match; by apply throw_ok in H.
Qed.

(** The worlds of a successful refresh. *)

Lemma refreshToken_ok s req e w resp w' :
  refreshToken s req e w = (Ok resp, w') → ∃ x w1 w2,
    refresh_gates req e w w1 x ∧
    (∃ st, seen w1 w2 st ∧ consumes_refresh (Refresh.ID (rf_token x)) st) ∧
    issueRefreshed s req x e w2 = (Ok resp, w') ∧
    extends w w1 ∧ extends w1 w2 ∧ extends w2 w'.
Proof.
  unfold refreshToken. intros H. mstep H. mstep H. ext_all not_denial.
  exists a, w0, w1. split_and!; eauto using checkRefresh_ok, consumeOrRevokeFamily_ok.
Qed.

(** What two requests on the same token value observed, in one history. *)

Definition presents_refresh (hash : string) (l : list (DB * DB)) : Prop :=
  ∃ k t st, Refresh.TokenHash t = hash ∧
    (∃ d, (d, d) ∈ l ∧ refresh_tokens d !! k = Some t) ∧
    st ∈ l ∧ consumes_refresh (Refresh.ID t) st.

Lemma refresh_presents s req e w resp w' :
  RefreshToken s req e w = (Ok resp, w') →
  presents_refresh (HashSHA256 (params e) (RefreshTokenValue req)) (own_steps w w').
Proof.
  intros H. apply denied_ok, refreshToken_ok in H as (x & w1 & w2 & Hg & (st & Hst & Hc) & _ & ? & ? & ?).
  destruct (rg_token _ _ _ _ _ Hg) as (d & k & Hd & Hk & Hh).
  exists k, (rf_token x), st. split_and!; [done| |seen_tac|done].
  exists d. split; [seen_tac|done].
Qed.

Lemma rt_le_static t t' : rt_le t t' → Refresh.ID t' = Refresh.ID t ∧ Refresh.TokenHash t' = Refresh.TokenHash t.
Proof. by intros [->|[_ [n ->]]]. Qed.

(** Two rows with the same hash, read anywhere in a history, are the same row. *)

Lemma history_same_row d0 dn g i j x y k1 k2 t1 t2 x' y' :
  wf_db d0 → history db_step d0 g dn → g !! i = Some (x, x') → g !! j = Some (y, y') →
  refresh_tokens x !! k1 = Some t1 → refresh_tokens y !! k2 = Some t2 →
  Refresh.TokenHash t1 = Refresh.TokenHash t2 → k1 = k2.
Proof.
  assert (∀ i j x y k1 k2 t1 t2 x' y', i ≤ j → wf_db d0 → history db_step d0 g dn →
    g !! i = Some (x, x') → g !! j = Some (y, y') →
    refresh_tokens x !! k1 = Some t1 → refresh_tokens y !! k2 = Some t2 →
    Refresh.TokenHash t1 = Refresh.TokenHash t2 → k1 = k2) as Hle.
  { clear. intros i j x y k1 k2 t1 t2 x' y' Hij Hwf Hh Hi Hj H1 H2 Heq.
    destruct (history_lookup _ _ _ _ _ _ Hh Hi) as [Hx Hx']. destruct (Hx Hwf) as [Hwx _].
    assert (wf_db y ∧ db_le x y) as [Hwy Hxy].
    { destruct (decide (i = j)) as [->|]; [by simplify_eq|].
      destruct (Hx' Hwx) as [Hwx' Hle1].
      destruct (history_order _ _ _ i j _ _ _ _ Hh ltac:(lia) Hi Hj Hwx') as [? ?].
      split; [done|]. by etrans. }
    destruct (le_refresh _ _ Hxy _ _ H1) as (t1' & Ht1' & Ht). apply rt_le_static in Ht as [_ Ht].
    eapply (wf_refresh_hash _ Hwy k1 k2); eauto; congruence. }
  intros. destruct (decide (i ≤ j)); [by eapply (Hle i j)|].
  symmetry. eapply (Hle j i); eauto. lia.
Qed.

Lemma presents_once hash d0 dn l1 l2 g :
  wf_db d0 → history db_step d0 g dn → merge l1 l2 g →
  presents_refresh hash l1 → presents_refresh hash l2 → False.
Proof.
  intros Hwf Hh Hm (k1 & t1 & [c1 c1'] & Hh1 & (r1 & Hr1 & Hk1) & Hc1 & (u1 & n1 & Hu1 & Hn1 & Ha1))
    (k2 & t2 & [c2 c2'] & Hh2 & (r2 & Hr2 & Hk2) & Hc2 & (u2 & n2 & Hu2 & Hn2 & Ha2)). simpl in *.
  apply list_elem_of_lookup in Hr1 as [i1 Hr1], Hr2 as [i2 Hr2], Hc1 as [j1 Hc1], Hc2 as [j2 Hc2].
  destruct (merge_lookup _ _ _ _ _ _ _ Hm Hr1 Hr2) as (p1 & p2 & _ & Hp1 & Hp2).
  destruct (merge_lookup _ _ _ _ _ _ _ Hm Hc1 Hc2) as (q1 & q2 & Hne & Hq1 & Hq2).
  assert (k1 = k2) as <- by (eapply (history_same_row d0 dn g p1 p2); eauto; congruence).
  assert (∀ r k t p, g !! p = Some (r, r) → refresh_tokens r !! k = Some t → Refresh.ID t = k) as Hkey.
  { intros r k t p Hp Hk. destruct (history_lookup _ _ _ _ _ _ Hh Hp) as [Hr _].
    destruct (Hr Hwf) as [Hw _]. by apply (wf_refresh_key _ Hw). }
  rewrite (Hkey _ _ _ _ Hp1 Hk1) in *. rewrite (Hkey _ _ _ _ Hp2 Hk2) in *.
  assert (∀ q q' c c' b b' n u v, q < q' → g !! q = Some (c, c') → g !! q' = Some (b, b') →
    refresh_tokens c' !! k1 = Some (Refresh.consume n u) →
    refresh_tokens b !! k1 = Some v → Refresh.ConsumedAt v ≠ None) as Hlt.
  { clear -Hwf Hh. intros q q' c c' b b' n u v Hlt Hq Hq' Hc Hb.
    destruct (history_lookup _ _ _ _ _ _ Hh Hq) as [Hd Hcc]. destruct (Hcc (proj1 (Hd Hwf))) as [Hwc' _].
    destruct (history_order _ _ _ q q' _ _ _ _ Hh Hlt Hq Hq' Hwc') as [_ Hle].
    destruct (le_refresh _ _ Hle _ _ Hc) as (v' & Hv' & [->|[? _]]); simplify_eq. done. }
  destruct (decide (q1 < q2)); [by eapply (Hlt q1 q2)|].
  eapply (Hlt q2 q1); eauto; lia.
Qed.

(** *** Authorization codes *)

Definition consumes_code (h : string) (x : DB * DB) : Prop :=
  ∃ k c now, auth_sessions x.1 !! k = Some c ∧ Session.CodeHash c = h ∧ h ≠ "" ∧
    Session.ConsumedAt c = None ∧
    auth_sessions x.2 !! Session.ID c = Some (Session.with_consumed c (Some now)).

(** [sess] is the row [c] the step consumed, stamped. *)

Lemma consumeCode_ok s req e w r w' :
  consumeCode s req e w = (Ok r, w') → ∃ d d' k c now,
    seen w w' (d, d') ∧ auth_sessions d !! k = Some c ∧
    Session.CodeHash c = HashSHA256 (params e) (Code req) ∧
    Session.CodeHash c ≠ "" ∧ Session.ConsumedAt c = None ∧
    r.2 = Session.with_consumed c (Some now) ∧
    auth_sessions d' !! Session.ID c = Some r.2 ∧
    r.1 = MkTokenConfig (AccessTokenExpiry (config e)) (RefreshTokenExpiry (config e)).
Proof.
  unfold consumeCode. intros H. mstep H. mstep H. injection Hm0 as <- <-. mstep H.
  destruct a0 as [sess|sess]; [|mstep H; by apply throw_ok in H].
  apply ret_ok in H as [<- <-]. unfold tokenConfig in Hm. apply provider_ok in Hm as [-> ->].
  ext_all not_denial. unfold SessionStore.ConsumeByCodeHash in Hm0.
  apply store_seen in Hm0 as (now & d & d' & Hd & Hs & _).
  destruct (find_row _ _) as [c|] eqn:Hf.
  - apply find_row_Some in Hf as (k & Hk & HP). unbool.
    match goal with H : sql_eq _ _ = true |- _ => apply sql_eq_spec in H as [? ?] end.
    simplify_eq/=. exists d. eexists. exists k, c, now. split_and!; try done.
    + eapply seen_right; [apply extends_after|done|exact Hs].
    + simpl. by rewrite lookup_insert_eq.
  - repeat case_match; simplify_eq.
Qed.

Lemma exchangeCode_ok s req e w resp w' :
  exchangeCode s req e w = (Ok resp, w') → ∃ cs ca w1 w2,
    consumeCode s req e w = (Ok cs, w1) ∧ checkCode s req cs.2 e w1 = (Ok ca, w2) ∧
    issueForCode s req cs.1 cs.2 ca.1 ca.2 e w2 = (Ok resp, w') ∧
    extends w w1 ∧ extends w1 w2 ∧ extends w2 w'.
Proof.
  unfold exchangeCode. intros H. mstep H. mstep H. ext_all not_denial. eauto 12.
Qed.

Lemma code_presents s req e w resp w' :
  ExchangeCode s req e w = (Ok resp, w') →
  ∃ st, st ∈ own_steps w w' ∧ consumes_code (HashSHA256 (params e) (Code req)) st.
Proof.
  intros H. apply denied_ok, exchangeCode_ok in H as (cs & ca & w1 & w2 & Hc & _ & _ & ? & ? & ?).
  apply consumeCode_ok in Hc as (d & d' & k & c & now & Hs & Hk & Hh & Hne & Hn & Hr & Hd' & _).
  exists (d, d'). split; [seen_tac|]. exists k, c, now. simpl. rewrite <-Hr, <-Hh. done.
Qed.

Lemma code_consumed_once h d0 dn g q q' x y :
  wf_db d0 → history db_step d0 g dn → q < q' → g !! q = Some x → g !! q' = Some y →
  consumes_code h x → consumes_code h y → False.
Proof.
  intros Hwf Hh Hlt Hq Hq' (k1 & c1 & n1 & Hk1 & Hh1 & Hne & Hn1 & Ha1)
    (k2 & c2 & n2 & Hk2 & Hh2 & _ & Hn2 & _). destruct x as [x x'], y as [y y']. simpl in *.
  destruct (history_lookup _ _ _ _ _ _ Hh Hq) as [Hd Hxx]. destruct (Hxx (proj1 (Hd Hwf))) as [Hwx' _].
  destruct (history_order _ _ _ q q' _ _ _ _ Hh Hlt Hq Hq' Hwx') as [Hwy Hle].
  pose proof (le_sessions _ _ Hle _ _ Ha1 ltac:(done)) as Ha2.
  assert (Session.ID c1 = k2) as <-.
  { eapply (wf_sessions_code _ Hwy _ _ _ _ h); eauto; simpl; rewrite nullable_Some; done. }
  simplify_eq.
Qed.

Lemma codes_once h d0 dn l1 l2 g x y :
  wf_db d0 → history db_step d0 g dn → merge l1 l2 g → x ∈ l1 → y ∈ l2 →
  consumes_code h x → consumes_code h y → False.
Proof.
  intros Hwf Hh Hm Hx Hy Hcx Hcy. apply list_elem_of_lookup in Hx as [i Hx], Hy as [j Hy].
  destruct (merge_lookup _ _ _ _ _ _ _ Hm Hx Hy) as (i' & j' & Hne & Hi & Hj).
  destruct (decide (i' < j')); [by eapply (code_consumed_once h d0 dn g i' j')|].
  eapply (code_consumed_once h d0 dn g j' i'); eauto. lia.
Qed.

(** *** What an issued pair leaves in the tables *)

(** [redeemable d plain fid]: the family has a refresh token for this value. *)

Definition stored_refresh (p : Params) (d : DB) (plain fid : string) : Prop :=
  ∃ k t, refresh_tokens d !! k = Some t ∧ Refresh.TokenHash t = HashSHA256 p plain ∧ Refresh.FamilyID t = fid.

Lemma stored_refresh_le p d d' plain fid :
  db_le d d' → stored_refresh p d plain fid → stored_refresh p d' plain fid.
Proof.
  intros Hle (k & t & Hk & Hh & Hf). destruct (le_refresh _ _ Hle _ _ Hk) as (t' & Ht' & Hrt).
  exists k, t'. destruct Hrt as [->|[_ [n ->]]]; done.
Qed.

Lemma createRefreshToken_ok f now x e w plain w' :
  createRefreshToken f now x e w = (Ok plain, w') → stored_refresh (params e) (w_db w') plain f.
Proof.
  unfold createRefreshToken. intros H. mstep H. mstep H. injection Hm0 as <- <-. mstep H. mstep H.
  apply ret_ok in H as [-> ->]. unfold TokenStore.CreateRefreshToken in Hm1.
  apply store_seen in Hm1 as (t & d & d' & Hd & _ & -> & _). repeat case_match; simplify_eq.
  exists a0. eexists. simpl. by rewrite lookup_insert_eq.
Qed.

Definition stored_family (d : DB) (f : Family.Family) : Prop :=
  ∃ f', token_families d !! Family.ID f = Some f' ∧ fam_le f f'.

Lemma stored_family_le d d' f : db_le d d' → stored_family d f → stored_family d' f.
Proof.
  intros Hle (f1 & Hk & Hf1). destruct (le_families _ _ Hle _ _ Hk) as (f2 & Hf2 & Hle2).
  exists f2. split; [done|by etrans].
Qed.

Lemma CreateFamily_ok fam e w u w' :
  TokenStore.CreateFamily fam e w = (Ok u, w') → token_families (w_db w') !! Family.ID fam = Some fam.
Proof.
  unfold TokenStore.CreateFamily. intros H.
  apply store_seen in H as (n & d & d' & Hd & _ & -> & _). repeat case_match; simplify_eq.
  simpl. by rewrite lookup_insert_eq.
Qed.

Lemma createFamilyAndRefresh_ok s fam j now exp b x e w plain w' :
  createFamilyAndRefresh s fam j now exp b x e w = (Ok plain, w') →
  rely db_step e → wf_db (w_db w) →
  stored_family (w_db w') fam ∧
  if b then stored_refresh (params e) (w_db w') plain (Family.ID fam) else plain = "".
Proof.
  unfold createFamilyAndRefresh. intros H HR Hwf. mstep H.
  db_after not_denial Hm using HR Hwf as Hwf0 Hle0.
  assert (stored_family (w_db w0) fam) as Hst.
  { exists fam. split; [by eapply CreateFamily_ok|]. reflexivity. }
  mstep H. db_after not_denial Hm0 using HR Hwf0 as Hwf1 Hle1.
  destruct b; simpl in H.
  - db_after not_denial H using HR Hwf1 as Hwf2 Hle2.
    split; [by do 2 (eapply stored_family_le; [eassumption|])|]. by eapply createRefreshToken_ok.
  - apply ret_ok in H as [<- <-]. split; [by eapply stored_family_le|done].
Qed.

(** *** Gates of the code exchange *)

Lemma UserStore_ok id e w u w' :
  UserStore.GetByID id e w = (Ok u, w') → ∃ d, seen w w' (d, d) ∧ users d !! id = Some u.
Proof.
  unfold UserStore.GetByID. intros H. apply query_seen in H as (n & d & Hd & Hs & _).
  exists d. split; [done|]. by destruct (users d !! id); simplify_eq.
Qed.

(** The subject is active, when there is a user store to ask. *)

Definition subject_active (s : Wiring) (w w' : World) (id : string) : Prop :=
  has_users s = true → id ≠ "" → ∃ d u, seen w w' (d, d) ∧ users d !! id = Some u ∧ User.IsActive u = true.

Lemma checkCodeSubject_ok s sess e w u w' :
  checkCodeSubject s sess e w = (Ok u, w') → subject_active s w w' (Session.UserID sess).
Proof.
  unfold checkCodeSubject, subject_active. intros H Hu Hne. rewrite Hu, bool_decide_eq_true_2 in H by done.
  simpl in H. mstep H. destruct a as [x|[]]; try (by apply throw_ok in H).
  destruct (User.IsActive x) eqn:Hx; [|by apply throw_ok in H].
  apply ret_ok in H as [_ ->]. apply UserStore_ok in Hm as (d & Hd & Hx'). eauto.
Qed.

Lemma checkRefreshSubject_ok s f e w u w' :
  checkRefreshSubject s f e w = (Ok u, w') → subject_active s w w' (Family.UserID f).
Proof.
  unfold checkRefreshSubject, subject_active. intros H Hu Hne.
  rewrite Hu, bool_decide_eq_true_2 in H by done.
  simpl in H. mstep H. destruct a as [x|y]; [|by apply throw_ok in H].
  destruct (User.IsActive x) eqn:Hx; [|by apply throw_ok in H].
  apply ret_ok in H as [_ ->]. apply UserStore_ok in Hm as (d & Hd & Hx'). eauto.
Qed.

Record code_gates (s : Wiring) (req : ExchangeCodeRequest) (e : Env) (w w' : World)
    (sess : Session.AuthSession) (c : Client.Client) : Prop := {
  cg_live : ∃ n, (clock e n <= Session.ExpiresAt sess)%Z;
  cg_client_id : ec_ClientID req = Session.ClientID sess;
  cg_redirect : RedirectURI req = Session.RedirectURI sess;
  cg_client : ∃ d, seen w w' (d, d) ∧ clients d !! Session.ClientID sess = Some c ∧
                   authentic (params e) c (ec_ClientSecret req);
  cg_pkce : VerifyS256 (params e) (CodeVerifier req) (Session.CodeChallenge sess) = true;
  cg_subject : subject_active s w w' (Session.UserID sess)
}.

Lemma subject_active_sub s w w1 w2 w3 id :
  extends w w1 → extends w1 w2 → extends w2 w3 → subject_active s w1 w2 id → subject_active s w w3 id.
Proof. intros ??? H Hu Hn. destruct (H Hu Hn) as (d & u & Hd & ?). exists d, u. split; [seen_tac|done]. Qed.

Lemma checkCode_ok s req sess e w ca w' :
  checkCode s req sess e w = (Ok ca, w') → code_gates s req e w w' sess ca.1.
Proof.
  unfold checkCode. intros H. mstep H. mstep H. mstep H. mstep H. mstep H. mstep H.
  injection Hm4 as <- <-. mstep H. mstep H. mstep H. apply ret_ok in H as [<- <-]. unbool.
  ext_all not_denial. pose proof Hm3 as Hc. apply authenticateClient_ok in Hc as (d & Hd & Hc & Ha).
  split; simpl; try done.
  - unfold time_Now in Hm. injection Hm as <- <-. eexists. unfold Session.IsExpired in *. unbool.
    apply Z.nlt_ge. done.
  - exists d. split; [seen_tac|done].
  - eapply subject_active_sub; [| | |by eapply checkCodeSubject_ok]; chain_ext.
Qed.

(** *** What was signed *)

Record signed_for (e : Env) (tok sub cid scope res jkt : string) (act : option (gmap string json))
    : Prop := {
  signed : ∃ c, tok = jws_sign (params e) c ∧ ValidateAccessTokenClaims c = true ∧
    c_Issuer c = Issuer (config e) ∧ c_Subject c = sub ∧ c_ClientID c = cid ∧
    c_Scope c = strings_Join " " (strings_Fields scope) ∧
    (res ≠ "" → c_Audience c = [res]) ∧ c_Act c = act ∧
    (c_Cnf c = if bool_decide (jkt ≠ "") then Some {["jkt" := JStr jkt]} else None)
}.

Lemma buildMintRequest_ok s now exp p e w req w' :
  buildMintRequest s now exp p e w = (Ok req, w') → ∃ r,
    req = MkIssueRequest r None (mp_UserID p) (mp_ClientID p) (strings_Fields (mp_Scope p))
            (mp_Agent p) (mp_DPoPJKT p) (mp_ClientID p) ""
            (if bool_decide (mp_Resource p ≠ "") then [mp_Resource p] else [])
            None (Some now) (Some exp).
Proof. unfold buildMintRequest. intros H. mstep H. apply ret_ok in H as [<- <-]. eauto. Qed.

Lemma Issue_signed s now exp p e w req w1 resp w' :
  buildMintRequest s now exp p e w = (Ok req, w1) → Issue req e w1 = (Ok resp, w') →
  signed_for e (AccessToken resp) (mp_UserID p) (mp_ClientID p) (mp_Scope p) (mp_Resource p)
    (mp_DPoPJKT p) None ∧
  TokenType resp = (if bool_decide (mp_DPoPJKT p ≠ "") then "DPoP" else "Bearer").
Proof.
  intros Hb Hi. apply buildMintRequest_ok in Hb as [r ->].
  apply Issue_ok in Hi as (x & n & _ & Ht & Hv & Hty). split; [|exact Hty].
  split. eexists. split; [exact Ht|]. split; [exact Hv|]. split_and!; try done.
  intros Hr. simpl. unfold mintAudience. simpl. by rewrite (bool_decide_eq_true_2 (mp_Resource p ≠ "")).
Qed.

Lemma issueForCode_ok s req cfg sess c ag e w resp w' :
  issueForCode s req cfg sess c ag e w = (Ok resp, w') → rely db_step e → wf_db (w_db w) →
  ∃ fid now jkt,
    signed_for e (resp_AccessToken resp) (Session.UserID sess) (Session.ClientID sess)
      (Session.Scope sess) (Session.Resource sess) jkt None ∧
    resp_Scope resp = Session.Scope sess ∧
    stored_family (w_db w')
      (Family.MkFamily fid (Session.ClientID sess) (Session.UserID sess) (Session.Scope sess)
         (Session.Resource sess) Family.FamilyActive now None (Session.ID sess)) ∧
    if hasGrantType (Client.GrantTypes c) "refresh_token"
    then stored_refresh (params e) (w_db w') (resp_RefreshToken resp) fid
    else resp_RefreshToken resp = "".
Proof.
  unfold issueForCode. intros H HR Hwf. mstep H. db_after not_denial Hm using HR Hwf as Hwf0 Hle0.
  mstep H. injection Hm0 as <- <-. mstep H. db_after not_denial Hm0 using HR Hwf0 as Hwf1 Hle1.
  mstep H. destruct (Issue_signed _ _ _ _ _ _ _ _ _ _ Hm0 Hm1) as [Hsig _].
  db_after not_denial Hm1 using HR Hwf1 as Hwf2 Hle2.
  mstep H. injection Hm2 as <- <-. mstep H. mstep H. apply ret_ok in H as [<- <-]. simpl.
  destruct (in_tx_ok (S:=db_step) _ _ _ _ _ _ Hm2 HR) as (e' & w0' & w1' & Hc & HR' & Hp & Hs & Hw).
  simpl in Hs. destruct (Hs Hwf2) as [Hwf3 _].
  destruct (createFamilyAndRefresh_ok _ _ _ _ _ _ _ _ _ _ _ Hc HR' Hwf3) as [Hf Hrt].
  rewrite Hw in Hf, Hrt. rewrite Hp in Hrt. simpl in Hf, Hrt.
  unfold record_audit in Hm3. injection Hm3 as _ <-.
  eexists _, _, _. split; [exact Hsig|]. split; [done|]. destruct (has_audit s); simpl; eauto.
Qed.

(** *** The rotated token *)

Lemma GetFamily_ok id e w f w' :
  TokenStore.GetFamily id e w = (Ok f, w') →
  ∃ d, seen w w' (d, d) ∧ token_families d !! id = Some f ∧ w_db w' = d.
Proof.
  unfold TokenStore.GetFamily. intros H. apply query_seen in H as (n & d & Hd & Hs & Hw & _).
  exists d. split; [done|]. by destruct (token_families d !! id); simplify_eq.
Qed.

Lemma issueRefreshed_ok s req x e w resp w' :
  issueRefreshed s req x e w = (Ok resp, w') → rely db_step e → wf_db (w_db w) →
  let fam := rf_family x in
  subject_active s w w' (Family.UserID fam) ∧
  (∃ jkt, signed_for e (resp_AccessToken resp) (Family.UserID fam) (Family.ClientID fam)
            (rf_scope x) (Family.Resource fam) jkt None) ∧
  resp_Scope resp = rf_scope x ∧
  (∃ d f, seen w w' (d, d) ∧ token_families d !! Family.ID fam = Some f ∧ Family.IsActive f = true) ∧
  stored_refresh (params e) (w_db w') (resp_RefreshToken resp) (Family.ID fam).
Proof.
  unfold issueRefreshed. intros H HR Hwf. simpl.
  mstep H. db_after not_denial Hm using HR Hwf as Hwf0 Hle0.
  mstep H. db_after not_denial Hm0 using HR Hwf0 as Hwf1 Hle1.
  mstep H. injection Hm1 as <- <-. mstep H. db_after not_denial Hm1 using HR Hwf1 as Hwf2 Hle2.
  mstep H. destruct (Issue_signed _ _ _ _ _ _ _ _ _ _ Hm1 Hm2) as [Hsig _].
  db_after not_denial Hm2 using HR Hwf2 as Hwf3 Hle3.
  mstep H. db_after not_denial Hm3 using HR Hwf3 as Hwf4 Hle4.
  mstep H. db_after not_denial Hm4 using HR Hwf4 as Hwf5 Hle5.
  destruct (Family.IsActive a4) eqn:Ha; simpl in H; [|mstep H; by apply throw_ok in H].
  mstep H. mstep H. apply ret_ok in H as [<- <-]. simpl.
  pose proof (createRefreshToken_ok _ _ _ _ _ _ _ Hm5) as Hst.
  assert (extends w1 (after w1 (w_db w1) [])) by apply extends_after.
  assert (Family.ID a4 = Family.ID (rf_family x)) as Hid.
  { destruct (GetFamily_ok _ _ _ _ _ Hm4) as (d & _ & Hd & <-). by apply (wf_families_key _ Hwf5). }
  assert (w_db w7 = w_db w6 ∧ extends w6 w7) as [Hdb ?].
  { unfold record_audit in Hm6. injection Hm6 as _ <-. split; [by case_match|].
    exists []. rewrite app_nil_r. by case_match. }
  ext_all not_denial. rewrite Hdb, <-Hid. split_and!; try done; [| |].
  - eapply subject_active_sub; [| | |by eapply checkRefreshSubject_ok]; chain_ext.
  - eauto.
  - destruct (GetFamily_ok _ _ _ _ _ Hm4) as (d & Hd & Hk & _). exists d, a4. rewrite Hid.
    split; [seen_tac|done].
Qed.

(** ** Reuse detection *)

Definition fault_free (e : Env) : Prop := ∀ n, fault e n = false.

Lemma store_run {A} (f : Z → DB → res A * DB) e w :
  fault_free e → ∃ now d, (∀ S, rely S e → S (w_db w) d) ∧
    store f e w = ((f now d).1, after w (f now d).2 [(d, (f now d).2)]).
Proof.
  intros Hf. exists (clock e (w_tick w)), (interfere e (w_tick w) (w_db w)).
  split; [by intros S HS; apply HS|]. unfold store. rewrite Hf. by destruct (f _ _).
Qed.

Lemma store_result {A} (f : Z → DB → res A * DB) e w r w' :
  fault_free e → store f e w = (r, w') → ∃ now d, (∀ S, rely S e → S (w_db w) d) ∧
    r = (f now d).1 ∧ w_db w' = (f now d).2.
Proof.
  intros Hff H. destruct (store_run f e w Hff) as (now & d & Hd & Hst). rewrite Hst in H.
  injection H as <- <-. eauto.
Qed.

Lemma audit_run b ev e w : ∃ w', record_audit b ev e w = (Ok tt, w') ∧ w_db w' = w_db w ∧
  w_audit w' = w_audit w ++ (if b then [ev] else []).
Proof. unfold record_audit. destruct b; eexists; (split; [done|]); [done|]. by rewrite app_nil_r. Qed.

(** Every jti tracked for a family is on the denylist. *)

Definition family_denylisted (tracked d : DB) (fid : string) : Prop :=
  ∀ j exp, access_token_jtis tracked !! j = Some (fid, exp) → is_Some (revoked_jtis d !! j).

Lemma family_denylisted_le d0 d d1 d' fid :
  db_le d0 d → db_le d1 d' → family_denylisted d d1 fid → family_denylisted d0 d' fid.
Proof.
  intros Hle Hle' H j exp Hj. destruct (le_tracked _ _ Hle _ _ Hj) as (x & Hx & <-).
  destruct (H _ _ Hx) as [t Ht]. destruct (le_revoked _ _ Hle' _ _ Ht) as (t' & ? & _). eauto.
Qed.

Definition family_revoked (d : DB) (fid : string) : Prop :=
  ∀ f, token_families d !! fid = Some f → Family.IsActive f = false.

Lemma revoke_family_tables_revokes now fid d : family_revoked (TokenStore.revoke_family_tables now fid d) fid.
Proof.
  intros f. unfold TokenStore.revoke_family_tables, TokenStore.revoke_family_row. simpl.
  destruct (token_families d !! fid) as [f0|] eqn:Hf; [|by rewrite Hf].
  destruct (Family.IsActive f0) eqn:Ha; simpl; [|rewrite Hf; naive_solver].
  rewrite lookup_insert_eq. by intros [= <-].
Qed.

Lemma family_revoked_le d d' fid :
  db_le d d' → is_Some (token_families d !! fid) → family_revoked d fid → family_revoked d' fid.
Proof.
  intros Hle [f Hf] Hr f' Hf'. destruct (le_families _ _ Hle _ _ Hf) as (f2 & Hf2 & Hle2).
  simplify_eq. specialize (Hr _ Hf). destruct Hle2 as [->|[? _]]; [done|]. congruence.
Qed.

Lemma revokeFamilyHalf_run s tgt e w :
  fault_free e → rely db_step e → wf_db (w_db w) → is_Some (token_families (w_db w) !! rt_familyID tgt) →
  ∃ w', revokeFamilyHalf s tgt e w = (Ok true, w') ∧ wf_db (w_db w') ∧ db_le (w_db w) (w_db w') ∧
        family_revoked (w_db w') (rt_familyID tgt).
Proof.
  intros Hff HR Hwf Hfam.
  destruct (revokeFamilyHalf s tgt e w) as [r w'] eqn:Hrun.
  assert (traced : Traced db_step not_denial (revokeFamilyHalf s tgt)).
  { unfold revokeFamilyHalf, reportReuseHalfFailure, auditReuse. traced; done. }
  destruct (traced_db _ _ _ _ _ traced Hrun HR Hwf) as [Hwf' Hle].
  exists w'. cut (r = Ok true ∧ family_revoked (w_db w') (rt_familyID tgt)); [naive_solver|].
  revert Hrun. unfold revokeFamilyHalf, TokenStore.RevokeFamily.
  destruct (store_run (λ now d, (Ok (match token_families d !! rt_familyID tgt with
    Some f => Family.IsActive f | None => false end),
    TokenStore.revoke_family_tables now (rt_familyID tgt) d)) e w Hff) as (now & d & _ & Hst).
  rewrite (bind_step _ _ _ _ _ _ (try_run _ _ _ _ _ Hst)). simpl.
  pose proof (revoke_family_tables_revokes now (rt_familyID tgt) d) as Hrev.
  destruct (token_families d !! rt_familyID tgt) as [f|]; [destruct (Family.IsActive f)|].
  - unfold auditReuse, record_audit. destruct (has_audit s); by intros [= <- <-].
  - by intros [= <- <-].
  - by intros [= <- <-].
Qed.

Lemma RevokeByFamily_run fid e w :
  fault_free e → rely db_step e → wf_db (w_db w) →
  ∃ w', RevocationStore.RevokeByFamily fid e w = (Ok tt, w') ∧ family_denylisted (w_db w) (w_db w') fid ∧
        wf_db (w_db w') ∧ db_le (w_db w) (w_db w').
Proof.
  intros Hff HR Hwf. destruct (RevocationStore.RevokeByFamily fid e w) as [r w'] eqn:H.
  db_after (λ _ : Audit.Event, True) H using HR Hwf as Hwf' Hle.
  apply (store_result _ _ _ _ _ Hff) in H as (n & d & Hd & -> & Hw). simpl in Hw.
  exists w'. split; [done|]. split; [|done]. intros j exp Hj. rewrite Hw. simpl.
  destruct (Hd db_step HR Hwf) as [_ Hle'].
  destruct (le_tracked _ _ Hle' _ _ Hj) as (x & Hx & <-). apply lookup_union_is_Some. right.
  exists exp. unfold RevocationStore.family_jtis. rewrite lookup_fmap, fmap_Some.
  exists (fid, exp). split; [|done]. by apply map_lookup_filter_Some.
Qed.

Lemma denylistFamilyJTIs_run s tgt e w :
  fault_free e → rely db_step e → wf_db (w_db w) →
  ∃ w', denylistFamilyJTIs s tgt e w = (Ok true, w') ∧ wf_db (w_db w') ∧ db_le (w_db w) (w_db w') ∧
        (has_revocation s = true → family_denylisted (w_db w) (w_db w') (rt_familyID tgt)).
Proof.
  intros Hff HR Hwf. destruct (denylistFamilyJTIs s tgt e w) as [r w'] eqn:Hrun.
  destruct (traced_db _ _ _ _ _ (traced_denylistFamilyJTIs s tgt) Hrun HR Hwf) as [Hwf' Hle].
  exists w'. cut (r = Ok true ∧
    (has_revocation s = true → family_denylisted (w_db w) (w_db w') (rt_familyID tgt))); [naive_solver|].
  revert Hrun. unfold denylistFamilyJTIs. destruct (has_revocation s); simpl; [|by intros [= <- <-]].
  destruct (RevokeByFamily_run (rt_familyID tgt) e w Hff HR Hwf) as (w1 & Hst & Hden & _).
  rewrite (bind_step _ _ _ _ _ _ (try_run _ _ _ _ _ Hst)). simpl. by intros [= <- <-].
Qed.

Lemma runReuseHalves_run s tgt e w :
  fault_free e → rely db_step e → wf_db (w_db w) → is_Some (token_families (w_db w) !! rt_familyID tgt) →
  ∃ w', runReuseHalves s tgt e w = (Ok (true, true), w') ∧
        family_revoked (w_db w') (rt_familyID tgt) ∧
        (has_revocation s = true → family_denylisted (w_db w) (w_db w') (rt_familyID tgt)).
Proof.
  intros Hff HR Hwf Hfam. unfold runReuseHalves.
  destruct (revokeFamilyHalf_run s tgt e w Hff HR Hwf Hfam) as (w1 & H1 & Hwf1 & Hle1 & Hrev).
  destruct (denylistFamilyJTIs_run s tgt e w1 Hff HR Hwf1) as (w2 & H2 & Hwf2 & Hle2 & Hden).
  exists w2. rewrite (bind_step _ _ _ _ _ _ H1), (bind_step _ _ _ _ _ _ H2). split; [done|]. split.
  - eapply family_revoked_le; [exact Hle2| |exact Hrev]. destruct Hfam as [f Hf].
    destruct (le_families _ _ Hle1 _ _ Hf) as (f' & ? & _). eauto.
  - intros Hr j x Hj. eapply (Hden Hr). destruct (le_tracked _ _ Hle1 _ _ Hj) as (y & Hy & <-). exact Hy.
Qed.

(** ** Errors after the refresh token is consumed *)

(** The answers that only the checks before the consume give. *)

Definition refusal (x : err) : Prop :=
  x ∈ [ErrInvalidClient; ErrClientSuspended; ErrUnauthorizedClient; ErrInvalidScope; ErrInvalidTarget].

#[export] Instance refusal_dec x : Decision (refusal x).
Proof. unfold refusal. apply _. Defined.

Lemma not_refusal x : x ∉ [ErrInvalidClient; ErrClientSuspended; ErrUnauthorizedClient;
  ErrInvalidScope; ErrInvalidTarget] → ¬ refusal x.
Proof. done. Qed.

Ltac no_refusal := apply not_refusal; by rewrite !not_elem_of_cons; repeat split; try apply not_elem_of_nil.

Lemma fails_ConsumeRefreshToken id :
  Fails (λ x, x = EFault ∨ x = ErrInvalidGrant ∨ x = ErrRefreshTokenReused) (TokenStore.ConsumeRefreshToken id).
Proof. unfold TokenStore.ConsumeRefreshToken. fails; auto. Qed.

Lemma fails_consumeOrRevokeFamily s rt : Fails (λ x, ¬ refusal x) (consumeOrRevokeFamily s rt).
Proof.
  intros e w x w' H. unfold consumeOrRevokeFamily in H. apply bind_err in H as [H|(r & w1 & H1 & H)].
  { by apply try_not_err in H. }
  apply try_ok in H1. destruct r as [t|y]; [done|]. apply fails_ConsumeRefreshToken in H1.
  case_bool_decide as Hne.
  - injection H as <- _. destruct H1 as [->|[->| ->]]; [no_refusal|no_refusal|done].
  - revert H. generalize e w1 x w'. change (Fails (λ x, ¬ refusal x) (revokeFamilyOnReuse s rt)).
    unfold revokeFamilyOnReuse, runReuseHalves, revokeFamilyHalf, denylistFamilyJTIs,
      reportReuseHalfFailure, auditReuse. fails; no_refusal.
Qed.

Lemma fails_Issue req : Fails (λ x, ¬ refusal x) (Issue req).
Proof. unfold Issue, SignAccessToken, IssuanceStore.Insert. fails; no_refusal. Qed.

Lemma fails_validateDPoP s p m u h : Fails (λ x, ¬ refusal x) (validateDPoP s p m u h).
Proof.
  unfold validateDPoP, DPoPNonceStore.ConsumeJTI. fails; try no_refusal.
  unfold ValidateProof in *. repeat case_match; simplify_eq; no_refusal.
Qed.

Lemma fails_issueRefreshed s req x : Fails (λ x, ¬ refusal x) (issueRefreshed s req x).
Proof.
  unfold issueRefreshed, checkRefreshSubject, proof_thumbprint, buildMintRequest, trackJTI,
    TokenStore.GetFamily, createRefreshToken, TokenStore.CreateRefreshToken.
  fails; try no_refusal; auto using fails_Issue, fails_validateDPoP.
Qed.

(** ** A consumed token presented again *)

Lemma consume_reused s rt e w t :
  fault_free e → rely db_step e → wf_db (w_db w) →
  refresh_tokens (w_db w) !! Refresh.ID rt = Some t → Refresh.ConsumedAt t ≠ None →
  is_Some (token_families (w_db w) !! Refresh.FamilyID rt) →
  ∃ w', consumeOrRevokeFamily s rt e w = (Err ErrFamilyRevoked, w') ∧
    family_revoked (w_db w') (Refresh.FamilyID rt) ∧
    (has_revocation s = true → family_denylisted (w_db w) (w_db w') (Refresh.FamilyID rt)).
Proof.
  intros Hff HR Hwf Ht Hc Hfam.
  destruct (TokenStore.ConsumeRefreshToken (Refresh.ID rt) e w) as [r w1] eqn:Hrun.
  db_after not_denial Hrun using HR Hwf as Hwf1 Hle1.
  assert (r = Err ErrRefreshTokenReused) as ->.
  { unfold TokenStore.ConsumeRefreshToken in Hrun.
    destruct (store_result _ _ _ _ _ Hff Hrun) as (now & d & Hd & -> & _).
    destruct (Hd db_step HR Hwf) as [_ Hle].
    destruct (le_refresh _ _ Hle _ _ Ht) as (t' & -> & [->|[? _]]); [|done].
    by destruct (Refresh.ConsumedAt t). }
  assert (is_Some (token_families (w_db w1) !! Refresh.FamilyID rt)) as Hfam1.
  { eapply table_le_is_Some; [apply (le_families _ _ Hle1)|done]. }
  destruct (runReuseHalves_run s (refreshReuseTarget rt) e w1 Hff HR Hwf1 Hfam1) as (w' & Hr & Hrev & Hden).
  exists w'. unfold consumeOrRevokeFamily. rewrite (bind_step _ _ _ _ _ _ (try_run _ _ _ _ _ Hrun)).
  rewrite bool_decide_eq_false_2 by naive_solver. unfold revokeFamilyOnReuse.
  rewrite (bind_step _ _ _ _ _ _ Hr). split; [done|]. split; [done|].
  intros Hh j y Hj. eapply (Hden Hh). destruct (le_tracked _ _ Hle1 _ _ Hj) as (z & Hz & <-). exact Hz.
Qed.

Lemma denied_err s a cid {A} (m : M A) e w x w' :
  m e w = (Err x, w') → ∃ w2, denied_on_error s a cid m e w = (Err x, w2) ∧
    w_db w2 = w_db w' ∧ w_steps w2 = w_steps w'.
Proof.
  intros H. unfold denied_on_error. rewrite (bind_step _ _ _ _ _ _ (try_run _ _ _ _ _ H)).
  unfold recordDenied, record_audit, mbind, M_bind, throw. eexists. split; [done|].
  by destruct (has_audit s).
Qed.

(** ** A redeemed code presented again *)

Definition credentialed (p : Params) (sess : Session.AuthSession) (verifier clientID : string) : bool :=
  andb (VerifyS256 p verifier (Session.CodeChallenge sess)) (bool_decide (clientID = Session.ClientID sess)).

(** Without the verifier and the client id nothing is written. *)

Lemma handleCodeReuse_silent s sess v c e w r w' :
  credentialed (params e) sess v c = false → handleCodeReuse s sess v c e w = (r, w') →
  own_steps w w' = [].
Proof.
  unfold handleCodeReuse, credentialed. intros Hc H.
  rewrite (bind_step (ask params) _ e w (params e) w) in H by done.
  rewrite Hc in H. unfold record_audit, mbind, M_bind, mret, M_ret in H. injection H as _ <-.
  unfold own_steps. by destruct (has_audit s); rewrite drop_all.
Qed.

Lemma GetFamilyByAuthSessionID_run sid e w fid f :
  fault_free e → rely db_step e → wf_db (w_db w) → sid ≠ "" →
  token_families (w_db w) !! fid = Some f → Family.AuthSessionID f = sid →
  ∃ f' w1, TokenStore.GetFamilyByAuthSessionID sid e w = (Ok f', w1) ∧
    token_families (w_db w1) !! fid = Some f' ∧ Family.ID f' = fid ∧
    wf_db (w_db w1) ∧ db_le (w_db w) (w_db w1).
Proof.
  intros Hff HR Hwf Hne Hf Hs.
  destruct (TokenStore.GetFamilyByAuthSessionID sid e w) as [r w1] eqn:Hrun.
  db_after not_denial Hrun using HR Hwf as Hwf1 Hle1.
  unfold TokenStore.GetFamilyByAuthSessionID in Hrun.
  destruct (store_result _ _ _ _ _ Hff Hrun) as (now & d & Hd & -> & Hw). simpl in *. subst d.
  destruct (le_families _ _ Hle1 _ _ Hf) as (f' & Hf' & Hle).
  assert (Family.AuthSessionID f' = sid) as Hs' by (by destruct Hle as [->|[_ [n ->]]]).
  rewrite (find_row_unique _ _ fid f' Hf').
  - exists f', w1. split_and!; try done. by apply (wf_families_key _ Hwf1).
  - by apply sql_eq_spec; rewrite Hs'.
  - intros k g Hk Hg. apply sql_eq_spec in Hg as [_ Hg].
    assert (k = fid) as ->; [|congruence].
    eapply (wf_families_session _ Hwf1 k fid _ _ sid); eauto; simpl; by apply nullable_Some.
Qed.

Lemma handleCodeReuse_revokes s sess v c e w fid f :
  fault_free e → rely db_step e → wf_db (w_db w) →
  credentialed (params e) sess v c = true → Session.ID sess ≠ "" →
  token_families (w_db w) !! fid = Some f → Family.AuthSessionID f = Session.ID sess →
  ∃ w', handleCodeReuse s sess v c e w = (Ok tt, w') ∧ family_revoked (w_db w') fid ∧
    (has_revocation s = true → family_denylisted (w_db w) (w_db w') fid).
Proof.
  intros Hff HR Hwf Hc Hne Hf Hs. unfold handleCodeReuse, credentialed in *.
  rewrite (bind_step (ask params) _ e w (params e) w) by done. rewrite Hc. simpl.
  match goal with |- context [record_audit ?b ?ev] =>
    destruct (record_audit b ev e w) as [[[]|?] w1] eqn:Ha; [|done];
    rewrite (bind_step _ _ _ _ _ _ Ha) end.
  assert (w_db w1 = w_db w) as Hw1 by (injection Ha as <-; by destruct (has_audit s)).
  rewrite <-Hw1 in Hwf, Hf |- *.
  destruct (GetFamilyByAuthSessionID_run _ _ _ _ _ Hff HR Hwf Hne Hf Hs)
    as (f' & w2 & Hg & Hf' & Hid & Hwf2 & Hle2).
  rewrite (bind_step _ _ _ _ _ _ (try_run _ _ _ _ _ Hg)).
  assert (∀ d', family_denylisted (w_db w2) d' fid → family_denylisted (w_db w1) d' fid) as Hmono.
  { intros d' Hd j y Hj. destruct (le_tracked _ _ Hle2 _ _ Hj) as (z & Hz & <-). eauto. }
  destruct (Family.IsActive f') eqn:Hact; simpl.
  - destruct (runReuseHalves_run s (codeReuseTarget (Family.ID f')) e w2 Hff HR Hwf2)
      as (w' & Hr & Hrev & Hden); [simpl; rewrite Hid; eauto|].
    exists w'. rewrite (bind_step _ _ _ _ _ _ Hr). simpl in *. rewrite Hid in *. auto.
  - destruct (denylistFamilyJTIs_run s (codeReuseTarget (Family.ID f')) e w2 Hff HR Hwf2)
      as (w' & Hr & Hwf' & Hle' & Hden). simpl in *. rewrite Hid in *.
    exists w'. rewrite (bind_step _ _ _ _ _ _ Hr). split; [done|]. split; [|by auto].
    eapply family_revoked_le; [exact Hle'|by eauto|]. intros g Hg'. by simplify_eq.
Qed.

Lemma ConsumeByCodeHash_replay h e w k c :
  fault_free e → rely db_step e → wf_db (w_db w) → h ≠ "" →
  auth_sessions (w_db w) !! k = Some c → Session.CodeHash c = h → Session.ConsumedAt c ≠ None →
  ∃ w1, SessionStore.ConsumeByCodeHash h e w = (Ok (SessionStore.AlreadyConsumed c), w1) ∧
    wf_db (w_db w1) ∧ db_le (w_db w) (w_db w1) ∧ (∀ x, seen w w1 x → x.1 = x.2).
Proof.
  intros Hff HR Hwf Hne Hk Hh Hc.
  destruct (SessionStore.ConsumeByCodeHash h e w) as [r w1] eqn:Hrun.
  db_after not_denial Hrun using HR Hwf as Hwf1 Hle1.
  unfold SessionStore.ConsumeByCodeHash in Hrun.
  edestruct (store_run (A:=SessionStore.consume_result)) as (now & d & Hd & Hst); [exact Hff|].
  rewrite Hst in Hrun. destruct (Hd db_step HR Hwf) as [Hwd Hled].
  assert (auth_sessions d !! k = Some c) as Hk' by (by apply (le_sessions _ _ Hled)).
  assert (∀ j b, auth_sessions d !! j = Some b → sql_eq (Session.CodeHash b) h = true → b = c) as Hun.
  { intros j b Hj Hb. apply sql_eq_spec in Hb as [_ Hb]. assert (j = k) as ->; [|congruence].
    eapply (wf_sessions_code _ Hwd j k _ _ h); eauto; simpl; by apply nullable_Some. }
  assert (find_row (λ s, andb (sql_eq (Session.CodeHash s) h)
            (bool_decide (Session.ConsumedAt s = None))) (auth_sessions d) = None) as Hnone.
  { apply find_row_None. intros j b Hj. apply andb_false_iff.
    destruct (sql_eq (Session.CodeHash b) h) eqn:Hb; [|by left]. right.
    rewrite (Hun _ _ Hj Hb). by apply bool_decide_eq_false. }
  rewrite Hnone in Hrun.
  rewrite (find_row_unique _ _ k c Hk') in Hrun; [|by apply sql_eq_spec; rewrite Hh|exact Hun].
  simpl in Hrun. injection Hrun as <- <-. eexists. split_and!; [done|done|done|].
  intros x. unfold seen. rewrite (own_steps_app _ _ [(d, d)]) by done.
  rewrite list_elem_of_singleton. by intros ->.
Qed.

Lemma handleCodeReuse_total s sess v c e w r w' :
  handleCodeReuse s sess v c e w = (r, w') → ∃ u, r = Ok u.
Proof.
  destruct r as [u|x]; [by eauto|]. intros H. exfalso. revert H.
  cut (Fails (λ _, False) (handleCodeReuse s sess v c)); [intros Hf H; by apply Hf in H|].
  unfold handleCodeReuse, runReuseHalves, revokeFamilyHalf, denylistFamilyJTIs,
    reportReuseHalfFailure, auditReuse. fails.
Qed.

(** ** Lookups the other services share *)

Lemma ClientStore_answer id e w r w' :
  ClientStore.GetByID id e w = (r, w') → r = Err EFault ∨
  ∃ d, seen w w' (d, d) ∧ r = match clients d !! id with Some c => Ok c | None => Err ErrInvalidClient end.
Proof.
  unfold ClientStore.GetByID, query, store. destruct (fault e (w_tick w)); intros [= <- <-]; [by left|].
  right. eexists. split; [apply seen_after|done].
Qed.

Lemma Resolve_ok v e w r w' :
  ResourceRegistry.Resolve v e w = (Ok r, w') →
  ∃ d, seen w w' (d, d) ∧ ResourceStore.matching v d = [r].
Proof.
  unfold ResourceRegistry.Resolve. intros H. mstep H.
  destruct a as [|r' [|]]; try by apply throw_ok in H. apply ret_ok in H as [<- <-].
  apply query_seen in Hm as (now & d & Hf & Hd & _). exists d. split; [done|].
  case_bool_decide; [done|]. injection Hf as Hf.
  destruct (ResourceStore.matching v d) as [|x [|y l]]; simplify_eq/=. done.
Qed.

(** The issuance row of the token, as [GetByJTI] reads it, is not revoked. *)

Definition issuance_live (d : DB) (jti : string) : Prop :=
  ∀ i, find_row (λ x, sql_eq (Issuance.JTI x) jti) (issuances d) = Some i → Issuance.IsRevoked i = false.

Lemma issuance_live_le d d' k i :
  wf_db d → wf_db d' → db_le d d' → issuances d !! k = Some i → Issuance.JTI i ≠ "" →
  issuance_live d' (Issuance.JTI i) → Issuance.IsRevoked i = false.
Proof.
  intros Hwf Hwf' Hle Hk Hj Hl. destruct (le_issuances _ _ Hle _ _ Hk) as (i' & Hk' & Hi).
  assert (Issuance.JTI i' = Issuance.JTI i) as Hji by (destruct Hi as [->|[_ [now ->]]]; done).
  assert (Issuance.IsRevoked i' = false → Issuance.IsRevoked i = false) as Hr.
  { unfold Issuance.IsRevoked. destruct Hi as [->|[Hn _]]; [done|]. by rewrite Hn. }
  apply Hr, Hl, (find_row_unique _ _ k); [done|by apply sql_eq_spec; rewrite Hji|].
  intros k' j Hk'' Hjj. apply sql_eq_spec in Hjj as [? Hjj].
  enough (k' = k) by congruence.
  eapply (wf_issuances_jti _ Hwf' k' k); [done..| |]; apply nullable_Some; [done|by rewrite Hji].
Qed.
