(* ===== verification/Scenario.v ===== *)
(** * A concrete server

    One client, one user, one mint resource and one pending authorization
    code, with toy primitives: the inputs on which the theorems of the other
    files are exercised.  Everything here evaluates. *)

From S2P Require Import Prelude GoStrings ScopeSet Act Domain Db Effects Crypto Stores Order.

Module Scenario.

Definition verifier : string := "0123456789012345678901234567890123456789abc".

(** The assertion an identity provider issued to the client [svc] for its
    user [bob]. *)

Definition assertion : XAA.IdentityAssertion :=
  XAA.MkAssertion "https://idp" "bob" "https://as" "" "svc" "aj" 2000 900 "read".

(** The opener is a field of its own: a run that opens a token says which. *)

Definition toy_params (opened : list (string * AccessTokenClaims)) : Params :=
  {| sha256_hex := λ s, "#" +:+ s;
     sha256_b64url := λ s, "~" +:+ s;
     hmac_b64 := λ k s, k +:+ "/" +:+ s;
     bcrypt_ok := λ h s, bool_decide (h = "bc:" +:+ s);
     pepper := "";
     url_parse := λ s, Some (MkURL "https" s s "" "" "" s);
     url_string := λ u, url_Scheme u +:+ "://" +:+ url_Host u;
     jws_sign := λ c, "jwt:" +:+ c_JTI c;
     jws_open := λ t, snd <$> find (λ x, bool_decide (x.1 = t)) opened;
     proof_open := λ s, if bool_decide (s = "proof")
                        then Some (MkDPoPClaims "pj" "POST" "https://as/token" 1000 "" "" "thumb") else None;
     jag_parse := λ s, if bool_decide (s = "jag")
                       then Some (MkParsed "oauth-id-jag+jwt" "k1" (Some "https://idp") (Some assertion)) else None;
     jag_verify := λ k s, bool_decide (k = "idp-key") |}.

Definition config : Config :=
  {| AccessTokenExpiry := 3600 * SqlTime.nano;
     RefreshTokenExpiry := 86400 * SqlTime.nano;
     DPoPEnabled := true;
     RequireNonce := false;
     ProofLifetime := 60 * SqlTime.nano;
     Issuer := "https://as";
     RequireScope := false;
     AllowSelfExchange := true;
     MaxChainDepth := 4;
     ExchangeTokenExpiry := 600 * SqlTime.nano;
     ClientCredentialsTokenExpiry := 900 * SqlTime.nano;
     XAATokenExpiry := 900 * SqlTime.nano;
     MaxAssertionAge := 300 * SqlTime.nano;
     RequireResource := false;
     SubjectMode := "strict" |}.

Definition start : Z := 1000 * SqlTime.nano.

Definition env_with (opened : list (string * AccessTokenClaims)) : Env :=
  {| fault := λ _, false;
     clock := λ n, (start + Z.of_nat n)%Z;
     rand := λ n, "r" +:+ SqlTime.digits 4 (Z.of_nat n);
     interfere := λ _ d, d;
     params := toy_params opened;
     Effects.config := config |}.

Definition env : Env := env_with [].

Definition app : Client.Client :=
  {| Client.ID := "app"; Client.SecretHash := "bc:sec"; Client.Name := "App";
     Client.RedirectURIs := ["https://app/cb"];
     Client.GrantTypes := ["authorization_code"; "refresh_token"];
     Client.ResponseTypes := ["code"]; Client.TokenEndpointAuthMethod := "client_secret_post";
     Client.Status := Client.StatusActive; Client.RegistrationSource := Client.SourceAdmin;
     Client.CIMDURL := ""; Client.ApplicationType := ""; Client.Scope := "read write";
     Client.IsAgent := false; Client.AgentDescription := ""; Client.Version := 1;
     Client.IssuedAt := start; Client.UpdatedAt := start |}.

Definition alice : User.User :=
  {| User.ID := "alice"; User.Email := "a@x"; User.Name := "Alice"; User.PasswordHash := "";
     User.IsAdmin := false; User.Status := User.StatusActive; User.IsLocal := true;
     User.ProviderSub := ""; User.Version := 1; User.CreatedAt := start; User.UpdatedAt := start |}.

Definition api : Resource.Resource :=
  {| Resource.ID := "res1"; Resource.Slug := "api"; Resource.DisplayName := "API";
     Resource.URI := "https://api"; Resource.Kind := Resource.BackendMint;
     Resource.BrokerProviderID := "";
     Resource.Scopes := [Resource.MkScopeDef "read" "" ""; Resource.MkScopeDef "write" "" ""];
     Resource.AllowedClientIDs := []; Resource.RuntimeClientIDs := [];
     Resource.AllowedReturnURLs := []; Resource.CreatedAt := start; Resource.UpdatedAt := start |}.

Definition pending : Session.AuthSession :=
  {| Session.ID := "s1"; Session.ClientID := "app"; Session.UserID := "alice";
     Session.RedirectURI := "https://app/cb"; Session.Scope := "read write";
     Session.Resource := "https://api"; Session.State := "st";
     Session.CodeHash := "#code"; Session.CodeChallenge := "~" +:+ verifier;
     Session.CodeChallengeMethod := "S256";
     Session.ExpiresAt := (start + Session.AuthCodeTTL)%Z; Session.ConsumedAt := None;
     Session.CreatedAt := start |}.

Definition db : DB :=
  MkDB {["app" := app]} {["alice" := alice]} {["s1" := pending]} ∅ ∅ ∅ ∅ ∅ ∅ {["res1" := api]} ∅ ∅ ∅ ∅ ∅ ∅ empty_xaa ∅.

Definition world : World := MkWorld db 0 [] [].

Lemma wf : wf_db db.
Proof.
  split; simpl; try done.
  - intros k a. rewrite lookup_singleton_Some. by intros [<- <-].
  - intros k1 k2 a1 a2 v. rewrite !lookup_singleton_Some. naive_solver.
Qed.

Lemma env_rely (S : relation DB) `{!PreOrder S} opened : rely S (env_with opened).
Proof. intros n d. simpl. reflexivity. Qed.

End Scenario.
