(* ===== verification/TokenTheorems.v ===== *)
(** * What the authorization-code and refresh grants guarantee

    Single use of codes and refresh tokens under any interleaving, reuse
    detection, the gates of a successful grant, what a refused one leaves
    behind, and the audit record of a refusal. *)

From S2P Require Import Prelude GoStrings ScopeSet Act Domain Db Effects Crypto Stores Order StoreOrder MintIssuer TokenService TokenProofs Scenario.
Import AgentIdentity MintIssuer TokenService.

(** ** A scenario: redeem, refresh, replay *)

Module Runs.

Definition wired : Wiring := MkWiring true true true true true true true.

Definition code_req : ExchangeCodeRequest :=
  MkExchangeCode "code" Scenario.verifier "app" "sec" "https://app/cb" "" "" "POST" "https://as/token".

Definition run1 := ExchangeCode wired code_req Scenario.env Scenario.world.

Definition issued : TokenResponse :=
  match run1.1 with Ok r => r | Err _ => MkTokenResponse "" "" 0 "" "" end.

Definition refresh_req : RefreshTokenRequest :=
  MkRefreshRequest (resp_RefreshToken issued) "app" "sec" "read" "" "" "POST" "https://as/token".

Definition run2 := RefreshToken wired refresh_req Scenario.env run1.2.
Definition run3 := RefreshToken wired refresh_req Scenario.env run2.2.
Definition run1b := ExchangeCode wired code_req Scenario.env run1.2.

Definition ok {A} (r : res A) : bool := match r with Ok _ => true | Err _ => false end.

Example run1_ok : ok run1.1 = true.
Proof. vm_compute. reflexivity. Qed.

Example run2_ok : ok run2.1 = true.
Proof. vm_compute. reflexivity. Qed.

Example run3_reuse : run3.1 = Err ErrFamilyRevoked.
Proof. vm_compute. reflexivity. Qed.

Example run1b_replay : run1b.1 = Err ErrCodeConsumed.
Proof. vm_compute. reflexivity. Qed.

(** The replayed token, just before its second use. *)

Definition check3 := checkRefresh wired refresh_req Scenario.env run2.2.

Example check3_ok : ok check3.1 = true.
Proof. vm_compute. reflexivity. Qed.

Definition spent_id : string :=
  match check3.1 with Ok x => Refresh.ID (rf_token x) | Err _ => "" end.

Lemma check3_token x w : check3 = (Ok x, w) → spent_id = Refresh.ID (rf_token x).
Proof. unfold spent_id. by intros ->. Qed.

Definition consumed_row (r : option Refresh.RefreshToken) : bool :=
  match r with Some t => Refresh.IsConsumed t | None => false end.

Example spent_row : consumed_row (refresh_tokens (w_db run2.2) !! spent_id) = true.
Proof. vm_compute. reflexivity. Qed.

Lemma spent : ∃ t, refresh_tokens (w_db run2.2) !! spent_id = Some t ∧ Refresh.ConsumedAt t ≠ None.
Proof.
  pose proof spent_row as H. destruct (refresh_tokens _ !! _) as [t|]; [|done].
  exists t. split; [done|]. by apply bool_decide_eq_true in H.
Qed.

End Runs.

Lemma run_ok {A} (r : res A * World) : Runs.ok r.1 = true → ∃ a, r = (Ok a, r.2).
Proof. destruct r as [[a|x] w]; simpl; [eauto|done]. Qed.

Lemma run_err {A} (r : res A * World) x : r.1 = Err x → r = (Err x, r.2).
Proof. destruct r. simpl. by intros ->. Qed.

(** The histories of two consecutive runs, put together. *)

Lemma runs_history {S : relation DB} `{!PreOrder S} {A B} (m1 : M A) (m2 : M B) P e w r1 w1 r2 w2 :
  Traced S P m1 → Traced S P m2 → rely S e →
  m1 e w = (r1, w1) → m2 e w1 = (r2, w2) →
  history S (w_db w) (own_steps w w1 ++ own_steps w1 w2) (w_db w2).
Proof.
  intros T1 T2 HR H1 H2. destruct (T1 _ _ _ _ H1) as (l1 & _ & E1 & _ & _ & _ & Hh1).
  destruct (T2 _ _ _ _ H2) as (l2 & _ & E2 & _ & _ & _ & Hh2).
  rewrite (own_steps_app _ _ _ E1), (own_steps_app _ _ _ E2).
  eapply history_app; eauto.
Qed.

(** ** Single use *)

(** C1: a refresh token is redeemed at most once, whatever the interleaving.
    Two requests present the same token value; their store calls, and those
    of any other requests, are interleaved in one history [g] in which every
    step respects the security order.  If the first answers with a new token
    pair, the second is an error. *)
Theorem refresh_single_use s1 s2 req1 req2 e1 e2 w1 w2 a1 r2 w1' w2' d0 dn g :
  wf_db d0 → history db_step d0 g dn →
  merge (own_steps w1 w1') (own_steps w2 w2') g →
  HashSHA256 (params e1) (RefreshTokenValue req1) = HashSHA256 (params e2) (RefreshTokenValue req2) →
  RefreshToken s1 req1 e1 w1 = (Ok a1, w1') →
  RefreshToken s2 req2 e2 w2 = (r2, w2') →
  ∃ x, r2 = Err x.
Proof.
  intros Hwf Hh Hm Heq H1 H2. destruct r2 as [a2|x]; [|by eauto]. exfalso.
  apply refresh_presents in H1, H2. rewrite Heq in H1.
  by eapply presents_once.
Qed.

Lemma refresh_single_use_witness : ∃ x, Runs.run3.1 = Err x.
Proof.
  destruct (run_ok Runs.run1 Runs.run1_ok) as [a H1].
  destruct (run_ok Runs.run2 Runs.run2_ok) as [b H2].
  pose proof (run_err Runs.run3 _ Runs.run3_reuse) as H3.
  pose proof (Scenario.env_rely db_step []) as HR.
  eapply (refresh_single_use Runs.wired Runs.wired Runs.refresh_req Runs.refresh_req
            Scenario.env Scenario.env Runs.run1.2 Runs.run2.2 b Runs.run3.1 Runs.run2.2 Runs.run3.2
            (w_db Runs.run1.2)).
  - exact (proj1 (traced_db _ _ _ _ _ (traced_ExchangeCode _ _) H1 HR Scenario.wf)).
  - exact (runs_history _ _ _ _ _ _ _ _ _ (traced_RefreshToken _ _) (traced_RefreshToken _ _) HR H2 H3).
  - apply merge_app.
  - reflexivity.
  - exact H2.
  - apply surjective_pairing.
Defined.

(** C2: an authorization code is redeemed at most once, whatever the
    interleaving: of two requests that present the same code, at most one is
    answered with tokens. *)
Theorem code_single_use s1 s2 req1 req2 e1 e2 w1 w2 a1 r2 w1' w2' d0 dn g :
  wf_db d0 → history db_step d0 g dn →
  merge (own_steps w1 w1') (own_steps w2 w2') g →
  HashSHA256 (params e1) (Code req1) = HashSHA256 (params e2) (Code req2) →
  ExchangeCode s1 req1 e1 w1 = (Ok a1, w1') →
  ExchangeCode s2 req2 e2 w2 = (r2, w2') →
  ∃ x, r2 = Err x.
Proof.
  intros Hwf Hh Hm Heq H1 H2. destruct r2 as [a2|x]; [|by eauto]. exfalso.
  apply code_presents in H1 as (x & Hx & Hcx), H2 as (y & Hy & Hcy). rewrite Heq in Hcx.
  by eapply (codes_once _ _ _ _ _ _ x y).
Qed.

Lemma code_single_use_witness : ∃ x, Runs.run1b.1 = Err x.
Proof.
  destruct (run_ok Runs.run1 Runs.run1_ok) as [a H1].
  pose proof (run_err Runs.run1b _ Runs.run1b_replay) as H2.
  pose proof (Scenario.env_rely db_step []) as HR.
  eapply (code_single_use Runs.wired Runs.wired Runs.code_req Runs.code_req
            Scenario.env Scenario.env Scenario.world Runs.run1.2 a Runs.run1b.1 Runs.run1.2 Runs.run1b.2
            Scenario.db).
  - exact Scenario.wf.
  - exact (runs_history _ _ _ _ _ _ _ _ _ (traced_ExchangeCode _ _) (traced_ExchangeCode _ _) HR H1 H2).
  - apply merge_app.
  - reflexivity.
  - exact H1.
  - apply surjective_pairing.
Defined.

(** ** The security order *)

(** Whatever the request, the failures and the other requests, every
    store call of the two grants keeps the keys, UNIQUE and FOREIGN KEY
    constraints and only moves the tables forward: no revoked family, consumed
    code or token, denylisted jti or revoked issuance comes back. *)
Theorem grants_respect_order s :
  (∀ req, Traced db_step (λ _, True) (ExchangeCode s req)) ∧
  (∀ req, Traced db_step (λ _, True) (RefreshToken s req)).
Proof. split; intros req; [apply traced_ExchangeCode|apply traced_RefreshToken]. Qed.

(** ** Refusals *)

(** A refresh refused because of the client, its grant types, the scope or
    the resource changes nothing: every store call it made was a read, so the
    refresh token is not spent. *)
Theorem refresh_refusal_spends_nothing s req e w x w' :
  RefreshToken s req e w = (Err x, w') → refusal x →
  ∀ st, seen w w' st → st.1 = st.2.
Proof.
  intros H Hx st Hst. unfold RefreshToken, denied_on_error in H.
  apply bind_err in H as [H|(r & w1 & H1 & H)]; [by apply try_not_err in H|].
  apply try_ok in H1. destruct r as [a|y]; [done|].
  apply bind_err in H as [H|(u & w2 & H2 & H)]; [done|]. injection H as -> ->.
  assert (seen w w1 st) as Hst1.
  { unfold recordDenied, record_audit in H2. injection H2 as _ <-. unfold seen, own_steps in *.
    by destruct (has_audit s). }
  unfold refreshToken in H1. apply bind_err in H1 as [H1|(c & w3 & H1 & H3)].
  - exact (traced_seen (S:=eq) (P:=λ _, True) _ _ _ _ _ _ (traced_checkRefresh s req) H1 Hst1).
  - exfalso. apply bind_err in H3 as [H3|(v & w4 & H3 & H4)].
    + by apply fails_consumeOrRevokeFamily in H3.
    + by apply fails_issueRefreshed in H4.
Qed.

Lemma refresh_refusal_spends_nothing_witness :
  let r := RefreshToken Runs.wired (MkRefreshRequest (resp_RefreshToken Runs.issued) "app" "bad" "" "" "" "" "")
             Scenario.env Runs.run1.2 in
  r.1 = Err ErrInvalidClient ∧ ∀ st, seen Runs.run1.2 r.2 st → st.1 = st.2.
Proof.
  split; [vm_compute; reflexivity|].
  eapply (refresh_refusal_spends_nothing Runs.wired
            (MkRefreshRequest (resp_RefreshToken Runs.issued) "app" "bad" "" "" "" "" "") Scenario.env
            Runs.run1.2 ErrInvalidClient); [apply run_err; vm_compute; reflexivity|].
  unfold refusal. set_solver.
Defined.

(** The events of a handler followed by the record of its refusal. *)

Definition answered (a : Audit.Action) (cid : string) {A} (r : res A) (w w' : World) : Prop :=
  ∃ evs, Forall not_denial evs ∧
    w_audit w' = w_audit w ++ evs ++
      match r with
      | Ok _ => []
      | Err x => [Audit.NewEvent a cid cid "" ("reason=" +:+ ErrorCode x)]
      end.

Lemma denied_answered s a cid {A} (m : M A) e w r w' :
  has_audit s = true → Traced db_step not_denial m →
  denied_on_error s a cid m e w = (r, w') → answered a cid r w w'.
Proof.
  intros Ha Hm H. unfold denied_on_error in H.
  destruct (m e w) as [r1 w1] eqn:H1.
  rewrite (bind_step _ _ _ _ _ _ (try_run _ _ _ _ _ H1)) in H.
  destruct (Hm _ _ _ _ H1) as (_ & evs & _ & Hev & _ & Hf & _).
  exists evs. split; [done|]. destruct r1 as [v|x].
  - injection H as <- <-. by rewrite app_nil_r.
  - unfold recordDenied, record_audit, mbind, M_bind, throw in H. rewrite Ha in H.
    injection H as <- <-. simpl. by rewrite Hev, app_assoc.
Qed.

(** The audit trail and the answer agree: a grant that answers an error
    records exactly one denial, last, with the code of that error, and a grant
    that answers tokens records none. *)
Theorem denial_recorded s e w :
  has_audit s = true →
  (∀ req r w', ExchangeCode s req e w = (r, w') →
     answered Audit.ActionTokenIssueDenied (ec_ClientID req) r w w') ∧
  (∀ req r w', RefreshToken s req e w = (r, w') →
     answered Audit.ActionTokenRefreshDenied (rt_ClientID req) r w w').
Proof.
  intros Ha. split; intros req r w' H; eapply denied_answered; eauto.
  - apply traced_exchangeCode.
  - apply traced_refreshToken.
Qed.

(** ** Gates *)



(** What a refresh hands out: an access token signed for the family's user
    and client with the resolved scope and the family's resource, and a new
    refresh token stored in the same family. *)
Theorem refresh_issues s req e w resp w' :
  RefreshToken s req e w = (Ok resp, w') → rely db_step e → wf_db (w_db w) →
  ∃ x jkt, refreshScope (rt_Scope req) (Family.Scope (rf_family x)) (rf_client x) = inl (resp_Scope resp) ∧
    signed_for e (resp_AccessToken resp) (Family.UserID (rf_family x)) (rt_ClientID req)
      (resp_Scope resp) (Family.Resource (rf_family x)) jkt None ∧
    Refresh.FamilyID (rf_token x) = Family.ID (rf_family x) ∧
    stored_refresh (params e) (w_db w') (resp_RefreshToken resp) (Family.ID (rf_family x)).
Proof.
  intros H HR Hwf. apply denied_ok in H. unfold refreshToken in H.
  mstep H. mstep H. db_after not_denial Hm using HR Hwf as Hwf1 Hle1.
  db_after not_denial Hm0 using HR Hwf1 as Hwf2 Hle2.
  destruct (issueRefreshed_ok _ _ _ _ _ _ _ H HR Hwf2) as (_ & (jkt & Hsig) & Hsc & _ & Hst).
  pose proof (checkRefresh_ok _ _ _ _ _ _ Hm) as Hg. exists a, jkt. rewrite Hsc.
  destruct (rg_family _ _ _ _ _ Hg) as (d & Hd & Hf & _).
  destruct (seen_between _ _ _ _ _ _ (traced_checkRefresh (P:=not_denial) s req) Hm HR Hwf Hd) as (Hwd & _).
  split_and!; [by apply (rg_scope _ _ _ _ _ Hg)|by rewrite (rg_owner _ _ _ _ _ Hg)| |done].
  symmetry. by apply (wf_families_key _ Hwd).
Qed.

Lemma refresh_issues_witness :
  ∃ resp fid, Runs.run2 = (Ok resp, Runs.run2.2) ∧
    stored_refresh (params Scenario.env) (w_db Runs.run2.2) (resp_RefreshToken resp) fid.
Proof.
  destruct (run_ok Runs.run1 Runs.run1_ok) as [a H1].
  destruct (run_ok Runs.run2 Runs.run2_ok) as [b H2].
  pose proof (Scenario.env_rely db_step []) as HR.
  destruct (traced_db _ _ _ _ _ (traced_ExchangeCode _ _) H1 HR Scenario.wf) as [Hwf _].
  destruct (refresh_issues Runs.wired Runs.refresh_req Scenario.env Runs.run1.2 b Runs.run2.2 H2 HR Hwf)
    as (x & jkt & _ & _ & _ & Hst).
  exists b, (Family.ID (rf_family x)). split; [exact H2|exact Hst].
Defined.

(** C6: a code exchange answered with tokens passed every check: the code was
    stored and unconsumed at the step that consumed it, unexpired, issued to
    this client for this redirect URI, the client authenticated, the PKCE
    verifier matches, and the subject is active; the access token is signed for
    the session's user, client, scope and resource, and the family records the
    authorization it came from. *)
Theorem exchange_gates_hold s req e w resp w' :
  ExchangeCode s req e w = (Ok resp, w') → rely db_step e → wf_db (w_db w) →
  ∃ d d' k c sess cl fid now jkt,
    seen w w' (d, d') ∧ auth_sessions d !! k = Some c ∧ Session.ConsumedAt c = None ∧
    Session.CodeHash c = HashSHA256 (params e) (Code req) ∧
    auth_sessions d' !! Session.ID c = Some sess ∧ sess = Session.with_consumed c (Session.ConsumedAt sess) ∧
    code_gates s req e w w' sess cl ∧
    signed_for e (resp_AccessToken resp) (Session.UserID c) (Session.ClientID c)
      (Session.Scope c) (Session.Resource c) jkt None ∧
    stored_family (w_db w')
      (Family.MkFamily fid (Session.ClientID c) (Session.UserID c) (Session.Scope c)
         (Session.Resource c) Family.FamilyActive now None (Session.ID c)) ∧
    if hasGrantType (Client.GrantTypes cl) "refresh_token"
    then stored_refresh (params e) (w_db w') (resp_RefreshToken resp) fid
    else resp_RefreshToken resp = "".
Proof.
  intros H HR Hwf. apply denied_ok, exchangeCode_ok in H as (cs & ca & w1 & w2 & H1 & H2 & H3 & ? & ? & ?).
  db_after not_denial H1 using HR Hwf as Hwf1 Hle1. db_after not_denial H2 using HR Hwf1 as Hwf2 Hle2.
  destruct (consumeCode_ok _ _ _ _ _ _ H1) as (d & d' & k & c & n & Hs & Hk & Hh & _ & Hc & Hr & Hd' & _).
  destruct (checkCode_ok _ _ _ _ _ _ _ H2) as [Hl Hci Hre (dc & Hdc & Hcl) Hp Hsub].
  destruct (issueForCode_ok _ _ _ _ _ _ _ _ _ _ H3 HR Hwf2) as (fid & now & jkt & Hsig & _ & Hf & Hrt).
  exists d, d', k, c, cs.2, ca.1, fid, now, jkt. split_and!; try done.
  - seen_tac.
  - by rewrite Hr.
  - split; try done; [exists dc; split; [seen_tac|done]|].
    eapply subject_active_sub; [| | |exact Hsub]; chain_ext.
  - by rewrite Hr in Hsig.
  - by rewrite Hr in Hf.
Qed.

Lemma exchange_gates_hold_witness :
  ∃ c fid now, stored_family (w_db Runs.run1.2)
    (Family.MkFamily fid (Session.ClientID c) (Session.UserID c) (Session.Scope c)
       (Session.Resource c) Family.FamilyActive now None (Session.ID c)).
Proof.
  destruct (run_ok Runs.run1 Runs.run1_ok) as [a H1].
  destruct (exchange_gates_hold Runs.wired Runs.code_req Scenario.env Scenario.world a Runs.run1.2 H1
              (Scenario.env_rely db_step []) Scenario.wf)
    as (d & d' & k & c & sess & cl & fid & now & jkt & _ & _ & _ & _ & _ & _ & _ & _ & Hf & _).
  exists c, fid, now. exact Hf.
Defined.

(** ** Reuse detection *)

(** C35: a consumed refresh token presented by its authenticated client burns
    the whole family: when no store call fails, the answer is
    [ErrFamilyRevoked], the family is revoked, and every access token tracked
    for it is on the denylist. *)
Theorem refresh_reuse_revokes s req e w x w1 t :
  fault_free e → rely db_step e → wf_db (w_db w) →
  checkRefresh s req e w = (Ok x, w1) →
  refresh_tokens (w_db w) !! Refresh.ID (rf_token x) = Some t → Refresh.ConsumedAt t ≠ None →
  ∃ w', RefreshToken s req e w = (Err ErrFamilyRevoked, w') ∧
    family_revoked (w_db w') (Refresh.FamilyID (rf_token x)) ∧
    (has_revocation s = true → family_denylisted (w_db w1) (w_db w') (Refresh.FamilyID (rf_token x))).
Proof.
  intros Hff HR Hwf Hc Ht Hcons. db_after not_denial Hc using HR Hwf as Hwf1 Hle1.
  destruct (le_refresh _ _ Hle1 _ _ Ht) as (t1 & Ht1 & [->|[? _]]); [|done].
  destruct (rg_family _ _ _ _ _ (checkRefresh_ok _ _ _ _ _ _ Hc)) as (df & Hdf & Hf & _).
  destruct (seen_between _ _ _ _ _ _ (traced_checkRefresh (P:=not_denial) s req) Hc HR Hwf Hdf)
    as (_ & _ & _ & _ & Hle).
  destruct (consume_reused s (rf_token x) e w1 t Hff HR Hwf1 Ht1 Hcons) as (w' & Hrun & Hrev & Hden).
  { destruct (le_families _ _ Hle _ _ Hf) as (f' & Hf' & _). eauto. }
  assert (refreshToken s req e w = (Err ErrFamilyRevoked, w')) as Hr.
  { unfold refreshToken. rewrite (bind_step _ _ _ _ _ _ Hc). by apply bind_stop. }
  destruct (denied_err s Audit.ActionTokenRefreshDenied (rt_ClientID req) _ _ _ _ _ Hr) as (w2 & Hd & Hw2 & _).
  exists w2. rewrite Hw2. eauto.
Qed.

Lemma refresh_reuse_revokes_witness :
  ∃ x w', RefreshToken Runs.wired Runs.refresh_req Scenario.env Runs.run2.2 = (Err ErrFamilyRevoked, w') ∧
    family_revoked (w_db w') (Refresh.FamilyID (rf_token x)).
Proof.
  destruct (run_ok Runs.run1 Runs.run1_ok) as [a H1].
  destruct (run_ok Runs.run2 Runs.run2_ok) as [b H2].
  pose proof (Scenario.env_rely db_step []) as HR.
  destruct (traced_db _ _ _ _ _ (traced_ExchangeCode _ _) H1 HR Scenario.wf) as [Hwf _].
  destruct (traced_db _ _ _ _ _ (traced_RefreshToken _ _) H2 HR Hwf) as [Hwf2 _].
  destruct (run_ok Runs.check3 Runs.check3_ok) as [x Hx].
  destruct Runs.spent as (t & Ht & Hc).
  destruct (refresh_reuse_revokes Runs.wired Runs.refresh_req Scenario.env Runs.run2.2 x Runs.check3.2 t
              (λ _, eq_refl) HR Hwf2 Hx) as (w' & Hr & Hrev & _).
  - rewrite <-(Runs.check3_token x _ Hx). exact Ht.
  - exact Hc.
  - exists x, w'. split; [exact Hr|exact Hrev].
Defined.

(** A redeemed code presented again always gets [ErrCodeConsumed].  A
    replayer with the PKCE verifier and the client id of the session burns the
    family the code was exchanged for (revoked, access tokens denylisted); any
    other replayer changes nothing. *)
Theorem code_replay_response s req e w k c :
  fault_free e → rely db_step e → wf_db (w_db w) →
  auth_sessions (w_db w) !! k = Some c → Session.ConsumedAt c ≠ None →
  Session.CodeHash c = HashSHA256 (params e) (Code req) →
  Session.CodeHash c ≠ "" → Session.ID c ≠ "" →
  ∃ w', ExchangeCode s req e w = (Err ErrCodeConsumed, w') ∧
    if credentialed (params e) c (CodeVerifier req) (ec_ClientID req)
    then ∀ fid f, token_families (w_db w) !! fid = Some f → Family.AuthSessionID f = Session.ID c →
           family_revoked (w_db w') fid ∧
           (has_revocation s = true → family_denylisted (w_db w) (w_db w') fid)
    else ∀ st, seen w w' st → st.1 = st.2.
Proof.
  intros Hff HR Hwf Hk Hc Hh Hne Hid.
  set (w0 := after w (w_db w) []).
  destruct (ConsumeByCodeHash_replay _ e w0 k c Hff HR Hwf Hne Hk eq_refl Hc) as (w1 & Hrun & Hwf1 & Hle1 & Hro).
  destruct (handleCodeReuse s c (CodeVerifier req) (ec_ClientID req) e w1) as [r w2] eqn:Hreuse.
  assert (exchangeCode s req e w = (Err ErrCodeConsumed, w2)) as Hex.
  { unfold exchangeCode. apply bind_stop. unfold consumeCode, tokenConfig.
    rewrite (bind_step _ _ e w _ w0 (provider_run _ _ _ Hff)).
    rewrite (bind_step (ask params) _ e w0 (params e) w0) by done. rewrite <-Hh.
    rewrite (bind_step _ _ _ _ _ _ Hrun). destruct (handleCodeReuse_total _ _ _ _ _ _ _ _ Hreuse) as [u ->].
    by rewrite (bind_step _ _ _ _ _ _ Hreuse). }
  destruct (denied_err s Audit.ActionTokenIssueDenied (ec_ClientID req) _ _ _ _ _ Hex) as (w' & Hd & Hw' & Hsteps).
  exists w'. split; [exact Hd|]. destruct (credentialed _ _ _ _) eqn:Hcr.
  - intros fid f Hf Hs. destruct (le_families _ _ Hle1 _ _ Hf) as (f1 & Hf1 & Hle).
    assert (Family.AuthSessionID f1 = Session.ID c) as Hs1 by (by destruct Hle as [->|[_ [n ->]]]).
    destruct (handleCodeReuse_revokes s c _ _ e w1 fid f1 Hff HR Hwf1 Hcr Hid Hf1 Hs1) as (w3 & Hr & Hrev & Hden).
    rewrite Hreuse in Hr. injection Hr as _ <-. rewrite Hw'. split; [done|].
    intros Hh' j y Hj. eapply (Hden Hh'). destruct (le_tracked _ _ Hle1 _ _ Hj) as (z & Hz & <-). exact Hz.
  - intros st Hst. apply Hro.
    pose proof (handleCodeReuse_silent _ _ _ _ _ _ _ _ Hcr Hreuse) as Hnone.
    assert (extends w0 w1) by (by eapply traced_extends; [apply (traced_ConsumeByCodeHash (P:=not_denial))|]).
    assert (extends w1 w2) by (by eapply traced_extends; [apply traced_handleCodeReuse|]).
    unfold seen in *. rewrite <-(own_steps_quiet w0 w1 w2); [|done|done|exact Hnone].
    unfold own_steps in *. by rewrite Hsteps in Hst; simpl in *; rewrite app_nil_r.
Qed.

Lemma code_replay_response_witness :
  ∃ w', ExchangeCode Runs.wired Runs.code_req Scenario.env Runs.run1.2 = (Err ErrCodeConsumed, w') ∧
    ∀ fid f, token_families (w_db Runs.run1.2) !! fid = Some f → Family.AuthSessionID f = "s1" →
      family_revoked (w_db w') fid.
Proof.
  destruct (run_ok Runs.run1 Runs.run1_ok) as [a H1].
  pose proof (Scenario.env_rely db_step []) as HR.
  destruct (traced_db _ _ _ _ _ (traced_ExchangeCode _ _) H1 HR Scenario.wf) as [Hwf _].
  destruct (code_replay_response Runs.wired Runs.code_req Scenario.env Runs.run1.2 "s1"
              (Session.with_consumed Scenario.pending (Some (Scenario.start + 1)%Z))
              (λ _, eq_refl) HR Hwf) as (w' & Hr & Hrev).
  - vm_compute. reflexivity.
  - discriminate.
  - reflexivity.
  - discriminate.
  - discriminate.
  - exists w'. split; [exact Hr|]. intros fid f Hf Hs. exact (proj1 (Hrev fid f Hf Hs)).
Defined.

(** ** Atomicity *)

(** [no_new_tokens d d']: no family and no refresh token was added. *)

Definition no_new_tokens (d d' : DB) : Prop :=
  (∀ k, token_families d !! k = None → token_families d' !! k = None) ∧
  (∀ k, refresh_tokens d !! k = None → refresh_tokens d' !! k = None).

#[export] Instance no_new_tokens_preorder : PreOrder no_new_tokens.
Proof. split; [by split|]. intros d1 d2 d3 [] []. split; eauto. Qed.

Section atomic.
Context {P : Audit.Event → Prop}.

Lemma no_new_store {A} (f : Z → DB → res A * DB) :
  (∀ t d, token_families (f t d).2 = token_families d ∧ refresh_tokens (f t d).2 = refresh_tokens d) →
  Traced no_new_tokens P (store f).
Proof. intros Hf. apply traced_store. intros t d. destruct (Hf t d) as [H1 H2]. split; by rewrite ?H1, ?H2. Qed.

Lemma no_new_RevokeFamily id : Traced no_new_tokens P (TokenStore.RevokeFamily id).
Proof.
  apply traced_store. intros t d. simpl. unfold TokenStore.revoke_family_tables, TokenStore.revoke_family_row.
  split; intros k Hk; simpl.
  - repeat case_match; simpl; try done. rewrite lookup_insert_ne; [done|]. congruence.
  - by rewrite lookup_update_rows, Hk.
Qed.

Ltac no_new := repeat (case_match; simpl); done.

Lemma no_new_RevokeByFamily id : Traced no_new_tokens P (RevocationStore.RevokeByFamily id).
Proof. by apply no_new_store. Qed.

Lemma no_new_ConsumeByCodeHash h : Traced no_new_tokens P (SessionStore.ConsumeByCodeHash h).
Proof. apply no_new_store. intros. no_new. Qed.

Lemma no_new_ConsumeJTI j x : Traced no_new_tokens P (DPoPNonceStore.ConsumeJTI j x).
Proof. apply no_new_store. intros. no_new. Qed.

Lemma no_new_IssuanceInsert i : Traced no_new_tokens P (IssuanceStore.Insert i).
Proof. apply no_new_store. intros. no_new. Qed.

Hint Resolve no_new_RevokeFamily no_new_RevokeByFamily no_new_ConsumeByCodeHash no_new_ConsumeJTI
  no_new_IssuanceInsert : guar_db.

Lemma no_new_proof_thumbprint s p m u : Traced no_new_tokens P (proof_thumbprint s p m u).
Proof. unfold proof_thumbprint, validateDPoP. traced. Qed.

Lemma no_new_Issue req : Traced no_new_tokens P (Issue req).
Proof. unfold Issue, SignAccessToken. traced. Qed.

End atomic.

#[export] Hint Resolve no_new_RevokeFamily no_new_RevokeByFamily no_new_ConsumeByCodeHash
  no_new_ConsumeJTI no_new_IssuanceInsert no_new_proof_thumbprint no_new_Issue : guar_db.

Lemma no_new_consumeCode s req : Traced no_new_tokens (λ _, True) (consumeCode s req).
Proof.
  unfold consumeCode, handleCodeReuse, runReuseHalves, revokeFamilyHalf, denylistFamilyJTIs,
    reportReuseHalfFailure, auditReuse. traced; done.
Qed.

Lemma err_issueForCode s req cfg sess c a :
  has_tx s = true → ErrTraced no_new_tokens (issueForCode s req cfg sess c a).
Proof.
  intros Htx. unfold issueForCode. rewrite Htx.
  do 5 (eapply (err_traced_bind (P:=λ _, True)); [traced|intros ?; cbv zeta]).
  intros e w x w' H. apply bind_err in H as [H|(p & w1 & _ & H)]; [exact (err_traced_tx _ _ _ _ _ H)|].
  unfold record_audit, mbind, M_bind, mret, M_ret in H. done.
Qed.

(** With transactions wired, a code exchange that answers an error added
    no token family and no refresh token: a failure while the refresh token is
    created takes the family with it. *)
Theorem failed_exchange_adds_no_tokens s req e w x w' :
  has_tx s = true → ExchangeCode s req e w = (Err x, w') →
  ∀ st, seen w w' st → no_new_tokens st.1 st.2.
Proof.
  intros Htx H st Hst. assert (ErrTraced no_new_tokens (exchangeCode s req)) as He.
  { unfold exchangeCode. eapply (err_traced_bind (P:=λ _, True)); [apply no_new_consumeCode|intros cs].
    eapply (err_traced_bind (P:=λ _, True)); [apply (traced_checkCode _)|intros ca]. by apply err_issueForCode. }
  destruct (exchangeCode s req e w) as [[r|y] w1] eqn:Hr.
  { unfold ExchangeCode, denied_on_error in H.
    by rewrite (bind_step _ _ _ _ _ _ (try_run _ _ _ _ _ Hr)) in H. }
  destruct (denied_err s Audit.ActionTokenIssueDenied (ec_ClientID req) _ _ _ _ _ Hr) as (w2 & Hd & _ & Hs).
  unfold ExchangeCode in H. rewrite Hd in H. injection H as -> ->.
  destruct (He _ _ _ _ Hr) as (l & Hl & Hf). unfold seen in Hst.
  rewrite (own_steps_app w w' l) in Hst by (by rewrite Hs). by eapply Forall_forall in Hf.
Qed.

Lemma failed_exchange_adds_no_tokens_witness :
  Runs.run1b.1 = Err ErrCodeConsumed ∧ ∀ st, seen Runs.run1.2 Runs.run1b.2 st → no_new_tokens st.1 st.2.
Proof.
  split; [exact Runs.run1b_replay|].
  exact (failed_exchange_adds_no_tokens Runs.wired Runs.code_req Scenario.env Runs.run1.2 _ Runs.run1b.2
           eq_refl (run_err _ _ Runs.run1b_replay)).
Defined.

(** ** Scopes of a refreshed token *)

Lemma Parse_narrowed fam c :
  Scope.Parse (Scope.to_String (Scope.Intersect (Scope.Parse fam) c)) = Scope.Intersect (Scope.Parse fam) c.
Proof.
  apply Scope.Parse_to_String. rewrite Scope.Intersect_spec. intros x Hx.
  apply (Scope.Parse_wf fam). set_solver.
Qed.

(** The scope of a refreshed token.  A request is granted exactly, and only
    within the family's scope and the client's ceiling; without a request the
    token carries the family's scope cut to the ceiling, never nothing when
    something was cut; an empty ceiling does not bound. *)
Theorem refreshScope_correct requested familyScope c :
  let granted := Scope.Parse familyScope in
  let ceiling := Scope.Parse (Client.Scope c) in
  match refreshScope requested familyScope c with
  | inl sc =>
      Scope.Parse sc ⊆ granted ∧ (ceiling ≠ ∅ → Scope.Parse sc ⊆ ceiling) ∧
      (requested ≠ "" → Scope.Parse sc = Scope.Parse requested) ∧
      (requested = "" → Scope.Parse sc = (if decide (ceiling = ∅) then granted else granted ∩ ceiling) ∧
                        (granted ≠ ∅ → Scope.Parse sc ≠ ∅))
  | inr x =>
      x = ErrInvalidScope ∧
      (requested ≠ "" → ¬ (Scope.Parse requested ⊆ granted) ∨
                        (ceiling ≠ ∅ ∧ ¬ (Scope.Parse requested ⊆ ceiling))) ∧
      (requested = "" → ceiling ≠ ∅ ∧ granted ≠ ∅ ∧ granted ∩ ceiling = ∅)
  end.
Proof.
  unfold refreshScope, scopeDenialError. set (G := Scope.Parse familyScope). set (C := Scope.Parse (Client.Scope c)).
  case_bool_decide as Hreq.
  - destruct (Scope.IsSubset (Scope.Parse requested) G) eqn:Hsub; simpl.
    + apply Scope.IsSubset_spec in Hsub.
      destruct (Scope.IsEmpty C) eqn:Hemp; simpl; [apply Scope.IsEmpty_spec in Hemp|apply Scope.IsEmpty_false in Hemp].
      * rewrite Scope.Parse_to_String by apply Scope.Parse_wf. by split_and!.
      * destruct (Scope.IsSubset (Scope.Parse requested) C) eqn:Hc; simpl.
        -- apply Scope.IsSubset_spec in Hc. rewrite Scope.Parse_to_String by apply Scope.Parse_wf. by split_and!.
        -- apply Scope.IsSubset_false in Hc. split_and!; [done| |done]. intros _. right. split; [done|set_solver].
    + apply Scope.IsSubset_false in Hsub. split_and!; [done| |done]. intros _. left. set_solver.
  - unbool. destruct (Scope.IsEmpty C) eqn:Hemp; simpl.
    + apply Scope.IsEmpty_spec in Hemp. fold G. rewrite decide_True by done. by split_and!.
    + apply Scope.IsEmpty_false in Hemp. destruct (Scope.IsSubset G C) eqn:Hc; simpl.
      * apply Scope.IsSubset_spec in Hc. fold G. rewrite decide_False by done.
        split_and!; try done. intros _. split; [set_solver|done].
      * apply Scope.IsSubset_false in Hc.
        pose proof (Scope.Intersect_spec G C) as Hi.
        destruct (Scope.IsEmpty (Scope.Intersect G C)) eqn:He; simpl.
        -- apply Scope.IsEmpty_spec in He. rewrite Hi in He. split_and!; [done|done|].
           intros _. split_and!; [done| |done]. set_solver.
        -- apply Scope.IsEmpty_false in He. rewrite Hi in He.
           assert (Scope.Parse (Scope.to_String (Scope.Intersect G C)) = G ∩ C) as ->.
           { unfold G. rewrite Parse_narrowed. apply Scope.Intersect_spec. }
           rewrite decide_False by done. split_and!;
             [apply intersection_subseteq_l|intros _; apply intersection_subseteq_r|done|by intros _].
Qed.

(** ** DPoP proofs *)

Lemma validateDPoP_ok s proof m u h e w jkt w' :
  validateDPoP s proof m u h e w = (Ok jkt, w') → has_dpop s = true → DPoPEnabled (config e) = true →
  ∃ c st n, proof_open (params e) proof = Some c ∧ jkt = d_JKT c ∧
    (Z.abs (clock e n - d_IAT c * SqlTime.nano) <= ProofLifetime (config e))%Z ∧
    seen w w' st ∧ dpop_jtis st.1 !! d_JTI c = None ∧ is_Some (dpop_jtis st.2 !! d_JTI c).
Proof.
  unfold validateDPoP. intros H Hd Hen. rewrite Hd in H. simpl in H. mstep H. rewrite Hen in H. simpl in H.
  mstep H. injection Hm as <- <-. mstep H. injection Hm as <- <-.
  destruct (ValidateProof _ _ _ _ _ _ _ _) as [c|x] eqn:Hv; [|by apply throw_ok in H].
  apply ValidateProof_window in Hv as [Hopen Hw]. mstep H. mstep H. mstep H.
  apply ret_ok in H as [<- <-]. ext_all (λ _ : Audit.Event, True).
  assert (extends w (after (after w (w_db w) []) (w_db w) [])) by (by exists []; simpl; rewrite !app_nil_r).
  pose proof Hm1 as Hc. unfold DPoPNonceStore.ConsumeJTI in Hc.
  apply store_seen in Hc as (n & d & d' & Hdd & Hs & _).
  destruct (dpop_jtis d !! d_JTI c) eqn:Hj; [done|]. injection Hdd as _ Hd'.
  exists c, (d, d'). eexists. split_and!; [done|done|exact Hw|seen_tac|done|].
  simpl. rewrite <-Hd'. simpl. rewrite lookup_insert_eq. eauto.
Qed.

(** A DPoP proof is accepted at most once, whatever the interleaving: of
    two requests whose proofs carry the same jti, at most one is accepted
    (purges of the replay cache aside). *)
Theorem dpop_proof_single_use s1 s2 p1 p2 m1 u1 h1 m2 u2 h2 e1 e2 w1 w2 k1 r2 w1' w2' c1 c2 d0 dn g :
  has_dpop s1 = true → has_dpop s2 = true →
  DPoPEnabled (config e1) = true → DPoPEnabled (config e2) = true →
  proof_open (params e1) p1 = Some c1 → proof_open (params e2) p2 = Some c2 → d_JTI c1 = d_JTI c2 →
  wf_db d0 → history db_step d0 g dn → merge (own_steps w1 w1') (own_steps w2 w2') g →
  validateDPoP s1 p1 m1 u1 h1 e1 w1 = (Ok k1, w1') →
  validateDPoP s2 p2 m2 u2 h2 e2 w2 = (r2, w2') →
  ∃ x, r2 = Err x.
Proof.
  intros Hd1 Hd2 He1 He2 Ho1 Ho2 Hj Hwf Hh Hm H1 H2. destruct r2 as [k2|x]; [exfalso|by eauto].
  apply validateDPoP_ok in H1 as (c & x & n & Hc & _ & _ & Hx & Hx1 & Hx2); [|done|done].
  apply validateDPoP_ok in H2 as (c' & y & n' & Hc' & _ & _ & Hy & Hy1 & Hy2); [|done|done].
  simplify_eq. rewrite <-Hj in Hy1, Hy2.
  eapply (claimed_once dpop_jtis (d_JTI c1) d0 dn g _ _ x y); eauto. by intros ?? [].
Qed.

Lemma dpop_proof_single_use_witness :
  ∃ x, (validateDPoP Runs.wired "proof" "POST" "https://as/token" "" Scenario.env
          (validateDPoP Runs.wired "proof" "POST" "https://as/token" "" Scenario.env Scenario.world).2).1 = Err x.
Proof.
  set (m := validateDPoP Runs.wired "proof" "POST" "https://as/token" "").
  assert (traced : Traced db_step not_denial m).
  { unfold m, validateDPoP. traced. }
  set (w1 := (m Scenario.env Scenario.world).2).
  assert (m Scenario.env Scenario.world = (Ok "thumb", w1)) as H1 by (vm_compute; reflexivity).
  pose proof (Scenario.env_rely db_step []) as HR.
  eapply (dpop_proof_single_use Runs.wired Runs.wired "proof" "proof" _ _ _ _ _ _ Scenario.env Scenario.env
            Scenario.world w1 "thumb" _ w1 (m Scenario.env w1).2 _ _ Scenario.db).
  - reflexivity.
  - reflexivity.
  - reflexivity.
  - reflexivity.
  - reflexivity.
  - reflexivity.
  - reflexivity.
  - exact Scenario.wf.
  - exact (runs_history m m _ _ _ _ _ _ _ traced traced HR H1 (surjective_pairing _)).
  - apply merge_app.
  - exact H1.
  - apply surjective_pairing.
Defined.
