(* ===== verification/Fronting.v ===== *)
(** * internal/services/fronting.go: fronting links between resources

    A link [source → target] lets the source resource's runtime exchange
    tokens for the target.  The links must form an acyclic graph whose scope
    maps stay inside the catalogs of both ends.

    [assertNoCycle] is a depth-first search whose neighbours are read from the
    store one node at a time.  Its loop takes fuel; [None] means it ran out.
    On tables that do not change during the search, one more unit of fuel than
    there are links is enough (proved in [FrontingTheorems.v]). *)

From S2P Require Import Prelude GoStrings ScopeSet Act Domain Db Effects Crypto Stores Order StoreOrder.

Module FrontingService.

Section service.
Variable has_audit : bool.

Definition scopeNameSet (scopes : list Resource.ScopeDef) : gset string :=
  list_to_set (Resource.Name <$> scopes).

Definition Get (sourceSlug targetSlug : string) : M Link.FrontingLink :=
  FrontingLinkStore.Get sourceSlug targetSlug.

Definition List (f : FrontingLinkStore.Filter) : M (list Link.FrontingLink) := FrontingLinkStore.List f.

Definition ListForResource (slug : string) : M (list Link.FrontingLink) :=
  FrontingLinkStore.ListForResource slug.

Definition lookupResource (slug : string) : M Resource.Resource :=
  r ← try (ResourceStore.GetBySlug slug);
  match r with
  | Ok res => mret res
  | Err ErrResourceNotFound => throw (EInvalidRequest "slug does not reference an existing resource")
  | Err x => throw x
  end.

(** The entry of the map that is reported depends on Go's iteration order;
    whether one is reported does not. *)

Definition entry_in_catalogs (srcCatalog tgtCatalog : gset string) (e : string * list string) : bool :=
  andb (bool_decide (e.1 ∈ srcCatalog)) (forallb (λ t, bool_decide (t ∈ tgtCatalog)) e.2).

Definition assertScopeMapMembership (m : gmap string (list string)) (source target : Resource.Resource) : M unit :=
  ensure (forallb (entry_in_catalogs (scopeNameSet (Resource.Scopes source))
                     (scopeNameSet (Resource.Scopes target))) (map_to_list m))
    (EInvalidRequest "scope_map entry is not in the catalogs").

(** ** The cycle check *)

(** The edges out of one node: report [source], else push the unvisited. *)

Fixpoint expand (source : string) (edges : list Link.FrontingLink) (visited : gset string)
    (stack : list string) : option (gset string * list string) :=
  match edges with
  | [] => Some (visited, stack)
  | e :: l =>
      if bool_decide (Link.TargetSlug e = source) then None
      else if bool_decide (Link.TargetSlug e ∈ visited) then expand source l visited stack
      else expand source l ({[Link.TargetSlug e]} ∪ visited) (Link.TargetSlug e :: stack)
  end.

(** The stack's top is the head of the list. *)

Fixpoint walk (fuel : nat) (source : string) (visited : gset string) (stack : list string)
    : M (option unit) :=
  match stack with
  | [] => mret (Some tt)
  | node :: rest =>
      match fuel with
      | 0 => mret None
      | S fuel' =>
          out ← FrontingLinkStore.List (FrontingLinkStore.MkFilter node "" 0 0);
          match expand source out visited rest with
          | None => throw ErrFrontingLinkCycle
          | Some (visited', stack') => walk fuel' source visited' stack'
          end
      end
  end.

Definition assertNoCycle (fuel : nat) (sourceSlug targetSlug : string) : M (option unit) :=
  walk fuel sourceSlug {[targetSlug]} [targetSlug].

(** ** Validation *)

Definition check_link (link : Link.FrontingLink) : M unit :=
  match Link.Validate link with
  | Some x => throw x
  | None =>
      source ← lookupResource (Link.SourceSlug link);
      target ← lookupResource (Link.TargetSlug link);
      _ ← ensure (Resource.IsMint source) (EInvalidRequest "source resource must have backend_kind=mint");
      _ ← ensure (orb (Resource.IsMint target) (Resource.IsBroker target))
            (EInvalidRequest "target resource has unsupported backend_kind");
      _ ← assertScopeMapMembership (Link.ScopeMap link) source target;
      ensure (negb (andb (Resource.IsBroker target) (bool_decide (Resource.BrokerProviderID target = ""))))
        (EInvalidRequest "target broker resource has no broker_provider_id")
  end.

Definition validateForPatch (link : Link.FrontingLink) : M unit := check_link link.

Definition validate (fuel : nat) (link : Link.FrontingLink) : M (option unit) :=
  _ ← check_link link;
  r ← try (FrontingLinkStore.Get (Link.SourceSlug link) (Link.TargetSlug link));
  match r with
  | Ok _ => throw ErrFrontingLinkExists
  | Err ErrFrontingLinkNotFound => assertNoCycle fuel (Link.SourceSlug link) (Link.TargetSlug link)
  | Err x => throw x
  end.

(** ** Operations *)

Definition actorIDOrAdmin (actorID : string) : string :=
  if bool_decide (actorID = "") then "admin" else actorID.

Definition summarizeScopeMap (m : gmap string (list string)) : string :=
  if bool_decide (size m = 0) then "{}"
  else strings_Join ","
         ((λ src, src +:+ "->" +:+ strings_Join "+" (sort_Strings (default [] (m !! src)))) <$> Link.SourceScopes m).

Definition link_detail (src tgt : string) : string := "source=" +:+ src +:+ " target=" +:+ tgt.

(** [None]: the cycle check ran out of fuel and nothing was written. *)

Definition Create (fuel : nat) (link : Link.FrontingLink) (actorID : string) : M (option unit) :=
  v ← validate fuel link;
  match v with
  | None => mret None
  | Some _ =>
      now ← time_Now;
      let link' := Link.MkLink (Link.SourceSlug link) (Link.TargetSlug link) (Link.ScopeMap link) now actorID in
      _ ← FrontingLinkStore.Create link';
      _ ← record_audit has_audit
            (Audit.NewEvent Audit.ActionFrontingLinkCreated (actorIDOrAdmin actorID) "" ""
               (link_detail (Link.SourceSlug link) (Link.TargetSlug link) +:+ " scopes=" +:+
                summarizeScopeMap (Link.ScopeMap link)));
      mret (Some tt)
  end.

(** A nil patch is [None]. *)

Definition Patch (sourceSlug targetSlug : string) (patch : option (gmap string (list string)))
    (actorID : string) : M Link.FrontingLink :=
  existing ← FrontingLinkStore.Get sourceSlug targetSlug;
  match patch with
  | None => mret existing
  | Some m =>
      let candidate := FrontingLinkStore.with_map existing m in
      _ ← validateForPatch candidate;
      _ ← FrontingLinkStore.Update candidate;
      _ ← record_audit has_audit
            (Audit.NewEvent Audit.ActionFrontingLinkPatched (actorIDOrAdmin actorID) "" ""
               (link_detail (Link.SourceSlug candidate) (Link.TargetSlug candidate) +:+ " scopes=" +:+
                summarizeScopeMap m));
      mret candidate
  end.

Definition Delete (sourceSlug targetSlug actorID : string) : M unit :=
  _ ← FrontingLinkStore.Delete sourceSlug targetSlug;
  record_audit has_audit
    (Audit.NewEvent Audit.ActionFrontingLinkDeleted (actorIDOrAdmin actorID) "" ""
       (link_detail sourceSlug targetSlug)).

(** A scope of the old catalog that the link uses and the new catalog lost. *)

Definition lost (prevScopes nextScopes : gset string) (sc : string) : bool :=
  andb (bool_decide (sc ∈ prevScopes)) (bool_decide (sc ∉ nextScopes)).

Definition link_blocks (slug : string) (prevScopes nextScopes : gset string) (l : Link.FrontingLink) : bool :=
  orb (andb (bool_decide (Link.SourceSlug l = slug))
         (existsb (lost prevScopes nextScopes) ((map_to_list (Link.ScopeMap l)).*1)))
    (andb (bool_decide (Link.TargetSlug l = slug))
         (existsb (lost prevScopes nextScopes) (concat ((map_to_list (Link.ScopeMap l)).*2)))).

Definition ValidateResourceUpdate (prev next : Resource.Resource) : M unit :=
  links ← FrontingLinkStore.ListForResource (Resource.Slug prev);
  if bool_decide (links = []) then mret tt
  else if bool_decide (Resource.Kind prev ≠ Resource.Kind next)
  then throw (EInvalidRequest "kind change is forbidden while fronting links exist")
  else ensure (negb (existsb (link_blocks (Resource.Slug prev) (scopeNameSet (Resource.Scopes prev))
                                (scopeNameSet (Resource.Scopes next))) links))
         (EInvalidRequest "cannot remove a scope referenced by a fronting link").

Fixpoint record_cascade (actorID : string) (links : list Link.FrontingLink) : M unit :=
  match links with
  | [] => mret tt
  | l :: rest =>
      _ ← record_audit has_audit
            (Audit.NewEvent Audit.ActionFrontingLinkDeleted (actorIDOrAdmin actorID) "" ""
               (link_detail (Link.SourceSlug l) (Link.TargetSlug l) +:+ " reason=resource_cascade"));
      record_cascade actorID rest
  end.

Definition CascadeDeleteForResource (slug actorID : string) : M (list Link.FrontingLink) :=
  dependents ← FrontingLinkStore.ListForResource slug;
  if bool_decide (dependents = []) then mret []
  else
    _ ← FrontingLinkStore.DeleteForResource slug;
    _ ← record_cascade actorID dependents;
    mret dependents.

End service.
End FrontingService.
