(* ===== verification/FrontingTheorems.v ===== *)
(** * What the fronting service guarantees

    The cycle check decides reachability and terminates; creating a link
    keeps the graph acyclic as long as no other link is written between the
    check and the insert; scope maps stay inside the catalogs of both ends,
    also when a resource's catalog is edited. *)

From S2P Require Import Prelude GoStrings ScopeSet Act Domain Db Effects Crypto Stores Order StoreOrder Fronting Scenario.
Import FrontingService.

(** ** The graph *)

Definition edge (L : gmap (string * string) Link.FrontingLink) (a b : string) : Prop := is_Some (L !! (a, b)).

Definition acyclic (L : gmap (string * string) Link.FrontingLink) : Prop := ∀ a, ¬ tc (edge L) a a.

(** Keys are the slugs of the row, and slugs are not empty. *)

Definition wf_links (L : gmap (string * string) Link.FrontingLink) : Prop :=
  ∀ k l, L !! k = Some l → k = (Link.SourceSlug l, Link.TargetSlug l) ∧ Link.TargetSlug l ≠ "".

(** The other requests leave the links alone. *)

Definition links_untouched (e : Env) : Prop := ∀ n d, fronting_links (interfere e n d) = fronting_links d.

(** The edges out of a node, as [assertNoCycle] reads them. *)

Lemma elem_of_out L d node l :
  fronting_links d = L → wf_links L → node ≠ "" →
  l ∈ FrontingLinkStore.list_rows (FrontingLinkStore.MkFilter node "" 0 0) d ↔
  L !! (node, Link.TargetSlug l) = Some l.
Proof.
  intros <- Hwf Hne. unfold FrontingLinkStore.list_rows, FrontingLinkStore.matches. simpl.
  rewrite list_elem_of_filter, FrontingLinkStore.elem_of_rows.
  rewrite (bool_decide_eq_false_2 (node = "")) by done. simpl. rewrite andb_true_r, bool_decide_eq_true.
  split.
  - intros [Hs [k Hk]]. destruct (Hwf _ _ Hk) as [-> _]. by rewrite <-Hs.
  - intros Hk. destruct (Hwf _ _ Hk) as [Heq _]. injection Heq as Heq. eauto.
Qed.

Lemma edge_out L d node b :
  fronting_links d = L → wf_links L → node ≠ "" →
  edge L node b ↔
  ∃ l, l ∈ FrontingLinkStore.list_rows (FrontingLinkStore.MkFilter node "" 0 0) d ∧ Link.TargetSlug l = b.
Proof.
  intros Hd Hwf Hne. split.
  - intros [l Hl]. destruct (Hwf _ _ Hl) as [Heq _]. injection Heq as _ Ht.
    exists l. rewrite (elem_of_out _ _ _ _ Hd Hwf Hne). by rewrite <-Ht.
  - intros (l & Hl & <-). apply (elem_of_out _ _ _ _ Hd Hwf Hne) in Hl. by exists l.
Qed.

(** ** One expansion *)

Lemma expand_None src es vis st :
  expand src es vis st = None ↔ ∃ l, l ∈ es ∧ Link.TargetSlug l = src.
Proof.
  revert vis st. induction es as [|l es IH]; intros vis st; simpl; [set_solver|].
  case_bool_decide as Hs; [split; [intros _; exists l; set_solver|done]|].
  case_bool_decide; rewrite IH; split; intros (x & Hx & Ht); exists x; set_solver.
Qed.

Lemma expand_Some src es vis st vis' st' :
  expand src es vis st = Some (vis', st') →
  vis ⊆ vis' ∧ (∀ x, x ∈ st → x ∈ st') ∧
  (∀ x, x ∈ vis' ↔ x ∈ vis ∨ ∃ l, l ∈ es ∧ Link.TargetSlug l = x) ∧
  (∀ x, x ∈ st' → x ∈ st ∨ x ∈ vis' ∧ ∃ l, l ∈ es ∧ Link.TargetSlug l = x) ∧
  (∀ x, x ∈ vis' → x ∉ vis → x ∈ st') ∧
  length st' + size vis = length st + size vis'.
Proof.
  revert vis st. induction es as [|l es IH]; intros vis st; simpl.
  { intros [= <- <-]. set_solver. }
  case_bool_decide as Hs; [done|]. case_bool_decide as Hv; intros H; apply IH in H as (H1&H2&H3&H4&H5&H6).
  - split_and!; try done; intros x; rewrite ?H3; set_solver.
  - rewrite size_union in H6 by set_solver. rewrite size_singleton in H6. simpl in H6.
    split_and!; [set_solver|set_solver| | |set_solver|lia].
    + intros x. rewrite H3. set_solver.
    + intros x Hx. destruct (H4 x Hx) as [Hin|Hin]; [|set_solver].
      apply elem_of_cons in Hin as [->|Hin]; [|set_solver].
      right. split; [|set_solver]. apply H3. set_solver.
Qed.

(** ** The search *)

Section search.
Context (L : gmap (string * string) Link.FrontingLink) (src : string).
Hypothesis Hwf : wf_links L.

(** Every visited node that is off the stack was expanded. *)

Record explored (vis : gset string) (st : list string) : Prop := {
  ex_stack : ∀ x, x ∈ st → x ∈ vis;
  ex_named : ∀ x, x ∈ vis → x ≠ "";
  ex_done : ∀ v b, v ∈ vis → v ∉ st → edge L v b → b ∈ vis ∧ b ≠ src
}.

Lemma explored_step node st vis vis' st' d :
  fronting_links d = L → explored vis (node :: st) →
  expand src (FrontingLinkStore.list_rows (FrontingLinkStore.MkFilter node "" 0 0) d) vis st = Some (vis', st') →
  explored vis' st'.
Proof.
  intros Hd [Hst Hnm Hdone] Hex.
  assert (node ≠ "") as Hne by (apply Hnm, Hst; left).
  assert (expand src _ vis st ≠ None) as Hnone by (by rewrite Hex).
  rewrite expand_None in Hnone. apply expand_Some in Hex as (H1 & H2 & H3 & H4 & H5 & _). split.
  - intros x Hx. destruct (H4 x Hx) as [Hin|[? _]]; [|done]. apply H1, Hst. by right.
  - intros x Hx. apply H3 in Hx as [Hx|(l & Hl & <-)]; [by apply Hnm|].
    apply (elem_of_out _ _ _ _ Hd Hwf Hne) in Hl. by apply Hwf in Hl as [_ ?].
  - intros v b Hv Hns He. destruct (decide (v ∈ vis)) as [Hvis|]; [|by destruct Hns; apply H5].
    destruct (decide (v = node)) as [->|Hvn].
    + apply (edge_out _ _ _ _ Hd Hwf Hne) in He as (l & Hl & <-). split.
      * apply H3. eauto.
      * intros Heq. apply Hnone. eauto.
    + destruct (Hdone v b Hvis) as [Hb Hs]; [|done|].
      * intros Hin. apply elem_of_cons in Hin as [?|Hin]; [done|]. by apply Hns, H2.
      * split; [by apply H1|done].
Qed.

Lemma explored_closed vis n : explored vis [] → n ∈ vis → ¬ tc (edge L) n src.
Proof.
  intros Hexp Hn Htc. cut (∀ a b, tc (edge L) a b → a ∈ vis → b ∈ vis ∧ b ≠ src).
  { intros Hc. by destruct (Hc n src Htc Hn). }
  clear n Hn Htc. intros a b Htc.
  induction Htc as [a b He|a b c He _ IH]; intros Ha; destruct (ex_done _ _ Hexp a b Ha); auto; set_solver.
Qed.

Lemma List_run f e w r w' :
  links_untouched e → fronting_links (w_db w) = L → FrontingLinkStore.List f e w = (r, w') →
  fronting_links (w_db w') = L ∧ ((r = Err EFault ∧ ∃ n, fault e n = true) ∨ ∃ d, fronting_links d = L ∧ r = Ok (FrontingLinkStore.list_rows f d)).
Proof.
  intros Hu HL. unfold FrontingLinkStore.List, query, store.
  destruct (fault e (w_tick w)) eqn:Hf; intros [= <- <-]; simpl.
  - rewrite Hu. eauto.
  - split; [by rewrite Hu|]. right. eexists. split; [|done]. by rewrite Hu.
Qed.

(** What the search answers: nothing is written; a cycle is reported only when
    a node of the stack leads to [src]; a finished search has found every node
    reachable from a visited one and none of them leads to [src]. *)

Lemma walk_spec fuel e vis st w r w' :
  links_untouched e → fronting_links (w_db w) = L → explored vis st →
  walk fuel src vis st e w = (r, w') →
  fronting_links (w_db w') = L ∧
  match r with
  | Err x => (x = EFault ∧ ∃ n, fault e n = true) ∨ (x = ErrFrontingLinkCycle ∧ ∃ n, n ∈ vis ∧ tc (edge L) n src)
  | Ok None => True
  | Ok (Some _) => ∀ n, n ∈ vis → ¬ tc (edge L) n src
  end.
Proof.
  intros Hu. revert vis st w. induction fuel as [|fuel IH]; intros vis st w HL Hexp Hrun;
    (destruct st as [|node rest];
      [injection Hrun as <- <-; split; [done|]; intros n; by apply explored_closed|]).
  { injection Hrun as <- <-. done. }
  simpl in Hrun.
  pose proof (ex_named _ _ Hexp node ltac:(apply (ex_stack _ _ Hexp); left)) as Hne.
  assert (node ∈ vis) as Hnv by (apply (ex_stack _ _ Hexp); left).
  destruct (FrontingLinkStore.List (FrontingLinkStore.MkFilter node "" 0 0) e w) as [lr w1] eqn:Hl.
  destruct (List_run _ _ _ _ _ Hu HL Hl) as [HL1 [[-> Hflt]|(d & Hd & ->)]].
  { rewrite (bind_stop _ _ _ _ _ _ Hl) in Hrun. injection Hrun as <- <-. auto. }
  rewrite (bind_step _ _ _ _ _ _ Hl) in Hrun.
  destruct (expand _ _ _ _) as [[vis' st']|] eqn:Hex.
  - destruct (IH _ _ _ HL1 (explored_step _ _ _ _ _ _ Hd Hexp Hex) Hrun) as [HL' Hr].
    split; [done|]. apply expand_Some in Hex as (H1 & _ & H3 & _).
    destruct r as [[[]|]|x]; [by auto|done|]. destruct Hr as [?|[? (n & Hn & Htc)]]; [by auto|right].
    split; [done|]. apply H3 in Hn as [Hn|(l & Hin & <-)]; [eauto|]. exists node. split; [done|].
    eapply tc_l; [|exact Htc]. apply (edge_out _ _ _ _ Hd Hwf Hne). eauto.
  - injection Hrun as <- <-. split; [done|]. right. split; [done|].
    apply expand_None in Hex. exists node. split; [done|]. apply tc_once.
    by apply (edge_out _ _ _ _ Hd Hwf Hne).
Qed.

(** Nodes still to be discovered. *)

Definition targets : gset string := list_to_set ((map_to_list L).*1.*2).

Lemma targets_size : size targets ≤ size L.
Proof.
  unfold targets. etrans; [apply size_list_to_set_le|]. by rewrite !length_fmap, length_map_to_list.
Qed.

Lemma walk_fuel fuel e vis st w r w' :
  links_untouched e → fronting_links (w_db w) = L → explored vis st →
  size (targets ∖ vis) + length st ≤ fuel →
  walk fuel src vis st e w = (r, w') → r ≠ Ok None.
Proof.
  intros Hu. revert vis st w. induction fuel as [|fuel IH]; intros vis st w HL Hexp Hf Hrun;
    (destruct st as [|node rest]; [by injection Hrun as <- <-|]); simpl in *; [lia|].
  pose proof (ex_named _ _ Hexp node ltac:(apply (ex_stack _ _ Hexp); left)) as Hne.
  destruct (FrontingLinkStore.List (FrontingLinkStore.MkFilter node "" 0 0) e w) as [lr w1] eqn:Hl.
  destruct (List_run _ _ _ _ _ Hu HL Hl) as [HL1 [[-> Hflt]|(d & Hd & ->)]].
  { rewrite (bind_stop _ _ _ _ _ _ Hl) in Hrun. by injection Hrun as <- <-. }
  rewrite (bind_step _ _ _ _ _ _ Hl) in Hrun.
  destruct (expand _ _ _ _) as [[vis' st']|] eqn:Hex; [|by injection Hrun as <- <-].
  eapply IH; [exact HL1|by eapply explored_step| |exact Hrun].
  apply expand_Some in Hex as (H1 & _ & H3 & _ & _ & H6).
  assert (vis' ∖ vis ⊆ targets) as Hsub.
  { intros x Hx. apply elem_of_difference in Hx as [Hx Hn].
    apply H3 in Hx as [?|(l & Hin & <-)]; [done|]. apply (elem_of_out _ _ _ _ Hd Hwf Hne) in Hin.
    apply elem_of_list_to_set, list_elem_of_fmap. exists (node, Link.TargetSlug l). split; [done|].
    apply list_elem_of_fmap. eexists. split; [|by apply elem_of_map_to_list]. done. }
  assert (size (targets ∖ vis) = size (targets ∖ vis') + size (vis' ∖ vis)) as Hsz.
  { rewrite <-size_union by set_solver. f_equal. apply set_eq. intros x.
    destruct (decide (x ∈ vis')); set_solver. }
  rewrite (size_difference vis' vis) in Hsz by done. apply subseteq_size in H1. lia.
Qed.

End search.

(** ** The check and the insert *)

Lemma explored_start L src tgt : tgt ≠ "" → explored L src {[tgt]} [tgt].
Proof. intros Hne. split; set_solver. Qed.

(** C40: the cycle check.  On links that other requests leave alone, with one
    more unit of fuel than there are links, the search ends; it reports a cycle
    exactly when the target already leads to the source, and any other failure
    is a failed read. *)
Theorem assertNoCycle_decides fuel src tgt e w r w' :
  links_untouched e → wf_links (fronting_links (w_db w)) → tgt ≠ "" →
  size (fronting_links (w_db w)) < fuel →
  assertNoCycle fuel src tgt e w = (r, w') →
  fronting_links (w_db w') = fronting_links (w_db w) ∧
  ((r = Err ErrFrontingLinkCycle ∧ tc (edge (fronting_links (w_db w))) tgt src) ∨
   (r = Ok (Some tt) ∧ ¬ tc (edge (fronting_links (w_db w))) tgt src) ∨
   (r = Err EFault ∧ ∃ n, fault e n = true)).
Proof.
  intros Hu Hwf Hne Hfuel Hrun. unfold assertNoCycle in Hrun.
  pose proof (explored_start (fronting_links (w_db w)) src tgt Hne) as Hexp.
  destruct (walk_spec _ _ Hwf _ _ _ _ _ _ _ Hu eq_refl Hexp Hrun) as [HL Hr].
  assert (r ≠ Ok None) as Hnone.
  { eapply walk_fuel; [exact Hwf|exact Hu|reflexivity|exact Hexp| |exact Hrun]. simpl.
    pose proof (targets_size (fronting_links (w_db w))).
    assert (size (targets (fronting_links (w_db w)) ∖ {[tgt]}) ≤ size (targets (fronting_links (w_db w))))
      by (apply subseteq_size; set_solver). lia. }
  split; [done|]. destruct r as [[[]|]|x]; [|done|].
  - right. left. split; [done|]. apply Hr. set_solver.
  - destruct Hr as [[-> ?]|[-> (n & Hn & Htc)]]; [by auto|]. left. split; [done|].
    apply elem_of_singleton in Hn. by subst n.
Qed.

Module Links.

Definition link (a b : string) : Link.FrontingLink :=
  Link.MkLink a b {["read" := ["read"]]} 0 "".

Definition res (id slug : string) : Resource.Resource :=
  {| Resource.ID := id; Resource.Slug := slug; Resource.DisplayName := ""; Resource.URI := "";
     Resource.Kind := Resource.BackendMint; Resource.BrokerProviderID := "";
     Resource.Scopes := [Resource.MkScopeDef "read" "" ""]; Resource.AllowedClientIDs := [];
     Resource.RuntimeClientIDs := []; Resource.AllowedReturnURLs := [];
     Resource.CreatedAt := 0; Resource.UpdatedAt := 0 |}.

Definition db0 : DB :=
  set_resources {["1" := res "1" "a"; "2" := res "2" "b"; "3" := res "3" "c"]} empty_db.

Definition db : DB := set_links {[("a", "b") := link "a" "b"]} db0.
Definition world : World := MkWorld db 0 [] [].

Lemma links_wf : wf_links (fronting_links (w_db world)).
Proof. intros k l. simpl. rewrite lookup_singleton_Some. by intros [<- <-]. Qed.

Lemma untouched : links_untouched Scenario.env.
Proof. done. Qed.

End Links.

Lemma assertNoCycle_decides_witness :
  (assertNoCycle 2 "b" "a" Scenario.env Links.world).1 = Err ErrFrontingLinkCycle ∧
  tc (edge (fronting_links Links.db)) "a" "b".
Proof.
  assert ((assertNoCycle 2 "b" "a" Scenario.env Links.world).1 = Err ErrFrontingLinkCycle) as Hrun
    by (vm_compute; reflexivity).
  split; [exact Hrun|].
  destruct (assertNoCycle_decides 2 "b" "a" Scenario.env Links.world _ _ Links.untouched Links.links_wf
              ltac:(discriminate) ltac:(vm_compute; lia) (surjective_pairing _)) as [_ [[_ H]|[[H _]|[H _]]]].
  - exact H.
  - rewrite Hrun in H. discriminate H.
  - rewrite Hrun in H. discriminate H.
Defined.

Lemma edge_insert L s t l a b : edge (<[(s, t) := l]> L) a b ↔ (a = s ∧ b = t) ∨ edge L a b.
Proof.
  unfold edge. destruct (decide ((s, t) = (a, b))) as [Heq|Hne].
  - injection Heq as -> ->. rewrite lookup_insert_eq. split; [by left|eauto].
  - rewrite lookup_insert_ne by done. split; [by right|]. intros [[-> ->]|?]; done.
Qed.

(** A path through the new edge. *)

Lemma tc_insert L s t l a b :
  tc (edge (<[(s, t) := l]> L)) a b → tc (edge L) a b ∨ (rtc (edge L) a s ∧ rtc (edge L) t b).
Proof.
  induction 1 as [a b He|a x b He _ IH]; apply edge_insert in He as [[-> ->]|He].
  - right. split; apply rtc_refl.
  - left. by apply tc_once.
  - right. split; [apply rtc_refl|]. destruct IH as [?|[_ ?]]; [by apply tc_rtc|done].
  - destruct IH as [?|[? ?]]; [left; by eapply tc_l|right]. split; [by eapply rtc_l|done].
Qed.

Lemma acyclic_insert L s t l :
  acyclic L → s ≠ t → ¬ tc (edge L) t s → acyclic (<[(s, t) := l]> L).
Proof.
  intros Hac Hne Hno a Ha. apply tc_insert in Ha as [Ha|[Has Hta]]; [by eapply Hac|].
  assert (rtc (edge L) t s) as Hts by (by etrans). apply rtc_tc in Hts as [->|?]; done.
Qed.

Definition same_links (d d' : DB) : Prop := fronting_links d' = fronting_links d.

#[export] Instance same_links_preorder : PreOrder same_links.
Proof. split; [done|]. intros d1 d2 d3. unfold same_links. congruence. Qed.

Lemma rely_same_links e : links_untouched e → rely same_links e.
Proof. intros Hu n d. apply Hu. Qed.

Lemma traced_check_link {S} `{!PreOrder S} P link : Traced S P (check_link link).
Proof. unfold check_link, lookupResource, assertScopeMapMembership. traced. Qed.

Lemma Validate_shape link : Link.Validate link = None →
  Link.TargetSlug link ≠ "" ∧ Link.SourceSlug link ≠ Link.TargetSlug link.
Proof. unfold Link.Validate. repeat (case_bool_decide; simpl; try done). by repeat case_match. Qed.

Lemma check_link_shape link e w u w' : check_link link e w = (Ok u, w') → Link.Validate link = None.
Proof. unfold check_link. by destruct (Link.Validate link). Qed.

(** Reads keep the links as they are. *)

Lemma keeps_links {A} (m : M A) e w r w' :
  links_untouched e → Traced same_links (λ _, True) m → m e w = (r, w') →
  fronting_links (w_db w') = fronting_links (w_db w).
Proof.
  intros Hu Hm Hr. destruct (Hm _ _ _ _ Hr) as (l & x & _ & _ & _ & _ & Hh).
  exact (history_end _ _ _ (Hh (rely_same_links _ Hu))).
Qed.

Lemma traced_walk {S} `{!PreOrder S} P fuel src vis st : Traced S P (walk fuel src vis st).
Proof.
  revert vis st. induction fuel as [|fuel IH]; intros vis st; destruct st; simpl; traced; apply IH.
Qed.

Lemma traced_validate {S} `{!PreOrder S} P fuel link : Traced S P (validate fuel link).
Proof.
  unfold validate, assertNoCycle. traced; try apply (traced_check_link _); apply (traced_walk _).
Qed.

(** A validated link: its shape is right and it closes no cycle. *)

Lemma validate_ok fuel link e w w' :
  links_untouched e → wf_links (fronting_links (w_db w)) →
  validate fuel link e w = (Ok (Some tt), w') →
  Link.Validate link = None ∧
  ¬ tc (edge (fronting_links (w_db w))) (Link.TargetSlug link) (Link.SourceSlug link).
Proof.
  intros Hu Hwf H. unfold validate in H. mstep H.
  pose proof (check_link_shape _ _ _ _ _ Hm) as Hv. split; [done|].
  pose proof (keeps_links _ _ _ _ _ Hu (traced_check_link _ _) Hm) as HL.
  mstep H. assert (Traced same_links (λ _, True)
    (FrontingLinkStore.Get (Link.SourceSlug link) (Link.TargetSlug link))) as Ht by traced.
  pose proof (keeps_links _ _ _ _ _ Hu Ht Hm0) as HL1.
  destruct a0 as [l|[]]; try (by apply throw_ok in H).
  destruct (Validate_shape _ Hv) as [Hne _].
  pose proof (explored_start (fronting_links (w_db w)) (Link.SourceSlug link) _ Hne) as Hexp.
  unfold assertNoCycle in H.
  destruct (walk_spec _ _ Hwf _ _ _ _ _ _ _ Hu (eq_trans HL1 HL) Hexp H) as [_ Hr].
  apply Hr. set_solver.
Qed.

Lemma LinkCreate_run l e w r w' :
  links_untouched e → FrontingLinkStore.Create l e w = (r, w') →
  fronting_links (w_db w') =
    match r with
    | Ok _ => <[(Link.SourceSlug l, Link.TargetSlug l) := l]> (fronting_links (w_db w))
    | Err _ => fronting_links (w_db w)
    end.
Proof.
  intros Hu. unfold FrontingLinkStore.Create, store. case_match; [intros [= <- <-]; apply Hu|].
  repeat case_match; simplify_eq/=; intros [= <- <-]; simpl; rewrite Hu; done.
Qed.

(** What [Create] leaves: the old links, or the old links and the new one,
    whose target does not lead to its source. *)

Lemma Create_links a fuel link actor e w r w' :
  links_untouched e → wf_links (fronting_links (w_db w)) →
  Create a fuel link actor e w = (r, w') →
  let L := fronting_links (w_db w) in
  match r with
  | Ok (Some _) =>
      Link.Validate link = None ∧
      ¬ tc (edge L) (Link.TargetSlug link) (Link.SourceSlug link) ∧
      ∃ now, fronting_links (w_db w') =
        <[(Link.SourceSlug link, Link.TargetSlug link) :=
            Link.MkLink (Link.SourceSlug link) (Link.TargetSlug link) (Link.ScopeMap link) now actor]> L
  | _ => fronting_links (w_db w') = L
  end.
Proof.
  intros Hu Hwf H L. unfold Create in H. apply bind_cases in H as [(x & H & ->)|(v & w1 & H1 & H)].
  { by eapply keeps_links; [|apply (traced_validate _)|]. }
  pose proof (keeps_links _ _ _ _ _ Hu (traced_validate _ _ _) H1) as HL1.
  destruct v as [[]|]; [|by injection H as <- <-].
  destruct (validate_ok _ _ _ _ _ Hu Hwf H1) as [Hv Hno].
  apply bind_cases in H as [(x & H & ->)|(now & w2 & H2 & H)]; [done|].
  assert (fronting_links (w_db w2) = L) as HL2 by (injection H2 as _ <-; exact HL1).
  apply bind_cases in H as [(x & H & ->)|(u & w3 & H3 & H)].
  { by rewrite (LinkCreate_run _ _ _ _ _ Hu H), HL2. }
  apply LinkCreate_run in H3; [|done]. apply bind_cases in H as [(x & H & ->)|(u' & w4 & H4 & H)]; [done|].
  injection H as <- <-. split; [done|]. split; [done|]. exists now.
  injection H4 as _ <-. rewrite HL2 in H3. simpl in H3. by destruct a.
Qed.

(** Creating links keeps the graph acyclic.  When no other request writes
    links between the check and the insert, whatever fails, the links after
    [Create] are well formed and acyclic if they were before. *)
Theorem Create_keeps_acyclic a fuel link actor e w r w' :
  links_untouched e → wf_links (fronting_links (w_db w)) → acyclic (fronting_links (w_db w)) →
  Create a fuel link actor e w = (r, w') →
  wf_links (fronting_links (w_db w')) ∧ acyclic (fronting_links (w_db w')).
Proof.
  intros Hu Hwf Hac Hrun. pose proof (Create_links _ _ _ _ _ _ _ _ Hu Hwf Hrun) as Hl. simpl in Hl.
  destruct r as [[[]|]|x]; [|by rewrite Hl|by rewrite Hl]. destruct Hl as (Hv & Hno & now & ->).
  destruct (Validate_shape _ Hv) as [Hne Hst]. split; [|by apply acyclic_insert].
  intros k l. rewrite lookup_insert_Some. intros [[<- <-]|[_ Hk]]; [done|eauto].
Qed.

Lemma Links_acyclic : acyclic (fronting_links (w_db Links.world)).
Proof.
  intros a Ha. assert (∀ x y, edge (fronting_links (w_db Links.world)) x y → x = "a" ∧ y = "b") as He.
  { intros x y [l Hl]. simpl in Hl. apply lookup_singleton_Some in Hl as [Hl _]. by injection Hl. }
  assert (∀ x y, tc (edge (fronting_links (w_db Links.world))) x y → x = "a" ∧ y = "b") as Htc.
  { induction 1 as [x y H|x y z H _ IH]; [by apply He|]. apply He in H as [-> ->]. by destruct IH. }
  apply Htc in Ha as [-> ?]. done.
Qed.

Lemma Create_keeps_acyclic_witness :
  acyclic (fronting_links (w_db (Create true 3 (Links.link "b" "c") "" Scenario.env Links.world).2)) ∧
  (Create true 3 (Links.link "b" "c") "" Scenario.env Links.world).1 = Ok (Some tt).
Proof.
  split; [|vm_compute; reflexivity].
  exact (proj2 (Create_keeps_acyclic true 3 (Links.link "b" "c") "" Scenario.env Links.world _ _
                  Links.untouched Links.links_wf Links_acyclic (surjective_pairing _))).
Defined.

(** Two creations in flight: the other request runs from start to end between
    the check and the insert of this one. *)

Definition racing_env (fuel : nat) (other : Link.FrontingLink) (at_step : nat) : Env :=
  {| fault := fault Scenario.env; clock := clock Scenario.env; rand := rand Scenario.env;
     interfere := λ n d, if bool_decide (n = at_step)
                         then w_db (Create true fuel other "" Scenario.env (MkWorld d 0 [] [])).2 else d;
     params := params Scenario.env; config := config Scenario.env |}.

(** The check and the insert are two store calls.  Two administrators who
    create [a → b] and [b → a] at the same time both pass the cycle check, both
    are answered success, and the graph has a cycle. *)
Theorem concurrent_creates_close_a_cycle :
  let run := Create true 3 (Links.link "a" "b") "" (racing_env 3 (Links.link "b" "a") 5)
               (MkWorld Links.db0 0 [] []) in
  run.1 = Ok (Some tt) ∧ ¬ acyclic (fronting_links (w_db run.2)).
Proof.
  split; [vm_compute; reflexivity|]. intros Hac. apply (Hac "a").
  apply tc_l with "b"; [|apply tc_once]; vm_compute; eauto.
Qed.

(** ** Scope maps and catalogs *)

Definition same_fronting (d d' : DB) : Prop :=
  fronting_links d' = fronting_links d ∧ resources d' = resources d.

#[export] Instance same_fronting_preorder : PreOrder same_fronting.
Proof. split; [done|]. intros d1 d2 d3 [] []. split; congruence. Qed.

(** The keys of a link's map are scopes of the source, its values of the target. *)

Definition map_in_catalogs (l : Link.FrontingLink) (r : Resource.Resource) : Prop :=
  (Resource.Slug r = Link.SourceSlug l →
     ∀ sc, is_Some (Link.ScopeMap l !! sc) → sc ∈ Resource.scope_names r) ∧
  (Resource.Slug r = Link.TargetSlug l →
     ∀ sc ts t, Link.ScopeMap l !! sc = Some ts → t ∈ ts → t ∈ Resource.scope_names r).

Definition catalogs_ok (L : gmap (string * string) Link.FrontingLink) (R : gmap string Resource.Resource) : Prop :=
  ∀ k l i r, L !! k = Some l → R !! i = Some r → map_in_catalogs l r.

Definition unique_slugs (R : gmap string Resource.Resource) : Prop :=
  unique_on (λ r, Some (Resource.Slug r)) R.

Lemma elem_of_scopeNameSet r x : x ∈ scopeNameSet (Resource.Scopes r) ↔ x ∈ Resource.scope_names r.
Proof. unfold scopeNameSet, Resource.scope_names. by rewrite elem_of_list_to_set. Qed.

Lemma membership_spec m src tgt :
  forallb (entry_in_catalogs (scopeNameSet (Resource.Scopes src)) (scopeNameSet (Resource.Scopes tgt)))
    (map_to_list m) = true →
  (∀ sc, is_Some (m !! sc) → sc ∈ Resource.scope_names src) ∧
  (∀ sc ts t, m !! sc = Some ts → t ∈ ts → t ∈ Resource.scope_names tgt).
Proof.
  rewrite forallb_forall. intros H.
  assert (∀ sc ts, m !! sc = Some ts → sc ∈ Resource.scope_names src ∧
    ∀ t, t ∈ ts → t ∈ Resource.scope_names tgt) as Hall.
  { intros sc ts Hm. specialize (H (sc, ts)). unfold entry_in_catalogs in H. simpl in H.
    rewrite <-list_elem_of_In, elem_of_map_to_list in H. specialize (H Hm).
    apply andb_true_iff in H as [H1 H2]. unbool. rewrite elem_of_scopeNameSet in H1.
    split; [done|]. intros t Ht. rewrite forallb_forall in H2. specialize (H2 t).
    rewrite <-list_elem_of_In in H2. specialize (H2 Ht). unbool. by rewrite elem_of_scopeNameSet in H2. }
  split; [intros sc [ts Hm]|intros sc ts t Hm Ht]; by edestruct Hall; eauto.
Qed.

Section catalogs.
Context (e : Env).
Hypothesis HR : rely same_fronting e.

Lemma keeps_fronting {A} (m : M A) w r w' :
  Traced same_fronting (λ _, True) m → m e w = (r, w') → same_fronting (w_db w) (w_db w').
Proof.
  intros Hm Hr. destruct (Hm _ _ _ _ Hr) as (l & x & _ & _ & _ & _ & Hh). exact (history_end _ _ _ (Hh HR)).
Qed.

Lemma lookupResource_ok slug w r w' :
  lookupResource slug e w = (Ok r, w') →
  same_fronting (w_db w) (w_db w') ∧ ∃ i, resources (w_db w) !! i = Some r ∧ Resource.Slug r = slug.
Proof.
  intros H. assert (Traced same_fronting (λ _, True) (lookupResource slug)) as Ht
    by (unfold lookupResource; traced).
  split; [by eapply keeps_fronting|]. unfold lookupResource in H. mstep H.
  destruct a as [r0|[]]; try (by apply throw_ok in H). apply ret_ok in H as [-> ->].
  unfold ResourceStore.GetBySlug in Hm. apply query_seen in Hm as (n & d & Hd & _ & _ & Hdd).
  destruct (Hdd _ HR) as [_ Hres]. destruct (find_row _ _) as [r1|] eqn:Hf; simplify_eq.
  apply find_row_Some in Hf as (i & Hi & Hs). unbool. rewrite Hres in Hi. eauto.
Qed.

Lemma check_link_catalogs link w u w' :
  unique_slugs (resources (w_db w)) → check_link link e w = (Ok u, w') →
  ∀ i r, resources (w_db w) !! i = Some r → map_in_catalogs link r.
Proof.
  intros Hun H i r Hi. unfold check_link in H. destruct (Link.Validate link); [done|].
  mstep H. destruct (lookupResource_ok _ _ _ _ Hm) as [[_ HR1] (i1 & Hi1 & Hs1)].
  mstep H. destruct (lookupResource_ok _ _ _ _ Hm0) as [[_ HR2] (i2 & Hi2 & Hs2)]. rewrite HR1 in Hi2.
  mstep H. mstep H. mstep H. unfold assertScopeMapMembership in Hm3. apply ensure_ok in Hm3 as [Hm3 _].
  apply membership_spec in Hm3 as [Hk Hv]. split.
  - intros Hs. assert (i = i1) as -> by (eapply Hun; eauto; simpl; congruence). simplify_eq. eauto.
  - intros Hs. assert (i = i2) as -> by (eapply Hun; eauto; simpl; congruence). simplify_eq. eauto.
Qed.

Lemma links_untouched_of_rely : links_untouched e.
Proof. intros n d. by destruct (HR n d). Qed.

End catalogs.

Definition same_resources (d d' : DB) : Prop := resources d' = resources d.

#[export] Instance same_resources_preorder : PreOrder same_resources.
Proof. split; [done|]. unfold same_resources. intros ???. congruence. Qed.

Lemma keeps_resources {A} (m : M A) e w r w' :
  rely same_fronting e → Traced same_resources (λ _, True) m → m e w = (r, w') →
  resources (w_db w') = resources (w_db w).
Proof.
  intros HR Hm Hr. destruct (Hm _ _ _ _ Hr) as (l & x & _ & _ & _ & _ & Hh).
  refine (history_end _ _ _ (Hh _)). intros n d. by destruct (HR n d).
Qed.

Lemma traced_resources_links {A} (f : Z → DB → res A * DB) :
  (∀ t d, resources (f t d).2 = resources d) →
  Traced same_resources (λ _, True) (store f).
Proof. intros Hf. by apply traced_store. Qed.

Lemma Create_resources a fuel link actor :
  Traced same_resources (λ _, True) (Create a fuel link actor).
Proof.
  unfold Create. traced; first [done | exact (traced_validate _ _ _) | apply traced_resources_links].
  intros t d. simpl. by repeat case_match.
Qed.

Lemma Patch_resources a s t p actor :
  Traced same_resources (λ _, True) (Patch a s t p actor).
Proof.
  unfold Patch, validateForPatch.
  traced; first [done | exact (traced_check_link _ _) | apply traced_resources_links].
  intros now d. simpl. by repeat case_match.
Qed.

Lemma Patch_links a s t p actor e w r w' :
  rely same_fronting e → wf_links (fronting_links (w_db w)) → unique_slugs (resources (w_db w)) →
  Patch a s t p actor e w = (r, w') →
  fronting_links (w_db w') = fronting_links (w_db w) ∨
  ∃ old m, fronting_links (w_db w) !! (s, t) = Some old ∧
    (∀ i x, resources (w_db w) !! i = Some x → map_in_catalogs (FrontingLinkStore.with_map old m) x) ∧
    fronting_links (w_db w') = <[(s, t) := FrontingLinkStore.with_map old m]> (fronting_links (w_db w)).
Proof.
  intros HR Hwf Hun H. unfold Patch in H.
  assert (Traced same_fronting (λ _, True) (FrontingLinkStore.Get s t)) as Tg by traced.
  apply bind_cases in H as [(x & H & ->)|(old & w1 & H1 & H)].
  { left. by destruct (keeps_fronting _ HR _ _ _ _ Tg H). }
  destruct (keeps_fronting _ HR _ _ _ _ Tg H1) as [HL1 HR1].
  destruct p as [m|]; [|left; injection H as <- <-; done].
  assert (fronting_links (w_db w) !! (s, t) = Some old) as Hold.
  { unfold FrontingLinkStore.Get in H1. apply query_seen in H1 as (n & d & Hd & _ & _ & Hdd).
    destruct (Hdd _ HR) as [Hl _]. rewrite <-Hl. by destruct (fronting_links d !! (s, t)); simplify_eq. }
  destruct (Hwf _ _ Hold) as [[= Hs Ht] _]. unfold validateForPatch in H.
  apply bind_cases in H as [(x & H & ->)|(u & w2 & H2 & H)].
  { left. destruct (keeps_fronting _ HR _ _ _ _ (traced_check_link _ _) H). congruence. }
  destruct (keeps_fronting _ HR _ _ _ _ (traced_check_link _ _) H2) as [HL2 HR2].
  assert (unique_slugs (resources (w_db w1))) as Hun1 by (by rewrite HR1).
  pose proof (check_link_catalogs _ HR _ _ _ _ Hun1 H2) as Hcat. rewrite HR1 in Hcat.
  assert (∀ r0 w3, FrontingLinkStore.Update (FrontingLinkStore.with_map old m) e w2 = (r0, w3) →
    fronting_links (w_db w3) = fronting_links (w_db w) ∨
    fronting_links (w_db w3) = <[(s, t) := FrontingLinkStore.with_map old m]> (fronting_links (w_db w))) as Hup.
  { intros r0 w3. unfold FrontingLinkStore.Update, store.
    destruct (HR (w_tick w2) (w_db w2)) as [Hi _].
    case_match; [intros [= <- <-]; left; simpl; congruence|]. simpl. rewrite Hi, HL2, HL1, <-Hs, <-Ht, Hold.
    intros [= <- <-]. right. done. }
  apply bind_cases in H as [(x & H & ->)|(u2 & w3 & H3 & H)].
  - destruct (Hup _ _ H) as [?|?]; [by left|right; eauto].
  - apply bind_cases in H as [(x & H & ->)|(u3 & w4 & H4 & H)]; [done|]. injection H as <- <-.
    assert (w_db w4 = w_db w3) as -> by (injection H4 as _ <-; by destruct a).
    destruct (Hup _ _ H3) as [?|?]; [by left|right; eauto].
Qed.

(** Scope maps stay inside the catalogs: creating or patching a link, with
    no other request editing links or resources meanwhile, leaves every link's
    map with keys among the source's scopes and values among the target's. *)
Theorem scope_maps_stay_in_catalogs e w :
  rely same_fronting e → wf_links (fronting_links (w_db w)) → unique_slugs (resources (w_db w)) →
  catalogs_ok (fronting_links (w_db w)) (resources (w_db w)) →
  (∀ a fuel link actor r w', Create a fuel link actor e w = (r, w') →
     catalogs_ok (fronting_links (w_db w')) (resources (w_db w'))) ∧
  (∀ a s t p actor r w', Patch a s t p actor e w = (r, w') →
     catalogs_ok (fronting_links (w_db w')) (resources (w_db w'))).
Proof.
  intros HR Hwf Hun Hok. pose proof (links_untouched_of_rely _ HR) as Hu. split.
  - intros a fuel link actor r w' H.
    pose proof (keeps_resources _ _ _ _ _ HR (Create_resources a fuel link actor) H) as Hres.
    pose proof (Create_links _ _ _ _ _ _ _ _ Hu Hwf H) as HL. unfold same_resources in Hres. simpl in HL.
    destruct r as [[[]|]|x]; [|by rewrite HL, Hres|by rewrite HL, Hres].
    destruct HL as (_ & _ & now & ->). rewrite Hres.
    assert (∃ w1, check_link link e w = (Ok tt, w1)) as [w1 Hc].
    { unfold Create, validate in H. mstep H. mstep Hm. destruct a1. eauto. }
    intros k l i x. rewrite lookup_insert_Some. intros [[<- <-]|[_ Hk]] Hx; [|by eapply Hok].
    exact (check_link_catalogs _ HR _ _ _ _ Hun Hc i x Hx).
  - intros a s t p actor r w' H.
    pose proof (keeps_resources _ _ _ _ _ HR (Patch_resources a s t p actor) H) as Hres.
    unfold same_resources in Hres. rewrite Hres.
    destruct (Patch_links _ _ _ _ _ _ _ _ _ HR Hwf Hun H) as [->|(old & m & Hold & Hcat & ->)]; [done|].
    intros k l i x. rewrite lookup_insert_Some. intros [[<- <-]|[_ Hk]] Hx; [by eapply Hcat|by eapply Hok].
Qed.

Lemma Links_rely : rely same_fronting Scenario.env.
Proof. done. Qed.

Lemma Links_slugs : unique_slugs (resources (w_db Links.world)).
Proof.
  intros k1 k2 a1 a2 v. simpl. rewrite !lookup_insert_Some, !lookup_singleton_Some. naive_solver.
Qed.

Lemma Links_catalogs : catalogs_ok (fronting_links (w_db Links.world)) (resources (w_db Links.world)).
Proof.
  intros k l i r. simpl. rewrite lookup_singleton_Some. intros [<- <-].
  assert (∀ id slug, map_in_catalogs (Links.link "a" "b") (Links.res id slug)) as Hall.
  { intros id slug. split; simpl; intros _.
    - intros sc [ts Hts]. apply lookup_singleton_Some in Hts as [<- _]. vm_compute. left.
    - intros sc ts t Hts. apply lookup_singleton_Some in Hts as [<- <-]. done. }
  rewrite !lookup_insert_Some, lookup_singleton_Some. naive_solver.
Qed.

Lemma scope_maps_stay_in_catalogs_witness :
  let w' := (Create true 3 (Links.link "b" "c") "" Scenario.env Links.world).2 in
  catalogs_ok (fronting_links (w_db w')) (resources (w_db w')).
Proof.
  exact (proj1 (scope_maps_stay_in_catalogs Scenario.env Links.world Links_rely Links.links_wf Links_slugs
                  Links_catalogs) true 3 (Links.link "b" "c") "" _ _ (surjective_pairing _)).
Defined.

(** *** Editing a resource *)

Lemma elem_of_touching d slug l :
  l ∈ filter (λ l, FrontingLinkStore.touches slug l = true) (FrontingLinkStore.rows d) ↔
  (∃ k, fronting_links d !! k = Some l) ∧ (Link.SourceSlug l = slug ∨ Link.TargetSlug l = slug).
Proof.
  rewrite list_elem_of_filter, FrontingLinkStore.elem_of_rows. unfold FrontingLinkStore.touches.
  rewrite orb_true_iff, !bool_decide_eq_true. tauto.
Qed.

Lemma not_blocked slug prev next l :
  link_blocks slug (scopeNameSet (Resource.Scopes prev)) (scopeNameSet (Resource.Scopes next)) l = false →
  Resource.Slug prev = slug → Resource.Slug next = slug →
  map_in_catalogs l prev → map_in_catalogs l next.
Proof.
  unfold link_blocks. rewrite orb_false_iff, !andb_false_iff.
  intros [Hs Ht] Hp Hn [Hk Hv]. rewrite Hp in Hk, Hv.
  assert (∀ sc, lost (scopeNameSet (Resource.Scopes prev)) (scopeNameSet (Resource.Scopes next)) sc = false →
    sc ∈ Resource.scope_names prev → sc ∈ Resource.scope_names next) as Hlost.
  { intros sc. unfold lost. rewrite andb_false_iff, !bool_decide_eq_false, !elem_of_scopeNameSet.
    intros [?|Hn'] ?; [done|]. by apply dec_stable. }
  split; rewrite Hn; intros Hsl.
  - destruct Hs as [Hs|Hs]; [by apply bool_decide_eq_false in Hs|]. intros sc [ts Hsc].
    apply Hlost; [|by eauto]. apply not_true_iff_false. intros Hl. apply not_true_iff_false in Hs.
    apply Hs. apply existsb_exists. exists sc. split; [|done]. apply list_elem_of_In, list_elem_of_fmap.
    exists (sc, ts). split; [done|]. by apply elem_of_map_to_list.
  - destruct Ht as [Ht|Ht]; [by apply bool_decide_eq_false in Ht|]. intros sc ts t Hsc Hin.
    apply Hlost; [|by eauto]. apply not_true_iff_false. intros Hl. apply not_true_iff_false in Ht.
    apply Ht. apply existsb_exists. exists t. split; [|done].
    apply in_concat. exists ts. split; [|by apply list_elem_of_In]. apply list_elem_of_In, list_elem_of_fmap.
    exists (sc, ts). split; [done|]. by apply elem_of_map_to_list.
Qed.

(** A resource edit that passes [ValidateResourceUpdate] breaks no link: if
    every map was inside the catalogs before, it still is once the resource's
    row is replaced, and the kind of a linked resource is unchanged. *)
Theorem validated_update_keeps_catalogs prev next id e w u w' :
  links_untouched e → ValidateResourceUpdate prev next e w = (Ok u, w') →
  resources (w_db w) !! id = Some prev → Resource.Slug next = Resource.Slug prev →
  catalogs_ok (fronting_links (w_db w)) (resources (w_db w)) →
  catalogs_ok (fronting_links (w_db w')) (<[id := next]> (resources (w_db w))) ∧
  ((∃ k l, fronting_links (w_db w) !! k = Some l ∧
           (Link.SourceSlug l = Resource.Slug prev ∨ Link.TargetSlug l = Resource.Slug prev)) →
   Resource.Kind next = Resource.Kind prev).
Proof.
  intros Hu H Hid Hslug Hok.
  assert (Traced same_links (λ _, True) (ValidateResourceUpdate prev next)) as Ht
    by (unfold ValidateResourceUpdate; traced).
  rewrite (keeps_links _ _ _ _ _ Hu Ht H). unfold ValidateResourceUpdate in H. mstep H.
  unfold FrontingLinkStore.ListForResource in Hm.
  apply query_ok in Hm as (now & d & Hd & _ & [= <-] & _).
  assert (fronting_links d = fronting_links (w_db w)) as HL by (by rewrite Hd, Hu).
  set (ls := filter _ _) in H.
  assert (∀ k l, fronting_links (w_db w) !! k = Some l →
    (Link.SourceSlug l = Resource.Slug prev ∨ Link.TargetSlug l = Resource.Slug prev) → l ∈ ls) as Hin.
  { intros k l Hk Hsl. apply elem_of_touching. rewrite HL. eauto. }
  split.
  - intros k l i r Hk. rewrite lookup_insert_Some. intros [[<- <-]|[_ Hi]]; [|by eapply Hok].
    specialize (Hok _ _ _ _ Hk Hid).
    destruct (decide (Link.SourceSlug l = Resource.Slug prev ∨ Link.TargetSlug l = Resource.Slug prev)) as [Hsl|Hno].
    + specialize (Hin _ _ Hk Hsl). case_bool_decide as Hnil; [rewrite Hnil in Hin; by apply elem_of_nil in Hin|]. case_bool_decide; [done|].
      apply ensure_ok in H as [H _]. apply negb_true_iff, not_true_iff_false in H.
      apply (not_blocked (Resource.Slug prev) prev next); [|done|exact Hslug|exact Hok]. apply not_true_iff_false. intros Hb. apply H.
      apply existsb_exists. exists l. split; [by apply list_elem_of_In|exact Hb].
    + split; rewrite Hslug; intros Heq; destruct Hno; auto.
  - intros (k & l & Hk & Hsl). specialize (Hin _ _ Hk Hsl). case_bool_decide as Hnil; [rewrite Hnil in Hin; by apply elem_of_nil in Hin|].
    case_bool_decide as Hkind; [done|]. unbool. done.
Qed.

Lemma validated_update_keeps_catalogs_witness :
  let next := {| Resource.ID := "1"; Resource.Slug := "a"; Resource.DisplayName := ""; Resource.URI := "";
     Resource.Kind := Resource.BackendMint; Resource.BrokerProviderID := "";
     Resource.Scopes := [Resource.MkScopeDef "admin" "" ""; Resource.MkScopeDef "read" "" ""];
     Resource.AllowedClientIDs := []; Resource.RuntimeClientIDs := []; Resource.AllowedReturnURLs := [];
     Resource.CreatedAt := 0; Resource.UpdatedAt := 1 |} in
  catalogs_ok (fronting_links (w_db (ValidateResourceUpdate (Links.res "1" "a") next Scenario.env Links.world).2))
    (<["1" := next]> (resources Links.db)).
Proof.
  intros next.
  exact (proj1 (validated_update_keeps_catalogs (Links.res "1" "a") next "1" Scenario.env Links.world tt _
                  Links.untouched ltac:(vm_compute; reflexivity) ltac:(vm_compute; reflexivity) eq_refl
                  Links_catalogs)).
Defined.

(** The cascade removes exactly the links of the resource: it answers them,
    and afterwards no link names the resource while every other link is as it
    was; any failure leaves all of them. *)
Theorem cascade_deletes_exactly a slug actor e w r w' :
  links_untouched e → CascadeDeleteForResource a slug actor e w = (r, w') →
  let touching l := Link.SourceSlug l = slug ∨ Link.TargetSlug l = slug in
  match r with
  | Ok ls =>
      (∀ l, l ∈ ls ↔ (∃ k, fronting_links (w_db w) !! k = Some l) ∧ touching l) ∧
      (∀ k l, fronting_links (w_db w') !! k = Some l ↔ fronting_links (w_db w) !! k = Some l ∧ ¬ touching l)
  | Err _ => fronting_links (w_db w') = fronting_links (w_db w)
  end.
Proof.
  intros Hu H touching. unfold CascadeDeleteForResource in H.
  assert (Traced same_links (λ _, True) (FrontingLinkStore.ListForResource slug)) as Ht by traced.
  apply bind_cases in H as [(x & H & ->)|(ls & w1 & H1 & H)]; [by eapply keeps_links|].
  pose proof (keeps_links _ _ _ _ _ Hu Ht H1) as HL1.
  unfold FrontingLinkStore.ListForResource in H1. apply query_ok in H1 as (now & d & Hd & _ & [= <-] & _).
  assert (fronting_links d = fronting_links (w_db w)) as HL by (by rewrite Hd, Hu).
  assert (∀ l, l ∈ filter (λ l, FrontingLinkStore.touches slug l = true) (FrontingLinkStore.rows d) ↔
    (∃ k, fronting_links (w_db w) !! k = Some l) ∧ touching l) as Hin.
  { intros l. rewrite elem_of_touching, HL. done. }
  revert Hin H. generalize (filter (λ l, FrontingLinkStore.touches slug l = true) (FrontingLinkStore.rows d)).
  intros ls Hin H. case_bool_decide as Hnil.
  { injection H as <- <-. split; [by rewrite <-Hnil|]. intros k l. rewrite HL1. split; [|by intros [? _]].
    intros Hk. split; [done|]. intros Htch. assert (l ∈ ls) as Hl by (apply Hin; eauto).
    rewrite Hnil in Hl. by apply elem_of_nil in Hl. }
  apply bind_cases in H as [(x & H & ->)|(n & w2 & H2 & H)].
  { unfold FrontingLinkStore.DeleteForResource, store in H. case_match; [|done].
    injection H as _ <-. simpl. by rewrite Hu. }
  assert (w_db w' = w_db w2 ∧ r = Ok ls) as [-> ->].
  { assert (∀ l0 w3, (record_cascade a actor l0 e w3).1 = Ok tt ∧
      w_db (record_cascade a actor l0 e w3).2 = w_db w3) as Hrec.
    { induction l0 as [|l l0 IH]; intros w3; simpl; [done|]. unfold mbind, M_bind, record_audit.
      destruct a; simpl; by rewrite !(proj1 (IH _)), ?(proj2 (IH _)) || apply IH. }
    destruct (Hrec ls w2) as [Hr1 Hr2]. destruct (record_cascade a actor ls e w2) as [[[]|] w3] eqn:Hc; [|done].
    rewrite (bind_step _ _ _ _ _ _ Hc) in H. by injection H as <- <-. }
  split; [done|]. unfold FrontingLinkStore.DeleteForResource in H2.
  apply store_ok in H2 as (now2 & d2 & d2' & Hd2 & _ & [= <- <-] & ->). simpl.
  intros k l. rewrite lookup_delete_rows, Hd2, Hu, HL1. unfold FrontingLinkStore.touches, touching.
  rewrite orb_false_iff, !bool_decide_eq_false. tauto.
Qed.

Lemma cascade_deletes_exactly_witness :
  let run := CascadeDeleteForResource true "b" "" Scenario.env Links.world in
  run.1 = Ok [Links.link "a" "b"] ∧
  ∀ k l, fronting_links (w_db run.2) !! k = Some l ↔
    fronting_links Links.db !! k = Some l ∧ ¬ (Link.SourceSlug l = "b" ∨ Link.TargetSlug l = "b").
Proof.
  intros run. assert (run = (Ok [Links.link "a" "b"], run.2)) as Hrun by (vm_compute; reflexivity).
  split; [by rewrite Hrun|].
  exact (proj2 (cascade_deletes_exactly true "b" "" Scenario.env Links.world _ _ Links.untouched Hrun)).
Defined.
