(* ===== verification/Revocation.v ===== *)
(** * internal/services/revocation.go: the RFC 7009 endpoint *)

From S2P Require Import Prelude GoStrings ScopeSet Act Domain Db Effects Crypto Stores Order StoreOrder.

Module RevocationService.

Record Wiring := MkWiring { has_revocation : bool; has_machine : bool; has_audit : bool }.

Record RevokeRequest := MkRevokeRequest { Token : string; ClientID : string; ClientSecret : string }.

Section service.
Variable s : Wiring.

(** Best effort: every failure is swallowed. *)

Definition tryRevokeMachineToken (req : RevokeRequest) : M unit :=
  if negb (has_machine s) then mret tt else
  jwks ← try (provider (λ _, tt));
  match jwks with
  | Err _ => mret tt
  | Ok _ =>
      issuer ← try (provider (λ e, Issuer (config e)));
      match issuer with
      | Err _ => mret tt
      | Ok iss =>
          now ← time_Now;
          p ← ask params;
          match VerifyAccessTokenWithIssuer p now (Token req) iss with
          | None => mret tt
          | Some claims =>
              if bool_decide (c_ClientID claims ≠ ClientID req) then mret tt else
              r ← try (MachineTokenStore.Revoke (c_JTI claims));
              match r with
              | Err _ => mret tt
              | Ok _ =>
                  record_audit (has_audit s)
                    (Audit.NewEvent Audit.ActionTokenRevoked "" (ClientID req) ""
                       ("machine_token jti=" +:+ c_JTI claims))
              end
          end
      end
  end.

(** Steps 2 to the end, for an authenticated caller. *)

Definition revokeOwned (req : RevokeRequest) : M unit :=
  p ← ask params;
  r ← try (TokenStore.GetRefreshTokenByHash (HashSHA256 p (Token req)));
  match r with
  | Err _ => tryRevokeMachineToken req
  | Ok rt =>
      f ← try (TokenStore.GetFamily (Refresh.FamilyID rt));
      match f with
      | Err _ => mret tt
      | Ok family =>
          if bool_decide (Family.ClientID family ≠ ClientID req) then mret tt else
          v ← try (TokenStore.RevokeFamily (Refresh.FamilyID rt));
          match v with
          | Err _ => mret tt
          | Ok _ =>
              _ ← when (has_revocation s)
                    (_ ← try (RevocationStore.RevokeByFamily (Refresh.FamilyID rt)); mret tt);
              record_audit (has_audit s)
                (Audit.NewEvent Audit.ActionTokenRevoked "" (ClientID req) ""
                   ("family=" +:+ Refresh.FamilyID rt))
          end
      end
  end.

Definition RevokeToken (req : RevokeRequest) : M unit :=
  r ← try (ClientStore.GetByID (ClientID req));
  match r with
  | Err _ => throw ErrInvalidClient
  | Ok c =>
      p ← ask params;
      if Client.IsPublic c then
        if negb (Client.IsActive c) then mret tt else revokeOwned req
      else if bool_decide (ClientSecret req = "") then throw ErrInvalidClient
      else if negb (CompareClientSecret p (Client.SecretHash c) (ClientSecret req)) then throw ErrInvalidClient
      else if negb (Client.IsActive c) then throw ErrInvalidClient
      else revokeOwned req
  end.

End service.
End RevocationService.
