(* ===== verification/Introspection.v ===== *)
(** * internal/services/introspection.go: the RFC 7662 endpoint

    Metrics and logs are left out; the audit rows are kept.  A response is
    [Inactive] for the bare [{active: false}] body. *)

From S2P Require Import Prelude GoStrings ScopeSet Act Domain Db Effects Crypto Stores Order StoreOrder.

Module IntrospectionService.

Record Wiring := MkWiring {
  has_revocation : bool;
  has_machine : bool;
  has_users : bool;
  has_resources : bool;
  has_issuances : bool;
  has_audit : bool
}.

Record IntrospectRequest := MkIntrospect { Token : string; ClientID : string; ClientSecret : string }.

Record ActiveResponse := MkActive {
  r_Scope : string;
  r_ClientID : string;
  r_Sub : string;
  r_Aud : string;
  r_Iss : string;
  r_Exp : Z;
  r_Iat : Z;
  r_Jti : string;
  r_TokenType : string;
  r_Cnf : option (gmap string json)
}.

Inductive IntrospectResponse := Inactive | Active (r : ActiveResponse).

Definition reasonClientNotFound : string := "client_not_found".
Definition reasonPublicClient : string := "public_client".
Definition reasonMissingClientSecret : string := "missing_client_secret".
Definition reasonInvalidClientSecret : string := "invalid_client_secret".
Definition reasonClientNotActive : string := "client_not_active".

Definition auditedRefusal (reason : string) : bool :=
  orb (bool_decide (reason = reasonInvalidClientSecret)) (bool_decide (reason = reasonClientNotActive)).

Definition entitledYes : string := "".
Definition entitledNo : string := "caller_not_authorized_for_token".
Definition entitledAmbiguous : string := "ambiguous_runtime_binding".
Definition entitledUndecidable : string := "resource_lookup_failed".

Section service.
Variable s : Wiring.

(** ** Records of a refusal *)

Definition recordDenial (clientID reason jti : string) : M unit :=
  record_audit (has_audit s)
    (Audit.NewEvent Audit.ActionTokenIntrospectDenied "" clientID ""
       (if bool_decide (jti ≠ "") then "reason=" +:+ reason +:+ " jti=" +:+ jti else "reason=" +:+ reason)).

Definition denyClient {A} (clientID reason : string) : M A :=
  _ ← when (auditedRefusal reason) (recordDenial clientID reason "");
  throw ErrInvalidClient.

Definition inactiveServerFault : M IntrospectResponse := mret Inactive.

Definition denyInactive (clientID reason jti : string) : M IntrospectResponse :=
  _ ← recordDenial clientID reason jti; mret Inactive.

(** ** The caller *)

Definition authenticateCaller (req : IntrospectRequest) : M (Client.Client + string) :=
  r ← try (ClientStore.GetByID (ClientID req));
  match r with
  | Err _ => mret (inr reasonClientNotFound)
  | Ok c =>
      p ← ask params;
      if Client.IsPublic c then mret (inr reasonPublicClient)
      else if bool_decide (ClientSecret req = "") then mret (inr reasonMissingClientSecret)
      else if negb (CompareClientSecret p (Client.SecretHash c) (ClientSecret req))
      then mret (inr reasonInvalidClientSecret)
      else if negb (Client.IsActive c) then mret (inr reasonClientNotActive)
      else mret (inl c)
  end.

Definition resourceAuthorizes (r : Resource.Resource) (requestingClient : string) : bool :=
  if slices_Contains (Resource.RuntimeClientIDs r) requestingClient then true
  else orb (bool_decide (Resource.Slug r = requestingClient)) (bool_decide (Resource.URI r = requestingClient)).

(** The loop over the audiences, with its two flags. *)

Fixpoint entitlement_loop (requestingClient issuer : string) (auds : list string)
    (ambiguous undecidable : bool) : M string :=
  match auds with
  | [] => mret (if undecidable then entitledUndecidable
                else if ambiguous then entitledAmbiguous else entitledNo)
  | aud :: rest =>
      if orb (bool_decide (aud = "")) (bool_decide (aud = issuer))
      then entitlement_loop requestingClient issuer rest ambiguous undecidable
      else
        r ← try (ResourceRegistry.Resolve aud);
        match r with
        | Ok res =>
            if resourceAuthorizes res requestingClient then mret entitledYes
            else entitlement_loop requestingClient issuer rest ambiguous undecidable
        | Err ErrResourceNotFound => entitlement_loop requestingClient issuer rest ambiguous undecidable
        | Err ErrAmbiguousResource => entitlement_loop requestingClient issuer rest true undecidable
        | Err _ => entitlement_loop requestingClient issuer rest ambiguous true
        end
  end.

Definition callerEntitlement (requestingClient issuer : string) (claims : AccessTokenClaims) : M string :=
  if bool_decide (requestingClient = c_ClientID claims) then mret entitledYes
  else if negb (has_resources s) then mret entitledNo
  else entitlement_loop requestingClient issuer (c_Audience claims) false false.

(** [claims.Act["sub"].(string)], the empty string when absent. *)

Definition act_sub (claims : AccessTokenClaims) : string :=
  match c_Act claims with
  | Some m => match m !! "sub" with Some (JStr x) => x | _ => "" end
  | None => ""
  end.

Definition issuedThroughFrontingSource (claims : AccessTokenClaims) : M bool :=
  if orb (negb (has_resources s)) (bool_decide (c_ClientID claims = "")) then mret false
  else if bool_decide (act_sub claims ≠ c_ClientID claims) then mret false
  else
    r ← try (ResourceRegistry.Resolve (c_ClientID claims));
    match r with
    | Ok res => mret (bool_decide (Resource.Slug res = c_ClientID claims))
    | Err ErrResourceNotFound => mret false
    | Err ErrAmbiguousResource => mret false
    | Err x => throw x
    end.

(** ** Liveness *)

(** The outcome of one check: go on, or answer. *)

Inductive verdict := Pass | Answer (m : M IntrospectResponse).

Definition checkIssuance (caller : string) (claims : AccessTokenClaims) : M verdict :=
  if andb (has_issuances s) (bool_decide (c_JTI claims ≠ "")) then
    r ← try (IssuanceStore.GetByJTI (c_JTI claims));
    match r with
    | Err _ => mret (Answer inactiveServerFault)
    | Ok (Some iss) => mret (if Issuance.IsRevoked iss
                             then Answer (denyInactive caller "issuance_revoked" (c_JTI claims)) else Pass)
    | Ok None => mret Pass
    end
  else mret Pass.

(** [isMachineToken] and the verdict; a failed lookup counts as not found. *)

Definition checkMachine (caller : string) (claims : AccessTokenClaims) : M (bool * verdict) :=
  if andb (has_machine s) (bool_decide (c_JTI claims ≠ "")) then
    r ← try (MachineTokenStore.GetByJTI (c_JTI claims));
    match r with
    | Ok (Some mt) => mret (true, if Machine.Revoked mt
                                  then Answer (denyInactive caller "machine_token_revoked" (c_JTI claims)) else Pass)
    | _ => mret (false, Pass)
    end
  else mret (false, Pass).

Definition checkDenylist (caller : string) (isMachineToken : bool) (claims : AccessTokenClaims) : M verdict :=
  if andb (negb isMachineToken) (andb (has_revocation s) (bool_decide (c_JTI claims ≠ ""))) then
    r ← try (RevocationStore.IsRevoked (c_JTI claims));
    match r with
    | Err _ => mret (Answer inactiveServerFault)
    | Ok true => mret (Answer (denyInactive caller "token_revoked" (c_JTI claims)))
    | Ok false => mret Pass
    end
  else mret Pass.

Definition checkIssuingClient (caller : string) (claims : AccessTokenClaims) : M verdict :=
  let inactive := Answer (denyInactive caller "issuing_client_inactive" (c_JTI claims)) in
  r ← try (ClientStore.GetByID (c_ClientID claims));
  match r with
  | Ok c => mret (if negb (Client.IsActive c) then inactive else Pass)
  | Err ErrInvalidClient | Err ErrClientNotFound =>
      f ← try (issuedThroughFrontingSource claims);
      match f with
      | Err _ => mret (Answer inactiveServerFault)
      | Ok fronted => mret (if negb fronted then inactive else Pass)
      end
  | Err _ => mret inactive
  end.

Definition checkSubject (caller : string) (isMachineToken : bool) (claims : AccessTokenClaims) : M verdict :=
  let inactive := Answer (denyInactive caller "subject_inactive" (c_JTI claims)) in
  if andb (has_users s) (bool_decide (c_Subject claims ≠ "")) then
    if negb isMachineToken then
      r ← try (UserStore.GetByID (c_Subject claims));
      match r with
      | Ok u => mret (if negb (User.IsActive u) then inactive else Pass)
      | Err _ => mret inactive
      end
    else if bool_decide (c_Subject claims ≠ c_ClientID claims) then
      r ← try (UserStore.GetByID (c_Subject claims));
      match r with
      | Err ErrUserNotFound => mret Pass
      | Err _ => mret (Answer inactiveServerFault)
      | Ok u => mret (if negb (User.IsActive u) then inactive else Pass)
      end
    else mret Pass
  else mret Pass.

Definition activeResponse (claims : AccessTokenClaims) : ActiveResponse :=
  let bound := match c_Cnf claims with Some m => bool_decide (is_Some (m !! "jkt")) | None => false end in
  {| r_Scope := c_Scope claims;
     r_ClientID := c_ClientID claims;
     r_Sub := c_Subject claims;
     r_Aud := match c_Audience claims with a :: _ => a | [] => "" end;
     r_Iss := c_Issuer claims;
     r_Exp := c_Expiry claims;
     r_Iat := c_IssuedAt claims;
     r_Jti := c_JTI claims;
     r_TokenType := if bound then "DPoP" else "Bearer";
     r_Cnf := if bound then c_Cnf claims else None |}.

(** [m] then [k], unless [m] answers. *)

Definition unless_answered (v : verdict) (k : M IntrospectResponse) : M IntrospectResponse :=
  match v with Answer m => m | Pass => k end.

(** Steps 4a to 8, for an entitled caller. *)

Definition introspectClaims (caller : string) (claims : AccessTokenClaims) : M IntrospectResponse :=
  v1 ← checkIssuance caller claims;
  unless_answered v1 (
    mv ← checkMachine caller claims;
    unless_answered mv.2 (
      v3 ← checkDenylist caller mv.1 claims;
      unless_answered v3 (
        v4 ← checkIssuingClient caller claims;
        unless_answered v4 (
          v5 ← checkSubject caller mv.1 claims;
          unless_answered v5 (
            _ ← record_audit (has_audit s)
                  (Audit.NewEvent Audit.ActionTokenIntrospected "" caller ""
                     ("jti=" +:+ c_JTI claims +:+ " issuing_client=" +:+ c_ClientID claims));
            mret (Active (activeResponse claims))))))).

Definition IntrospectToken (req : IntrospectRequest) : M IntrospectResponse :=
  a ← authenticateCaller req;
  match a with
  | inr reason => denyClient (ClientID req) reason
  | inl caller =>
      jwks ← try (provider (λ _, tt));
      match jwks with
      | Err _ => inactiveServerFault
      | Ok _ =>
          issuer ← provider (λ e, Issuer (config e));
          now ← time_Now;
          p ← ask params;
          match VerifyAccessTokenWithIssuer p now (Token req) issuer with
          | None => denyInactive (Client.ID caller) "invalid_token" ""
          | Some claims =>
              reason ← callerEntitlement (Client.ID caller) issuer claims;
              if bool_decide (reason = entitledYes) then introspectClaims (Client.ID caller) claims
              else if bool_decide (reason = entitledUndecidable) then inactiveServerFault
              else denyInactive (Client.ID caller) reason (c_JTI claims)
          end
      end
  end.

End service.
End IntrospectionService.
