(* ===== verification/StoreTheorems.v ===== *)
(** * What the stores guarantee on their own *)

From S2P Require Import Prelude GoStrings ScopeSet Act Domain Db Effects Crypto Stores Order StoreOrder TokenProofs Scenario.

(** ** Revocation of a consent reaches the tokens derived from it *)

Lemma count_rows_update `{Countable K} {A} (P : A → bool) (m : gmap K A) :
  count_rows P m = 0 → ∀ k a, m !! k = Some a → P a = false.
Proof.
  unfold count_rows. intros Hs k a Hk. apply map_size_empty_inv in Hs.
  destruct (P a) eqn:HP; [|done]. exfalso.
  assert (filter (λ kv : K * A, P kv.2 = true) m !! k = Some a) as Hf by by apply map_lookup_filter_Some.
  by rewrite Hs in Hf.
Qed.

(** Revoking the issuances of a consent is exact.  [RevokeFamily] stamps
    precisely the live mint rows whose jti descends from the consent: rows of
    the (user, client, resource) triple, and, transitively, rows minted from a
    token of such a row through their parent jti.  Every other row is left
    bit for bit, no row is lost, and the returned count is the number of rows
    changed, so a zero answer means there was nothing left to revoke. *)
Theorem RevokeFamily_exact user client res e w n w' :
  IssuanceStore.RevokeFamily user client res e w = (Ok n, w') →
  ∃ d now, seen w w' (d, w_db w') ∧
    (∀ k, issuances (w_db w') !! k =
      (λ i, if bool_decide (IssuanceStore.is_mint_row i = true ∧ Issuance.RevokedAt i = None ∧
                            Issuance.JTI i ∈ IssuanceStore.lineage user client res (issuances d))
            then Issuance.revoke now i else i) <$> issuances d !! k) ∧
    (∀ j, j ∈ IssuanceStore.lineage user client res (issuances d) ↔
          IssuanceStore.descends user client res (issuances d) j) ∧
    (n = 0 → ∀ k i, issuances d !! k = Some i → IssuanceStore.is_mint_row i = true →
       IssuanceStore.descends user client res (issuances d) (Issuance.JTI i) → Issuance.IsRevoked i = true).
Proof.
  intros H. apply store_seen in H as (now & d & d' & [= <- <-] & Hs & Hd & _). exists d, now.
  rewrite Hd. split; [done|].
  assert (∀ i, IssuanceStore.family_row (IssuanceStore.lineage user client res (issuances d)) i =
    bool_decide (IssuanceStore.is_mint_row i = true ∧ Issuance.RevokedAt i = None ∧
                 Issuance.JTI i ∈ IssuanceStore.lineage user client res (issuances d))) as Hrow.
  { intros i. unfold IssuanceStore.family_row, Issuance.IsRevoked.
    destruct (IssuanceStore.is_mint_row i) eqn:Hm; repeat case_bool_decide; naive_solver. }
  split_and!.
  - intros k. simpl. rewrite lookup_update_rows. destruct (issuances d !! k) as [i|]; simpl; [|done].
    by rewrite Hrow.
  - intros j. apply IssuanceStore.lineage_spec.
  - intros Hn k i Hk Hm Hdesc. pose proof (count_rows_update _ _ Hn _ _ Hk) as Hf.
    rewrite Hrow in Hf. apply bool_decide_eq_false in Hf.
    unfold Issuance.IsRevoked. apply bool_decide_eq_true. intros Hr. apply Hf.
    split_and!; try done. by apply IssuanceStore.lineage_spec.
Qed.

(** ** Expiry of a pending authorization session

    [expires_at > ?] compares RFC 3339 texts whose fraction is trimmed. *)

(** A code is only attached to a pending session that is unconsumed and
    has not been expired for a second.  When [UpdateCodeHashAndScope]
    succeeds, the row was there with no [consumed_at], the clock was less than
    one second past its [expires_at], no other session holds the code hash,
    and the row changed only in its code hash and scope. *)
Theorem UpdateCode_sound id h sc e w u w' :
  wf_db (interfere e (w_tick w) (w_db w)) →
  SessionStore.UpdateCodeHashAndScope id h sc e w = (Ok u, w') →
  ∃ d x, seen w w' (d, w_db w') ∧ auth_sessions d !! id = Some x ∧
    Session.ConsumedAt x = None ∧
    (clock e (w_tick w) < Session.ExpiresAt x + SqlTime.nano)%Z ∧
    (∀ k y, k ≠ id → auth_sessions d !! k = Some y → h ≠ "" → Session.CodeHash y ≠ h) ∧
    auth_sessions (w_db w') = <[id := Session.with_code x h sc]> (auth_sessions d).
Proof.
  intros Hwf H. apply store_ok in H as (now & d & d' & Hd & -> & Hf & ->). simpl in *. rewrite <-Hd in Hwf.
  destruct (auth_sessions d !! id) as [x|] eqn:Hx; [|done].
  case_match eqn:Hc; [done|]. unbool. case_bool_decide as Hdup; [done|]. injection Hf as <- <-.
  exists d, x. split; [apply seen_after|]. split_and!; try done.
  - by apply SqlTime.text_lt_skew.
  - intros k y Hk Hy Hh Heq.
    destruct (find_row _ _) eqn:Hr; [by destruct Hdup|]. rewrite find_row_None in Hr.
    specialize (Hr _ _ Hy). apply andb_false_iff in Hr as [Hr|Hr].
    + assert (sql_eq (Session.CodeHash y) h = true) by (apply sql_eq_spec; split; congruence). congruence.
    + apply bool_decide_eq_false in Hr. apply Hr. by rewrite (wf_sessions_key _ Hwf _ _ Hy : Session.ID y = k).
Qed.

Module StoreRuns.

(** A session that expires half a second after [start]. *)

Definition half : Session.AuthSession :=
  {| Session.ID := "s1"; Session.ClientID := "app"; Session.UserID := "alice";
     Session.RedirectURI := "https://app/cb"; Session.Scope := "read";
     Session.Resource := ""; Session.State := ""; Session.CodeHash := ""; Session.CodeChallenge := "";
     Session.CodeChallengeMethod := "S256"; Session.ExpiresAt := (Scenario.start + 500000000)%Z;
     Session.ConsumedAt := None; Session.CreatedAt := Scenario.start |}.

Definition db : DB := set_sessions {["s1" := half]} Scenario.db.

(** The server with its clock stopped. *)

Definition at_time (t : Z) : Env :=
  MkEnv (fault Scenario.env) (λ _, t) (rand Scenario.env) (interfere Scenario.env) (params Scenario.env)
    (config Scenario.env).

Definition attach (t : Z) : res unit :=
  (SessionStore.UpdateCodeHashAndScope "s1" "#code" "read" (at_time t) (MkWorld db 0 [] [])).1.

(** Two issuances: one under the consent of alice for app, one minted from it. *)

Definition issuance (id client parent : string) : Issuance.Issuance :=
  Issuance.MkIssuance id "alice" client "res1" ["read"] Resource.BackendMint true
    Scenario.start (Scenario.start + 1)%Z None id "" "" [] client parent.

End StoreRuns.

(** An expired session can still be given a code.  Stored times are
    compared as texts with trimmed fractions: half a second sorts after
    fifty-five hundredths.  A session that expired at [start] + 500 ms accepts
    a code at [start] + 550 ms, and refuses it at [start] + 600 ms; one that is
    live at [start] exactly is refused. *)
Theorem expired_session_gets_code :
  StoreRuns.attach (Scenario.start + 550000000) = Ok tt ∧
  StoreRuns.attach (Scenario.start + 600000000) = Err ErrInvalidGrant ∧
  StoreRuns.attach Scenario.start = Err ErrInvalidGrant ∧
  Session.IsExpired (Scenario.start + 550000000) StoreRuns.half = true ∧
  Session.IsExpired Scenario.start StoreRuns.half = false.
Proof. vm_compute. auto 10. Qed.

Lemma wf_store_runs : wf_db StoreRuns.db.
Proof.
  pose proof Scenario.wf as []. split; try done; simpl.
  - intros k a. rewrite lookup_singleton_Some. by intros [<- <-].
  - intros k1 k2 a1 a2 v. rewrite !lookup_singleton_Some. naive_solver.
Qed.

Definition consent_issuances : DB :=
  set_issuances {["j1" := StoreRuns.issuance "j1" "app" ""; "j2" := StoreRuns.issuance "j2" "agent" "j1"]} Scenario.db.

Example consent_family :
  (IssuanceStore.RevokeFamily "alice" "app" "res1" Scenario.env (MkWorld consent_issuances 0 [] [])).1 = Ok 2.
Proof. vm_compute. reflexivity. Qed.

Lemma RevokeFamily_exact_witness :
  ∃ d, ∀ j, j ∈ IssuanceStore.lineage "alice" "app" "res1" (issuances d) ↔
            IssuanceStore.descends "alice" "app" "res1" (issuances d) j.
Proof.
  pose proof consent_family as Hn.
  destruct (IssuanceStore.RevokeFamily "alice" "app" "res1" Scenario.env (MkWorld consent_issuances 0 [] []))
    as [r w'] eqn:H. simpl in Hn. subst r.
  destruct (RevokeFamily_exact _ _ _ _ _ _ _ H) as (d & now & _ & _ & Hd & _). exists d. exact Hd.
Defined.
