(* ===== verification/IntrospectionTheorems.v ===== *)
(** * What introspection guarantees *)

From S2P Require Import Prelude GoStrings ScopeSet Act Domain Db Effects Crypto Stores Order StoreOrder TokenProofs Scenario Introspection.
Import IntrospectionService.

(** ** Introspection only reads *)

(** The two events it records. *)

Definition introspection_event (ev : Audit.Event) : Prop :=
  Audit.action ev = Audit.ActionTokenIntrospected ∨ Audit.action ev = Audit.ActionTokenIntrospectDenied.

Section reads.
Context {S : relation DB} `{!PreOrder S}.

Lemma traced_entitlement_loop P c i auds a u : Traced S P (entitlement_loop c i auds a u).
Proof. revert a u. induction auds as [|x auds IH]; intros a u; simpl; traced; apply IH. Qed.

Lemma traced_callerEntitlement P s c i claims : Traced S P (callerEntitlement s c i claims).
Proof. unfold callerEntitlement. traced. apply (traced_entitlement_loop _). Qed.

Lemma traced_authenticateCaller P req : Traced S P (authenticateCaller req).
Proof. unfold authenticateCaller. traced. Qed.

Lemma traced_recordDenial s c r j : Traced S introspection_event (recordDenial s c r j).
Proof. unfold recordDenial. traced. by right. Qed.

Lemma traced_denyInactive s c r j : Traced S introspection_event (denyInactive s c r j).
Proof. unfold denyInactive. traced. apply traced_recordDenial. Qed.

(** A check that passes leaves the tables, and an answer it gives is [Inactive]. *)

Definition inactive_only (v : verdict) : Prop :=
  match v with
  | Pass => True
  | Answer m => Traced S introspection_event m ∧ ∀ e w r w', m e w = (Ok r, w') → r = Inactive
  end.

Lemma inactive_fault : inactive_only (Answer inactiveServerFault).
Proof.
  split; [unfold inactiveServerFault; traced|]. intros e w r w' H. by apply ret_ok in H as [<- _].
Qed.

Lemma inactive_deny s c r j : inactive_only (Answer (denyInactive s c r j)).
Proof.
  split; [apply traced_denyInactive|]. intros e w x w' H. unfold denyInactive in H.
  mstep H. by apply ret_ok in H as [<- _].
Qed.

Lemma traced_unless v k :
  inactive_only v → Traced S introspection_event k → Traced S introspection_event (unless_answered v k).
Proof. destruct v; [done|]. by intros [? _] _. Qed.

End reads.

#[export] Hint Resolve traced_callerEntitlement traced_authenticateCaller traced_recordDenial
  traced_denyInactive inactive_fault inactive_deny : guar_db.

Lemma unless_active {S : relation DB} `{!PreOrder S} v k e w r w' :
  inactive_only (S:=S) v → unless_answered v k e w = (Ok (Active r), w') →
  v = Pass ∧ k e w = (Ok (Active r), w').
Proof. destruct v as [|m]; [done|]. intros [_ Hm] H. by apply Hm in H. Qed.

(** ** The checks answer [Inactive] or let the request go on *)

Lemma returns_bind {A B} (Q : B → Prop) (m : M A) (k : A → M B) :
  (∀ a, Returns Q (k a)) → Returns Q (m ≫= k).
Proof. intros Hk e w b w' H. apply bind_ok in H as (a & w1 & _ & H). by eapply Hk. Qed.

Lemma returns_ret {A} (Q : A → Prop) (a : A) : Q a → Returns Q (mret a).
Proof. intros HQ e w b w' H. by apply ret_ok in H as [<- _]. Qed.

Ltac returns :=
  repeat first [ apply returns_ret; cbn [snd]
               | apply returns_bind; intros ?
               | match goal with |- Returns _ (match ?x with _ => _ end) => destruct x end
               | match goal with |- inactive_only (if ?b then _ else _) => destruct b end
               | match goal with |- inactive_only (match ?x with _ => _ end) => destruct x end
               | exact I ].

Section checks.
Context {S : relation DB} `{!PreOrder S} (s : Wiring) (caller : string) (claims : AccessTokenClaims).

Lemma returns_checkIssuance : Returns (inactive_only (S:=S)) (checkIssuance s caller claims).
Proof. unfold checkIssuance. returns; auto with guar_db. Qed.

Lemma returns_checkMachine : Returns (λ x, inactive_only (S:=S) x.2) (checkMachine s caller claims).
Proof. unfold checkMachine. returns; auto with guar_db. Qed.

Lemma returns_checkDenylist b : Returns (inactive_only (S:=S)) (checkDenylist s caller b claims).
Proof. unfold checkDenylist. returns; auto with guar_db. Qed.

Lemma returns_checkIssuingClient : Returns (inactive_only (S:=S)) (checkIssuingClient s caller claims).
Proof. unfold checkIssuingClient. returns; auto with guar_db. Qed.

Lemma returns_checkSubject b : Returns (inactive_only (S:=S)) (checkSubject s caller b claims).
Proof. unfold checkSubject. returns; auto with guar_db. Qed.

Lemma traced_checks :
  Traced S introspection_event (checkIssuance s caller claims) ∧
  Traced S introspection_event (checkMachine s caller claims) ∧
  (∀ b, Traced S introspection_event (checkDenylist s caller b claims)) ∧
  Traced S introspection_event (checkIssuingClient s caller claims) ∧
  (∀ b, Traced S introspection_event (checkSubject s caller b claims)).
Proof.
  unfold checkIssuance, checkMachine, checkDenylist, checkIssuingClient, checkSubject,
    issuedThroughFrontingSource.
  split_and!; intros; traced.
Qed.

Lemma traced_introspectClaims : Traced S introspection_event (introspectClaims s caller claims).
Proof.
  destruct traced_checks as (T1 & T2 & T3 & T4 & T5). unfold introspectClaims.
  eapply traced_bind_post; [done|exact returns_checkIssuance|]. intros v1 H1. apply traced_unless; [done|].
  eapply traced_bind_post; [done|exact returns_checkMachine|]. intros v2 H2. apply traced_unless; [done|].
  eapply traced_bind_post; [done|apply returns_checkDenylist|]. intros v3 H3. apply traced_unless; [done|].
  eapply traced_bind_post; [done|exact returns_checkIssuingClient|]. intros v4 H4. apply traced_unless; [done|].
  eapply traced_bind_post; [done|apply returns_checkSubject|]. intros v5 H5. apply traced_unless; [done|].
  traced. by left.
Qed.

End checks.

Lemma traced_IntrospectToken {S : relation DB} `{!PreOrder S} s req : Traced S introspection_event (IntrospectToken s req).
Proof.
  unfold IntrospectToken, denyClient, inactiveServerFault. traced. apply (traced_introspectClaims _).
Qed.

(** Introspection never writes.  Every store call of [IntrospectToken]
    leaves the tables as it found them, whatever the request, the faults and
    the other requests do, and the only audit events it records are
    [token.introspected] and [token.introspect_denied]. *)
Theorem introspection_reads_only s req e w r w' :
  IntrospectToken s req e w = (r, w') →
  (∀ x, seen w w' x → x.1 = x.2) ∧
  ∃ a, w_audit w' = w_audit w ++ a ∧ Forall introspection_event a.
Proof.
  intros H. split.
  - intros x Hx. by eapply traced_seen; [apply (traced_IntrospectToken (S:=eq))|exact H|].
  - destruct (traced_IntrospectToken (S:=eq) s req _ _ _ _ H) as (l & a & _ & Ha & _ & HP & _). eauto.
Qed.

(** ** What a passed check established *)

Section passed.
Context (s : Wiring) (caller : string) (claims : AccessTokenClaims).

Lemma checkIssuance_pass e w w' :
  checkIssuance s caller claims e w = (Ok Pass, w') → has_issuances s = true → c_JTI claims ≠ "" →
  ∃ d, seen w w' (d, d) ∧ issuance_live d (c_JTI claims).
Proof.
  unfold checkIssuance. intros H Hi Hj. rewrite Hi, bool_decide_eq_true_2 in H by done. simpl in H.
  mstep H. destruct a as [[i|]|x]; apply ret_ok in H as [H <-]; try done;
    apply query_seen in Hm as (now & d & [= Hf] & Hd & _); exists d; split; try done;
    intros i' Hi'; rewrite Hf in Hi'; simplify_eq. by destruct (Issuance.IsRevoked i').
Qed.

(** [b] is [isMachineToken]: a machine row was read, and it is live.  When it
    is false no row was found, or the lookup failed. *)

Lemma checkMachine_pass e w b w' :
  checkMachine s caller claims e w = (Ok (b, Pass), w') →
  if b then has_machine s = true ∧ ∃ d mt, seen w w' (d, d) ∧
            machine_tokens d !! c_JTI claims = Some mt ∧ Machine.Revoked mt = false
  else has_machine s = true → c_JTI claims ≠ "" →
       (∃ d, seen w w' (d, d) ∧ machine_tokens d !! c_JTI claims = None) ∨
       fault e (w_tick w) = true.
Proof.
  unfold checkMachine. intros H. case_match eqn:Hc.
  - mstep H. unbool. unfold MachineTokenStore.GetByJTI in Hm. destruct a as [[mt|]|x].
    + apply ret_ok in H as [H <-]. apply query_seen in Hm as (now & d & [= Hf] & Hd & _).
      destruct b; [|by destruct (Machine.Revoked mt)]. split; [done|]. exists d, mt.
      repeat split; try done. by destruct (Machine.Revoked mt).
    + apply ret_ok in H as [[= <-] <-]. apply query_seen in Hm as (now & d & [= Hf] & Hd & _). eauto.
    + apply ret_ok in H as [[= <-] <-]. intros _ _. right. unfold query, store in Hm.
      by destruct (fault e (w_tick w)).
  - apply ret_ok in H as [[= <-] <-]. intros Hh Hj. rewrite Hh in Hc. by rewrite bool_decide_eq_true_2 in Hc.
Qed.

Lemma checkDenylist_pass b e w w' :
  checkDenylist s caller b claims e w = (Ok Pass, w') → b = false → has_revocation s = true →
  c_JTI claims ≠ "" → ∃ d, seen w w' (d, d) ∧ revoked_jtis d !! c_JTI claims = None.
Proof.
  unfold checkDenylist. intros H -> Hr Hj. rewrite Hr, bool_decide_eq_true_2 in H by done. simpl in H.
  mstep H. destruct a as [[]|x]; apply ret_ok in H as [H <-]; try done.
  apply query_seen in Hm as (now & d & [= Hf] & Hd & _). exists d. split; [done|].
  apply bool_decide_eq_false in Hf. by apply eq_None_not_Some.
Qed.

(** The issuing client is active, or the token is a fronting one: its actor
    is the resource named by its client id. *)

Definition issuer_live (w w' : World) : Prop :=
  (∃ d c, seen w w' (d, d) ∧ clients d !! c_ClientID claims = Some c ∧ Client.IsActive c = true) ∨
  (∃ d, seen w w' (d, d) ∧ clients d !! c_ClientID claims = None ∧
        act_sub claims = c_ClientID claims ∧
        ∃ d' r, seen w w' (d', d') ∧ ResourceStore.matching (c_ClientID claims) d' = [r] ∧
                Resource.Slug r = c_ClientID claims).

Lemma fronted_true e w w' :
  issuedThroughFrontingSource s claims e w = (Ok true, w') → act_sub claims = c_ClientID claims ∧
  ∃ d r, seen w w' (d, d) ∧ ResourceStore.matching (c_ClientID claims) d = [r] ∧
         Resource.Slug r = c_ClientID claims.
Proof.
  unfold issuedThroughFrontingSource. intros H. case_match; [by apply ret_ok in H as [? _]|].
  case_bool_decide as Hact; [by apply ret_ok in H as [? _]|]. split; [done|].
  mstep H. destruct a as [r|[]]; try (by apply ret_ok in H as [? _]); try by apply throw_ok in H.
  apply ret_ok in H as [Hs <-]. apply bool_decide_eq_true in Hs.
  apply Resolve_ok in Hm as (d & Hd & Hr). eauto.
Qed.

Lemma checkIssuingClient_pass e w w' :
  checkIssuingClient s caller claims e w = (Ok Pass, w') → issuer_live w w'.
Proof.
  unfold checkIssuingClient. intros H. mstep H. pose proof Hm as Hc.
  apply ClientStore_answer in Hc as [->|(d & Hd & ->)]; [by apply ret_ok in H as [? _]|].
  destruct (clients d !! c_ClientID claims) as [c|] eqn:Hc.
  - apply ret_ok in H as [H <-]. left. exists d, c. repeat split; try done. by destruct (Client.IsActive c).
  - mstep H. destruct a as [[]|x]; apply ret_ok in H as [H <-]; try done.
    pose proof Hm0 as Hf. apply fronted_true in Hf as (Ha & d' & r & Hd' & Hr & Hsl).
    assert (Traced db_step (λ _, True) (issuedThroughFrontingSource s claims))
      by (unfold issuedThroughFrontingSource; traced).
    ext_all (λ _ : Audit.Event, True).
    right. exists d. repeat split; [seen_tac|done|done|]. exists d', r. repeat split; [seen_tac|done|done].
Qed.

Definition subject_live (isMachineToken : bool) (w w' : World) : Prop :=
  if isMachineToken then
    c_Subject claims ≠ c_ClientID claims → ∃ d, seen w w' (d, d) ∧
      ∀ u, users d !! c_Subject claims = Some u → User.IsActive u = true
  else ∃ d u, seen w w' (d, d) ∧ users d !! c_Subject claims = Some u ∧ User.IsActive u = true.

Lemma checkSubject_pass b e w w' :
  checkSubject s caller b claims e w = (Ok Pass, w') → has_users s = true → c_Subject claims ≠ "" →
  subject_live b w w'.
Proof.
  unfold checkSubject. intros H Hu Hs. rewrite Hu, bool_decide_eq_true_2 in H by done. simpl in H.
  destruct b; simpl in *.
  - case_bool_decide as Hne; [|by intros ?]. intros _. mstep H.
    unfold UserStore.GetByID, query, store in Hm. destruct (fault e (w_tick w)); simplify_eq/=.
    exists (interfere e (w_tick w) (w_db w)).
    destruct (users _ !! _) as [u|]; apply ret_ok in H as [H <-]; (split; [apply seen_after|]); [|done].
    intros u' [= <-]. by destruct (User.IsActive u).
  - mstep H. destruct a as [u|x]; apply ret_ok in H as [H <-]; [|done].
    apply UserStore_ok in Hm as (d & Hd & Hl). exists d, u. repeat split; try done.
    by destruct (User.IsActive u).
Qed.

End passed.

(** ** The caller *)

Lemma authenticateCaller_ok req e w c w' :
  authenticateCaller req e w = (Ok (inl c), w') →
  Client.IsPublic c = false ∧ authentic (params e) c (ClientSecret req) ∧
  ∃ d, seen w w' (d, d) ∧ clients d !! ClientID req = Some c.
Proof.
  unfold authenticateCaller. intros H. mstep H.
  pose proof Hm as Hc. apply ClientStore_answer in Hc as [->|(d & Hd & ->)]; [by apply ret_ok in H as [? _]|].
  destruct (clients d !! ClientID req) as [c'|] eqn:Hc; [|by apply ret_ok in H as [? _]].
  mstep H. unfold ask in Hm0. simplify_eq. unfold authentic.
  repeat (case_match; [by apply ret_ok in H as [? _]|]). apply ret_ok in H as [[= <-] <-]. unbool.
  repeat match goal with Hq : Client.IsPublic _ = false |- _ => rewrite Hq end. eauto 10.
Qed.

(** The resource behind one audience of the token lets the caller introspect it. *)

Definition entitled_by_audience (auds : list string) (issuer caller : string) (w w' : World) : Prop :=
  ∃ aud d r, aud ∈ auds ∧ aud ≠ issuer ∧ seen w w' (d, d) ∧ ResourceStore.matching aud d = [r] ∧
    resourceAuthorizes r caller = true.

Lemma entitlement_loop_yes caller issuer auds a u e w w' :
  entitlement_loop caller issuer auds a u e w = (Ok entitledYes, w') →
  entitled_by_audience auds issuer caller w w'.
Proof.
  revert a u w. induction auds as [|x auds IH]; intros a u w; simpl.
  - intros H. apply ret_ok in H as [H _]. by destruct u, a.
  - case_match eqn:Hx.
    { intros H. destruct (IH _ _ _ H) as (y & d & r & ? & ?). exists y, d, r. split; [by right|done]. }
    unbool. intros Hrun. mstep Hrun.
    assert (Traced db_step (λ _, True) (ResourceRegistry.Resolve x)) as T by auto with guar_db nocore.
    pose proof (traced_extends _ _ _ _ _ T Hm) as X1.
    assert (∀ a' u', entitlement_loop caller issuer auds a' u' e w0 = (Ok entitledYes, w') →
                     entitled_by_audience (x :: auds) issuer caller w w') as Hrest.
    { intros a' u' H'. destruct (IH _ _ _ H') as (y & d & r & ? & ? & ? & ? & ?).
      pose proof (traced_extends _ _ _ _ _ (traced_entitlement_loop (S:=db_step) (λ _, True) _ _ _ _ _) H') as X2.
      exists y, d, r. repeat split; try done; [by right|seen_tac]. }
    destruct a0 as [r|[]]; eauto. case_match; [|eauto]. apply ret_ok in Hrun as [_ <-].
    apply Resolve_ok in Hm as (d & Hd & Hr). exists x, d, r. repeat split; try done. by left.
Qed.

Lemma callerEntitlement_yes s caller issuer claims e w w' :
  callerEntitlement s caller issuer claims e w = (Ok entitledYes, w') →
  caller = c_ClientID claims ∨ entitled_by_audience (c_Audience claims) issuer caller w w'.
Proof.
  unfold callerEntitlement. case_bool_decide; [by left|]. case_match.
  - intros H'. by apply ret_ok in H' as [? _].
  - intros H'. right. by eapply entitlement_loop_yes.
Qed.

(** ** An active answer *)

(** What the run from [w] to [w'] read about the token; [machine] says
    whether it found a machine-token row. *)

Record token_live (s : Wiring) (claims : AccessTokenClaims) (e : Env) (w w' : World) (machine : bool)
    : Prop := {
  tl_issuance : has_issuances s = true → c_JTI claims ≠ "" →
    ∃ d, seen w w' (d, d) ∧ issuance_live d (c_JTI claims);
  tl_machine : machine = true → ∃ d mt, seen w w' (d, d) ∧
    machine_tokens d !! c_JTI claims = Some mt ∧ Machine.Revoked mt = false;
  tl_not_machine : machine = false → has_machine s = true → c_JTI claims ≠ "" →
    (∃ d, seen w w' (d, d) ∧ machine_tokens d !! c_JTI claims = None) ∨ ∃ n, fault e n = true;
  tl_denylist : machine = false → has_revocation s = true → c_JTI claims ≠ "" →
    ∃ d, seen w w' (d, d) ∧ revoked_jtis d !! c_JTI claims = None;
  tl_issuer : issuer_live claims w w';
  tl_subject : has_users s = true → c_Subject claims ≠ "" → subject_live claims machine w w'
}.

Section sub.
Context (w w1 w2 w3 : World) (X1 : extends w w1) (X2 : extends w1 w2) (X3 : extends w2 w3).
Let sub x : seen w1 w2 x → seen w w3 x := seen_sub w w1 w2 w3 x X1 X2 X3.

Lemma issuer_live_sub claims : issuer_live claims w1 w2 → issuer_live claims w w3.
Proof.
  intros [(d & c & Hd & Hc)|(d & Hd & Hc & Ha & d' & r & Hd' & Hr)]; [left|right]; eauto 10.
Qed.

Lemma subject_live_sub claims b : subject_live claims b w1 w2 → subject_live claims b w w3.
Proof.
  unfold subject_live. destruct b; [intros H Hne; destruct (H Hne) as (d & Hd & Hu)|
    intros (d & u & Hd & Hu)]; eauto.
Qed.

Lemma token_live_sub s claims e b : token_live s claims e w1 w2 b → token_live s claims e w w3 b.
Proof.
  intros []. split; auto using issuer_live_sub, subject_live_sub.
  - intros Hi Hj. destruct tl_issuance0 as (d & Hd & HQ); eauto.
  - intros Hb. destruct tl_machine0 as (d & mt & Hd & HQ); eauto.
  - intros Hb Hh Hj. destruct tl_not_machine0 as [(d & Hd & HQ)|]; eauto.
  - intros Hb Hr Hj. destruct tl_denylist0 as (d & Hd & HQ); eauto.
Qed.

Lemma seen_some_sub (Q : DB → Prop) : (∃ d, seen w1 w2 (d, d) ∧ Q d) → ∃ d, seen w w3 (d, d) ∧ Q d.
Proof. intros (d & Hd & HQ). eauto. Qed.

End sub.

Lemma introspectClaims_active s caller claims e w r w' :
  introspectClaims s caller claims e w = (Ok (Active r), w') →
  r = activeResponse claims ∧ ∃ machine, token_live s claims e w w' machine.
Proof.
  intros H. unfold introspectClaims in H.
  destruct (traced_checks (S:=db_step) s caller claims) as (T1 & T2 & T3 & T4 & T5).
  mstep H. apply (unless_active (S:=db_step)) in H as [-> H]; [|by eapply returns_checkIssuance].
  mstep H. destruct a as [b v]. apply (unless_active (S:=db_step)) in H as [Hv H];
    [|by eapply (returns_checkMachine _ _ _ _ _ (b, v))]. simpl in Hv, H. subst v.
  mstep H. apply (unless_active (S:=db_step)) in H as [-> H]; [|by eapply returns_checkDenylist].
  mstep H. apply (unless_active (S:=db_step)) in H as [-> H]; [|by eapply returns_checkIssuingClient].
  mstep H. apply (unless_active (S:=db_step)) in H as [-> H]; [|by eapply returns_checkSubject].
  mstep H. apply ret_ok in H as [[= <-] <-]. split; [done|]. exists b.
  ext_all introspection_event.
  assert (extends w4 w5) by (eapply (traced_extends (S:=db_step) (P:=introspection_event)); [|exact Hm4]; traced; by left).
  apply checkMachine_pass in Hm0. split.
  - intros Hi Hj. apply (seen_some_sub w w w0 w5); try chain_ext. by eapply checkIssuance_pass.
  - intros ->. destruct Hm0 as (_ & d & mt & Hd & Hmt). exists d, mt. split; [seen_tac|done].
  - intros -> Hh Hj. destruct (Hm0 Hh Hj) as [Hn|Hn]; [left|by eauto].
    by apply (seen_some_sub w w0 w1 w5); try chain_ext.
  - intros -> Hr Hj. apply (seen_some_sub w w1 w2 w5); try chain_ext. by eapply checkDenylist_pass.
  - apply (issuer_live_sub w w2 w3 w5); try chain_ext. by eapply checkIssuingClient_pass.
  - intros Hu Hs. apply (subject_live_sub w w3 w4 w5); try chain_ext. by eapply checkSubject_pass.
Qed.

(** *** The whole endpoint *)

Lemma IntrospectToken_active s req e w r w' :
  IntrospectToken s req e w = (Ok (Active r), w') → ∃ c claims n w1 w2 w3,
    authenticateCaller req e w = (Ok (inl c), w1) ∧
    VerifyAccessTokenWithIssuer (params e) (clock e n) (Token req) (Issuer (config e)) = Some claims ∧
    callerEntitlement s (Client.ID c) (Issuer (config e)) claims e w2 = (Ok entitledYes, w3) ∧
    introspectClaims s (Client.ID c) claims e w3 = (Ok (Active r), w') ∧
    extends w w1 ∧ extends w1 w2 ∧ extends w2 w3 ∧ extends w3 w'.
Proof.
  unfold IntrospectToken. intros H. mstep H. destruct a as [c|reason].
  2:{ unfold denyClient in H. mstep H. by apply throw_ok in H. }
  mstep H. destruct a as [[]|x]; [|by apply ret_ok in H as [? _]].
  mstep H. mstep H. mstep H. unfold time_Now in Hm1. unfold ask in Hm2. simplify_eq.
  case_match eqn:Hv; [|unfold denyInactive in H; mstep H; by apply ret_ok in H as [? _]].
  mstep H. case_bool_decide as Hy.
  2:{ case_bool_decide; [by apply ret_ok in H as [? _]|].
      unfold denyInactive in H. mstep H. by apply ret_ok in H as [? _]. }
  subst. eexists c, _, _, _, _, _. split; [exact Hm|]. split; [exact Hv|].
  split; [exact Hm1|]. split; [exact H|].
  pose proof (traced_introspectClaims (S:=db_step) s (Client.ID c)). ext_all introspection_event.
  split_and!; try done. etrans; [exact H3|]. etrans; apply extends_after.
Qed.


(** ** A revoked token is never active *)

(** Other requests move the tables by the security order and do not turn the
    token into a machine token. *)

Definition steady (jti : string) (d d' : DB) : Prop :=
  db_step d d' ∧ (machine_tokens d !! jti = None → machine_tokens d' !! jti = None).

#[export] Instance steady_preorder jti : PreOrder (steady jti).
Proof. split; [by split|]. intros x y z [? ?] [? ?]. split; [by etrans|auto]. Qed.

(** The token's jti is revoked in the tables [d]. *)

Definition revoked_at (s : Wiring) (e : Env) (d : DB) (jti : string) : Prop :=
  (has_issuances s = true ∧ ∃ k i, issuances d !! k = Some i ∧ Issuance.JTI i = jti ∧ Issuance.IsRevoked i = true) ∨
  (has_revocation s = true ∧ machine_tokens d !! jti = None ∧ is_Some (revoked_jtis d !! jti)) ∨
  (has_machine s = true ∧ (∃ mt, machine_tokens d !! jti = Some mt ∧ Machine.Revoked mt = true) ∧ fault_free e).

Lemma live_not_revoked s claims e w w' b :
  token_live s claims e w w' b → c_JTI claims ≠ "" → wf_db (w_db w) →
  (∀ x, seen w w' x → steady (c_JTI claims) (w_db w) x.1) → ¬ revoked_at s e (w_db w) (c_JTI claims).
Proof.
  intros [] Hj Hwf Hs [(Hi & k & i & Hk & Hji & Hr)|[(Hrev & Hm & Hx)|(Hh & (mt & Hmt & Hr) & Hff)]].
  - destruct tl_issuance0 as (d & Hd & Hl); [done..|].
    destruct (Hs _ Hd) as [Hst _]. destruct (Hst Hwf) as [Hwf' Hle]. simpl in *.
    rewrite <-Hji in Hl. assert (Issuance.JTI i ≠ "") by congruence.
    by rewrite (issuance_live_le _ _ _ _ Hwf Hwf' Hle Hk) in Hr.
  - destruct b.
    + destruct tl_machine0 as (d & mt & Hd & Hmt & _); [done|]. destruct (Hs _ Hd) as [_ Hn]. simpl in Hn.
      by rewrite Hn in Hmt.
    + destruct tl_denylist0 as (d & Hd & Hn); [done..|]. destruct (Hs _ Hd) as [Hst _].
      destruct (Hst Hwf) as [_ Hle]. destruct Hx as [t Ht].
      destruct (le_revoked _ _ Hle _ _ Ht) as (t' & Ht' & _). simpl in *. congruence.
  - assert (∀ d, seen w w' (d, d) → ∃ mt', machine_tokens d !! c_JTI claims = Some mt' ∧ Machine.Revoked mt' = true)
      as Hrow.
    { intros d Hd. destruct (Hs _ Hd) as [Hst _]. destruct (Hst Hwf) as [_ Hle].
      destruct (le_machine _ _ Hle _ _ Hmt) as (mt' & Hmt' & [->| ->]); eauto. }
    destruct b.
    + destruct tl_machine0 as (d & mt' & Hd & Hmt' & Hr'); [done|]. destruct (Hrow _ Hd) as (? & ? & ?). congruence.
    + destruct tl_not_machine0 as [(d & Hd & Hn)|(n & Hn)]; [done..| |].
      * destruct (Hrow _ Hd) as (? & ? & ?). congruence.
      * by rewrite Hff in Hn.
Qed.

Lemma active_live s req e w r w' :
  IntrospectToken s req e w = (Ok (Active r), w') →
  ∃ claims b, jws_open (params e) (Token req) = Some claims ∧ token_live s claims e w w' b.
Proof.
  intros H. apply IntrospectToken_active in H
    as (c & claims & n & w1 & w2 & w3 & _ & Hv & _ & Hi & X1 & X2 & X3 & X4).
  apply VerifyAccessToken_spec in Hv as (Ho & _).
  apply introspectClaims_active in Hi as [_ [b Hl]]. exists claims, b. split; [done|].
  apply (token_live_sub w w3 w' w'); [chain_ext..|done].
Qed.

Lemma revoked_not_active s req e w claims r w' :
  wf_db (w_db w) → rely (steady (c_JTI claims)) e →
  jws_open (params e) (Token req) = Some claims → c_JTI claims ≠ "" →
  revoked_at s e (w_db w) (c_JTI claims) → IntrospectToken s req e w = (Ok (Active r), w') → False.
Proof.
  intros Hwf HR Ho Hj Hrev H. pose proof H as (claims' & b & Ho' & Hl)%active_live. simplify_eq.
  refine (live_not_revoked _ _ _ _ _ _ Hl Hj Hwf _ Hrev).
  intros x Hx. by eapply seen_from; [apply traced_IntrospectToken|exact H|done|done].
Qed.

(** Revocation reaches introspection.  A token whose issuance row is
    revoked, or whose jti is denylisted and belongs to no machine token, is
    never answered active, whatever the other requests do concurrently
    (within the security order) and whichever store calls fail.  A machine
    token whose row is revoked is not either, as long as no store call fails. *)
Theorem revoked_never_active s req e w claims r w' :
  wf_db (w_db w) → rely (steady (c_JTI claims)) e →
  jws_open (params e) (Token req) = Some claims → c_JTI claims ≠ "" →
  revoked_at s e (w_db w) (c_JTI claims) →
  IntrospectToken s req e w = (r, w') → r = Ok Inactive ∨ ∃ x, r = Err x.
Proof.
  intros Hwf HR Ho Hj Hrev H. destruct r as [[|r]|x]; [by left| |right; eauto].
  exfalso. by eapply revoked_not_active.
Qed.

(** ** Concrete runs *)

Module IntrospectionRuns.

Definition wired : Wiring := MkWiring true true true true true true.

Definition claims : AccessTokenClaims :=
  MkClaims "https://as" "alice" ["https://api"] "app" "read" "j1" 1000 5000 1000 None None "" [].

Definition req : IntrospectRequest := MkIntrospect "tok" "app" "sec".

Definition env : Env := Scenario.env_with [("tok", claims)].

(** The same server, whose call at step [n] fails. *)

Definition failing (n : nat) : Env :=
  MkEnv (λ k, bool_decide (k = n)) (clock env) (rand env) (interfere env) (params env) (config env).

Definition on (d : DB) : World := MkWorld d 0 [] [].

Definition answer (e : Env) (d : DB) : res IntrospectResponse := (IntrospectToken wired req e (on d)).1.

Definition denylisted : DB := set_revoked {["j1" := 0%Z]} Scenario.db.

Definition machine_row : Machine.MachineToken :=
  Machine.MkMachine "j1" "app" {["read"]} "https://api" Scenario.start (5000 * SqlTime.nano) true.

Definition machine_revoked : DB := set_machine {["j1" := machine_row]} Scenario.db.

End IntrospectionRuns.

Example active_run :
  IntrospectionRuns.answer IntrospectionRuns.env Scenario.db = Ok (Active (activeResponse IntrospectionRuns.claims)).
Proof. vm_compute. reflexivity. Qed.


Lemma wf_denylisted : wf_db IntrospectionRuns.denylisted.
Proof. pose proof Scenario.wf as []. by split. Qed.

Lemma revoked_never_active_witness :
  let r := (IntrospectToken IntrospectionRuns.wired IntrospectionRuns.req IntrospectionRuns.env
              (IntrospectionRuns.on IntrospectionRuns.denylisted)).1 in
  r = Ok Inactive ∨ ∃ x, r = Err x.
Proof.
  destruct (IntrospectToken IntrospectionRuns.wired IntrospectionRuns.req IntrospectionRuns.env
              (IntrospectionRuns.on IntrospectionRuns.denylisted)) as [r w'] eqn:H.
  refine (revoked_never_active _ _ _ (IntrospectionRuns.on IntrospectionRuns.denylisted) IntrospectionRuns.claims _ _ wf_denylisted _ _ _ _ H).
  - apply (Scenario.env_rely _).
  - vm_compute. reflexivity.
  - done.
  - right. left. split; [done|]. split; [done|]. exists 0%Z. vm_compute. reflexivity.
Defined.

(** Introspection fails open on the machine-token lookup.  The same revoked
    machine token, whose [sub] is an active user, is answered inactive when
    every store call succeeds, and active when the read of [machine_tokens]
    (the sixth call) fails: the error is taken for "not a machine token",
    and the denylist it then consults does not hold machine tokens.  A failure
    of the issuance or denylist read on the same request answers inactive. *)
Theorem machine_lookup_fails_open :
  IntrospectionRuns.answer IntrospectionRuns.env IntrospectionRuns.machine_revoked = Ok Inactive ∧
  IntrospectionRuns.answer (IntrospectionRuns.failing 5) IntrospectionRuns.machine_revoked =
    Ok (Active (activeResponse IntrospectionRuns.claims)) ∧
  IntrospectionRuns.answer (IntrospectionRuns.failing 4) Scenario.db = Ok Inactive ∧
  IntrospectionRuns.answer (IntrospectionRuns.failing 6) Scenario.db = Ok Inactive.
Proof. vm_compute. auto. Qed.
