(* ===== verification/RevocationTheorems.v ===== *)
(** * What revocation guarantees, and what introspection sees of it *)

From S2P Require Import Prelude GoStrings ScopeSet Act Domain Db Effects Crypto Stores Order StoreOrder TokenProofs Scenario Introspection IntrospectionTheorems Revocation.
Import RevocationService.

(** ** Taking the history of a run apart *)

Lemma seen_split w w1 w2 x : extends w w1 → extends w1 w2 → seen w w2 x → seen w w1 x ∨ seen w1 w2 x.
Proof.
  intros [l1 H1] [l2 H2]. unfold seen.
  rewrite (own_steps_app w w2 (l1 ++ l2)), (own_steps_app w w1 l1), (own_steps_app w1 w2 l2); try done.
  - apply elem_of_app.
  - by rewrite H2, H1, app_assoc.
Qed.

Lemma seen_bind S P {A B} (m : M A) (k : A → M B) e w r w' x :
  (m ≫= k) e w = (r, w') → seen w w' x → Traced S P m → (∀ a, Traced S P (k a)) →
  (∃ r1 w1, m e w = (r1, w1) ∧ seen w w1 x) ∨
  (∃ a w1, m e w = (Ok a, w1) ∧ k a e w1 = (r, w') ∧ seen w1 w' x).
Proof.
  intros H Hx Hm Hk. apply bind_cases in H as [(y & H & ->)|(a & w1 & H & H')]; [eauto|].
  destruct (seen_split w w1 w' x) as [Hs|Hs]; [exact (traced_extends _ _ _ _ _ Hm H)|exact (traced_extends _ _ _ _ _ (Hk a) H')|done|eauto|].
  right. eauto 10.
Qed.

(** The one step of a store call. *)

Lemma store_own {A} (f : Z → DB → res A * DB) e w r w' x :
  store f e w = (r, w') → seen w w' x → ∃ now, x.2 = (f now x.1).2 ∧ ∀ S, rely S e → S (w_db w) x.1.
Proof.
  unfold store, seen, own_steps. intros H Hx. destruct (fault e (w_tick w)).
  - injection H as <- <-. simpl in Hx. rewrite app_nil_r, drop_all in Hx. by apply not_elem_of_nil in Hx.
  - destruct (f _ _) as [r' d'] eqn:E. injection H as <- <-. simpl in Hx. rewrite drop_app_length in Hx.
    apply list_elem_of_singleton in Hx as ->. simpl. eexists. rewrite E. split; [done|].
    intros S HR. apply HR.
Qed.

(** ** Whose tokens a request can revoke *)

(** The step changes nothing, revokes the family (or denylists its access
    tokens) of a refresh token that the caller presented and owns, or marks
    the machine token that the caller presented and owns. *)

Definition presented (e : Env) (req : RevokeRequest) (fid : string) (d : DB) : Prop :=
  ∃ k t f, refresh_tokens d !! k = Some t ∧ Refresh.TokenHash t = HashSHA256 (params e) (Token req) ∧
    Refresh.FamilyID t = fid ∧ token_families d !! fid = Some f ∧ Family.ClientID f = ClientID req.

Definition owned_change (e : Env) (req : RevokeRequest) (x : DB * DB) : Prop :=
  x.2 = x.1 ∨
  (∃ fid, presented e req fid x.1 ∧
     ((∃ now, x.2 = TokenStore.revoke_family_tables now fid x.1) ∨
      x.2 = set_revoked (revoked_jtis x.1 ∪ RevocationStore.family_jtis fid x.1) x.1)) ∨
  (∃ claims n, VerifyAccessTokenWithIssuer (params e) (clock e n) (Token req) (Issuer (config e)) = Some claims ∧
     c_ClientID claims = ClientID req ∧
     x.2 = set_machine (alter Machine.revoke (c_JTI claims) (machine_tokens x.1)) x.1).

Lemma unchanged {A} (m : M A) e req w r w' x :
  Traced eq (λ _, True) m → m e w = (r, w') → seen w w' x → owned_change e req x.
Proof. intros Hm H Hx. left. symmetry. by eapply traced_seen. Qed.

(** [own_bind H Hx] follows a step [Hx] of the run [H] into the first or the
    second part of a bind; a first part that only reads is dealt with. *)

Lemma try_inv {A} (m : M A) e w r w' : try m e w = (r, w') → ∃ r', m e w = (r', w') ∧ r = Ok r'.
Proof. unfold try. destruct (m e w). intros [= <- <-]. eauto. Qed.

Ltac quiet H Hx := solve [eapply unchanged; [|exact H|exact Hx]; traced; exact I].

Ltac own_bind H Hx :=
  let a := fresh "a" in let w1 := fresh "w" in let Hm := fresh "Hm" in
  let H' := fresh "H" in let Hs := fresh "Hs" in
  pose proof (seen_bind db_step (λ _, True) _ _ _ _ _ _ _ H Hx) as Hm;
  specialize (Hm ltac:(traced; exact I) ltac:(intros ?; cbv beta; traced; exact I));
  destruct Hm as [(a & w1 & Hm & Hs)|(a & w1 & Hm & H' & Hs)];
  [try quiet Hm Hs|clear H Hx; rename H' into H; rename Hs into Hx].

Section owned.
Context (s : Wiring) (req : RevokeRequest) (e : Env).

Lemma traced_tryRevokeMachineToken : Traced db_step (λ _, True) (tryRevokeMachineToken s req).
Proof. unfold tryRevokeMachineToken. traced; exact I. Qed.

Lemma machine_owned w r w' x :
  tryRevokeMachineToken s req e w = (r, w') → seen w w' x → owned_change e req x.
Proof.
  unfold tryRevokeMachineToken. intros H Hx. case_match; [quiet H Hx|].
  own_bind H Hx. destruct a as [[]|y]; [|quiet H Hx].
  own_bind H Hx. apply try_ok in Hm0. destruct a as [iss|y]; [|quiet H Hx].
  apply provider_ok in Hm0 as [-> ->].
  own_bind H Hx. unfold time_Now in Hm0. injection Hm0 as <- <-.
  own_bind H Hx. unfold ask in Hm0. injection Hm0 as <- <-.
  case_match eqn:Hv; [|quiet H Hx].
  case_bool_decide as Hc; [quiet H Hx|].
  own_bind H Hx; [|case_match; quiet H Hx].
  apply try_inv in Hm0 as (r' & Hm0 & _). apply (store_own _ _ _ _ _ _ Hm0) in Hs as (now & Hs & _).
  right. right. eauto.
Qed.

(** The refresh token and its family, read earlier in the run, are still
    there when the family is revoked. *)

Lemma presented_le fid d d' : db_le d d' → presented e req fid d → presented e req fid d'.
Proof.
  intros Hle (k & t & f & Ht & Hh & Hi & Hf & Hc).
  destruct (le_refresh _ _ Hle _ _ Ht) as (t' & Ht' & Hr).
  destruct (le_families _ _ Hle _ _ Hf) as (f' & Hf' & Hff). exists k, t', f'.
  split; [done|]. split_and!; try done; (destruct Hr as [->|[_ [? ->]]]; done) ||
    (destruct Hff as [->|[_ [? ->]]]; done).
Qed.

Lemma read_presented w rt w1 f w2 :
  rely db_step e → wf_db (w_db w) →
  TokenStore.GetRefreshTokenByHash (HashSHA256 (params e) (Token req)) e w = (Ok rt, w1) →
  TokenStore.GetFamily (Refresh.FamilyID rt) e w1 = (Ok f, w2) → Family.ClientID f = ClientID req →
  wf_db (w_db w2) ∧ presented e req (Refresh.FamilyID rt) (w_db w2).
Proof.
  intros HR Hwf H1 H2 Hc.
  apply query_seen in H1 as (n1 & d1 & Hq1 & _ & Hd1 & Hs1).
  apply query_seen in H2 as (n2 & d2 & Hq2 & _ & Hd2 & Hs2).
  destruct (Hs1 _ HR Hwf) as [Hwf1 Hle1]. rewrite Hd1 in Hs2. destruct (Hs2 _ HR Hwf1) as [Hwf2 Hle2].
  rewrite Hd2. split; [done|].
  destruct (find_row _ _) as [t|] eqn:Ht; [|done]. injection Hq1 as ->. apply find_row_Some in Ht as (k & Ht & Hh).
  destruct (token_families d2 !! _) as [f'|] eqn:Hf; [|done]. injection Hq2 as ->. apply bool_decide_eq_true in Hh.
  destruct (le_refresh _ _ Hle2 _ _ Ht) as (t' & Ht' & Hr).
  exists k, t', f. split_and!; try done; by destruct Hr as [->|[_ [? ->]]].
Qed.

Lemma family_owned w r w' x fid :
  rely db_step e → wf_db (w_db w) → presented e req fid (w_db w) →
  (v ← try (TokenStore.RevokeFamily fid);
   match v with
   | Err _ => mret tt
   | Ok _ => _ ← when (has_revocation s) (_ ← try (RevocationStore.RevokeByFamily fid); mret tt);
             record_audit (has_audit s)
               (Audit.NewEvent Audit.ActionTokenRevoked "" (ClientID req) "" ("family=" +:+ fid))
   end) e w = (r, w') → seen w w' x → owned_change e req x.
Proof.
  intros HR Hwf Hp H Hx. own_bind H Hx.
  { apply try_inv in Hm as (r' & Hm & _). apply (store_own _ _ _ _ _ _ Hm) in Hs as (now & Hs & Hst).
    destruct (Hst _ HR Hwf) as [_ Hle]. right. left. exists fid. split; [by eapply presented_le|eauto]. }
  destruct a as [b|y]; [|quiet H Hx]. apply try_ok in Hm.
  db_after (λ _ : Audit.Event, True) Hm using HR Hwf as Hwf0 Hle0.
  own_bind H Hx; [|quiet H Hx]. unfold when in Hm0. case_match; [|quiet Hm0 Hs].
  own_bind Hm0 Hs; [|quiet Hm0 Hs].
  apply try_inv in Hm1 as (r' & Hm1 & _). apply (store_own _ _ _ _ _ _ Hm1) in Hs0 as (now & Hs0 & Hst).
  destruct (Hst _ HR Hwf0) as [_ Hle]. right. left. exists fid.
  split; [|by right]. do 2 (eapply presented_le; [done|]). done.
Qed.

Lemma revokeOwned_owned w r w' x :
  rely db_step e → wf_db (w_db w) → revokeOwned s req e w = (r, w') → seen w w' x → owned_change e req x.
Proof.
  intros HR Hwf. unfold revokeOwned. intros H Hx.
  pose proof traced_tryRevokeMachineToken as T.
  own_bind H Hx. unfold ask in Hm. injection Hm as <- <-.
  own_bind H Hx. apply try_ok in Hm. destruct a as [rt|y]; [|by eapply machine_owned].
  own_bind H Hx. apply try_ok in Hm0. destruct a as [f|y]; [|quiet H Hx].
  case_bool_decide as Hc; [quiet H Hx|].
  destruct (read_presented _ _ _ _ _ HR Hwf Hm Hm0) as [Hwf2 Hp]; [done|].
  by eapply family_owned.
Qed.

End owned.

(** ** The endpoint *)

(** What the endpoint asks of a caller: a public client is not asked for a
    secret (and one it sends is ignored). *)

Definition admitted_caller (p : Params) (c : Client.Client) (secret : string) : Prop :=
  Client.IsActive c = true ∧
  (Client.IsPublic c = true ∨ secret ≠ "" ∧ CompareClientSecret p (Client.SecretHash c) secret = true).

Lemma traced_revokeOwned s req : Traced db_step (λ _, True) (revokeOwned s req).
Proof. unfold revokeOwned. pose proof (traced_tryRevokeMachineToken s req). traced; exact I. Qed.

Lemma traced_RevokeToken s req : Traced db_step (λ _, True) (RevokeToken s req).
Proof. unfold RevokeToken. pose proof (traced_revokeOwned s req). traced; exact I. Qed.

(** The gate, then the revocation, or nothing at all. *)

Lemma RevokeToken_cases s req e w r w' x :
  RevokeToken s req e w = (r, w') → seen w w' x → x.2 = x.1 ∨
  ∃ c d w1, seen w w1 (d, d) ∧ clients d !! ClientID req = Some c ∧
    admitted_caller (params e) c (ClientSecret req) ∧ extends w w1 ∧ extends w1 w' ∧
    (rely db_step e → db_step (w_db w) (w_db w1)) ∧
    revokeOwned s req e w1 = (r, w') ∧ seen w1 w' x.
Proof.
  unfold RevokeToken. intros H Hx. pose proof (traced_revokeOwned s req) as T.
  assert (∀ {A} (m : M A) w1 y, Traced eq (λ _, True) m → m e w1 = y → seen w1 y.2 x → x.2 = x.1) as Hq.
  { intros A m w1 [y1 y2] Hm Hr Hs. symmetry. by eapply traced_seen. }
  pose proof (seen_bind db_step (λ _, True) _ _ _ _ _ _ _ H Hx ltac:(traced) ltac:(intros ?; cbv beta; traced; exact I))
    as [(r1 & w1 & Hm & Hs)|(a & w1 & Hm & H' & Hs)]; [left; by eapply (Hq _ _ _ (_, _)); [|exact Hm|]; traced|].
  apply try_ok in Hm. pose proof Hm as Hm'.
  destruct a as [c|y]; [|left; by eapply (Hq _ _ _ (_, _)); [|exact H'|]; traced].
  apply ClientStore_answer in Hm' as [?|(d & Hd & Hc)]; [done|].
  destruct (clients d !! ClientID req) as [c'|] eqn:Hl; simplify_eq.
  assert (extends w w1) by (eapply (traced_extends (S:=db_step) (P:=λ _, True)); [|exact Hm]; traced).
  assert (rely db_step e → db_step (w_db w) (w_db w1)).
  { intros HR. apply query_seen in Hm as (n & d1 & _ & _ & -> & Hs1). by apply Hs1. }
  rewrite (bind_step _ _ _ _ (params e) w1) in H' by done.
  assert (admitted_caller (params e) c' (ClientSecret req) → revokeOwned s req e w1 = (r, w') →
    ∃ c d w1, seen w w1 (d, d) ∧ clients d !! ClientID req = Some c ∧
    admitted_caller (params e) c (ClientSecret req) ∧ extends w w1 ∧ extends w1 w' ∧
    (rely db_step e → db_step (w_db w) (w_db w1)) ∧
    revokeOwned s req e w1 = (r, w') ∧ seen w1 w' x) as Hgo.
  { intros ? Hr. exists c', d, w1. split_and!; try done. by eapply traced_extends. }
  unfold admitted_caller in Hgo.
  repeat (case_match; try (left; by eapply (Hq _ _ _ (_, _)); [|exact H'|]; traced));
    right; apply Hgo; unbool; auto.
Qed.

(** Revocation is confined to the caller's own tokens.  Whatever token is
    presented, every step [RevokeToken] makes on the tables leaves them
    unchanged, revokes (or denylists the access tokens of) the family of the
    presented refresh token when that family belongs to the calling client,
    or marks the presented, verified access token of the calling client; and
    it changes nothing unless the caller is an active client that, when
    confidential, presented its secret.  Other requests may run concurrently
    within the security order. *)
Theorem revocation_confined s req e w r w' :
  rely db_step e → wf_db (w_db w) → RevokeToken s req e w = (r, w') → ∀ x, seen w w' x →
  owned_change e req x ∧
  (x.2 ≠ x.1 → ∃ c d, seen w w' (d, d) ∧ clients d !! ClientID req = Some c ∧
                      admitted_caller (params e) c (ClientSecret req)).
Proof.
  intros HR Hwf H x Hx.
  destruct (RevokeToken_cases _ _ _ _ _ _ _ H Hx)
    as [Heq|(c & d & w1 & Hd & Hc & Ha & X1 & X2 & Hst & Hr & Hs)]; [by split; [left|]|].
  destruct (Hst HR Hwf) as [Hwf1 _]. split; [by eapply revokeOwned_owned|].
  intros _. exists c, d. split; [seen_tac|done].
Qed.

(** ** A client revokes its own refresh token *)

(** Other requests respect the security order and leave the client registry
    alone. *)

Definition clients_kept (d d' : DB) : Prop := db_step d d' ∧ clients d' = clients d.

#[export] Instance clients_kept_preorder : PreOrder clients_kept.
Proof. split; [by split|]. intros x y z [H1 E1] [H2 E2]. split; [by etrans|congruence]. Qed.

Lemma rely_clients_kept e : rely clients_kept e → rely db_step e.
Proof. intros HR n d. apply HR. Qed.

Lemma admitted_gate s req e w1 c :
  admitted_caller (params e) c (ClientSecret req) →
  (if Client.IsPublic c then
     if negb (Client.IsActive c) then mret tt else revokeOwned s req
   else if bool_decide (ClientSecret req = "") then throw ErrInvalidClient
   else if negb (CompareClientSecret (params e) (Client.SecretHash c) (ClientSecret req)) then throw ErrInvalidClient
   else if negb (Client.IsActive c) then throw ErrInvalidClient
   else revokeOwned s req) e w1 = revokeOwned s req e w1.
Proof.
  intros [Ha Hs]. rewrite Ha. destruct (Client.IsPublic c); [done|].
  destruct Hs as [?|[Hn ->]]; [done|]. by rewrite bool_decide_eq_false_2.
Qed.

(** Each call of the revocation succeeds when no call fails. *)

Section runs.
Context (e : Env) (req : RevokeRequest) (fid : string) (w : World).
Hypothesis (Hff : fault_free e) (HR : rely db_step e) (Hwf : wf_db (w_db w)).

Lemma GetRefresh_run : presented e req fid (w_db w) → ∃ rt w',
  TokenStore.GetRefreshTokenByHash (HashSHA256 (params e) (Token req)) e w = (Ok rt, w') ∧
  Refresh.FamilyID rt = fid ∧ wf_db (w_db w') ∧ db_le (w_db w) (w_db w').
Proof.
  intros Hp. destruct (TokenStore.GetRefreshTokenByHash _ e w) as [r w'] eqn:H.
  db_after (λ _ : Audit.Event, True) H using HR Hwf as Hwf' Hle.
  apply (store_result _ _ _ _ _ Hff) in H as (n & d & Hd & -> & Hw). simpl in *. subst d.
  destruct (presented_le _ _ _ _ _ Hle Hp) as (k & t & f & Ht & Hh & Hi & _).
  rewrite (find_row_unique _ _ k t Ht); [by eauto 10|by apply bool_decide_eq_true|].
  intros k' t' Ht' Hh'. apply bool_decide_eq_true in Hh'.
  assert (k' = k) as ->; [|congruence].
  eapply (wf_refresh_hash _ Hwf'); [done|done|done|]. simpl. congruence.
Qed.

Lemma GetFamily_run : presented e req fid (w_db w) → ∃ f w',
  TokenStore.GetFamily fid e w = (Ok f, w') ∧ Family.ClientID f = ClientID req ∧
  wf_db (w_db w') ∧ db_le (w_db w) (w_db w').
Proof.
  intros Hp. destruct (TokenStore.GetFamily fid e w) as [r w'] eqn:H.
  db_after (λ _ : Audit.Event, True) H using HR Hwf as Hwf' Hle.
  apply (store_result _ _ _ _ _ Hff) in H as (n & d & Hd & -> & Hw). simpl in *. subst d.
  destruct (presented_le _ _ _ _ _ Hle Hp) as (k & t & f & _ & _ & _ & -> & ?). by exists f, w'.
Qed.

Lemma RevokeFamily_run : ∃ b w', TokenStore.RevokeFamily fid e w = (Ok b, w') ∧
  family_revoked (w_db w') fid ∧ wf_db (w_db w') ∧ db_le (w_db w) (w_db w').
Proof.
  destruct (TokenStore.RevokeFamily fid e w) as [r w'] eqn:H.
  db_after (λ _ : Audit.Event, True) H using HR Hwf as Hwf' Hle.
  apply (store_result _ _ _ _ _ Hff) in H as (n & d & Hd & -> & Hw). simpl in Hw.
  eexists _, w'. split; [done|]. rewrite Hw at 1. split; [apply revoke_family_tables_revokes|done].
Qed.

End runs.

Lemma revokeOwned_run s req e w fid :
  fault_free e → rely db_step e → wf_db (w_db w) → presented e req fid (w_db w) →
  ∃ w', revokeOwned s req e w = (Ok tt, w') ∧ family_revoked (w_db w') fid ∧
    (has_revocation s = true → family_denylisted (w_db w) (w_db w') fid).
Proof.
  intros Hff HR Hwf Hp. unfold revokeOwned. rewrite (bind_step _ _ _ _ (params e) w) by done.
  destruct (GetRefresh_run e req fid w Hff HR Hwf Hp) as (rt & w1 & H1 & Hfid & Hwf1 & Hle1).
  rewrite (bind_step _ _ _ _ _ _ (try_run _ _ _ _ _ H1)), Hfid.
  destruct (GetFamily_run e req fid w1 Hff HR Hwf1) as (f & w2 & H2 & Hc & Hwf2 & Hle2); [by eapply presented_le|].
  rewrite (bind_step _ _ _ _ _ _ (try_run _ _ _ _ _ H2)), bool_decide_eq_false_2 by (rewrite Hc; auto).
  destruct (RevokeFamily_run e fid w2 Hff HR Hwf2) as (b & w3 & H3 & Hrev & Hwf3 & Hle3).
  rewrite (bind_step _ _ _ _ _ _ (try_run _ _ _ _ _ H3)).
  assert (is_Some (token_families (w_db w3) !! fid)) as Hsome.
  { assert (presented e req fid (w_db w3)) as (? & ? & g & _ & _ & _ & Hg & _); [|eauto].
    do 3 (eapply presented_le; [done|]). done. }
  unfold when. destruct (has_revocation s).
  - destruct (RevokeByFamily_run fid e w3 Hff HR Hwf3) as (w4 & H4 & Hden & Hwf4 & Hle4).
    erewrite bind_step; [|erewrite bind_step; [done|exact (try_run _ _ _ _ _ H4)]].
    destruct (audit_run (has_audit s) (Audit.NewEvent Audit.ActionTokenRevoked "" (ClientID req) "" ("family=" +:+ fid)) e w4)
      as (w5 & -> & Hdb & _). exists w5. rewrite Hdb. split; [done|].
    split; [by eapply family_revoked_le|]. intros _.
    eapply family_denylisted_le; [|reflexivity|exact Hden]. etrans; [exact Hle1|]. etrans; [exact Hle2|exact Hle3].
  - destruct (audit_run (has_audit s) (Audit.NewEvent Audit.ActionTokenRevoked "" (ClientID req) "" ("family=" +:+ fid)) e w3)
      as (w5 & H5 & Hdb & _). exists w5. rewrite Hdb. erewrite bind_step by done. done.
Qed.

Lemma RevokeToken_run s req e w c fid :
  fault_free e → rely clients_kept e → wf_db (w_db w) →
  clients (w_db w) !! ClientID req = Some c → admitted_caller (params e) c (ClientSecret req) →
  presented e req fid (w_db w) →
  ∃ w', RevokeToken s req e w = (Ok tt, w') ∧ wf_db (w_db w') ∧ family_revoked (w_db w') fid ∧
    (has_revocation s = true → family_denylisted (w_db w) (w_db w') fid).
Proof.
  intros Hff HK Hwf Hc Ha Hp. pose proof (rely_clients_kept _ HK) as HR.
  destruct (RevokeToken s req e w) as [r w'] eqn:Hrun. pose proof Hrun as Hrun'.
  destruct (traced_db _ _ _ _ _ (traced_RevokeToken s req) Hrun HR Hwf) as [Hwf' _].
  revert Hrun. unfold RevokeToken.
  destruct (ClientStore.GetByID (ClientID req) e w) as [rc w1] eqn:H1.
  db_after (λ _ : Audit.Event, True) H1 using HR Hwf as Hwf1 Hle1.
  pose proof H1 as (n & d & Hd & Hrc & Hw)%(store_result _ _ _ _ _ Hff). simpl in *. subst d.
  destruct (Hd _ HK) as [_ Hcl]. rewrite Hcl, Hc in Hrc. subst rc.
  rewrite (bind_step _ _ _ _ _ _ (try_run _ _ _ _ _ H1)), (bind_step _ _ _ _ (params e) w1) by done.
  rewrite admitted_gate by done.
  destruct (revokeOwned_run s req e w1 fid Hff HR Hwf1) as (w2 & -> & Hr & Hdn); [by eapply presented_le|].
  intros [= <- <-]. exists w2. split_and!; try done.
  intros Hh. by eapply family_denylisted_le; [exact Hle1|reflexivity|apply Hdn].
Qed.

(** A client can revoke its own refresh token.  When no call fails, a
    stored, active client that passes the secret check and presents a refresh
    token of one of its families gets success; afterwards the family is
    revoked and every access token tracked for it before the call is on the
    denylist, whatever the other requests do meanwhile within the security
    order. *)
Theorem own_refresh_token_revoked s req e w c fid :
  fault_free e → rely clients_kept e → wf_db (w_db w) →
  clients (w_db w) !! ClientID req = Some c → admitted_caller (params e) c (ClientSecret req) →
  presented e req fid (w_db w) →
  ∃ w', RevokeToken s req e w = (Ok tt, w') ∧ family_revoked (w_db w') fid ∧
    (has_revocation s = true → family_denylisted (w_db w) (w_db w') fid).
Proof.
  intros Hff HK Hwf Hc Ha Hp.
  destruct (RevokeToken_run s req e w c fid Hff HK Hwf Hc Ha Hp) as (w' & ? & _ & ?). eauto.
Qed.

(** C39: revoking a refresh token kills its access tokens at the resource
    servers.  After a successful revocation by the owner, every access token
    whose jti was tracked for the family introspects inactive (or the call
    errors): on any later run of [IntrospectToken] from the resulting tables,
    with any failing calls and any concurrent requests within the order. *)
Theorem revoked_refresh_kills_access s si req e w c fid claims exp :
  fault_free e → rely clients_kept e → wf_db (w_db w) →
  clients (w_db w) !! ClientID req = Some c → admitted_caller (params e) c (ClientSecret req) →
  presented e req fid (w_db w) →
  has_revocation s = true → IntrospectionService.has_revocation si = true →
  access_token_jtis (w_db w) !! c_JTI claims = Some (fid, exp) → c_JTI claims ≠ "" →
  ∃ w', RevokeToken s req e w = (Ok tt, w') ∧
    ∀ e2 ireq w2 r w3,
      w_db w2 = w_db w' → machine_tokens (w_db w') !! c_JTI claims = None →
      rely (steady (c_JTI claims)) e2 →
      jws_open (params e2) (IntrospectionService.Token ireq) = Some claims →
      IntrospectionService.IntrospectToken si ireq e2 w2 = (Ok r, w3) →
      r = IntrospectionService.Inactive.
Proof.
  intros Hff HK Hwf Hc Ha Hp Hs Hsi Ht Hj.
  destruct (RevokeToken_run s req e w c fid Hff HK Hwf Hc Ha Hp) as (w' & Hrun & Hwf' & _ & Hd).
  exists w'. split; [done|]. intros e2 ireq w2 r w3 Hw2 Hm HR2 Ho H.
  destruct r as [|r]; [done|]. exfalso.
  eapply (revoked_not_active si ireq e2 w2 claims); try done; [by rewrite Hw2|].
  right. left. rewrite Hw2. split_and!; try done. by eapply Hd.
Qed.

(** ** Concrete runs *)

Module RevocationRuns.

Definition wired : Wiring := MkWiring true true true.

Definition family : Family.Family :=
  Family.MkFamily "f1" "app" "alice" "read" "https://api" Family.FamilyActive Scenario.start None "s1".

Definition token : Refresh.RefreshToken :=
  Refresh.MkRefresh "t1" "f1" "#refresh" (Scenario.start + 1000)%Z None Scenario.start.

(** A family with one refresh token and one access token, jti j1. *)

Definition db : DB :=
  MkDB {["app" := Scenario.app]} {["alice" := Scenario.alice]} ∅ {["f1" := family]} {["t1" := token]}
    {["j1" := ("f1", 0%Z)]} ∅ ∅ ∅ {["res1" := Scenario.api]} ∅ ∅ ∅ ∅ ∅ ∅ empty_xaa ∅.

Definition world : World := MkWorld db 0 [] [].

Definition req (tok : string) : RevokeRequest := MkRevokeRequest tok "app" "sec".

Lemma runs_wf : wf_db db.
Proof.
  split; simpl; try done;
    try (intros k a; rewrite lookup_singleton_Some; intros [<- <-]; (reflexivity || by rewrite lookup_singleton_eq));
    intros k1 k2 a1 a2 v; rewrite !lookup_singleton_Some; naive_solver.
Qed.

Lemma holds : presented IntrospectionRuns.env (req "refresh") "f1" db.
Proof. exists "t1", token, family. split_and!; reflexivity. Qed.

Lemma admitted_app : admitted_caller (params IntrospectionRuns.env) Scenario.app "sec".
Proof. split; [reflexivity|]. right. split; [done|]. vm_compute. reflexivity. Qed.

End RevocationRuns.

Lemma revoked_refresh_kills_access_witness :
  ∃ w', RevokeToken RevocationRuns.wired (RevocationRuns.req "refresh") IntrospectionRuns.env RevocationRuns.world
          = (Ok tt, w') ∧
    ∀ r w3, machine_tokens (w_db w') !! "j1" = None →
      IntrospectionService.IntrospectToken IntrospectionRuns.wired IntrospectionRuns.req IntrospectionRuns.env w'
        = (Ok r, w3) → r = IntrospectionService.Inactive.
Proof.
  destruct (revoked_refresh_kills_access RevocationRuns.wired IntrospectionRuns.wired (RevocationRuns.req "refresh")
    IntrospectionRuns.env RevocationRuns.world Scenario.app "f1" IntrospectionRuns.claims 0%Z)
    as (w' & H & Hi).
  - intros n. reflexivity.
  - apply (Scenario.env_rely _).
  - exact RevocationRuns.runs_wf.
  - reflexivity.
  - exact RevocationRuns.admitted_app.
  - exact RevocationRuns.holds.
  - reflexivity.
  - reflexivity.
  - reflexivity.
  - done.
  - exists w'. split; [exact H|]. intros r w3 Hm Hr.
    refine (Hi _ _ w' r w3 eq_refl Hm _ _ Hr); [apply (Scenario.env_rely _)|reflexivity].
Defined.

Lemma revocation_confined_witness :
  let x := RevokeToken RevocationRuns.wired (RevocationRuns.req "refresh") IntrospectionRuns.env RevocationRuns.world in
  x.1 = Ok tt ∧
  ∀ y, seen RevocationRuns.world x.2 y → owned_change IntrospectionRuns.env (RevocationRuns.req "refresh") y.
Proof.
  intros x. split; [vm_compute; reflexivity|].
  intros y Hy. destruct x as [r w'] eqn:Hx.
  refine (proj1 (revocation_confined RevocationRuns.wired (RevocationRuns.req "refresh") IntrospectionRuns.env
    RevocationRuns.world r w' _ RevocationRuns.runs_wf Hx y Hy)).
  apply (Scenario.env_rely _).
Defined.

(** Revoking a user's access token records a revocation that did not
    happen.  The client presents a valid access token of its own that is not
    a machine token: [RevokeToken] answers success and the audit trail gains
    [token.revoked] for machine_token j1, but no table changed, and the token
    still introspects active. *)
Theorem access_token_revocation_is_a_no_op :
  let '(r, w') := RevokeToken RevocationRuns.wired (RevocationRuns.req "tok") IntrospectionRuns.env Scenario.world in
  r = Ok tt ∧ w_db w' = Scenario.db ∧
  w_audit w' = [Audit.NewEvent Audit.ActionTokenRevoked "" "app" "" "machine_token jti=j1"] ∧
  IntrospectionRuns.answer IntrospectionRuns.env (w_db w') =
    Ok (IntrospectionService.Active (IntrospectionService.activeResponse IntrospectionRuns.claims)).
Proof. vm_compute. auto. Qed.
