(* ===== verification/Authorize.v ===== *)
(** * internal/services/authorize.go and consent.go: the front channel

    An authorization request creates a pending session; consent (or an
    existing grant that covers the request) attaches a code to it. *)

From S2P Require Import Prelude GoStrings ScopeSet Act Domain Db Effects Crypto Stores Order StoreOrder MintIssuer TokenService.

Module AuthorizeService.

Record AuthorizeRequest := MkAuthorize {
  ClientID : string;
  RedirectURI : string;
  ResponseType : string;
  Scope : string;
  State : string;
  Resource : string;
  CodeChallenge : string;
  CodeChallengeMethod : string;
  UserID : string
}.

Record AuthorizeResult := MkResult {
  Session : Session.AuthSession;
  LoginRequired : bool;
  ConsentRequired : bool
}.

Record CompleteAuthResult := MkComplete { c_RedirectURI : string; c_Code : string; c_State : string }.

(** The client metadata document service (cimd.go): an argument, [None] when
    it is disabled. *)

Section service.
Variable cimd : option (string → M Client.Client).

Definition lookupClient (clientID : string) : M Client.Client :=
  r ← try (ClientStore.GetByID clientID);
  match r with
  | Ok c => mret c
  | Err _ =>
      if orb (strings_HasPrefix clientID "http://") (strings_HasPrefix clientID "https://") then
        r ← try (ClientStore.GetByCIMDURL clientID);
        match r with
        | Err _ => throw ErrInvalidClient
        | Ok (Some c) => mret c
        | Ok None =>
            match cimd with
            | None => throw ErrInvalidClient
            | Some VerifyCIMD =>
                r ← try (VerifyCIMD clientID);
                match r with Ok c => mret c | Err _ => throw ErrInvalidClient end
            end
        end
      else throw ErrInvalidClient
  end.

(** ** Scopes *)

(** The loop of [collectDefaultScopes]: with a resource only the first row of
    that URI counts. *)

Definition default_scopes (resources : list ResourceRegistry.ResourceInfo) (resourceURI : string) : list string :=
  if bool_decide (resourceURI ≠ "")
  then dedup (match find (λ r, bool_decide (ResourceRegistry.URI r = resourceURI)) resources with
              | Some r => ResourceRegistry.Scopes r | None => [] end)
  else dedup (mjoin (ResourceRegistry.Scopes <$> resources)).

Definition collectDefaultScopes (resourceURI : string) : M string :=
  resources ← ResourceRegistry.List;
  mret (strings_Join " " (default_scopes resources resourceURI)).

Definition allowed_scopes (resources : list ResourceRegistry.ResourceInfo) (resourceURI : string) : list string :=
  match find (λ r, bool_decide (ResourceRegistry.URI r = resourceURI)) resources with
  | Some r => ResourceRegistry.Scopes r
  | None => []
  end.

Definition validateScopes (scopeStr resourceURI : string) : M unit :=
  resources ← ResourceRegistry.List;
  let allowed : gset string := list_to_set (allowed_scopes resources resourceURI) in
  if bool_decide (size allowed = 0) then throw ErrInvalidScope
  else ensure (forallb (λ sc, bool_decide (sc ∈ allowed)) (strings_Fields scopeStr)) ErrInvalidScope.

(** ** StartAuthorization *)

(** The [resource=] parameter: the resolved row and the canonical URI. *)

Definition resolveResource (requested : string) : M (option Resource.Resource * string) :=
  if bool_decide (requested ≠ "") then
    resolved ← ResourceRegistry.Resolve requested;
    _ ← ensure (Resource.IsMint resolved) ErrConsentResourceNotMint;
    mret (Some resolved, Resource.URI resolved)
  else mret (None, requested).

(** The scope to propose when the request has none. *)

Definition defaultScope (c : Client.Client) (resource : string) : M string :=
  requireScope ← provider (λ e, RequireScope (config e));
  if (requireScope : bool) then throw ErrInvalidScope else
  catalog ← collectDefaultScopes resource;
  let clientScopes := Scope.Parse (Client.Scope c) in
  let defaulted := if negb (Scope.IsEmpty clientScopes)
                   then Scope.Intersect (Scope.Parse catalog) clientScopes else Scope.Parse catalog in
  let sc := Scope.to_String defaulted in
  if bool_decide (sc = "") then throw ErrInvalidScope else mret sc.

Definition effectiveScope (c : Client.Client) (requested resource : string) : M string :=
  sc ← (if bool_decide (requested = "") then defaultScope c resource else mret requested);
  let clientScopes := Scope.Parse (Client.Scope c) in
  _ ← ensure (orb (Scope.IsEmpty clientScopes) (Scope.IsSubset (Scope.Parse sc) clientScopes))
        (TokenService.scopeDenialError c clientScopes);
  _ ← (if andb (bool_decide (sc ≠ "")) (bool_decide (resource ≠ ""))
       then validateScopes sc resource else mret tt);
  mret sc.

(** Whether a consent screen is needed. *)

Definition consentNeeded (req : AuthorizeRequest) (c : Client.Client) (resolved : option Resource.Resource)
    (sc : string) : M bool :=
  match resolved with
  | Some r =>
      if bool_decide (UserID req ≠ "") then
        grant ← ConsentGrantStore.Get (UserID req) (Client.ID c) (Resource.ID r);
        match grant with
        | Some g => mret (negb (andb (negb (Grant.IsRevoked g)) (Grant.CoversScopes g (strings_Fields sc))))
        | None => mret true
        end
      else mret true
  | None => mret true
  end.

Definition StartAuthorization (req : AuthorizeRequest) : M AuthorizeResult :=
  _ ← ensure (bool_decide (ResponseType req = "code")) ErrInvalidGrant;
  c ← lookupClient (ClientID req);
  _ ← ensure (Client.IsActive c) ErrClientSuspended;
  p ← ask params;
  _ ← ensure (Client.HasRedirectURI (url_parse p) c (RedirectURI req)) ErrInvalidRedirectURI;
  _ ← ensure (bool_decide (CodeChallenge req ≠ "")) ErrInvalidPKCE;
  _ ← ensure (ValidateChallengeMethod (CodeChallengeMethod req)) ErrInvalidPKCE;
  rr ← resolveResource (Resource req);
  sc ← effectiveScope c (Scope req) rr.2;
  consentRequired ← consentNeeded req c rr.1 sc;
  now ← time_Now;
  id ← GenerateRandomString;
  let sess := Session.MkSession id (Client.ID c) (UserID req) (RedirectURI req) sc rr.2 (State req) ""
                (CodeChallenge req) (CodeChallengeMethod req) (now + Session.AuthCodeTTL)%Z None now in
  _ ← SessionStore.Create sess;
  mret (MkResult sess (bool_decide (UserID req = "")) consentRequired).

(** ** CompleteAuthorization *)

Definition CompleteAuthorization (sessionID : string) : M CompleteAuthResult :=
  sess ← SessionStore.GetByID sessionID;
  now ← time_Now;
  _ ← ensure (negb (Session.IsExpired now sess)) ErrSessionExpired;
  code ← GenerateRandomString;
  p ← ask params;
  _ ← SessionStore.UpdateCodeHashAndScope sessionID (HashSHA256 p code) (Session.Scope sess);
  mret (MkComplete (Session.RedirectURI sess) code (Session.State sess)).

End service.

(** ** The bound on the deprecation log

    The warning for a client without a ceiling is written at most once per
    client and process; it has no influence on the answer, so the set is kept
    apart from [StartAuthorization]. *)

Definition maxNoCeilingClientsLogged : nat := 1024.

Definition shouldLogNoCeiling (logged : gset string) (clientID : string) : bool * gset string :=
  if bool_decide (clientID ∈ logged) then (false, logged)
  else if bool_decide (maxNoCeilingClientsLogged ≤ size logged) then (false, logged)
  else (true, {[clientID]} ∪ logged).

End AuthorizeService.

Module ConsentService.

Record ScopeInfo := MkScopeInfo { Name : string; Description : string }.

Record ConsentView := MkView {
  SessionID : string;
  ClientName : string;
  v_ClientID : string;
  Resource : string;
  ResourceDisplayName : string;
  ResourceSlug : string;
  Scopes : list ScopeInfo;
  RedirectURI : string
}.

Record GrantConsentRequest := MkGrantConsent {
  g_SessionID : string;
  UserID : string;
  ApprovedScopes : list string;
  Remember : bool
}.

Record GrantConsentResult := MkGrantResult { r_RedirectURI : string; r_Code : string; r_State : string }.

Definition filterScopes (catalog : list Resource.ScopeDef) (requested : list string) : list ScopeInfo :=
  if bool_decide (length requested = 0) then []
  else (λ sc, MkScopeInfo (Resource.Name sc) (Resource.Description sc)) <$>
         filter (λ sc, Resource.Name sc ∈ (list_to_set requested : gset string)) catalog.

Definition displayName (r : Resource.Resource) : string :=
  if bool_decide (Resource.DisplayName r ≠ "") then Resource.DisplayName r
  else if bool_decide (Resource.Slug r ≠ "") then Resource.Slug r else Resource.URI r.

Definition GetPendingConsent (sessionID : string) : M ConsentView :=
  sess ← SessionStore.GetByID sessionID;
  now ← time_Now;
  _ ← ensure (negb (Session.IsExpired now sess)) ErrSessionExpired;
  c ← ClientStore.GetByID (Session.ClientID sess);
  if bool_decide (Session.Resource sess = "") then
    mret (MkView (Session.ID sess) (Client.Name c) (Client.ID c) (Session.Resource sess) "" ""
            ((λ n, MkScopeInfo n "") <$> strings_Fields (Session.Scope sess)) (Session.RedirectURI sess))
  else
    resolved ← ResourceRegistry.Resolve (Session.Resource sess);
    _ ← ensure (Resource.IsMint resolved) ErrConsentResourceNotMint;
    mret (MkView (Session.ID sess) (Client.Name c) (Client.ID c) (Resource.URI resolved)
            (displayName resolved) (Resource.Slug resolved)
            (filterScopes (Resource.Scopes resolved) (strings_Fields (Session.Scope sess)))
            (Session.RedirectURI sess)).

(** The caller may act on the session. *)

Definition owns (sess : Session.AuthSession) (userID : string) : bool :=
  negb (orb (bool_decide (userID = ""))
          (andb (bool_decide (Session.UserID sess ≠ "")) (bool_decide (Session.UserID sess ≠ userID)))).

Section service.
Variables has_tx has_audit : bool.

(** [persistAndCode]: the grant, when there is a resource, then the code. *)

Definition persistAndCode (req : GrantConsentRequest) (sess : Session.AuthSession)
    (resolved : option Resource.Resource) (scopes : list string) (codeHash effectiveScope : string) : M unit :=
  _ ← match resolved with
      | None => mret tt
      | Some r =>
          now ← time_Now;
          id ← GenerateRandomString;
          ConsentGrantStore.Upsert
            (Grant.MkGrant id (UserID req) (Session.ClientID sess) (Resource.ID r) scopes now now None)
      end;
  SessionStore.UpdateCodeHashAndScope (g_SessionID req) codeHash effectiveScope.

Definition resolveSession (sess : Session.AuthSession) : M (option Resource.Resource) :=
  if bool_decide (Session.Resource sess ≠ "") then
    resolved ← ResourceRegistry.Resolve (Session.Resource sess);
    _ ← ensure (Resource.IsMint resolved) ErrConsentResourceNotMint;
    mret (Some resolved)
  else mret None.

Definition GrantConsent (req : GrantConsentRequest) : M GrantConsentResult :=
  sess ← SessionStore.GetByID (g_SessionID req);
  now ← time_Now;
  _ ← ensure (negb (Session.IsExpired now sess)) ErrSessionExpired;
  _ ← ensure (owns sess (UserID req)) ErrInvalidGrant;
  let requestedScopes := Scope.Parse (Session.Scope sess) in
  let approvedScopes := Scope.New (ApprovedScopes req) in
  _ ← ensure (negb (Scope.IsEmpty approvedScopes)) ErrInvalidScope;
  _ ← ensure (Scope.IsSubset approvedScopes requestedScopes) ErrInvalidScope;
  let effectiveScope := Scope.to_String approvedScopes in
  resolved ← resolveSession sess;
  let effectiveScopeList := strings_Fields effectiveScope in
  code ← GenerateRandomString;
  p ← ask params;
  _ ← in_tx has_tx (persistAndCode req sess resolved effectiveScopeList (HashSHA256 p code) effectiveScope);
  _ ← record_audit has_audit
        (Audit.NewEvent Audit.ActionConsentGranted (UserID req) (Session.ClientID sess) ""
           (match resolved with
            | Some r => "resource=" +:+ Resource.Slug r +:+ " scopes=" +:+ strings_Join " " effectiveScopeList
            | None => ""
            end));
  mret (MkGrantResult (Session.RedirectURI sess) code (Session.State sess)).

(** Always an error: [ErrConsentRequired] when the denial was recorded. *)

Definition DenyConsent (sessionID userID : string) : M unit :=
  r ← try (SessionStore.GetByID sessionID);
  _ ← match r with
      | Ok sess => ensure (owns sess userID) ErrInvalidGrant
      | Err _ => mret tt
      end;
  _ ← try (SessionStore.Delete sessionID);
  _ ← record_audit has_audit
        (Audit.NewEvent Audit.ActionConsentDenied "" "" "" ("session=" +:+ sessionID));
  throw ErrConsentRequired.

End service.
End ConsentService.
