(* ===== verification/AuthorizeTheorems.v ===== *)
(** * What the front channel guarantees *)

From S2P Require Import Prelude GoStrings ScopeSet Act Domain Db Effects Crypto Stores Order StoreOrder MintIssuer TokenService TokenProofs Scenario Authorize.

(** ** Traces *)

Section traces.
Context {S : relation DB} `{!PreOrder S} {P : Audit.Event → Prop}.

Lemma traced_validateScopes sc r : Traced S P (AuthorizeService.validateScopes sc r).
Proof. unfold AuthorizeService.validateScopes. traced. Qed.

Lemma traced_defaultScope c r : Traced S P (AuthorizeService.defaultScope c r).
Proof. unfold AuthorizeService.defaultScope, AuthorizeService.collectDefaultScopes. traced. Qed.

Lemma traced_resolveResource r : Traced S P (AuthorizeService.resolveResource r).
Proof. unfold AuthorizeService.resolveResource. traced. Qed.

Lemma traced_consentNeeded req c r sc : Traced S P (AuthorizeService.consentNeeded req c r sc).
Proof. unfold AuthorizeService.consentNeeded. traced. Qed.

Lemma traced_resolveSession x : Traced S P (ConsentService.resolveSession x).
Proof. unfold ConsentService.resolveSession. traced. Qed.

Lemma traced_effectiveScope c a r : Traced S P (AuthorizeService.effectiveScope c a r).
Proof.
  unfold AuthorizeService.effectiveScope. traced; apply traced_defaultScope || apply traced_validateScopes.
Qed.

End traces.

#[export] Hint Resolve traced_effectiveScope traced_resolveResource traced_consentNeeded traced_resolveSession : guar_db.

Section front.
Context {P : Audit.Event → Prop} (cimd : option (string → M Client.Client)).
Hypothesis traced_cimd : ∀ f url, cimd = Some f → Traced db_step P (f url).

Lemma traced_lookupClient id : Traced db_step P (AuthorizeService.lookupClient cimd id).
Proof. unfold AuthorizeService.lookupClient. traced; by apply traced_cimd. Qed.

Hint Resolve traced_lookupClient : guar_db.

Lemma traced_StartAuthorization req : Traced db_step P (AuthorizeService.StartAuthorization cimd req).
Proof. unfold AuthorizeService.StartAuthorization. traced. Qed.

End front.

Lemma traced_CompleteAuthorization {P} id : Traced db_step P (AuthorizeService.CompleteAuthorization id).
Proof. unfold AuthorizeService.CompleteAuthorization. traced. Qed.

Lemma traced_persistAndCode {P} req x r l h sc : Traced db_step P (ConsentService.persistAndCode req x r l h sc).
Proof. unfold ConsentService.persistAndCode. traced. Qed.

#[export] Hint Resolve traced_persistAndCode : guar_db.

Lemma traced_GrantConsent tx au req : Traced db_step (λ _, True) (ConsentService.GrantConsent tx au req).
Proof. unfold ConsentService.GrantConsent. traced. exact I. Qed.

(** ** The scope of a pending session *)

(** Every word of [sc] is a scope of a resource with this URI, in tables the
    run read. *)

Definition in_catalog (sc uri : string) (w w' : World) : Prop :=
  ∃ d r, seen w w' (d, d) ∧ (∃ k, resources d !! k = Some r) ∧ Resource.URI r = uri ∧
    ∀ x, x ∈ strings_Fields sc → x ∈ Resource.scope_names r.

Lemma registry_List_ok e w l w' :
  ResourceRegistry.List e w = (Ok l, w') → ∃ d, seen w w' (d, d) ∧
    l = ResourceRegistry.resourceToInfo <$> ResourceStore.by_slug d.
Proof.
  unfold ResourceRegistry.List. intros H. mstep H. apply ret_ok in H as [<- <-].
  apply query_seen in Hm as (now & d & [= <-] & Hd & _). rewrite ResourceStore.list_rows_all. eauto.
Qed.

Lemma allowed_scopes_row d uri x :
  x ∈ AuthorizeService.allowed_scopes (ResourceRegistry.resourceToInfo <$> ResourceStore.by_slug d) uri →
  ∃ r k, resources d !! k = Some r ∧ Resource.URI r = uri ∧
    AuthorizeService.allowed_scopes (ResourceRegistry.resourceToInfo <$> ResourceStore.by_slug d) uri =
    Resource.scope_names r.
Proof.
  unfold AuthorizeService.allowed_scopes.
  destruct (find _ _) as [i|] eqn:Hf; [|by intros ?%not_elem_of_nil]. intros _.
  apply find_some in Hf as [Hin Hu]. apply list_elem_of_In, list_elem_of_fmap in Hin as (r & -> & Hr).
  apply bool_decide_eq_true in Hu. apply ResourceStore.elem_of_by_slug in Hr as [k Hk]. eauto.
Qed.

Lemma validateScopes_ok sc uri e w u w' :
  AuthorizeService.validateScopes sc uri e w = (Ok u, w') → in_catalog sc uri w w'.
Proof.
  unfold AuthorizeService.validateScopes. intros H. mstep H.
  apply registry_List_ok in Hm as (d & Hd & ->). case_bool_decide as Hs; [by apply throw_ok in H|].
  apply ensure_ok in H as [Hall <-]. rewrite forallb_forall in Hall.
  assert (∃ x, x ∈ AuthorizeService.allowed_scopes
    (ResourceRegistry.resourceToInfo <$> ResourceStore.by_slug d) uri) as [x Hx].
  { destruct (AuthorizeService.allowed_scopes _ _) as [|x l]; [done|]. exists x. by left. }
  destruct (allowed_scopes_row _ _ _ Hx) as (r & k & Hk & Hu & Heq).
  exists d, r. split_and!; eauto. intros y Hy. rewrite <-Heq.
  apply list_elem_of_In, Hall, bool_decide_eq_true in Hy. by apply elem_of_list_to_set in Hy.
Qed.

Lemma in_catalog_sub sc uri w w1 w2 w3 :
  extends w w1 → extends w1 w2 → extends w2 w3 → in_catalog sc uri w1 w2 → in_catalog sc uri w w3.
Proof. intros ??? (d & r & Hd & ?). exists d, r. split; [by eapply seen_sub|done]. Qed.

Record scope_bounded (c : Client.Client) (asked uri sc : string) (w w' : World) : Prop := {
  sb_ceiling : Scope.Parse (Client.Scope c) ≠ ∅ → Scope.Parse sc ⊆ Scope.Parse (Client.Scope c);
  sb_catalog : uri ≠ "" → in_catalog sc uri w w';
  sb_asked : asked ≠ "" → sc = asked;
  sb_some : sc ≠ ""
}.

Lemma defaultScope_ok c uri e w sc w' :
  AuthorizeService.defaultScope c uri e w = (Ok sc, w') → sc ≠ "".
Proof.
  unfold AuthorizeService.defaultScope. intros H. mstep H. case_match; [by apply throw_ok in H|].
  mstep H. case_bool_decide; [by apply throw_ok in H|]. by apply ret_ok in H as [<- _].
Qed.

Lemma effectiveScope_ok c asked uri e w sc w' :
  AuthorizeService.effectiveScope c asked uri e w = (Ok sc, w') → scope_bounded c asked uri sc w w'.
Proof.
  unfold AuthorizeService.effectiveScope. intros H. mstep H.
  assert (a ≠ "" ∧ (asked ≠ "" → a = asked)) as [Hne Ha].
  { clear H. case_bool_decide; [by apply defaultScope_ok in Hm|by apply ret_ok in Hm as [<- _]]. }
  mstep H. mstep H. apply ret_ok in H as [<- <-].
  rewrite (bool_decide_eq_true_2 _ Hne) in Hm1. simpl in Hm1.
  split; try done.
  - intros Hc. apply orb_true_iff in Hm0 as [He|Hs]; [by apply Scope.IsEmpty_spec in He|].
    by apply Scope.IsSubset_spec in Hs.
  - intros Hu. rewrite bool_decide_eq_true_2 in Hm1 by done.
    pose proof (traced_validateScopes (S:=db_step) (P:=λ _, True) a uri) as T1.
    pose proof (traced_defaultScope (S:=db_step) (P:=λ _, True) c uri) as T2.
    ext_all (λ _ : Audit.Event, True).
    eapply (in_catalog_sub _ _ w w1); [done|done|reflexivity|by eapply validateScopes_ok].
Qed.

(** ** What a started authorization established *)

Lemma resolveResource_ok asked e w rr w' :
  AuthorizeService.resolveResource asked e w = (Ok rr, w') →
  match rr.1 with
  | Some r => asked ≠ "" ∧ Resource.IsMint r = true ∧ rr.2 = Resource.URI r
  | None => asked = "" ∧ rr.2 = ""
  end.
Proof.
  unfold AuthorizeService.resolveResource. case_bool_decide as Ha; intros H.
  - mstep H. mstep H. by apply ret_ok in H as [<- _].
  - apply ret_ok in H as [<- _]. by subst.
Qed.

(** Consent is skipped only on an unrevoked grant of the user to the client
    for the resource that covers every requested scope. *)

Definition covered (user client rid sc : string) (w w' : World) : Prop :=
  ∃ d g, seen w w' (d, d) ∧ consent_grants d !! (user, client, rid) = Some g ∧
    Grant.RevokedAt g = None ∧ ∀ x, x ∈ strings_Fields sc → x ∈ Grant.Scopes g.

Lemma covered_sub u c r sc w w1 w2 w3 :
  extends w w1 → extends w1 w2 → extends w2 w3 → covered u c r sc w1 w2 → covered u c r sc w w3.
Proof. intros ??? (d & g & Hd & ?). exists d, g. split; [by eapply seen_sub|done]. Qed.

Lemma scope_bounded_sub c a u sc w w1 w2 w3 :
  extends w w1 → extends w1 w2 → extends w2 w3 → scope_bounded c a u sc w1 w2 → scope_bounded c a u sc w w3.
Proof. intros ??? []. split; try done. intros Hu. by eapply in_catalog_sub, sb_catalog0. Qed.

Lemma consentNeeded_skip req c resolved sc e w w' :
  AuthorizeService.consentNeeded req c resolved sc e w = (Ok false, w') →
  AuthorizeService.UserID req ≠ "" ∧ ∃ r, resolved = Some r ∧
  covered (AuthorizeService.UserID req) (Client.ID c) (Resource.ID r) sc w w'.
Proof.
  unfold AuthorizeService.consentNeeded. intros H.
  destruct resolved as [r|]; [|by apply ret_ok in H as [? _]].
  case_bool_decide as Hu; [|by apply ret_ok in H as [? _]]. mstep H.
  destruct a as [g|]; [|by apply ret_ok in H as [? _]]. apply ret_ok in H as [H <-].
  apply query_seen in Hm as (now & d & [= Hg] & Hd & _).
  destruct (consent_grants d !! _) as [g'|] eqn:Hl; [|done]. case_match eqn:Hr; [done|]. simplify_eq.
  split; [done|]. exists r. split; [done|]. exists d, g. split_and!; try done.
  - unfold Grant.IsRevoked in Hr. apply bool_decide_eq_false, dec_stable in Hr. done.
  - apply Grant.CoversScopes_spec. by destruct (Grant.IsRevoked g), (Grant.CoversScopes g _).
Qed.

Lemma SessionCreate_ok x e w u w' :
  SessionStore.Create x e w = (Ok u, w') → auth_sessions (w_db w') !! Session.ID x = Some x.
Proof.
  intros H. apply store_ok in H as (now & d & d' & _ & _ & Hf & ->). simpl.
  repeat (case_bool_decide; [done|]). injection Hf as <- <-. simpl. apply lookup_insert_eq.
Qed.

(** A pending authorization session is well founded.  When
    [StartAuthorization] succeeds, the client it looked up is active and
    registered the redirect URI, a PKCE challenge with method S256 was given,
    and a session was stored with exactly the request's client, user, redirect
    URI, state and challenge, no code yet, and ten minutes to live.  Its scope
    is the requested one when one was requested, is never empty, stays within
    the client's ceiling when it has one, and, when the session names a
    resource, within that resource's catalog.  Consent is skipped only for a
    logged-in user whose unrevoked grant covers every scope. *)
Theorem start_session_sound cimd req e w res w' :
  (∀ f url, cimd = Some f → Traced db_step (λ _, True) (f url)) →
  AuthorizeService.StartAuthorization cimd req e w = (Ok res, w') →
  ∃ c w1 now id resource sc,
    let sess := AuthorizeService.Session res in
    AuthorizeService.lookupClient cimd (AuthorizeService.ClientID req) e w = (Ok c, w1) ∧
    Client.IsActive c = true ∧
    Client.HasRedirectURI (url_parse (params e)) c (AuthorizeService.RedirectURI req) = true ∧
    AuthorizeService.CodeChallenge req ≠ "" ∧ AuthorizeService.CodeChallengeMethod req = "S256" ∧
    sess = Session.MkSession id (Client.ID c) (AuthorizeService.UserID req) (AuthorizeService.RedirectURI req) sc
             resource (AuthorizeService.State req) "" (AuthorizeService.CodeChallenge req)
             (AuthorizeService.CodeChallengeMethod req) (now + Session.AuthCodeTTL)%Z None now ∧
    auth_sessions (w_db w') !! id = Some sess ∧
    scope_bounded c (AuthorizeService.Scope req) resource sc w w' ∧
    (AuthorizeService.Resource req = "" → resource = "") ∧
    AuthorizeService.LoginRequired res = bool_decide (AuthorizeService.UserID req = "") ∧
    (AuthorizeService.ConsentRequired res = false →
     AuthorizeService.UserID req ≠ "" ∧ ∃ r, Resource.IsMint r = true ∧ resource = Resource.URI r ∧
     covered (AuthorizeService.UserID req) (Client.ID c) (Resource.ID r) sc w w').
Proof.
  intros Hcimd H. unfold AuthorizeService.StartAuthorization in H.
  pose proof (traced_lookupClient (P:=λ _, True) cimd Hcimd) as T.
  do 8 mstep H. mstep H. mstep H. mstep H. mstep H.
  unfold ask in *. simplify_eq.
  mstep H. apply ret_ok in H as [<- <-]. ext_all (λ _ : Audit.Event, True).
  apply resolveResource_ok in Hm6. apply effectiveScope_ok in Hm7. apply SessionCreate_ok in Hm2.
  apply bool_decide_eq_true in Hm4, Hm5.
  exists a0, w2, a9, a10, a6.2, a7. split_and!; try done.
  - apply (scope_bounded_sub _ _ _ _ w0 w w3 w1); try chain_ext; done.
  - intros Ha. destruct a6 as [[r|] u]; simpl in *; naive_solver.
  - simpl. intros ->. apply consentNeeded_skip in Hm8 as (Hu & r & Hr & Hc).
    split; [done|]. exists r. destruct a6 as [o u]. simpl in *. subst o. destruct Hm6 as (_ & ? & ->).
    split_and!; try done. apply (covered_sub _ _ _ _ w0 w3 w4 w1); try chain_ext; done.
Qed.

(** ** Consent *)

Import ConsentService.

Lemma owns_spec x u : owns x u = true ↔ u ≠ "" ∧ (Session.UserID x = "" ∨ Session.UserID x = u).
Proof.
  unfold owns. rewrite negb_true_iff, orb_false_iff, andb_false_iff, !bool_decide_eq_false.
  split; intros [? H]; (split; [done|]); destruct H as [H|H]; try apply dec_stable in H; auto.
Qed.

(** What a persisted approval left in the tables: the code, the approved scope
    and, for a session with a resource, the grant. *)

Record approved (req : GrantConsentRequest) (sess : Session.AuthSession) (resolved : option Resource.Resource)
    (scopes : list string) (h sc : string) (d d' : DB) : Prop := {
  ap_session : ∃ x, auth_sessions d !! g_SessionID req = Some x ∧ Session.ConsumedAt x = None ∧
    auth_sessions d' = <[g_SessionID req := Session.with_code x h sc]> (auth_sessions d);
  ap_grant : match resolved with
    | None => consent_grants d' = consent_grants d
    | Some r => ∃ g, consent_grants d' !! (UserID req, Session.ClientID sess, Resource.ID r) = Some g ∧
        Grant.Scopes g = scopes ∧ Grant.RevokedAt g = None
    end
}.

Lemma UpdateCode_ok id h sc e w u w' :
  SessionStore.UpdateCodeHashAndScope id h sc e w = (Ok u, w') → ∃ d x,
    d = interfere e (w_tick w) (w_db w) ∧
    auth_sessions d !! id = Some x ∧ Session.ConsumedAt x = None ∧
    w_db w' = set_sessions (<[id := Session.with_code x h sc]> (auth_sessions d)) d.
Proof.
  intros H. apply store_ok in H as (now & d & d' & Hd & _ & Hf & ->). exists d. simpl.
  destruct (auth_sessions d !! id) as [x|]; [|done]. case_match eqn:Hc; [done|]. unbool.
  case_bool_decide; [done|]. injection Hf as <- <-. eauto 10.
Qed.

Lemma Upsert_ok g e w u w' :
  ConsentGrantStore.Upsert g e w = (Ok u, w') → ∃ d,
    d = interfere e (w_tick w) (w_db w) ∧
    w_db w' = set_grants (<[(Grant.UserID g, Grant.ClientID g, Grant.ResourceID g) :=
                            ConsentGrantStore.upsert_row g (consent_grants d !! (Grant.UserID g, Grant.ClientID g, Grant.ResourceID g))]>
                           (consent_grants d)) d.
Proof.
  intros H. apply store_ok in H as (now & d & d' & Hd & _ & Hf & ->). exists d. simpl.
  cbv zeta in Hf. case_match; [done|]. case_match; [done|]. by injection Hf as <- <-.
Qed.

(** On one connection the two writes happen together. *)

Lemma persistAndCode_ok req sess resolved scopes h sc e w u w' :
  (∀ n d, interfere e n d = d) →
  persistAndCode req sess resolved scopes h sc e w = (Ok u, w') →
  approved req sess resolved scopes h sc (w_db w) (w_db w').
Proof.
  intros Hq H. unfold persistAndCode in H. mstep H.
  apply UpdateCode_ok in H as (d & x & Hd & Hx & Hc & ->). rewrite Hq in Hd. subst d.
  destruct resolved as [r|].
  - mstep Hm. mstep Hm. unfold time_Now in Hm0. unfold GenerateRandomString in Hm1. simplify_eq.
    apply Upsert_ok in Hm as (d & Hd & Heq). rewrite Hq in Hd. subst d. simpl in Heq.
    split; rewrite Heq in *; simpl in *; [by exists x|].
    eexists. split; [apply lookup_insert_eq|]. unfold ConsentGrantStore.upsert_row. by destruct (_ !! _).
  - apply ret_ok in Hm as [_ ->]. split; [by exists x|done].
Qed.

Lemma New_words scopes sc :
  Scope.New scopes ⊆ Scope.Parse sc → strings_Fields (Scope.to_String (Scope.New scopes)) = Scope.Slice (Scope.New scopes).
Proof.
  intros Hs. apply Scope.Fields_to_String. intros x Hx. apply (Scope.Parse_wf sc). set_solver.
Qed.

Lemma resolveSession_ok sess e w o w' :
  resolveSession sess e w = (Ok o, w') →
  match o with
  | None => Session.Resource sess = ""
  | Some r => Session.Resource sess ≠ "" ∧ Resource.IsMint r = true ∧
      ∃ d, seen w w' (d, d) ∧ ResourceStore.matching (Session.Resource sess) d = [r]
  end.
Proof.
  unfold resolveSession. case_bool_decide as Hr; intros H.
  - mstep H. mstep H. apply ret_ok in H as [<- <-].
    apply Resolve_ok in Hm as (d & Hd & Hr'). eauto 10.
  - by apply ret_ok in H as [<- _].
Qed.

(** What a granted consent established, up to its transaction. *)

Record consent_gates (req : GrantConsentRequest) (e : Env) (w w' : World) (sess : Session.AuthSession)
    (resolved : option Resource.Resource) : Prop := {
  cg_pending : ∃ d, seen w w' (d, d) ∧ auth_sessions d !! g_SessionID req = Some sess;
  cg_unexpired : ∃ n, (clock e n <= Session.ExpiresAt sess)%Z;
  cg_owner : UserID req ≠ "" ∧ (Session.UserID sess = "" ∨ Session.UserID sess = UserID req);
  cg_some : Scope.New (ApprovedScopes req) ≠ ∅;
  cg_within : Scope.New (ApprovedScopes req) ⊆ Scope.Parse (Session.Scope sess);
  cg_mint : match resolved with
    | None => Session.Resource sess = ""
    | Some r => Session.Resource sess ≠ "" ∧ Resource.IsMint r = true
    end
}.

Lemma GrantConsent_ok tx au req e w res w' :
  GrantConsent tx au req e w = (Ok res, w') → ∃ sess resolved w1 w2,
    consent_gates req e w w' sess resolved ∧
    in_tx tx (persistAndCode req sess resolved (Scope.Slice (Scope.New (ApprovedScopes req)))
      (HashSHA256 (params e) (r_Code res)) (Scope.to_String (Scope.New (ApprovedScopes req)))) e w1 = (Ok tt, w2) ∧
    r_RedirectURI res = Session.RedirectURI sess ∧ r_State res = Session.State sess ∧
    extends w w1 ∧ extends w1 w2 ∧ extends w2 w' ∧ w_db w' = w_db w2.
Proof.
  intros H. unfold GrantConsent in H.
  do 11 mstep H. apply ret_ok in H as [<- <-]. unfold ask in Hm7. injection Hm7 as <- <-.
  assert (extends w5 w6 ∧ w_db w6 = w_db w5) as [X Hdb].
  { revert Hm9. unfold record_audit. destruct au; intros [= <- <-]; [|done].
    split; [exists []; by rewrite app_nil_r|done]. }
  ext_all (λ _ : Audit.Event, True). destruct a8.
  unbool. apply Scope.IsEmpty_false in Hm3. apply Scope.IsSubset_spec in Hm4. apply owns_spec in Hm2.
  apply resolveSession_ok in Hm5. rewrite (New_words _ _ Hm4) in Hm8.
  apply query_seen in Hm as (now & d & Hd & Hs & _).
  destruct (auth_sessions d !! _) as [x|] eqn:Hx; [|done]. injection Hd as ->.
  exists a, a5, w3, w5. split_and!; try done; try chain_ext. split; try done.
  - exists d. split; [seen_tac|done].
  - unfold time_Now in Hm0. injection Hm0 as <- <-. eexists. unfold Session.IsExpired in Hm1. unbool.
    apply Z.nlt_ge. exact Hm1.
  - destruct a5; naive_solver.
Qed.

(** A granted consent is exactly what the user approved.  With
    transactions wired, when [GrantConsent] answers a code, the session was
    pending, unexpired and the caller's own (or had no owner), the approved
    scopes are a non-empty subset of the requested ones and the resource is a
    mint resource; and one committed step attached the hash of that code and
    exactly the approved scopes to the unconsumed session and, for a session
    with a resource, stored an unrevoked grant of the user to the client with
    exactly those scopes. *)
Theorem consent_is_what_was_approved au req e w res w' :
  GrantConsent true au req e w = (Ok res, w') → ∃ sess resolved d,
    consent_gates req e w w' sess resolved ∧ seen w w' (d, w_db w') ∧
    approved req sess resolved (Scope.Slice (Scope.New (ApprovedScopes req)))
      (HashSHA256 (params e) (r_Code res)) (Scope.to_String (Scope.New (ApprovedScopes req))) d (w_db w') ∧
    r_RedirectURI res = Session.RedirectURI sess ∧ r_State res = Session.State sess.
Proof.
  intros H. apply GrantConsent_ok in H as (sess & resolved & w1 & w2 & Hg & Htx & Hr & Hs & X1 & X2 & X3 & Hdb).
  apply tx_committed in Htx as (d & w3 & Hp & Hw & Hseen & _).
  exists sess, resolved, d. split_and!; try done.
  - rewrite Hdb. seen_tac.
  - rewrite Hdb, Hw. apply persistAndCode_ok in Hp; [done|]. done.
Qed.

(** A refused or failed consent leaves no trace in the tables.  With
    transactions wired, when [GrantConsent] answers an error every store call
    it made left the tables as they were: no grant without a code, no code
    without its grant. *)
Theorem failed_consent_writes_nothing au req e w x w' :
  GrantConsent true au req e w = (Err x, w') → ∀ st, seen w w' st → st.1 = st.2.
Proof.
  assert (ErrTraced eq (GrantConsent true au req)) as He.
  { unfold GrantConsent.
    do 9 (eapply (err_traced_bind (P:=λ _, True)); [traced|intros ?; cbv zeta]).
    intros e' w1 y w2 H. apply bind_err in H as [H|(p & w3 & _ & H)]; [exact (err_traced_tx _ _ _ _ _ H)|].
    unfold record_audit, mbind, M_bind, mret, M_ret in H. done. }
  intros H st Hst. destruct (He _ _ _ _ H) as (l & Hl & Hf). unfold seen in Hst.
  rewrite (own_steps_app w w' l) in Hst by done. by eapply Forall_forall in Hf.
Qed.

(** ** From consent to token *)

(** Other requests respect the security order and leave sessions alone. *)

Definition sessions_kept (d d' : DB) : Prop := db_step d d' ∧ auth_sessions d' = auth_sessions d.

#[export] Instance sessions_kept_preorder : PreOrder sessions_kept.
Proof. split; [by split|]. intros x y z [H1 E1] [H2 E2]. split; [by etrans|congruence]. Qed.

(** The row an exchanged code was consumed from. *)

Lemma consumeCode_row s req e w r w' :
  TokenService.consumeCode s req e w = (Ok r, w') → ∃ d k c now,
    (∀ S, rely S e → S (w_db w) d) ∧ auth_sessions d !! k = Some c ∧
    Session.CodeHash c = HashSHA256 (params e) (TokenService.Code req) ∧ Session.CodeHash c ≠ "" ∧
    r.2 = Session.with_consumed c (Some now).
Proof.
  unfold TokenService.consumeCode, TokenService.tokenConfig. intros H. mstep H. mstep H.
  unfold ask in Hm. injection Hm as <- <-. mstep H.
  destruct a as [sess|sess]; [|mstep H; by apply throw_ok in H]. apply ret_ok in H as [<- <-].
  apply store_seen in Hm as (now & d & d' & Hf & _ & _ & HS).
  destruct (find_row _ _) as [c|] eqn:Hr; [|clear Hr; by repeat case_match].
  apply find_row_Some in Hr as (k & Hk & Hc). apply andb_true_iff in Hc as [Hc _].
  apply sql_eq_spec in Hc as [Hne Hc]. injection Hf as <- <-.
  by exists d, k, c, now.
Qed.

Lemma issued_for_row s req e w resp w' :
  TokenService.ExchangeCode s req e w = (Ok resp, w') → rely db_step e → wf_db (w_db w) → ∃ d k c,
    (∀ S, rely S e → S (w_db w) d) ∧ auth_sessions d !! k = Some c ∧
    Session.CodeHash c = HashSHA256 (params e) (TokenService.Code req) ∧ Session.CodeHash c ≠ "" ∧
    TokenService.resp_Scope resp = Session.Scope c ∧
    ∃ jkt, signed_for e (TokenService.resp_AccessToken resp) (Session.UserID c) (Session.ClientID c)
             (Session.Scope c) (Session.Resource c) jkt None.
Proof.
  intros H HR Hwf. apply denied_ok, exchangeCode_ok in H as (cs & ca & w1 & w2 & H1 & H2 & H3 & _).
  destruct (traced_db _ _ _ _ _ (traced_consumeCode s req) H1 HR Hwf) as [Hwf1 _].
  destruct (traced_db _ _ _ _ _ (traced_checkCode (P:=λ _, True) s req cs.2) H2 HR Hwf1) as [Hwf2 _].
  destruct (issueForCode_ok _ _ _ _ _ _ _ _ _ _ H3 HR Hwf2) as (fid & now & jkt & Hs & Hsc & _).
  apply consumeCode_row in H1 as (d & k & c & now' & HS & Hk & Hh & Hne & Hr).
  rewrite Hr in Hs, Hsc. exists d, k, c. split_and!; eauto.
Qed.

Lemma code_row d h k c id x sc :
  wf_db d → auth_sessions d !! id = Some (Session.with_code x h sc) →
  auth_sessions d !! k = Some c → Session.CodeHash c = h → Session.CodeHash c ≠ "" →
  c = Session.with_code x h sc.
Proof.
  intros Hwf Hid Hk Hh Hne. enough (k = id) by congruence.
  refine (wf_sessions_code _ Hwf k id _ _ (Session.CodeHash c) Hk Hid _ _); apply nullable_Some; [done|].
  simpl. split; congruence.
Qed.

(** C37: a token carries exactly the consent.  The code answered by
    [GrantConsent] is exchanged, in any later run that succeeds with sessions
    left alone meanwhile, for an access token signed for the session's user,
    client and resource whose scope is exactly the approved scopes: nothing
    requested but unchecked, nothing more. *)
Theorem token_carries_the_consent au req e w res w1 s xreq e2 w2 resp w3 :
  GrantConsent true au req e w = (Ok res, w1) → rely db_step e → wf_db (w_db w) →
  w_db w2 = w_db w1 → rely sessions_kept e2 → params e2 = params e →
  TokenService.Code xreq = r_Code res →
  TokenService.ExchangeCode s xreq e2 w2 = (Ok resp, w3) →
  ∃ d x jkt,
    seen w w1 (d, w_db w1) ∧ auth_sessions d !! g_SessionID req = Some x ∧
    Scope.Parse (TokenService.resp_Scope resp) = Scope.New (ApprovedScopes req) ∧
    signed_for e2 (TokenService.resp_AccessToken resp) (Session.UserID x) (Session.ClientID x)
      (Scope.to_String (Scope.New (ApprovedScopes req))) (Session.Resource x) jkt None.
Proof.
  intros H HR Hwf Hw2 HK Hp Hcode Hx.
  destruct (traced_db _ _ _ _ _ (traced_GrantConsent true au req) H HR Hwf) as [Hwf1 _].
  apply GrantConsent_ok in H as (sess & resolved & wa & wb & Hg & Htx & _ & _ & X1 & X2 & X3 & Hdb).
  apply tx_committed in Htx as (d & wc & Hpc & Hw & Hseen & _).
  apply persistAndCode_ok in Hpc; [|done].
  destruct (ap_session _ _ _ _ _ _ _ _ Hpc) as (x & Hrow & _ & Hins). rewrite <-Hw, <-Hdb in Hins.
  assert (rely db_step e2) as HR2 by (intros n d'; apply HK).
  apply issued_for_row in Hx as (d2 & k & c & HS & Hk & Hh & Hne & Hsc & jkt & Hsig); [|done|by rewrite Hw2].
  destruct (HS _ HK) as [_ Hkept]. rewrite Hkept, Hw2 in Hk.
  assert (c = Session.with_code x (HashSHA256 (params e) (r_Code res))
                (Scope.to_String (Scope.New (ApprovedScopes req)))) as ->.
  { eapply (code_row (w_db w1)); [done|rewrite Hins; apply lookup_insert_eq|done|by rewrite Hh, Hp, Hcode|done]. }
  exists d, x, jkt. split_and!; try done; [rewrite Hdb; seen_tac|].
  rewrite Hsc. simpl. apply Scope.Parse_to_String. intros y Hy. apply (Scope.Parse_wf (Session.Scope sess)).
  apply (cg_within _ _ _ _ _ _ Hg y Hy).
Qed.

(** ** Concrete runs *)

Module FrontRuns.

Definition start_req (resource scope : string) : AuthorizeService.AuthorizeRequest :=
  AuthorizeService.MkAuthorize "app" "https://app/cb" "code" scope "st" resource "~ch" "S256" "alice".

Definition started := AuthorizeService.StartAuthorization None (start_req "api" "read") Scenario.env Scenario.world.

Definition approval : GrantConsentRequest := MkGrantConsent "s1" "alice" ["read"] false.

Definition granted := GrantConsent true true approval Scenario.env Scenario.world.

Definition code : string := match granted.1 with Ok r => r_Code r | Err _ => "" end.

Definition wired : TokenService.Wiring := TokenService.MkWiring true true true true true true true.

Definition exchange : TokenService.ExchangeCodeRequest :=
  TokenService.MkExchangeCode code Scenario.verifier "app" "sec" "https://app/cb" "" "" "POST" "https://as/token".

Definition exchanged := TokenService.ExchangeCode wired exchange Scenario.env granted.2.

(** A resource known by its slug only, with one scope. *)

Definition bare (uri : string) : Resource.Resource :=
  Resource.MkResource "res2" "bare" "Bare" uri Resource.BackendMint "" [Resource.MkScopeDef "read" "" ""]
    [] [] [] Scenario.start Scenario.start.

Definition bare_world (uri : string) : World :=
  MkWorld (set_resources {["res2" := bare uri]} Scenario.db) 0 [] [].

Definition start_bare (uri : string) :=
  AuthorizeService.StartAuthorization None (start_req "bare" "write") Scenario.env (bare_world uri).

Definition succeeds {A} (r : res A) : bool := match r with Ok _ => true | Err _ => false end.

Example started_ok : succeeds started.1 = true.
Proof. vm_compute. reflexivity. Qed.

Example granted_ok : succeeds granted.1 = true.
Proof. vm_compute. reflexivity. Qed.

Example exchanged_ok : succeeds exchanged.1 = true.
Proof. vm_compute. reflexivity. Qed.

Lemma succeeded {A} (r : res A * World) : succeeds r.1 = true → ∃ a, r = (Ok a, r.2).
Proof. destruct r as [[a|x] w]; [eauto|done]. Qed.

End FrontRuns.

(** A resource without a URI loses its catalog.  A mint resource may be
    registered by slug alone; [StartAuthorization] then replaces the requested
    resource by the empty URI, which the following checks read as no resource
    at all: a scope the resource does not declare is accepted, and the session
    is bound to no resource.  The same request for the same resource with a
    URI is refused with [invalid_scope]. *)
Theorem resource_without_uri_skips_catalog :
  (∃ r, (FrontRuns.start_bare "").1 = Ok r ∧
        Session.Scope (AuthorizeService.Session r) = "write" ∧
        Session.Resource (AuthorizeService.Session r) = "") ∧
  (FrontRuns.start_bare "https://bare").1 = Err ErrInvalidScope.
Proof. split; [eexists; split; [vm_compute; reflexivity|]; by vm_compute|vm_compute; reflexivity]. Qed.

Lemma start_session_sound_witness :
  ∃ c w1, AuthorizeService.lookupClient None "app" Scenario.env Scenario.world = (Ok c, w1) ∧ Client.IsActive c = true.
Proof.
  destruct (FrontRuns.succeeded _ FrontRuns.started_ok) as [res H].
  destruct (start_session_sound None _ _ _ _ _ ltac:(done) H) as (c & w1 & now & id & r & sc & Hc & Ha & _).
  exists c, w1. split; [exact Hc|exact Ha].
Defined.

Lemma consent_is_what_was_approved_witness :
  ∃ sess resolved, consent_gates FrontRuns.approval Scenario.env Scenario.world FrontRuns.granted.2 sess resolved.
Proof.
  destruct (FrontRuns.succeeded _ FrontRuns.granted_ok) as [res H].
  destruct (consent_is_what_was_approved _ _ _ _ _ _ H) as (sess & resolved & d & Hg & _). eauto.
Defined.

Lemma failed_consent_writes_nothing_witness :
  let r := GrantConsent true true (MkGrantConsent "s1" "mallory" ["read"] false) Scenario.env Scenario.world in
  r.1 = Err ErrInvalidGrant ∧ ∀ st, seen Scenario.world r.2 st → st.1 = st.2.
Proof.
  assert (∀ r : res GrantConsentResult * World, r.1 = Err ErrInvalidGrant → r = (Err ErrInvalidGrant, r.2)) as Hr
    by (intros [? ?] ?; simpl in *; by subst).
  split; [vm_compute; reflexivity|].
  eapply (failed_consent_writes_nothing true (MkGrantConsent "s1" "mallory" ["read"] false) Scenario.env Scenario.world).
  apply Hr. vm_compute. reflexivity.
Defined.

Lemma token_carries_the_consent_witness :
  ∃ resp, FrontRuns.exchanged.1 = Ok resp ∧ Scope.Parse (TokenService.resp_Scope resp) = Scope.New ["read"].
Proof.
  destruct (FrontRuns.succeeded _ FrontRuns.granted_ok) as [res Hg].
  destruct (FrontRuns.succeeded _ FrontRuns.exchanged_ok) as [resp Hx].
  assert (FrontRuns.code = r_Code res) as Hcode by (unfold FrontRuns.code; by rewrite Hg).
  exists resp. split; [by rewrite Hx|].
  destruct (token_carries_the_consent true FrontRuns.approval Scenario.env Scenario.world res FrontRuns.granted.2
    FrontRuns.wired FrontRuns.exchange Scenario.env FrontRuns.granted.2 resp FrontRuns.exchanged.2 Hg
    (Scenario.env_rely _ _) Scenario.wf eq_refl (Scenario.env_rely _ _) eq_refl Hcode Hx)
    as (d & x & jkt & _ & _ & Hs & _). exact Hs.
Defined.
