(* ===== verification/BrokerIssuer.v ===== *)
(** * internal/services/broker_issuer.go: tokens of upstream providers

    The stored upstream credential of a user is decrypted, handed to the
    adapter of the provider's protocol and, when the upstream rotates it,
    written back under the optimistic lock.  The encryptor and the protocol
    adapters talk to key services and upstream servers: they are the fields
    of [Deps]; [BrokerDeps] states what the issuer relies on. *)

From S2P Require Import Prelude GoStrings ScopeSet Act Domain Db Effects Crypto Stores Order StoreOrder MintIssuer.

Module BrokerIssuer.
Import AgentIdentity MintIssuer.

(** What an adapter's [Vend] answers: the token, its lifetime in seconds and
    the rotated credential, if any. *)

Record Vended := MkVended { v_Token : string; v_ExpiresIn : Z; v_Updated : option string }.

Record Deps := MkDeps {
  Encrypt : string → string → M string;    (* plaintext, owner context *)
  Decrypt : string → string → M string;    (* ciphertext, owner context *)
  Vend : string → option (Broker.BrokerProvider → Resource.Resource → string → list string → M Vended);
    (* by protocol name; None when no adapter is registered *)
  has_audit : bool
}.

(** The encryptor and the adapters use none of the server's tables and write
    no audit rows. *)

Class BrokerDeps (deps : Deps) : Prop := {
  traced_Encrypt a b S P : PreOrder S → Traced S P (Encrypt deps a b);
  traced_Decrypt a b S P : PreOrder S → Traced S P (Decrypt deps a b);
  traced_Vend name f p r c l S P : PreOrder S → Vend deps name = Some f → Traced S P (f p r c l)
}.

(** ** Scopes *)

Definition brokerOwnerContext (userID providerID : string) : string :=
  "broker:" +:+ userID +:+ ":" +:+ providerID.

(** The catalog is a Go map filled in order: a later entry of the same name
    replaces an earlier one. *)

Definition catalog (res : Resource.Resource) : gmap string string :=
  foldl (λ m sc, <[Resource.Name sc := Resource.Upstream sc]> m) ∅ (Resource.Scopes res).

Fixpoint upstream_loop (cat : gmap string string) (seen : gset string) (requested : list string)
    : list string + err :=
  match requested with
  | [] => inl []
  | fine :: rest =>
      match cat !! fine with
      | None => inr ErrScopeNotInCatalog
      | Some up =>
          if orb (bool_decide (up = "")) (bool_decide (up ∈ seen)) then upstream_loop cat seen rest
          else match upstream_loop cat ({[up]} ∪ seen) rest with
               | inl out => inl (up :: out)
               | inr x => inr x
               end
      end
  end.

Definition mapToUpstreamScopes (res : Resource.Resource) (requested : list string) : list string + err :=
  upstream_loop (catalog res) ∅ requested.

Definition scopesNotIn (want have : list string) : list string :=
  filter (λ s, s ∉ (list_to_set have : gset string)) want.

(** ** Issue *)

Definition classify (slug : string) (x : err) : err :=
  match x with
  | ErrUpstreamInvalidGrant => ConsentRequiredError slug "" CauseConsentMissing "invalid_grant" []
  | ErrUpstreamUnavailable => ConsentRequiredError slug "" CauseConsentMissing "upstream_error" []
  | ErrUpstreamScopeDowngrade => ConsentRequiredError slug "" CauseScopeInsufficient "scope_downgrade" []
  | x => x
  end.

Definition broker_issuance (req : IssueRequest) (r : Resource.Resource) (id : string) (now expiresIn : Z)
    : Issuance.Issuance :=
  {| Issuance.ID := id;
     Issuance.SubjectUserID := SubjectUserID req;
     Issuance.ClientID := ActorClientID req;
     Issuance.ResourceID := Resource.ID r;
     Issuance.Scopes := Scopes req;
     Issuance.BackendKind := Resource.BackendBroker;
     Issuance.Revocable := false;
     Issuance.IssuedAt := now;
     Issuance.ExpiresAt := (now + expiresIn * SqlTime.nano)%Z;
     Issuance.RevokedAt := None;
     Issuance.JTI := "";
     Issuance.DPoPJKT := DPoPJKT req;
     Issuance.AgentID := agentIDOf (AgentIdentity req);
     Issuance.AgentChain := Issuance.truncate_chain (agentChainOf (AgentIdentity req));
     Issuance.ConsentClientID := "";
     Issuance.ParentJTI := "" |}.

Section issuer.
Variable deps : Deps.

(** The active grant, when it covers the upstream scopes of the request. *)

Definition coveringGrant (req : IssueRequest) (r : Resource.Resource) (p : Broker.BrokerProvider)
    : M Broker.BrokerGrant :=
  grant ← BrokerGrantStore.Get (SubjectUserID req) (Broker.ID p);
  match grant with
  | None => throw (ConsentRequiredError (Broker.Slug p) "" CauseConsentMissing "" [])
  | Some g =>
      match mapToUpstreamScopes r (Scopes req) with
      | inr x => throw x
      | inl upstream =>
          let missing := scopesNotIn upstream (Broker.ScopesGranted g) in
          if bool_decide (0 < length missing)
          then throw (ConsentRequiredError (Broker.Slug p) "" CauseScopeInsufficient "" missing)
          else mret g
      end
  end.

(** A lost race for the rotation is ignored: the other vend wrote a newer
    credential. *)

Definition persistRotated (g : Broker.BrokerGrant) (ownerContext : string) (updated : option string) : M unit :=
  match updated with
  | None => mret tt
  | Some cred =>
      encrypted ← Encrypt deps cred ownerContext;
      now ← time_Now;
      r ← try (BrokerGrantStore.UpdateWithVersion (Broker.with_credential g encrypted now));
      match r with
      | Ok _ => mret tt
      | Err ErrBrokerGrantConflict => mret tt
      | Err x => throw x
      end
  end.

Definition Issue (req : IssueRequest) : M IssueResponse :=
  match ResourceOf req, ProviderOf req with
  | Some r, Some p =>
      if negb (Resource.IsBroker r)
      then throw (EOther "broker issuer requires a broker resource and resolved provider") else
      grant ← coveringGrant req r p;
      let ownerContext := brokerOwnerContext (SubjectUserID req) (Broker.ID p) in
      plaintext ← Decrypt deps (Broker.CredentialData grant) ownerContext;
      match Vend deps (Broker.Protocol p) with
      | None => throw ErrAdapterNotRegistered
      | Some vend =>
          v ← try (vend p r plaintext (Scopes req));
          match v with
          | Err x => throw (classify (Broker.Slug p) x)
          | Ok v =>
              _ ← persistRotated grant ownerContext (v_Updated v);
              now ← time_Now;
              id ← GenerateRandomString;
              _ ← IssuanceStore.Insert (broker_issuance req r id now (v_ExpiresIn v));
              _ ← record_audit (has_audit deps)
                    (Audit.NewEvent Audit.ActionUpstreamTokenIssued (SubjectUserID req) (ActorClientID req) ""
                       ("provider=" +:+ Broker.Slug p +:+ " resource=" +:+ Resource.Slug r +:+ " scopes="
                          +:+ strings_Join " " (Scopes req)));
              mret (MkIssueResponse (v_Token v) "Bearer" (v_ExpiresIn v) id)
          end
      end
  | _, _ => throw (EOther "broker issuer requires a broker resource and resolved provider")
  end.

End issuer.

(** ** What the scope mapping returns *)

Lemma upstream_loop_spec cat seen l out :
  upstream_loop cat seen l = inl out →
  (∀ fine, fine ∈ l → is_Some (cat !! fine)) ∧
  (∀ fine up, fine ∈ l → cat !! fine = Some up → up ≠ "" → up ∈ out ∨ up ∈ seen) ∧
  (∀ up, up ∈ out → up ≠ "" ∧ ∃ fine, fine ∈ l ∧ cat !! fine = Some up).
Proof.
  revert seen out. induction l as [|x l IH]; intros seen out H; simpl in H; [set_solver|].
  destruct (cat !! x) as [up|] eqn:Hx; [|done].
  destruct (orb _ _) eqn:Ho.
  - destruct (IH _ _ H) as (H1 & H2 & H3). split_and!.
    + intros fine [->|]%elem_of_cons; eauto.
    + intros fine u [->|]%elem_of_cons Hu Hn; [|eauto]. simplify_eq.
      apply orb_true_iff in Ho. rewrite !bool_decide_eq_true in Ho. naive_solver.
    + intros u Hu. destruct (H3 _ Hu) as (? & fine & ? & ?). split; [done|]. exists fine. set_solver.
  - destruct (upstream_loop _ _ l) as [out'|] eqn:E; simplify_eq. unbool.
    destruct (IH _ _ E) as (H1 & H2 & H3). split_and!.
    + intros fine [->|]%elem_of_cons; eauto.
    + intros fine u [->|Hf]%elem_of_cons Hu Hn; [simplify_eq; left; set_solver|].
      destruct (H2 _ _ Hf Hu Hn); set_solver.
    + intros u [->|Hu]%elem_of_cons; [split; [done|]; exists x; set_solver|].
      destruct (H3 _ Hu) as (? & fine & ? & ?). split; [done|]. exists fine. set_solver.
Qed.

Lemma scopesNotIn_nil want have :
  length (scopesNotIn want have) = 0 ↔ ∀ s, s ∈ want → s ∈ have.
Proof.
  unfold scopesNotIn. rewrite length_zero_iff_nil. split.
  - intros H s Hs. destruct (decide (s ∈ have)) as [|Hn]; [done|]. exfalso.
    assert (s ∈ filter (λ s, s ∉ (list_to_set have : gset string)) want) as Hin.
    { apply list_elem_of_filter. split; [set_solver|done]. }
    rewrite H in Hin. set_solver.
  - intros H. destruct (filter _ want) as [|x l] eqn:E; [done|]. exfalso.
    assert (x ∈ filter (λ s, s ∉ (list_to_set have : gset string)) want) as Hin by (rewrite E; left).
    apply list_elem_of_filter in Hin as [? ?]. set_solver.
Qed.

Section order.
Context (deps : Deps) `{!BrokerDeps deps} {P : Audit.Event → Prop}.
Context (HP : ∀ u c d, P (Audit.NewEvent Audit.ActionUpstreamTokenIssued u c "" d)).

Lemma traced_BrokerIssue req : Traced db_step P (Issue deps req).
Proof.
  unfold Issue, coveringGrant, persistRotated.
  traced; [apply traced_Decrypt| |apply traced_Encrypt|apply HP]; try apply _.
  eapply traced_Vend; [apply _|done].
Qed.

End order.

End BrokerIssuer.
