(* ===== verification/ExchangeScopes.v ===== *)
(** * internal/services/token_exchange.go: the scope rules of an exchange

    The pure functions of the file: coverage of a consent grant, the operator
    gates, the scopes an exchange that names none is issued, and the two
    gates of the fronted paths, which read a link's scope map backwards. *)

From S2P Require Import Prelude GoStrings ScopeSet Act Domain.

Module ExchangeScopes.

(** ** Consent, operator and caller *)

Definition scopesNotConsented (grant : option Grant.ConsentGrant) (requested : list string) : list string :=
  match grant with
  | None => requested
  | Some g =>
      if bool_decide (length (Grant.Scopes g) = 0) then requested
      else filter (λ s, s ∉ (list_to_set (Grant.Scopes g) : gset string)) requested
  end.

Definition operatorAllowsClient (allowed : list string) (clientID : string) : bool :=
  if bool_decide (length allowed = 0) then true else slices_Contains allowed clientID.

Definition frontedCallerAuthorized (source target : Resource.Resource) (clientID : string) : bool :=
  orb (slices_Contains (Resource.AllowedClientIDs target) clientID)
    (slices_Contains (Resource.RuntimeClientIDs source) clientID).

Definition frontedInnerActor (subjectClientID sourceSlug callerClientID : string) : string :=
  if orb (bool_decide (subjectClientID = "")) (bool_decide (subjectClientID = sourceSlug))
  then callerClientID else subjectClientID.

Definition validateAgainstCatalog (scopeStr : string) (target : Resource.Resource) : bool :=
  if bool_decide (scopeStr = "") then true
  else forallb (λ sc, bool_decide (sc ∈ (list_to_set (Resource.scope_names target) : gset string)))
         (strings_Fields scopeStr).

(** ** Defaults of the direct paths *)

Definition directBrokerDefaultScopes (attestation : option Grant.ConsentGrant) (target : Resource.Resource)
    (subjectScopes : gset string) : list string :=
  match attestation with
  | None => []
  | Some g =>
      sort_Strings (dedup (filter (λ sc,
        sc ∈ (list_to_set (Resource.scope_names target) : gset string) ∧
        (Scope.IsEmpty subjectScopes = true ∨ Scope.Contains subjectScopes sc = true)) (Grant.Scopes g)))
  end.

Definition directMintDefaultScopes (grant : option Grant.ConsentGrant) (target : Resource.Resource)
    (subjectScopes : gset string) : list string :=
  match grant with
  | Some g => directBrokerDefaultScopes (Some g) target subjectScopes
  | None => sort_Strings (dedup (filter (λ sc, Scope.Contains subjectScopes sc = true)
                                   (Resource.scope_names target)))
  end.

(** ** The scope map read backwards *)

Definition add_sources (src : string) (tgts : list string) (rev : gmap string (list string))
    : gmap string (list string) :=
  foldl (λ r t, <[t := default [] (r !! t) ++ [src]]> r) rev tgts.

Definition reverse_map (m : gmap string (list string)) : gmap string (list string) :=
  map_fold add_sources ∅ m.

(** [sources[0]] after sorting. *)

Definition first_source (m : gmap string (list string)) (t : string) : option string :=
  reverse_map m !! t ≫= λ sources, head (sort_Strings sources).

Definition reaches (m : gmap string (list string)) (subjectScopes : gset string) (t : string) : bool :=
  match first_source m t with
  | Some src => Scope.Contains subjectScopes src
  | None => false
  end.

Definition frontedMintTargetsFor (m : gmap string (list string)) (subjectScopes : gset string) : list string :=
  sort_Strings (filter (λ t, reaches m subjectScopes t = true) ((map_to_list (reverse_map m)).*1)).

Definition frontedBrokerTargetsFor (m : gmap string (list string)) (subjectScopes : gset string) : list string :=
  sort_Strings (elements
    (map_fold (λ src tgts acc, if Scope.Contains subjectScopes src then acc ∪ list_to_set tgts else acc)
       (∅ : gset string) m)).

(** (source scopes, unmapped targets) *)

Definition requiredSourceScopesForTargets (m : gmap string (list string)) (targets : list string)
    : list string * list string :=
  if bool_decide (length targets = 0) then ([], []) else
  let unmapped := filter (λ t, first_source m t = None) targets in
  if bool_decide (0 < length unmapped) then ([], unmapped)
  else (sort_Strings (elements (list_to_set (omap (first_source m) targets) : gset string)), []).

(** (valid, unmapped, missing coverage) *)

Definition covered (m : gmap string (list string)) (subjectScopes : gset string) (t : string) : bool :=
  existsb (Scope.Contains subjectScopes) (default [] (reverse_map m !! t)).

Definition validateBrokerTargets (m : gmap string (list string)) (requested : list string)
    (subjectScopes : gset string) : list string * list string * list string :=
  if bool_decide (length requested = 0) then ([], [], []) else
  let unmapped := filter (λ t, reverse_map m !! t = None) requested in
  let missingCoverage := filter (λ t, is_Some (reverse_map m !! t) ∧ covered m subjectScopes t = false) requested in
  if orb (bool_decide (0 < length unmapped)) (bool_decide (0 < length missingCoverage))
  then ([], unmapped, missingCoverage)
  else (sort_Strings (elements (list_to_set requested : gset string)), [], []).

(** ** Specifications *)

Lemma add_sources_spec src tgts rev t s :
  s ∈ default [] (add_sources src tgts rev !! t) ↔
  s ∈ default [] (rev !! t) ∨ (s = src ∧ t ∈ tgts).
Proof.
  unfold add_sources. revert rev. induction tgts as [|x tgts IH]; intros rev; simpl; [set_solver|].
  rewrite IH, lookup_insert. case_decide; simpl; subst; set_solver.
Qed.

Lemma add_sources_dom src tgts rev t :
  is_Some (add_sources src tgts rev !! t) ↔ is_Some (rev !! t) ∨ t ∈ tgts.
Proof.
  unfold add_sources. revert rev. induction tgts as [|x tgts IH]; intros rev; simpl; [set_solver|].
  rewrite IH, lookup_insert. case_decide; simpl; subst; [|set_solver].
  split; [intros [?|?]; right; set_solver|]. intros [?|?]; left; eauto.
Qed.

Lemma reverse_map_spec m t s :
  s ∈ default [] (reverse_map m !! t) ↔ ∃ tgts, m !! s = Some tgts ∧ t ∈ tgts.
Proof.
  unfold reverse_map.
  apply (map_fold_weak_ind (λ r m, s ∈ default [] (r !! t) ↔ ∃ tgts, m !! s = Some tgts ∧ t ∈ tgts)).
  - rewrite lookup_empty. simpl. split; [set_solver|]. intros (? & H & _). by rewrite lookup_empty in H.
  - intros src tgts m' r Hn IH. rewrite add_sources_spec, IH. split.
    + intros [(l & Hl & ?)|[-> ?]]; [|exists tgts; by rewrite lookup_insert_eq].
      exists l. rewrite lookup_insert_ne by congruence. done.
    + intros (l & Hl & ?). rewrite lookup_insert in Hl. case_decide; simplify_eq; eauto.
Qed.

Lemma reverse_map_dom m t :
  is_Some (reverse_map m !! t) ↔ ∃ s tgts, m !! s = Some tgts ∧ t ∈ tgts.
Proof.
  unfold reverse_map.
  apply (map_fold_weak_ind (λ r m, is_Some (r !! t) ↔ ∃ s tgts, m !! s = Some tgts ∧ t ∈ tgts)).
  - rewrite lookup_empty. split; [by intros []|]. intros (s & l & H & _). by rewrite lookup_empty in H.
  - intros src tgts m' r Hn IH. rewrite add_sources_dom, IH. split.
    + intros [(s & l & Hl & ?)|?]; [|exists src, tgts; by rewrite lookup_insert_eq].
      exists s, l. rewrite lookup_insert_ne by congruence. done.
    + intros (s & l & Hl & ?). rewrite lookup_insert in Hl. case_decide; simplify_eq; eauto.
Qed.

(** The source a target is tied to: the least of those mapped to it. *)

Definition maps_to (m : gmap string (list string)) (s t : string) : Prop :=
  ∃ tgts, m !! s = Some tgts ∧ t ∈ tgts.

Lemma first_source_Some m t s :
  first_source m t = Some s ↔ maps_to m s t ∧ ∀ s', maps_to m s' t → string_le s s'.
Proof.
  unfold first_source, maps_to. setoid_rewrite <-reverse_map_spec.
  destruct (reverse_map m !! t) as [l|]; simpl; [|set_solver].
  destruct (sort_Strings l) as [|x l'] eqn:E; simpl.
  - apply sort_Strings_nil in E as ->. set_solver.
  - destruct (sort_Strings_head _ _ _ E) as [Hx Hle]. split.
    + intros [= <-]. done.
    + intros [Hs Hmin]. f_equal. apply (anti_symm string_le); eauto.
Qed.

Lemma first_source_None m t : first_source m t = None ↔ ∀ s, ¬ maps_to m s t.
Proof.
  unfold first_source, maps_to. setoid_rewrite <-reverse_map_spec.
  destruct (reverse_map m !! t) as [l|] eqn:Hl; simpl; [|set_solver].
  destruct (sort_Strings l) as [|x l'] eqn:E; simpl.
  - apply sort_Strings_nil in E as ->. set_solver.
  - destruct (sort_Strings_head _ _ _ E) as [Hx _]. split; [done|]. intros H. by destruct (H x).
Qed.

Lemma covered_spec m S t : covered m S t = true ↔ ∃ s, s ∈ S ∧ maps_to m s t.
Proof.
  unfold covered. rewrite existsb_exists. setoid_rewrite <-list_elem_of_In.
  setoid_rewrite reverse_map_spec. unfold Scope.Contains. setoid_rewrite bool_decide_eq_true.
  unfold maps_to. naive_solver.
Qed.

(** ** The gates *)

(** A list of targets passes the gate of the fronted mint path. *)

Definition mint_gate (m : gmap string (list string)) (subjectScopes : gset string) (targets : list string) : Prop :=
  (requiredSourceScopesForTargets m targets).2 = [] ∧
  ∀ src, src ∈ (requiredSourceScopesForTargets m targets).1 → src ∈ subjectScopes.

(** The same for the fronted broker path. *)

Definition broker_gate (m : gmap string (list string)) (subjectScopes : gset string) (targets : list string) : Prop :=
  (validateBrokerTargets m targets subjectScopes).1.2 = [] ∧ (validateBrokerTargets m targets subjectScopes).2 = [].

Lemma reaches_spec m S t : reaches m S t = true ↔ ∃ s, first_source m t = Some s ∧ s ∈ S.
Proof.
  unfold reaches, Scope.Contains. destruct (first_source m t) as [s|]; [|naive_solver].
  rewrite bool_decide_eq_true. naive_solver.
Qed.

Lemma filter_nil_iff {A} (Q : A → Prop) `{HD : !∀ x, Decision (Q x)} (l : list A) :
  filter Q l = [] ↔ ∀ x, x ∈ l → ¬ Q x.
Proof.
  split.
  - intros H x Hx HQ. assert (x ∈ filter Q l) as Hin by (by apply list_elem_of_filter).
    rewrite H in Hin. by apply elem_of_nil in Hin.
  - intros H. destruct (filter Q l) as [|x l'] eqn:E; [done|]. exfalso.
    assert (x ∈ filter Q l) as Hin by (rewrite E; left).
    apply list_elem_of_filter in Hin as [HQ Hx]. by eapply H.
Qed.

Lemma mint_gate_spec m S ts : mint_gate m S ts ↔ ∀ t, t ∈ ts → reaches m S t = true.
Proof.
  unfold mint_gate, requiredSourceScopesForTargets. case_bool_decide as Hl.
  { apply length_zero_iff_nil in Hl as ->. simpl. split; [intros _ t Ht; by apply elem_of_nil in Ht|].
    intros _. split; [done|]. intros ? Hs. by apply elem_of_nil in Hs. }
  setoid_rewrite reaches_spec. case_bool_decide as Hu; simpl.
  - split; [intros [Hn _]; rewrite Hn in Hu; simpl in Hu; lia|]. intros H. exfalso.
    assert (filter (λ t, first_source m t = None) ts = []) as Hn.
    { apply filter_nil_iff. intros t Ht Hf. destruct (H _ Ht) as (? & ? & _). congruence. }
    rewrite Hn in Hu. simpl in Hu. lia.
  - assert (filter (λ t, first_source m t = None) ts = []) as Hn
      by (apply length_zero_iff_nil; lia).
    rewrite filter_nil_iff in Hn. split.
    + intros [_ H] t Ht. destruct (first_source m t) as [s|] eqn:E; [|by destruct (Hn _ Ht)].
      exists s. split; [done|]. apply H. rewrite elem_of_sort_Strings, elem_of_elements, elem_of_list_to_set.
      apply list_elem_of_omap. eauto.
    + intros H. split; [done|]. intros s. rewrite elem_of_sort_Strings, elem_of_elements, elem_of_list_to_set.
      intros (t & Ht & Hs)%list_elem_of_omap. destruct (H _ Ht) as (s' & ? & ?). congruence.
Qed.

Lemma broker_gate_spec m S ts : broker_gate m S ts ↔ ∀ t, t ∈ ts → covered m S t = true.
Proof.
  unfold broker_gate, validateBrokerTargets. case_bool_decide as Hl.
  { apply length_zero_iff_nil in Hl as ->. simpl. split; [intros _ t Ht; by apply elem_of_nil in Ht|done]. }
  set (un := filter _ ts). set (mc := filter _ ts).
  assert ((un = [] ∧ mc = []) ↔ ∀ t, t ∈ ts → covered m S t = true) as Hiff.
  { subst un mc. rewrite !filter_nil_iff. split.
    - intros [H1 H2] t Ht. destruct (covered m S t) eqn:E; [done|]. exfalso.
      apply (H2 _ Ht). split; [|done]. apply not_eq_None_Some. by apply H1.
    - intros H. split; intros t Ht; specialize (H t Ht).
      + intros Hn. unfold covered in H. by rewrite Hn in H.
      + intros [_ ?]. congruence. }
  rewrite <-Hiff. repeat case_bool_decide; simpl; try done.
  destruct un, mc; simpl in *; try lia; done.
Qed.

Lemma broker_gate_valid m S ts :
  broker_gate m S ts → ∀ t, t ∈ (validateBrokerTargets m ts S).1.1 ↔ t ∈ ts.
Proof.
  unfold broker_gate, validateBrokerTargets. case_bool_decide as Hl.
  { apply length_zero_iff_nil in Hl as ->. simpl. set_solver. }
  repeat case_bool_decide; simpl.
  - intros [Hn _]. rewrite Hn in *. simpl in *. lia.
  - intros [Hn _]. rewrite Hn in *. simpl in *. lia.
  - intros [_ Hn]. rewrite Hn in *. simpl in *. lia.
  - intros _ t. rewrite elem_of_sort_Strings, elem_of_elements, elem_of_list_to_set. done.
Qed.

Lemma reaches_covered m S t : reaches m S t = true → covered m S t = true.
Proof.
  rewrite reaches_spec, covered_spec. intros (s & [Hs _]%first_source_Some & ?). eauto.
Qed.

Lemma elem_of_frontedMintTargetsFor m S t : t ∈ frontedMintTargetsFor m S ↔ reaches m S t = true.
Proof.
  unfold frontedMintTargetsFor. rewrite elem_of_sort_Strings, list_elem_of_filter. split; [by intros []|].
  intros H. split; [done|]. apply reaches_spec in H as (s & [(l & Hl & Ht) _]%first_source_Some & _).
  assert (is_Some (reverse_map m !! t)) as [v Hv] by (apply reverse_map_dom; eauto).
  apply list_elem_of_fmap. exists (t, v). split; [done|]. by apply elem_of_map_to_list.
Qed.

Lemma elem_of_frontedBrokerTargetsFor m S t : t ∈ frontedBrokerTargetsFor m S ↔ covered m S t = true.
Proof.
  unfold frontedBrokerTargetsFor. rewrite elem_of_sort_Strings, elem_of_elements, covered_spec.
  unfold maps_to, Scope.Contains.
  apply (map_fold_weak_ind (λ r m, t ∈ r ↔ ∃ s, s ∈ S ∧ ∃ tgts, m !! s = Some tgts ∧ t ∈ tgts)).
  - split; [set_solver|]. intros (s & _ & l & Hl & _). by rewrite lookup_empty in Hl.
  - intros src tgts m' r Hn IH. case_bool_decide as Hs; rewrite ?elem_of_union, IH, ?elem_of_list_to_set; split.
    + intros [(s & ? & l & ? & ?)|?]; [|exists src; split; [done|]; exists tgts; by rewrite lookup_insert_eq].
      exists s. split; [done|]. exists l. rewrite lookup_insert_ne by congruence. done.
    + intros (s & ? & l & Hl & ?). rewrite lookup_insert in Hl. case_decide; simplify_eq; eauto 10.
    + intros (s & ? & l & ? & ?). exists s. split; [done|]. exists l. rewrite lookup_insert_ne by congruence. done.
    + intros (s & ? & l & Hl & ?). rewrite lookup_insert in Hl. case_decide; simplify_eq; [done|eauto 10].
Qed.

Lemma elem_of_directMintDefaultScopes grant target S s :
  s ∈ directMintDefaultScopes grant target S ↔
  s ∈ Resource.scope_names target ∧
  match grant with
  | Some g => s ∈ Grant.Scopes g ∧ (S = ∅ ∨ s ∈ S)
  | None => s ∈ S
  end.
Proof.
  unfold directMintDefaultScopes, directBrokerDefaultScopes, Scope.Contains, Scope.IsEmpty.
  destruct grant as [g|]; rewrite elem_of_sort_Strings, elem_of_dedup, list_elem_of_filter, ?bool_decide_eq_true.
  - rewrite elem_of_list_to_set. rewrite size_empty_iff. unfold_leibniz. naive_solver.
  - naive_solver.
Qed.

Lemma scopesNotConsented_nil g requested :
  scopesNotConsented (Some g) requested = [] ↔ ∀ s, s ∈ requested → s ∈ Grant.Scopes g.
Proof.
  unfold scopesNotConsented. case_bool_decide as Hl.
  - apply length_zero_iff_nil in Hl. rewrite Hl. split; [by intros ->; set_solver|].
    intros H. destruct requested as [|x l]; [done|]. specialize (H x ltac:(left)). set_solver.
  - rewrite filter_nil_iff. setoid_rewrite elem_of_list_to_set. split; intros H s Hs; [|naive_solver].
    by apply dec_stable, H.
Qed.

Lemma validateAgainstCatalog_spec sc target :
  validateAgainstCatalog sc target = true ↔ ∀ s, s ∈ strings_Fields sc → s ∈ Resource.scope_names target.
Proof.
  unfold validateAgainstCatalog. case_bool_decide as H.
  - subst. split; [intros _ s Hs; by apply elem_of_nil in Hs|done].
  - rewrite forallb_forall. setoid_rewrite <-list_elem_of_In. setoid_rewrite bool_decide_eq_true.
    by setoid_rewrite elem_of_list_to_set.
Qed.

(** ** Theorems *)

(** An exchange that omits its scope is given exactly what it could have
    asked for.  On the fronted mint path a target is defaulted iff asking for
    it alone passes the link's gate, on the fronted broker path likewise, and
    the defaulted list as a whole passes the same gate; on the direct path the
    default is the part of the resource's catalog that the grant (or, in a
    self-exchange, the subject token) covers, within the subject's scopes. *)
Theorem omitted_scope_is_exact (m : gmap string (list string)) (S : gset string) (grant : option Grant.ConsentGrant)
    (target : Resource.Resource) :
  (∀ t, t ∈ frontedMintTargetsFor m S ↔ mint_gate m S [t]) ∧
  mint_gate m S (frontedMintTargetsFor m S) ∧
  (∀ t, t ∈ frontedBrokerTargetsFor m S ↔ broker_gate m S [t]) ∧
  broker_gate m S (frontedBrokerTargetsFor m S) ∧
  (∀ s, s ∈ directMintDefaultScopes grant target S ↔
     s ∈ Resource.scope_names target ∧
     match grant with
     | Some g => s ∈ Grant.Scopes g ∧ (S = ∅ ∨ s ∈ S)
     | None => s ∈ S
     end).
Proof.
  split_and!; intros; rewrite ?mint_gate_spec, ?broker_gate_spec.
  - rewrite elem_of_frontedMintTargetsFor. set_solver.
  - intros t. by rewrite elem_of_frontedMintTargetsFor.
  - rewrite elem_of_frontedBrokerTargetsFor. set_solver.
  - intros t. by rewrite elem_of_frontedBrokerTargetsFor.
  - apply elem_of_directMintDefaultScopes.
Qed.

(** The two gates of the fronted paths compare.  Whatever the mint path
    admits on a scope map the broker path admits too; the mint gate asks for
    the least source of each target, the broker gate for any one.  The
    converse fails: when two sources map to a target, a subject that holds
    only the second passes the one and is refused by the other. *)
Theorem fronted_gates_compare (m : gmap string (list string)) (S : gset string) (targets : list string) :
  (mint_gate m S targets → broker_gate m S targets) ∧
  (broker_gate m S targets ↔ ∀ t, t ∈ targets → ∃ s, s ∈ S ∧ maps_to m s t) ∧
  (mint_gate m S targets ↔ ∀ t, t ∈ targets → ∃ s, s ∈ S ∧ maps_to m s t ∧
                             ∀ s', maps_to m s' t → string_le s s') ∧
  let two := {["a" := ["t"]; "b" := ["t"]]} : gmap string (list string) in
  broker_gate two {["b"]} ["t"] ∧ ¬ mint_gate two {["b"]} ["t"].
Proof.
  rewrite mint_gate_spec, broker_gate_spec. split_and!.
  - intros H t Ht. by apply reaches_covered, H.
  - split; intros H t Ht; apply covered_spec; eauto.
  - split; intros H t Ht; specialize (H t Ht).
    + apply reaches_spec in H as (s & [? ?]%first_source_Some & ?). eauto.
    + apply reaches_spec. destruct H as (s & ? & ? & ?). exists s. split; [|done]. by apply first_source_Some.
  - intros two. split.
    + apply broker_gate_spec. intros t ->%list_elem_of_singleton. by vm_compute.
    + rewrite mint_gate_spec. intros H. specialize (H "t" ltac:(left)). vm_compute in H. done.
Qed.

End ExchangeScopes.
