(* ===== verification/TokenExchange.v ===== *)
(** * internal/services/token_exchange.go: RFC 8693 token exchange

    A client presents a subject token and asks for one for a resource.  The
    handler authenticates the client, verifies the token and its liveness,
    resolves the resource and dispatches: a mint resource is served from a
    consent grant, a self-exchange or a fronting link, a broker resource
    from an attestation grant or a fronting link.  Without a resource the
    token is re-minted for its own audience.

    [Wiring] records which optional dependencies are non-nil; the registry
    and the machine-token store of the resource-less path are mandatory.  The
    source assigns [req.Scope] on the way; the definitions pass the current
    scope along.  Metrics, spans and logs are left out. *)

From S2P Require Import Prelude GoStrings ScopeSet Act Domain Db Effects Crypto Stores Order StoreOrder MintIssuer TokenService BrokerIssuer Fronting ExchangeScopes.

Module TokenExchangeService.
Import AgentIdentity MintIssuer ExchangeScopes.

Record Wiring := MkWiring {
  has_users : bool;
  has_machine : bool;
  has_revocation : bool;
  has_audit : bool;
  has_dpop : bool;
  has_agentIdentity : bool;
  has_consent : bool;
  has_mint : bool;          (* the mint issuer, and with it the issuance log *)
  has_broker : bool;
  has_fronting : bool
}.

Record TokenExchangeRequest := MkExchange {
  SubjectToken : string;
  SubjectTokenType : string;
  ActorToken : string;
  ActorTokenType : string;
  Scope : string;
  Resource : string;
  ClientID : string;
  ClientSecret : string;
  DPoPProof : string;
  HTTPMethod : string;
  HTTPURL : string
}.

Record TokenExchangeResponse := MkResponse {
  x_AccessToken : string;
  x_IssuedTokenType : string;
  x_TokenType : string;
  x_ExpiresIn : Z;
  x_Scope : string
}.

Section service.
Variable s : Wiring.
Variable deps : BrokerIssuer.Deps.

(** ** Refusals *)

Definition recordDenied (clientID reason : string) : M unit :=
  record_audit (has_audit s)
    (Audit.NewEvent Audit.ActionTokenExchangeDenied clientID clientID "" ("reason=" +:+ reason)).

Definition deny {A} (clientID reason : string) (x : err) : M A :=
  _ ← recordDenied clientID reason; throw x.

(** [if !c { recordDenied; return err }] *)

Definition check (clientID reason : string) (c : bool) (x : err) : M unit :=
  if c then mret tt else deny clientID reason x.

(** [if err != nil { recordDenied; return err }] *)

Definition or_deny {A} (clientID reason : string) (m : M A) : M A :=
  r ← try m;
  match r with Ok a => mret a | Err x => deny clientID reason x end.

(** ** Client, token, liveness *)

Definition authenticateClient (clientID clientSecret : string) : M Client.Client :=
  if orb (bool_decide (clientID = "")) (bool_decide (clientSecret = "")) then throw ErrInvalidClient else
  r ← try (ClientStore.GetByID clientID);
  match r with
  | Err _ => throw ErrInvalidClient
  | Ok c =>
      p ← ask params;
      if negb (Client.IsActive c) then throw ErrClientSuspended
      else if Client.IsPublic c then throw ErrInvalidClient
      else if negb (CompareClientSecret p (Client.SecretHash c) clientSecret) then throw ErrInvalidClient
      else mret c
  end.

Definition verifyToken (issuer rawToken : string) : M AccessTokenClaims :=
  _ ← provider (λ _, tt);  (* BuildJWKS *)
  now ← time_Now;
  p ← ask params;
  match VerifyAccessTokenWithIssuer p now rawToken issuer with
  | Some c => mret c
  | None => throw ErrInvalidGrant
  end.

(** The issuance log is decisive; a failing lookup in the two other tables is
    passed over. *)

Definition checkRevocation (claims : AccessTokenClaims) : M unit :=
  if bool_decide (c_JTI claims = "") then mret tt else
  _ ← (if has_mint s then
         iss ← IssuanceStore.GetByJTI (c_JTI claims);
         match iss with
         | Some i => ensure (negb (Issuance.IsRevoked i)) ErrInvalidGrant
         | None => mret tt
         end
       else mret tt);
  let isMachineToken := bool_decide (c_Subject claims = c_ClientID claims) in
  _ ← (if andb isMachineToken (has_machine s) then
         mt ← try (MachineTokenStore.GetByJTI (c_JTI claims));
         match mt with
         | Ok (Some t) => ensure (negb (Machine.Revoked t)) ErrInvalidGrant
         | _ => mret tt
         end
       else mret tt);
  if andb (negb isMachineToken) (has_revocation s) then
    revoked ← try (RevocationStore.IsRevoked (c_JTI claims));
    match revoked with
    | Ok b => ensure (negb b) ErrInvalidGrant
    | Err _ => mret tt
    end
  else mret tt.

(** An identity that does not resolve is not refused. *)

Definition clientActive (id : string) : M bool :=
  r ← try (ClientStore.GetByID id);
  match r with
  | Ok c => mret (Client.IsActive c)
  | Err ErrInvalidClient | Err ErrClientNotFound => mret true
  | Err x => throw x
  end.

(** The reason of a refusal and its error; a fault has no reason. *)

Definition Liveness : Type := option (string * err).

Definition checkSubjectUser (subject : string) : M (option Liveness) :=
  if negb (has_users s) then mret None else
  r ← try (UserStore.GetByID subject);
  match r with
  | Ok u => mret (Some (if User.IsActive u then None else Some ("subject_inactive", ErrInvalidGrant)))
  | Err ErrUserNotFound => mret None
  | Err x => mret (Some (Some ("", x)))
  end.

Definition checkLiveness (claims : AccessTokenClaims) : M Liveness :=
  issuing ← (if bool_decide (c_ClientID claims ≠ "") then try (clientActive (c_ClientID claims)) else mret (Ok true));
  match issuing with
  | Err x => mret (Some ("", x))
  | Ok false => mret (Some ("issuing_client_inactive", ErrInvalidGrant))
  | Ok true =>
      if andb (bool_decide (c_Subject claims ≠ "")) (bool_decide (c_Subject claims ≠ c_ClientID claims)) then
        u ← checkSubjectUser (c_Subject claims);
        match u with
        | Some v => mret v
        | None =>
            active ← try (clientActive (c_Subject claims));
            match active with
            | Err x => mret (Some ("", x))
            | Ok false => mret (Some ("subject_inactive", ErrInvalidGrant))
            | Ok true => mret None
            end
        end
      else mret None
  end.

Definition refuseInactive (clientID prefix : string) (v : Liveness) : M unit :=
  match v with
  | None => mret tt
  | Some (reason, x) =>
      _ ← when (bool_decide (reason ≠ "")) (recordDenied clientID (prefix +:+ reason));
      throw x
  end.

(** The same checks as in [TokenService], on this service's DPoP store. *)

Definition validateDPoP (proof method reqURL : string) : M string :=
  TokenService.validateDPoP (TokenService.MkWiring false false false false (has_dpop s) false false)
    proof method reqURL "".

Definition proofThumbprint (req : TokenExchangeRequest) : M string :=
  if bool_decide (DPoPProof req ≠ "")
  then or_deny (ClientID req) "invalid_dpop_proof" (validateDPoP (DPoPProof req) (HTTPMethod req) (HTTPURL req))
  else mret "".

(** [cnf.jkt] of the subject token. *)

Definition subjectJKT (claims : AccessTokenClaims) : string :=
  match c_Cnf claims with
  | Some m => match m !! "jkt" with Some (JStr j) => j | _ => "" end
  | None => ""
  end.

Definition verifyActor (req : TokenExchangeRequest) (issuer : string) : M (option AccessTokenClaims) :=
  if bool_decide (ActorToken req = "") then mret None else
  _ ← check (ClientID req) "invalid_request"
        (orb (bool_decide (ActorTokenType req = "")) (Act.IsValidSubjectTokenType (ActorTokenType req))) ErrInvalidGrant;
  ac ← or_deny (ClientID req) "invalid_actor_token" (verifyToken issuer (ActorToken req));
  live ← checkLiveness ac;
  _ ← refuseInactive (ClientID req) "actor_" live;
  mret (Some ac).

(** ** The delegation chain *)

Definition existingAct (claims : AccessTokenClaims) : option Act.ActClaim :=
  Act.SanitizeNonIdentityClaims (Act.ActClaimFromMap (c_Act claims)).

Definition actorHop (clientID : string) (isAgent : bool) (inner : option Act.ActClaim) : Act.ActClaim :=
  Act.MkAct clientID inner {["actor_type" := JStr (if isAgent then "agent" else "service")]}.

Definition checkDepth (req : TokenExchangeRequest) (cfg : Config) (act : option Act.ActClaim) : M unit :=
  check (ClientID req) "chain_too_deep"
    (negb (andb (bool_decide (act ≠ None)) (bool_decide (MaxChainDepth cfg < Act.Depth act)%nat)))
    ErrTokenExchangeChainTooDeep.

(** ** The fronting source and link *)

Fixpoint source_loop (selfIssuer : string) (audience : list string) : M (option Resource.Resource) :=
  match audience with
  | [] => mret None
  | aud :: rest =>
      if orb (bool_decide (aud = "")) (bool_decide (aud = selfIssuer)) then source_loop selfIssuer rest else
      r ← try (ResourceRegistry.Resolve aud);
      match r with
      | Ok src => if Resource.IsMint src then mret (Some src) else source_loop selfIssuer rest
      | Err _ => source_loop selfIssuer rest
      end
  end.

Definition resolveSourceForFronting (audience : list string) : M (option Resource.Resource) :=
  if negb (has_fronting s) then mret None else
  iss ← try (provider (λ e, Issuer (config e)));
  source_loop (match iss with Ok i => i | Err _ => "" end) audience.

Definition isFrontedBrokerExchange (audience : list string) (targetSlug : string) : M bool :=
  source ← resolveSourceForFronting audience;
  match source with
  | None => mret false
  | Some src =>
      if bool_decide (Resource.Slug src = targetSlug) then mret false else
      r ← try (FrontingService.Get (Resource.Slug src) targetSlug);
      mret (match r with Ok _ => true | Err _ => false end)
  end.

(** ** Scope rules with their refusals *)

Definition enforceSubjectScopeCeiling (req : TokenExchangeRequest) (claims : AccessTokenClaims) : M unit :=
  if bool_decide (c_Scope claims = "") then mret tt else
  let requestedScopes := Scope.Parse (Scope req) in
  if Scope.IsEmpty requestedScopes then mret tt
  else check (ClientID req) "subject_scope_ceiling"
         (Scope.IsSubset requestedScopes (Scope.Parse (c_Scope claims))) ErrInvalidScope.

Definition applyDirectMintDefaultScopes (req : TokenExchangeRequest) (grant : option Grant.ConsentGrant)
    (claims : AccessTokenClaims) (target : Resource.Resource) : M string :=
  let derived := directMintDefaultScopes grant target (Scope.Parse (c_Scope claims)) in
  if bool_decide (length derived = 0) then deny (ClientID req) "default_scope_empty" ErrInvalidScope
  else mret (strings_Join " " derived).

(** ** dispatchMint *)

(** The link that drives a fronted exchange, if there is one. *)

Definition frontedPath (req : TokenExchangeRequest) (claims : AccessTokenClaims) (target : Resource.Resource)
    : M (option (Resource.Resource * Link.FrontingLink)) :=
  source ← resolveSourceForFronting (c_Audience claims);
  match source with
  | None => mret None
  | Some src =>
      if bool_decide (Resource.Slug src = Resource.Slug target) then mret None else
      r ← try (FrontingService.Get (Resource.Slug src) (Resource.Slug target));
      match r with
      | Ok link => mret (if Resource.IsMint target then Some (src, link) else None)
      | Err ErrFrontingLinkNotFound => mret None
      | Err x => deny (ClientID req) "fronting_lookup_failed" x
      end
  end.

(** The caller and the scopes of a fronted exchange; the answer is the scope
    that is issued. *)

Definition frontedScope (req : TokenExchangeRequest) (claims : AccessTokenClaims) (target : Resource.Resource)
    (source : Resource.Resource) (link : Link.FrontingLink) : M string :=
  _ ← check (ClientID req) "fronting_caller_not_authorized"
        (frontedCallerAuthorized source target (ClientID req)) ErrTokenExchangeNotAuthorized;
  let subjectScopes := Scope.Parse (c_Scope claims) in
  st ← (if bool_decide (length (strings_Fields (Scope req)) = 0) then
          let derived := frontedMintTargetsFor (Link.ScopeMap link) subjectScopes in
          if bool_decide (length derived = 0)
          then deny (ClientID req) "fronting_subject_scope_insufficient" ErrInvalidScope
          else mret (derived, strings_Join " " derived)
        else mret (strings_Fields (Scope req), Scope req));
  let '(requiredSources, unmapped) := requiredSourceScopesForTargets (Link.ScopeMap link) st.1 in
  _ ← check (ClientID req) "fronting_scope_unmapped" (bool_decide (length unmapped = 0)) ErrInvalidScope;
  _ ← check (ClientID req) "fronting_subject_scope_insufficient"
        (forallb (Scope.Contains subjectScopes) requiredSources) ErrInvalidScope;
  mret st.2.

(** The operator's and the user's authorization of a direct exchange that is
    not a self-exchange. *)

Definition consentScope (req : TokenExchangeRequest) (claims : AccessTokenClaims) (target : Resource.Resource)
    : M string :=
  let agentClientID := c_ClientID claims in
  _ ← check (ClientID req) "cross_client_not_authorized"
        (orb (bool_decide (ClientID req = agentClientID))
           (orb (slices_Contains (Resource.AllowedClientIDs target) (ClientID req))
              (slices_Contains (Resource.RuntimeClientIDs target) (ClientID req)))) ErrTokenExchangeNotAuthorized;
  grant ← or_deny (ClientID req) "consent_lookup_failed"
            (ConsentGrantStore.Get (c_Subject claims) agentClientID (Resource.ID target));
  match grant with
  | None => deny (ClientID req) "consent_required"
              (ConsentRequiredError "" (Resource.Slug target) CauseConsentMissing "" [])
  | Some g =>
      sc ← (if bool_decide (length (strings_Fields (Scope req)) = 0)
            then applyDirectMintDefaultScopes req (Some g) claims target else mret (Scope req));
      let missing := scopesNotConsented (Some g) (strings_Fields sc) in
      _ ← check (ClientID req) "scope_not_consented" (bool_decide (length missing = 0))
            (ConsentRequiredError "" (Resource.Slug target) CauseScopeInsufficient "" missing);
      mret sc
  end.

Definition isSelfExchange (req : TokenExchangeRequest) (claims : AccessTokenClaims) (cfg : Config) : bool :=
  andb (AllowSelfExchange cfg) (bool_decide (ClientID req = c_ClientID claims)).

Definition directScope (req : TokenExchangeRequest) (claims : AccessTokenClaims) (target : Resource.Resource)
    (cfg : Config) : M string :=
  _ ← enforceSubjectScopeCeiling req claims;
  if isSelfExchange req claims cfg then
    if bool_decide (length (strings_Fields (Scope req)) = 0)
    then applyDirectMintDefaultScopes req None claims target else mret (Scope req)
  else consentScope req claims target.

(** The act claim and the client_id of the token. *)

Definition mintAct (req : TokenExchangeRequest) (claims : AccessTokenClaims)
    (fronted : option (Resource.Resource * Link.FrontingLink)) (actor : option AccessTokenClaims)
    : M (option Act.ActClaim * string) :=
  match fronted, actor with
  | Some (source, _), _ =>
      let inner := match existingAct claims with
                   | Some a => a
                   | None => Act.MkAct (frontedInnerActor (c_ClientID claims) (Resource.Slug source) (ClientID req)) None ∅
                   end in
      mret (Some (Act.MkAct (Resource.Slug source) (Some inner) ∅), Resource.Slug source)
  | None, Some _ =>
      c ← or_deny (ClientID req) "client_lookup_failed" (ClientStore.GetByID (ClientID req));
      mret (Some (actorHop (ClientID req) (Client.IsAgent c) (existingAct claims)), ClientID req)
  | None, None => mret (existingAct claims, ClientID req)
  end.

Definition revokeOwnIssuance (issuanceID : string) : M unit :=
  if has_mint s then IssuanceStore.Revoke issuanceID else throw (EOther "issuance store not wired").

(** What the mint was admitted on, read again: the refusal and its reason. *)

Definition recheck (claims : AccessTokenClaims) (agentClientID : string) (target : Resource.Resource)
    (consentGated : bool) : M (option (err * string)) :=
  subject ← (if andb (has_mint s) (bool_decide (c_JTI claims ≠ "")) then
               iss ← try (IssuanceStore.GetByJTI (c_JTI claims));
               mret (match iss with
                     | Err x => Some (x, "subject_recheck_failed")
                     | Ok (Some i) => if Issuance.IsRevoked i
                                      then Some (ErrInvalidGrant, "subject_token_revoked_during_mint") else None
                     | Ok None => None
                     end)
             else mret None);
  match subject with
  | Some r => mret (Some r)
  | None =>
      if consentGated then
        grant ← try (ConsentGrantStore.Get (c_Subject claims) agentClientID (Resource.ID target));
        mret (match grant with
              | Err x => Some (x, "consent_recheck_failed")
              | Ok None => Some (ConsentRequiredError "" (Resource.Slug target) CauseConsentMissing "" [],
                                 "consent_revoked_during_mint")
              | Ok (Some _) => None
              end)
      else mret None
  end.

Definition refuseIfRevokedSinceCheck (callerID : string) (claims : AccessTokenClaims) (agentClientID : string)
    (target : Resource.Resource) (consentGated : bool) (issuanceID : string) : M unit :=
  refusal ← recheck claims agentClientID target consentGated;
  match refusal with
  | None => mret tt
  | Some (x, reason) =>
      _ ← try (revokeOwnIssuance issuanceID);
      deny callerID reason x
  end.

Definition chainKind (fronted : option (Resource.Resource * Link.FrontingLink)) : string :=
  match fronted with Some _ => "fronted" | None => "direct" end.

Definition viaLink (fronted : option (Resource.Resource * Link.FrontingLink)) (target : Resource.Resource) : string :=
  match fronted with Some (src, _) => Resource.Slug src +:+ "->" +:+ Resource.Slug target | None => "" end.

Definition mintAudit (req : TokenExchangeRequest) (claims : AccessTokenClaims) (target : Resource.Resource)
    (fronted : option (Resource.Resource * Link.FrontingLink)) (actor : option AccessTokenClaims)
    (sc issuanceID : string) : Audit.Event :=
  let actorClientID := match actor, fronted with
                       | Some a, _ => c_ClientID a
                       | None, Some _ => ClientID req
                       | None, None => ""
                       end in
  Audit.NewEvent Audit.ActionTokenExchanged (c_Subject claims) (ClientID req) ""
    ("jti=" +:+ issuanceID +:+ " sub=" +:+ c_Subject claims +:+ " subject_client=" +:+ c_ClientID claims
       +:+ " actor_client=" +:+ actorClientID +:+ " type=mint_dispatch resource=" +:+ Resource.Slug target
       +:+ " scopes=" +:+ sc +:+ " chain_kind=" +:+ chainKind fronted +:+ " via_link=" +:+ viaLink fronted target).

(** Steps 6 to 11, once the exchange is authorized for the scope [sc]. *)

Definition mintAuthorized (req : TokenExchangeRequest) (issuer : string) (claims : AccessTokenClaims)
    (target : Resource.Resource) (cfg : Config) (fronted : option (Resource.Resource * Link.FrontingLink))
    (sc : string) : M TokenExchangeResponse :=
  actor ← verifyActor req issuer;
  ai ← mintAct req claims fronted actor;
  _ ← checkDepth req cfg ai.1;
  jkt ← proofThumbprint req;
  let dpopJKT := if bool_decide (jkt = "") then subjectJKT claims else jkt in
  let actMap := Act.ActClaimToMap ai.1 in
  agent ← or_deny (ClientID req) "agent_identity_failed"
            (extractAgentIdentityClaims (has_agentIdentity s) (ClientID req) actMap);
  now ← time_Now;
  let consentClientID := match fronted with None => c_ClientID claims | Some _ => "" end in
  resp ← or_deny (ClientID req) "mint_issue_failed"
           (MintIssuer.Issue
              (MkIssueRequest (Some target) None (c_Subject claims) ai.2 (strings_Fields sc) agent dpopJKT
                 consentClientID (c_JTI claims) [Resource.URI target] actMap (Some now)
                 (Some (now + ExchangeTokenExpiry cfg)%Z)));
  _ ← refuseIfRevokedSinceCheck (ClientID req) claims (c_ClientID claims) target
        (andb (bool_decide (fronted = None)) (negb (isSelfExchange req claims cfg))) (IssuanceID resp);
  _ ← record_audit (has_audit s) (mintAudit req claims target fronted actor sc (IssuanceID resp));
  mret (MkResponse (AccessToken resp) Act.TokenTypeAccessToken (TokenType resp) (ExpiresIn resp) sc).

Definition dispatchMint (req : TokenExchangeRequest) (issuer : string) (claims : AccessTokenClaims)
    (target : Resource.Resource) (cfg : Config) : M TokenExchangeResponse :=
  _ ← check (ClientID req) "wiring_incomplete" (has_mint s)
        (EOther "token exchange: mint issuer not wired for unified Mint dispatch");
  _ ← check (ClientID req) "operator_gate_denied"
        (operatorAllowsClient (Resource.AllowedClientIDs target) (ClientID req)) ErrTokenExchangeNotAuthorized;
  fronted ← frontedPath req claims target;
  sc ← match fronted with
       | Some (source, link) => frontedScope req claims target source link
       | None => directScope req claims target cfg
       end;
  mintAuthorized req issuer claims target cfg fronted sc.

(** ** dispatchBroker *)

Definition resolveActorMCP (clientID : string) : M Resource.Resource :=
  r ← try (ResourceRegistry.FindByRuntimeClientID clientID);
  match r with
  | Ok actor => mret actor
  | Err ErrResourceNotFound =>
      legacy ← try (ResourceRegistry.Resolve clientID);
      match legacy with Ok res => mret res | Err _ => throw ErrResourceNotFound end
  | Err x => throw x
  end.

(** The one audit row of a refusal on the fronted broker path; [sc] is the
    current value of [req.Scope]. *)

Definition emitFrontedBrokerDenialAudit (req : TokenExchangeRequest) (claims : AccessTokenClaims)
    (source target : Resource.Resource) (sc deniedReason : string) : M unit :=
  record_audit (has_audit s)
    (Audit.NewEvent Audit.ActionTokenExchangeDenied (c_Subject claims) (ClientID req) ""
       ("sub=" +:+ c_Subject claims +:+ " subject_client=" +:+ c_ClientID claims +:+ " actor_client=" +:+ ClientID req
          +:+ " type=broker_dispatch resource=" +:+ Resource.Slug target +:+ " scopes=" +:+ sc
          +:+ " chain_kind=fronted via_link=" +:+ Resource.Slug source +:+ "->" +:+ Resource.Slug target
          +:+ " target_kind=broker denied_reason=" +:+ deniedReason)).

Definition upstreamReason (x : err) : string :=
  match x with
  | ConsentRequiredError _ _ cause denied _ =>
      if bool_decide (denied ≠ "") then denied
      else if bool_decide (cause = CauseConsentMissing) then "upstream_connection_missing"
      else if bool_decide (cause = CauseScopeInsufficient) then "upstream_scope_insufficient"
      else "unknown"
  | _ => "broker_vend_failed"
  end.

(** The targets of a fronted broker exchange, with the scope they were named
    by. *)

Definition frontedTargets (req : TokenExchangeRequest) (claims : AccessTokenClaims)
    (source target : Resource.Resource) (link : Link.FrontingLink) (provider : Broker.BrokerProvider)
    : M (list string * string) :=
  let refuse {A} sc reason : M A :=
    _ ← emitFrontedBrokerDenialAudit req claims source target sc reason;
    throw (ConsentRequiredError (Broker.Slug provider) (Resource.Slug target) CauseScopeInsufficient reason []) in
  let subjectScopes := Scope.Parse (c_Scope claims) in
  st ← (if bool_decide (length (strings_Fields (Scope req)) = 0) then
          let derived := frontedBrokerTargetsFor (Link.ScopeMap link) subjectScopes in
          if bool_decide (length derived = 0) then refuse (Scope req) "subject_scope_insufficient"
          else mret (derived, strings_Join " " derived)
        else mret (strings_Fields (Scope req), Scope req));
  let '(translated, unmapped, missingCoverage) := validateBrokerTargets (Link.ScopeMap link) st.1 subjectScopes in
  if bool_decide (0 < length unmapped) then refuse st.2 "scope_unmapped"
  else if bool_decide (0 < length missingCoverage) then refuse st.2 "subject_scope_insufficient"
  else mret (translated, st.2).

(** [if err != nil { emitFrontedBrokerDenialAudit; return err }] *)

Definition or_emit {A} (req : TokenExchangeRequest) (claims : AccessTokenClaims) (source target : Resource.Resource)
    (sc : string) (reason : err → string) (m : M A) : M A :=
  r ← try m;
  match r with
  | Ok a => mret a
  | Err x => _ ← emitFrontedBrokerDenialAudit req claims source target sc (reason x); throw x
  end.

Definition providerOf (target : Resource.Resource) : M (option Broker.BrokerProvider) :=
  rp ← ResourceRegistry.GetWithProvider (Resource.ID target); mret rp.2.

Definition dispatchFrontedBroker (req : TokenExchangeRequest) (claims : AccessTokenClaims)
    (target source : Resource.Resource) (link : Link.FrontingLink) : M TokenExchangeResponse :=
  let emit {A} sc reason := @or_emit A req claims source target sc (λ _, reason) in
  _ ← emit (Scope req) "fronting_caller_not_authorized"
        (ensure (frontedCallerAuthorized source target (ClientID req)) ErrTokenExchangeNotAuthorized);
  prov ← emit (Scope req) "provider_lookup_failed" (providerOf target);
  provider ← emit (Scope req) "provider_missing"
               (match prov with Some p => mret p | None => throw (EOther "broker resource has no provider row") end);
  ts ← frontedTargets req claims source target link provider;
  agent ← emit ts.2 "agent_identity_failed" (extractAgentIdentityClaims (has_agentIdentity s) (ClientID req) None);
  jkt ← (if bool_decide (DPoPProof req ≠ "")
         then emit ts.2 "dpop_invalid" (validateDPoP (DPoPProof req) (HTTPMethod req) (HTTPURL req)) else mret "");
  let dpopJKT := if bool_decide (jkt = "") then subjectJKT claims else jkt in
  resp ← or_emit req claims source target ts.2 upstreamReason
           (BrokerIssuer.Issue deps
              (MkIssueRequest (Some target) (Some provider) (c_Subject claims) (Resource.Slug source) ts.1 agent
                 dpopJKT "" "" [] None None None));
  _ ← record_audit (has_audit s)
        (Audit.NewEvent Audit.ActionTokenExchanged (c_Subject claims) (ClientID req) ""
           ("sub=" +:+ c_Subject claims +:+ " subject_client=" +:+ c_ClientID claims +:+ " actor_client="
              +:+ ClientID req +:+ " type=broker_dispatch resource=" +:+ Resource.Slug target +:+ " scopes="
              +:+ strings_Join " " ts.1 +:+ " chain_kind=fronted via_link=" +:+ Resource.Slug source +:+ "->"
              +:+ Resource.Slug target +:+ " target_kind=broker issuance_id=" +:+ IssuanceID resp));
  mret (MkResponse (AccessToken resp) Act.TokenTypeAccessToken "Bearer" (ExpiresIn resp) (strings_Join " " ts.1)).

(** The attestation of the direct broker path: the scope that is issued. *)

Definition attestedActor (req : TokenExchangeRequest) : M Resource.Resource :=
  r ← try (resolveActorMCP (ClientID req));
  match r with
  | Err ErrResourceNotFound => deny (ClientID req) "agent_attestation_unknown_actor" ErrTokenExchangeNotAuthorized
  | Err ErrAmbiguousResource => deny (ClientID req) "agent_attestation_ambiguous_actor" ErrTokenExchangeNotAuthorized
  | Err x => deny (ClientID req) "actor_resolve_failed" x
  | Ok actor =>
      _ ← check (ClientID req) "agent_attestation_actor_not_mint" (Resource.IsMint actor) ErrTokenExchangeNotAuthorized;
      mret actor
  end.

Definition attestedScope (req : TokenExchangeRequest) (claims : AccessTokenClaims) (target : Resource.Resource)
    : M (list string * string) :=
  actor ← attestedActor req;
  attestation ← or_deny (ClientID req) "agent_attestation_lookup_failed"
                  (ConsentGrantStore.Get (c_Subject claims) (c_ClientID claims) (Resource.ID actor));
  match attestation with
  | None => deny (ClientID req) "agent_attestation_required"
              (ConsentRequiredError "" (Resource.Slug actor) CauseConsentMissing "" [])
  | Some g =>
      st ← (if bool_decide (length (strings_Fields (Scope req)) = 0) then
              let derived := directBrokerDefaultScopes (Some g) target (Scope.Parse (c_Scope claims)) in
              if bool_decide (length derived = 0)
              then deny (ClientID req) "broker_scope_not_consented"
                     (ConsentRequiredError "" (Resource.Slug actor) CauseScopeInsufficient "" [])
              else mret (derived, strings_Join " " derived)
            else mret (strings_Fields (Scope req), Scope req));
      let missing := scopesNotConsented (Some g) st.1 in
      _ ← check (ClientID req) "broker_scope_not_consented" (bool_decide (length missing = 0))
            (ConsentRequiredError "" (Resource.Slug actor) CauseScopeInsufficient "" missing);
      mret st
  end.

(** A consent error of the issuer is rewritten to name provider and resource. *)

Definition brokerIssue (req : TokenExchangeRequest) (target : Resource.Resource) (provider : Broker.BrokerProvider)
    (issue : IssueRequest) : M IssueResponse :=
  r ← try (BrokerIssuer.Issue deps issue);
  match r with
  | Ok resp => mret resp
  | Err (ConsentRequiredError _ _ cause denied missing) =>
      deny (ClientID req) "broker_consent_required"
        (ConsentRequiredError (Broker.Slug provider) (Resource.Slug target) cause denied missing)
  | Err x => deny (ClientID req) "broker_vend_failed" x
  end.

Definition dispatchDirectBroker (req : TokenExchangeRequest) (claims : AccessTokenClaims)
    (target : Resource.Resource) : M TokenExchangeResponse :=
  _ ← enforceSubjectScopeCeiling req claims;
  st ← attestedScope req claims target;
  prov ← or_deny (ClientID req) "provider_lookup_failed" (providerOf target);
  match prov with
  | None => deny (ClientID req) "provider_missing" (EOther "broker resource has no provider row")
  | Some provider =>
      dpopJKT ← proofThumbprint req;
      agent ← or_deny (ClientID req) "agent_identity_failed"
                (extractAgentIdentityClaims (has_agentIdentity s) (ClientID req) None);
      resp ← brokerIssue req target provider
               (MkIssueRequest (Some target) (Some provider) (c_Subject claims) (ClientID req) st.1 agent dpopJKT
                  "" "" [] None None None);
      _ ← record_audit (has_audit s)
            (Audit.NewEvent Audit.ActionTokenExchanged (c_Subject claims) (ClientID req) ""
               ("issuance_id=" +:+ IssuanceID resp +:+ " sub=" +:+ c_Subject claims +:+ " subject_client="
                  +:+ c_ClientID claims +:+ " type=broker_dispatch resource=" +:+ Resource.Slug target
                  +:+ " provider=" +:+ Broker.Slug provider +:+ " scopes=" +:+ st.2));
      mret (MkResponse (AccessToken resp) Act.TokenTypeAccessToken (TokenType resp) (ExpiresIn resp) st.2)
  end.

(** A source without a link to the broker is refused, not served directly. *)

Definition dispatchBroker (req : TokenExchangeRequest) (claims : AccessTokenClaims) (target : Resource.Resource)
    : M TokenExchangeResponse :=
  _ ← check (ClientID req) "wiring_incomplete" (has_broker s)
        (EOther "token exchange: broker issuer not wired for unified Broker dispatch");
  _ ← check (ClientID req) "broker_actor_not_allowed" (bool_decide (ActorToken req = "")) ErrBrokerActorNotAllowed;
  _ ← check (ClientID req) "operator_gate_denied"
        (operatorAllowsClient (Resource.AllowedClientIDs target) (ClientID req)) ErrTokenExchangeNotAuthorized;
  source ← resolveSourceForFronting (c_Audience claims);
  match source with
  | Some src =>
      if bool_decide (Resource.Slug src ≠ Resource.Slug target) then
        r ← try (FrontingService.Get (Resource.Slug src) (Resource.Slug target));
        match r with
        | Ok link => dispatchFrontedBroker req claims target src link
        | Err ErrFrontingLinkNotFound =>
            deny (ClientID req) "fronting_link_missing"
              (FrontingLinkMissingError (Resource.Slug src) (Resource.Slug target))
        | Err x => deny (ClientID req) "fronting_lookup_failed" x
        end
      else dispatchDirectBroker req claims target
  | None => dispatchDirectBroker req claims target
  end.

(** ** handleViaRegistry *)

Definition handleViaRegistry (req : TokenExchangeRequest) (issuer : string) (claims : AccessTokenClaims)
    (target : Resource.Resource) (cfg : Config) : M TokenExchangeResponse :=
  _ ← check (ClientID req) "wiring_incomplete" (has_consent s)
        (EOther "token exchange: consent grant store not wired for unified dispatch");
  isFrontedBroker ← (if Resource.IsBroker target
                     then isFrontedBrokerExchange (c_Audience claims) (Resource.Slug target) else mret false);
  _ ← (if (isFrontedBroker : bool) then mret tt
       else check (ClientID req) "scope_not_in_catalog" (validateAgainstCatalog (Scope req) target) ErrScopeNotInCatalog);
  match Resource.Kind target with
  | Resource.BackendMint => dispatchMint req issuer claims target cfg
  | Resource.BackendBroker => dispatchBroker req claims target
  | Resource.BackendUnknown _ => deny (ClientID req) "unknown_backend_kind" (EOther "token exchange: unknown backend_kind")
  end.

(** ** The resource-less path *)

Definition checkPolicy (requestingClientID : string) (claims : AccessTokenClaims) (cfg : Config) : bool :=
  andb (bool_decide (requestingClientID = c_ClientID claims)) (AllowSelfExchange cfg).

Definition selfAct (req : TokenExchangeRequest) (actingClient : Client.Client) (claims : AccessTokenClaims)
    (actor : option AccessTokenClaims) : option Act.ActClaim :=
  match actor with
  | None => existingAct claims
  | Some _ => Some (actorHop (ClientID req) (Client.IsAgent actingClient) (existingAct claims))
  end.

(** The claims before the agent identity is attached. *)

Definition selfClaims (req : TokenExchangeRequest) (issuer jti : string) (claims : AccessTokenClaims)
    (act : option Act.ActClaim) (scopes : gset string) (dpopJKT : string) (now expiry : Z)
    (agent : AgentIdentityClaims) : AccessTokenClaims :=
  {| c_Issuer := issuer;
     c_Subject := c_Subject claims;
     c_Audience := match c_Audience claims with [] => [issuer] | l => l end;
     c_ClientID := ClientID req;
     c_Scope := Scope.to_String scopes;
     c_JTI := jti;
     c_IssuedAt := Unix now;
     c_Expiry := Unix expiry;
     c_NotBefore := Unix now;
     c_Cnf := if bool_decide (dpopJKT ≠ "") then Some {["jkt" := JStr dpopJKT]} else c_Cnf claims;
     c_Act := Act.ActClaimToMap act;
     c_AgentID := AgentID agent;
     c_AgentChain := AgentChain agent |}.

(** [AttachClaims] on the claims of the new token. *)

Definition attachAgent (clientID : string) (act : option (gmap string json)) : M AgentIdentityClaims :=
  if has_agentIdentity s then
    c ← ClientStore.GetByID clientID;
    mret (attachClaimsForClient act c (MkAgent "" [])).1
  else mret (MkAgent "" []).

Definition exchangeSelf (req : TokenExchangeRequest) (actingClient : Client.Client) (issuer : string)
    (claims : AccessTokenClaims) (cfg : Config) : M TokenExchangeResponse :=
  actor ← verifyActor req issuer;
  let subjectScopes := Scope.Parse (c_Scope claims) in
  let effectiveScopes := if bool_decide (Scope req ≠ "") then Scope.Parse (Scope req) else subjectScopes in
  _ ← check (ClientID req) "invalid_scope"
        (orb (bool_decide (Scope req = "")) (Scope.IsSubset (Scope.Parse (Scope req)) subjectScopes)) ErrInvalidScope;
  _ ← check (ClientID req) "policy_denied" (checkPolicy (ClientID req) claims cfg) ErrTokenExchangeNotAuthorized;
  _ ← check (ClientID req) "default_scope_empty" (negb (Scope.IsEmpty effectiveScopes)) ErrInvalidScope;
  let act := selfAct req actingClient claims actor in
  _ ← checkDepth req cfg act;
  dpopJKT ← proofThumbprint req;
  now ← time_Now;
  let expiry := (now + ExchangeTokenExpiry cfg)%Z in
  jti ← GenerateRandomString;
  _ ← provider (λ _, tt);  (* GetSigningKey *)
  agent ← attachAgent (ClientID req) (Act.ActClaimToMap act);
  let issued := selfClaims req issuer jti claims act effectiveScopes dpopJKT now expiry agent in
  accessToken ← SignAccessToken issued;
  _ ← MachineTokenStore.Save (Machine.MkMachine jti (ClientID req) effectiveScopes "" now expiry false);
  let tokenType := match c_Cnf issued with
                   | Some m => if bool_decide (is_Some (m !! "jkt")) then "DPoP" else "Bearer"
                   | None => "Bearer"
                   end in
  _ ← record_audit (has_audit s)
        (Audit.NewEvent Audit.ActionTokenExchanged (c_Subject claims) (ClientID req) ""
           ("jti=" +:+ jti +:+ " sub=" +:+ c_Subject claims +:+ " subject_client=" +:+ c_ClientID claims
              +:+ " actor_client=" +:+ (match actor with Some a => c_ClientID a | None => "" end)
              +:+ " type=" +:+ (if bool_decide (act ≠ None) then "delegation" else "impersonation")
              +:+ " scopes=" +:+ Scope.to_String effectiveScopes));
  mret (MkResponse accessToken Act.TokenTypeAccessToken tokenType (seconds (ExchangeTokenExpiry cfg))
          (Scope.to_String effectiveScopes)).

(** ** Exchange *)

(** Steps 0 to 5b: the authenticated client, the issuer, the settings and the
    claims of the subject token. *)

Record Accepted := MkAccepted {
  a_Client : Client.Client;
  a_Issuer : string;
  a_Config : Config;
  a_Claims : AccessTokenClaims
}.

Definition acceptRequest (req : TokenExchangeRequest) : M Accepted :=
  _ ← ensure (bool_decide (SubjectToken req ≠ "")) ErrInvalidGrant;
  actingClient ← or_deny (ClientID req) "invalid_client" (authenticateClient (ClientID req) (ClientSecret req));
  _ ← check (ClientID req) "unauthorized_client"
        (hasGrantType (Client.GrantTypes actingClient) Act.GrantTypeTokenExchange) ErrUnauthorizedClient;
  _ ← check (ClientID req) "invalid_request" (Act.IsValidSubjectTokenType (SubjectTokenType req)) ErrInvalidGrant;
  issuer ← provider (λ e, Issuer (config e));
  cfg ← provider config;
  claims ← or_deny (ClientID req) "invalid_subject_token" (verifyToken issuer (SubjectToken req));
  _ ← check (ClientID req) "invalid_issuer" (bool_decide (c_Issuer claims = issuer)) ErrInvalidGrant;
  _ ← or_deny (ClientID req) "subject_token_revoked" (checkRevocation claims);
  live ← checkLiveness claims;
  _ ← refuseInactive (ClientID req) "" live;
  mret (MkAccepted actingClient issuer cfg claims).

Definition resolveTarget (req : TokenExchangeRequest) : M Resource.Resource :=
  r ← try (ResourceRegistry.Resolve (Resource req));
  match r with
  | Ok target => mret target
  | Err ErrResourceNotFound => deny (ClientID req) "resource_not_found" ErrResourceNotFound
  | Err ErrAmbiguousResource => deny (ClientID req) "ambiguous_resource" ErrAmbiguousResource
  | Err x => deny (ClientID req) "resource_resolve_failed" x
  end.

Definition Exchange (req : TokenExchangeRequest) : M TokenExchangeResponse :=
  a ← acceptRequest req;
  if bool_decide (Resource req ≠ "") then
    target ← resolveTarget req;
    handleViaRegistry req (a_Issuer a) (a_Claims a) target (a_Config a)
  else exchangeSelf req (a_Client a) (a_Issuer a) (a_Claims a) (a_Config a).

End service.
End TokenExchangeService.
