(* ===== verification/ExchangeProofs.v ===== *)
(** * Token exchange: traces, and what each part of a successful run read *)

From S2P Require Import Prelude GoStrings ScopeSet Act Domain Db Effects Crypto Stores Order StoreOrder MintIssuer TokenService TokenProofs BrokerIssuer Fronting ExchangeScopes TokenExchange.
Import AgentIdentity MintIssuer ExchangeScopes TokenExchangeService.

(** ** Traces *)

(** The audit rows of an exchange driven by client [cid]. *)

Definition exchange_event (cid : string) (ev : Audit.Event) : Prop :=
  Audit.action ev = Audit.ActionUpstreamTokenIssued ∨
  (Audit.ClientID ev = cid ∧
   (Audit.action ev = Audit.ActionTokenExchanged ∨ Audit.action ev = Audit.ActionTokenExchangeDenied)).

Section traces.
Context (s : Wiring) (cid : string) (P : Audit.Event → Prop) (HP : ∀ ev, exchange_event cid ev → P ev).

Lemma traced_recordDenied_x {S : relation DB} `{!PreOrder S} r : Traced S P (recordDenied s cid r).
Proof. unfold recordDenied. traced. apply HP. right. auto. Qed.

Lemma traced_deny {S : relation DB} `{!PreOrder S} {A} r x : Traced S P (deny (A:=A) s cid r x).
Proof. unfold deny. traced. apply (traced_recordDenied_x _). Qed.

Lemma traced_check {S : relation DB} `{!PreOrder S} r c x : Traced S P (check s cid r c x).
Proof. unfold check. traced. apply (traced_deny _). Qed.

Lemma traced_or_deny {S : relation DB} `{!PreOrder S} {A} r (m : M A) :
  Traced S P m → Traced S P (or_deny s cid r m).
Proof. intros Hm. unfold or_deny. traced. apply (traced_deny _). Qed.

End traces.

#[export] Hint Resolve traced_recordDenied_x traced_deny traced_check traced_or_deny : guar_db.
#[export] Hint Extern 0 True => exact I : guar_db.

Section reads.
Context {S : relation DB} `{!PreOrder S} (s : Wiring) (cid : string) (P : Audit.Event → Prop).

Lemma traced_authenticateClient_x c x : Traced S P (authenticateClient c x).
Proof. unfold authenticateClient. traced. Qed.

Lemma traced_verifyToken i t : Traced S P (verifyToken i t).
Proof. unfold verifyToken. traced. Qed.

Lemma traced_checkRevocation claims : Traced S P (checkRevocation s claims).
Proof. unfold checkRevocation. traced. Qed.

Lemma traced_checkLiveness claims : Traced S P (checkLiveness s claims).
Proof. unfold checkLiveness, checkSubjectUser, clientActive. traced. Qed.

Lemma traced_source_loop i auds : Traced S P (source_loop i auds).
Proof. induction auds as [|a auds IH]; simpl; traced; apply IH. Qed.

Lemma traced_resolveSource auds : Traced S P (resolveSourceForFronting s auds).
Proof. unfold resolveSourceForFronting. traced. apply traced_source_loop. Qed.

Lemma traced_FrontingGet a b : Traced S P (FrontingService.Get a b).
Proof. unfold FrontingService.Get. traced. Qed.

Lemma traced_resolveActorMCP c : Traced S P (resolveActorMCP c).
Proof. unfold resolveActorMCP. traced. Qed.

Lemma traced_providerOf t : Traced S P (providerOf t).
Proof. unfold providerOf. traced. Qed.

Lemma traced_agent b c act : Traced S P (extractAgentIdentityClaims b c act).
Proof. unfold extractAgentIdentityClaims. traced. Qed.

Lemma traced_recheck claims a t g : Traced S P (recheck s claims a t g).
Proof. unfold recheck. traced. Qed.

End reads.

#[export] Hint Resolve traced_authenticateClient_x traced_verifyToken traced_checkRevocation
  traced_checkLiveness traced_source_loop traced_resolveSource traced_FrontingGet
  traced_resolveActorMCP traced_providerOf traced_agent traced_recheck : guar_db.

(** The parts whose only writes are the DPoP replay cache and the issuer's, for
    any order these respect. *)

Section parts.
Context {S : relation DB} `{!PreOrder S} (s : Wiring) (req : TokenExchangeRequest) (P : Audit.Event → Prop)
  (HP : ∀ ev, exchange_event (ClientID req) ev → P ev).

Lemma traced_refuseInactive pre v : Traced S P (refuseInactive s (ClientID req) pre v).
Proof. unfold refuseInactive. traced. Qed.
#[local] Hint Resolve traced_refuseInactive : guar_db.

Lemma traced_verifyActor i : Traced S P (verifyActor s req i).
Proof. unfold verifyActor. traced. Qed.

Lemma traced_acceptRequest : Traced S P (acceptRequest s req).
Proof. unfold acceptRequest. traced. Qed.

Lemma traced_resolveTarget : Traced S P (resolveTarget s req).
Proof. unfold resolveTarget. traced. Qed.

Lemma traced_checkDepth cfg a : Traced S P (checkDepth s req cfg a).
Proof. unfold checkDepth. traced. Qed.

Lemma traced_frontedPath claims t : Traced S P (frontedPath s req claims t).
Proof. unfold frontedPath. traced. Qed.

Lemma traced_frontedScope claims t src l : Traced S P (frontedScope s req claims t src l).
Proof. unfold frontedScope. traced. Qed.

Lemma traced_ceiling claims : Traced S P (enforceSubjectScopeCeiling s req claims).
Proof. unfold enforceSubjectScopeCeiling. traced. Qed.

Lemma traced_defaults g claims t : Traced S P (applyDirectMintDefaultScopes s req g claims t).
Proof. unfold applyDirectMintDefaultScopes. traced. Qed.
#[local] Hint Resolve traced_ceiling traced_defaults : guar_db.

Lemma traced_directScope claims t cfg : Traced S P (directScope s req claims t cfg).
Proof. unfold directScope, consentScope. traced. Qed.

Lemma traced_mintAct claims f a : Traced S P (mintAct s req claims f a).
Proof. unfold mintAct. traced. Qed.

Lemma traced_emit claims src t sc r : Traced S P (emitFrontedBrokerDenialAudit s req claims src t sc r).
Proof. unfold emitFrontedBrokerDenialAudit. traced. apply HP. right. auto. Qed.
#[local] Hint Resolve traced_emit : guar_db.

Lemma traced_or_emit {A} claims src t sc r (m : M A) :
  Traced S P m → Traced S P (or_emit s req claims src t sc r m).
Proof. intros Hm. unfold or_emit. traced. Qed.
#[local] Hint Resolve traced_or_emit : guar_db.

Context (HJ : ∀ j x, Traced S P (DPoPNonceStore.ConsumeJTI j x)).

Lemma traced_validateDPoP_x a b c : Traced S P (validateDPoP s a b c).
Proof. unfold validateDPoP, TokenService.validateDPoP. traced. Qed.
#[local] Hint Resolve traced_validateDPoP_x : guar_db.

Lemma traced_proofThumbprint : Traced S P (proofThumbprint s req).
Proof. unfold proofThumbprint. traced. Qed.
#[local] Hint Resolve traced_proofThumbprint : guar_db.

Context (deps : BrokerIssuer.Deps) (HI : ∀ i, Traced S P (BrokerIssuer.Issue deps i)).

Lemma traced_dispatchFrontedBroker claims t src l : Traced S P (dispatchFrontedBroker s deps req claims t src l).
Proof.
  unfold dispatchFrontedBroker, frontedTargets. traced; try (apply traced_or_emit; traced).
  apply HP. right. auto.
Qed.

Lemma traced_dispatchDirectBroker claims t : Traced S P (dispatchDirectBroker s deps req claims t).
Proof.
  unfold dispatchDirectBroker, attestedScope, attestedActor, brokerIssue. traced.
  apply HP. right. auto.
Qed.

Lemma traced_dispatchBroker claims t : Traced S P (dispatchBroker s deps req claims t).
Proof.
  unfold dispatchBroker. traced; auto using traced_dispatchFrontedBroker, traced_dispatchDirectBroker.
Qed.

End parts.

#[export] Hint Resolve traced_refuseInactive traced_validateDPoP_x traced_proofThumbprint traced_verifyActor
  traced_checkDepth traced_frontedPath traced_frontedScope traced_ceiling traced_defaults traced_directScope
  traced_mintAct traced_emit traced_or_emit traced_dispatchFrontedBroker traced_dispatchDirectBroker
  traced_dispatchBroker traced_acceptRequest traced_resolveTarget : guar_db.

Section order.
Context (s : Wiring) (deps : BrokerIssuer.Deps) `{!BrokerIssuer.BrokerDeps deps}.
Context (req : TokenExchangeRequest) (P : Audit.Event → Prop)
  (HP : ∀ ev, exchange_event (ClientID req) ev → P ev).

Lemma traced_broker_Issue i : Traced db_step P (BrokerIssuer.Issue deps i).
Proof. apply BrokerIssuer.traced_BrokerIssue; [done|]. intros. apply HP. by left. Qed.
#[local] Hint Resolve traced_broker_Issue : guar_db.

Lemma traced_dispatchDirectBroker_le claims t : Traced db_step P (dispatchDirectBroker s deps req claims t).
Proof. apply traced_dispatchDirectBroker; auto with guar_db nocore. Qed.

Lemma traced_dispatchBroker_le claims t : Traced db_step P (dispatchBroker s deps req claims t).
Proof. apply traced_dispatchBroker; auto with guar_db nocore. Qed.

Lemma traced_refuseIfRevoked claims a t g i :
  Traced db_step P (refuseIfRevokedSinceCheck s (ClientID req) claims a t g i).
Proof. unfold refuseIfRevokedSinceCheck, revokeOwnIssuance. traced. Qed.
#[local] Hint Resolve traced_refuseIfRevoked : guar_db.

Lemma traced_mintAuthorized i claims t cfg f sc : Traced db_step P (mintAuthorized s req i claims t cfg f sc).
Proof. unfold mintAuthorized. traced. apply HP. right. auto. Qed.

Lemma traced_dispatchMint i claims t cfg : Traced db_step P (dispatchMint s req i claims t cfg).
Proof. unfold dispatchMint. traced. apply traced_mintAuthorized. Qed.

Lemma traced_handleViaRegistry i claims t cfg : Traced db_step P (handleViaRegistry s deps req i claims t cfg).
Proof. unfold handleViaRegistry, isFrontedBrokerExchange. traced; auto using traced_dispatchMint. Qed.

Lemma traced_exchangeSelf c i claims cfg : Traced db_step P (exchangeSelf s req c i claims cfg).
Proof. unfold exchangeSelf, attachAgent, SignAccessToken. traced. apply HP. right. auto. Qed.

Lemma traced_Exchange_x : Traced db_step P (Exchange s deps req).
Proof. unfold Exchange. traced; auto using traced_handleViaRegistry, traced_exchangeSelf. Qed.

End order.

#[export] Hint Resolve traced_dispatchDirectBroker_le traced_dispatchBroker_le traced_refuseIfRevoked traced_mintAuthorized traced_dispatchMint traced_broker_Issue
  traced_handleViaRegistry traced_exchangeSelf traced_Exchange_x : guar_db.

(** ** Inversions *)

Lemma deny_ok {A} s cid r x e w (a : A) w' : deny s cid r x e w = (Ok a, w') → False.
Proof. unfold deny. intros H. mstep H. by apply throw_ok in H. Qed.

Lemma check_ok s cid r c x e w u w' : check s cid r c x e w = (Ok u, w') → c = true ∧ w' = w.
Proof. unfold check. destruct c; intros H; [by apply ret_ok in H as [_ <-]|by apply deny_ok in H]. Qed.

Lemma or_deny_ok {A} s cid r (m : M A) e w a w' : or_deny s cid r m e w = (Ok a, w') → m e w = (Ok a, w').
Proof.
  unfold or_deny. intros H. mstep H. destruct a0; [by apply ret_ok in H as [<- <-]|by apply deny_ok in H].
Qed.

Lemma or_emit_ok {A} s req claims src t sc r (m : M A) e w a w' :
  or_emit s req claims src t sc r m e w = (Ok a, w') → m e w = (Ok a, w').
Proof.
  unfold or_emit. intros H. mstep H. destruct a0; [by apply ret_ok in H as [<- <-]|].
  mstep H. by apply throw_ok in H.
Qed.

Lemma refuseInactive_ok s cid pre v e w u w' : refuseInactive s cid pre v e w = (Ok u, w') → v = None ∧ w' = w.
Proof.
  unfold refuseInactive. destruct v as [[r x]|]; intros H; [|by apply ret_ok in H as [_ <-]].
  mstep H. by apply throw_ok in H.
Qed.

(** [xstep H] takes one bind of a successful run apart. *)

Ltac xstep H :=
  mstep H;
  lazymatch goal with
  | Hm : check _ _ _ _ _ _ _ = (Ok _, _) |- _ => apply check_ok in Hm as [Hm ->]
  | Hm : or_deny _ _ _ _ _ _ = (Ok _, _) |- _ => apply or_deny_ok in Hm
  | Hm : or_emit _ _ _ _ _ _ _ _ _ _ = (Ok _, _) |- _ => apply or_emit_ok in Hm
  | Hm : refuseInactive _ _ _ _ _ _ = (Ok _, _) |- _ => apply refuseInactive_ok in Hm as [-> ->]
  | _ => idtac
  end.

Lemma authenticateClient_x id secret e w c w' :
  authenticateClient id secret e w = (Ok c, w') → ∃ d,
    seen w w' (d, d) ∧ clients d !! id = Some c ∧ Client.IsPublic c = false ∧ authentic (params e) c secret.
Proof.
  unfold authenticateClient. case_match eqn:Hs; [by intros ?%throw_ok|]. intros H. mstep H. unbool.
  apply ClientStore_answer in Hm as [->|(d & Hd & ->)]; [by apply throw_ok in H|].
  destruct (clients d !! id) as [c'|] eqn:Hc; [|by apply throw_ok in H].
  mstep H. unfold ask in Hm. simplify_eq. unfold authentic.
  repeat (case_match; [by apply throw_ok in H|]). apply ret_ok in H as [<- <-]. unbool.
  exists d. repeat match goal with Hq : Client.IsPublic _ = false |- _ => rewrite Hq end. done.
Qed.

Lemma verifyToken_ok i t e w c w' :
  verifyToken i t e w = (Ok c, w') → ∃ now, VerifyAccessTokenWithIssuer (params e) now t i = Some c.
Proof.
  unfold verifyToken. intros H. repeat mstep H. unfold ask in *. simplify_eq.
  case_match eqn:Hv; [|by apply throw_ok in H]. apply ret_ok in H as [<- <-]. eauto.
Qed.

Section accept.
Context (s : Wiring) (claims : AccessTokenClaims).

Lemma checkRevocation_ok e w u w' :
  checkRevocation s claims e w = (Ok u, w') → has_mint s = true → c_JTI claims ≠ "" →
  ∃ d, seen w w' (d, d) ∧ issuance_live d (c_JTI claims).
Proof.
  unfold checkRevocation. intros H Hm Hj. rewrite bool_decide_eq_false_2 in H by done. rewrite Hm in H.
  mstep H. mstep Hm0.
  assert (∃ d, seen w w1 (d, d) ∧ issuance_live d (c_JTI claims)) as (d & Hd & Hlive).
  { apply query_seen in Hm1 as (now & d & [= Hf] & Hd & _). exists d. split; [done|].
    intros i Hi. rewrite Hi in Hf. simplify_eq. apply ensure_ok in Hm0 as [Hn _].
    by destruct (Issuance.IsRevoked i). }
  exists d. split; [|done]. mstep H. ext_all (λ _ : Audit.Event, True). seen_tac.
Qed.

Lemma clientActive_ok id e w w' :
  clientActive id e w = (Ok true, w') →
  ∃ d, seen w w' (d, d) ∧ ∀ c, clients d !! id = Some c → Client.IsActive c = true.
Proof.
  unfold clientActive. intros H. mstep H.
  apply ClientStore_answer in Hm as [->|(d & Hd & ->)]; [by apply throw_ok in H|].
  destruct (clients d !! id) as [c|] eqn:Hc; apply ret_ok in H as [H <-]; exists d; (split; [done|]);
    intros c' Hc'; by simplify_eq.
Qed.

Lemma checkLiveness_ok e w w' :
  checkLiveness s claims e w = (Ok None, w') →
  (c_ClientID claims ≠ "" → ∃ d, seen w w' (d, d) ∧
     ∀ c, clients d !! c_ClientID claims = Some c → Client.IsActive c = true) ∧
  (has_users s = true → c_Subject claims ≠ "" → c_Subject claims ≠ c_ClientID claims →
     ∃ d, seen w w' (d, d) ∧ ∀ u, users d !! c_Subject claims = Some u → User.IsActive u = true).
Proof.
  unfold checkLiveness. intros H. mstep H.
  assert (Traced db_step (λ _, True)
    (if bool_decide (c_ClientID claims ≠ "") then try (clientActive (c_ClientID claims)) else mret (Ok true)))
    as T0 by (unfold clientActive; traced).
  pose proof (traced_extends _ _ _ _ _ T0 Hm) as X0.
  destruct a as [[]|x]; try by apply ret_ok in H as [? _].
  assert (extends w0 w') as X1.
  { revert H. match goal with |- ?m e w0 = _ → _ => assert (Traced db_step (λ _, True) m) as T end.
    { unfold checkSubjectUser, clientActive. traced. } intros H. exact (traced_extends _ _ _ _ _ T H). }
  split.
  - intros Hc. rewrite bool_decide_eq_true_2 in Hm by done. apply try_ok, clientActive_ok in Hm as (d & Hd & ?).
    exists d. split; [seen_tac|done].
  - intros Hu Hs Hne. rewrite !bool_decide_eq_true_2 in H by done. simpl in H.
    unfold checkSubjectUser in H. rewrite Hu in H. simpl in H. mstep H. mstep Hm0.
    unfold UserStore.GetByID, query, store in Hm1. destruct (fault e (w_tick w0)); simplify_eq/=.
    { apply ret_ok in Hm0 as [<- <-]. by apply ret_ok in H as [? _]. }
    set (d := interfere e (w_tick w0) (w_db w0)) in *.
    assert (seen w0 (after w0 d [(d, d)]) (d, d)) as Hd by apply seen_after.
    destruct (users d !! c_Subject claims) as [u|] eqn:Hl; apply ret_ok in Hm0 as [<- <-].
    + apply ret_ok in H as [Hact <-]. exists d. split; [seen_tac|]. intros u' Hu'. rewrite Hl in Hu'. simplify_eq.
      by destruct (User.IsActive u').
    + exists d. split; [|by rewrite Hl]. mstep H.
      assert (Traced db_step (λ _, True) (clientActive (c_Subject claims))) as T2 by (unfold clientActive; traced).
      pose proof (traced_extends _ _ _ _ _ T2 Hm0).
      destruct a as [[]|]; apply ret_ok in H as [_ <-]; seen_tac.
Qed.

End accept.

(** What the run from [w] to [w'] read about the caller and the subject token
    before it accepted the request. *)

Record accepted (s : Wiring) (req : TokenExchangeRequest) (e : Env) (a : Accepted) (w w' : World) : Prop := {
  ac_client : ∃ d, seen w w' (d, d) ∧ clients d !! ClientID req = Some (a_Client a);
  ac_confidential : Client.IsPublic (a_Client a) = false;
  ac_authentic : authentic (params e) (a_Client a) (ClientSecret req);
  ac_grant : Act.GrantTypeTokenExchange ∈ Client.GrantTypes (a_Client a);
  ac_issuer : a_Issuer a = Issuer (config e);
  ac_config : a_Config a = config e;
  ac_token : ∃ now, VerifyAccessTokenWithIssuer (params e) now (SubjectToken req) (a_Issuer a) = Some (a_Claims a);
  ac_live : has_mint s = true → c_JTI (a_Claims a) ≠ "" → ∃ d, seen w w' (d, d) ∧ issuance_live d (c_JTI (a_Claims a));
  ac_issuing : c_ClientID (a_Claims a) ≠ "" → ∃ d, seen w w' (d, d) ∧
    ∀ c, clients d !! c_ClientID (a_Claims a) = Some c → Client.IsActive c = true;
  ac_subject : has_users s = true → c_Subject (a_Claims a) ≠ "" → c_Subject (a_Claims a) ≠ c_ClientID (a_Claims a) →
    ∃ d, seen w w' (d, d) ∧ ∀ u, users d !! c_Subject (a_Claims a) = Some u → User.IsActive u = true
}.

Lemma acceptRequest_ok s req e w a w' :
  acceptRequest s req e w = (Ok a, w') → accepted s req e a w w'.
Proof.
  unfold acceptRequest. intros H. repeat xstep H. apply ret_ok in H as [<- <-].
  ext_all (λ _ : Audit.Event, True).
  repeat match goal with
  | Hq : authenticateClient _ _ _ _ = _ |- _ => apply authenticateClient_x in Hq as (d & Hd & Hc & Hp & Hauth)
  | Hq : verifyToken _ _ _ _ = _ |- _ => apply verifyToken_ok in Hq
  | Hq : checkRevocation _ _ _ _ = _ |- _ => pose proof (checkRevocation_ok _ _ _ _ _ _ Hq) as Hlog; clear Hq
  | Hq : checkLiveness _ _ _ _ = _ |- _ => apply checkLiveness_ok in Hq as [Hli Hls]
  | Hq : provider _ _ _ = _ |- _ => apply provider_ok in Hq as [-> ->]
  end.
  split; simpl; try done.
  - exists d. split; [seen_tac|done].
  - by apply hasGrantType_spec.
  - intros Hmi Hj. destruct (Hlog Hmi Hj) as (d' & Hd' & ?). exists d'. split; [seen_tac|done].
  - intros Hc'. destruct (Hli Hc') as (d' & Hd' & ?). exists d'. split; [seen_tac|done].
  - intros Hu Hs Hn. destruct (Hls Hu Hs Hn) as (d' & Hd' & ?). exists d'. split; [seen_tac|done].
Qed.

Lemma resolveTarget_ok s req e w t w' :
  resolveTarget s req e w = (Ok t, w') → ∃ d, seen w w' (d, d) ∧ ResourceStore.matching (Resource req) d = [t].
Proof.
  unfold resolveTarget. intros H. mstep H.
  destruct a as [t'|[]]; try (by apply deny_ok in H). apply ret_ok in H as [<- <-]. by eapply Resolve_ok.
Qed.

(** ** The link *)

Lemma source_loop_ok i auds e w src w' :
  source_loop i auds e w = (Ok (Some src), w') → ∃ aud d,
    aud ∈ auds ∧ aud ≠ i ∧ Resource.IsMint src = true ∧ seen w w' (d, d) ∧ ResourceStore.matching aud d = [src].
Proof.
  revert w. induction auds as [|x auds IH]; intros w H; simpl in H; [by apply ret_ok in H as [? _]|].
  case_match eqn:Hx.
  { destruct (IH _ H) as (y & d & ? & ?). exists y, d. split; [by right|done]. }
  unbool. mstep H.
  assert (∀ w1, extends w w1 → source_loop i auds e w1 = (Ok (Some src), w') →
    ∃ aud d, aud ∈ x :: auds ∧ aud ≠ i ∧ Resource.IsMint src = true ∧ seen w w' (d, d) ∧
             ResourceStore.matching aud d = [src]) as Hrest.
  { intros w1 X1 H'. destruct (IH _ H') as (y & d & ? & ? & ? & ? & ?).
    pose proof (traced_extends _ _ _ _ _ (traced_source_loop (S:=db_step) (λ _, True) i auds) H') as X2.
    exists y, d. split_and!; try done; [by right|seen_tac]. }
  ext_all (λ _ : Audit.Event, True).
  destruct a as [r|y]; [|eauto]. destruct (Resource.IsMint r) eqn:Hmint; [|eauto].
  apply ret_ok in H as [[= ->] <-]. apply Resolve_ok in Hm as (d & Hd & Hr).
  exists x, d. split_and!; try done. by left.
Qed.

(** The source is the mint resource of one audience of the subject token, and
    the link from it to the target was read. *)

Definition linked (claims : AccessTokenClaims) (source target : Resource.Resource) (link : Link.FrontingLink)
    (w w' : World) : Prop :=
  (∃ aud d, aud ∈ c_Audience claims ∧ seen w w' (d, d) ∧ ResourceStore.matching aud d = [source]) ∧
  Resource.IsMint source = true ∧ Resource.Slug source ≠ Resource.Slug target ∧
  ∃ d, seen w w' (d, d) ∧ fronting_links d !! (Resource.Slug source, Resource.Slug target) = Some link.

Lemma linked_sub claims src t l w w1 w2 w3 :
  extends w w1 → extends w1 w2 → extends w2 w3 → linked claims src t l w1 w2 → linked claims src t l w w3.
Proof.
  intros X1 X2 X3 [(aud & d & ? & ? & ?) (? & ? & d' & ? & ?)]. split_and!; try done.
  - exists aud, d. split_and!; [done|seen_tac|done].
  - exists d'. split; [seen_tac|done].
Qed.

Lemma resolveSource_ok s auds e w src w' :
  resolveSourceForFronting s auds e w = (Ok (Some src), w') → Resource.IsMint src = true ∧
  ∃ aud d, aud ∈ auds ∧ seen w w' (d, d) ∧ ResourceStore.matching aud d = [src].
Proof.
  unfold resolveSourceForFronting. case_match; [by intros [? _]%ret_ok|]. intros H'. mstep H'.
  assert (extends w w0) by (unfold provider in Hm; destruct (fault e _); simplify_eq; apply extends_after).
  pose proof (traced_extends _ _ _ _ _ (traced_source_loop (S:=db_step) (λ _, True) _ auds) H').
  apply source_loop_ok in H' as (aud & d & ? & _ & ? & ? & ?). split; [done|]. exists aud, d.
  split_and!; [done|seen_tac|done].
Qed.

Lemma Get_link a b e w l w' :
  FrontingService.Get a b e w = (Ok l, w') → ∃ d, seen w w' (d, d) ∧ fronting_links d !! (a, b) = Some l.
Proof.
  unfold FrontingService.Get, FrontingLinkStore.Get. intros H. apply query_seen in H as (now & d & Hf & Hd & _).
  exists d. split; [done|]. destruct (fronting_links d !! (a, b)); [by injection Hf as ->|done].
Qed.

Lemma frontedPath_ok s req claims t e w src l w' :
  frontedPath s req claims t e w = (Ok (Some (src, l)), w') → linked claims src t l w w'.
Proof.
  unfold frontedPath. intros H. mstep H. destruct a as [src'|]; [|by apply ret_ok in H as [? _]].
  pose proof (traced_extends _ _ _ _ _ (traced_resolveSource (S:=db_step) s (λ _, True) _) Hm).
  case_bool_decide; [by apply ret_ok in H as [? _]|]. mstep H. ext_all (λ _ : Audit.Event, True).
  destruct a as [l'|[]]; try (by apply deny_ok in H); [|by apply ret_ok in H as [? _]].
  apply ret_ok in H as [Heq <-]. destruct (Resource.IsMint t); simplify_eq.
  apply resolveSource_ok in Hm as [? (aud & d & ? & ? & ?)]. apply Get_link in Hm0 as (d' & ? & ?).
  split_and!; try done.
  - exists aud, d. split_and!; [done|seen_tac|done].
  - exists d'. split; [seen_tac|done].
Qed.

(** ** The authority of a mint *)

(** The scopes stay inside those of a subject token that carries any. *)

Definition narrowed (claims : AccessTokenClaims) (sc : string) : Prop :=
  Scope.Parse (c_Scope claims) ≠ ∅ → ∀ t, t ∈ strings_Fields sc → t ∈ Scope.Parse (c_Scope claims).

(** The caller may ride the agent's consent: it is the agent, or the operator
    named it for the target, or it is the target. *)

Definition delegated (req : TokenExchangeRequest) (claims : AccessTokenClaims) (target : Resource.Resource) : Prop :=
  ClientID req = c_ClientID claims ∨ ClientID req ∈ Resource.AllowedClientIDs target ∨
  ClientID req ∈ Resource.RuntimeClientIDs target.

(** What stands behind the scope [sc]: a link from a source, the caller's own
    token, or a consent grant of the user. *)

Inductive mint_authority (req : TokenExchangeRequest) (claims : AccessTokenClaims) (target : Resource.Resource)
    (cfg : Config) (sc : string) (w w' : World) : option (Resource.Resource * Link.FrontingLink) → Prop :=
  | AuthLink source link targets :
      linked claims source target link w w' →
      frontedCallerAuthorized source target (ClientID req) = true →
      mint_gate (Link.ScopeMap link) (Scope.Parse (c_Scope claims)) targets →
      targets = strings_Fields sc ∨ sc = strings_Join " " targets →
      mint_authority req claims target cfg sc w w' (Some (source, link))
  | AuthSelf :
      AllowSelfExchange cfg = true → ClientID req = c_ClientID claims → narrowed claims sc →
      mint_authority req claims target cfg sc w w' None
  | AuthConsent g d :
      isSelfExchange req claims cfg = false → delegated req claims target →
      seen w w' (d, d) → consent_grants d !! (c_Subject claims, c_ClientID claims, Resource.ID target) = Some g →
      Grant.IsRevoked g = false → (∀ t, t ∈ strings_Fields sc → t ∈ Grant.Scopes g) → narrowed claims sc →
      mint_authority req claims target cfg sc w w' None.

Lemma frontedScope_ok s req claims t src l e w sc w' :
  frontedScope s req claims t src l e w = (Ok sc, w') →
  frontedCallerAuthorized src t (ClientID req) = true ∧ w' = w ∧
  ∃ targets, mint_gate (Link.ScopeMap l) (Scope.Parse (c_Scope claims)) targets ∧
             (targets = strings_Fields sc ∨ sc = strings_Join " " targets).
Proof.
  unfold frontedScope. intros H. xstep H. split; [done|]. mstep H.
  assert (w0 = w ∧ (a0.1 = strings_Fields a0.2 ∨ a0.2 = strings_Join " " a0.1)) as [-> Hst].
  { revert Hm0. repeat case_bool_decide; intros Hm0; [by apply deny_ok in Hm0|..];
      apply ret_ok in Hm0 as [<- <-]; auto. }
  destruct (requiredSourceScopesForTargets _ _) as [srcs un] eqn:Er.
  xstep H. xstep H. apply ret_ok in H as [<- <-]. unbool. split; [done|]. exists a0.1. split; [|done].
  unfold mint_gate. rewrite Er. simpl. split; [by apply length_zero_iff_nil|].
  rewrite forallb_forall in Hm2. intros x Hx. apply Scope.Contains_spec, Hm2. by apply list_elem_of_In.
Qed.

Lemma ceiling_ok s req claims e w u w' :
  enforceSubjectScopeCeiling s req claims e w = (Ok u, w') → w' = w ∧ narrowed claims (Scope req).
Proof.
  unfold enforceSubjectScopeCeiling, narrowed. case_bool_decide as Hc; intros H.
  { apply ret_ok in H as [_ <-]. split; [done|]. rewrite Hc. by intros []. }
  destruct (Scope.IsEmpty (Scope.Parse (Scope req))) eqn:He.
  - apply ret_ok in H as [_ <-]. split; [done|]. intros _ t Ht. apply Scope.IsEmpty_spec in He.
    apply Scope.elem_of_Parse in Ht. rewrite He in Ht. set_solver.
  - apply check_ok in H as [H ->]. split; [done|]. apply Scope.IsSubset_spec in H.
    intros _ t Ht. apply H. by apply Scope.elem_of_Parse.
Qed.

Lemma defaults_ok s req g claims t e w sc w' :
  applyDirectMintDefaultScopes s req g claims t e w = (Ok sc, w') → w' = w ∧ narrowed claims sc ∧
  sc = strings_Join " " (directMintDefaultScopes g t (Scope.Parse (c_Scope claims))).
Proof.
  unfold applyDirectMintDefaultScopes. case_bool_decide as Hl; intros H; [by apply deny_ok in H|].
  apply ret_ok in H as [<- <-]. split_and!; [done| |done].
  intros Hne x Hx.
  assert (∀ y, y ∈ directMintDefaultScopes g t (Scope.Parse (c_Scope claims)) → y ∈ Scope.Parse (c_Scope claims)) as Hin.
  { intros y. rewrite elem_of_directMintDefaultScopes. destruct g; naive_solver. }
  rewrite Fields_Join in Hx; [by apply Hin|]. apply Forall_forall. intros y Hy.
  by apply (Scope.Parse_wf (c_Scope claims)), Hin.
Qed.

Lemma consentScope_ok s req claims t e w sc w' :
  consentScope s req claims t e w = (Ok sc, w') → narrowed claims (Scope req) →
  delegated req claims t ∧ narrowed claims sc ∧
  ∃ g d, seen w w' (d, d) ∧ consent_grants d !! (c_Subject claims, c_ClientID claims, Resource.ID t) = Some g ∧
    Grant.IsRevoked g = false ∧ ∀ x, x ∈ strings_Fields sc → x ∈ Grant.Scopes g.
Proof.
  unfold consentScope. intros H Hn. xstep H. xstep H.
  apply query_seen in Hm0 as (now & d & [= Hf] & Hd & _).
  destruct a0 as [g|]; [|by apply deny_ok in H].
  assert (consent_grants d !! (c_Subject claims, c_ClientID claims, Resource.ID t) = Some g ∧
          Grant.IsRevoked g = false) as [Hg Hr].
  { destruct (consent_grants d !! _) as [g'|]; [|done]. by destruct (Grant.IsRevoked g') eqn:?; simplify_eq. }
  mstep H. assert (w1 = w0 ∧ narrowed claims a0) as [-> Hsc].
  { destruct (bool_decide (length _ = 0)); [by apply defaults_ok in Hm0 as (-> & ? & _)|].
    by apply ret_ok in Hm0 as [<- <-]. }
  xstep H. apply ret_ok in H as [<- <-]. unbool. split_and!; [|done|].
  - unfold delegated. rewrite !orb_true_iff in Hm. rewrite !slices_Contains_spec, bool_decide_eq_true in Hm. done.
  - exists g, d. split_and!; try done. apply scopesNotConsented_nil. by apply length_zero_iff_nil.
Qed.

Lemma directScope_ok s req claims t cfg e w sc w' :
  directScope s req claims t cfg e w = (Ok sc, w') → mint_authority req claims t cfg sc w w' None.
Proof.
  unfold directScope. intros H. mstep H. apply ceiling_ok in Hm as [-> Hn].
  destruct (isSelfExchange req claims cfg) eqn:Hself.
  - pose proof Hself as Hs. unfold isSelfExchange in Hs. unbool.
    apply AuthSelf; [done|done|]. case_bool_decide.
    + by apply defaults_ok in H as (_ & ? & _).
    + by apply ret_ok in H as [<- _].
  - destruct (consentScope_ok _ _ _ _ _ _ _ _ H Hn) as (? & ? & g & d & ? & ? & ? & ?).
    by eapply AuthConsent.
Qed.

Lemma mint_authority_sub req claims t cfg sc w w1 w2 w3 f :
  extends w w1 → extends w1 w2 → extends w2 w3 →
  mint_authority req claims t cfg sc w1 w2 f → mint_authority req claims t cfg sc w w3 f.
Proof.
  intros X1 X2 X3 [src l ts Hl|Ha|g d].
  - eapply AuthLink; [exact (linked_sub _ _ _ _ _ _ _ _ X1 X2 X3 Hl)|done..].
  - by apply AuthSelf.
  - eapply (AuthConsent _ _ _ _ _ _ _ g d); try done. seen_tac.
Qed.

(** ** The chain *)

Definition subs (a : option Act.ActClaim) : list string :=
  match a with None => [] | Some a => Act.chain_subs a end.

Definition plain (a : option Act.ActClaim) : Prop := match a with None => True | Some a => Act.plain a end.

Lemma existingAct_subs claims : subs (existingAct claims) = subs (Act.ActClaimFromMap (c_Act claims)).
Proof.
  unfold existingAct. destruct (Act.ActClaimFromMap (c_Act claims)); simpl; [apply Act.sanitize_chain_subs|done].
Qed.

Lemma existingAct_plain claims : plain (existingAct claims).
Proof.
  unfold existingAct, Act.ActClaimFromMap. destruct (c_Act claims) as [m|]; [|done].
  destruct (Act.act_of_json (JObj m)) as [a|] eqn:E; [|done]. simpl.
  by eapply Act.plain_sanitize, Act.act_of_json_plain.
Qed.

Lemma subs_roundtrip a : plain a → Act.ActClaimFromMap (Act.ActClaimToMap a) = a.
Proof. destruct a as [a|]; [|done]. intros. by apply Act.act_of_act_map. Qed.

Lemma subs_depth a : length (subs a) = Act.Depth a.
Proof. destruct a; [apply Act.chain_subs_length|done]. Qed.

(** The chain of the new token is that of the subject token with the hops
    [pre] in front. *)

Definition new_hops (req : TokenExchangeRequest) (claims : AccessTokenClaims)
    (fronted : option (Resource.Resource * Link.FrontingLink)) (actor : option AccessTokenClaims) : list string :=
  match fronted, actor with
  | Some (source, _), _ =>
      Resource.Slug source ::
      match existingAct claims with
      | Some _ => []
      | None => [frontedInnerActor (c_ClientID claims) (Resource.Slug source) (ClientID req)]
      end
  | None, Some _ => [ClientID req]
  | None, None => []
  end.

Lemma actorHop_plain cid b inner : plain inner → plain (Some (actorHop cid b inner)).
Proof.
  intros Hp. unfold actorHop. simpl. rewrite !lookup_singleton_ne by done. split_and!; [done|done|].
  by destruct inner.
Qed.

Lemma actorHop_subs cid b inner : subs (Some (actorHop cid b inner)) = cid :: subs inner.
Proof. by destruct inner. Qed.

Lemma mintAct_ok s req claims f actor e w r w' :
  mintAct s req claims f actor e w = (Ok r, w') →
  subs r.1 = new_hops req claims f actor ++ subs (existingAct claims) ∧ plain r.1 ∧
  r.2 = match f with Some (source, _) => Resource.Slug source | None => ClientID req end.
Proof.
  pose proof (existingAct_plain claims) as Hp.
  unfold mintAct, new_hops. destruct f as [[src l]|]; [|destruct actor].
  - intros H. apply ret_ok in H as [<- <-]. by destruct (existingAct claims).
  - intros H. xstep H. apply ret_ok in H as [<- <-]. cbn [fst snd]. rewrite actorHop_subs.
    split_and!; [done|by apply actorHop_plain|done].
  - intros H. by apply ret_ok in H as [<- <-].
Qed.

Lemma checkDepth_ok s req cfg act e w u w' :
  checkDepth s req cfg act e w = (Ok u, w') → w' = w ∧ (Act.Depth act ≤ MaxChainDepth cfg)%nat.
Proof.
  unfold checkDepth. intros [H ->]%check_ok. split; [done|]. destruct act as [a|]; [|simpl; lia].
  rewrite bool_decide_eq_true_2 in H by done. simpl in H. unbool. simpl in *. lia.
Qed.

(** ** The mint and the check after it *)

Lemma Issue_row req r e w resp w' :
  MintIssuer.Issue req e w = (Ok resp, w') → ResourceOf req = Some r → ∃ d now expiry,
    seen w w' (d, w_db w') ∧ issuances d !! IssuanceID resp = None ∧
    w_db w' = set_issuances (<[IssuanceID resp := mint_issuance req r (IssuanceID resp) now expiry]> (issuances d)) d.
Proof.
  unfold MintIssuer.Issue, SignAccessToken. destruct (Expiry req) as [expiry|]; [|done]. intros H Hr.
  repeat mstep H. apply ret_ok in H as [<- <-]. rewrite Hr in Hm2. simpl.
  ext_all (λ _ : Audit.Event, True).
  unfold IssuanceStore.Insert in Hm2. pose proof Hm2 as Hs. apply store_seen in Hs as (now & d & d' & Hf & Hd & Hdb & _).
  revert Hf. simpl. repeat case_bool_decide; try done. intros [= <-]. exists d, a, expiry.
  rewrite Hdb in *. split_and!; [seen_tac| |done]. by apply eq_None_not_Some.
Qed.

Lemma recheck_none s claims a t g e w w' :
  recheck s claims a t g e w = (Ok None, w') →
  (has_mint s = true → c_JTI claims ≠ "" → ∃ d, seen w w' (d, d) ∧ issuance_live d (c_JTI claims)) ∧
  (g = true → ∃ d x, seen w w' (d, d) ∧
     consent_grants d !! (c_Subject claims, a, Resource.ID t) = Some x ∧ Grant.IsRevoked x = false).
Proof.
  unfold recheck. intros H. mstep H.
  assert (extends w w0) as X0.
  { revert Hm. match goal with |- ?m e w = _ → _ => assert (Traced db_step (λ _, True) m) as T by traced end.
    intros Hm. exact (traced_extends _ _ _ _ _ T Hm). }
  destruct a0 as [v|]; [by apply ret_ok in H as [? _]|].
  assert (extends w0 w') as X1.
  { revert H. match goal with |- ?m e w0 = _ → _ => assert (Traced db_step (λ _, True) m) as T by traced end.
    intros H. exact (traced_extends _ _ _ _ _ T H). }
  split.
  - intros Hmi Hj. rewrite Hmi, bool_decide_eq_true_2 in Hm by done. simpl in Hm. mstep Hm.
    apply ret_ok in Hm as [Hv <-]. destruct a0 as [o|]; [|done].
    apply query_seen in Hm0 as (now & d & [= Hf] & Hd & _). exists d. split; [seen_tac|].
    intros i Hi. rewrite Hi in Hf. subst o. by destruct (Issuance.IsRevoked i).
  - intros ->. mstep H. apply ret_ok in H as [Hv <-]. destruct a0 as [[x|]|]; try done.
    apply query_seen in Hm0 as (now & d & [= Hf] & Hd & _). exists d, x. split; [seen_tac|].
    destruct (consent_grants d !! _) as [g'|]; [|done]. by destruct (Grant.IsRevoked g') eqn:?; simplify_eq.
Qed.

Lemma refuseIfRevoked_ok s cid claims a t g i e w u w' :
  refuseIfRevokedSinceCheck s cid claims a t g i e w = (Ok u, w') → recheck s claims a t g e w = (Ok None, w').
Proof.
  unfold refuseIfRevokedSinceCheck. intros H. mstep H. destruct a0 as [[x r]|].
  - mstep H. by apply deny_ok in H.
  - by apply ret_ok in H as [_ <-].
Qed.

Lemma record_audit_ok b ev e w u w' :
  record_audit b ev e w = (Ok u, w') → w_db w = w_db w' ∧ w_steps w = w_steps w' ∧ extends w w'.
Proof.
  unfold record_audit. destruct b; intros [= _ <-]; split_and!; try done. by exists []; rewrite app_nil_r.
Qed.

(** The request a mint dispatch makes of the issuer. *)

Definition mint_request (claims : AccessTokenClaims) (target : Resource.Resource)
    (fronted : option (Resource.Resource * Link.FrontingLink)) (sc : string) (act : option Act.ActClaim)
    (cid : string) (agent : option AgentIdentityClaims) (jkt : string) (now : Z) (cfg : Config) : IssueRequest :=
  MkIssueRequest (Some target) None (c_Subject claims) cid (strings_Fields sc) agent jkt
    (match fronted with None => c_ClientID claims | Some _ => "" end) (c_JTI claims) [Resource.URI target]
    (Act.ActClaimToMap act) (Some now) (Some (now + ExchangeTokenExpiry cfg)%Z).

(** A mint that succeeded: the issuer ran from [w1] to [w2] on a request for
    the subject of the token, and what it was admitted on was read again
    afterwards. *)

Record minted (s : Wiring) (req : TokenExchangeRequest) (claims : AccessTokenClaims) (target : Resource.Resource)
    (cfg : Config) (fronted : option (Resource.Resource * Link.FrontingLink)) (sc : string) (e : Env)
    (w1 w2 w' : World) (resp : TokenExchangeResponse) (act : option Act.ActClaim) (iss : IssueResponse) : Prop := {
  mi_issue : ∃ agent jkt now,
    MintIssuer.Issue (mint_request claims target fronted sc act
      (match fronted with Some (source, _) => Resource.Slug source | None => ClientID req end) agent jkt now cfg) e w1
    = (Ok iss, w2);
  mi_chain : ∃ actor, subs act = new_hops req claims fronted actor ++ subs (existingAct claims);
  mi_plain : plain act;
  mi_depth : (Act.Depth act ≤ MaxChainDepth cfg)%nat;
  mi_token : x_AccessToken resp = AccessToken iss;
  mi_scope : x_Scope resp = sc;
  mi_recheck : ∃ w3, recheck s claims (c_ClientID claims) target
    (andb (bool_decide (fronted = None)) (negb (isSelfExchange req claims cfg))) e w2 = (Ok None, w3) ∧
    w_db w3 = w_db w' ∧ w_steps w3 = w_steps w'
}.

Lemma mintAuthorized_ok s req i claims t cfg f sc e w resp w' :
  mintAuthorized s req i claims t cfg f sc e w = (Ok resp, w') →
  ∃ w1 w2 act iss, extends w w1 ∧ extends w1 w2 ∧ extends w2 w' ∧
    minted s req claims t cfg f sc e w1 w2 w' resp act iss.
Proof.
  unfold mintAuthorized. intros H. repeat xstep H. apply ret_ok in H as [<- <-].
  match goal with Hq : mintAct _ _ _ _ _ _ _ = _ |- _ => pose proof (mintAct_ok _ _ _ _ _ _ _ _ _ Hq) as (Hs & Hp & Hc) end.
  match goal with Hq : checkDepth _ _ _ _ _ _ = _ |- _ => apply checkDepth_ok in Hq as [-> Hdep] end.
  match goal with Hq : record_audit _ _ _ _ = _ |- _ => apply record_audit_ok in Hq as (Hdb & Hst & Hx) end.
  match goal with Hq : MintIssuer.Issue _ _ ?wa = (Ok ?iss, ?wb) |- _ => exists wa, wb, a0.1, iss end.
  ext_all (λ _ : Audit.Event, True). split_and!; try chain_ext.
  split; try done.
  - unfold mint_request. rewrite <-Hc. eauto.
  - eauto.
  - match goal with Hq : refuseIfRevokedSinceCheck _ _ _ _ _ _ _ _ _ = _ |- _ => apply refuseIfRevoked_ok in Hq end.
    eauto.
Qed.

(** ** Whole dispatches *)

Lemma dispatchMint_ok s req i claims t cfg e w resp w' :
  dispatchMint s req i claims t cfg e w = (Ok resp, w') →
  has_mint s = true ∧ operatorAllowsClient (Resource.AllowedClientIDs t) (ClientID req) = true ∧
  ∃ f wf w1 w2 act iss, extends w wf ∧ extends wf w1 ∧ extends w1 w2 ∧ extends w2 w' ∧
    mint_authority req claims t cfg (x_Scope resp) w wf f ∧
    (f = None → ∃ w0, directScope s req claims t cfg e w0 = (Ok (x_Scope resp), wf)) ∧
    minted s req claims t cfg f (x_Scope resp) e w1 w2 w' resp act iss.
Proof.
  unfold dispatchMint. intros H. do 4 xstep H. split; [done|]. split; [done|].
  ext_all (λ _ : Audit.Event, True).
  match goal with Hq : frontedPath _ _ _ _ _ ?wa = (Ok ?ff, ?wb) |- _ => rename ff into f, wb into wp, Hq into Hf end.
  match goal with Hq : _ e wp = (Ok ?x, ?wb) |- _ => rename x into sc, wb into wf, Hq into Hsc end.
  apply mintAuthorized_ok in H as (wi1 & wi2 & act & iss & X1 & X2 & X3 & Hmi).
  rewrite (mi_scope _ _ _ _ _ _ _ _ _ _ _ _ _ _ Hmi). exists f, wf, wi1, wi2, act, iss.
  destruct f as [[src l]|].
  - pose proof (frontedScope_ok _ _ _ _ _ _ _ _ _ _ Hsc) as (Hc & -> & ts & Hg & Hs).
    apply frontedPath_ok in Hf. split_and!; try done. eapply AuthLink; eauto.
  - assert (extends wp wf) by
      (refine (traced_extends (S:=db_step) (P:=λ _, True) _ _ _ _ _ _ Hsc); traced).
    split_and!; try done; [chain_ext| |eauto].
    eapply (mint_authority_sub _ _ _ _ _ w wp wf wf); try done. by eapply directScope_ok.
Qed.

Lemma directScope_catalog s req claims t cfg e w sc w' :
  directScope s req claims t cfg e w = (Ok sc, w') → validateAgainstCatalog (Scope req) t = true →
  Forall is_word (Resource.scope_names t) → ∀ x, x ∈ strings_Fields sc → x ∈ Resource.scope_names t.
Proof.
  intros H Hcat Hw.
  assert (∀ g u w0 wa, applyDirectMintDefaultScopes s req g claims t e w0 = (Ok u, wa) →
            ∀ x, x ∈ strings_Fields u → x ∈ Resource.scope_names t) as Hdef.
  { intros g u w0 wa Hd x. apply defaults_ok in Hd as (_ & _ & ->).
    assert (∀ y, y ∈ directMintDefaultScopes g t (Scope.Parse (c_Scope claims)) → y ∈ Resource.scope_names t) as Hin
      by (intros y; rewrite elem_of_directMintDefaultScopes; naive_solver).
    rewrite Fields_Join; [auto|]. apply Forall_forall. intros y Hy. rewrite Forall_forall in Hw. auto. }
  rewrite validateAgainstCatalog_spec in Hcat. unfold directScope in H. mstep H.
  destruct (isSelfExchange req claims cfg).
  - destruct (bool_decide (length _ = 0)); [by eapply Hdef|by apply ret_ok in H as [<- _]].
  - unfold consentScope in H. repeat xstep H. destruct a1 as [g|]; [|by apply deny_ok in H].
    xstep H. xstep H. apply ret_ok in H as [<- _].
    destruct (bool_decide (length (strings_Fields (Scope req)) = 0)); [by eapply Hdef|].
    match goal with Hq : mret _ _ _ = _ |- _ => by apply ret_ok in Hq as [<- _] end.
Qed.

Lemma Exchange_cases s deps req e w resp w' :
  Exchange s deps req e w = (Ok resp, w') → ∃ a w1, acceptRequest s req e w = (Ok a, w1) ∧
  ((Resource req = "" ∧ exchangeSelf s req (a_Client a) (a_Issuer a) (a_Claims a) (a_Config a) e w1 = (Ok resp, w')) ∨
   (Resource req ≠ "" ∧ ∃ target w2, resolveTarget s req e w1 = (Ok target, w2) ∧
      ((Resource.Kind target = Resource.BackendMint ∧ validateAgainstCatalog (Scope req) target = true ∧
        dispatchMint s req (a_Issuer a) (a_Claims a) target (a_Config a) e w2 = (Ok resp, w')) ∨
       (Resource.Kind target = Resource.BackendBroker ∧ ∃ w3, extends w2 w3 ∧
        dispatchBroker s deps req (a_Claims a) target e w3 = (Ok resp, w'))))).
Proof.
  unfold Exchange. intros H. mstep H. exists a, w0. split; [done|].
  case_bool_decide as Hr; [right|left; split; [by destruct (decide (Resource req = ""))|done]]. split; [done|].
  mstep H. exists a0, w1. split; [done|]. unfold handleViaRegistry in H. xstep H. mstep H.
  destruct (Resource.Kind a0) eqn:Hk.
  - left. unfold Resource.IsBroker in *. rewrite Hk in *. apply ret_ok in Hm2 as [<- <-].
    xstep H. split_and!; done.
  - right. split; [done|]. mstep H. exists w3. split; [|done].
    assert (extends w1 w2) by (refine (traced_extends (S:=db_step) (P:=λ _, True) _ _ _ _ _ _ Hm2);
      unfold isFrontedBrokerExchange; traced).
    assert (extends w2 w3) by (refine (traced_extends (S:=db_step) (P:=λ _, True) _ _ _ _ _ _ Hm3); traced).
    chain_ext.
  - mstep H. by apply deny_ok in H.
Qed.
