(* ===== verification/ExchangeBroker.v ===== *)
(** * Token exchange for a broker resource: what a vended upstream token rests on *)

From S2P Require Import Prelude GoStrings ScopeSet Act Domain Db Effects Crypto Stores Order StoreOrder MintIssuer TokenService TokenProofs BrokerIssuer Fronting ExchangeScopes TokenExchange ExchangeProofs.
Import AgentIdentity MintIssuer ExchangeScopes TokenExchangeService.

(** ** The issuer *)

(** The token [tok] is what the adapter of the provider answered for the
    scopes [scopes] on the user's own credential, which was opened under the
    context of this user and provider and covers the upstream scopes. *)

Definition vended (deps : BrokerIssuer.Deps) (e : Env) (w w' : World) (subject : string)
    (target : Resource.Resource) (provider : Broker.BrokerProvider) (scopes : list string) (tok : string) : Prop :=
  ∃ d g upstream, seen w w' (d, d) ∧ broker_grants d !! (subject, Broker.ID provider) = Some g ∧
    Broker.IsRevoked g = false ∧
    BrokerIssuer.mapToUpstreamScopes target scopes = inl upstream ∧
    (∀ u, u ∈ upstream → u ∈ Broker.ScopesGranted g) ∧
    ∃ plaintext wd wd' vend wv wv' v,
      BrokerIssuer.Decrypt deps (Broker.CredentialData g)
        (BrokerIssuer.brokerOwnerContext subject (Broker.ID provider)) e wd = (Ok plaintext, wd') ∧
      BrokerIssuer.Vend deps (Broker.Protocol provider) = Some vend ∧
      vend provider target plaintext scopes e wv = (Ok v, wv') ∧ tok = BrokerIssuer.v_Token v.

Section broker.
Context (deps : BrokerIssuer.Deps) `{Hdeps : !BrokerIssuer.BrokerDeps deps}.

Lemma vended_sub e w w1 w2 w3 u t p l tok :
  extends w w1 → extends w1 w2 → extends w2 w3 → vended deps e w1 w2 u t p l tok → vended deps e w w3 u t p l tok.
Proof. intros X1 X2 X3 (d & g & up & ? & ?). exists d, g, up. split; [seen_tac|done]. Qed.

Lemma broker_Issue_ok req r p e w resp w' :
  BrokerIssuer.Issue deps req e w = (Ok resp, w') → ResourceOf req = Some r → ProviderOf req = Some p →
  vended deps e w w' (SubjectUserID req) r p (Scopes req) (AccessToken resp).
Proof.
  unfold BrokerIssuer.Issue. intros H Hr Hp. rewrite Hr, Hp in H.
  case_match; [by apply throw_ok in H|].
  mstep H. assert (extends w w0) as X0 by (refine (traced_extends (S:=db_step) (P:=λ _, True) _ _ _ _ _ _ Hm);
    unfold BrokerIssuer.coveringGrant; traced).
  assert (extends w0 w') as X1.
  { revert H. match goal with |- ?m e w0 = _ → _ => assert (Traced db_step (λ _, True) m) as T end.
    { unfold BrokerIssuer.persistRotated.
      traced; eauto using BrokerIssuer.traced_Decrypt, BrokerIssuer.traced_Encrypt, BrokerIssuer.traced_Vend, db_step_preorder. }
    intros H. exact (traced_extends _ _ _ _ _ T H). }
  unfold BrokerIssuer.coveringGrant in Hm. mstep Hm.
  apply query_seen in Hm0 as (now & d & [= Hf] & Hd & _). destruct a0 as [g|]; [|by apply throw_ok in Hm].
  destruct (BrokerIssuer.mapToUpstreamScopes _ _) as [up|x] eqn:Hup; [|by apply throw_ok in Hm].
  case_bool_decide as Hmiss; [by apply throw_ok in Hm|]. apply ret_ok in Hm as [<- <-].
  mstep H. destruct (BrokerIssuer.Vend deps _) as [vend|] eqn:Hv; [|by apply throw_ok in H].
  mstep H. destruct a0 as [v|x]; [|by apply throw_ok in H]. repeat mstep H. apply ret_ok in H as [<- <-].
  exists d, g, up. split; [seen_tac|].
  assert (broker_grants d !! (SubjectUserID req, Broker.ID p) = Some g ∧ Broker.IsRevoked g = false) as [Hg Hrv].
  { destruct (broker_grants d !! _) as [g'|]; [|done]. by destruct (Broker.IsRevoked g') eqn:?; simplify_eq. }
  split_and!; try done.
  - apply BrokerIssuer.scopesNotIn_nil. lia.
  - eauto 12.
Qed.

End broker.

(** ** The two ways to a broker *)

(** The mint resource the caller runs as: it lists the caller as a runtime
    client, or bears its name. *)

Definition runs_as (req : TokenExchangeRequest) (actor : Resource.Resource) (w w' : World) : Prop :=
  Resource.IsMint actor = true ∧ ∃ d, seen w w' (d, d) ∧
    (ResourceStore.runtime_matching (ClientID req) d = [actor] ∨ ResourceStore.matching (ClientID req) d = [actor]).

(** What stands behind the scopes [scopes] of a broker exchange: a link from
    the source of the subject token, or the user's consent for the agent to
    use the resource the caller runs as. *)

Inductive broker_authority (req : TokenExchangeRequest) (claims : AccessTokenClaims) (target : Resource.Resource)
    (scopes : list string) (w w' : World) : Prop :=
  | BrokerLink source link targets :
      linked claims source target link w w' →
      frontedCallerAuthorized source target (ClientID req) = true →
      broker_gate (Link.ScopeMap link) (Scope.Parse (c_Scope claims)) targets →
      scopes = (validateBrokerTargets (Link.ScopeMap link) targets (Scope.Parse (c_Scope claims))).1.1 →
      broker_authority req claims target scopes w w'
  | BrokerAttested actor g d :
      runs_as req actor w w' →
      seen w w' (d, d) → consent_grants d !! (c_Subject claims, c_ClientID claims, Resource.ID actor) = Some g →
      Grant.IsRevoked g = false → (∀ t, t ∈ scopes → t ∈ Grant.Scopes g) →
      (Scope.Parse (c_Scope claims) ≠ ∅ → ∀ t, t ∈ scopes → t ∈ Scope.Parse (c_Scope claims)) →
      broker_authority req claims target scopes w w'.

Lemma broker_authority_sub req claims t l w w1 w2 w3 :
  extends w w1 → extends w1 w2 → extends w2 w3 →
  broker_authority req claims t l w1 w2 → broker_authority req claims t l w w3.
Proof.
  intros X1 X2 X3 [src lk ts Hl|actor g d [? (d' & ? & ?)]].
  - eapply BrokerLink; [exact (linked_sub _ _ _ _ _ _ _ _ X1 X2 X3 Hl)|done..].
  - eapply (BrokerAttested _ _ _ _ _ _ actor g d); try done; [|seen_tac].
    split; [done|]. exists d'. split; [seen_tac|done].
Qed.

Lemma resolveActor_ok cid e w r w' :
  resolveActorMCP cid e w = (Ok r, w') → ∃ d, seen w w' (d, d) ∧
    (ResourceStore.runtime_matching cid d = [r] ∨ ResourceStore.matching cid d = [r]).
Proof.
  unfold resolveActorMCP. intros H. mstep H. ext_all (λ _ : Audit.Event, True).
  destruct a as [r'|[]]; try by apply throw_ok in H.
  - apply ret_ok in H as [<- <-]. apply query_seen in Hm as (now & d & Hf & Hd & _).
    exists d. split; [done|]. left. revert Hf. case_bool_decide; [done|].
    destruct (ResourceStore.runtime_matching cid d) as [|x [|y l]]; simpl; naive_solver.
  - mstep H. ext_all (λ _ : Audit.Event, True). destruct a as [r'|]; [|by apply throw_ok in H].
    apply ret_ok in H as [<- <-]. apply Resolve_ok in Hm0 as (d & Hd & ?).
    exists d. split; [seen_tac|by right].
Qed.

Lemma attestedActor_ok s req e w r w' : attestedActor s req e w = (Ok r, w') → runs_as req r w w'.
Proof.
  unfold attestedActor. intros H. mstep H. destruct a as [r'|[]]; try by apply deny_ok in H.
  xstep H. apply ret_ok in H as [<- <-]. split; [done|]. by eapply resolveActor_ok.
Qed.

Lemma attestedScope_ok s req claims t e w st w' :
  attestedScope s req claims t e w = (Ok st, w') → narrowed claims (Scope req) →
  broker_authority req claims t st.1 w w'.
Proof.
  unfold attestedScope. intros H Hn. xstep H. xstep H.
  assert (extends w w0) by (refine (traced_extends (S:=db_step) (P:=λ _, True) _ _ _ _ _ _ Hm);
    unfold attestedActor; traced).
  ext_all (λ _ : Audit.Event, True). pose proof (attestedActor_ok _ _ _ _ _ _ Hm) as [Ha (da & ? & ?)].
  apply query_seen in Hm0 as (now & d & [= Hf] & Hd & _). destruct a0 as [g|]; [|by apply deny_ok in H].
  assert (consent_grants d !! (c_Subject claims, c_ClientID claims, Resource.ID a) = Some g ∧
          Grant.IsRevoked g = false) as [Hg Hr].
  { destruct (consent_grants d !! _) as [g'|]; [|done]. by destruct (Grant.IsRevoked g') eqn:?; simplify_eq. }
  mstep H. assert (w2 = w1 ∧ (Scope.Parse (c_Scope claims) ≠ ∅ → ∀ t, t ∈ a0.1 → t ∈ Scope.Parse (c_Scope claims)))
    as [-> Hsc].
  { revert Hm0. destruct (bool_decide (length (strings_Fields _) = 0));
      [destruct (bool_decide (length (directBrokerDefaultScopes _ _ _) = 0))|]; intros Hq; [by apply deny_ok in Hq|..];
      apply ret_ok in Hq as [<- <-]; (split; [done|]); cbn [fst]; [|exact Hn].
    intros Hne x. change (directBrokerDefaultScopes (Some g)) with (directMintDefaultScopes (Some g)).
    rewrite elem_of_directMintDefaultScopes. naive_solver. }
  xstep H. apply ret_ok in H as [<- <-]. unbool.
  eapply (BrokerAttested _ _ _ _ _ _ a g d); try done.
  - split; [done|]. exists da. split; [seen_tac|done].
  - seen_tac.
  - apply scopesNotConsented_nil. by apply length_zero_iff_nil.
Qed.

Lemma providerOf_ok t e w p w' :
  providerOf t e w = (Ok (Some p), w') → ∃ d r, seen w w' (d, d) ∧ broker_providers d !! Resource.BrokerProviderID r = Some p ∧
    ∃ d0, seen w w' (d0, d0) ∧ resources d0 !! Resource.ID t = Some r.
Proof.
  unfold providerOf, ResourceRegistry.GetWithProvider. intros H. mstep H. mstep Hm.
  apply ret_ok in H as [Hp <-]. unfold ResourceStore.GetByID in Hm0. pose proof Hm0 as Hq.
  apply query_seen in Hm0 as (now & d0 & Hf & Hd0 & _). ext_all (λ _ : Audit.Event, True).
  destruct (resources d0 !! Resource.ID t) as [r|] eqn:Hr; simplify_eq.
  destruct (negb (Resource.IsBroker a0)); [by apply ret_ok in Hm as [<- _]|]. mstep Hm.
  apply ret_ok in Hm as [<- <-]. simpl in Hp. simplify_eq. unfold BrokerProviderStore.GetByID in Hm0.
  ext_all (λ _ : Audit.Event, True). apply query_seen in Hm0 as (now' & d & Hf' & Hd & _).
  exists d, a0. split_and!; [seen_tac| |exists d0; split; [seen_tac|done]].
  destruct (broker_providers d !! _); by simplify_eq.
Qed.

(** A broker exchange that succeeded: the scopes [scopes] are authorized, and
    the token was vended for the provider of the target. *)

Record brokered (s : Wiring) (deps : BrokerIssuer.Deps) (req : TokenExchangeRequest) (claims : AccessTokenClaims)
    (target : Resource.Resource) (e : Env) (w w' : World) (resp : TokenExchangeResponse) (scopes : list string)
    (provider : Broker.BrokerProvider) : Prop := {
  bk_wired : has_broker s = true;
  bk_no_actor : ActorToken req = "";
  bk_operator : operatorAllowsClient (Resource.AllowedClientIDs target) (ClientID req) = true;
  bk_authority : broker_authority req claims target scopes w w';
  bk_provider : ∃ d r, seen w w' (d, d) ∧ broker_providers d !! Resource.BrokerProviderID r = Some provider ∧
    ∃ d0, seen w w' (d0, d0) ∧ resources d0 !! Resource.ID target = Some r;
  bk_vended : vended deps e w w' (c_Subject claims) target provider scopes (x_AccessToken resp)
}.

Section dispatch.
Context (s : Wiring) (deps : BrokerIssuer.Deps) `{Hdeps : !BrokerIssuer.BrokerDeps deps}.

Lemma brokerIssue_ok req t p ireq e w resp w' :
  brokerIssue s deps req t p ireq e w = (Ok resp, w') → BrokerIssuer.Issue deps ireq e w = (Ok resp, w').
Proof.
  unfold brokerIssue. intros H. mstep H. destruct a as [a|[]]; try by apply deny_ok in H.
  by apply ret_ok in H as [<- <-].
Qed.

Lemma broker_Issue_extends ireq e w r w' : BrokerIssuer.Issue deps ireq e w = (r, w') → extends w w'.
Proof. apply (traced_extends (S:=db_step) (P:=λ _, True)). by apply BrokerIssuer.traced_BrokerIssue. Qed.

(** The authority and the vend of a dispatch, wherever they lie in it. *)

Definition served (req : TokenExchangeRequest) (claims : AccessTokenClaims) (target : Resource.Resource) (e : Env)
    (w w' : World) (resp : TokenExchangeResponse) : Prop :=
  ∃ scopes p, broker_authority req claims target scopes w w' ∧
    (∃ d r, seen w w' (d, d) ∧ broker_providers d !! Resource.BrokerProviderID r = Some p ∧
       ∃ d0, seen w w' (d0, d0) ∧ resources d0 !! Resource.ID target = Some r) ∧
    vended deps e w w' (c_Subject claims) target p scopes (x_AccessToken resp).

Lemma provider_sub p t w w1 w2 w3 :
  extends w w1 → extends w1 w2 → extends w2 w3 →
  (∃ d r, seen w1 w2 (d, d) ∧ broker_providers d !! Resource.BrokerProviderID r = Some p ∧
     ∃ d0, seen w1 w2 (d0, d0) ∧ resources d0 !! Resource.ID t = Some r) →
  ∃ d r, seen w w3 (d, d) ∧ broker_providers d !! Resource.BrokerProviderID r = Some p ∧
     ∃ d0, seen w w3 (d0, d0) ∧ resources d0 !! Resource.ID t = Some r.
Proof.
  intros X1 X2 X3 (d & r & ? & ? & d0 & ? & ?). exists d, r. split_and!; [seen_tac|done|].
  exists d0. split; [seen_tac|done].
Qed.

Lemma dispatchDirectBroker_ok req claims t e w resp w' :
  dispatchDirectBroker s deps req claims t e w = (Ok resp, w') → served req claims t e w w' resp.
Proof.
  unfold dispatchDirectBroker. intros H. mstep H. apply ceiling_ok in Hm as [-> Hn]. mstep H.
  assert (extends w w0) by (refine (traced_extends (S:=db_step) (P:=λ _, True) _ _ _ _ _ _ Hm);
    unfold attestedScope, attestedActor; traced).
  xstep H. destruct a1 as [p|]; [|by apply deny_ok in H]. do 4 xstep H. apply ret_ok in H as [<- <-].
  ext_all (λ _ : Audit.Event, True).
  match goal with Hq : brokerIssue _ _ _ _ _ _ _ _ = _ |- _ => apply brokerIssue_ok in Hq as Hi; clear Hq end.
  match goal with Hq : record_audit _ _ _ _ = _ |- _ => apply record_audit_ok in Hq as (_ & _ & ?) end.
  pose proof (broker_Issue_extends _ _ _ _ _ Hi).
  exists a0.1, p. split_and!.
  - eapply broker_authority_sub; [..|by eapply attestedScope_ok]; chain_ext.
  - eapply provider_sub; [..|eapply providerOf_ok; eassumption]; chain_ext.
  - eapply vended_sub; [..|eapply (broker_Issue_ok deps _ t p _ _ _ _ Hi); done]; chain_ext.
Qed.

Lemma frontedTargets_ok req claims src t l p e w ts w' :
  frontedTargets s req claims src t l p e w = (Ok ts, w') → w' = w ∧ ∃ targets,
    broker_gate (Link.ScopeMap l) (Scope.Parse (c_Scope claims)) targets ∧
    ts.1 = (validateBrokerTargets (Link.ScopeMap l) targets (Scope.Parse (c_Scope claims))).1.1.
Proof.
  unfold frontedTargets. intros H. mstep H.
  assert (w0 = w) as ->.
  { revert Hm. repeat destruct (bool_decide _); intros Hm; try (mstep Hm; by apply throw_ok in Hm);
      by apply ret_ok in Hm as [_ <-]. }
  destruct (validateBrokerTargets _ _ _) as [[tr un] mc] eqn:E. unfold broker_gate.
  destruct (bool_decide (0 < length un)) eqn:E1; [mstep H; by apply throw_ok in H|].
  destruct (bool_decide (0 < length mc)) eqn:E2; [mstep H; by apply throw_ok in H|].
  apply ret_ok in H as [<- <-]. unbool. split; [done|]. exists a.1. rewrite E. simpl.
  split; [split; apply length_zero_iff_nil; lia|done].
Qed.

Lemma dispatchFrontedBroker_ok req claims t src l e w resp w' :
  dispatchFrontedBroker s deps req claims t src l e w = (Ok resp, w') → ∀ w0, extends w0 w →
  linked claims src t l w0 w → served req claims t e w0 w' resp.
Proof.
  unfold dispatchFrontedBroker. intros H wl Xl Hl. do 3 xstep H.
  apply ensure_ok in Hm as [Hc ->]. destruct a0 as [p|]; [|by apply throw_ok in Hm1].
  apply ret_ok in Hm1 as [<- <-]. xstep H. apply frontedTargets_ok in Hm as [-> (ts & Hg & Hts)].
  do 4 xstep H. apply ret_ok in H as [<- <-].
  match goal with Hq : record_audit _ _ _ _ = _ |- _ => apply record_audit_ok in Hq as (_ & _ & ?) end.
  match goal with Hq : BrokerIssuer.Issue _ _ _ _ = _ |- _ => pose proof (broker_Issue_extends _ _ _ _ _ Hq);
    apply (broker_Issue_ok deps _ t p) in Hq; [|done|done] end.
  match goal with Hq : (if bool_decide (DPoPProof req ≠ "") then _ else _) _ ?wa = (_, ?wb) |- _ =>
    assert (extends wa wb) by (destruct (bool_decide _); [apply or_emit_ok in Hq|apply ret_ok in Hq as [_ <-]];
      ext_all (λ _ : Audit.Event, True); chain_ext) end.
  ext_all (λ _ : Audit.Event, True).
  exists a0.1, p. split_and!.
  - eapply (broker_authority_sub _ _ _ _ wl wl); [..|by eapply BrokerLink]; chain_ext.
  - eapply provider_sub; [..|eapply providerOf_ok; eassumption]; chain_ext.
  - eapply vended_sub; [..|eassumption]; chain_ext.
Qed.

Lemma dispatchBroker_ok req claims t e w resp w' :
  dispatchBroker s deps req claims t e w = (Ok resp, w') →
  ∃ scopes p, brokered s deps req claims t e w w' resp scopes p.
Proof.
  unfold dispatchBroker. intros H. do 3 xstep H. unbool.
  enough (served req claims t e w w' resp) as (l & p & ? & ? & ?) by (exists l, p; split; try done; by apply dec_stable).
  mstep H. ext_all (λ _ : Audit.Event, True).
  assert (∀ wx, extends w wx → dispatchDirectBroker s deps req claims t e wx = (Ok resp, w') →
    served req claims t e w w' resp) as Hdirect.
  { intros wx X Hd. ext_all (λ _ : Audit.Event, True).
    destruct (dispatchDirectBroker_ok _ _ _ _ _ _ _ Hd) as (l & p & ? & ? & ?). exists l, p. split_and!.
    - eapply broker_authority_sub; [..|eassumption]; chain_ext.
    - eapply provider_sub; [..|eassumption]; chain_ext.
    - eapply vended_sub; [..|eassumption]; chain_ext. }
  destruct a2 as [src|]; [|by eauto]. case_bool_decide as Hne; [|by eauto]. mstep H.
  ext_all (λ _ : Audit.Event, True). destruct a2 as [l|[]]; try by apply deny_ok in H.
  eapply (dispatchFrontedBroker_ok _ _ _ _ _ _ _ _ _ H w); [chain_ext|].
  apply resolveSource_ok in Hm2 as [? (aud & d & ? & ? & ?)]. apply Get_link in Hm3 as (d' & ? & ?).
  split_and!; try done.
  - exists aud, d. split_and!; [done|seen_tac|done].
  - exists d'. split; [seen_tac|done].
Qed.

End dispatch.
