(* ===== verification/ExchangeTheorems.v ===== *)
(** * Token exchange: what an answered and a refused exchange guarantee *)

From S2P Require Import Prelude GoStrings ScopeSet Act Domain Db Effects Crypto Stores Order StoreOrder MintIssuer TokenService TokenProofs Scenario TokenTheorems BrokerIssuer Fronting Revocation ExchangeScopes TokenExchange ExchangeProofs ExchangeBroker.
Import AgentIdentity MintIssuer ExchangeScopes TokenExchangeService.

(** ** Runs on a concrete server

    alice consented to [app] for the resources [api] and [mcp].  The service
    [svc] runs [api]; the gateway [gw] runs [mcp], which fronts [api].  [git]
    is a broker resource, and alice's credential for it is stored. *)

Module ExchangeRuns.
Import Scenario.

Definition client (id : string) : Client.Client :=
  {| Client.ID := id; Client.SecretHash := "bc:sec"; Client.Name := id; Client.RedirectURIs := [];
     Client.GrantTypes := [Act.GrantTypeTokenExchange]; Client.ResponseTypes := [];
     Client.TokenEndpointAuthMethod := "client_secret_post"; Client.Status := Client.StatusActive;
     Client.RegistrationSource := Client.SourceAdmin; Client.CIMDURL := ""; Client.ApplicationType := "";
     Client.Scope := ""; Client.IsAgent := true; Client.AgentDescription := ""; Client.Version := 1;
     Client.IssuedAt := start; Client.UpdatedAt := start |}.

Definition resource (id slug : string) (allowed runtime : list string) : Resource.Resource :=
  {| Resource.ID := id; Resource.Slug := slug; Resource.DisplayName := slug; Resource.URI := "https://" +:+ slug;
     Resource.Kind := Resource.BackendMint; Resource.BrokerProviderID := "";
     Resource.Scopes := [Resource.MkScopeDef "read" "" ""; Resource.MkScopeDef "write" "" ""];
     Resource.AllowedClientIDs := allowed; Resource.RuntimeClientIDs := runtime;
     Resource.AllowedReturnURLs := []; Resource.CreatedAt := start; Resource.UpdatedAt := start |}.

Definition git : Resource.Resource :=
  {| Resource.ID := "res3"; Resource.Slug := "git"; Resource.DisplayName := "git"; Resource.URI := "https://git";
     Resource.Kind := Resource.BackendBroker; Resource.BrokerProviderID := "p1";
     Resource.Scopes := [Resource.MkScopeDef "repo" "" "r"]; Resource.AllowedClientIDs := [];
     Resource.RuntimeClientIDs := []; Resource.AllowedReturnURLs := []; Resource.CreatedAt := start;
     Resource.UpdatedAt := start |}.

Definition grant (id rid : string) (scopes : list string) : Grant.ConsentGrant :=
  Grant.MkGrant id "alice" "app" rid scopes start start None.

Definition link : Link.FrontingLink := Link.MkLink "mcp" "api" {["use" := ["read"]]} start "admin".

Definition subject (aud : list string) (sc : string) : AccessTokenClaims :=
  MkClaims "https://as" "alice" aud "app" sc "j0" 900 5000 900 None None "" [].

(** The subject token in the issuance log. *)

Definition row (id parent : string) : Issuance.Issuance :=
  Issuance.MkIssuance id "alice" "app" "res1" ["read"] Resource.BackendMint true
    start (start + 1)%Z None id "" "" [] "app" parent.

Definition db : DB :=
  MkDB {["app" := client "app"; "svc" := client "svc"; "gw" := client "gw"]} {["alice" := alice]} ∅ ∅ ∅ ∅ ∅ ∅
    {["j0" := row "j0" ""]}
    {["res1" := resource "res1" "api" [] ["svc"]; "res2" := resource "res2" "mcp" [] ["gw"]; "res3" := git]}
    {[("alice", "app", "res1") := grant "g1" "res1" ["read"]; ("alice", "app", "res2") := grant "g2" "res2" ["repo"]]}
    {[("mcp", "api") := link]} ∅ ∅
    {["p1" := Broker.MkProvider "p1" "hub" "Hub" "oauth2" "" "" "" start start]}
    {[("alice", "p1") := Broker.MkBrokerGrant "b1" "alice" "p1" "cred" ["r"] "" 1 start start None]} empty_xaa ∅.

Definition world : World := MkWorld db 0 [] [].

(** The subject tokens that can be presented. *)

Definition env : Env :=
  env_with [("st", subject ["https://api"] "read write"); ("fronted", subject ["https://mcp"] "use");
            ("identity", subject ["https://as"] ""); ("narrow", subject ["https://as"] "read");
            ("jwt:r0010", MkClaims "https://as" "alice" ["https://api"] "app" "read" "r0010" 1000 5000 1000
                            None None "" [])].

Definition deps : BrokerIssuer.Deps :=
  BrokerIssuer.MkDeps (λ a _, mret a) (λ a _, mret a)
    (λ _, Some (λ _ _ c _, mret (BrokerIssuer.MkVended ("up:" +:+ c) 60 None))) true.

#[global] Instance deps_ok : BrokerIssuer.BrokerDeps deps.
Proof. split; intros; simplify_eq/=; apply traced_ret. Qed.

Definition wired : Wiring := MkWiring true true true true true true true true true true.

Definition request (tok rsc cid sc : string) : TokenExchangeRequest :=
  MkExchange tok Act.TokenTypeAccessToken "" "" sc rsc cid "sec" "" "" "".

Definition run (tok rsc cid sc : string) : res TokenExchangeResponse * World :=
  Exchange wired deps (request tok rsc cid sc) env world.

Definition answer (r : res TokenExchangeResponse) : option (string * string) :=
  match r with Ok x => Some (x_AccessToken x, x_Scope x) | Err _ => None end.

Definition scope_of (r : res TokenExchangeResponse) : option string := snd <$> answer r.

Example runs :
  scope_of (run "st" "https://api" "svc" "read").1 = Some "read" ∧
  scope_of (run "st" "https://api" "svc" "").1 = Some "read" ∧
  scope_of (run "fronted" "https://api" "gw" "").1 = Some "read" ∧
  scope_of (run "st" "https://api" "app" "write").1 = Some "write" ∧
  scope_of (run "st" "https://api" "svc" "write").1 = None ∧
  answer (run "identity" "git" "gw" "").1 = Some ("up:cred", "repo") ∧
  scope_of (run "st" "" "app" "read").1 = Some "read".
Proof. vm_compute. auto 10. Qed.

Lemma exchange_wf : wf_db db.
Proof.
  split; simpl; try done.
  - intros k a. rewrite lookup_singleton_Some. by intros [<- <-].
  - intros k1 k2 a1 a2 v. rewrite !lookup_singleton_Some. naive_solver.
Qed.

End ExchangeRuns.

(** ** What was checked, on both backends *)

Lemma accepted_sub s req e a w w1 w' :
  extends w w1 → extends w1 w' → accepted s req e a w w1 → accepted s req e a w w'.
Proof.
  intros X1 X2 []. assert (∀ Q : DB → Prop, (∃ d, seen w w1 (d, d) ∧ Q d) → ∃ d, seen w w' (d, d) ∧ Q d) as Hl.
  { intros Q (d & ? & ?). exists d. split; [seen_tac|done]. }
  split; try done; intros; apply Hl; auto.
Qed.

(** The resource the request names. *)

Definition resolved (req : TokenExchangeRequest) (target : Resource.Resource) (w w' : World) : Prop :=
  ∃ d, seen w w' (d, d) ∧ ResourceStore.matching (Resource req) d = [target].

(** A run that minted: the subject token was accepted, the target resolved,
    the operator's list and one of the authorities allow the scope. *)

Record mint_run (s : Wiring) (req : TokenExchangeRequest) (e : Env) (w w' : World) (resp : TokenExchangeResponse)
    (claims : AccessTokenClaims) (target : Resource.Resource)
    (fronted : option (Resource.Resource * Link.FrontingLink)) (w1 w2 : World)
    (act : option Act.ActClaim) (iss : IssueResponse) : Prop := {
  mr_accepted : ∃ a, accepted s req e a w w' ∧ a_Claims a = claims;
  mr_target : resolved req target w w';
  mr_kind : Resource.Kind target = Resource.BackendMint;
  mr_wired : has_mint s = true;
  mr_operator : operatorAllowsClient (Resource.AllowedClientIDs target) (ClientID req) = true;
  mr_authority : mint_authority req claims target (config e) (x_Scope resp) w w' fronted;
  mr_catalog : fronted = None → Forall is_word (Resource.scope_names target) →
    ∀ x, x ∈ strings_Fields (x_Scope resp) → x ∈ Resource.scope_names target;
  mr_before : extends w w1;
  mr_during : extends w1 w2;
  mr_after : extends w2 w';
  mr_minted : minted s req claims target (config e) fronted (x_Scope resp) e w1 w2 w' resp act iss
}.

Section split.
Context (s : Wiring) (deps : BrokerIssuer.Deps) `{Hdeps : !BrokerIssuer.BrokerDeps deps}.

Lemma Exchange_split req e w resp w' :
  Exchange s deps req e w = (Ok resp, w') → Resource req ≠ "" →
  (∃ claims target f w1 w2 act iss, mint_run s req e w w' resp claims target f w1 w2 act iss) ∨
  (∃ a target w3, accepted s req e a w w' ∧ resolved req target w w' ∧ Resource.Kind target = Resource.BackendBroker ∧
     extends w w3 ∧ extends w3 w' ∧ dispatchBroker s deps req (a_Claims a) target e w3 = (Ok resp, w')).
Proof.
  intros H Hr. apply Exchange_cases in H as (a & wa & Ha & [[? _]|(_ & t & wt & Ht & Hd)]); [done|].
  ext_all (λ _ : Audit.Event, True). assert (extends wa wt) by
    (refine (traced_extends (S:=db_step) (P:=λ _, True) _ _ _ _ _ _ Ht); unfold resolveTarget; traced).
  apply acceptRequest_ok in Ha. apply resolveTarget_ok in Ht as (d & Hd0 & Hmatch).
  assert (extends wt w') as Xt.
  { destruct Hd as [(_ & _ & Hd)|(_ & w3 & X3 & Hd)]; ext_all (λ _ : Audit.Event, True); chain_ext. }
  assert (accepted s req e a w w') as Hacc by (eapply accepted_sub; [..|exact Ha]; chain_ext).
  assert (resolved req t w w') as Hres by (exists d; split; [seen_tac|done]).
  destruct Hd as [(Hk & Hcat & Hd)|(Hk & w3 & X3 & Hd)].
  - left. apply dispatchMint_ok in Hd as (Hw & Hop & f & wf & w1 & w2 & act & iss & X1 & X2 & X3 & X4 & Hauth & Hdir & Hm).
    rewrite (ac_config _ _ _ _ _ _ Hacc) in *. exists (a_Claims a), t, f, w1, w2, act, iss.
    split; try done; try chain_ext; [by eauto| |].
    + refine (mint_authority_sub _ _ _ _ _ w wt wf w' _ _ _ _ Hauth); chain_ext.
    + intros Hf Hwords. destruct (Hdir Hf) as (w0 & Hs). by eapply directScope_catalog.
  - right. ext_all (λ _ : Audit.Event, True). exists a, t, w3. split_and!; try done; chain_ext.
Qed.

End split.

(** The claims a mint signed. *)

Lemma minted_claims s req claims t cfg f sc e w1 w2 w' resp act iss :
  minted s req claims t cfg f sc e w1 w2 w' resp act iss → ∃ c,
    x_AccessToken resp = jws_sign (params e) c ∧ c_JTI c = IssuanceID iss ∧ c_Issuer c = Issuer (config e) ∧
    c_Subject c = c_Subject claims ∧ c_Audience c = [Resource.URI t] ∧
    c_ClientID c = (match f with Some (source, _) => Resource.Slug source | None => ClientID req end) ∧
    Scope.Parse (c_Scope c) = Scope.Parse sc ∧ c_Act c = Act.ActClaimToMap act.
Proof.
  intros [(agent & jkt & now & H) _ _ _ Htok _ _].
  apply Issue_ok in H as (expiry & now' & _ & Hc & _). rewrite Htok, Hc. eexists. split; [done|].
  simpl. split_and!; try done. unfold Scope.Parse. by rewrite Fields_Join by apply strings_Fields_words.
Qed.

Lemma brokered_sub s deps req claims t e w w1 w' resp l p :
  extends w w1 → extends w1 w' → brokered s deps req claims t e w1 w' resp l p →
  brokered s deps req claims t e w w' resp l p.
Proof.
  intros X1 X2 []. split; try done.
  - eapply broker_authority_sub; [..|eassumption]; chain_ext.
  - eapply provider_sub; [..|eassumption]; chain_ext.
  - eapply vended_sub; [..|eassumption]; chain_ext.
Qed.

(** ** Claims *)

(** C36: whatever the request, the failures, the upstream servers and the other
    requests, every store call of an exchange keeps the keys and constraints
    and only moves the tables forward, and every audit row it writes is an
    exchange or a denial in the name of the caller, or an upstream issuance. *)
Theorem exchange_respects_order s deps req :
  BrokerIssuer.BrokerDeps deps → Traced db_step (exchange_event (ClientID req)) (Exchange s deps req).
Proof. intros Hd. by apply traced_Exchange_x. Qed.

Lemma exchange_respects_order_witness :
  Traced db_step (exchange_event "svc")
    (Exchange ExchangeRuns.wired ExchangeRuns.deps (ExchangeRuns.request "st" "https://api" "svc" "read")).
Proof.
  exact (exchange_respects_order ExchangeRuns.wired ExchangeRuns.deps
           (ExchangeRuns.request "st" "https://api" "svc" "read") ExchangeRuns.deps_ok).
Defined.



(** ** The delegation chain *)

Lemma minted_chain s req claims target cfg f sc e w1 w2 w' resp act iss :
  minted s req claims target cfg f sc e w1 w2 w' resp act iss → ∃ c actor,
    x_AccessToken resp = jws_sign (params e) c ∧
    subs (Act.ActClaimFromMap (c_Act c)) =
      new_hops req claims f actor ++ subs (Act.ActClaimFromMap (c_Act claims)) ∧
    (length (subs (Act.ActClaimFromMap (c_Act c))) ≤ MaxChainDepth cfg)%nat.
Proof.
  intros Hm. destruct (minted_claims _ _ _ _ _ _ _ _ _ _ _ _ _ _ Hm) as (c & Hc & _ & _ & _ & _ & _ & _ & Hact).
  destruct Hm as [_ (actor & Hs) Hp Hd _ _ _]. exists c, actor. rewrite Hact, subs_roundtrip, subs_depth by done.
  split_and!; [done| |done]. by rewrite Hs, existingAct_subs.
Qed.

(** The delegation chain of an exchanged mint token extends the subject
    token's.  Read back from the signed claims, its actors are new hops in front
    of those of the presented token, in the same order (the fronting resource
    and the calling agent, or the caller when it presents an actor token), and
    they are never more than the configured depth. *)
Theorem exchange_chain_extends s deps req e w resp w' :
  BrokerIssuer.BrokerDeps deps → Exchange s deps req e w = (Ok resp, w') → Resource req ≠ "" →
  ∃ a target, accepted s req e a w w' ∧ resolved req target w w' ∧
    (Resource.Kind target = Resource.BackendMint → ∃ c f actor,
       x_AccessToken resp = jws_sign (params e) c ∧
       subs (Act.ActClaimFromMap (c_Act c)) =
         new_hops req (a_Claims a) f actor ++ subs (Act.ActClaimFromMap (c_Act (a_Claims a))) ∧
       (length (subs (Act.ActClaimFromMap (c_Act c))) ≤ MaxChainDepth (config e))%nat).
Proof.
  intros Hdeps H Hr. apply Exchange_split in H as [(claims & t & f & w1 & w2 & act & iss & Hm)|(a & t & w3 & Ha & Ht & Hk & _)]; [..|done|done].
  - destruct (mr_accepted _ _ _ _ _ _ _ _ _ _ _ _ _ Hm) as (a & Ha & <-). exists a, t.
    split_and!; [done|apply Hm|]. intros _.
    destruct (minted_chain _ _ _ _ _ _ _ _ _ _ _ _ _ _ (mr_minted _ _ _ _ _ _ _ _ _ _ _ _ _ Hm)) as (c & actor & ?).
    eauto.
  - exists a, t. split_and!; try done. intros Hk'. congruence.
Qed.

Lemma exchange_chain_extends_witness :
  let req := ExchangeRuns.request "fronted" "https://api" "gw" "" in
  ∃ a target w', accepted ExchangeRuns.wired req ExchangeRuns.env a ExchangeRuns.world w' ∧
    resolved req target ExchangeRuns.world w' ∧
    (Resource.Kind target = Resource.BackendMint → ∃ c f actor,
       subs (Act.ActClaimFromMap (c_Act c)) =
         new_hops req (a_Claims a) f actor ++ subs (Act.ActClaimFromMap (c_Act (a_Claims a)))).
Proof.
  set (req := ExchangeRuns.request "fronted" "https://api" "gw" "").
  assert (Runs.ok (Exchange ExchangeRuns.wired ExchangeRuns.deps req ExchangeRuns.env ExchangeRuns.world).1 = true) as Hok
    by (vm_compute; reflexivity).
  destruct (run_ok _ Hok) as [resp H].
  destruct (exchange_chain_extends ExchangeRuns.wired ExchangeRuns.deps req ExchangeRuns.env ExchangeRuns.world _ _
           ExchangeRuns.deps_ok H ltac:(done)) as (a & t & Ha & Ht & Hc).
  exists a, t. eexists. split; [exact Ha|]. split; [exact Ht|]. intros Hk.
  destruct (Hc Hk) as (c & f & actor & _ & Hs & _). eauto.
Defined.

(** ** Without a resource *)

Lemma exchangeSelf_ok s req cl iss claims cfg e w resp w' :
  exchangeSelf s req cl iss claims cfg e w = (Ok resp, w') →
  ClientID req = c_ClientID claims ∧ AllowSelfExchange cfg = true ∧ ∃ c actor,
    x_AccessToken resp = jws_sign (params e) c ∧ c_Subject c = c_Subject claims ∧ c_ClientID c = ClientID req ∧
    c_Audience c = (match c_Audience claims with [] => [iss] | l => l end) ∧
    Scope.Parse (c_Scope c) ⊆ Scope.Parse (c_Scope claims) ∧ Scope.Parse (c_Scope c) ≠ ∅ ∧
    (Scope req ≠ "" → Scope.Parse (c_Scope c) = Scope.Parse (Scope req)) ∧
    subs (Act.ActClaimFromMap (c_Act c)) = new_hops req claims None actor ++ subs (Act.ActClaimFromMap (c_Act claims)) ∧
    (length (subs (Act.ActClaimFromMap (c_Act c))) ≤ MaxChainDepth cfg)%nat ∧
    ∃ m, machine_tokens (w_db w') !! c_JTI c = Some m ∧ Machine.Revoked m = false ∧ Machine.ClientID m = ClientID req.
Proof.
  unfold exchangeSelf, SignAccessToken. intros H. repeat xstep H. apply ret_ok in H as [<- <-].
  match goal with Hq : record_audit _ _ _ _ = _ |- _ => apply record_audit_ok in Hq as (Hdb & _) end.
  match goal with Hq : checkDepth _ _ _ _ _ _ = _ |- _ => apply checkDepth_ok in Hq as [-> Hdep] end.
  destruct (ValidateAccessTokenClaims _) eqn:Hv in Hm8; [|by apply throw_ok in Hm8].
  apply provider_ok in Hm8 as [Htok ->]. apply store_seen in Hm9 as (now & d & d' & Hf & _ & Hd & _).
  unfold checkPolicy in Hm1. unbool. split; [done|]. split; [done|].
  set (scopes := if bool_decide (Scope req ≠ "") then _ else _) in *.
  assert (scopes ⊆ Scope.Parse (c_Scope claims)) as Hsub.
  { subst scopes. destruct (bool_decide (Scope req ≠ "")) eqn:Hr; [|reflexivity].
    apply bool_decide_eq_true in Hr. apply orb_true_iff in Hm0 as [Hm0|Hm0]; [by apply bool_decide_eq_true in Hm0|].
    by apply Scope.IsSubset_spec. }
  assert (plain (selfAct req cl claims a) ∧ subs (selfAct req cl claims a) =
          new_hops req claims None a ++ subs (Act.ActClaimFromMap (c_Act claims))) as [Hp Hs].
  { pose proof (existingAct_plain claims). rewrite <-existingAct_subs. unfold selfAct, new_hops.
    destruct a; [|done]. rewrite actorHop_subs. split; [by apply actorHop_plain|done]. }
  eexists _, a. split; [exact Htok|]. unfold selfClaims. cbn [c_Subject c_ClientID c_Audience c_Scope c_Act c_JTI].
  rewrite Scope.Parse_to_String, subs_roundtrip, subs_depth
    by (done || (intros x Hx; by apply (Scope.Parse_wf (c_Scope claims)), Hsub)).
  split_and!; try done.
  - intros He. apply Scope.IsEmpty_spec in He. by rewrite He in Hm2.
  - intros Hr. subst scopes. by rewrite bool_decide_eq_true_2.
  - clear Hm0. revert Hf. simpl. clearbody scopes. repeat case_bool_decide; try done. intros [= _ <-].
    rewrite <-Hdb, Hd. simpl. eexists. by rewrite lookup_insert_eq.
Qed.

(** An exchange without a resource only narrows.  It is answered only to
    the client the token was issued to, when self-exchange is allowed; the new
    token is for the same subject and audience (the issuer when there was none),
    its scopes are a non-empty part of the token's and exactly the requested
    ones when some were requested, its delegation chain extends the token's
    within the depth limit, and it is stored as a live machine token of the
    caller. *)
Theorem self_exchange_narrows s deps req e w resp w' :
  Exchange s deps req e w = (Ok resp, w') → Resource req = "" →
  ∃ a w1 c actor, accepted s req e a w w1 ∧ ClientID req = c_ClientID (a_Claims a) ∧
    AllowSelfExchange (config e) = true ∧ x_AccessToken resp = jws_sign (params e) c ∧
    c_Subject c = c_Subject (a_Claims a) ∧ c_ClientID c = ClientID req ∧
    c_Audience c = (match c_Audience (a_Claims a) with [] => [Issuer (config e)] | l => l end) ∧
    Scope.Parse (c_Scope c) ⊆ Scope.Parse (c_Scope (a_Claims a)) ∧ Scope.Parse (c_Scope c) ≠ ∅ ∧
    (Scope req ≠ "" → Scope.Parse (c_Scope c) = Scope.Parse (Scope req)) ∧
    subs (Act.ActClaimFromMap (c_Act c)) =
      new_hops req (a_Claims a) None actor ++ subs (Act.ActClaimFromMap (c_Act (a_Claims a))) ∧
    (length (subs (Act.ActClaimFromMap (c_Act c))) ≤ MaxChainDepth (config e))%nat ∧
    ∃ m, machine_tokens (w_db w') !! c_JTI c = Some m ∧ Machine.Revoked m = false ∧ Machine.ClientID m = ClientID req.
Proof.
  intros H Hr. apply Exchange_cases in H as (a & w1 & Ha & [[_ Hs]|[? _]]); [|done].
  apply acceptRequest_ok in Ha. apply exchangeSelf_ok in Hs as (Hc & Hp & c & actor & Hs).
  rewrite (ac_config _ _ _ _ _ _ Ha), (ac_issuer _ _ _ _ _ _ Ha) in *. by exists a, w1, c, actor.
Qed.

Lemma self_exchange_narrows_witness :
  let r := ExchangeRuns.run "st" "" "app" "read" in
  ∃ resp c, r = (Ok resp, r.2) ∧ x_AccessToken resp = jws_sign (params ExchangeRuns.env) c ∧
    Scope.Parse (c_Scope c) = Scope.Parse "read" ∧ is_Some (machine_tokens (w_db r.2) !! c_JTI c).
Proof.
  assert (Runs.ok (ExchangeRuns.run "st" "" "app" "read").1 = true) as Hok by (vm_compute; reflexivity).
  destruct (run_ok _ Hok) as [resp H].
  destruct (self_exchange_narrows ExchangeRuns.wired ExchangeRuns.deps (ExchangeRuns.request "st" "" "app" "read")
    ExchangeRuns.env ExchangeRuns.world resp _ H eq_refl)
    as (a & w1 & c & actor & _ & _ & _ & Ht & _ & _ & _ & _ & _ & Hs & _ & _ & m & Hm & _).
  exists resp, c. split; [exact H|]. split; [exact Ht|]. split; [exact (Hs ltac:(done))|]. eauto.
Defined.

(** ** Two exchanges the comments rule out *)

(** Self-exchange can grant what the caller did not have.  The subject-scope
    ceiling does not apply to a token without scopes, and a self-exchange asks
    for no consent: presented with such a token, the server mints one for every
    scope of the target's catalog, with no consent of the user stored, while the
    same request with a narrower token is refused. *)
Theorem identity_self_exchange_widens :
  let req tok := ExchangeRuns.request tok "https://api" "app" "read write" in
  let run tok := Exchange ExchangeRuns.wired ExchangeRuns.deps (req tok) ExchangeRuns.env
                   (MkWorld (set_grants ∅ ExchangeRuns.db) 0 [] []) in
  ExchangeRuns.scope_of (run "identity").1 = Some "read write" ∧
  c_Scope (ExchangeRuns.subject ["https://as"] "") = "" ∧
  (run "narrow").1 = Err ErrInvalidScope.
Proof. vm_compute. auto. Qed.

(** A revoked token of a resource-less exchange still seeds exchanges.  Such
    a token is stored with the machine tokens but carries the user as its
    subject; the revocation check reads that table only when the subject is the
    client.  The client exchanges, revokes the new token (its row says so) and
    exchanges the revoked token. *)
Theorem revoked_self_token_still_exchanged :
  let '(r1, w1) := ExchangeRuns.run "st" "" "app" "read" in
  let '(r2, w2) := RevocationService.RevokeToken (RevocationService.MkWiring true true true)
                     (RevocationService.MkRevokeRequest "jwt:r0010" "app" "sec") ExchangeRuns.env w1 in
  let '(r3, w3) := Exchange ExchangeRuns.wired ExchangeRuns.deps
                     (ExchangeRuns.request "jwt:r0010" "" "app" "read") ExchangeRuns.env w2 in
  ExchangeRuns.answer r1 = Some ("jwt:r0010", "read") ∧ r2 = Ok tt ∧
  (Machine.Revoked <$> machine_tokens (w_db w2) !! "r0010") = Some true ∧
  ExchangeRuns.scope_of r3 = Some "read".
Proof. vm_compute. auto. Qed.
