(* ===== verification/ExchangeFailure.v ===== *)
(** * Token exchange: a refused exchange leaves no live token behind *)

From S2P Require Import Prelude GoStrings ScopeSet Act Domain Db Effects Crypto Stores Order StoreOrder MintIssuer TokenService TokenProofs Scenario TokenTheorems BrokerIssuer Fronting ExchangeScopes TokenExchange ExchangeProofs ExchangeTheorems.
Import AgentIdentity MintIssuer ExchangeScopes TokenExchangeService.

(** ** Steps that add no token *)

Definition mint_key (d : DB) (k : string) : Prop :=
  ∃ i, issuances d !! k = Some i ∧ Issuance.BackendKind i = Resource.BackendMint.

(** No mint issuance and no machine token was added. *)

Definition no_new_mint (d d' : DB) : Prop :=
  (∀ k, mint_key d' k → mint_key d k) ∧ (∀ k, is_Some (machine_tokens d' !! k) → is_Some (machine_tokens d !! k)).

#[export] Instance no_new_mint_preorder : PreOrder no_new_mint.
Proof. split; [by split|]. intros d1 d2 d3 [] []. split; eauto. Qed.

Section quiet.
Context {P : Audit.Event → Prop}.

Lemma quiet_store {A} (f : Z → DB → res A * DB) :
  (∀ t d, issuances (f t d).2 = issuances d ∧ machine_tokens (f t d).2 = machine_tokens d) →
  Traced no_new_mint P (store f).
Proof.
  intros Hf. apply traced_store. intros t d. destruct (Hf t d) as [H1 H2].
  unfold no_new_mint, mint_key. by rewrite H1, H2.
Qed.

Lemma quiet_ConsumeJTI j x : Traced no_new_mint P (DPoPNonceStore.ConsumeJTI j x).
Proof. apply quiet_store. intros. by repeat (case_match; simpl). Qed.

Lemma quiet_UpdateWithVersion g : Traced no_new_mint P (BrokerGrantStore.UpdateWithVersion g).
Proof. apply quiet_store. intros. by repeat (case_match; simpl). Qed.

Lemma quiet_Insert i :
  Issuance.BackendKind i ≠ Resource.BackendMint → Traced no_new_mint P (IssuanceStore.Insert i).
Proof.
  intros Hk. apply traced_store. intros t d. simpl. repeat (case_match; simpl); try reflexivity.
  split; [|done]. intros k (j & Hj & Hkj). simpl in Hj. apply lookup_insert_Some in Hj as [[_ ->]|[_ Hj]]; [done|].
  by exists j.
Qed.

End quiet.

#[export] Hint Resolve quiet_ConsumeJTI quiet_UpdateWithVersion : guar_db.

(** A store call that fails changes nothing, for the two inserts of a token. *)

Lemma err_Insert i : ErrTraced no_new_mint (IssuanceStore.Insert i).
Proof.
  intros e w x w'. unfold IssuanceStore.Insert, store. destruct (fault e _); [intros [= _ <-]; by exists []|].
  repeat case_bool_decide; intros [= _ <-]; eexists; (split; [done|]); repeat constructor; done.
Qed.

Lemma err_Save m : ErrTraced no_new_mint (MachineTokenStore.Save m).
Proof.
  intros e w x w'. unfold MachineTokenStore.Save, store. destruct (fault e _); [intros [= _ <-]; by exists []|].
  repeat case_bool_decide; intros [= _ <-]; eexists; (split; [done|]); repeat constructor; done.
Qed.

Lemma err_after {S : relation DB} {A B} (m : M A) (k : A → B) :
  ErrTraced S m → ErrTraced S (a ← m; mret (k a)).
Proof. intros Hm e w x w' H. apply bind_err in H as [H|(a & w1 & _ & H)]; [by eapply Hm|done]. Qed.

Lemma err_throw {S : relation DB} {A} x : ErrTraced S (throw x : M A).
Proof. intros e w y w' [= _ <-]. exists []. by rewrite app_nil_r. Qed.

(** [err_steps] takes off the leading parts of a computation that add no token. *)

Ltac err_steps := repeat (eapply (err_traced_bind (P:=λ _, True)); [traced; done|intros ?; cbv zeta]).

Lemma err_Issue req : ErrTraced no_new_mint (MintIssuer.Issue req).
Proof.
  unfold MintIssuer.Issue, SignAccessToken. destruct (Expiry req); [|apply err_throw]. err_steps.
  apply err_after. destruct (ResourceOf req); [apply err_Insert|]. by intros e w x w'.
Qed.

Lemma err_exchangeSelf s req c i claims cfg : ErrTraced no_new_mint (exchangeSelf s req c i claims cfg).
Proof.
  unfold exchangeSelf, attachAgent, SignAccessToken. err_steps.
  intros e w x w' H. apply bind_err in H as [H|(u & w1 & _ & H)]; [by eapply err_Save|].
  by apply bind_err in H as [H|(v & w2 & _ & H)].
Qed.

Section broker.
Context (deps : BrokerIssuer.Deps) `{Hdeps : !BrokerIssuer.BrokerDeps deps}.

Lemma quiet_broker_Issue i : Traced no_new_mint (λ _, True) (BrokerIssuer.Issue deps i).
Proof.
  unfold BrokerIssuer.Issue, BrokerIssuer.coveringGrant, BrokerIssuer.persistRotated.
  traced; eauto using BrokerIssuer.traced_Decrypt, BrokerIssuer.traced_Encrypt, BrokerIssuer.traced_Vend,
    no_new_mint_preorder.
  by apply quiet_Insert.
Qed.

End broker.

(** ** The minted row *)

(** A mint makes one step: it inserts the row of its jti. *)

Lemma Issue_step req r e w resp w' :
  MintIssuer.Issue req e w = (Ok resp, w') → ResourceOf req = Some r → ∃ d i,
    own_steps w w' = [(d, w_db w')] ∧
    w_db w' = set_issuances (<[IssuanceID resp := i]> (issuances d)) d ∧ Issuance.RevokedAt i = None.
Proof.
  unfold MintIssuer.Issue, SignAccessToken. destruct (Expiry req) as [expiry|]; [|done]. intros H Hr.
  repeat mstep H. apply ret_ok in H as [<- <-]. rewrite Hr in Hm2. unfold time_Now, GenerateRandomString in *.
  simplify_eq. destruct (ValidateAccessTokenClaims _); [|done]. apply provider_ok in Hm1 as [-> ->].
  apply store_ok in Hm2 as (now & d & d' & _ & _ & Hf & ->). revert Hf. simpl. repeat case_bool_decide; try done.
  intros [= <-]. exists d. eexists. split_and!; [|done|done].
  apply own_steps_app. simpl. by rewrite !app_nil_r.
Qed.

Lemma recheck_no_err s claims a t g e w x w' : recheck s claims a t g e w ≠ (Err x, w').
Proof.
  intros H. revert H. assert (Fails (λ _, False) (recheck s claims a t g)) as HF; [|intros H; by apply HF in H].
  unfold recheck. fails.
Qed.

Lemma refuse_revokes s cid claims a t g id i e w x w' :
  fault_free e → rely db_step e → wf_db (w_db w) → has_mint s = true →
  refuseIfRevokedSinceCheck s cid claims a t g id e w = (Err x, w') →
  issuances (w_db w) !! id = Some i → ∃ i', issuances (w_db w') !! id = Some i' ∧ Issuance.IsRevoked i' = true.
Proof.
  intros Hff HR Hwf Hmi H Hi. unfold refuseIfRevokedSinceCheck in H.
  apply bind_err in H as [H|(r & w1 & H1 & H)]; [by apply recheck_no_err in H|].
  db_after (λ _ : Audit.Event, True) H1 using HR Hwf as Hwf1 Hle1.
  destruct (le_issuances _ _ Hle1 _ _ Hi) as (i1 & Hi1 & _).
  destruct r as [[y reason]|]; [|done]. apply bind_err in H as [H|(r & w2 & H2 & H)]; [by apply try_not_err in H|].
  apply try_ok in H2. unfold revokeOwnIssuance in H2. rewrite Hmi in H2.
  unfold IssuanceStore.Revoke, store in H2. rewrite Hff in H2. simplify_eq/=.
  assert (w_db w' = set_issuances (IssuanceStore.revoke_row (clock e (w_tick w1)) id
    (issuances (interfere e (w_tick w1) (w_db w1)))) (interfere e (w_tick w1) (w_db w1))) as ->.
  { unfold deny, recordDenied, record_audit, throw, mbind, M_bind in H.
    destruct (has_audit s); by injection H as _ <-. }
  destruct (HR (w_tick w1) (w_db w1) Hwf1) as [_ Hle2].
  destruct (le_issuances _ _ Hle2 _ _ Hi1) as (i2 & Hi2 & _). simpl.
  unfold IssuanceStore.revoke_row. rewrite lookup_alter_eq, Hi2. simpl. eexists. split; [done|].
  by destruct (Issuance.IsRevoked i2) eqn:?.
Qed.

(** ** Failing runs *)

(** The step [st] of a run that ended with the tables [d] added no machine
    token, and no mint issuance that is not revoked in [d]. *)

Definition cancelled (d : DB) (st : DB * DB) : Prop :=
  (∀ k, is_Some (machine_tokens st.2 !! k) → is_Some (machine_tokens st.1 !! k)) ∧
  (∀ k, mint_key st.2 k → mint_key st.1 k ∨ ∃ i, issuances d !! k = Some i ∧ Issuance.IsRevoked i = true).

Lemma cancelled_quiet d st : no_new_mint st.1 st.2 → cancelled d st.
Proof. intros []. split; [done|]. intros k Hk. left. auto. Qed.

Definition Clean {A} (m : M A) : Prop := ∀ e w x w',
  fault_free e → rely db_step e → wf_db (w_db w) → m e w = (Err x, w') →
  ∃ l, w_steps w' = w_steps w ++ l ∧ Forall (cancelled (w_db w')) l.

Lemma clean_err {A} (m : M A) : ErrTraced no_new_mint m → Clean m.
Proof.
  intros Hm e w x w' _ _ _ H. destruct (Hm _ _ _ _ H) as (l & Hl & Hf). exists l. split; [done|].
  eapply Forall_impl; [exact Hf|]. intros st. apply cancelled_quiet.
Qed.

Lemma clean_bind {P} {A B} (m : M A) (k : A → M B) :
  Traced no_new_mint P m → Traced db_step P m → (∀ a, Clean (k a)) → Clean (m ≫= k).
Proof.
  intros Hm Hs Hk e w x w' Hff HR Hwf H. apply bind_err in H as [H|(a & w1 & H1 & H2)].
  { by eapply (clean_err m (err_traced _ Hm)). }
  destruct (traced_db _ _ _ _ _ Hs H1 HR Hwf) as [Hwf1 _].
  destruct (Hk _ _ _ _ _ Hff HR Hwf1 H2) as (l2 & E2 & F2). destruct (Hm _ _ _ _ H1) as (l1 & _ & E1 & _ & F1 & _).
  exists (l1 ++ l2). rewrite E2, E1, app_assoc. split; [done|]. apply Forall_app. split; [|done].
  eapply Forall_impl; [exact F1|]. intros st. apply cancelled_quiet.
Qed.

Ltac clean_step := eapply (clean_bind (P:=λ _, True)); [traced; done|traced; done|intros ?; cbv zeta].

Lemma err_or_deny {A} s cid r (m : M A) : ErrTraced no_new_mint m → ErrTraced no_new_mint (or_deny s cid r m).
Proof.
  intros Hm e w x w' H. unfold or_deny, try, mbind, M_bind in H. destruct (m e w) as [[a|y] w1] eqn:E; [done|].
  destruct (Hm _ _ _ _ E) as (l & Hl & Hf). exists l. split; [|done]. rewrite <-Hl.
  unfold deny, recordDenied, record_audit, throw, mbind, M_bind in H. destruct (has_audit s); by injection H as _ <-.
Qed.

Lemma quiet_refuse s cid claims a t g id :
  Traced no_new_mint (λ _, True) (refuseIfRevokedSinceCheck s cid claims a t g id).
Proof.
  unfold refuseIfRevokedSinceCheck, revokeOwnIssuance. traced; try done.
  apply traced_store. intros now d. split; [|done]. intros k (i & Hi & Hk). simpl in Hi.
  unfold IssuanceStore.revoke_row in Hi. rewrite lookup_alter_Some in Hi. unfold mint_key.
  destruct Hi as [(-> & j & Hj & ->)|[_ Hi]]; [|eauto]. exists j. split; [done|]. by destruct (Issuance.IsRevoked j).
Qed.

Lemma clean_mintAuthorized s req i claims t cfg f sc :
  has_mint s = true → Clean (mintAuthorized s req i claims t cfg f sc).
Proof.
  intros Hmi. unfold mintAuthorized. repeat clean_step.
  intros e w x w' Hff HR Hwf H. apply bind_err in H as [H|(resp & w1 & H1 & H)].
  { eapply (clean_err _ (err_or_deny _ _ _ _ (err_Issue _))); eauto. }
  apply or_deny_ok in H1. db_after (λ _ : Audit.Event, True) H1 using HR Hwf as Hwf1 _Hle.
  pose proof (traced_steps _ _ _ _ _ _ _ (traced_Issue (λ _, True) _) H1) as E1.
  apply (Issue_step _ t) in H1 as (d & row & Hown & Hdb & _); [|done]. rewrite Hown in E1.
  apply bind_err in H as [H|(u & w2 & _ & H)]; [|by apply bind_err in H as [H|(v & w3 & _ & H)]].
  destruct (quiet_refuse _ _ _ _ _ _ _ _ _ _ _ H) as (l2 & _ & E2 & _ & F2 & _).
  exists ((d, w_db w1) :: l2). rewrite E2, E1, <-app_assoc. split; [done|]. constructor.
  - split; [by rewrite Hdb|]. intros k (j & Hj & Hk). simpl in Hj. rewrite Hdb in Hj. simpl in Hj.
    apply lookup_insert_Some in Hj as [[<- _]|[_ Hj]]; [right|left; by exists j].
    eapply refuse_revokes; try done. rewrite Hdb. simpl. by rewrite lookup_insert_eq.
  - eapply Forall_impl; [exact F2|]. intros st. apply cancelled_quiet.
Qed.

Lemma clean_dispatchMint s req i claims t cfg : Clean (dispatchMint s req i claims t cfg).
Proof.
  unfold dispatchMint. destruct (has_mint s) eqn:Hmi.
  - do 4 clean_step. by apply clean_mintAuthorized.
  - intros e w x w' Hff HR Hwf H. apply bind_err in H as [H|(u & w1 & H & _)]; [|by apply deny_ok in H].
    eapply clean_err; eauto. eapply (err_traced (P:=λ _, True)). traced.
Qed.

Section exchange.
Context (s : Wiring) (deps : BrokerIssuer.Deps) `{Hdeps : !BrokerIssuer.BrokerDeps deps}.

Lemma clean_handleViaRegistry req i claims t cfg : Clean (handleViaRegistry s deps req i claims t cfg).
Proof.
  unfold handleViaRegistry, isFrontedBrokerExchange. do 3 clean_step. destruct (Resource.Kind t).
  - apply clean_dispatchMint.
  - apply clean_err, (err_traced (P:=λ _, True)), traced_dispatchBroker; auto using quiet_broker_Issue with guar_db.
  - apply clean_err, (err_traced (P:=λ _, True)). traced.
Qed.

Lemma clean_Exchange req : Clean (Exchange s deps req).
Proof.
  unfold Exchange. clean_step. destruct (bool_decide _).
  - clean_step. apply clean_handleViaRegistry.
  - apply clean_err, err_exchangeSelf.
Qed.

End exchange.

(** C7: a refused exchange leaves no live token behind.  When no store call
    fails and whatever the other requests do, an exchange that answers an error
    stored no machine token, and every mint issuance it inserted (the mint
    precedes the check that refuses it) is revoked in the tables it leaves. *)
Theorem refused_exchange_leaves_no_token s deps req e w x w' :
  BrokerIssuer.BrokerDeps deps → fault_free e → rely db_step e → wf_db (w_db w) →
  Exchange s deps req e w = (Err x, w') → ∀ st, seen w w' st → cancelled (w_db w') st.
Proof.
  intros Hdeps Hff HR Hwf H st Hst. destruct (clean_Exchange _ _ _ _ _ _ _ Hff HR Hwf H) as (l & Hl & Hf).
  unfold seen in Hst. rewrite (own_steps_app _ _ _ Hl) in Hst. by eapply Forall_forall in Hf.
Qed.

(** A server on which another request revokes the consent right after the
    issuance was inserted. *)

Module FailureRuns.

Definition revoke_grants (d : DB) : DB :=
  set_grants ((λ g, Grant.MkGrant (Grant.ID g) (Grant.UserID g) (Grant.ClientID g) (Grant.ResourceID g)
    (Grant.Scopes g) (Grant.CreatedAt g) (Grant.UpdatedAt g) (Some Scenario.start)) <$> consent_grants d) d.

Definition racing : Env :=
  MkEnv (fault ExchangeRuns.env) (clock ExchangeRuns.env) (rand ExchangeRuns.env)
    (λ n d, if bool_decide (size (issuances d) = 2) then revoke_grants d else d)
    (params ExchangeRuns.env) (config ExchangeRuns.env).

Definition run : res TokenExchangeResponse * World :=
  Exchange ExchangeRuns.wired ExchangeRuns.deps (ExchangeRuns.request "st" "https://api" "svc" "read")
    racing ExchangeRuns.world.

Example refused : run.1 = Err (ConsentRequiredError "" "api" CauseConsentMissing "" []) ∧
  count_rows (λ i, Issuance.IsRevoked i) (issuances (w_db run.2)) = 1%nat.
Proof. vm_compute. auto. Qed.

Lemma racing_rely : rely db_step racing.
Proof. intros n d. simpl. case_bool_decide; [apply step_grants|reflexivity]. Qed.

End FailureRuns.

Lemma refused_exchange_leaves_no_token_witness :
  (∃ x, FailureRuns.run.1 = Err x) ∧
  ∀ st, seen ExchangeRuns.world FailureRuns.run.2 st → cancelled (w_db FailureRuns.run.2) st.
Proof.
  destruct FailureRuns.refused as [H _]. split; [eauto|].
  refine (refused_exchange_leaves_no_token ExchangeRuns.wired ExchangeRuns.deps
    (ExchangeRuns.request "st" "https://api" "svc" "read") FailureRuns.racing ExchangeRuns.world _ _
    ExchangeRuns.deps_ok _ FailureRuns.racing_rely ExchangeRuns.exchange_wf (run_err _ _ H)).
  intros n. reflexivity.
Defined.
