(* ===== verification/GrantAdmin.v ===== *)
(** * internal/services/grant_admin.go: an administrator revokes grants

    Revoking a consent marks the grant and cascades onto the live mint
    issuances of the (user, client, resource) triple and onto the client's
    refresh-token families for the resource.  The three are separate store
    calls: a failing cascade is recorded in the audit detail and the answer is
    still a success.  The paging loop of the family cascade takes its number of
    rounds as [fuel]; [GrantAdminTheorems] shows how many are enough. *)

From stdpp Require Import pretty.
From S2P Require Import Prelude GoStrings ScopeSet Act Domain Db Effects Crypto Stores Order StoreOrder.

Module GrantAdminService.

Record Wiring := MkWiring {
  has_audit : bool;
  has_cascade : bool    (* WithRefreshFamilyCascade: token, revocation and resource stores *)
}.

Record UserGrants := MkUserGrants { Consent : list Grant.ConsentGrant; Broker : list Broker.BrokerGrant }.

Section service.
Variable s : Wiring.
Variable fuel : nat.

Definition ListForUser (userID : string) : M UserGrants :=
  if bool_decide (userID = "") then throw (EInvalidRequest "user_id is required") else
  consent ← ConsentGrantStore.ListForUser userID;
  broker ← BrokerGrantStore.ListForUser userID;
  mret (MkUserGrants consent broker).

Definition page : nat := 50.

(** One round per page, from [offset] on. *)

Fixpoint collect (n : nat) (userID clientID uri : string) (offset : nat) : M (list string) :=
  match n with
  | 0 => throw (EOther "out of fuel")
  | S n' =>
      r ← TokenStore.ListFamilies (TokenStore.MkFamilyFilter clientID userID "active" page offset);
      let targets := Family.ID <$> filter (λ f, Family.Resource f = uri) r.1 in
      if bool_decide (length r.1 < page) then mret targets
      else rest ← collect n' userID clientID uri (offset + page); mret (targets ++ rest)
  end.

(** The number of families revoked, and the error that stopped the loop. *)

Fixpoint revoke_loop (revoked : nat) (targets : list string) : M (nat * option err) :=
  match targets with
  | [] => mret (revoked, None)
  | id :: rest =>
      changed ← try (TokenStore.RevokeFamily id);
      match changed with
      | Err x => mret (revoked, Some x)
      | Ok changed =>
          d ← try (RevocationStore.RevokeByFamily id);
          match d with
          | Err x => mret (revoked, Some x)
          | Ok _ => revoke_loop (if (changed : bool) then S revoked else revoked) rest
          end
      end
  end.

Definition revokeRefreshFamilies (userID clientID resourceID : string) : M (nat * option err) :=
  if negb (has_cascade s) then mret (0, None) else
  r ← try (ResourceStore.GetByID resourceID);
  match r with
  | Err ErrResourceNotFound => mret (0, None)
  | Err x => mret (0, Some x)
  | Ok res =>
      targets ← try (collect fuel userID clientID (Resource.URI res) 0);
      match targets with
      | Err x => mret (0, Some x)
      | Ok targets => revoke_loop 0 targets
      end
  end.

Definition detail (id userID clientID resourceID : string) (issuances families : nat)
    (cascadeFailed familyCascadeFailed : bool) : string :=
  "id=" +:+ id +:+ " user_id=" +:+ userID +:+ " client_id=" +:+ clientID +:+ " resource_id=" +:+ resourceID
    +:+ " revoked_issuances=" +:+ pretty issuances +:+ " revoked_families=" +:+ pretty families
    +:+ (if cascadeFailed then " cascade=failed" else "")
    +:+ (if familyCascadeFailed then " family_cascade=failed" else "").

Definition RevokeConsent (id : string) : M unit :=
  if bool_decide (id = "") then throw (EInvalidRequest "id is required") else
  grant ← ConsentGrantStore.GetByID id;
  _ ← ConsentGrantStore.Revoke id;
  match grant with
  | None =>
      record_audit (has_audit s)
        (Audit.NewEvent Audit.ActionConsentGrantRevokedAdmin "admin" "" "" (detail id "" "" "" 0 0 false false))
  | Some g =>
      let '(userID, clientID, resourceID) := (Grant.UserID g, Grant.ClientID g, Grant.ResourceID g) in
      n ← try (IssuanceStore.RevokeFamily userID clientID resourceID);
      f ← revokeRefreshFamilies userID clientID resourceID;
      record_audit (has_audit s)
        (Audit.NewEvent Audit.ActionConsentGrantRevokedAdmin "admin" clientID ""
           (detail id userID clientID resourceID (match n with Ok n => n | Err _ => 0 end) f.1
              (match n with Ok _ => false | Err _ => true end) (bool_decide (is_Some f.2))))
  end.

Definition RevokeBroker (id : string) : M unit :=
  if bool_decide (id = "") then throw (EInvalidRequest "id is required") else
  grant ← BrokerGrantStore.GetByID id;
  _ ← BrokerGrantStore.Revoke id;
  let '(userID, providerID) := match grant with
                               | Some g => (Broker.UserID g, Broker.BrokerProviderID g)
                               | None => ("", "")
                               end in
  record_audit (has_audit s)
    (Audit.NewEvent Audit.ActionBrokerGrantRevokedAdmin "admin" "" ""
       ("id=" +:+ id +:+ " user_id=" +:+ userID +:+ " broker_provider_id=" +:+ providerID)).

End service.
End GrantAdminService.
