(* ===== verification/GrantAdminTheorems.v ===== *)
(** * Revocation of a consent against a concurrent exchange, and what it reaches *)

From S2P Require Import Prelude GoStrings ScopeSet Act Domain Db Effects Crypto Stores Order StoreOrder MintIssuer TokenService TokenProofs Scenario TokenTheorems BrokerIssuer Fronting ExchangeScopes TokenExchange ExchangeProofs ExchangeBroker ExchangeTheorems ExchangeFailure GrantAdmin.
Import AgentIdentity MintIssuer TokenExchangeService.

(** ** Ordered steps of two requests *)

(** The run made the step [x] before the step [y]. *)

Definition ordered (w w' : World) (x y : DB * DB) : Prop :=
  ∃ i j, i < j ∧ own_steps w w' !! i = Some x ∧ own_steps w w' !! j = Some y.

Lemma ordered_split w w1 w2 x y :
  extends w w1 → extends w1 w2 → seen w w1 x → seen w1 w2 y → ordered w w2 x y.
Proof.
  intros [l1 H1] [l2 H2]. unfold seen, ordered. rewrite (own_steps_app _ _ _ H1), (own_steps_app _ _ _ H2).
  rewrite (own_steps_app w w2 (l1 ++ l2)) by (by rewrite H2, H1, app_assoc).
  intros [i Hi]%list_elem_of_lookup [j Hj]%list_elem_of_lookup.
  pose proof (lookup_lt_Some _ _ _ Hi). exists i, (length l1 + j). split; [lia|]. split.
  - by rewrite lookup_app_l.
  - rewrite lookup_app_r by lia. by replace (length l1 + j - length l1) with j by lia.
Qed.

Lemma ordered_sub w w1 w2 w3 x y :
  extends w w1 → extends w1 w2 → extends w2 w3 → ordered w1 w2 x y → ordered w w3 x y.
Proof.
  intros [l1 H1] [l2 H2] [l3 H3] (i & j & Hij & Hi & Hj). rewrite (own_steps_app _ _ _ H2) in Hi, Hj.
  unfold ordered. rewrite (own_steps_app w w3 (l1 ++ l2 ++ l3)) by (by rewrite H3, H2, H1, !app_assoc).
  pose proof (lookup_lt_Some _ _ _ Hi). pose proof (lookup_lt_Some _ _ _ Hj).
  exists (length l1 + i), (length l1 + j). split; [lia|].
  rewrite !(lookup_app_r l1) by lia. replace (length l1 + i - length l1) with i by lia.
  replace (length l1 + j - length l1) with j by lia. by rewrite !lookup_app_l.
Qed.

(** The places of both requests' steps in the common history. *)

Lemma merge_places {A} (l1 l2 g : list A) :
  merge l1 l2 g → ∃ f1 f2 : nat → nat,
    (∀ i x, l1 !! i = Some x → g !! f1 i = Some x) ∧ (∀ i x, l2 !! i = Some x → g !! f2 i = Some x) ∧
    (∀ i j, i < j → f1 i < f1 j) ∧ (∀ i j, i < j → f2 i < f2 j) ∧
    (∀ i j, is_Some (l1 !! i) → is_Some (l2 !! j) → f1 i ≠ f2 j).
Proof.
  induction 1 as [|x l1 l2 g _ IH|x l1 l2 g _ IH|x l1 l2 g _ IH].
  { exists id, id. split_and!; unfold id; try done; intros i j [x Hx]; by rewrite lookup_nil in Hx. }
  all: destruct IH as (f1 & f2 & H1 & H2 & M1 & M2 & Hne).
  - exists (λ i, match i with 0 => 0 | S i' => S (f1 i') end), (λ j, S (f2 j)). split_and!.
    + intros [|i] y Hy; simpl in *; auto.
    + simpl. auto.
    + intros [|i] [|j] Hij; try lia. specialize (M1 i j). lia.
    + intros i j Hij. specialize (M2 i j). lia.
    + intros [|i] j Hi Hj; [lia|]. specialize (Hne i j Hi Hj). lia.
  - exists (λ i, S (f1 i)), (λ j, match j with 0 => 0 | S j' => S (f2 j') end). split_and!.
    + simpl. auto.
    + intros [|i] y Hy; simpl in *; auto.
    + intros i j Hij. specialize (M1 i j). lia.
    + intros [|i] [|j] Hij; try lia. specialize (M2 i j). lia.
    + intros i [|j] Hi Hj; [lia|]. specialize (Hne i j Hi Hj). lia.
  - exists (λ i, S (f1 i)), (λ j, S (f2 j)). split_and!; simpl; auto.
    + intros i j Hij. specialize (M1 i j). lia.
    + intros i j Hij. specialize (M2 i j). lia.
Qed.

(** Of two ordered steps of one request and two of another, the last comes
    after the first, or both of its request before the second. *)

Lemma merge_between w1 w1' w2 w2' g x y z1 z2 :
  merge (own_steps w1 w1') (own_steps w2 w2') g → ordered w1 w1' x y → ordered w2 w2' z1 z2 →
  (∃ i j, i < j ∧ g !! i = Some x ∧ g !! j = Some z2) ∨
  (∃ i1 i2 j, i1 < j ∧ i2 < j ∧ g !! i1 = Some z1 ∧ g !! i2 = Some z2 ∧ g !! j = Some y).
Proof.
  intros Hm (i & j & Hij & Hi & Hj) (k1 & k2 & Hk & Hk1 & Hk2).
  destruct (merge_places _ _ _ Hm) as (f1 & f2 & H1 & H2 & M1 & M2 & Hne).
  assert (f1 i ≠ f2 k2) by (apply Hne; eauto). specialize (M1 _ _ Hij). specialize (M2 _ _ Hk).
  destruct (decide (f1 i < f2 k2)); [left; exists (f1 i), (f2 k2)|right; exists (f2 k1), (f2 k2), (f1 j)];
    (split_and!; [lia..|auto|auto|auto]) || (split_and!; [lia|auto|auto]).
Qed.

(** ** The order in which a revoked consent stays revoked *)

Definition grant_key (g : Grant.ConsentGrant) : string * string * string :=
  (Grant.UserID g, Grant.ClientID g, Grant.ResourceID g).

(** The key of the table and UNIQUE (id). *)

Definition grants_wf (d : DB) : Prop :=
  keyed grant_key (consent_grants d) ∧ unique_on (λ g, Some (Grant.ID g)) (consent_grants d).

Definition grant_le (g g' : Grant.ConsentGrant) : Prop :=
  Grant.ID g' = Grant.ID g ∧ (Grant.IsRevoked g = true → Grant.IsRevoked g' = true).

#[export] Instance grant_le_preorder : PreOrder grant_le.
Proof. split; [by split|]. intros g1 g2 g3 [? ?] [? ?]. split; [congruence|auto]. Qed.

Definition grants_step (d d' : DB) : Prop :=
  grants_wf d → grants_wf d' ∧ table_le grant_le (consent_grants d) (consent_grants d').

#[export] Instance grants_step_preorder : PreOrder grants_step.
Proof.
  split; [by intros d|]. intros d1 d2 d3 H1 H2 Hwf. destruct (H1 Hwf) as [Hwf2 Hle1].
  destruct (H2 Hwf2) as [? Hle2]. split; [done|by etrans].
Qed.

(** The tables move forward, and no request approves a revoked consent anew. *)

Definition consent_step (d d' : DB) : Prop := db_step d d' ∧ grants_step d d'.

#[export] Instance consent_step_preorder : PreOrder consent_step.
Proof.
  split; [by split|]. intros d1 d2 d3 [? ?] [? ?]. split; by etrans.
Qed.

(** Two points of a history. *)

Lemma consent_history d0 g dn i j x x' y y' :
  history consent_step d0 g dn → wf_db d0 → grants_wf d0 → i < j → g !! i = Some (x, x') → g !! j = Some (y, y') →
  wf_db x ∧ wf_db x' ∧ wf_db y ∧ db_le x' y ∧ grants_wf x' ∧ table_le grant_le (consent_grants x') (consent_grants y).
Proof.
  intros Hh Hwf Hg Hij Hi Hj. destruct (history_lookup _ _ _ _ _ _ Hh Hi) as [[S0 G0] [S1 G1]].
  destruct (history_order _ _ _ _ _ _ _ _ _ Hh Hij Hi Hj) as [S2 G2].
  destruct (S0 Hwf) as [Hx _]. destruct (S1 Hx) as [Hx' _]. destruct (S2 Hx') as [Hy ?].
  destruct (G0 Hg) as [Gx _]. destruct (G1 Gx) as [Gx' _]. destruct (G2 Gx') as [_ ?]. done.
Qed.

(** ** What RevokeFamily does to a lineage *)

Lemma iss_le_fields i i' : iss_le i i' →
  Issuance.JTI i' = Issuance.JTI i ∧ Issuance.ParentJTI i' = Issuance.ParentJTI i ∧
  IssuanceStore.is_mint_row i' = IssuanceStore.is_mint_row i ∧
  (∀ u c r, IssuanceStore.lineage_root u c r i' = IssuanceStore.lineage_root u c r i) ∧
  (Issuance.IsRevoked i = true → Issuance.IsRevoked i' = true).
Proof. by intros [->|[_ [now ->]]]. Qed.

Lemma descends_le u c r t t' j :
  table_le iss_le t t' → IssuanceStore.descends u c r t j → IssuanceStore.descends u c r t' j.
Proof.
  intros Hle. induction 1 as [k i Hk Hr|k i p Hk Hm Hp _ IH]; destruct (Hle _ _ Hk) as (i' & Hk' & Hi);
    destruct (iss_le_fields _ _ Hi) as (<- & Hpar & Hmint & Hroot & _).
  - eapply IssuanceStore.descends_root; [done|]. by rewrite Hroot.
  - eapply IssuanceStore.descends_child; [done|by rewrite Hmint|by rewrite Hpar|done].
Qed.

(** The tables a successful RevokeFamily leaves. *)

Definition cascade (u c r : string) (now : Z) (d : DB) : DB :=
  set_issuances (update_rows (IssuanceStore.family_row (IssuanceStore.lineage u c r (issuances d)))
    (Issuance.revoke now) (issuances d)) d.

Lemma cascade_revokes u c r now d k i :
  issuances d !! k = Some i → IssuanceStore.is_mint_row i = true →
  IssuanceStore.descends u c r (issuances d) (Issuance.JTI i) →
  ∃ i', issuances (cascade u c r now d) !! k = Some i' ∧ Issuance.IsRevoked i' = true.
Proof.
  intros Hk Hm Hd. simpl. rewrite lookup_update_rows, Hk. simpl. eexists. split; [done|].
  apply IssuanceStore.lineage_spec in Hd. unfold IssuanceStore.family_row.
  rewrite Hm, (bool_decide_eq_true_2 _ Hd). simpl. by destruct (Issuance.IsRevoked i) eqn:?.
Qed.

Lemma descends_row u c r t j :
  IssuanceStore.descends u c r t j → ∃ k i, t !! k = Some i ∧ Issuance.JTI i = j ∧ IssuanceStore.is_mint_row i = true.
Proof.
  intros [k i Hk Hr|k i p Hk Hm _ _]; exists k, i; split_and!; try done.
  unfold IssuanceStore.lineage_root in Hr. by unbool.
Qed.

(** ** The steps of a consent revocation *)

Import GrantAdminService.

Section traces.
Context {P : Audit.Event → Prop}.

Lemma traced_collect {S : relation DB} `{!PreOrder S} n u c uri off : Traced S P (collect n u c uri off).
Proof. revert off. induction n as [|n IH]; intros off; simpl; traced; auto. Qed.

Lemma traced_revoke_loop n l : Traced db_step P (revoke_loop n l).
Proof. revert n. induction l as [|x l IH]; intros n; simpl; traced; auto. Qed.

Lemma traced_revokeRefreshFamilies s fuel u c r : Traced db_step P (revokeRefreshFamilies s fuel u c r).
Proof. unfold revokeRefreshFamilies. traced; auto using traced_collect, traced_revoke_loop with guar_db. Qed.

Lemma traced_RevokeConsent s fuel id :
  (∀ ev, Audit.action ev = Audit.ActionConsentGrantRevokedAdmin → P ev) → Traced db_step P (RevokeConsent s fuel id).
Proof.
  intros HP. unfold RevokeConsent. traced; auto using traced_revokeRefreshFamilies; by apply HP.
Qed.

End traces.

#[export] Hint Resolve traced_collect traced_revoke_loop traced_revokeRefreshFamilies : guar_db.

Definition mark_revoked (now : Z) (id : string) (d : DB) : DB :=
  set_grants (update_rows (λ g, bool_decide (Grant.ID g = id)) (Grant.revoke now) (consent_grants d)) d.

Lemma RevokeConsent_steps s fuel id e w r w' :
  fault_free e → id ≠ "" → RevokeConsent s fuel id e w = (r, w') → ∃ dg,
    seen w w' (dg, dg) ∧
    match find_row (λ g, bool_decide (Grant.ID g = id)) (consent_grants dg) with
    | None => True
    | Some g => ∃ dr nr dc nc,
        ordered w w' (dr, mark_revoked nr id dr)
          (dc, cascade (Grant.UserID g) (Grant.ClientID g) (Grant.ResourceID g) nc dc)
    end.
Proof.
  intros Hff Hid H. unfold RevokeConsent in H. rewrite bool_decide_eq_false_2 in H by done.
  assert (extends w w') as X.
  { revert H. match goal with |- ?m e w = _ → _ => assert (Traced db_step (λ _, True) m) as T by (traced; done) end.
    intros H. exact (traced_extends _ _ _ _ _ T H). }
  unfold mbind at 1, M_bind at 1, ConsentGrantStore.GetByID, query, store in H. rewrite Hff in H. simpl in H.
  set (dg := interfere e (w_tick w) (w_db w)) in *. set (w1 := after w dg [(dg, dg)]) in *.
  assert (extends w w1) as X1 by apply extends_after.
  destruct (ConsentGrantStore.Revoke id e w1) as [r2 w2] eqn:H2.
  destruct (store_run (λ now d, (Ok tt, mark_revoked now id d)) e w1 Hff) as (nr & dr & _ & Hst).
  assert (r2 = Ok tt ∧ w2 = after w1 (mark_revoked nr id dr) [(dr, mark_revoked nr id dr)]) as [-> ->].
  { unfold ConsentGrantStore.Revoke in H2. unfold mark_revoked in Hst at 1. rewrite Hst in H2. by simplify_eq/=. }
  set (w2 := after w1 _ _) in *. assert (extends w1 w2) as X2 by apply extends_after.
  unfold mbind at 1, M_bind at 1 in H. rewrite H2 in H.
  exists dg. assert (extends w2 w') as X3.
  { revert H. match goal with |- ?m e w2 = _ → _ => assert (Traced db_step (λ _, True) m) as T by (traced; done) end.
    intros H. exact (traced_extends _ _ _ _ _ T H). }
  split; [eapply (seen_left w w1); [done|chain_ext|apply seen_after]|].
  destruct (find_row _ _) as [g|]; [|done]. simpl in H.
  destruct (IssuanceStore.RevokeFamily (Grant.UserID g) (Grant.ClientID g) (Grant.ResourceID g) e w2) as [r3 w3] eqn:H3.
  destruct (store_run (λ now d, (Ok (count_rows (IssuanceStore.family_row
      (IssuanceStore.lineage (Grant.UserID g) (Grant.ClientID g) (Grant.ResourceID g) (issuances d))) (issuances d)),
      cascade (Grant.UserID g) (Grant.ClientID g) (Grant.ResourceID g) now d)) e w2 Hff) as (nc & dc & _ & Hsc).
  unfold IssuanceStore.RevokeFamily in H3. unfold cascade in Hsc at 1. rewrite Hsc in H3. simplify_eq/=.
  exists dr, nr, dc, nc.
  set (w3 := after w2 _ _) in *. assert (extends w3 w') as X4.
  { unfold mbind at 1, M_bind at 1, try, IssuanceStore.RevokeFamily in H. rewrite Hsc in H. simpl in H.
    revert H. match goal with |- ?m e ?v = _ → _ => assert (Traced db_step (λ _, True) m) as T by (traced; done) end.
    intros H. exact (traced_extends _ _ _ _ _ T H). }
  eapply (ordered_sub w w1 w3 w'); [done|chain_ext|done|].
  eapply (ordered_split w1 w2 w3); [done|apply extends_after| |]; apply seen_after.
Qed.

(** ** The guard of an exchange

    The row of the minted token was inserted by the step [(d, d')]; the subject
    token, and the consent of a direct exchange, were read again after it. *)

Record guarded (req : TokenExchangeRequest) (e : Env) (w w' : World) (claims : AccessTokenClaims)
    (target : Resource.Resource) (f : option (Resource.Resource * Link.FrontingLink)) (jti : string) (d d' : DB)
    (i : Issuance.Issuance) : Prop := {
  gu_insert : seen w w' (d, d');
  gu_row : issuances d' !! jti = Some i;
  gu_mint : IssuanceStore.is_mint_row i = true;
  gu_jti : Issuance.JTI i = jti;
  gu_subject : Issuance.SubjectUserID i = c_Subject claims;
  gu_resource : Issuance.ResourceID i = Resource.ID target;
  gu_parent : Issuance.ParentJTI i = c_JTI claims;
  gu_consent : f = None → Issuance.ConsentClientID i = c_ClientID claims;
  gu_live : c_JTI claims ≠ "" → ∃ x, ordered w w' (d, d') (x, x) ∧ issuance_live x (c_JTI claims);
  gu_granted : f = None → isSelfExchange req claims (config e) = false → ∃ x g, ordered w w' (d, d') (x, x) ∧
    consent_grants x !! (c_Subject claims, c_ClientID claims, Resource.ID target) = Some g ∧ Grant.IsRevoked g = false
}.

Lemma mint_run_guarded s req e w w' resp claims target f w1 w2 act iss :
  mint_run s req e w w' resp claims target f w1 w2 act iss → ∃ d i,
    guarded req e w w' claims target f (IssuanceID iss) d (w_db w2) i.
Proof.
  intros Hm. pose proof (mr_before _ _ _ _ _ _ _ _ _ _ _ _ _ Hm) as X1.
  pose proof (mr_during _ _ _ _ _ _ _ _ _ _ _ _ _ Hm) as X2. pose proof (mr_after _ _ _ _ _ _ _ _ _ _ _ _ _ Hm) as X3.
  pose proof (mr_wired _ _ _ _ _ _ _ _ _ _ _ _ _ Hm) as Hmi.
  destruct (mr_minted _ _ _ _ _ _ _ _ _ _ _ _ _ Hm) as [(agent & jkt & now & Hi) _ _ _ _ _ (w3 & Hre & Hdb & Hst)].
  pose proof (Issue_row _ target _ _ _ _ Hi eq_refl) as (d & now' & expiry & Hins & Hnone & Hdb2).
  apply Issue_ok in Hi as (ex & nw & _ & _ & Hv & _).
  assert (IssuanceID iss ≠ "") as Hjti by (unfold ValidateAccessTokenClaims in Hv; simpl in Hv; by unbool).
  assert (extends w2 w3) as X3'.
  { refine (traced_extends (S:=db_step) (P:=λ _, True) _ _ _ _ _ _ Hre). traced. }
  assert (extends w3 w') as X4 by (exists []; by rewrite app_nil_r).
  assert (∀ x, seen w2 w3 (x, x) → ordered w w' (d, w_db w2) (x, x)) as Hord.
  { intros x Hx. eapply (ordered_sub w w1 w3 w'); [done|chain_ext|done|]. by eapply (ordered_split w1 w2 w3). }
  apply recheck_none in Hre as [Hlive Hgrant].
  exists d. eexists. split.
  - seen_tac.
  - rewrite Hdb2. simpl. by rewrite lookup_insert_eq.
  - unfold IssuanceStore.is_mint_row. simpl. by rewrite !bool_decide_eq_true_2.
  - done.
  - done.
  - done.
  - done.
  - by intros ->.
  - intros Hj. destruct (Hlive Hmi Hj) as (x & Hx & ?). eauto.
  - intros -> Hs. rewrite Hs in Hgrant. destruct (Hgrant eq_refl) as (x & g & Hx & ? & ?). eauto 10.
Qed.

(** ** A revocation against an exchange *)

Section race.
Context (req : TokenExchangeRequest) (e1 : Env) (w1 w1' : World) (claims : AccessTokenClaims)
  (target : Resource.Resource) (f : option (Resource.Resource * Link.FrontingLink)) (jti : string) (d d' : DB)
  (i : Issuance.Issuance).
Context (w2 w2' : World) (id : string) (g : Grant.ConsentGrant) (d0 dn : DB) (h : list (DB * DB)).
Context (Hgu : guarded req e1 w1 w1' claims target f jti d d' i).
Context (Hwf : wf_db d0) (Hgwf : grants_wf d0) (Hg : consent_grants d0 !! grant_key g = Some g) (Hid : Grant.ID g = id).
Context (Hh : history consent_step d0 h dn) (Hmerge : merge (own_steps w1 w1') (own_steps w2 w2') h).
Context (dr dc : DB) (nr nc : Z).

Let u := Grant.UserID g.
Let c := Grant.ClientID g.
Let r := Grant.ResourceID g.

Context (Hrev : ordered w2 w2' (dr, mark_revoked nr id dr) (dc, cascade u c r nc dc)).

(** The row was there when the cascade ran, and stays revoked. *)

Lemma cascade_after_insert a b :
  a < b → h !! a = Some (d, d') → h !! b = Some (dc, cascade u c r nc dc) →
  IssuanceStore.descends u c r (issuances dc) jti →
  ∃ i', issuances dn !! jti = Some i' ∧ Issuance.IsRevoked i' = true.
Proof.
  intros Hab Ha Hb Hd.
  destruct (consent_history _ _ _ _ _ _ _ _ _ Hh Hwf Hgwf Hab Ha Hb) as (_ & _ & Hwfc & Hle & _).
  destruct (le_issuances _ _ Hle _ _ (gu_row _ _ _ _ _ _ _ _ _ _ _ Hgu)) as (ic & Hic & Hile).
  destruct (iss_le_fields _ _ Hile) as (Hj & _ & Hmint & _ & _).
  rewrite (gu_jti _ _ _ _ _ _ _ _ _ _ _ Hgu) in Hj. rewrite (gu_mint _ _ _ _ _ _ _ _ _ _ _ Hgu) in Hmint.
  destruct (cascade_revokes u c r nc dc jti ic Hic Hmint) as (i' & Hi' & Hr'); [by rewrite Hj|].
  destruct (history_rest _ _ _ _ _ _ Hh Hb) as [Hs _].
  destruct (history_lookup _ _ _ _ _ _ Hh Hb) as [_ [Hs0 _]].
  destruct (Hs (proj1 (Hs0 Hwfc))) as [_ Hlen].
  destruct (le_issuances _ _ Hlen _ _ Hi') as (i2 & Hi2 & Hile2). exists i2. split; [done|].
  by apply (iss_le_fields _ _ Hile2).
Qed.

(** What descends from the consent at the start descends from it later. *)

Lemma descends_at a x x' j :
  h !! a = Some (x, x') → IssuanceStore.descends u c r (issuances d0) j → IssuanceStore.descends u c r (issuances x) j.
Proof.
  intros Ha. destruct (history_lookup _ _ _ _ _ _ Hh Ha) as [[S0 _] _]. destruct (S0 Hwf) as [_ Hle].
  by eapply descends_le, le_issuances.
Qed.

(** The exchange used this consent, or a token that descends from it. *)

Definition depends : Prop :=
  (f = None ∧ isSelfExchange req claims (config e1) = false ∧ c ≠ "" ∧
     (c_Subject claims, c_ClientID claims, Resource.ID target) = grant_key g) ∨
  IssuanceStore.descends u c r (issuances d0) (c_JTI claims).

Lemma depends_descends a b :
  a < b → h !! a = Some (d, d') → h !! b = Some (dc, cascade u c r nc dc) → depends →
  IssuanceStore.descends u c r (issuances dc) jti.
Proof.
  intros Hab Ha Hb Hdep.
  destruct (consent_history _ _ _ _ _ _ _ _ _ Hh Hwf Hgwf Hab Ha Hb) as (_ & _ & _ & Hle & _).
  destruct Hgu as [_ Hrow Hmint Hj Hs Hres Hpar Hcons _ _].
  assert (IssuanceStore.descends u c r (issuances d') jti ∨
          IssuanceStore.descends u c r (issuances dc) (c_JTI claims)) as [Hd|Hd].
  { destruct Hdep as [(Hf & _ & Hc & Hkey)|Hd]; [left|right; by eapply descends_at].
    rewrite <-Hj. eapply IssuanceStore.descends_root; [exact Hrow|].
    unfold grant_key in Hkey. injection Hkey as Hk1 Hk2 Hk3. unfold IssuanceStore.lineage_root.
    rewrite Hs, Hres, Hmint, (Hcons Hf), Hk1, Hk2, Hk3, !bool_decide_eq_true_2 by done.
    simpl. apply orb_true_iff. left. by apply sql_eq_spec. }
  - eapply descends_le, Hd. by apply le_issuances.
  - destruct (le_issuances _ _ Hle _ _ Hrow) as (ic & Hic & Hile).
    destruct (iss_le_fields _ _ Hile) as (Hj' & Hp' & Hm' & _). rewrite <-Hj, <-Hj'.
    eapply IssuanceStore.descends_child; [exact Hic|by rewrite Hm'| |exact Hd].
    destruct (descends_row _ _ _ _ _ Hd) as (k & ip & _ & Hjp & Hmp).
    rewrite Hp', Hpar. apply sql_eq_spec. split; [|done].
    unfold IssuanceStore.is_mint_row in Hmp. unbool. congruence.
Qed.

(** A consent marked before the second check is found revoked by it. *)

Lemma marked_before a b x x' :
  a < b → h !! a = Some (dr, mark_revoked nr id dr) → h !! b = Some (x, x') → ∀ g',
  consent_grants x !! grant_key g = Some g' → Grant.IsRevoked g' = true.
Proof.
  intros Hab Ha Hb g' Hg'.
  destruct (consent_history _ _ _ _ _ _ _ _ _ Hh Hwf Hgwf Hab Ha Hb) as (_ & _ & _ & _ & _ & Hle).
  destruct (history_lookup _ _ _ _ _ _ Hh Ha) as [[_ G0] _]. destruct (G0 Hgwf) as [_ Hle0].
  destruct (Hle0 _ _ Hg) as (gr & Hgr & [Hgid _]).
  destruct (Hle (grant_key g) (Grant.revoke nr gr)) as (gx & Hgx & [_ Hx]).
  { simpl. rewrite lookup_update_rows, Hgr. simpl. rewrite bool_decide_eq_true_2; [done|congruence]. }
  simplify_eq. by apply Hx.
Qed.

(** A lineage revoked before the second check is found revoked by it. *)

Lemma cascaded_before a b x x' j :
  a < b → h !! a = Some (dc, cascade u c r nc dc) → h !! b = Some (x, x') →
  IssuanceStore.descends u c r (issuances d0) j → issuance_live x j → False.
Proof.
  intros Hab Ha Hb Hd Hlive.
  destruct (consent_history _ _ _ _ _ _ _ _ _ Hh Hwf Hgwf Hab Ha Hb) as (_ & Hwf1 & Hwfx & Hle & _).
  apply (descends_at _ _ _ _ Ha) in Hd. destruct (descends_row _ _ _ _ _ Hd) as (k & ip & Hk & Hj & Hm).
  destruct (cascade_revokes u c r nc dc k ip Hk Hm) as (ip' & Hk' & Hr); [by rewrite Hj|].
  assert (Issuance.JTI ip' = j) as Hj'.
  { simpl in Hk'. rewrite lookup_update_rows, Hk in Hk'. simpl in Hk'. simplify_eq. by case_match. }
  rewrite (issuance_live_le _ _ k ip' Hwf1 Hwfx Hle Hk') in Hr; [done| |by rewrite Hj'].
  unfold IssuanceStore.is_mint_row in Hm. unbool. congruence.
Qed.

Lemma race_revoked : depends → ∃ i', issuances dn !! jti = Some i' ∧ Issuance.IsRevoked i' = true.
Proof.
  intros Hdep.
  assert (∀ x, ordered w1 w1' (d, d') (x, x) → (∃ i', issuances dn !! jti = Some i' ∧ Issuance.IsRevoked i' = true) ∨
    ∃ a1 a2 b, a1 < b ∧ a2 < b ∧ h !! a1 = Some (dr, mark_revoked nr id dr) ∧
      h !! a2 = Some (dc, cascade u c r nc dc) ∧ h !! b = Some (x, x)) as Hcases.
  { intros x Hx. destruct (merge_between _ _ _ _ _ _ _ _ _ Hmerge Hx Hrev) as [(a & b & Hab & Ha & Hb)|?]; [left|by right].
    eapply cascade_after_insert; eauto. by eapply depends_descends. }
  destruct Hdep as [(Hf & Hself & _ & Hkey)|Hd].
  - destruct (gu_granted _ _ _ _ _ _ _ _ _ _ _ Hgu Hf Hself) as (x & g' & Hx & Hg' & Hr).
    destruct (Hcases _ Hx) as [?|(a1 & a2 & b & H1 & _ & Ha & _ & Hb)]; [done|]. exfalso.
    rewrite Hkey in Hg'. by rewrite (marked_before _ _ _ _ H1 Ha Hb _ Hg') in Hr.
  - destruct (gu_live _ _ _ _ _ _ _ _ _ _ _ Hgu) as (x & Hx & Hlive).
    { destruct (descends_row _ _ _ _ _ Hd) as (k & ip & _ & Hj & Hm). unfold IssuanceStore.is_mint_row in Hm.
      unbool. congruence. }
    destruct (Hcases _ Hx) as [?|(a1 & a2 & b & _ & H2 & _ & Ha & Hb)]; [done|]. exfalso.
    by eapply cascaded_before.
Qed.

End race.

(** ** Both requests respect the order *)

Lemma history_and (S1 S2 : relation DB) d g d' :
  history S1 d g d' → history S2 d g d' → history (λ x y, S1 x y ∧ S2 x y) d g d'.
Proof.
  induction 1 as [d d' H|d d1 d2 g d' H1 H2 _ IH]; intros Hb; inversion Hb; subst; constructor; auto.
Qed.

Lemma traced_and (S1 S2 : relation DB) P {A} (m : M A) :
  Traced S1 P m → Traced S2 P m → Traced (λ x y, S1 x y ∧ S2 x y) P m.
Proof.
  intros T1 T2 e w r w' H. destruct (T1 _ _ _ _ H) as (l & a & El & Ea & F1 & Fa & H1).
  destruct (T2 _ _ _ _ H) as (l' & a' & El' & _ & F2 & _ & H2).
  assert (l' = l) as -> by (rewrite El in El'; by apply app_inv_head in El').
  exists l, a. split_and!; try done.
  - rewrite Forall_forall in *. auto.
  - intros HR. apply history_and; [apply H1|apply H2]; intros n d; apply HR.
Qed.

Section keeps.
Context {P : Audit.Event → Prop}.

Lemma keeps_store {A} (f : Z → DB → res A * DB) :
  (∀ t d, consent_grants (f t d).2 = consent_grants d) → Traced grants_step P (store f).
Proof.
  intros Hf. apply traced_store. intros t d Hwf. unfold grants_wf in *. rewrite Hf. split; [done|reflexivity].
Qed.

Ltac keeps := apply keeps_store; intros; repeat (case_match; simpl); try done.

Lemma keeps_ConsumeJTI j x : Traced grants_step P (DPoPNonceStore.ConsumeJTI j x).
Proof. keeps. Qed.
Lemma keeps_UpdateWithVersion g : Traced grants_step P (BrokerGrantStore.UpdateWithVersion g).
Proof. keeps. Qed.
Lemma keeps_Insert i : Traced grants_step P (IssuanceStore.Insert i).
Proof. keeps. Qed.
Lemma keeps_IssuanceRevoke i : Traced grants_step P (IssuanceStore.Revoke i).
Proof. keeps. Qed.
Lemma keeps_IssuanceRevokeFamily u c r : Traced grants_step P (IssuanceStore.RevokeFamily u c r).
Proof. keeps. Qed.
Lemma keeps_Save m : Traced grants_step P (MachineTokenStore.Save m).
Proof. keeps. Qed.
Lemma keeps_RevokeFamily i : Traced grants_step P (TokenStore.RevokeFamily i).
Proof. apply keeps_store. intros. simpl. unfold TokenStore.revoke_family_row. repeat (case_match; simpl); done. Qed.
Lemma keeps_RevokeByFamily i : Traced grants_step P (RevocationStore.RevokeByFamily i).
Proof. keeps. Qed.

Lemma keeps_ConsentRevoke id : Traced grants_step P (ConsentGrantStore.Revoke id).
Proof.
  apply traced_store. intros t d [Hk Hu]. simpl. unfold grants_wf. simpl. split_and!.
  - intros k g. rewrite lookup_update_rows, fmap_Some. intros (g' & Hg & ->). apply Hk in Hg as <-.
    by destruct (bool_decide _).
  - intros k1 k2 g1 g2 v. rewrite !lookup_update_rows, !fmap_Some. intros (h1 & L1 & ->) (h2 & L2 & ->) E1 E2.
    apply (Hu k1 k2 h1 h2 v L1 L2); 
      [rewrite <-E1; by destruct (bool_decide (Grant.ID h1 = id))|rewrite <-E2; by destruct (bool_decide (Grant.ID h2 = id))].
  - intros k g Hg. rewrite lookup_update_rows, Hg. simpl. eexists. split; [done|].
    by destruct (bool_decide _).
Qed.

End keeps.

#[export] Hint Resolve keeps_ConsumeJTI keeps_UpdateWithVersion keeps_Insert keeps_IssuanceRevoke
  keeps_IssuanceRevokeFamily keeps_Save keeps_RevokeFamily keeps_RevokeByFamily keeps_ConsentRevoke : guar_db.

Lemma keeps_broker_Issue deps i `{!BrokerIssuer.BrokerDeps deps} :
  Traced grants_step (λ _, True) (BrokerIssuer.Issue deps i).
Proof.
  unfold BrokerIssuer.Issue, BrokerIssuer.coveringGrant, BrokerIssuer.persistRotated.
  traced; eauto using BrokerIssuer.traced_Decrypt, BrokerIssuer.traced_Encrypt, BrokerIssuer.traced_Vend,
    grants_step_preorder.
Qed.

Lemma keeps_Issue req : Traced grants_step (λ _, True) (MintIssuer.Issue req).
Proof. unfold MintIssuer.Issue, SignAccessToken. traced. Qed.

Lemma keeps_refuse s cid claims a t g i :
  Traced grants_step (λ _, True) (refuseIfRevokedSinceCheck s cid claims a t g i).
Proof. unfold refuseIfRevokedSinceCheck, revokeOwnIssuance. traced. Qed.
#[export] Hint Resolve keeps_broker_Issue keeps_Issue keeps_refuse : guar_db.

Lemma keeps_mintAuthorized s req i claims t cfg f sc :
  Traced grants_step (λ _, True) (mintAuthorized s req i claims t cfg f sc).
Proof. unfold mintAuthorized. traced. done. Qed.
#[export] Hint Resolve keeps_mintAuthorized : guar_db.

Lemma keeps_Exchange s deps req `{!BrokerIssuer.BrokerDeps deps} :
  Traced grants_step (λ _, True) (Exchange s deps req).
Proof.
  unfold Exchange, handleViaRegistry, isFrontedBrokerExchange, dispatchMint, exchangeSelf, attachAgent, SignAccessToken.
  traced; try done.
Qed.

Lemma keeps_RevokeConsent s fuel id : Traced grants_step (λ _, True) (RevokeConsent s fuel id).
Proof.
  assert (∀ n l, Traced grants_step (λ _, True) (revoke_loop n l)) as Hl.
  { intros n l. revert n. induction l as [|x l IH]; intros n; simpl; traced; auto. }
  unfold RevokeConsent, revokeRefreshFamilies. traced; done || auto.
Qed.

Lemma traced_consent_Exchange s deps req `{!BrokerIssuer.BrokerDeps deps} :
  Traced consent_step (λ _, True) (Exchange s deps req).
Proof. apply traced_and; [by apply traced_Exchange_x|by apply keeps_Exchange]. Qed.

Lemma traced_consent_Revoke s fuel id : Traced consent_step (λ _, True) (RevokeConsent s fuel id).
Proof. apply traced_and; [by apply traced_RevokeConsent|apply keeps_RevokeConsent]. Qed.

(** The grant a revocation reads is the stored grant of that id. *)

Lemma grant_found d0 d g id g' :
  grants_wf d0 → grants_step d0 d → consent_grants d0 !! grant_key g = Some g → Grant.ID g = id →
  find_row (λ x, bool_decide (Grant.ID x = id)) (consent_grants d) = Some g' → grant_key g' = grant_key g.
Proof.
  intros Hwf Hs Hg Hid Hf. destruct (Hs Hwf) as [[Hk Hu] Hle]. destruct (Hle _ _ Hg) as (g2 & Hg2 & [Hid2 _]).
  apply find_row_Some in Hf as (k & Hk' & HP). apply bool_decide_eq_true in HP.
  rewrite (Hk _ _ Hk'). apply (Hu k (grant_key g) g' g2 id); [done|done|by rewrite HP|by rewrite Hid2, Hid].
Qed.

Lemma grant_present d0 d g id :
  grants_wf d0 → grants_step d0 d → consent_grants d0 !! grant_key g = Some g → Grant.ID g = id →
  is_Some (find_row (λ x, bool_decide (Grant.ID x = id)) (consent_grants d)).
Proof.
  intros Hwf Hs Hg Hid. destruct (Hs Hwf) as [_ Hle]. destruct (Hle _ _ Hg) as (g2 & Hg2 & [Hid2 _]).
  destruct (find_row _ _) eqn:E; [eauto|]. rewrite find_row_None in E. specialize (E _ _ Hg2).
  apply bool_decide_eq_false in E. congruence.
Qed.


Module GrantAdminRuns.

Definition wired : Wiring := MkWiring true true.

Definition run1 : res TokenExchangeResponse * World := ExchangeRuns.run "st" "https://api" "svc" "read".
Definition run2 : res unit * World := RevokeConsent wired 2 "g1" ExchangeRuns.env run1.2.

Example revoked : run2.1 = Ok tt ∧ count_rows Issuance.IsRevoked (issuances (w_db run2.2)) = 2%nat.
Proof. vm_compute. auto. Qed.

Lemma grants_ok : grants_wf ExchangeRuns.db.
Proof.
  split; simpl.
  - intros k g. rewrite lookup_insert_Some, lookup_singleton_Some. naive_solver.
  - intros k1 k2 g1 g2 v. rewrite !lookup_insert_Some, !lookup_singleton_Some. naive_solver.
Qed.

End GrantAdminRuns.


(** ** What a revocation reaches on its own *)

Definition alone (e : Env) : Prop := ∀ n d, interfere e n d = d.

Lemma alone_rely (S : relation DB) `{!PreOrder S} e : alone e → rely S e.
Proof. intros Ha n d. rewrite Ha. reflexivity. Qed.

Section alone.
Context (e : Env) (Hff : fault_free e) (Ha : alone e).

Lemma query_alone {A} (f : Z → DB → res A) w :
  ∃ now, query f e w = (f now (w_db w), after w (w_db w) [(w_db w, w_db w)]).
Proof. unfold query, store. rewrite Hff, Ha. eauto. Qed.

Lemma store_alone {A} (f : Z → DB → res A * DB) w :
  ∃ now, store f e w = ((f now (w_db w)).1, after w (f now (w_db w)).2 [(w_db w, (f now (w_db w)).2)]).
Proof. unfold store. rewrite Hff, Ha. exists (clock e (w_tick w)). by destruct (f _ _). Qed.

Lemma ListFamilies_alone f w :
  ∃ w', TokenStore.ListFamilies f e w =
    (Ok (take (if bool_decide (TokenStore.ff_Limit f = 0) then 50 else TokenStore.ff_Limit f)
           (drop (TokenStore.ff_Offset f) (TokenStore.family_rows f (w_db w))),
         length (TokenStore.family_rows f (w_db w))), w') ∧ w_db w' = w_db w.
Proof.
  unfold TokenStore.ListFamilies.
  destruct (query_alone (λ _ d, Ok (length (TokenStore.family_rows f d))) w) as [n1 H1].
  rewrite (bind_step _ _ _ _ _ _ H1).
  match goal with |- context [mbind _ (query ?q)] =>
    destruct (query_alone q (after w (w_db w) [(w_db w, w_db w)])) as [n2 H2] end.
  rewrite (bind_step _ _ _ _ _ _ H2). eauto.
Qed.

(** The active families of the client for the user. *)

Definition active_rows (u c : string) (d : DB) : list Family.Family :=
  TokenStore.family_rows (TokenStore.MkFamilyFilter c u "active" page 0) d.

Lemma collect_alone n u c uri off w :
  off ≤ length (active_rows u c (w_db w)) < off + page * n →
  ∃ w', collect n u c uri off e w =
    (Ok (Family.ID <$> filter (λ f, Family.Resource f = uri) (drop off (active_rows u c (w_db w)))), w') ∧
    w_db w' = w_db w.
Proof.
  revert off w. induction n as [|n IH]; intros off w Hlen; simpl; [lia|].
  destruct (ListFamilies_alone (TokenStore.MkFamilyFilter c u "active" page off) w) as (w1 & H1 & Hdb).
  rewrite (bind_step _ _ _ _ _ _ H1). clear H1. simpl.
  change (TokenStore.family_rows (TokenStore.MkFamilyFilter c u "active" page off) (w_db w))
    with (active_rows u c (w_db w)).
  set (rows := active_rows u c (w_db w)) in *. change (if bool_decide (page = 0) then 50 else page) with page.
  case_bool_decide as Hp; rewrite length_take, length_drop in Hp.
  - exists w1. split; [|done]. rewrite take_ge by (rewrite length_drop; unfold page in *; lia). done.
  - destruct (IH (off + page) w1) as (w2 & H2 & Hdb2).
    { rewrite Hdb. fold rows. unfold page in *. lia. }
    rewrite (bind_step _ _ _ _ _ _ H2). exists w2. split; [|congruence]. rewrite Hdb. fold rows.
    rewrite <-drop_drop, <-fmap_app, <-filter_app. by rewrite take_drop.
Qed.

Lemma revoke_loop_alone n l w :
  wf_db (w_db w) → ∃ k w', revoke_loop n l e w = (Ok (k, None), w') ∧
    (∀ fid, fid ∈ l → is_Some (token_families (w_db w) !! fid) →
       family_revoked (w_db w') fid ∧ family_denylisted (w_db w) (w_db w') fid) ∧
    consent_grants (w_db w') = consent_grants (w_db w) ∧ issuances (w_db w') = issuances (w_db w).
Proof.
  revert n w. induction l as [|x l IH]; intros n w Hwf; simpl.
  { exists n, w. split_and!; try done. intros fid Hf. by apply elem_of_nil in Hf. }
  pose proof (alone_rely db_step e Ha) as HR.
  destruct (TokenStore.RevokeFamily x e w) as [r1 w1] eqn:H1.
  rewrite (bind_step _ _ _ _ _ _ (try_run _ _ _ _ _ H1)).
  db_after (λ _ : Audit.Event, True) H1 using HR Hwf as Hwf1 Hle1.
  unfold TokenStore.RevokeFamily in H1.
  match type of H1 with store ?f _ _ = _ => destruct (store_alone f w) as [now1 Hs1] end.
  rewrite Hs1 in H1. injection H1 as <- <-. simpl fst. cbv iota.
  set (w1 := after w _ _) in *. destruct (RevocationStore.RevokeByFamily x e w1) as [r2 w2] eqn:H2.
  cbn beta iota. rewrite (bind_step _ _ _ _ _ _ (try_run _ _ _ _ _ H2)).
  db_after (λ _ : Audit.Event, True) H2 using HR Hwf1 as Hwf2 Hle2.
  unfold RevocationStore.RevokeByFamily in H2.
  match type of H2 with store ?f _ _ = _ => destruct (store_alone f w1) as [now2 Hs2] end.
  rewrite Hs2 in H2. injection H2 as <- <-. simpl fst. cbv iota. set (w2 := after w1 _ _) in *.
  match goal with |- context [revoke_loop ?m l] => set (n' := m) end.
  destruct (IH n' w2 Hwf2) as (k & w' & Hrun & Hall & Hc & Hi). exists k, w'. split; [exact Hrun|].
  destruct (traced_db (P:=λ _, True) _ _ _ _ _ (traced_revoke_loop _ _) Hrun HR Hwf2) as [_ Hle3].
  split_and!.
  - intros fid Hf Hs. apply elem_of_cons in Hf as [->|Hf].
    + split.
      * eapply (family_revoked_le (w_db w1)); [by etrans| |exact (revoke_family_tables_revokes now1 x (w_db w))].
        eapply table_le_is_Some; [apply (le_families _ _ Hle1)|done].
      * eapply (family_denylisted_le _ (w_db w1) (w_db w2)); [done|done|]. intros j ex Hj. simpl.
        assert (RevocationStore.family_jtis x (w_db w1) !! j = Some ex) as Hfj.
        { unfold RevocationStore.family_jtis. rewrite lookup_fmap, fmap_Some. exists (x, ex). split; [|done].
          by apply map_lookup_filter_Some. }
        simpl in Hfj. rewrite lookup_union, Hfj. by destruct (revoked_jtis _ !! j).
    + destruct (Hall fid Hf) as [H1 H2].
      { eapply table_le_is_Some; [apply (le_families _ _ Hle2)|].
        eapply table_le_is_Some; [apply (le_families _ _ Hle1)|done]. }
      split; [done|]. eapply family_denylisted_le; [|reflexivity|exact H2]. by etrans.
  - rewrite Hc. simpl. unfold TokenStore.revoke_family_row. by repeat (case_match; simpl).
  - rewrite Hi. simpl. unfold TokenStore.revoke_family_row. by repeat (case_match; simpl).
Qed.

End alone.

Lemma cascade_run u c r e w :
  fault_free e → alone e → ∃ k now, IssuanceStore.RevokeFamily u c r e w =
    (Ok k, after w (cascade u c r now (w_db w)) [(w_db w, cascade u c r now (w_db w))]).
Proof.
  intros Hff Ha. unfold IssuanceStore.RevokeFamily.
  match goal with |- context [store ?f] => destruct (store_alone e Hff Ha f w) as [now Hs] end. eauto.
Qed.

Lemma revoke_families_alone s fuel u c r res e w :
  fault_free e → alone e → wf_db (w_db w) → has_cascade s = true → resources (w_db w) !! r = Some res →
  length (active_rows u c (w_db w)) < page * fuel →
  ∃ k w', revokeRefreshFamilies s fuel u c r e w = (Ok (k, None), w') ∧
    (∀ fid f, token_families (w_db w) !! fid = Some f → Family.UserID f = u → Family.ClientID f = c →
       Family.Resource f = Resource.URI res →
       family_revoked (w_db w') fid ∧ (Family.IsActive f = true → family_denylisted (w_db w) (w_db w') fid)) ∧
    consent_grants (w_db w') = consent_grants (w_db w) ∧ issuances (w_db w') = issuances (w_db w).
Proof.
  intros Hff Ha Hwf Hc Hres Hlen. unfold revokeRefreshFamilies. rewrite Hc. simpl.
  unfold ResourceStore.GetByID.
  match goal with |- context [query ?q] => destruct (query_alone e Hff Ha q w) as [n1 H1] end. rewrite Hres in H1.
  rewrite (bind_step _ _ _ _ _ _ (try_run _ _ _ _ _ H1)). set (w1 := after w _ _) in *.
  destruct (collect_alone e Hff Ha fuel u c (Resource.URI res) 0 w1) as (w2 & H2 & Hdb2);
    [split; [lia|exact Hlen]|].
  rewrite (bind_step _ _ _ _ _ _ (try_run _ _ _ _ _ H2)). simpl in Hdb2.
  match goal with |- context [revoke_loop 0 ?l] => set (targets := l) end.
  destruct (revoke_loop_alone e Hff Ha 0 targets w2) as (k & w' & Hrun & Hall & Hcg & Hi); [by rewrite Hdb2|].
  exists k, w'. rewrite Hdb2 in *. split; [exact Hrun|]. split; [|done]. intros fid f Hf Hu Hcl Huri.
  destruct (Family.IsActive f) eqn:Hact.
  - destruct (Hall fid) as [? ?]; [|by eauto|done].
    subst targets. apply list_elem_of_fmap. exists f. split; [symmetry; by apply (wf_families_key _ Hwf)|].
    apply list_elem_of_filter. split; [done|]. rewrite drop_0. apply TokenStore.elem_of_family_rows. split; [|by eauto].
    unfold TokenStore.family_matches. simpl. rewrite !andb_true_iff, !orb_true_iff, !bool_decide_eq_true.
    unfold Family.IsActive in Hact. apply bool_decide_eq_true in Hact. rewrite Hact. auto.
  - split; [|done]. pose proof (alone_rely db_step e Ha) as HR. rewrite <-Hdb2 in Hwf, Hf.
    destruct (traced_db (P:=λ _, True) _ _ _ _ _ (traced_revoke_loop _ _) Hrun HR Hwf) as [_ Hle].
    eapply family_revoked_le; [exact Hle|eauto|]. intros f' Hf'. by simplify_eq.
Qed.

(** Revoking a consent reaches everything that exists because of it.  Run
    without failures or other requests, with enough rounds to page through the
    client's active families, the call terminates with a success and leaves the
    grant revoked, every mint issuance that descends from it revoked at any
    depth, and every refresh-token family the client holds for the user and
    this resource revoked, with the access tokens of the active ones denylisted. *)
Theorem RevokeConsent_reaches s fuel g res e w :
  fault_free e → alone e → wf_db (w_db w) → grants_wf (w_db w) →
  consent_grants (w_db w) !! grant_key g = Some g → Grant.ID g ≠ "" → has_cascade s = true →
  resources (w_db w) !! Grant.ResourceID g = Some res →
  length (active_rows (Grant.UserID g) (Grant.ClientID g) (w_db w)) < page * fuel →
  ∃ w', RevokeConsent s fuel (Grant.ID g) e w = (Ok tt, w') ∧
    (∃ g', consent_grants (w_db w') !! grant_key g = Some g' ∧ Grant.IsRevoked g' = true) ∧
    (∀ k i, issuances (w_db w) !! k = Some i → IssuanceStore.is_mint_row i = true →
       IssuanceStore.descends (Grant.UserID g) (Grant.ClientID g) (Grant.ResourceID g) (issuances (w_db w)) (Issuance.JTI i) →
       ∃ i', issuances (w_db w') !! k = Some i' ∧ Issuance.IsRevoked i' = true) ∧
    (∀ fid f, token_families (w_db w) !! fid = Some f → Family.UserID f = Grant.UserID g →
       Family.ClientID f = Grant.ClientID g → Family.Resource f = Resource.URI res →
       family_revoked (w_db w') fid ∧ (Family.IsActive f = true → family_denylisted (w_db w) (w_db w') fid)).
Proof.
  intros Hff Ha Hwf Hgwf Hg Hid Hc Hres Hlen. unfold RevokeConsent. rewrite bool_decide_eq_false_2 by done.
  unfold ConsentGrantStore.GetByID.
  match goal with |- context [query ?q] => destruct (query_alone e Hff Ha q w) as [n1 H1] end.
  rewrite (bind_step _ _ _ _ _ _ H1). set (w1 := after w _ _) in *.
  destruct (grant_present _ _ _ _ Hgwf (reflexivity _) Hg eq_refl) as [g' Hg']. 
  pose proof (grant_found _ _ _ _ _ Hgwf (reflexivity _) Hg eq_refl Hg') as Hkey.
  injection Hkey as Hk1 Hk2 Hk3. rewrite Hg'. rewrite Hk1, Hk2, Hk3.
  unfold ConsentGrantStore.Revoke. match goal with |- context [store ?f] =>
    destruct (store_alone e Hff Ha f w1) as [n2 H2] end.
  rewrite (bind_step _ _ _ _ _ _ H2). clear H2. set (w2 := after w1 _ _) in *.
  destruct (cascade_run (Grant.UserID g) (Grant.ClientID g) (Grant.ResourceID g) e w2 Hff Ha) as (k & n3 & H3).
  rewrite (bind_step _ _ _ _ _ _ (try_run _ _ _ _ _ H3)). set (w3 := after w2 _ _) in *.
  destruct (step_grants (w_db w) (consent_grants (w_db w2)) Hwf) as [Hwf2 Hle2].
  pose proof (alone_rely db_step e Ha) as HR. change (wf_db (w_db w2)) in Hwf2.
  db_after (λ _ : Audit.Event, True) H3 using HR Hwf2 as Hwf3 Hle3. clear H3.
  destruct (revoke_families_alone s fuel (Grant.UserID g) (Grant.ClientID g) (Grant.ResourceID g) res e w3)
    as (kf & w4 & H4 & Hfam & Hcg & Hiss); try done.
  rewrite (bind_step _ _ _ _ _ _ H4). destruct (audit_run (has_audit s) (Audit.NewEvent
    Audit.ActionConsentGrantRevokedAdmin "admin" (Grant.ClientID g) "" (detail (Grant.ID g) (Grant.UserID g)
      (Grant.ClientID g) (Grant.ResourceID g) k kf false false)) e w4) as (w5 & H5 & Hdb5 & _).
  exists w5. split; [exact H5|]. rewrite Hdb5, Hcg, Hiss. split_and!.
  - simpl. rewrite lookup_update_rows, Hg. simpl. rewrite bool_decide_eq_true_2 by done. eauto.
  - intros k' i Hi Hm Hd. eapply (cascade_revokes _ _ _ n3 (w_db w2)); done.
  - exact Hfam.
Qed.

Module ReachRuns.

Definition family : Family.Family :=
  Family.MkFamily "f1" "app" "alice" "read" "https://api" Family.FamilyActive Scenario.start None "".

Definition db : DB :=
  set_tracked {["t1" := ("f1", Scenario.start)]} (set_families {["f1" := family]} ExchangeRuns.db).

Definition world : World := MkWorld db 0 [] [].

Lemma reach_wf : wf_db db.
Proof.
  pose proof ExchangeRuns.exchange_wf as []. split; try done; simpl.
  - intros k f. rewrite lookup_singleton_Some. by intros [<- <-].
  - intros k1 k2 f1 f2 v. rewrite !lookup_singleton_Some. naive_solver.
  - intros j x. rewrite lookup_singleton_Some. intros [<- <-]. by eexists.
Qed.

End ReachRuns.

Lemma RevokeConsent_reaches_witness :
  ∃ w', RevokeConsent GrantAdminRuns.wired 1 "g1" ExchangeRuns.env ReachRuns.world = (Ok tt, w') ∧
    (∃ i, issuances (w_db w') !! "j0" = Some i ∧ Issuance.IsRevoked i = true) ∧
    family_revoked (w_db w') "f1" ∧ is_Some (revoked_jtis (w_db w') !! "t1").
Proof.
  destruct (RevokeConsent_reaches GrantAdminRuns.wired 1 (ExchangeRuns.grant "g1" "res1" ["read"])
    (ExchangeRuns.resource "res1" "api" [] ["svc"]) ExchangeRuns.env ReachRuns.world) as (w' & H & _ & Hi & Hf).
  - intros n. reflexivity.
  - intros n d. reflexivity.
  - exact ReachRuns.reach_wf.
  - exact GrantAdminRuns.grants_ok.
  - reflexivity.
  - done.
  - reflexivity.
  - reflexivity.
  - vm_compute. lia.
  - exists w'. split; [exact H|].
    destruct (Hf "f1" ReachRuns.family) as [Hr Hd]; [reflexivity..|]. split; [|split; [exact Hr|]].
    + refine (Hi "j0" (ExchangeRuns.row "j0" "") _ _ _); [reflexivity|reflexivity|].
      exact (IssuanceStore.descends_root "alice" "app" "res1" (issuances ExchangeRuns.db) "j0"
               (ExchangeRuns.row "j0" "") eq_refl eq_refl).
    + exact (Hd eq_refl "t1" Scenario.start eq_refl).
Defined.
