(* ===== verification/XAAStores.v ===== *)
(** * The stores of the enterprise-managed grant

    Trusted identity providers, authorization policies, subject mappings and
    the consumed assertions (internal/adapters/sqlite), and the JWKS cache
    (internal/adapters/idpjwks).  The fetch over HTTP is a parameter of the
    cache. *)

From S2P Require Import Prelude GoStrings ScopeSet Act Domain Db Effects Crypto Stores Order StoreOrder.

(** ** IDPStore (idp_store.go) *)

Module IDPStore.

Definition idps (d : DB) : gmap string XAA.TrustedIDP := trusted_idps (xaa d).

Definition issuer_taken (i : XAA.TrustedIDP) (d : DB) : bool :=
  bool_decide (is_Some (find_row (λ x, andb (bool_decide (XAA.idp_Issuer x = XAA.idp_Issuer i))
                                         (bool_decide (XAA.idp_ID x ≠ XAA.idp_ID i))) (idps d))).

(** On conflict the row keeps its creation time. *)

Definition upsert_row (i : XAA.TrustedIDP) (old : option XAA.TrustedIDP) : XAA.TrustedIDP :=
  match old with
  | None => i
  | Some o => XAA.MkIDP (XAA.idp_ID i) (XAA.idp_Name i) (XAA.idp_Issuer i) (XAA.JWKSUri i) (XAA.idp_Audience i)
                (XAA.idp_Enabled i) (XAA.idp_CreatedAt o) (XAA.idp_UpdatedAt i)
  end.

Definition Save (i : XAA.TrustedIDP) : M unit := store (λ _ d,
  if issuer_taken i d then (Err (EOther "IdP with this issuer already exists"), d)
  else (Ok tt, set_idps (<[XAA.idp_ID i := upsert_row i (idps d !! XAA.idp_ID i)]> (idps d)) d)).

Definition GetByID (id : string) : M XAA.TrustedIDP := query (λ _ d,
  match idps d !! id with Some i => Ok i | None => Err ErrIDPNotFound end).

Definition GetByIssuer (issuer : string) : M XAA.TrustedIDP := query (λ _ d,
  match find_row (λ i, bool_decide (XAA.idp_Issuer i = issuer)) (idps d) with
  | Some i => Ok i | None => Err ErrIDPNotFound end).

Definition newest_first (a b : XAA.TrustedIDP) : Prop :=
  SqlTime.text_lt (XAA.idp_CreatedAt a) (XAA.idp_CreatedAt b) = false.

#[global] Instance newest_first_dec : RelDecision newest_first.
Proof. intros a b. unfold newest_first. apply _. Defined.

Definition List : M (list XAA.TrustedIDP) := query (λ _ d,
  Ok (merge_sort newest_first ((map_to_list (idps d)).*2))).

(** The policies and mappings of the provider go with it (ON DELETE CASCADE). *)

Definition cascade (id : string) (d : DB) : DB :=
  set_xaa (MkXAA (delete id (idps d))
             (delete_rows (λ p, bool_decide (XAA.p_IDPID p = id)) (xaa_policies (xaa d)))
             (delete_rows (λ m, bool_decide (XAA.m_IDPID m = id)) (subject_mappings (xaa d)))
             (assertion_jtis (xaa d)) (jwks_cache (xaa d))) d.

Definition Delete (id : string) : M unit := store (λ _ d,
  match idps d !! id with
  | None => (Err ErrIDPNotFound, d)
  | Some _ => (Ok tt, cascade id d)
  end).

End IDPStore.

(** ** XAAPolicyStore (xaa_policy_store.go)

    A list column holds the JSON text of the list, NULL when it is empty; the
    text is represented by the list it encodes. *)

Module XAAPolicyStore.

Definition policies (d : DB) : gmap string XAA.Policy := xaa_policies (xaa d).

Definition marshalJSONArray (ss : option (list string)) : option (list string) :=
  match ss with None | Some [] => None | Some l => Some l end.

(** A stored text is the encoding of a list, so the error branch is not reached. *)

Definition unmarshalJSONArray (ns : option (list string)) : option (list string) := ns.

Definition stored (p : XAA.Policy) (createdAt : Z) : XAA.Policy :=
  XAA.MkPolicy (XAA.p_ID p) (XAA.p_Name p) (XAA.p_IDPID p) (XAA.ClientIDs p)
    (unmarshalJSONArray (marshalJSONArray (XAA.p_Scopes p))) (XAA.Resources p) (XAA.p_Enabled p)
    createdAt (XAA.p_UpdatedAt p).

Definition Save (p : XAA.Policy) : M unit := store (λ _ d,
  if bool_decide (trusted_idps (xaa d) !! XAA.p_IDPID p = None) then (Err EFault, d)
  else
    let createdAt := match policies d !! XAA.p_ID p with
                     | Some old => XAA.p_CreatedAt old | None => XAA.p_CreatedAt p end in
    (Ok tt, set_policies (<[XAA.p_ID p := stored p createdAt]> (policies d)) d)).

Definition GetByID (id : string) : M XAA.Policy := query (λ _ d,
  match policies d !! id with Some p => Ok p | None => Err ErrXAAPolicyNotFound end).

Definition newest_first (a b : XAA.Policy) : Prop :=
  SqlTime.text_lt (XAA.p_CreatedAt a) (XAA.p_CreatedAt b) = false.

#[global] Instance newest_first_dec : RelDecision newest_first.
Proof. intros a b. unfold newest_first. apply _. Defined.

Definition rows (d : DB) : list XAA.Policy := merge_sort newest_first ((map_to_list (policies d)).*2).

Definition ListByIDP (idpID : string) : M (list XAA.Policy) := query (λ _ d,
  Ok (filter (λ p, XAA.p_IDPID p = idpID) (rows d))).

Definition List : M (list XAA.Policy) := query (λ _ d, Ok (rows d)).

Definition Delete (id : string) : M unit := store (λ _ d,
  match policies d !! id with
  | None => (Err ErrXAAPolicyNotFound, d)
  | Some _ => (Ok tt, set_policies (delete id (policies d)) d)
  end).

Lemma elem_of_policy_rows d p : p ∈ rows d ↔ ∃ k, policies d !! k = Some p.
Proof.
  unfold rows. rewrite merge_sort_Permutation, list_elem_of_fmap. split.
  - intros ([k p'] & -> & Hk). apply elem_of_map_to_list in Hk. eauto.
  - intros (k & Hk). exists (k, p). split; [done|]. by apply elem_of_map_to_list.
Qed.

End XAAPolicyStore.

(** ** SubjectMappingStore (subject_mapping_store.go) *)

Module SubjectMappingStore.

Definition mappings (d : DB) : gmap string XAA.SubjectMapping := subject_mappings (xaa d).

Definition of_pair (idpID idpSubject : string) (m : XAA.SubjectMapping) : bool :=
  andb (bool_decide (XAA.m_IDPID m = idpID)) (bool_decide (XAA.IDPSubject m = idpSubject)).

Definition upsert_row (m : XAA.SubjectMapping) (old : option XAA.SubjectMapping) : XAA.SubjectMapping :=
  match old with
  | None => m
  | Some o => XAA.MkMapping (XAA.m_ID m) (XAA.m_IDPID m) (XAA.IDPSubject m) (XAA.LocalUserID m) (XAA.m_CreatedAt o)
  end.

Definition Save (m : XAA.SubjectMapping) : M unit := store (λ _ d,
  if bool_decide (is_Some (find_row (λ x, andb (of_pair (XAA.m_IDPID m) (XAA.IDPSubject m) x)
                                            (bool_decide (XAA.m_ID x ≠ XAA.m_ID m))) (mappings d)))
  then (Err ErrSubjectMappingDuplicate, d)
  else if bool_decide (trusted_idps (xaa d) !! XAA.m_IDPID m = None) then (Err EFault, d)
  else (Ok tt, set_mappings (<[XAA.m_ID m := upsert_row m (mappings d !! XAA.m_ID m)]> (mappings d)) d)).

Definition GetMapping (idpID idpSubject : string) : M XAA.SubjectMapping := query (λ _ d,
  match find_row (of_pair idpID idpSubject) (mappings d) with
  | Some m => Ok m | None => Err ErrSubjectMappingNotFound end).

Definition newest_first (a b : XAA.SubjectMapping) : Prop :=
  SqlTime.text_lt (XAA.m_CreatedAt a) (XAA.m_CreatedAt b) = false.

#[global] Instance newest_first_dec : RelDecision newest_first.
Proof. intros a b. unfold newest_first. apply _. Defined.

(** The empty id lists every mapping. *)

Definition ListByIDP (idpID : string) : M (list XAA.SubjectMapping) := query (λ _ d,
  let all := merge_sort newest_first ((map_to_list (mappings d)).*2) in
  Ok (if bool_decide (idpID ≠ "") then filter (λ m, XAA.m_IDPID m = idpID) all else all)).

Definition Delete (id : string) : M unit := store (λ _ d,
  match mappings d !! id with
  | None => (Err ErrSubjectMappingNotFound, d)
  | Some _ => (Ok tt, set_mappings (delete id (mappings d)) d)
  end).

End SubjectMappingStore.

(** ** AssertionJTIStore (assertion_jti_store.go) *)

Module AssertionJTIStore.

Definition ConsumeJTI (jti : string) (expiry : Z) : M unit := store (λ _ d,
  match assertion_jtis (xaa d) !! jti with
  | Some _ => (Err ErrAssertionReplay, d)
  | None => (Ok tt, set_assertions (<[jti := expiry]> (assertion_jtis (xaa d))) d)
  end).

Definition purge (now : Z) (d : DB) : DB :=
  set_assertions (delete_rows (λ t, SqlTime.text_lt t now) (assertion_jtis (xaa d))) d.

Definition PurgeExpired : M unit := store (λ now d, (Ok tt, purge now d)).

End AssertionJTIStore.

(** ** The JWKS cache of the identity providers (adapters/idpjwks/cache.go)

    [fetchJWKS] is the HTTP request; it touches no table. *)

Module IDPJWKSCache.

Record Config := MkConfig { ttl : Z; maxStale : Z }.

Record Deps := MkDeps { fetchJWKS : string → M (list XAA.JWK); cfg : Config }.

Class CacheDeps (deps : Deps) : Prop :=
  traced_fetchJWKS uri S P : PreOrder S → Traced S P (fetchJWKS deps uri).

Section cache.
Variable c : Deps.

(** The injected cache is a keyed store; a failing [Load] is a miss. *)

Definition Load (issuer : string) : M (option XAA.Entry) := query (λ _ d, Ok (jwks_cache (xaa d) !! issuer)).

Definition Store (issuer : string) (e : XAA.Entry) : M unit := store (λ _ d,
  (Ok tt, set_jwks (<[issuer := e]> (jwks_cache (xaa d))) d)).

Definition InvalidateCache (issuer : string) : M unit := store (λ _ d,
  (Ok tt, set_jwks (delete issuer (jwks_cache (xaa d))) d)).

Definition before (now limit : Z) : bool := bool_decide (now < limit)%Z.

Definition GetKeys (issuer : string) : M (list XAA.JWK) :=
  l ← try (Load issuer);
  let entry := match l with Ok e => e | Err _ => None end in
  now ← time_Now;
  match entry with
  | Some e => if before now (XAA.e_expiresAt e) then mret (XAA.e_keys e) else
      idp ← IDPStore.GetByIssuer issuer;
      r ← try (fetchJWKS c (XAA.JWKSUri idp));
      match r with
      | Err x => if before now (XAA.e_expiresAt e + maxStale (cfg c))%Z then mret (XAA.e_keys e) else throw x
      | Ok keys => _ ← try (Store issuer (XAA.MkEntry keys (now + ttl (cfg c))%Z)); mret keys
      end
  | None =>
      idp ← IDPStore.GetByIssuer issuer;
      keys ← fetchJWKS c (XAA.JWKSUri idp);
      _ ← try (Store issuer (XAA.MkEntry keys (now + ttl (cfg c))%Z));
      mret keys
  end.

End cache.
End IDPJWKSCache.

(** ** The security order *)

Section operations.
Context {P : Audit.Event → Prop}.

Ltac xop f := unfold f; apply traced_store; intros now d; simpl;
  repeat (case_match; simpl); try reflexivity; by apply step_xaa.

Lemma traced_IDPSave i : Traced db_step P (IDPStore.Save i).
Proof. xop IDPStore.Save. Qed.

Lemma traced_IDPDelete id : Traced db_step P (IDPStore.Delete id).
Proof. xop IDPStore.Delete. Qed.

Lemma traced_PolicySave p : Traced db_step P (XAAPolicyStore.Save p).
Proof. xop XAAPolicyStore.Save. Qed.

Lemma traced_PolicyDelete id : Traced db_step P (XAAPolicyStore.Delete id).
Proof. xop XAAPolicyStore.Delete. Qed.

Lemma traced_MappingSave m : Traced db_step P (SubjectMappingStore.Save m).
Proof. xop SubjectMappingStore.Save. Qed.

Lemma traced_MappingDelete id : Traced db_step P (SubjectMappingStore.Delete id).
Proof. xop SubjectMappingStore.Delete. Qed.

Lemma traced_CacheStore i x : Traced db_step P (IDPJWKSCache.Store i x).
Proof. xop IDPJWKSCache.Store. Qed.

Lemma traced_InvalidateCache i : Traced db_step P (IDPJWKSCache.InvalidateCache i).
Proof. xop IDPJWKSCache.InvalidateCache. Qed.

Lemma traced_AssertionConsume j x : Traced db_step P (AssertionJTIStore.ConsumeJTI j x).
Proof.
  unfold AssertionJTIStore.ConsumeJTI. apply traced_store. intros now d. case_match; [reflexivity|].
  apply step_assertions, (table_le_insert _); done.
Qed.

End operations.

#[export] Hint Resolve traced_IDPSave traced_IDPDelete traced_PolicySave traced_PolicyDelete traced_MappingSave
  traced_MappingDelete traced_CacheStore traced_InvalidateCache traced_AssertionConsume : guar_db.

#[export] Hint Extern 1 (Traced _ _ (IDPStore.GetByID _)) => apply traced_query : guar_db.
#[export] Hint Extern 1 (Traced _ _ (IDPStore.GetByIssuer _)) => apply traced_query : guar_db.
#[export] Hint Extern 1 (Traced _ _ IDPStore.List) => apply traced_query : guar_db.
#[export] Hint Extern 1 (Traced _ _ (XAAPolicyStore.GetByID _)) => apply traced_query : guar_db.
#[export] Hint Extern 1 (Traced _ _ (XAAPolicyStore.ListByIDP _)) => apply traced_query : guar_db.
#[export] Hint Extern 1 (Traced _ _ XAAPolicyStore.List) => apply traced_query : guar_db.
#[export] Hint Extern 1 (Traced _ _ (SubjectMappingStore.GetMapping _ _)) => apply traced_query : guar_db.
#[export] Hint Extern 1 (Traced _ _ (SubjectMappingStore.ListByIDP _)) => apply traced_query : guar_db.
#[export] Hint Extern 1 (Traced _ _ (IDPJWKSCache.Load _)) => apply traced_query : guar_db.
#[export] Hint Extern 1 (Traced _ _ (IDPJWKSCache.fetchJWKS _ _)) => by apply IDPJWKSCache.traced_fetchJWKS : guar_db.

Lemma traced_GetKeys c `{!IDPJWKSCache.CacheDeps c} P issuer : Traced db_step P (IDPJWKSCache.GetKeys c issuer).
Proof. unfold IDPJWKSCache.GetKeys. traced. Qed.

#[export] Hint Resolve traced_GetKeys : guar_db.
