(* ===== verification/ClientCredentials.v ===== *)
(** * internal/services/client_credentials.go: the client credentials grant

    A confidential client authenticates as itself and obtains a machine
    token, bounded by its registered scopes and by the catalog of the resource
    it names.  [MachineIssue] is the part the grant shares, line by line, with
    the JWT bearer grant: the client's authentication, the resource lookup and
    the steps from the agent claims to the machine-token row. *)

From S2P Require Import Prelude GoStrings ScopeSet Act Domain Db Effects Crypto Stores Order StoreOrder MintIssuer TokenService.

Module MachineIssue.
Import AgentIdentity MintIssuer.

Record Wiring := MkWiring {
  has_audit : bool;
  has_resources : bool;
  has_issuances : bool;      (* the issuance log and the registry *)
  has_dpop : bool;
  has_agentIdentity : bool
}.

Record MachineResponse := MkMachineResponse {
  AccessToken : string;
  TokenType : string;
  ExpiresIn : Z;
  RespScope : string
}.

Definition authenticateClient (clientID clientSecret : string) : M Client.Client :=
  if orb (bool_decide (clientID = "")) (bool_decide (clientSecret = "")) then throw ErrInvalidClient else
  r ← try (ClientStore.GetByID clientID);
  match r with
  | Err _ => throw ErrInvalidClient
  | Ok c =>
      p ← ask params;
      if negb (Client.IsActive c) then throw ErrClientSuspended
      else if Client.IsPublic c then throw ErrInvalidClient
      else if negb (CompareClientSecret p (Client.SecretHash c) clientSecret) then throw ErrInvalidClient
      else mret c
  end.

Section service.
Variable s : Wiring.

(** The same checks as in [TokenService], on this service's DPoP store. *)

Definition validateDPoP (proof method reqURL : string) : M string :=
  TokenService.validateDPoP (TokenService.MkWiring false false false false (has_dpop s) false false)
    proof method reqURL "".

(** [AttachClaims] *)

Definition attachAgent (clientID : string) (act : option (gmap string json)) : M AgentIdentityClaims :=
  if has_agentIdentity s then
    c ← ClientStore.GetByID clientID;
    mret (attachClaimsForClient act c (MkAgent "" [])).1
  else mret (MkAgent "" []).

Record MachineParams := MkParams {
  m_Subject : string;
  m_ClientID : string;
  m_Resource : string;
  m_Scopes : gset string;
  m_JKT : string;
  m_Act : option (gmap string json);
  m_Now : Z;
  m_Expiry : Z
}.

Definition machine_claims (issuer jti : string) (p : MachineParams) (agent : AgentIdentityClaims)
    : AccessTokenClaims :=
  {| c_Issuer := issuer;
     c_Subject := m_Subject p;
     c_Audience := if bool_decide (m_Resource p = "") then [issuer] else [m_Resource p];
     c_ClientID := m_ClientID p;
     c_Scope := Scope.to_String (m_Scopes p);
     c_JTI := jti;
     c_IssuedAt := Unix (m_Now p);
     c_Expiry := Unix (m_Expiry p);
     c_NotBefore := Unix (m_Now p);
     c_Cnf := if bool_decide (m_JKT p ≠ "") then Some {["jkt" := JStr (m_JKT p)]} else None;
     c_Act := m_Act p;
     c_AgentID := AgentID agent;
     c_AgentChain := AgentChain agent |}.

Definition machine_issuance (jti : string) (p : MachineParams) (agent : AgentIdentityClaims)
    (res : Resource.Resource) : Issuance.Issuance :=
  {| Issuance.ID := jti;
     Issuance.SubjectUserID := m_Subject p;
     Issuance.ClientID := m_ClientID p;
     Issuance.ResourceID := Resource.ID res;
     Issuance.Scopes := Scope.Slice (m_Scopes p);
     Issuance.BackendKind := Resource.BackendMint;
     Issuance.Revocable := true;
     Issuance.IssuedAt := m_Now p;
     Issuance.ExpiresAt := m_Expiry p;
     Issuance.RevokedAt := None;
     Issuance.JTI := jti;
     Issuance.DPoPJKT := m_JKT p;
     Issuance.AgentID := AgentID agent;
     Issuance.AgentChain := Issuance.truncate_chain (AgentChain agent);
     Issuance.ConsentClientID := "";
     Issuance.ParentJTI := "" |}.

(** The row of the issuance log, when the resource resolves. *)

Definition logIssuance (jti : string) (p : MachineParams) (agent : AgentIdentityClaims) : M unit :=
  if andb (has_issuances s) (bool_decide (m_Resource p ≠ "")) then
    r ← try (ResourceRegistry.Resolve (m_Resource p));
    match r with
    | Ok res => IssuanceStore.Insert (machine_issuance jti p agent res)
    | Err _ => mret tt
    end
  else mret tt.

Definition machine_row (jti : string) (p : MachineParams) : Machine.MachineToken :=
  Machine.MkMachine jti (m_ClientID p) (m_Scopes p) (m_Resource p) (m_Now p) (m_Expiry p) false.

(** From the agent claims to the machine-token row: the signed token. *)

Definition issueMachine (issuer jti : string) (p : MachineParams) : M string :=
  agent ← attachAgent (m_ClientID p) (m_Act p);
  accessToken ← SignAccessToken (machine_claims issuer jti p agent);
  _ ← logIssuance jti p agent;
  _ ← MachineTokenStore.Save (machine_row jti p);
  mret accessToken.

Definition token_type (jkt : string) : string := if bool_decide (jkt ≠ "") then "DPoP" else "Bearer".

End service.
End MachineIssue.

Module ClientCredentialsService.
Import MintIssuer MachineIssue.

Record ClientCredentialsRequest := MkRequest {
  ClientID : string;
  ClientSecret : string;
  ReqScope : string;
  Resource : string;
  DPoPProof : string;
  HTTPMethod : string;
  HTTPURL : string
}.

Section service.
Variable s : Wiring.

Definition recordDenied (clientID reason : string) : M unit :=
  record_audit (has_audit s)
    (Audit.NewEvent Audit.ActionClientCredentialsDenied clientID clientID "" ("reason=" +:+ reason)).

Definition deny {A} (clientID reason : string) (x : err) : M A :=
  _ ← recordDenied clientID reason; throw x.

(** [if err != nil { recordDenied; return err }] *)

Definition or_deny {A} (clientID reason : string) (m : M A) : M A :=
  r ← try m;
  match r with Ok a => mret a | Err x => deny clientID reason x end.

Definition lookupResource (uri : string) : M (option ResourceRegistry.ResourceInfo) :=
  if negb (has_resources s) then mret None else
  rows ← ResourceRegistry.List;
  mret (find (λ i, bool_decide (ResourceRegistry.URI i = uri)) rows).

Definition clientCredentialsScope (c : Client.Client) (requested : string) (hasResource : bool)
    (catalog : gset string) : gset string + err :=
  let ceiling := Scope.Parse (Client.Scope c) in
  let asked := Scope.Parse requested in
  if negb (Scope.IsEmpty asked) then
    if negb (Scope.IsSubset asked ceiling) then inr (TokenService.scopeDenialError c ceiling)
    else if andb hasResource (negb (Scope.IsSubset asked catalog)) then inr ErrInvalidScope
    else inl asked
  else if negb hasResource then inl ceiling
  else
    let effective := Scope.Intersect ceiling catalog in
    if Scope.IsEmpty effective then
      if Scope.IsEmpty ceiling then inr (TokenService.scopeDenialError c ceiling) else inr ErrInvalidScope
    else inl effective.

(** Step 3: the catalog of the named resource. *)

Definition resolveCatalog (req : ClientCredentialsRequest) : M (gset string) :=
  if bool_decide (Resource req = "") then mret ∅ else
  info ← lookupResource (Resource req);
  match info with
  | None => deny (ClientID req) "invalid_target" ErrInvalidTarget
  | Some i => mret (Scope.New (ResourceRegistry.Scopes i))
  end.

(** Steps 1 to 4: the scopes the client may have. *)

Definition authorizeClient (req : ClientCredentialsRequest) : M (gset string) :=
  c ← or_deny (ClientID req) "invalid_client" (authenticateClient (ClientID req) (ClientSecret req));
  _ ← (if hasGrantType (Client.GrantTypes c) "client_credentials" then mret tt
       else deny (ClientID req) "unauthorized_client" ErrUnauthorizedClient);
  catalog ← resolveCatalog req;
  match clientCredentialsScope c (ReqScope req) (bool_decide (Resource req ≠ "")) catalog with
  | inr x => deny (ClientID req) "invalid_scope" x
  | inl scopes => mret scopes
  end.

Definition proofThumbprint (req : ClientCredentialsRequest) : M string :=
  if bool_decide (DPoPProof req ≠ "")
  then or_deny (ClientID req) "invalid_dpop_proof"
         (validateDPoP s (DPoPProof req) (HTTPMethod req) (HTTPURL req))
  else mret "".

Definition machineParams (req : ClientCredentialsRequest) (scopes : gset string) (jkt : string)
    (now expiry : Z) : MachineParams :=
  MkParams (ClientID req) (ClientID req) (Resource req) scopes jkt None now expiry.

(** Steps 6 to 9. *)

Definition issueToken (req : ClientCredentialsRequest) (scopes : gset string) (jkt : string) : M MachineResponse :=
  expiresIn ← provider (λ e, ClientCredentialsTokenExpiry (config e));
  now ← time_Now;
  let expiry := (now + expiresIn)%Z in
  jti ← GenerateRandomString;
  _ ← provider (λ _, tt);  (* GetSigningKey *)
  issuer ← provider (λ e, Issuer (config e));
  accessToken ← issueMachine s issuer jti (machineParams req scopes jkt now expiry);
  _ ← record_audit (has_audit s)
        (Audit.NewEvent Audit.ActionClientCredentialsIssued (ClientID req) (ClientID req) ""
           ("jti=" +:+ jti +:+ " scopes=" +:+ Scope.to_String scopes));
  mret (MkMachineResponse accessToken (token_type jkt) (seconds expiresIn) (Scope.to_String scopes)).

Definition Exchange (req : ClientCredentialsRequest) : M MachineResponse :=
  scopes ← authorizeClient req;
  jkt ← proofThumbprint req;
  issueToken req scopes jkt.

End service.
End ClientCredentialsService.
