(* ===== verification/XAAServices.v ===== *)
(** * Administration and evaluation of the enterprise-managed grant

    services/xaa_policy.go (policies and their evaluation),
    services/subject_mapping.go (from the provider's subject to a local one)
    and services/xaa_idp.go (trusted identity providers).  The OIDC discovery
    of a JWKS location is a parameter. *)

From S2P Require Import Prelude GoStrings ScopeSet Act Domain Db Effects Crypto Stores Order StoreOrder ExchangeScopes XAAStores.

(** ** XAAPolicyService *)

Module XAAPolicyService.

Record CreatePolicyRequest := MkCreate {
  c_Name : string;
  c_IDPID : string;
  c_ClientIDs : list string;
  c_Scopes : option (list string);
  c_Resources : list string
}.

(** A nil field is [None]. *)

Record UpdatePolicyRequest := MkUpdate {
  u_Name : option string;
  u_ClientIDs : option (list string);
  u_Scopes : option (list string);
  u_Resources : option (list string);
  u_Enabled : option bool
}.

Definition CreatePolicy (req : CreatePolicyRequest) : M XAA.Policy :=
  if orb (bool_decide (c_Name req = "")) (bool_decide (c_IDPID req = ""))
  then throw (EOther "name and idp_id are required") else
  i ← try (IDPStore.GetByID (c_IDPID req));
  match i with
  | Err _ => throw ErrIDPNotFound
  | Ok _ =>
      now ← time_Now;
      id ← GenerateRandomString;
      let p := XAA.MkPolicy id (c_Name req) (c_IDPID req) (c_ClientIDs req) (c_Scopes req) (c_Resources req)
                 true now now in
      _ ← XAAPolicyStore.Save p;
      mret p
  end.

Definition GetPolicy (id : string) : M XAA.Policy := XAAPolicyStore.GetByID id.

Definition ListPolicies (idpID : string) : M (list XAA.Policy) :=
  if bool_decide (idpID ≠ "") then XAAPolicyStore.ListByIDP idpID else XAAPolicyStore.List.

Definition patch (req : UpdatePolicyRequest) (p : XAA.Policy) (now : Z) : XAA.Policy :=
  XAA.MkPolicy (XAA.p_ID p) (default (XAA.p_Name p) (u_Name req)) (XAA.p_IDPID p)
    (default (XAA.ClientIDs p) (u_ClientIDs req))
    (match u_Scopes req with Some l => Some l | None => XAA.p_Scopes p end)
    (default (XAA.Resources p) (u_Resources req)) (default (XAA.p_Enabled p) (u_Enabled req))
    (XAA.p_CreatedAt p) now.

Definition UpdatePolicy (id : string) (req : UpdatePolicyRequest) : M XAA.Policy :=
  p ← XAAPolicyStore.GetByID id;
  now ← time_Now;
  _ ← XAAPolicyStore.Save (patch req p now);
  mret (patch req p now).

Definition DeletePolicy (id : string) : M unit := XAAPolicyStore.Delete id.

(** *** EvaluatePolicy *)

Record PolicyDecision := MkDecision { Allowed : bool; EffectiveScope : gset string }.

(** One policy of the loop: the effective scopes, or [continue]. *)

Definition matchPolicy (p : XAA.Policy) (clientID : string) (requestedScopes : gset string)
    (effectiveResource : string) : option (gset string) :=
  if negb (XAA.p_Enabled p) then None
  else if andb (bool_decide (0 < length (XAA.ClientIDs p))) (negb (slices_Contains (XAA.ClientIDs p) clientID))
  then None
  else if andb (bool_decide (0 < length (XAA.Resources p)))
            (negb (slices_Contains (XAA.Resources p) effectiveResource)) then None
  else match XAA.p_Scopes p with
       | None => Some requestedScopes
       | Some [] => None
       | Some l =>
           let policyScopes := Scope.Parse (strings_Join " " l) in
           if negb (Scope.IsEmpty requestedScopes) then
             if negb (Scope.IsSubset requestedScopes policyScopes) then None else Some requestedScopes
           else Some policyScopes
       end.

Fixpoint evaluate_loop (policies : list XAA.Policy) (clientID : string) (requestedScopes : gset string)
    (effectiveResource : string) : option (gset string) :=
  match policies with
  | [] => None
  | p :: rest =>
      match matchPolicy p clientID requestedScopes effectiveResource with
      | Some sc => Some sc
      | None => evaluate_loop rest clientID requestedScopes effectiveResource
      end
  end.

Definition EvaluatePolicy (idpID : string) (assertion : XAA.IdentityAssertion) (requestedScopes : gset string)
    (effectiveResource : string) : M PolicyDecision :=
  policies ← XAAPolicyStore.ListByIDP idpID;
  match evaluate_loop policies (XAA.a_ClientID assertion) requestedScopes effectiveResource with
  | Some sc => mret (MkDecision true sc)
  | None => throw ErrAssertionPolicyDenied
  end.

(** The loop answers with the first policy that matches, and some policy
    matches exactly when it answers. *)

Lemma evaluate_loop_spec l c req res :
  match evaluate_loop l c req res with
  | Some sc => ∃ l1 p l2, l = l1 ++ p :: l2 ∧ matchPolicy p c req res = Some sc ∧
                          ∀ q, q ∈ l1 → matchPolicy q c req res = None
  | None => ∀ p, p ∈ l → matchPolicy p c req res = None
  end.
Proof.
  induction l as [|p l IH]; simpl; [by intros ? ?%not_elem_of_nil|].
  destruct (matchPolicy p c req res) as [sc|] eqn:Hp.
  - exists [], p, l. split_and!; [done|done|]. by intros ? ?%not_elem_of_nil.
  - destruct (evaluate_loop l c req res) as [sc|].
    + destruct IH as (l1 & q & l2 & -> & Hq & Hl1). exists (p :: l1), q, l2. split_and!; [done|done|].
      intros r [->|Hr]%elem_of_cons; [done|by apply Hl1].
    + intros r [->|Hr]%elem_of_cons; [done|by apply IH].
Qed.

End XAAPolicyService.

(** ** SubjectMappingService *)

Module SubjectMappingService.

Record CreateMappingRequest := MkCreate { c_IDPID : string; c_IDPSubject : string; c_LocalUserID : string }.

Definition CreateMapping (req : CreateMappingRequest) : M XAA.SubjectMapping :=
  if orb (bool_decide (c_IDPID req = "")) (bool_decide (c_IDPSubject req = ""))
  then throw (EOther "idp_id and idp_subject are required") else
  i ← try (IDPStore.GetByID (c_IDPID req));
  match i with
  | Err _ => throw ErrIDPNotFound
  | Ok _ =>
      _ ← (if bool_decide (c_LocalUserID req ≠ "")
           then _ ← UserStore.GetByID (c_LocalUserID req); mret tt else mret tt);
      now ← time_Now;
      id ← GenerateRandomString;
      let m := XAA.MkMapping id (c_IDPID req) (c_IDPSubject req) (c_LocalUserID req) now in
      _ ← SubjectMappingStore.Save m;
      mret m
  end.

Definition ListMappings (idpID : string) : M (list XAA.SubjectMapping) := SubjectMappingStore.ListByIDP idpID.

Definition DeleteMapping (id : string) : M unit := SubjectMappingStore.Delete id.

Definition checkLocalUserActive (userID : string) : M unit :=
  u ← try (UserStore.GetByID userID);
  match u with
  | Err ErrUserNotFound => throw errMappedUserInactive
  | Err x => throw x
  | Ok u => if negb (User.IsActive u) then throw errMappedUserInactive else mret tt
  end.

(** Any error of the lookup counts as "no mapping". *)

Definition ResolveSubject (idpID idpIssuer idpSubject subjectMode : string) : M string :=
  m ← try (SubjectMappingStore.GetMapping idpID idpSubject);
  match m with
  | Ok m =>
      if bool_decide (XAA.LocalUserID m ≠ "") then
        _ ← checkLocalUserActive (XAA.LocalUserID m); mret (XAA.LocalUserID m)
      else mret (idpIssuer +:+ ":" +:+ idpSubject)
  | Err _ =>
      if bool_decide (subjectMode = "strict") then throw ErrSubjectMappingNotFound
      else mret (idpIssuer +:+ ":" +:+ idpSubject)
  end.

End SubjectMappingService.

(** ** XAAIDPService *)

Module XAAIDPService.

Record RegisterIDPRequest := MkRegister {
  r_Name : string; r_Issuer : string; r_JWKSUri : string; r_Audience : string
}.

Record UpdateIDPRequest := MkUpdate { u_Name : option string; u_Enabled : option bool }.

Section service.
Variable discover : string → M string.
Variable cache : IDPJWKSCache.Deps.

Definition RegisterIDP (req : RegisterIDPRequest) : M XAA.TrustedIDP :=
  audience ← (if bool_decide (r_Audience req = "") then provider (λ e, Issuer (config e))
              else mret (r_Audience req));
  jwksURI ← (if bool_decide (r_JWKSUri req = "") then discover (r_Issuer req) else mret (r_JWKSUri req));
  now ← time_Now;
  id ← GenerateRandomString;
  p ← ask params;
  let entity := XAA.MkIDP id (r_Name req) (r_Issuer req) jwksURI audience true now now in
  match XAA.Validate (url_parse p) entity with
  | Some x => throw x
  | None => _ ← IDPStore.Save entity; mret entity
  end.

Definition GetIDP (id : string) : M XAA.TrustedIDP := IDPStore.GetByID id.
Definition ListIDPs : M (list XAA.TrustedIDP) := IDPStore.List.

Definition patch (req : UpdateIDPRequest) (i : XAA.TrustedIDP) (now : Z) : XAA.TrustedIDP :=
  XAA.MkIDP (XAA.idp_ID i) (default (XAA.idp_Name i) (u_Name req)) (XAA.idp_Issuer i) (XAA.JWKSUri i)
    (XAA.idp_Audience i) (default (XAA.idp_Enabled i) (u_Enabled req)) (XAA.idp_CreatedAt i) now.

Definition UpdateIDP (id : string) (req : UpdateIDPRequest) : M XAA.TrustedIDP :=
  existing ← IDPStore.GetByID id;
  now ← time_Now;
  _ ← IDPStore.Save (patch req existing now);
  mret (patch req existing now).

Definition DeleteIDP (id : string) : M unit :=
  existing ← IDPStore.GetByID id;
  _ ← IDPStore.Delete id;
  _ ← try (IDPJWKSCache.InvalidateCache (XAA.idp_Issuer existing));
  mret tt.

Definition RefreshKeys (id : string) : M unit :=
  existing ← IDPStore.GetByID id;
  _ ← IDPJWKSCache.InvalidateCache (XAA.idp_Issuer existing);
  _ ← IDPJWKSCache.GetKeys cache (XAA.idp_Issuer existing);
  mret tt.

End service.
End XAAIDPService.
