(* ===== verification/JWTBearer.v ===== *)
(** * internal/services/jwt_bearer.go: the JWT bearer grant

    A client presents an identity assertion signed by a trusted identity
    provider and obtains a machine token for the provider's subject.  The
    policy and the subject-mapping services are wired together or not at
    all. *)

From S2P Require Import Prelude GoStrings ScopeSet Act Domain Db Effects Crypto Stores Order StoreOrder MintIssuer TokenService XAAStores ClientCredentials XAAServices.

Module JWTBearerService.
Import MintIssuer MachineIssue.

Definition GrantTypeJWTBearer : string := "urn:ietf:params:oauth:grant-type:jwt-bearer".

Record JWTBearerRequest := MkRequest {
  Assertion : string;
  ClientID : string;
  ClientSecret : string;
  ReqScope : string;
  Resource : string;
  DPoPProof : string;
  HTTPMethod : string;
  HTTPURL : string
}.

Section service.
Variable s : Wiring.
Variable has_policy : bool.
Variable cache : IDPJWKSCache.Deps.

Definition recordDenied (clientID reason : string) : M unit :=
  record_audit (has_audit s)
    (Audit.NewEvent Audit.ActionJWTBearerDenied clientID clientID "" ("reason=" +:+ reason)).

Definition deny {A} (clientID reason : string) (x : err) : M A :=
  _ ← recordDenied clientID reason; throw x.

Definition check (clientID reason : string) (c : bool) (x : err) : M unit :=
  if c then mret tt else deny clientID reason x.

Definition or_deny {A} (clientID reason : string) (m : M A) : M A :=
  r ← try m;
  match r with Ok a => mret a | Err x => deny clientID reason x end.

Definition recordAssertionRejected (x : err) : M unit :=
  recordDenied ""
    (match x with
     | ErrAssertionExpired => "expired"
     | ErrAssertionAudienceMismatch => "audience"
     | ErrAssertionTypeMismatch => "type"
     | ErrAssertionInvalid => "invalid"
     | _ => "unknown"
     end).

(** [None] is the error. *)

Definition extractIssuerFromJWT (p : Params) (raw : string) : option string :=
  match jag_parse p raw with
  | None => None
  | Some tok =>
      match j_iss tok with
      | None => None
      | Some iss => if bool_decide (iss = "") then None else Some iss
      end
  end.

Definition isKnownResource (uri : string) : M bool :=
  if negb (has_resources s) then mret false else
  r ← try ResourceRegistry.List;
  mret (match r with
        | Ok rows => existsb (λ i, bool_decide (ResourceRegistry.URI i = uri)) rows
        | Err _ => false
        end).

(** Steps 1 to 3 *)

Definition acceptClient (req : JWTBearerRequest) : M Client.Client :=
  c ← or_deny (ClientID req) "invalid_client" (authenticateClient (ClientID req) (ClientSecret req));
  _ ← check (ClientID req) "unauthorized_client" (hasGrantType (Client.GrantTypes c) GrantTypeJWTBearer)
        ErrUnauthorizedClient;
  _ ← check (ClientID req) "missing_assertion" (bool_decide (Assertion req ≠ "")) ErrAssertionInvalid;
  mret c.

(** Steps 4 and 5: the trusted provider the assertion names. *)

Definition trustedIssuer (req : JWTBearerRequest) : M XAA.TrustedIDP :=
  p ← ask params;
  match extractIssuerFromJWT p (Assertion req) with
  | None => deny (ClientID req) "invalid_assertion" ErrAssertionInvalid
  | Some iss =>
      r ← try (IDPStore.GetByIssuer iss);
      match r with
      | Err _ => deny (ClientID req) "untrusted_issuer" ErrAssertionIssuerUntrusted
      | Ok idp =>
          _ ← check (ClientID req) "idp_disabled" (XAA.idp_Enabled idp) ErrIDPDisabled;
          mret idp
      end
  end.

(** Steps 6 and 7: the issuer of this server and the assertion. *)

Definition verifyAssertion (req : JWTBearerRequest) (idp : XAA.TrustedIDP) (maxAge : Z)
    : M (string * XAA.IdentityAssertion) :=
  keys ← or_deny (ClientID req) "jwks_fetch_failed" (IDPJWKSCache.GetKeys cache (XAA.idp_Issuer idp));
  issuer ← provider (λ e, Issuer (config e));
  now ← time_Now;
  p ← ask params;
  match ValidateIDJAG p now (Assertion req) keys issuer maxAge with
  | inr x => _ ← recordAssertionRejected x; throw x
  | inl a => mret (issuer, a)
  end.

(** Steps 8 and 9: the resource of the request or of the assertion. *)

Definition reconcile (req : JWTBearerRequest) (requireResource : bool) (a : XAA.IdentityAssertion) : M string :=
  _ ← check (ClientID req) "client_mismatch" (bool_decide (XAA.a_ClientID a = ClientID req)) ErrAssertionClientMismatch;
  _ ← check (ClientID req) "invalid_resource"
        (orb (bool_decide (Resource req = "")) (orb (bool_decide (XAA.a_Resource a = ""))
           (bool_decide (Resource req = XAA.a_Resource a)))) ErrInvalidScope;
  let resource := if bool_decide (Resource req = "") then XAA.a_Resource a else Resource req in
  _ ← check (ClientID req) "resource_required" (negb (andb requireResource (bool_decide (resource = "")))) ErrInvalidTarget;
  mret resource.

(** Step 10.  The retention: one minute past the expiry of the assertion. *)

Definition jtiExpiry (a : XAA.IdentityAssertion) : Z := (XAA.a_Expiry a * SqlTime.nano + 60 * SqlTime.nano)%Z.

Definition consumeAssertion (req : JWTBearerRequest) (a : XAA.IdentityAssertion) : M unit :=
  r ← try (AssertionJTIStore.ConsumeJTI (XAA.a_JTI a) (jtiExpiry a));
  match r with
  | Ok _ => mret tt
  | Err _ => deny (ClientID req) "replay" ErrAssertionReplay
  end.

(** Step 11: the ceilings of the client and of the assertion. *)

Definition bearerScope (clientScope assertionScope requested : string) : gset string + (string * err) :=
  let clientScopes := Scope.Parse clientScope in
  if Scope.IsEmpty clientScopes then inr ("client_scope_empty", ErrInvalidScope) else
  let bounded := if bool_decide (assertionScope ≠ "")
                 then Scope.Intersect clientScopes (Scope.Parse assertionScope) else clientScopes in
  if andb (bool_decide (assertionScope ≠ "")) (Scope.IsEmpty bounded) then inr ("invalid_scope", ErrInvalidScope)
  else if bool_decide (requested ≠ "") then
    if negb (Scope.IsSubset (Scope.Parse requested) bounded) then inr ("invalid_scope", ErrInvalidScope)
    else inl (Scope.Parse requested)
  else inl bounded.

(** Steps 11 to 13: scopes, resource, policy. *)

Definition authorizeAssertion (req : JWTBearerRequest) (c : Client.Client) (idpID : string)
    (a : XAA.IdentityAssertion) (resource : string) : M (gset string) :=
  match bearerScope (Client.Scope c) (XAA.a_Scope a) (ReqScope req) with
  | inr (reason, x) => deny (ClientID req) reason x
  | inl scopes =>
      known ← (if bool_decide (resource ≠ "") then isKnownResource resource else mret true);
      _ ← check (ClientID req) "invalid_resource" known ErrInvalidScope;
      if has_policy then
        d ← or_deny (ClientID req) "policy_denied" (XAAPolicyService.EvaluatePolicy idpID a scopes resource);
        mret (XAAPolicyService.EffectiveScope d)
      else mret scopes
  end.

Definition proofThumbprint (req : JWTBearerRequest) : M string :=
  if bool_decide (DPoPProof req ≠ "")
  then or_deny (ClientID req) "invalid_dpop_proof"
         (validateDPoP s (DPoPProof req) (HTTPMethod req) (HTTPURL req))
  else mret "".

Definition resolveSubject (req : JWTBearerRequest) (idpID subjectMode : string) (a : XAA.IdentityAssertion) : M string :=
  if has_policy then
    r ← try (SubjectMappingService.ResolveSubject idpID (XAA.a_Issuer a) (XAA.a_Subject a) subjectMode);
    match r with
    | Ok sub => mret sub
    | Err errMappedUserInactive => deny (ClientID req) "subject_inactive" errMappedUserInactive
    | Err x => deny (ClientID req) "subject_mapping_failed" x
    end
  else mret (XAA.a_Issuer a +:+ ":" +:+ XAA.a_Subject a).

Definition machineParams (req : JWTBearerRequest) (a : XAA.IdentityAssertion) (sub resource : string)
    (scopes : gset string) (jkt : string) (now expiry : Z) : MachineParams :=
  MkParams sub (ClientID req) resource scopes jkt (Some {["sub" := JStr (XAA.a_Issuer a)]}) now expiry.

(** Steps 15 and 16. *)

Definition issueToken (req : JWTBearerRequest) (cfg : Config) (idpID issuer : string) (a : XAA.IdentityAssertion)
    (resource : string) (scopes : gset string) (jkt : string) : M MachineResponse :=
  now ← time_Now;
  let expiry := (now + XAATokenExpiry cfg)%Z in
  jti ← GenerateRandomString;
  _ ← provider (λ _, tt);  (* GetSigningKey *)
  sub ← resolveSubject req idpID (SubjectMode cfg) a;
  accessToken ← issueMachine s issuer jti (machineParams req a sub resource scopes jkt now expiry);
  _ ← record_audit (has_audit s)
        (Audit.NewEvent Audit.ActionJWTBearerIssued sub (ClientID req) ""
           ("jti=" +:+ jti +:+ " idp=" +:+ XAA.a_Issuer a +:+ " scopes=" +:+ Scope.to_String scopes));
  mret (MkMachineResponse accessToken (token_type jkt) (seconds (XAATokenExpiry cfg)) (Scope.to_String scopes)).

Definition GrantJWTBearer (req : JWTBearerRequest) : M MachineResponse :=
  cfg ← provider config;
  c ← acceptClient req;
  idp ← trustedIssuer req;
  ia ← verifyAssertion req idp (MaxAssertionAge cfg);
  let '(issuer, a) := ia in
  resource ← reconcile req (RequireResource cfg) a;
  _ ← consumeAssertion req a;
  scopes ← authorizeAssertion req c (XAA.idp_ID idp) a resource;
  jkt ← proofThumbprint req;
  issueToken req cfg (XAA.idp_ID idp) issuer a resource scopes jkt.

End service.
End JWTBearerService.
