(* ===== verification/MachineProofs.v ===== *)
(** * What the steps of the machine grants establish

    The client credentials grant and the JWT bearer grant: every call respects
    the security order, and a step that succeeded read or wrote what its name
    says. *)

From S2P Require Import Prelude GoStrings ScopeSet Act Domain Db Effects Crypto Stores Order StoreOrder MintIssuer TokenService TokenProofs XAAStores ClientCredentials XAAServices JWTBearer.
Import AgentIdentity MintIssuer MachineIssue.

(** ** Every path respects the security order *)

Section shared.
Context (s : Wiring) {P : Audit.Event → Prop}.

Section reads.
Context {S : relation DB} `{!PreOrder S}.

Lemma traced_authenticateClient_m c x : Traced S P (authenticateClient c x).
Proof. unfold authenticateClient. traced. Qed.

Lemma traced_attachAgent_m c x : Traced S P (attachAgent s c x).
Proof. unfold attachAgent. traced. Qed.

End reads.

Hint Resolve traced_attachAgent_m : guar_db.

Lemma traced_validateDPoP_m a b c : Traced db_step P (validateDPoP s a b c).
Proof. unfold validateDPoP, TokenService.validateDPoP. traced. Qed.

Lemma traced_logIssuance j p a : Traced db_step P (logIssuance s j p a).
Proof. unfold logIssuance. traced. Qed.

Hint Resolve traced_logIssuance : guar_db.

Lemma traced_issueMachine i j p : Traced db_step P (issueMachine s i j p).
Proof. unfold issueMachine, SignAccessToken. traced. Qed.

End shared.

#[export] Hint Resolve traced_authenticateClient_m traced_attachAgent_m traced_validateDPoP_m traced_logIssuance
  traced_issueMachine : guar_db.

(** The events of a grant. *)

Definition cc_event (ev : Audit.Event) : Prop :=
  Audit.action ev = Audit.ActionClientCredentialsIssued ∨ Audit.action ev = Audit.ActionClientCredentialsDenied.

Definition jb_event (ev : Audit.Event) : Prop :=
  Audit.action ev = Audit.ActionJWTBearerIssued ∨ Audit.action ev = Audit.ActionJWTBearerDenied.

Module CC.
Import ClientCredentialsService.

Section traced.
Context (s : Wiring).

Lemma traced_recordDenied_cc {S : relation DB} `{!PreOrder S} c r : Traced S cc_event (recordDenied s c r).
Proof. unfold recordDenied. traced. by right. Qed.

Hint Resolve traced_recordDenied_cc : guar_db.

Lemma traced_or_deny_cc {S : relation DB} `{!PreOrder S} {A} c r (m : M A) :
  Traced S cc_event m → Traced S cc_event (or_deny s c r m).
Proof. intros Hm. unfold or_deny, deny. traced. Qed.

Lemma traced_authorizeClient {S : relation DB} `{!PreOrder S} req : Traced S cc_event (authorizeClient s req).
Proof.
  unfold authorizeClient, resolveCatalog, lookupResource, deny.
  traced; apply traced_or_deny_cc; traced.
Qed.

Lemma traced_proofThumbprint_cc req : Traced db_step cc_event (proofThumbprint s req).
Proof. unfold proofThumbprint. traced; apply traced_or_deny_cc; traced. Qed.

Lemma traced_issueToken_cc req sc j : Traced db_step cc_event (issueToken s req sc j).
Proof. unfold issueToken. traced. by left. Qed.

Hint Resolve traced_authorizeClient traced_proofThumbprint_cc traced_issueToken_cc : guar_db.

Lemma traced_CC_Exchange req : Traced db_step cc_event (Exchange s req).
Proof. unfold Exchange. traced. Qed.

End traced.
End CC.

#[export] Hint Resolve CC.traced_recordDenied_cc CC.traced_authorizeClient CC.traced_proofThumbprint_cc
  CC.traced_issueToken_cc CC.traced_CC_Exchange : guar_db.

Module JB.
Import JWTBearerService.

Section traced.
Context (s : Wiring) (pol : bool) (cache : IDPJWKSCache.Deps) {HC : IDPJWKSCache.CacheDeps cache}.

Section reads.
Context {S : relation DB} `{!PreOrder S}.

Lemma traced_recordDenied_jb c r : Traced S jb_event (recordDenied s c r).
Proof. unfold recordDenied. traced. by right. Qed.

Hint Resolve traced_recordDenied_jb : guar_db.

Lemma traced_or_deny_jb {A} c r (m : M A) : Traced S jb_event m → Traced S jb_event (or_deny s c r m).
Proof. intros Hm. unfold or_deny, deny. traced. Qed.

Lemma traced_check_jb c r b x : Traced S jb_event (check s c r b x).
Proof. unfold check, deny. traced. Qed.

Hint Resolve traced_check_jb : guar_db.

Lemma traced_acceptClient req : Traced S jb_event (acceptClient s req).
Proof. unfold acceptClient. traced; apply traced_or_deny_jb; traced. Qed.

Lemma traced_trustedIssuer req : Traced S jb_event (trustedIssuer s req).
Proof. unfold trustedIssuer, deny. traced. Qed.

Lemma traced_reconcile req b a : Traced S jb_event (reconcile s req b a).
Proof. unfold reconcile. traced. Qed.

Lemma traced_isKnownResource u : Traced S jb_event (isKnownResource s u).
Proof. unfold isKnownResource. traced. Qed.

Hint Resolve traced_isKnownResource : guar_db.

Lemma traced_authorizeAssertion req c i a r : Traced S jb_event (authorizeAssertion s pol req c i a r).
Proof.
  unfold authorizeAssertion, deny. traced. apply traced_or_deny_jb.
  unfold XAAPolicyService.EvaluatePolicy. traced.
Qed.

Lemma traced_resolveSubject req i m a : Traced S jb_event (resolveSubject s pol req i m a).
Proof.
  unfold resolveSubject, SubjectMappingService.ResolveSubject, SubjectMappingService.checkLocalUserActive, deny.
  traced.
Qed.

End reads.

Hint Resolve traced_recordDenied_jb traced_check_jb traced_acceptClient traced_trustedIssuer traced_reconcile
  traced_authorizeAssertion traced_resolveSubject : guar_db.

Lemma traced_verifyAssertion req i m : Traced db_step jb_event (verifyAssertion s cache req i m).
Proof. unfold verifyAssertion, recordAssertionRejected. traced; apply traced_or_deny_jb; traced. Qed.

Lemma traced_consumeAssertion req a : Traced db_step jb_event (consumeAssertion s req a).
Proof. unfold consumeAssertion, deny. traced. Qed.

Lemma traced_proofThumbprint_jb req : Traced db_step jb_event (proofThumbprint s req).
Proof. unfold proofThumbprint. traced; apply traced_or_deny_jb; traced. Qed.

Lemma traced_issueToken_jb req c i u a r sc j : Traced db_step jb_event (issueToken s pol req c i u a r sc j).
Proof. unfold issueToken. traced. by left. Qed.

Hint Resolve traced_verifyAssertion traced_consumeAssertion traced_proofThumbprint_jb traced_issueToken_jb : guar_db.

Lemma traced_GrantJWTBearer req : Traced db_step jb_event (GrantJWTBearer s pol cache req).
Proof. unfold GrantJWTBearer. traced. Qed.

End traced.
End JB.

#[export] Hint Resolve JB.traced_recordDenied_jb JB.traced_check_jb JB.traced_acceptClient JB.traced_trustedIssuer
  JB.traced_reconcile JB.traced_authorizeAssertion JB.traced_resolveSubject JB.traced_verifyAssertion
  JB.traced_consumeAssertion JB.traced_proofThumbprint_jb JB.traced_issueToken_jb JB.traced_GrantJWTBearer : guar_db.

(** ** What a successful step established *)

(** The client of a machine grant: confidential and authenticated. *)

Definition authenticated (e : Env) (id secret : string) (w w' : World) (c : Client.Client) : Prop :=
  Client.IsPublic c = false ∧ authentic (params e) c secret ∧
  ∃ d, seen w w' (d, d) ∧ clients d !! id = Some c.

Lemma authenticated_sub e id secret w w1 w2 w3 c :
  extends w w1 → extends w1 w2 → extends w2 w3 →
  authenticated e id secret w1 w2 c → authenticated e id secret w w3 c.
Proof.
  intros X1 X2 X3 (? & ? & d & Hd & ?). split_and!; try done. exists d. split; [seen_tac|done].
Qed.

Lemma authenticateClient_m id secret e w c w' :
  authenticateClient id secret e w = (Ok c, w') → authenticated e id secret w w' c.
Proof.
  unfold authenticateClient, authenticated. case_match eqn:Hs; [by intros ?%throw_ok|]. intros H. mstep H. unbool.
  apply ClientStore_answer in Hm as [->|(d & Hd & ->)]; [by apply throw_ok in H|].
  destruct (clients d !! id) as [c'|] eqn:Hc; [|by apply throw_ok in H].
  mstep H. unfold ask in Hm. simplify_eq. unfold authentic.
  repeat (case_match; [by apply throw_ok in H|]). apply ret_ok in H as [<- <-]. unbool.
  repeat match goal with Hq : Client.IsPublic _ = false |- _ => rewrite Hq end. eauto 10.
Qed.

(** The signed claims are those of the parameters and the machine-token row
    is in the tables at the end. *)

Record issued_machine (e : Env) (issuer jti : string) (p : MachineParams) (tok : string) (w' : World) : Prop := {
  im_token : ∃ agent, tok = jws_sign (params e) (machine_claims issuer jti p agent) ∧
    ValidateAccessTokenClaims (machine_claims issuer jti p agent) = true;
  im_row : machine_tokens (w_db w') !! jti = Some (machine_row jti p)
}.

Lemma issueMachine_ok s issuer jti p e w tok w' :
  issueMachine s issuer jti p e w = (Ok tok, w') → issued_machine e issuer jti p tok w'.
Proof.
  unfold issueMachine. intros H. mstep H. mstep H. mstep H. mstep H. apply ret_ok in H as [<- <-].
  unfold SignAccessToken in Hm0. destruct (ValidateAccessTokenClaims _) eqn:Hv; [|done].
  apply provider_ok in Hm0 as [-> _]. split; [by eauto|].
  unfold MachineTokenStore.Save in Hm2. apply store_seen in Hm2 as (now & d & d' & Hd & _ & -> & _).
  simpl in Hd. repeat case_match; simplify_eq. simpl. by rewrite lookup_insert_eq.
Qed.

Lemma audit_quiet b ev e w u w' :
  record_audit b ev e w = (Ok u, w') → w_db w' = w_db w ∧ extends w w'.
Proof.
  unfold record_audit. intros [= _ <-]. destruct b; (split; [done|]); exists []; by rewrite app_nil_r.
Qed.

Module CCSteps.
Import CC ClientCredentialsService.

Lemma or_deny_cc_ok s c r {A} (m : M A) e w a w' :
  or_deny s c r m e w = (Ok a, w') → m e w = (Ok a, w').
Proof.
  unfold or_deny, deny. intros H. mstep H. destruct a0 as [v|x].
  - apply ret_ok in H as [-> ->]. done.
  - mstep H. by apply throw_ok in H.
Qed.

(** The scopes of the grant, by the two bounds. *)

Lemma clientCredentialsScope_ok c requested hasResource catalog sc :
  clientCredentialsScope c requested hasResource catalog = inl sc →
  sc ⊆ Scope.Parse (Client.Scope c) ∧ (hasResource = true → sc ⊆ catalog ∧ sc ≠ ∅) ∧
  (Scope.Parse requested ≠ ∅ → sc = Scope.Parse requested) ∧
  (Scope.Parse requested = ∅ → sc = if hasResource then Scope.Parse (Client.Scope c) ∩ catalog
                                    else Scope.Parse (Client.Scope c)).
Proof.
  unfold clientCredentialsScope. destruct (Scope.IsEmpty (Scope.Parse requested)) eqn:He; simpl.
  - apply Scope.IsEmpty_spec in He. destruct hasResource; simpl; [|intros [= <-]; naive_solver].
    case_match eqn:Hi; [by case_match|]. intros [= <-]. apply Scope.IsEmpty_false in Hi.
    rewrite Scope.Intersect_spec in *. split_and!; try done; set_solver.
  - apply Scope.IsEmpty_false in He. case_match eqn:Hs; [done|]. case_match eqn:Hr; [done|].
    intros [= <-]. unbool. apply Scope.IsSubset_spec in Hs.
    split_and!; try done. intros ->. simpl in Hr. unbool. apply Scope.IsSubset_spec in Hr. done.
Qed.

(** The registered resource of a URI. *)

Lemma registry_List_rows e w l w' :
  ResourceRegistry.List e w = (Ok l, w') → ∃ d, seen w w' (d, d) ∧
  ∀ i, i ∈ l → ∃ k r, resources d !! k = Some r ∧ i = ResourceRegistry.resourceToInfo r.
Proof.
  unfold ResourceRegistry.List. intros H. mstep H. apply ret_ok in H as [<- <-].
  unfold ResourceStore.List in Hm. apply query_seen in Hm as (now & d & [= <-] & Hd & _).
  exists d. split; [done|]. intros i (r & -> & Hr)%list_elem_of_fmap.
  rewrite ResourceStore.list_rows_all in Hr. apply ResourceStore.elem_of_by_slug in Hr as [k Hk]. eauto.
Qed.

(** A registered resource with this URI offers the scopes [sc]. *)

Definition registered (w w' : World) (uri : string) (sc : gset string) : Prop :=
  ∃ d k r, seen w w' (d, d) ∧ resources d !! k = Some r ∧ Resource.URI r = uri ∧
    ∀ x, x ∈ sc → x ∈ Resource.scope_names r.

Lemma resolveCatalog_ok s req e w cat w' :
  resolveCatalog s req e w = (Ok cat, w') → Resource req ≠ "" → registered w w' (Resource req) cat.
Proof.
  unfold resolveCatalog, lookupResource. intros H Hr. rewrite bool_decide_eq_false_2 in H by done.
  mstep H. destruct (has_resources s); simpl in Hm;
    [|apply ret_ok in Hm as [<- <-]; unfold deny in H; mstep H; by apply throw_ok in H].
  mstep Hm. apply ret_ok in Hm as [<- <-]. destruct (find _ _) as [i|] eqn:Hf;
    [|unfold deny in H; mstep H; by apply throw_ok in H].
  apply ret_ok in H as [<- <-]. apply find_some in Hf as [Hi Hu]. unbool.
  apply registry_List_rows in Hm0 as (d & Hd & Hl). apply list_elem_of_In in Hi.
  destruct (Hl _ Hi) as (k & r & Hk & ->). exists d, k, r. split_and!; try done.
  intros x [? _]%Scope.elem_of_New. done.
Qed.

(** What the run read before it granted the scopes [sc]. *)

Record cc_authorized (req : ClientCredentialsRequest) (e : Env) (w w' : World) (sc : gset string) : Prop := {
  ca_client : ∃ c, authenticated e (ClientID req) (ClientSecret req) w w' c ∧
    "client_credentials" ∈ Client.GrantTypes c ∧ sc ⊆ Scope.Parse (Client.Scope c);
  ca_resource : Resource req ≠ "" → sc ≠ ∅ ∧ registered w w' (Resource req) sc;
  ca_exact : Scope.Parse (ReqScope req) ≠ ∅ → sc = Scope.Parse (ReqScope req)
}.

Lemma authorizeClient_ok s req e w sc w' :
  authorizeClient s req e w = (Ok sc, w') → cc_authorized req e w w' sc.
Proof.
  unfold authorizeClient. intros H. mstep H. apply or_deny_cc_ok in Hm.
  mstep H. destruct (hasGrantType _ _) eqn:Hg; [|unfold deny in Hm0; mstep Hm0; by apply throw_ok in Hm0].
  apply ret_ok in Hm0 as [<- <-]. mstep H.
  assert (Traced db_step cc_event (resolveCatalog s req)) as T
    by (unfold resolveCatalog, lookupResource, deny; traced).
  pose proof (traced_extends _ _ _ _ _ T Hm0) as X1. ext_all cc_event.
  destruct (clientCredentialsScope _ _ _ _) as [sc'|x] eqn:Hs; [|unfold deny in H; mstep H; by apply throw_ok in H].
  apply ret_ok in H as [<- <-]. apply clientCredentialsScope_ok in Hs as (Hc & Hr & He & _).
  apply authenticateClient_m in Hm. split; [|intros Hne|done].
  - exists a. split_and!; [|by apply hasGrantType_spec|done].
    eapply (authenticated_sub _ _ _ w w w0); [chain_ext|chain_ext|chain_ext|done].
  - rewrite bool_decide_eq_true_2 in Hr by done. destruct (Hr eq_refl) as [Hcat ?]. split; [done|].
    destruct (resolveCatalog_ok _ _ _ _ _ _ Hm0 Hne) as (d & k & r & Hd & Hk & Hu & Hsc).
    exists d, k, r. split_and!; try done; [seen_tac|]. intros x Hx. apply Hsc. set_solver.
Qed.

(** The parameters of the token a request obtains. *)

Lemma issueToken_cc_ok s req sc jkt e w resp w' :
  issueToken s req sc jkt e w = (Ok resp, w') → ∃ jti now,
    let p := machineParams req sc jkt now (now + ClientCredentialsTokenExpiry (config e))%Z in
    issued_machine e (Issuer (config e)) jti p (AccessToken resp) w' ∧
    RespScope resp = Scope.to_String sc ∧ TokenType resp = token_type jkt.
Proof.
  unfold issueToken. intros H. mstep H. mstep H. mstep H. mstep H. mstep H. mstep H. mstep H.
  apply ret_ok in H as [<- <-]. apply issueMachine_ok in Hm1 as [Ht Hr].
  apply audit_quiet in Hm2 as [Hdb _]. eexists _, _. split; [|done].
  split; [exact Ht|]. by rewrite Hdb.
Qed.

End CCSteps.

Module JBSteps.
Import JB JWTBearerService.

(** [json.Unmarshal] reads the same [iss] from one payload, whether the target
    has the other fields or not. *)

Definition json_consistent (p : Params) : Prop :=
  ∀ raw t a, jag_parse p raw = Some t → j_claims t = Some a → j_iss t = Some (XAA.a_Issuer a).

Section steps.
Context (s : Wiring) (pol : bool) (cache : IDPJWKSCache.Deps) {HC : IDPJWKSCache.CacheDeps cache}.

Lemma or_deny_jb_ok c r {A} (m : M A) e w a w' :
  or_deny s c r m e w = (Ok a, w') → m e w = (Ok a, w').
Proof.
  unfold or_deny, deny. intros H. mstep H. destruct a0 as [v|x].
  - apply ret_ok in H as [-> ->]. done.
  - mstep H. by apply throw_ok in H.
Qed.

Lemma check_jb_ok c r b x e w u w' : check s c r b x e w = (Ok u, w') → b = true ∧ w = w'.
Proof.
  unfold check, deny. destruct b; intros H; [by apply ret_ok in H as [_ <-]|]. mstep H. by apply throw_ok in H.
Qed.

Lemma deny_jb_ok {A} c r x e w (a : A) w' : deny s c r x e w = (Ok a, w') → False.
Proof. unfold deny. intros H. mstep H. by apply throw_ok in H. Qed.

Lemma acceptClient_ok req e w c w' :
  acceptClient s req e w = (Ok c, w') →
  authenticated e (ClientID req) (ClientSecret req) w w' c ∧ GrantTypeJWTBearer ∈ Client.GrantTypes c.
Proof.
  unfold acceptClient. intros H. mstep H. apply or_deny_jb_ok, authenticateClient_m in Hm.
  mstep H. apply check_jb_ok in Hm0 as [Hg ->]. mstep H. apply check_jb_ok in Hm0 as [_ ->].
  apply ret_ok in H as [<- <-]. split; [done|]. by apply hasGrantType_spec.
Qed.

(** An enabled provider whose issuer is the one the payload names. *)

Definition trusted (e : Env) (raw : string) (w w' : World) (idp : XAA.TrustedIDP) : Prop :=
  XAA.idp_Enabled idp = true ∧ extractIssuerFromJWT (params e) raw = Some (XAA.idp_Issuer idp) ∧
  ∃ d k, seen w w' (d, d) ∧ trusted_idps (xaa d) !! k = Some idp.

Lemma trustedIssuer_ok req e w idp w' :
  trustedIssuer s req e w = (Ok idp, w') → trusted e (Assertion req) w w' idp.
Proof.
  unfold trustedIssuer. intros H. mstep H. unfold ask in Hm. simplify_eq.
  destruct (extractIssuerFromJWT _ _) as [iss|] eqn:Hi; [|by apply deny_jb_ok in H].
  mstep H. destruct a as [i|x]; [|by apply deny_jb_ok in H].
  mstep H. apply check_jb_ok in Hm0 as [He ->]. apply ret_ok in H as [<- <-].
  unfold IDPStore.GetByIssuer in Hm. apply query_seen in Hm as (now & d & Hd & Hs & _).
  destruct (find_row _ _) as [i'|] eqn:Hf; simplify_eq. apply find_row_Some in Hf as (k & Hk & Hq). unbool.
  split_and!; [done|congruence|]. exists d, k. done.
Qed.

(** Where verification keys come from: the cache entry of the issuer, within
    its lifetime or the bounded grace period, or the registered location. *)

Definition keys_for (issuer : string) (e : Env) (w w' : World) (keys : list XAA.JWK) : Prop :=
  (∃ d en n, seen w w' (d, d) ∧ jwks_cache (xaa d) !! issuer = Some en ∧ keys = XAA.e_keys en ∧
     (clock e n < XAA.e_expiresAt en ∨
      clock e n < XAA.e_expiresAt en + IDPJWKSCache.maxStale (IDPJWKSCache.cfg cache))%Z) ∨
  (∃ d k idp w1 w2, seen w w' (d, d) ∧ trusted_idps (xaa d) !! k = Some idp ∧ XAA.idp_Issuer idp = issuer ∧
     IDPJWKSCache.fetchJWKS cache (XAA.JWKSUri idp) e w1 = (Ok keys, w2)).

Lemma GetByIssuer_ok iss e w idp w' :
  IDPStore.GetByIssuer iss e w = (Ok idp, w') → ∃ d k, seen w w' (d, d) ∧
    trusted_idps (xaa d) !! k = Some idp ∧ XAA.idp_Issuer idp = iss.
Proof.
  unfold IDPStore.GetByIssuer. intros H. apply query_seen in H as (now & d & Hd & Hs & _).
  destruct (find_row _ _) as [i'|] eqn:Hf; simplify_eq. apply find_row_Some in Hf as (k & Hk & Hq). unbool. eauto.
Qed.

Lemma GetKeys_ok iss e w keys w' :
  IDPJWKSCache.GetKeys cache iss e w = (Ok keys, w') → keys_for iss e w w' keys.
Proof.
  unfold IDPJWKSCache.GetKeys. intros H. mstep H. mstep H.
  assert (∃ n, a0 = clock e n) as [n ->] by (unfold time_Now in Hm0; simplify_eq; eauto).
  assert (extends w1 w') as X1.
  { refine (traced_extends (S:=db_step) (P:=λ _, True) _ _ _ _ _ _ H). traced. }
  ext_all (λ _ : Audit.Event, True).
  destruct a as [[en|]|x].
  - unfold IDPJWKSCache.Load in Hm. apply query_seen in Hm as (now & d & [= Hl] & Hs & _).
    destruct (IDPJWKSCache.before _ (XAA.e_expiresAt en)) eqn:Hb.
    { apply ret_ok in H as [<- <-]. left. unfold IDPJWKSCache.before in Hb. unbool.
      exists d, en, n. split_and!; [seen_tac|done|done|by left]. }
    mstep H. mstep H. destruct a0 as [ks|x].
    + mstep H. apply ret_ok in H as [<- <-]. right. ext_all (λ _ : Audit.Event, True).
      apply GetByIssuer_ok in Hm as (d' & k & Hd' & Hk & Hi).
      exists d', k, a, w2, w3. split_and!; try done. seen_tac.
    + case_match eqn:Hb2; [|by apply throw_ok in H]. apply ret_ok in H as [<- <-]. left.
      unfold IDPJWKSCache.before in Hb2. unbool. exists d, en, n. split_and!; [seen_tac|done|done|by right].
  - mstep H. mstep H. mstep H. apply ret_ok in H as [<- <-]. right. ext_all (λ _ : Audit.Event, True).
    apply GetByIssuer_ok in Hm1 as (d' & k & Hd' & Hk & Hi). exists d', k, a, w2, w3. split_and!; try done. seen_tac.
  - mstep H. mstep H. mstep H. apply ret_ok in H as [<- <-]. right. ext_all (λ _ : Audit.Event, True).
    apply GetByIssuer_ok in Hm1 as (d' & k & Hd' & Hk & Hi). exists d', k, a, w2, w3. split_and!; try done. seen_tac.
Qed.

Lemma keys_for_sub iss e w w1 w2 w3 keys :
  extends w w1 → extends w1 w2 → extends w2 w3 → keys_for iss e w1 w2 keys → keys_for iss e w w3 keys.
Proof.
  intros X1 X2 X3 [(d & en & n & Hd & ?)|(d & k & idp & v1 & v2 & Hd & ?)]; [left|right].
  - exists d, en, n. split; [seen_tac|done].
  - exists d, k, idp, v1, v2. split; [seen_tac|done].
Qed.

Lemma verifyAssertion_ok req idp maxAge e w ia w' :
  verifyAssertion s cache req idp maxAge e w = (Ok ia, w') → ∃ keys n,
    ia.1 = Issuer (config e) ∧ keys_for (XAA.idp_Issuer idp) e w w' keys ∧
    accepted_assertion (params e) (clock e n) (Assertion req) keys ia.1 ia.2.
Proof.
  unfold verifyAssertion. intros H. mstep H. apply or_deny_jb_ok in Hm. mstep H. mstep H. mstep H.
  unfold ask in Hm1. simplify_eq. destruct (ValidateIDJAG _ _ _ _ _ _) as [a'|x] eqn:Hv;
    [|mstep H; by apply throw_ok in H].
  apply ret_ok in H as [<- <-]. apply ValidateIDJAG_ok in Hv. ext_all (λ _ : Audit.Event, True).
  unfold time_Now in Hm0. simplify_eq. exists a. eexists. split_and!; [done| |exact Hv].
  eapply (keys_for_sub _ _ w w w0); [chain_ext|chain_ext| |by apply GetKeys_ok].
  by exists []; simpl; rewrite !app_nil_r.
Qed.

Definition effective_resource (req : JWTBearerRequest) (a : XAA.IdentityAssertion) : string :=
  if bool_decide (Resource req = "") then XAA.a_Resource a else Resource req.

Lemma reconcile_ok req b a e w r w' :
  reconcile s req b a e w = (Ok r, w') → w = w' ∧ XAA.a_ClientID a = ClientID req ∧
  r = effective_resource req a ∧ (XAA.a_Resource a ≠ "" → r = XAA.a_Resource a) ∧ (b = true → r ≠ "").
Proof.
  unfold reconcile, effective_resource. intros H. mstep H. apply check_jb_ok in Hm as [Hc ->].
  mstep H. apply check_jb_ok in Hm as [Hr ->]. mstep H. apply check_jb_ok in Hm as [Hq ->].
  apply ret_ok in H as [<- <-]. split_and!; try done; [by unbool| |].
  - intros Hne. destruct (bool_decide (Resource req = "")) eqn:He; [done|].
    rewrite (bool_decide_eq_false_2 _ Hne) in Hr. simpl in Hr. by unbool.
  - intros -> He. rewrite bool_decide_eq_true_2 in Hq; done.
Qed.

(** The step that spends an assertion. *)

Definition spends (a : XAA.IdentityAssertion) (x : DB * DB) : Prop :=
  assertion_jtis (xaa x.1) !! XAA.a_JTI a = None ∧
  assertion_jtis (xaa x.2) !! XAA.a_JTI a = Some (jtiExpiry a).

Lemma consumeAssertion_ok req a e w u w' :
  consumeAssertion s req a e w = (Ok u, w') → ∃ x, seen w w' x ∧ spends a x.
Proof.
  unfold consumeAssertion. intros H. mstep H. destruct a0 as [v|y]; [|by apply deny_jb_ok in H].
  apply ret_ok in H as [_ ->]. unfold AssertionJTIStore.ConsumeJTI in Hm.
  apply store_seen in Hm as (now & d & d' & Hd & Hs & _). exists (d, d'). split; [done|].
  case_match eqn:Hj; simplify_eq. split; [done|]. simpl. by rewrite lookup_insert_eq.
Qed.

End steps.
End JBSteps.

Module JBGrant.
Import JB JBSteps JWTBearerService.

(** The three bounds on the scopes before the policy: none of them is ever
    exceeded, and the set is empty only for a request of blanks. *)

Lemma bearerScope_ok clientScope assertionScope requested sc :
  bearerScope clientScope assertionScope requested = inl sc →
  sc ⊆ Scope.Parse clientScope ∧
  (assertionScope ≠ "" → sc ⊆ Scope.Parse assertionScope) ∧
  (requested ≠ "" → sc = Scope.Parse requested) ∧
  (sc = ∅ → requested ≠ "" ∧ Scope.Parse requested = ∅).
Proof.
  unfold bearerScope. case_match eqn:Hc; [done|]. apply Scope.IsEmpty_false in Hc.
  set (bounded := if bool_decide (assertionScope ≠ "") then _ else _).
  assert (bounded ⊆ Scope.Parse clientScope ∧ (assertionScope ≠ "" → bounded ⊆ Scope.Parse assertionScope))
    as [Hb1 Hb2].
  { subst bounded. rewrite Scope.Intersect_spec. case_bool_decide; set_solver. }
  case_match eqn:Hi; [done|]. destruct (bool_decide (requested ≠ "")) eqn:Hr; unbool.
  - case_match eqn:Hs; [done|]. intros [= <-]. unbool. apply Scope.IsSubset_spec in Hs. set_solver.
  - intros [= <-]. split_and!; [done|done|done|]. intros He. exfalso. revert He. unfold bounded in *.
    destruct (bool_decide (assertionScope ≠ "")); [|done]. simpl in Hi. by apply Scope.IsEmpty_false in Hi.
Qed.

(** A policy that matches: enabled, with its client and resource lists, and
    the request within its scopes; an empty request takes them all. *)

Record policy_permits (p : XAA.Policy) (clientID resource : string) (asked sc : gset string) : Prop := {
  pp_enabled : XAA.p_Enabled p = true;
  pp_client : XAA.ClientIDs p = [] ∨ clientID ∈ XAA.ClientIDs p;
  pp_resource : XAA.Resources p = [] ∨ resource ∈ XAA.Resources p;
  pp_scopes : ∀ l, XAA.p_Scopes p = Some l → l ≠ [] ∧ sc ⊆ Scope.Parse (strings_Join " " l);
  pp_narrow : asked ≠ ∅ ∨ XAA.p_Scopes p = None → sc = asked
}.

Lemma matchPolicy_ok p c asked r sc :
  XAAPolicyService.matchPolicy p c asked r = Some sc → policy_permits p c r asked sc.
Proof.
  unfold XAAPolicyService.matchPolicy. destruct (XAA.p_Enabled p) eqn:He; [simpl|done].
  assert (∀ l x, andb (bool_decide (0 < length l)) (negb (slices_Contains l x)) = false → l = [] ∨ x ∈ l) as Hl.
  { clear. intros l x Hb. destruct l as [|y l]; [by left|]. right. simpl in Hb.
    destruct (slices_Contains (y :: l) x) eqn:Hc; [|done]. by apply slices_Contains_spec. }
  case_match eqn:Hc; [done|]. case_match eqn:Hr; [done|]. apply Hl in Hc, Hr.
  destruct (XAA.p_Scopes p) as [[|x l]|] eqn:Hs; [done| |intros [= <-]; split; try done; intros; congruence].
  destruct (Scope.IsEmpty asked) eqn:Ha; simpl.
  - apply Scope.IsEmpty_spec in Ha. intros [= <-]. split; try done. intros l' Hl'. rewrite Hs in Hl'.
    by injection Hl' as <-. intros [?|?]; [done|congruence].
  - case_match eqn:Hq; [done|]. intros [= <-]. unbool. apply Scope.IsSubset_spec in Hq.
    split; try done. intros l' Hl'. rewrite Hs in Hl'. by injection Hl' as <-.
Qed.

Section grant.
Context (s : Wiring) (pol : bool).

(** What the policy service said, when it is wired: the first policy of the
    provider that matches. *)

Definition permitted (idpID clientID resource : string) (asked sc : gset string) (w w' : World) : Prop :=
  if pol then ∃ d p k, seen w w' (d, d) ∧ xaa_policies (xaa d) !! k = Some p ∧ XAA.p_IDPID p = idpID ∧
                policy_permits p clientID resource asked sc
  else sc = asked.

Lemma EvaluatePolicy_ok idpID a asked r e w dec w' :
  XAAPolicyService.EvaluatePolicy idpID a asked r e w = (Ok dec, w') → ∃ d p k,
    seen w w' (d, d) ∧ xaa_policies (xaa d) !! k = Some p ∧ XAA.p_IDPID p = idpID ∧
    policy_permits p (XAA.a_ClientID a) r asked (XAAPolicyService.EffectiveScope dec).
Proof.
  unfold XAAPolicyService.EvaluatePolicy. intros H. mstep H.
  pose proof (XAAPolicyService.evaluate_loop_spec a0 (XAA.a_ClientID a) asked r) as Hl.
  destruct (XAAPolicyService.evaluate_loop _ _ _ _) as [sc|]; [|by apply throw_ok in H].
  apply ret_ok in H as [<- <-]. destruct Hl as (l1 & p & l2 & -> & Hp & _).
  unfold XAAPolicyStore.ListByIDP in Hm. apply query_seen in Hm as (now & d & [= Hf] & Hd & _).
  assert (p ∈ l1 ++ p :: l2) as Hin by set_solver. rewrite <-Hf in Hin.
  apply list_elem_of_filter in Hin as [Hi Hin]. apply XAAPolicyStore.elem_of_policy_rows in Hin as [k Hk].
  exists d, p, k. split_and!; try done. by apply matchPolicy_ok.
Qed.

Lemma isKnownResource_ok u e w w' :
  isKnownResource s u e w = (Ok true, w') →
  ∃ d k r, seen w w' (d, d) ∧ resources d !! k = Some r ∧ Resource.URI r = u.
Proof.
  unfold isKnownResource. destruct (has_resources s); simpl; intros H; [|by apply ret_ok in H as [? _]].
  mstep H. apply ret_ok in H as [H <-]. destruct a as [l|x]; [|done].
  apply existsb_exists in H as (i & Hi & Hu). unbool.
  apply CCSteps.registry_List_rows in Hm as (d & Hd & Hl). apply list_elem_of_In in Hi.
  destruct (Hl _ Hi) as (k & r & Hk & ->). exists d, k, r. done.
Qed.

(** The scopes and the resource of the token. *)

Record jb_authorized (req : JWTBearerRequest) (c : Client.Client) (idpID : string) (a : XAA.IdentityAssertion)
    (resource : string) (w w' : World) (sc : gset string) : Prop := {
  ja_scopes : ∃ asked, bearerScope (Client.Scope c) (XAA.a_Scope a) (ReqScope req) = inl asked ∧
    permitted idpID (XAA.a_ClientID a) resource asked sc w w';
  ja_resource : resource ≠ "" → ∃ d k r, seen w w' (d, d) ∧ resources d !! k = Some r ∧ Resource.URI r = resource
}.

Lemma authorizeAssertion_ok req c idpID a r e w sc w' :
  authorizeAssertion s pol req c idpID a r e w = (Ok sc, w') → jb_authorized req c idpID a r w w' sc.
Proof.
  unfold authorizeAssertion. destruct (bearerScope _ _ _) as [asked|[reason x]] eqn:Hb;
    [|intros H; by apply deny_jb_ok in H]. intros H. mstep H.
  assert (extends w w0) as X0.
  { refine (traced_extends (S:=db_step) (P:=jb_event) _ _ _ _ _ _ Hm). traced. apply (traced_isKnownResource _). }
  mstep H. apply check_jb_ok in Hm0 as [-> ->].
  assert (extends w1 w') as X1.
  { refine (traced_extends (S:=db_step) (P:=jb_event) _ _ _ _ _ _ H). traced.
    apply (traced_or_deny_jb _). unfold XAAPolicyService.EvaluatePolicy. traced. }
  split.
  - exists asked. split; [done|]. unfold permitted. destruct pol; [|by apply ret_ok in H as [<- <-]].
    mstep H. apply or_deny_jb_ok in Hm0. apply ret_ok in H as [<- <-].
    apply EvaluatePolicy_ok in Hm0 as (d & p & k & Hd & ? & ? & ?). exists d, p, k. split; [seen_tac|done].
  - intros Hr. rewrite bool_decide_eq_true_2 in Hm by done.
    apply isKnownResource_ok in Hm as (d & k & x & Hd & ? & ?). exists d, k, x. split; [seen_tac|done].
Qed.

(** The subject: the local user of the mapping, who is active, or the pair of
    issuer and subject. *)

Definition subject_of (idpID : string) (a : XAA.IdentityAssertion) (sub : string) (w w' : World) : Prop :=
  sub = XAA.a_Issuer a +:+ ":" +:+ XAA.a_Subject a ∨
  (pol = true ∧ ∃ d k m d' u, seen w w' (d, d) ∧ subject_mappings (xaa d) !! k = Some m ∧
     XAA.m_IDPID m = idpID ∧ XAA.IDPSubject m = XAA.a_Subject a ∧ XAA.LocalUserID m = sub ∧
     seen w w' (d', d') ∧ users d' !! sub = Some u ∧ User.IsActive u = true).

Lemma resolveSubject_ok req idpID mode a e w sub w' :
  resolveSubject s pol req idpID mode a e w = (Ok sub, w') → subject_of idpID a sub w w'.
Proof.
  unfold resolveSubject, subject_of. destruct pol; [|intros H; apply ret_ok in H as [<- _]; by left].
  intros H. mstep H. destruct a0 as [sub'|[]]; try by apply deny_jb_ok in H. apply ret_ok in H as [<- <-].
  unfold SubjectMappingService.ResolveSubject in Hm. mstep Hm. destruct a0 as [m|x].
  - case_bool_decide as Hl; [|apply ret_ok in Hm as [<- _]; by left]. mstep Hm. apply ret_ok in Hm as [<- <-].
    right. split; [done|].
    unfold SubjectMappingService.checkLocalUserActive in Hm1. mstep Hm1. destruct a1 as [u|[]]; try by apply throw_ok in Hm1.
    case_match eqn:Hu; [by apply throw_ok in Hm1|]. apply ret_ok in Hm1 as [_ <-]. unbool.
    ext_all (λ _ : Audit.Event, True). apply UserStore_ok in Hm as (d' & Hd' & Hu').
    unfold SubjectMappingStore.GetMapping in Hm0. apply query_seen in Hm0 as (now & d & Hf & Hd & _).
    destruct (find_row _ _) as [m'|] eqn:Hfr; simplify_eq. apply find_row_Some in Hfr as (k & Hk & Hp).
    unfold SubjectMappingStore.of_pair in Hp. unbool.
    exists d, k, m, d', u. split_and!; try done; seen_tac.
  - case_match; [by apply throw_ok in Hm|]. apply ret_ok in Hm as [<- _]. by left.
Qed.

Lemma issueToken_jb_ok req cfg idpID issuer a resource sc jkt e w resp w' :
  issueToken s pol req cfg idpID issuer a resource sc jkt e w = (Ok resp, w') → ∃ jti now sub,
    let p := machineParams req a sub resource sc jkt now (now + XAATokenExpiry cfg)%Z in
    subject_of idpID a sub w w' ∧ issued_machine e issuer jti p (AccessToken resp) w' ∧
    RespScope resp = Scope.to_String sc ∧ TokenType resp = token_type jkt.
Proof.
  unfold issueToken. intros H. mstep H. mstep H. mstep H. mstep H. mstep H. mstep H.
  apply ret_ok in H as [<- <-]. ext_all jb_event. pose proof Hm3 as Ha. apply audit_quiet in Ha as [Hdb X].
  apply issueMachine_ok in Hm2 as [Ht Hr]. exists a1, a0, a2. split_and!; try done; [|split; [exact Ht|by rewrite Hdb]].
  apply resolveSubject_ok in Hm1. destruct Hm1 as [->|(? & d & k & m & d' & u & Hd & ? & ? & ? & ? & Hd' & ? & ?)]; [by left|].
  right. split; [done|]. exists d, k, m, d', u. split_and!; try done; seen_tac.
Qed.

End grant.
End JBGrant.
