(* ===== verification/MachineTheorems.v ===== *)
(** * Theorems on the machine grants

    The client credentials grant and the JWT bearer grant: what an issued
    token implies, single use of identity assertions, and two places where
    the code does less than its comments say. *)

From S2P Require Import Prelude GoStrings ScopeSet Act Domain Db Effects Crypto Stores Order StoreOrder MintIssuer TokenService TokenProofs Scenario TokenTheorems XAAStores ClientCredentials XAAServices JWTBearer MachineProofs.
Import AgentIdentity MintIssuer MachineIssue.

(** ** The issued token *)

(** A machine token: signed claims for the client and the subject, whose scope
    claim reads back as [sc], and a live row that revocation can reach. *)

Record machine_token (e : Env) (d : DB) (tok subject client resource : string) (sc : gset string)
    (act : option (gmap string json)) : Prop := {
  mt_claims : ∃ c, tok = jws_sign (params e) c ∧ ValidateAccessTokenClaims c = true ∧
    c_Issuer c = Issuer (config e) ∧ c_Subject c = subject ∧ c_ClientID c = client ∧ c_Act c = act ∧
    c_Audience c = [if bool_decide (resource = "") then Issuer (config e) else resource] ∧
    Scope.Parse (c_Scope c) = sc ∧
    ∃ row, machine_tokens d !! c_JTI c = Some row ∧ Machine.Revoked row = false ∧
           Machine.ClientID row = client ∧ Machine.Scopes row = sc
}.

Lemma wf_subset (sc : gset string) s : sc ⊆ Scope.Parse s → Scope.wf sc.
Proof. intros Hs x Hx. by apply (Scope.Parse_wf s), Hs. Qed.

Lemma issued_machine_token e jti p tok w' :
  Scope.wf (m_Scopes p) → issued_machine e (Issuer (config e)) jti p tok w' →
  machine_token e (w_db w') tok (m_Subject p) (m_ClientID p) (m_Resource p) (m_Scopes p) (m_Act p).
Proof.
  intros Hwf [(agent & -> & Hv) Hr]. split. exists (machine_claims (Issuer (config e)) jti p agent).
  split_and!; try done.
  - simpl. by case_bool_decide.
  - simpl. by apply Scope.Parse_to_String.
  - simpl. eauto 10.
Qed.

(** The authorization and the token of a successful run. *)

Lemma exchange_parts s req e w resp w' :
  ClientCredentialsService.Exchange s req e w = (Ok resp, w') → ∃ sc w1,
    ClientCredentialsService.authorizeClient s req e w = (Ok sc, w1) ∧ extends w w1 ∧ extends w1 w' ∧
    machine_token e (w_db w') (AccessToken resp) (ClientCredentialsService.ClientID req)
      (ClientCredentialsService.ClientID req) (ClientCredentialsService.Resource req) sc None ∧
    RespScope resp = Scope.to_String sc.
Proof.
  unfold ClientCredentialsService.Exchange. intros H. mstep H. mstep H. ext_all cc_event.
  pose proof Hm as [(c & _ & _ & Hsc) _ _]%CCSteps.authorizeClient_ok.
  apply CCSteps.issueToken_cc_ok in H as (jti & now & Hi & Hrs & _).
  apply issued_machine_token in Hi; [|by eapply wf_subset].
  exists a, w0. split_and!; [done|done|chain_ext|exact Hi|done].
Qed.

(** A client credentials token is deserved.  When the grant answers with a
    token, the run found the client active and confidential, with the
    presented secret and the grant type; the scopes of the token are within
    the client's registered scopes, are exactly those asked for when any were,
    and, when a resource is named, are non-empty and all in the catalog of a
    registered resource with this URI.  The token is for the client itself and
    its audience is the resource (the server without one), and its row is in
    the machine-token table, live, for revocation to find. *)
Theorem client_credentials_sound s req e w resp w' :
  ClientCredentialsService.Exchange s req e w = (Ok resp, w') → ∃ sc,
    CCSteps.cc_authorized req e w w' sc ∧
    machine_token e (w_db w') (AccessToken resp) (ClientCredentialsService.ClientID req)
      (ClientCredentialsService.ClientID req) (ClientCredentialsService.Resource req) sc None ∧
    RespScope resp = Scope.to_String sc.
Proof.
  intros (sc & w1 & H & X1 & X2 & Ht & Hr)%exchange_parts. exists sc. split_and!; try done.
  apply CCSteps.authorizeClient_ok in H as [(c & Hcl & Hg & Hsc) Hre He]. split; [exists c; split_and!; try done| |done].
  - eapply (authenticated_sub _ _ _ w w w1); [chain_ext|chain_ext|chain_ext|done].
  - intros Hne. destruct (Hre Hne) as (? & d & k & r & Hd & ?). split; [done|].
    exists d, k, r. split; [seen_tac|done].
Qed.

(** ** A concrete server *)

Module MachineRuns.
Import Scenario.

Definition svc : Client.Client :=
  {| Client.ID := "svc"; Client.SecretHash := "bc:sec"; Client.Name := "Service";
     Client.RedirectURIs := [];
     Client.GrantTypes := ["client_credentials"; JWTBearerService.GrantTypeJWTBearer];
     Client.ResponseTypes := []; Client.TokenEndpointAuthMethod := "client_secret_post";
     Client.Status := Client.StatusActive; Client.RegistrationSource := Client.SourceAdmin;
     Client.CIMDURL := ""; Client.ApplicationType := ""; Client.Scope := "read write";
     Client.IsAgent := false; Client.AgentDescription := ""; Client.Version := 1;
     Client.IssuedAt := start; Client.UpdatedAt := start |}.

Definition policy (scopes : option (list string)) : XAA.Policy :=
  XAA.MkPolicy "p1" "main" "i1" [] scopes [] true start start.

Definition tables (scopes : option (list string)) : XAATables :=
  MkXAA {["i1" := XAA.MkIDP "i1" "Acme" "https://idp" "https://idp/jwks" "https://as" true start start]}
    {["p1" := policy scopes]}
    {["m1" := XAA.MkMapping "m1" "i1" "bob" "alice" start]} ∅ ∅.

Definition db (scopes : option (list string)) : DB :=
  MkDB {["svc" := svc]} {["alice" := alice]} ∅ ∅ ∅ ∅ ∅ ∅ ∅ {["res1" := api]} ∅ ∅ ∅ ∅ ∅ ∅ (tables scopes) ∅.

Definition world (scopes : option (list string)) : World := MkWorld (db scopes) 0 [] [].

Definition wired : Wiring := MkWiring true true true true true.

Definition cache : IDPJWKSCache.Deps :=
  IDPJWKSCache.MkDeps (λ _, mret [XAA.MkJWK "k1" "idp-key"]) (IDPJWKSCache.MkConfig 3600 86400).

#[global] Instance cache_ok : IDPJWKSCache.CacheDeps cache.
Proof. intros uri S P HS. apply traced_ret. Qed.

Definition cc_req : ClientCredentialsService.ClientCredentialsRequest :=
  ClientCredentialsService.MkRequest "svc" "sec" "read" "https://api" "" "" "".

Definition cc_run : res MachineResponse * World :=
  ClientCredentialsService.Exchange wired cc_req env (world None).

Definition jb_req (scope : string) : JWTBearerService.JWTBearerRequest :=
  JWTBearerService.MkRequest "jag" "svc" "sec" scope "https://api" "" "" "".

Definition jb_run (scope : string) (scopes : option (list string)) : res MachineResponse * World :=
  JWTBearerService.GrantJWTBearer wired true cache (jb_req scope) env (world scopes).

Definition jb_again : res MachineResponse * World :=
  JWTBearerService.GrantJWTBearer wired true cache (jb_req "read") env (jb_run "read" None).2.

Lemma db_wf scopes : wf_db (db scopes).
Proof. split; simpl; try done. Qed.

Lemma json_ok : JBSteps.json_consistent (params env).
Proof.
  intros raw t a. simpl. case_bool_decide; [|done]. intros [= <-] [= <-]. done.
Qed.

Lemma cc_run_ok : Runs.ok cc_run.1 = true.
Proof. by vm_compute. Qed.

Lemma jb_run_ok : Runs.ok (jb_run "read" None).1 = true.
Proof. by vm_compute. Qed.

End MachineRuns.

(** ** The JWT bearer grant *)

Module JBTheory.
Import JBSteps JBGrant JWTBearerService.

(** What a token of the grant implies: the client [c], the trusted provider
    [idp] and the accepted assertion [a]; [asked] are the scopes within the
    bounds of the client, the assertion and the request, [sc] the scopes of
    the token and [sub] its subject. *)

Record bearer_authorized (pol : bool) (cache : IDPJWKSCache.Deps) (req : JWTBearerRequest) (e : Env)
    (w w' : World) (c : Client.Client) (idp : XAA.TrustedIDP) (a : XAA.IdentityAssertion) (sub : string)
    (asked sc : gset string) : Prop := {
  ba_client : authenticated e (ClientID req) (ClientSecret req) w w' c;
  ba_grant : GrantTypeJWTBearer ∈ Client.GrantTypes c;
  ba_idp : trusted e (Assertion req) w w' idp;
  ba_assertion : ∃ keys n, keys_for cache (XAA.idp_Issuer idp) e w w' keys ∧
    accepted_assertion (params e) (clock e n) (Assertion req) keys (Issuer (config e)) a;
  ba_addressee : XAA.a_ClientID a = ClientID req;
  ba_issuer : XAA.a_Issuer a = XAA.idp_Issuer idp;
  ba_spent : ∃ x, seen w w' x ∧ spends a x;
  ba_bounds : asked ⊆ Scope.Parse (Client.Scope c) ∧
    (XAA.a_Scope a ≠ "" → asked ⊆ Scope.Parse (XAA.a_Scope a)) ∧
    (ReqScope req ≠ "" → asked = Scope.Parse (ReqScope req)) ∧
    (asked = ∅ → ReqScope req ≠ "" ∧ Scope.Parse (ReqScope req) = ∅);
  ba_policy : permitted pol (XAA.idp_ID idp) (ClientID req) (effective_resource req a) asked sc w w';
  ba_resource : effective_resource req a ≠ "" → ∃ d k r, seen w w' (d, d) ∧ resources d !! k = Some r ∧
    Resource.URI r = effective_resource req a;
  ba_subject : subject_of pol (XAA.idp_ID idp) a sub w w'
}.

Section weaken.
Context (w w1 w2 w3 : World) (X1 : extends w w1) (X2 : extends w1 w2) (X3 : extends w2 w3).

Lemma trusted_sub e raw idp : trusted e raw w1 w2 idp → trusted e raw w w3 idp.
Proof. intros (? & ? & d & k & Hd & ?). split_and!; try done. exists d, k. split; [seen_tac|done]. Qed.

Lemma permitted_sub pol i c r asked sc : permitted pol i c r asked sc w1 w2 → permitted pol i c r asked sc w w3.
Proof.
  unfold permitted. destruct pol; [|done]. intros (d & p & k & Hd & ?). exists d, p, k. split; [seen_tac|done].
Qed.

Lemma subject_of_sub pol i a sub : subject_of pol i a sub w1 w2 → subject_of pol i a sub w w3.
Proof.
  intros [->|(? & d & k & m & d' & u & Hd & ? & ? & ? & ? & Hd' & ? & ?)]; [by left|right]. split; [done|].
  exists d, k, m, d', u. split_and!; try done; seen_tac.
Qed.

End weaken.

(** The scopes stay words of a scope string. *)

Lemma permitted_wf pol i c r asked sc w w' :
  Scope.wf asked → permitted pol i c r asked sc w w' → Scope.wf sc.
Proof.
  unfold permitted. intros Hwf. destruct pol; [|by intros ->]. intros (d & p & k & _ & _ & _ & Hp).
  destruct (XAA.p_Scopes p) as [l|] eqn:Hs; [|by rewrite (pp_narrow _ _ _ _ _ Hp) by auto].
  destruct (pp_scopes _ _ _ _ _ Hp _ Hs) as [_ ?]. by eapply wf_subset.
Qed.

Lemma bearer_run s pol cache {HC : IDPJWKSCache.CacheDeps cache} req e w resp w' :
  json_consistent (params e) → GrantJWTBearer s pol cache req e w = (Ok resp, w') → ∃ c idp a sub asked sc,
    bearer_authorized pol cache req e w w' c idp a sub asked sc ∧
    machine_token e (w_db w') (AccessToken resp) sub (ClientID req) (effective_resource req a) sc
      (Some {["sub" := JStr (XAA.a_Issuer a)]}) ∧
    RespScope resp = Scope.to_String sc.
Proof.
  unfold GrantJWTBearer. intros HJ H. mstep H. mstep H. mstep H. mstep H.
  destruct a1 as [issuer a']. mstep H. mstep H. mstep H. mstep H. ext_all jb_event.
  apply acceptClient_ok in Hm as [Hc Hg]. pose proof Hm0 as Ht. apply trustedIssuer_ok in Ht.
  apply (verifyAssertion_ok _ _ (HC:=HC)) in Hm1 as (keys & n & Hi & Hk & Ha). simpl in Hi, Ha. subst issuer.
  apply reconcile_ok in Hm2 as (<- & Hadr & -> & _).
  apply consumeAssertion_ok in Hm3 as (x & Hx & Hsp).
  apply authorizeAssertion_ok in Hm4 as [(asked & Hb & Hp) Hr].
  apply issueToken_jb_ok in H as (jti & now & sub & Hsub & Him & Hrs & _).
  apply bearerScope_ok in Hb as (Hb1 & Hb2 & Hb3 & Hb4).
  exists a, a0, a', sub, asked, a3. rewrite Hadr in Hp.
  apply issued_machine_token in Him; [|by eapply permitted_wf, Hp; eapply wf_subset].
  split_and!; [|exact Him|done].
  repeat match goal with H : extends ?v ?v |- _ => clear H end. split; try done.
  - eapply authenticated_sub; [| | |exact Hc]; chain_ext.
  - eapply trusted_sub; [| | |exact Ht]; chain_ext.
  - exists keys, n. split; [|done]. eapply keys_for_sub; [| | |exact Hk]; chain_ext.
  - destruct Ht as (_ & Hx1 & _). destruct (aa_parsed _ _ _ _ _ _ Ha) as (t & Hq & Hcl & _).
    unfold extractIssuerFromJWT in Hx1. rewrite Hq, (HJ _ _ _ Hq Hcl) in Hx1. by case_bool_decide; simplify_eq.
  - exists x. split; [seen_tac|done].
  - eapply permitted_sub; [| | |exact Hp]; chain_ext.
  - intros Hne. destruct (Hr Hne) as (d & k & r & Hd & ?). exists d, k, r. split; [seen_tac|done].
  - eapply subject_of_sub; [| | |exact Hsub]; chain_ext.
Qed.

End JBTheory.

(** C9: a JWT bearer token is deserved.  The run found the client active and
    confidential, with its secret and the grant type; the assertion carries
    the signature of a key of the enabled provider its issuer names, is
    addressed to this server and to this client, is unexpired, and its jti was
    unused and is recorded.  The scopes of the token are the requested ones
    within the registered scopes of the client and the scopes of the assertion
    (for a scope parameter that is not blank), a policy of the provider allows
    them, the resource is registered, and the subject is the active local user
    of the provider's mapping or the pair of issuer and subject.  The token
    names the provider as actor. *)
Theorem jwt_bearer_sound s pol cache {HC : IDPJWKSCache.CacheDeps cache} req e w resp w' :
  JBSteps.json_consistent (params e) →
  JWTBearerService.GrantJWTBearer s pol cache req e w = (Ok resp, w') → ∃ c idp a sub asked sc,
    JBTheory.bearer_authorized pol cache req e w w' c idp a sub asked sc ∧
    (JWTBearerService.ReqScope req = "" ∨ Scope.Parse (JWTBearerService.ReqScope req) ≠ ∅ →
     sc = asked ∧ sc ≠ ∅ ∧ sc ⊆ Scope.Parse (Client.Scope c)) ∧
    machine_token e (w_db w') (AccessToken resp) sub (JWTBearerService.ClientID req)
      (JBSteps.effective_resource req a) sc (Some {["sub" := JStr (XAA.a_Issuer a)]}) ∧
    RespScope resp = Scope.to_String sc.
Proof.
  intros HJ H. destruct (JBTheory.bearer_run _ _ _ _ _ _ _ _ HJ H) as (c & idp & a & sub & asked & sc & Hb & Ht & Hr).
  exists c, idp, a, sub, asked, sc. split_and!; try done. intros Hs.
  destruct (JBTheory.ba_bounds _ _ _ _ _ _ _ _ _ _ _ _ Hb) as (H1 & _ & _ & H4).
  assert (asked ≠ ∅) as Hne by (intros He; destruct (H4 He); naive_solver).
  pose proof (JBTheory.ba_policy _ _ _ _ _ _ _ _ _ _ _ _ Hb) as Hp.
  assert (sc = asked) as ->; [|done]. unfold JBGrant.permitted in Hp. destruct pol; [|done].
  destruct Hp as (d & p & k & _ & _ & _ & Hp). apply (JBGrant.pp_narrow _ _ _ _ _ Hp). by left.
Qed.

Lemma jwt_bearer_sound_witness : ∃ resp, (MachineRuns.jb_run "read" None).1 = Ok resp ∧
  RespScope resp = "read" ∧ ∃ c idp a sub asked sc,
    JBTheory.bearer_authorized true MachineRuns.cache (MachineRuns.jb_req "read") Scenario.env
      (MachineRuns.world None) (MachineRuns.jb_run "read" None).2 c idp a sub asked sc.
Proof.
  destruct (run_ok (MachineRuns.jb_run "read" None) MachineRuns.jb_run_ok) as [resp H].
  exists resp. split; [by rewrite H|].
  assert (RespScope <$> (match (MachineRuns.jb_run "read" None).1 with Ok r => Some r | Err _ => None end)
          = Some "read") as Hs by (by vm_compute). rewrite H in Hs. simpl in Hs. injection Hs as Hs. split; [done|].
  destruct (jwt_bearer_sound MachineRuns.wired true MachineRuns.cache (MachineRuns.jb_req "read") Scenario.env
    (MachineRuns.world None) resp (MachineRuns.jb_run "read" None).2 MachineRuns.json_ok H)
    as (c & idp & a & sub & asked & sc & Hb & _). eauto 10.
Defined.

Lemma client_credentials_sound_witness : ∃ resp sc, MachineRuns.cc_run.1 = Ok resp ∧
  machine_token Scenario.env (w_db MachineRuns.cc_run.2) (AccessToken resp) "svc" "svc" "https://api" sc None.
Proof.
  destruct (run_ok MachineRuns.cc_run MachineRuns.cc_run_ok) as [resp H].
  destruct (client_credentials_sound MachineRuns.wired MachineRuns.cc_req Scenario.env (MachineRuns.world None)
    resp MachineRuns.cc_run.2 H) as (sc & _ & Ht & _).
  exists resp, sc. split; [by rewrite H|exact Ht].
Defined.

(** ** Single use of assertions *)

Lemma bearer_spends s pol cache {HC : IDPJWKSCache.CacheDeps cache} req e w resp w' :
  JWTBearerService.GrantJWTBearer s pol cache req e w = (Ok resp, w') → ∃ t a x,
    jag_parse (params e) (JWTBearerService.Assertion req) = Some t ∧ j_claims t = Some a ∧
    seen w w' x ∧ JBSteps.spends a x.
Proof.
  unfold JWTBearerService.GrantJWTBearer. intros H. mstep H. mstep H. mstep H. mstep H.
  destruct a1 as [issuer a']. mstep H. mstep H. ext_all jb_event.
  assert (extends w4 w') as X by
    (refine (traced_extends (S:=db_step) (P:=jb_event) _ _ _ _ _ _ H); traced).
  apply (JBSteps.verifyAssertion_ok _ _ (HC:=HC)) in Hm1 as (keys & n & _ & _ & Ha).
  apply JBSteps.reconcile_ok in Hm2 as (<- & _). apply JBSteps.consumeAssertion_ok in Hm3 as (x & Hx & Hs).
  destruct (aa_parsed _ _ _ _ _ _ Ha) as (t & Ht & Hc & _). exists t, a', x. split_and!; try done.
  repeat match goal with H : extends ?v ?v |- _ => clear H end. seen_tac.
Qed.

(** C10: an identity assertion buys one token.  Two requests present
    assertions with the same jti, to any servers on the same tables; their
    store calls and those of other requests are interleaved in one history in
    which every step respects the security order.  If the first is answered
    with a token, the second is an error. *)
Theorem assertion_single_use s1 s2 pol1 pol2 cache1 cache2
    {HC1 : IDPJWKSCache.CacheDeps cache1} {HC2 : IDPJWKSCache.CacheDeps cache2}
    req1 req2 e1 e2 w1 w2 resp1 r2 w1' w2' t1 t2 a1 a2 d0 dn g :
  jag_parse (params e1) (JWTBearerService.Assertion req1) = Some t1 → j_claims t1 = Some a1 →
  jag_parse (params e2) (JWTBearerService.Assertion req2) = Some t2 → j_claims t2 = Some a2 →
  XAA.a_JTI a1 = XAA.a_JTI a2 →
  wf_db d0 → history db_step d0 g dn → merge (own_steps w1 w1') (own_steps w2 w2') g →
  JWTBearerService.GrantJWTBearer s1 pol1 cache1 req1 e1 w1 = (Ok resp1, w1') →
  JWTBearerService.GrantJWTBearer s2 pol2 cache2 req2 e2 w2 = (r2, w2') →
  ∃ x, r2 = Err x.
Proof.
  intros Ht1 Hc1 Ht2 Hc2 Hj Hwf Hh Hm H1 H2. destruct r2 as [resp2|x]; [exfalso|by eauto].
  apply (bearer_spends _ _ _ (HC:=HC1)) in H1 as (t & a & x & ? & ? & Hx & Hx1 & Hx2).
  apply (bearer_spends _ _ _ (HC:=HC2)) in H2 as (t' & a' & y & ? & ? & Hy & Hy1 & Hy2). simplify_eq.
  eapply (claimed_once (λ d, assertion_jtis (xaa d)) (XAA.a_JTI a1) d0 dn g _ _ x y); eauto; try done.
  - by intros ?? [].
  - by rewrite Hj.
  - rewrite Hj. eauto.
Qed.

Lemma assertion_single_use_witness : ∃ x, MachineRuns.jb_again.1 = Err x.
Proof.
  destruct (run_ok (MachineRuns.jb_run "read" None) MachineRuns.jb_run_ok) as [resp H1].
  set (w1 := (MachineRuns.jb_run "read" None).2) in *.
  assert (JWTBearerService.GrantJWTBearer MachineRuns.wired true MachineRuns.cache (MachineRuns.jb_req "read")
            Scenario.env (MachineRuns.world None) = (Ok resp, w1)) as H1' by exact H1.
  assert (JWTBearerService.GrantJWTBearer MachineRuns.wired true MachineRuns.cache (MachineRuns.jb_req "read")
            Scenario.env w1 = (MachineRuns.jb_again.1, MachineRuns.jb_again.2)) as H2
    by exact (surjective_pairing MachineRuns.jb_again).
  pose proof (runs_history _ _ _ _ _ _ _ _ _
    (JB.traced_GrantJWTBearer MachineRuns.wired true MachineRuns.cache (MachineRuns.jb_req "read"))
    (JB.traced_GrantJWTBearer MachineRuns.wired true MachineRuns.cache (MachineRuns.jb_req "read"))
    (Scenario.env_rely db_step []) H1' H2) as Hh.
  set (t := MkParsed "oauth-id-jag+jwt" "k1" (Some "https://idp") (Some Scenario.assertion)).
  assert (jag_parse (params Scenario.env) "jag" = Some t) as Ht by (by vm_compute).
  exact (assertion_single_use MachineRuns.wired MachineRuns.wired true true MachineRuns.cache MachineRuns.cache
    (MachineRuns.jb_req "read") (MachineRuns.jb_req "read") Scenario.env Scenario.env
    (MachineRuns.world None) w1 resp MachineRuns.jb_again.1 w1 MachineRuns.jb_again.2 t t
    Scenario.assertion Scenario.assertion (w_db (MachineRuns.world None)) _ _ Ht eq_refl Ht eq_refl eq_refl
    (MachineRuns.db_wf None) Hh (merge_app _ _) H1' H2).
Defined.

(** A replay record outlives its assertion.  When a purge at the instant
    [t] deletes the record of an assertion with expiry [exp] (before the year
    10000), the assertion is no longer accepted at [t] or later, whatever the
    keys, the audience and the maximal age: purging never makes a spent
    assertion usable again. *)
Theorem purged_assertion_expired p t now raw keys aud maxAge a d :
  (0 <= XAA.a_Expiry a <= 253402300739)%Z →
  assertion_jtis (xaa d) !! XAA.a_JTI a = Some (JWTBearerService.jtiExpiry a) →
  assertion_jtis (xaa (AssertionJTIStore.purge t d)) !! XAA.a_JTI a = None → (t <= now)%Z →
  ValidateIDJAG p now raw keys aud maxAge ≠ inl a.
Proof.
  intros He Hd Hp Hn Hv. apply ValidateIDJAG_ok in Hv as [_ _ _ _ _ Hf].
  assert (SqlTime.text_lt (JWTBearerService.jtiExpiry a) t = true) as Hlt.
  { destruct (SqlTime.text_lt (JWTBearerService.jtiExpiry a) t) eqn:E; [done|].
    assert (assertion_jtis (xaa (AssertionJTIStore.purge t d)) !! XAA.a_JTI a = Some (JWTBearerService.jtiExpiry a));
      [|congruence]. apply lookup_delete_rows. done. }
  apply SqlTime.text_lt_skew in Hlt. unfold JWTBearerService.jtiExpiry, SqlTime.nano in Hlt.
  rewrite int64_small in Hf by (unfold clockSkew; lia). unfold Unix, SqlTime.nano, clockSkew in Hf.
  pose proof (Z.div_mod now 1000000000). pose proof (Z.mod_pos_bound now 1000000000). lia.
Qed.

Lemma purged_assertion_expired_witness :
  ValidateIDJAG (params Scenario.env) (2062 * SqlTime.nano)%Z "jag" [XAA.MkJWK "k1" "idp-key"] "https://as" 0
    ≠ inl Scenario.assertion.
Proof.
  apply (purged_assertion_expired (params Scenario.env) (2062 * SqlTime.nano)%Z _ _ _ _ _ Scenario.assertion
           (w_db (MachineRuns.jb_run "read" None).2)); [simpl; lia|by vm_compute|by vm_compute|lia].
Defined.

(** ** Where the code does less than it says *)

(** A blank scope parameter escapes the ceilings.  The request's scope is
    a space: it parses to nothing, so it is within every bound, and the policy
    then supplies its own maximum.  The token carries [admin], which is
    neither among the registered scopes of the client nor in the assertion,
    while asking for [admin] by name is refused. *)
Theorem blank_scope_takes_policy_maximum :
  let scopes := Some ["read"; "admin"] in
  (∃ resp, (MachineRuns.jb_run " " scopes).1 = Ok resp ∧ "admin" ∈ Scope.Parse (RespScope resp)) ∧
  ("admin" ∉ Scope.Parse (Client.Scope MachineRuns.svc)) ∧
  ("admin" ∉ Scope.Parse (XAA.a_Scope Scenario.assertion)) ∧
  (MachineRuns.jb_run "admin" scopes).1 = Err ErrInvalidScope.
Proof.
  split_and!.
  - eexists. split; [by vm_compute|]. eapply bool_decide_unpack. by vm_compute.
  - eapply bool_decide_unpack. by vm_compute.
  - eapply bool_decide_unpack. by vm_compute.
  - by vm_compute.
Qed.

(** An explicit empty scope list means "no scope permitted" to the
    evaluation, but the store keeps it as NULL: the policy that denied
    everything permits everything once it is stored. *)
Theorem deny_all_policy_is_lost p t clientID resource asked :
  XAA.p_Scopes p = Some [] → XAA.p_Enabled p = true →
  XAA.ClientIDs p = [] → XAA.Resources p = [] →
  XAAPolicyService.matchPolicy p clientID asked resource = None ∧
  XAAPolicyService.matchPolicy (XAAPolicyStore.stored p t) clientID asked resource = Some asked.
Proof.
  intros Hs He Hc Hr. unfold XAAPolicyService.matchPolicy, XAAPolicyStore.stored. simpl.
  rewrite Hs, He, Hc, Hr. done.
Qed.
