(* ===== verification/MachineRefinement.v ===== *)
(** * The client credentials grant implements its specification

    [entitled] says, on the tables alone, which scopes a request is entitled
    to.  On a server that serves no other request and whose stores answer, the
    handler issues exactly to the entitled requests, and the tables change by
    the rows of the token and nothing else. *)

From S2P Require Import Prelude GoStrings ScopeSet Act Domain Db Effects Crypto Stores Order StoreOrder MintIssuer TokenService TokenProofs Scenario TokenTheorems XAAStores ClientCredentials XAAServices JWTBearer MachineProofs MachineTheorems.
Import AgentIdentity MintIssuer MachineIssue ClientCredentialsService.

(** ** The specification *)

(** The largest set of scopes for a request: the client's registered scopes,
    and of those the ones the named resource declares. *)

Definition bound (d : DB) (req : ClientCredentialsRequest) (c : Client.Client) : option (gset string) :=
  let ceiling := Scope.Parse (Client.Scope c) in
  if bool_decide (Resource req = "") then Some ceiling
  else match find (λ r, bool_decide (Resource.URI r = Resource req)) (ResourceStore.by_slug d) with
       | None => None
       | Some r => Some (ceiling ∩ list_to_set (Resource.scope_names r))
       end.

Record entitled (p : Params) (d : DB) (req : ClientCredentialsRequest) (sc : gset string) : Prop := {
  en_id : ClientID req ≠ "";
  en_client : ∃ c b, clients d !! ClientID req = Some c ∧ Client.IsPublic c = false ∧
    authentic p c (ClientSecret req) ∧ "client_credentials" ∈ Client.GrantTypes c ∧
    bound d req c = Some b ∧ sc ⊆ b ∧
    sc = (if bool_decide (Scope.Parse (ReqScope req) = ∅) then b else Scope.Parse (ReqScope req));
  en_scoped : Resource req ≠ "" → sc ≠ ∅
}.

(** A request is entitled to at most one set of scopes. *)

Lemma entitled_fun p d req sc sc' : entitled p d req sc → entitled p d req sc' → sc = sc'.
Proof.
  intros [_ (c & b & ? & _ & _ & _ & ? & _ & ->) _] [_ (c' & b' & ? & _ & _ & _ & ? & _ & ->) _].
  simplify_eq. done.
Qed.

(** ** A server that serves one request *)

Record calm (e : Env) : Prop := {
  calm_fault : fault_free e;
  calm_alone : ∀ n d, interfere e n d = d
}.

Lemma store_calm {A} (f : Z → DB → res A * DB) e w : calm e →
  store f e w = ((f (clock e (w_tick w)) (w_db w)).1,
    after w (f (clock e (w_tick w)) (w_db w)).2 [(w_db w, (f (clock e (w_tick w)) (w_db w)).2)]).
Proof. intros [Hf Ha]. unfold store. rewrite Hf, Ha. by destruct (f _ _). Qed.

Lemma query_calm {A} (f : Z → DB → res A) e w : calm e →
  query f e w = (f (clock e (w_tick w)) (w_db w), after w (w_db w) [(w_db w, w_db w)]).
Proof. intros Hc. unfold query. by rewrite store_calm. Qed.

Lemma provider_calm {A} (f : Env → A) e w : calm e → provider f e w = (Ok (f e), after w (w_db w) []).
Proof. intros [Hf _]. by apply provider_run. Qed.

(** [answers m e w r]: the run answers [r] and leaves the tables. *)

Definition answers {A} (m : M A) (e : Env) (w : World) (r : res A) : Prop :=
  ∃ w', m e w = (r, w') ∧ w_db w' = w_db w.

Lemma answers_ret {A} (a : A) e w : answers (mret a) e w (Ok a).
Proof. by exists w. Qed.

Lemma answers_throw {A} x e w : answers (throw x : M A) e w (Err x).
Proof. by exists w. Qed.

Lemma answers_query {A} (f : Z → DB → res A) e w : calm e →
  answers (query f) e w (f (clock e (w_tick w)) (w_db w)).
Proof. intros Hc. eexists. by rewrite query_calm. Qed.

Lemma answers_try {A} (m : M A) e w r : answers m e w r → answers (try m) e w (Ok r).
Proof. intros (w' & H & Hd). exists w'. split; [by apply try_run|done]. Qed.

Lemma answers_bind {A B} (m : M A) (k : A → M B) e w a r :
  answers m e w (Ok a) → (∀ w', w_db w' = w_db w → answers (k a) e w' r) → answers (m ≫= k) e w r.
Proof.
  intros (w1 & H1 & Hd1) Hk. destruct (Hk w1 Hd1) as (w2 & H2 & Hd2).
  exists w2. split; [by erewrite bind_step|congruence].
Qed.

Lemma answers_stop {A B} (m : M A) (k : A → M B) e w x : answers m e w (Err x) → answers (m ≫= k) e w (Err x).
Proof. intros (w1 & H1 & Hd1). exists w1. split; [by eapply bind_stop|done]. Qed.

Lemma answers_audit b ev e w : answers (record_audit b ev) e w (Ok tt).
Proof. destruct (audit_run b ev e w) as (w' & H & Hd & _). by exists w'. Qed.

Section authorize.
Context (s : Wiring) (e : Env) (Hcalm : calm e) (Hres : has_resources s = true).

Lemma answers_deny {A} c reason x w : answers (deny s c reason x : M A) e w (Err x).
Proof. unfold deny. eapply answers_bind; [apply answers_audit|]. intros. apply answers_throw. Qed.

Lemma answers_or_deny {A} c reason (m : M A) w r : answers m e w r → answers (or_deny s c reason m) e w r.
Proof.
  intros Hm. unfold or_deny. eapply answers_bind; [by apply answers_try|]. intros w' _.
  destruct r; [apply answers_ret|apply answers_deny].
Qed.

(** The client that authenticates with this request. *)

Definition caller (d : DB) (id secret : string) (c : Client.Client) : Prop :=
  id ≠ "" ∧ clients d !! id = Some c ∧ Client.IsPublic c = false ∧ authentic (params e) c secret.

Lemma authenticateClient_calm id secret w : ∃ r, answers (authenticateClient id secret) e w r ∧
  match r with
  | Ok c => caller (w_db w) id secret c
  | Err x => ErrorCode x = "invalid_client" ∧ ∀ c, ¬ caller (w_db w) id secret c
  end.
Proof.
  unfold authenticateClient, caller, authentic.
  destruct (bool_decide (id = "")) eqn:Hi; unbool; simpl.
  { eexists. split; [apply answers_throw|]. split; [done|]. naive_solver. }
  destruct (bool_decide (secret = "")) eqn:Hs; unbool; simpl.
  { eexists. split; [apply answers_throw|]. split; [done|]. intros c (_ & _ & Hp & _ & Ha). rewrite Hp in Ha. naive_solver. }
  unfold ClientStore.GetByID. pose proof (answers_try _ _ w _ (answers_query (λ _ d, match clients d !! id with
    | Some c => Ok c | None => Err ErrInvalidClient end) e w Hcalm)) as Hq.
  destruct (clients (w_db w) !! id) as [c|] eqn:Hc.
  - exists (if negb (Client.IsActive c) then Err ErrClientSuspended
            else if Client.IsPublic c then Err ErrInvalidClient
            else if negb (CompareClientSecret (params e) (Client.SecretHash c) secret) then Err ErrInvalidClient
            else Ok c). split.
    + eapply answers_bind; [exact Hq|]. intros w1 Hw1. eapply answers_bind; [by exists w1|]. intros w2 Hw2.
      repeat case_match; try apply answers_throw. apply answers_ret.
    + destruct (Client.IsActive c) eqn:Ha; simpl; [|split; [done|]; intros c' (_ & Hc' & _ & Hx & _); congruence].
      destruct (Client.IsPublic c) eqn:Hp; simpl; [split; [done|]; intros c' (_ & Hc' & Hx & _); congruence|].
      destruct (CompareClientSecret _ _ _) eqn:Hcs; simpl; [by rewrite Hp|].
      split; [done|]. intros c' (_ & Hc' & _ & _ & Hx). simplify_eq. rewrite Hp in Hx. destruct Hx. congruence.
  - exists (Err ErrInvalidClient). split; [|split; [done|]; by intros c' (_ & ? & _)].
    eapply answers_bind; [exact Hq|]. intros w1 Hw1. apply answers_throw.
Qed.

(** The catalog of the named resource. *)

Definition catalog_of (d : DB) (req : ClientCredentialsRequest) : res (gset string) :=
  if bool_decide (Resource req = "") then Ok ∅
  else match find (λ r, bool_decide (Resource.URI r = Resource req)) (ResourceStore.by_slug d) with
       | None => Err ErrInvalidTarget
       | Some r => Ok (Scope.New (Resource.scope_names r))
       end.

Lemma find_infos uri l :
  find (λ i, bool_decide (ResourceRegistry.URI i = uri)) (ResourceRegistry.resourceToInfo <$> l) =
  ResourceRegistry.resourceToInfo <$> find (λ r, bool_decide (Resource.URI r = uri)) l.
Proof. induction l as [|r l IH]; simpl; [done|]. by case_bool_decide. Qed.

Lemma resolveCatalog_calm req w : answers (resolveCatalog s req) e w (catalog_of (w_db w) req).
Proof.
  unfold resolveCatalog, catalog_of. case_bool_decide; [apply answers_ret|].
  eapply (answers_bind _ _ _ _ (ResourceRegistry.resourceToInfo <$>
    find (λ r, bool_decide (Resource.URI r = Resource req)) (ResourceStore.by_slug (w_db w)))).
  - unfold lookupResource. rewrite Hres. simpl. unfold ResourceRegistry.List.
    eapply (answers_bind _ _ _ _ (ResourceRegistry.resourceToInfo <$> ResourceStore.by_slug (w_db w))).
    + rewrite <-ResourceStore.list_rows_all. eapply answers_bind.
      { exact (answers_query (λ _ d, Ok (ResourceStore.list_rows ResourceStore.no_filter d)) e w Hcalm). }
      intros. apply answers_ret.
    + intros w' _. rewrite <-find_infos. apply answers_ret.
  - intros w' Hw'. destruct (find _ _); simpl; [apply answers_ret|apply answers_deny].
Qed.

End authorize.

(** ** The scope rule decides its specification *)

Lemma scope_decision c requested (hasResource : bool) (catalog : gset string) :
  let ceiling := Scope.Parse (Client.Scope c) in
  let b := if hasResource then ceiling ∩ catalog else ceiling in
  let sc := if bool_decide (Scope.Parse requested = ∅) then b else Scope.Parse requested in
  match clientCredentialsScope c requested hasResource catalog with
  | inl sc' => sc' = sc ∧ sc ⊆ b ∧ (hasResource = true → sc ≠ ∅)
  | inr x => ErrorCode x = "invalid_scope" ∧ ¬ (sc ⊆ b ∧ (hasResource = true → sc ≠ ∅))
  end.
Proof.
  intros ceiling b sc. destruct (clientCredentialsScope c requested hasResource catalog) as [sc'|x] eqn:H.
  - apply CCSteps.clientCredentialsScope_ok in H as (Hc & Hr & Ha & He). subst sc b ceiling.
    case_bool_decide as Hq.
    + rewrite (He Hq) in *. destruct hasResource; naive_solver.
    + rewrite (Ha Hq) in *. destruct hasResource; [|naive_solver]. destruct (Hr eq_refl). set_solver.
  - unfold clientCredentialsScope in H. subst sc b. fold ceiling in H.
    destruct (Scope.IsEmpty (Scope.Parse requested)) eqn:Hi; simpl in H.
    + apply Scope.IsEmpty_spec in Hi. rewrite bool_decide_eq_true_2 by done.
      destruct hasResource; [|done]. simpl in H. rewrite Scope.Intersect_spec in H.
      destruct (Scope.IsEmpty (ceiling ∩ catalog)) eqn:Hj; [|done]. apply Scope.IsEmpty_spec in Hj.
      split; [by repeat case_match; simplify_eq|]. naive_solver.
    + apply Scope.IsEmpty_false in Hi. rewrite bool_decide_eq_false_2 by done.
      destruct (Scope.IsSubset (Scope.Parse requested) ceiling) eqn:Hs; simpl in H.
      * destruct hasResource; [|done]. simpl in H.
        destruct (Scope.IsSubset (Scope.Parse requested) catalog) eqn:Ht; [done|]. simpl in H. simplify_eq.
        split; [done|]. apply Scope.IsSubset_false in Ht. set_solver.
      * apply Scope.IsSubset_false in Hs. simplify_eq. split; [done|]. destruct hasResource; set_solver.
Qed.

(** The bound of the specification, in the terms of the handler. *)

Lemma bound_catalog d req c :
  bound d req c = match catalog_of d req with
                  | Err _ => None
                  | Ok cat => Some (if bool_decide (Resource req ≠ "") then Scope.Parse (Client.Scope c) ∩ cat
                                    else Scope.Parse (Client.Scope c))
                  end.
Proof.
  unfold bound, catalog_of. destruct (bool_decide (Resource req = "")) eqn:Hr; unbool.
  - by rewrite bool_decide_eq_false_2 by naive_solver.
  - destruct (find _ _) as [r|]; [|done]. rewrite bool_decide_eq_true_2 by done. f_equal. apply set_eq. intros x.
    rewrite !elem_of_intersection, elem_of_list_to_set, Scope.elem_of_New.
    pose proof (Scope.Parse_wf (Client.Scope c)) as Hw. split; [|naive_solver].
    intros [Hx ?]. specialize (Hw x Hx) as [? _]. done.
Qed.

Definition refusal_codes : list string := ["invalid_client"; "unauthorized_client"; "invalid_target"; "invalid_scope"].

Lemma authorizeClient_calm s e req w : calm e → has_resources s = true → ∃ r,
  answers (authorizeClient s req) e w r ∧
  match r with
  | Ok sc => entitled (params e) (w_db w) req sc
  | Err x => ErrorCode x ∈ refusal_codes ∧ ∀ sc, ¬ entitled (params e) (w_db w) req sc
  end.
Proof.
  intros Hcalm Hres. unfold authorizeClient.
  destruct (authenticateClient_calm s e Hcalm Hres (ClientID req) (ClientSecret req) w) as ([c|x] & Ha & Hc).
  2: { destruct Hc as [Hx Hc]. exists (Err x). split; [by apply answers_stop, answers_or_deny|].
       split; [rewrite Hx; set_solver|]. intros sc [? (c & b & ? & ? & ? & _) _]. by apply (Hc c). }
  destruct Hc as (Hid & Hc & Hp & Hau).
  destruct (hasGrantType (Client.GrantTypes c) "client_credentials") eqn:Hg.
  2: { exists (Err ErrUnauthorizedClient). split.
       - eapply answers_bind; [by apply answers_or_deny|]. intros w1 _. rewrite Hg.
         apply answers_stop, answers_deny.
       - split; [set_solver|]. intros sc [_ (c' & b & ? & _ & _ & Hgt & _) _]. simplify_eq.
         apply hasGrantType_spec in Hgt. congruence. }
  pose proof (bound_catalog (w_db w) req c) as Hb.
  pose proof (resolveCatalog_calm s e Hcalm Hres req) as Hcat.
  assert (∀ r, (∀ w', w_db w' = w_db w → answers
      (cat ← resolveCatalog s req;
       match clientCredentialsScope c (ReqScope req) (bool_decide (Resource req ≠ "")) cat with
       | inr x => deny s (ClientID req) "invalid_scope" x
       | inl scopes => mret scopes
       end) e w' r) → answers (authorizeClient s req) e w r) as Hgo.
  { intros r Hr. unfold authorizeClient. eapply answers_bind; [by apply answers_or_deny|]. intros w1 Hw1. rewrite Hg.
    eapply answers_bind; [apply answers_ret|]. intros w2 Hw2. apply Hr. congruence. }
  destruct (catalog_of (w_db w) req) as [cat|x] eqn:Hco.
  2: { exists (Err x). split.
       - apply Hgo. intros w' Hw'. apply answers_stop. rewrite <-Hco, <-Hw'. apply Hcat.
       - assert (x = ErrInvalidTarget) as -> by (unfold catalog_of in Hco; repeat case_match; congruence).
         split; [set_solver|]. intros sc [_ (c' & b & ? & _ & _ & _ & Hb' & _) _]. by simplify_eq. }
  pose proof (scope_decision c (ReqScope req) (bool_decide (Resource req ≠ "")) cat) as Hd. cbv zeta in Hd.
  destruct (clientCredentialsScope _ _ _ _) as [sc|x] eqn:Hs.
  - exists (Ok sc). split.
    + apply Hgo. intros w' Hw'. eapply answers_bind; [rewrite <-Hco, <-Hw'; apply Hcat|]. intros w2 _. rewrite Hs.
      apply answers_ret.
    + destruct Hd as (-> & Hsub & Hne). split; [done| |intros Hr; apply Hne; by rewrite bool_decide_eq_true_2].
      eexists c, _. split_and!; try done. by apply hasGrantType_spec.
  - exists (Err x). split.
    + apply Hgo. intros w' Hw'. eapply answers_bind; [rewrite <-Hco, <-Hw'; apply Hcat|]. intros w2 _. rewrite Hs.
      apply answers_deny.
    + destruct Hd as [Hx Hd]. split; [rewrite Hx; set_solver|]. intros sc [_ (c' & b & ? & _ & _ & _ & Hb' & Hsub & ->) Hne].
      simplify_eq. apply Hd. split; [done|]. intros Hr. unbool. by apply Hne.
Qed.

(** ** Issuing *)

(** A jti no stored token has. *)

Definition fresh (d : DB) (jti : string) : Prop :=
  jti ≠ "" ∧ machine_tokens d !! jti = None ∧ issuances d !! jti = None ∧
  ∀ k i, issuances d !! k = Some i → Issuance.JTI i ≠ jti.

(** The rows of the token and nothing else. *)

Definition issued_rows (jti : string) (p : MachineParams) (d d' : DB) : Prop :=
  ∃ t, d' = set_machine (<[jti := machine_row jti p]> (machine_tokens d)) (set_issuances t d) ∧
       (t = issuances d ∨ ∃ agent res, t = <[jti := machine_issuance jti p agent res]> (issuances d)).

Section issue.
Context (s : Wiring) (e : Env) (Hcalm : calm e).

Lemma Resolve_calm v w : ∃ r, answers (ResourceRegistry.Resolve v) e w r ∧
  ∀ res, r = Ok res → ∃ k, resources (w_db w) !! k = Some res.
Proof.
  unfold ResourceRegistry.Resolve.
  assert (answers (ResourceStore.Resolve v) e w
    (if bool_decide (v = "") then Ok [] else Ok (take 2 (ResourceStore.matching v (w_db w))))) as Hq
    by exact (answers_query (λ _ d, if bool_decide (v = "") then Ok []
                                    else Ok (take 2 (ResourceStore.matching v d))) e w Hcalm).
  assert (∃ l, answers (ResourceStore.Resolve v) e w (Ok l) ∧
    ∀ x, x ∈ l → ∃ k, resources (w_db w) !! k = Some x) as (l & Hl & Hin).
  { case_bool_decide.
    - exists []. split; [exact Hq|]. by intros ? ?%not_elem_of_nil.
    - eexists. split; [exact Hq|]. intros x Hx.
      assert (x ∈ ResourceStore.matching v (w_db w)) as Hm by (by eapply subseteq_take).
      apply list_elem_of_filter in Hm as [_ Hm]. apply list_elem_of_fmap in Hm as ([k x'] & -> & Hk).
      apply elem_of_map_to_list in Hk. eauto. }
  destruct l as [|x [|y l]]; eexists; (split; [eapply answers_bind; [exact Hl|]; intros|]);
    try apply answers_throw; try apply answers_ret; try done.
  intros res [= <-]. apply Hin. set_solver.
Qed.

Lemma logIssuance_calm jti p agent w :
  keyed Resource.ID (resources (w_db w)) → fresh (w_db w) jti → ∃ w' t,
    logIssuance s jti p agent e w = (Ok tt, w') ∧ w_db w' = set_issuances t (w_db w) ∧
    (t = issuances (w_db w) ∨ ∃ res, t = <[jti := machine_issuance jti p agent res]> (issuances (w_db w))).
Proof.
  intros Hk (Hne & _ & Hi & Hj). unfold logIssuance.
  assert (∀ d, set_issuances (issuances d) d = d) as Hid by (by intros []).
  destruct (andb _ _).
  - destruct (Resolve_calm (m_Resource p) w) as (r & (w1 & Hr & Hw1) & Hres).
    rewrite (bind_step _ _ _ _ _ _ (try_run _ _ _ _ _ Hr)). destruct r as [res|x].
    + destruct (Hres res eq_refl) as [k Hkr]. unfold IssuanceStore.Insert. rewrite store_calm by done. simpl.
      rewrite Hw1. rewrite bool_decide_eq_false_2 by (rewrite Hi; by intros []).
      rewrite bool_decide_eq_false_2 by (rewrite (Hk _ _ Hkr), Hkr; done).
      rewrite bool_decide_eq_false_2.
      * simpl. eexists _, _. split; [done|]. simpl. eauto.
      * intros [i Hf]. apply find_row_Some in Hf as (k' & Hk' & Heq). apply sql_eq_spec in Heq as [_ Heq].
        by apply (Hj _ _ Hk').
    + exists w1, (issuances (w_db w)). rewrite Hid. eauto.
  - exists w, (issuances (w_db w)). rewrite Hid. eauto.
Qed.

Lemma issueMachine_calm issuer jti p c w :
  clients (w_db w) !! m_ClientID p = Some c →
  (∀ agent, ValidateAccessTokenClaims (machine_claims issuer jti p agent) = true) →
  keyed Resource.ID (resources (w_db w)) → fresh (w_db w) jti → ∃ tok w',
    issueMachine s issuer jti p e w = (Ok tok, w') ∧ issued_rows jti p (w_db w) (w_db w').
Proof.
  intros Hc Hv Hk Hf. unfold issueMachine.
  assert (∃ agent w1, attachAgent s (m_ClientID p) (m_Act p) e w = (Ok agent, w1) ∧ w_db w1 = w_db w)
    as (agent & w1 & H1 & Hw1).
  { unfold attachAgent. destruct (has_agentIdentity s); [|by eexists _, w].
    pose proof (answers_query (λ _ d, match clients d !! m_ClientID p with
      | Some c => Ok c | None => Err ErrInvalidClient end) e w Hcalm) as (w1 & Hq & Hd). rewrite Hc in Hq.
    eexists _, w1. split; [by erewrite bind_step|done]. }
  rewrite (bind_step _ _ _ _ _ _ H1). unfold SignAccessToken. rewrite Hv.
  rewrite (bind_step _ _ _ _ _ _ (provider_calm _ _ _ Hcalm)). set (w2 := after w1 (w_db w1) []).
  assert (w_db w2 = w_db w) as Hw2 by done. clearbody w2.
  destruct (logIssuance_calm jti p agent w2) as (w3 & t & H3 & Hw3 & Ht); [by rewrite Hw2..|].
  rewrite (bind_step _ _ _ _ _ _ H3). unfold MachineTokenStore.Save. unfold mbind at 1, M_bind at 1.
  rewrite Hw2 in Hw3, Ht.
  rewrite store_calm by done. simpl. rewrite Hw3. simpl.
  destruct Hf as (_ & Hm & _). rewrite bool_decide_eq_false_2 by (rewrite Hm; by intros []).
  rewrite bool_decide_eq_false_2 by (by rewrite Hc). simpl. eexists _, _. split; [done|]. simpl.
  exists t. split; [done|]. naive_solver.
Qed.

End issue.

(** ** The refinement *)

(** A server that serves this request alone: its calls answer, its random
    strings are new jtis, its clock is past the first second of 1970. *)

Record serving (e : Env) (d : DB) : Prop := {
  sv_calm : calm e;
  sv_fresh : ∀ n, fresh d (rand e n);
  sv_issuer : Issuer (config e) ≠ "";
  sv_clock : ∀ n, (SqlTime.nano <= clock e n)%Z;
  sv_expiry : (0 <= ClientCredentialsTokenExpiry (config e))%Z;
  sv_resources : keyed Resource.ID (resources d)
}.

Lemma Unix_positive t : (SqlTime.nano <= t)%Z → Unix t ≠ 0%Z.
Proof.
  unfold Unix, SqlTime.nano. intros Ht.
  pose proof (Z.div_mod t 1000000000). pose proof (Z.mod_pos_bound t 1000000000). lia.
Qed.

Lemma issueToken_calm s e req sc c w :
  serving e (w_db w) → ClientID req ≠ "" → clients (w_db w) !! ClientID req = Some c → ∃ resp w' jti now,
    issueToken s req sc "" e w = (Ok resp, w') ∧ RespScope resp = Scope.to_String sc ∧
    issued_rows jti (machineParams req sc "" now (now + ClientCredentialsTokenExpiry (config e))) (w_db w) (w_db w').
Proof.
  intros [Hc Hf Hi Hk Hx Hr] Hid Hcl. unfold issueToken.
  rewrite (bind_step _ _ _ _ _ _ (provider_calm _ _ _ Hc)). unfold time_Now, GenerateRandomString.
  unfold mbind at 1, M_bind at 1. unfold mbind at 1, M_bind at 1.
  rewrite (bind_step _ _ _ _ _ _ (provider_calm _ _ _ Hc)), (bind_step _ _ _ _ _ _ (provider_calm _ _ _ Hc)).
  set (now := clock e _). set (jti := rand e _). set (expiry := (now + _)%Z).
  set (v := after _ _ _). assert (w_db v = w_db w) as Hv by done. clearbody v.
  destruct (issueMachine_calm s e Hc (Issuer (config e)) jti (machineParams req sc "" now expiry) c v)
    as (tok & w1 & H1 & Hrows); try rewrite Hv; try done; [|apply Hf|].
  { intros agent. unfold ValidateAccessTokenClaims. simpl.
    pose proof (Hk (w_tick (after w (w_db w) []))) as Hnow. fold now in Hnow.
    assert (jti ≠ "") as Hj by apply (Hf _).
    assert (Unix expiry ≠ 0%Z ∧ Unix now ≠ 0%Z) as [Hu1 Hu2]
      by (split; apply Unix_positive; unfold expiry; lia).
    rewrite (bool_decide_eq_false_2 _ Hi), (bool_decide_eq_false_2 _ Hid), (bool_decide_eq_false_2 _ Hj),
      (bool_decide_eq_false_2 _ Hu1), (bool_decide_eq_false_2 _ Hu2).
    destruct (bool_decide (Resource req = "")) eqn:Hq; [by rewrite bool_decide_eq_false_2|by rewrite Hq]. }
  rewrite (bind_step _ _ _ _ _ _ H1).
  match goal with |- context [record_audit ?b ?ev] => destruct (audit_run b ev e w1) as (w2 & H2 & Hw2 & _) end.
  rewrite (bind_step _ _ _ _ _ _ H2). eexists _, w2, jti, now. split; [done|]. split; [done|].
  by rewrite Hw2, <-Hv.
Qed.


Lemma runs_serving : serving Scenario.env (MachineRuns.db None).
Proof.
  split; try done.
  - intros n. simpl. unfold Scenario.start, SqlTime.nano. lia.
  - intros k r. simpl. rewrite lookup_singleton_Some. by intros [<- <-].
Qed.

