(* ===== verification/MachineRevocation.v ===== *)
(** * A machine token can be revoked by its client

    The composition of three endpoints: a token of the client credentials
    grant, presented by its client to the revocation endpoint, is inactive at
    the introspection endpoint from then on. *)

From S2P Require Import Prelude GoStrings ScopeSet Act Domain Db Effects Crypto Stores Order StoreOrder MintIssuer TokenService TokenProofs Scenario TokenTheorems Introspection IntrospectionTheorems Revocation RevocationTheorems XAAStores ClientCredentials XAAServices JWTBearer MachineProofs MachineTheorems MachineRefinement.
Import MachineIssue.

(** The value is not a refresh token. *)

Definition no_refresh (h : string) (d : DB) : Prop :=
  ∀ k t, refresh_tokens d !! k = Some t → Refresh.TokenHash t ≠ h.

(** Other requests respect the order, leave the client registry alone and
    issue no refresh token with this hash. *)

Definition bystanders (h : string) (d d' : DB) : Prop := clients_kept d d' ∧ (no_refresh h d → no_refresh h d').

#[export] Instance bystanders_preorder h : PreOrder (bystanders h).
Proof. split; [by split|]. intros x y z [? ?] [? ?]. split; [by etrans|auto]. Qed.

Lemma rely_bystanders h e : rely (bystanders h) e → rely clients_kept e.
Proof. intros HR n d. apply HR. Qed.

Definition row_revoked (jti : string) (d : DB) : Prop :=
  ∃ mt, machine_tokens d !! jti = Some mt ∧ Machine.Revoked mt = true.

Lemma row_revoked_le jti d d' : db_le d d' → row_revoked jti d → row_revoked jti d'.
Proof.
  intros Hle (mt & Hk & Hr). destruct (le_machine _ _ Hle _ _ Hk) as (mt' & Hk' & [->| ->]); unfold row_revoked; eauto.
Qed.

Section revoke.
Import RevocationService.
Context (s : Wiring) (e : Env) (Hff : fault_free e) (HR : rely db_step e).

Lemma MachineRevoke_run jti w : wf_db (w_db w) → is_Some (machine_tokens (w_db w) !! jti) → ∃ w',
  MachineTokenStore.Revoke jti e w = (Ok tt, w') ∧ row_revoked jti (w_db w').
Proof.
  intros Hwf [mt Hmt]. destruct (MachineTokenStore.Revoke jti e w) as [r w'] eqn:H.
  apply (store_result _ _ _ _ _ Hff) in H as (n & d & Hd & -> & Hw). exists w'. split; [done|].
  destruct (Hd _ HR Hwf) as [_ Hle]. destruct (le_machine _ _ Hle _ _ Hmt) as (mt' & Hmt' & _).
  rewrite Hw. simpl. exists (Machine.revoke mt'). simpl. by rewrite lookup_alter_eq, Hmt'.
Qed.

Lemma tryRevoke_run req claims w :
  has_machine s = true → wf_db (w_db w) → c_ClientID claims = ClientID req →
  (∀ n, VerifyAccessTokenWithIssuer (params e) (clock e n) (Token req) (Issuer (config e)) = Some claims) →
  is_Some (machine_tokens (w_db w) !! c_JTI claims) → ∃ w',
    tryRevokeMachineToken s req e w = (Ok tt, w') ∧ row_revoked (c_JTI claims) (w_db w').
Proof.
  intros Hh Hwf Hc Hv Hrow. unfold tryRevokeMachineToken. rewrite Hh. simpl.
  rewrite (bind_step _ _ _ _ _ _ (try_run _ _ _ _ _ (provider_run _ _ _ Hff))).
  rewrite (bind_step _ _ _ _ _ _ (try_run _ _ _ _ _ (provider_run _ _ _ Hff))).
  unfold time_Now, ask. unfold mbind at 1, M_bind at 1. unfold mbind at 1, M_bind at 1.
  rewrite Hv, bool_decide_eq_false_2 by (rewrite Hc; auto).
  match goal with |- context [mbind _ (try (MachineTokenStore.Revoke _)) e ?v] =>
    destruct (MachineRevoke_run (c_JTI claims) v Hwf Hrow) as (w1 & H1 & Hrev) end.
  rewrite (bind_step _ _ _ _ _ _ (try_run _ _ _ _ _ H1)).
  match goal with |- context [record_audit ?b ?ev] => destruct (audit_run b ev e w1) as (w2 & H2 & Hw2 & _) end.
  exists w2. rewrite Hw2. done.
Qed.

End revoke.

Lemma RevokeToken_machine s req e w c claims :
  fault_free e → rely (bystanders (HashSHA256 (params e) (RevocationService.Token req))) e → wf_db (w_db w) →
  no_refresh (HashSHA256 (params e) (RevocationService.Token req)) (w_db w) →
  clients (w_db w) !! RevocationService.ClientID req = Some c →
  admitted_caller (params e) c (RevocationService.ClientSecret req) →
  RevocationService.has_machine s = true → c_ClientID claims = RevocationService.ClientID req →
  (∀ n, VerifyAccessTokenWithIssuer (params e) (clock e n) (RevocationService.Token req) (Issuer (config e)) = Some claims) →
  is_Some (machine_tokens (w_db w) !! c_JTI claims) → ∃ w',
    RevocationService.RevokeToken s req e w = (Ok tt, w') ∧ row_revoked (c_JTI claims) (w_db w').
Proof.
  intros Hff HB Hwf Hno Hc Ha Hh Hid Hv Hrow. pose proof (rely_clients_kept _ (rely_bystanders _ _ HB)) as HR.
  unfold RevocationService.RevokeToken.
  destruct (ClientStore.GetByID (RevocationService.ClientID req) e w) as [rc w1] eqn:H1.
  db_after (λ _ : Audit.Event, True) H1 using HR Hwf as Hwf1 Hle1.
  pose proof H1 as (n & d & Hd & Hrc & Hw)%(store_result _ _ _ _ _ Hff). simpl in *. subst d.
  destruct (Hd _ HB) as [[_ Hcl] Hno1]. rewrite Hcl, Hc in Hrc. subst rc.
  rewrite (bind_step _ _ _ _ _ _ (try_run _ _ _ _ _ H1)), (bind_step _ _ _ _ (params e) w1) by done.
  rewrite admitted_gate by done. unfold RevocationService.revokeOwned. rewrite (bind_step _ _ _ _ (params e) w1) by done.
  destruct (TokenStore.GetRefreshTokenByHash (HashSHA256 (params e) (RevocationService.Token req)) e w1) as [r w2] eqn:H2.
  db_after (λ _ : Audit.Event, True) H2 using HR Hwf1 as Hwf2 Hle2.
  pose proof H2 as (n2 & d2 & Hd2 & Hr2 & Hw2)%(store_result _ _ _ _ _ Hff). simpl in *. subst d2.
  destruct (Hd2 _ HB) as [_ Hno2].
  rewrite (bind_step _ _ _ _ _ _ (try_run _ _ _ _ _ H2)).
  destruct (find_row _ _) as [t|] eqn:Hf; subst r.
  { apply find_row_Some in Hf as (k & Hk & Heq). unbool. exfalso. by apply (Hno2 (Hno1 Hno) _ _ Hk). }
  apply tryRevoke_run; try done. destruct Hrow as [mt Hmt].
  destruct (le_machine _ _ Hle1 _ _ Hmt) as (mt1 & Hmt1 & _).
  destruct (le_machine _ _ Hle2 _ _ Hmt1) as (mt2 & Hmt2 & _). eauto.
Qed.

(** The token determines the jti of its claims. *)

Definition jti_of (p : Params) (tok jti : string) : Prop := ∀ c, jws_sign p c = tok → c_JTI c = jti.

(** C11: a client can revoke the token it obtained.  From well-formed tables,
    with other requests moving them forward, the client credentials grant
    answers with a token.  When later a revocation request of the same, still
    registered client presents that token while it verifies (and is no refresh
    token value), and no call of it fails, then the endpoint answers success
    and every later introspection of the token whose calls do not fail answers
    inactive. *)
Theorem machine_token_revocable s req e w resp w' sr rreq c claims e2 w2 r2 w2' :
  rely db_step e → wf_db (w_db w) → ClientCredentialsService.Exchange s req e w = (Ok resp, w') →
  jti_of (params e) (AccessToken resp) (c_JTI claims) → db_step (w_db w') (w_db w2) →
  RevocationService.Token rreq = AccessToken resp →
  RevocationService.ClientID rreq = ClientCredentialsService.ClientID req →
  c_ClientID claims = ClientCredentialsService.ClientID req →
  fault_free e2 → rely (bystanders (HashSHA256 (params e2) (AccessToken resp))) e2 →
  no_refresh (HashSHA256 (params e2) (AccessToken resp)) (w_db w2) →
  clients (w_db w2) !! RevocationService.ClientID rreq = Some c →
  admitted_caller (params e2) c (RevocationService.ClientSecret rreq) →
  RevocationService.has_machine sr = true →
  (∀ n, VerifyAccessTokenWithIssuer (params e2) (clock e2 n) (AccessToken resp) (Issuer (config e2)) = Some claims) →
  RevocationService.RevokeToken sr rreq e2 w2 = (r2, w2') →
  r2 = Ok tt ∧ ∀ si ireq e3 w3 r3 w3',
    db_step (w_db w2') (w_db w3) → fault_free e3 → rely (steady (c_JTI claims)) e3 →
    IntrospectionService.has_machine si = true →
    jws_open (params e3) (IntrospectionService.Token ireq) = Some claims →
    IntrospectionService.IntrospectToken si ireq e3 w3 = (Ok r3, w3') → r3 = IntrospectionService.Inactive.
Proof.
  intros HR Hwf H Hjti Hst Ht Hid Hcl Hff HB Hno Hc Ha Hh Hv Hrev.
  pose proof H as [Hwf' _]%(traced_db _ _ _ _ _ (CC.traced_CC_Exchange s req)); [|done..].
  apply exchange_parts in H as (sc & _ & _ & _ & _ & [(c0 & Htok & Hval & _ & _ & _ & _ & _ & _ & row & Hrow & _)] & _).
  specialize (Hjti c0 (eq_sym Htok)). rewrite Hjti in Hrow.
  destruct (Hst Hwf') as [Hwf2 Hle2]. rewrite <-Ht in *.
  destruct (RevokeToken_machine sr rreq e2 w2 c claims) as (v & Hrun & Hdone); try done; [by rewrite Hid| |].
  { destruct (le_machine _ _ Hle2 _ _ Hrow) as (row2 & Hrow2 & _). eauto. }
  rewrite Hrev in Hrun. injection Hrun as -> <-. split; [done|].
  intros si ireq e3 w3 r3 w3' Hst3 Hff3 HR3 Hsi Ho Hi.
  pose proof (rely_clients_kept _ (rely_bystanders _ _ HB)) as HR2.
  destruct (traced_db _ _ _ _ _ (traced_RevokeToken sr rreq) Hrev HR2 Hwf2) as [Hwf2' _].
  destruct (Hst3 Hwf2') as [Hwf3 Hle3]. destruct r3 as [|r3]; [done|]. exfalso.
  eapply (revoked_not_active si ireq e3 w3 claims); try done.
  - intros Hj. unfold ValidateAccessTokenClaims in Hval. rewrite Hjti, Hj in Hval.
    by rewrite !orb_true_r in Hval.
  - right. right. split_and!; try done. by eapply row_revoked_le.
Qed.

(** ** A concrete run *)

Module MachineRevocationRuns.

(** The claims of the token of [MachineRuns.cc_run], as they verify later;
    the clock stands. *)

Definition claims : AccessTokenClaims :=
  MkClaims "https://as" "svc" ["https://api"] "svc" "read" "r0004" 1000 1900 1000 None None "" [].

Definition env : Env :=
  let e := Scenario.env_with [("jwt:r0004", claims)] in
  MkEnv (fault e) (λ _, (1100 * SqlTime.nano)%Z) (rand e) (interfere e) (params e) (config e).

Definition wired : RevocationService.Wiring := RevocationService.MkWiring true true true.

Definition req : RevocationService.RevokeRequest := RevocationService.MkRevokeRequest "jwt:r0004" "svc" "sec".

Definition revoked : res unit * World := RevocationService.RevokeToken wired req env MachineRuns.cc_run.2.

Definition ireq : IntrospectionService.IntrospectRequest := IntrospectionService.MkIntrospect "jwt:r0004" "svc" "sec".

Definition introspected : res IntrospectionService.IntrospectResponse * World :=
  IntrospectionService.IntrospectToken (IntrospectionService.MkWiring true true true true true true) ireq env revoked.2.

End MachineRevocationRuns.

Lemma revocation_rely (S : relation DB) `{!PreOrder S} : rely S MachineRevocationRuns.env.
Proof. intros n d. reflexivity. Qed.

Lemma revocation_fault_free : fault_free MachineRevocationRuns.env.
Proof. by intros n. Qed.

Lemma issued : ClientCredentialsService.Exchange MachineRuns.wired MachineRuns.cc_req Scenario.env (MachineRuns.world None)
    = (Ok (MkMachineResponse "jwt:r0004" "Bearer" 900 "read"), MachineRuns.cc_run.2).
Proof.
  assert (MachineRuns.cc_run.1 = Ok (MkMachineResponse "jwt:r0004" "Bearer" 900 "read")) as Hr by (by vm_compute).
  rewrite <-Hr. exact (surjective_pairing MachineRuns.cc_run).
Qed.

Lemma then_revoked : RevocationService.RevokeToken MachineRevocationRuns.wired MachineRevocationRuns.req
  MachineRevocationRuns.env MachineRuns.cc_run.2 = (MachineRevocationRuns.revoked.1, MachineRevocationRuns.revoked.2).
Proof. exact (surjective_pairing MachineRevocationRuns.revoked). Qed.

Lemma then_introspected : ∃ r, IntrospectionService.IntrospectToken (IntrospectionService.MkWiring true true true true true true)
    MachineRevocationRuns.ireq MachineRevocationRuns.env MachineRevocationRuns.revoked.2
  = (Ok r, MachineRevocationRuns.introspected.2) ∧ MachineRevocationRuns.introspected.1 = Ok r.
Proof.
  assert (∃ r, MachineRevocationRuns.introspected.1 = Ok r) as [r Hr] by (eexists; by vm_compute).
  exists r. split; [|done]. rewrite <-Hr. exact (surjective_pairing MachineRevocationRuns.introspected).
Qed.

Lemma machine_token_revocable_witness :
  MachineRevocationRuns.introspected.1 = Ok IntrospectionService.Inactive.
Proof.
  destruct then_introspected as (r & Hr & ->). f_equal.
  refine (proj2 (machine_token_revocable MachineRuns.wired MachineRuns.cc_req Scenario.env (MachineRuns.world None)
    (MkMachineResponse "jwt:r0004" "Bearer" 900 "read") MachineRuns.cc_run.2 MachineRevocationRuns.wired
    MachineRevocationRuns.req MachineRuns.svc MachineRevocationRuns.claims MachineRevocationRuns.env
    MachineRuns.cc_run.2 MachineRevocationRuns.revoked.1 MachineRevocationRuns.revoked.2
    (Scenario.env_rely db_step []) (MachineRuns.db_wf None) issued _ _ eq_refl eq_refl eq_refl
    revocation_fault_free (revocation_rely _) _ _ _ eq_refl _ then_revoked)
    (IntrospectionService.MkWiring true true true true true true) MachineRevocationRuns.ireq
    MachineRevocationRuns.env MachineRevocationRuns.revoked.2 r MachineRevocationRuns.introspected.2
    _ revocation_fault_free (revocation_rely _) eq_refl _ Hr); clear Hr.
  - intros c Hc. injection Hc. auto.
  - reflexivity.
  - intros k t. assert (refresh_tokens (w_db MachineRuns.cc_run.2) = ∅) as -> by (by vm_compute).
    by rewrite lookup_empty.
  - by vm_compute.
  - split; [done|]. right. by vm_compute.
  - intros n. by vm_compute.
  - reflexivity.
  - by vm_compute.
Defined.
