(* ===== verification/ClientValidation.v ===== *)
(** * internal/domain/client/validation.go: what a client may register

    The inputs of a registration, their defaults and their validation.  The
    validation collects every violation; a registration is accepted when
    there is none.  [url_parse] is [net/url.Parse]. *)

From S2P Require Import Prelude GoStrings Domain.

Module ClientValidation.

Record CreateParams := MkParams {
  Name : string;
  RedirectURIs : list string;
  GrantTypes : list string;
  ResponseTypes : list string;
  TokenEndpointAuthMethod : string;
  IsAgent : bool;
  AgentDescription : string
}.

Definition DefaultGrantTypes : list string := ["authorization_code"; "refresh_token"].

Definition Defaults (p : CreateParams) : CreateParams :=
  MkParams (Name p) (RedirectURIs p)
    (if bool_decide (length (GrantTypes p) = 0) then DefaultGrantTypes else GrantTypes p)
    (if bool_decide (length (ResponseTypes p) = 0) then ["code"] else ResponseTypes p)
    (if bool_decide (TokenEndpointAuthMethod p = "") then "none" else TokenEndpointAuthMethod p)
    (IsAgent p) (AgentDescription p).

Definition maxClientNameLength : nat := 255.
Definition maxRedirectURIs : nat := 10.
Definition maxAgentDescriptionLength : nat := 255.

(** The messages of a [ValidationError]. *)

Inductive Violation :=
  | NameRequired | NameTooLong | RedirectRequired | TooManyRedirects
  | RedirectInvalid (uri : string) | RedirectFragment (uri : string) | RedirectNoHost (uri : string)
  | RedirectNotLocal (uri : string) | RedirectNotHTTPS (uri : string)
  | GrantUnsupported (gt : string) | GrantNotEnabled (gt : string)
  | ResponseUnsupported (rt : string) | AuthMethodUnsupported (m : string)
  | DescriptionTooLong.

Definition validGrantTypes : list string :=
  ["authorization_code"; "refresh_token"; "client_credentials";
   "urn:ietf:params:oauth:grant-type:token-exchange"; "urn:ietf:params:oauth:grant-type:jwt-bearer"].

Definition ValidateGrantType (gt : string) : option Violation :=
  if bool_decide (gt ∈ validGrantTypes) then None else Some (GrantUnsupported gt).

Definition ValidateResponseType (rt : string) : option Violation :=
  if bool_decide (rt ≠ "code") then Some (ResponseUnsupported rt) else None.

Definition ValidateAuthMethod (m : string) : option Violation :=
  if bool_decide (m ∈ ["none"; "client_secret_basic"; "client_secret_post"]) then None
  else Some (AuthMethodUnsupported m).

Definition requiresRedirectURI (grantTypes : list string) : bool :=
  existsb (λ gt, orb (bool_decide (gt = "authorization_code")) (bool_decide (gt = "refresh_token"))) grantTypes.

Definition ValidateRedirectURI (url_parse : string → option URL) (uri : string) : option Violation :=
  match url_parse uri with
  | None => Some (RedirectInvalid uri)
  | Some u =>
      if bool_decide (url_Fragment u ≠ "") then Some (RedirectFragment uri)
      else if orb (bool_decide (url_Scheme u = "")) (bool_decide (url_Host u = "")) then Some (RedirectNoHost uri)
      else if bool_decide (url_Scheme u = "http") then
        if Client.isLoopback (url_Hostname u) then None else Some (RedirectNotLocal uri)
      else if bool_decide (url_Scheme u ≠ "https") then Some (RedirectNotHTTPS uri)
      else None
  end.

(** [None] for [enabledGrants] is [nil]: no enforcement. *)

Definition checkGrantTypesEnabled (grantTypes : list string) (enabledGrants : option (list string)) : list Violation :=
  match enabledGrants with
  | None => []
  | Some enabled =>
      omap (λ gt, if bool_decide (gt ∈ enabled) then None
                  else match ValidateGrantType gt with
                       | Some _ => None
                       | None => Some (GrantNotEnabled gt)
                       end) grantTypes
  end.

Definition ValidateGrantTypesEnabled (grantTypes : list string) (enabledGrants : option (list string)) : bool :=
  bool_decide (length (checkGrantTypesEnabled grantTypes enabledGrants) = 0).

Definition one (c : bool) (v : Violation) : list Violation := if c then [v] else [].

(** The empty list is the nil error. *)

Definition ValidateCreateParams (url_parse : string → option URL) (p : CreateParams)
    (enabledGrants : option (list string)) : list Violation :=
  (if bool_decide (strings_Fields (Name p) = []) then [NameRequired]
   else one (bool_decide (maxClientNameLength < String.length (Name p))) NameTooLong) ++
  one (andb (bool_decide (length (RedirectURIs p) = 0)) (requiresRedirectURI (GrantTypes p))) RedirectRequired ++
  one (bool_decide (maxRedirectURIs < length (RedirectURIs p))) TooManyRedirects ++
  omap (ValidateRedirectURI url_parse) (RedirectURIs p) ++
  omap ValidateGrantType (GrantTypes p) ++
  checkGrantTypesEnabled (GrantTypes p) enabledGrants ++
  omap ValidateResponseType (ResponseTypes p) ++
  (if bool_decide (TokenEndpointAuthMethod p ≠ "") then option_list (ValidateAuthMethod (TokenEndpointAuthMethod p)) else []) ++
  one (bool_decide (maxAgentDescriptionLength < String.length (AgentDescription p))) DescriptionTooLong.

(** *** What an accepted registration satisfies *)

Lemma omap_nil {A B} (f : A → option B) l : omap f l = [] → ∀ x, x ∈ l → f x = None.
Proof.
  induction l as [|a l IH]; simpl; [by intros _ x ?%not_elem_of_nil|].
  destruct (f a) eqn:Ha; [done|]. intros H x [->|Hx]%elem_of_cons; auto.
Qed.

(** A redirect target the browser is only ever sent to over TLS, or on the
    user's own machine. *)

Definition safe_redirect (url_parse : string → option URL) (uri : string) : Prop :=
  ∃ u, url_parse uri = Some u ∧ url_Fragment u = "" ∧ url_Host u ≠ "" ∧
    (url_Scheme u = "https" ∨ url_Scheme u = "http" ∧ Client.isLoopback (url_Hostname u) = true).

Lemma ValidateRedirectURI_safe url_parse uri :
  ValidateRedirectURI url_parse uri = None ↔ safe_redirect url_parse uri.
Proof.
  unfold ValidateRedirectURI, safe_redirect. destruct (url_parse uri) as [u|]; [|naive_solver].
  split.
  - intros H. exists u. repeat case_match; unbool; naive_solver.
  - intros (? & [= <-] & Hf & Hh & Hs). rewrite bool_decide_eq_false_2 by auto.
    destruct Hs as [Hs|[Hs Hl]]; rewrite Hs, (bool_decide_eq_false_2 _ Hh); simpl; [done|by rewrite Hl].
Qed.

Record registrable (url_parse : string → option URL) (p : CreateParams) (enabled : option (list string)) : Prop := {
  rg_name : strings_Fields (Name p) ≠ [] ∧ String.length (Name p) ≤ maxClientNameLength;
  rg_redirect : requiresRedirectURI (GrantTypes p) = true → RedirectURIs p ≠ [];
  rg_redirects : length (RedirectURIs p) ≤ maxRedirectURIs;
  rg_safe : ∀ uri, uri ∈ RedirectURIs p → safe_redirect url_parse uri;
  rg_grants : ∀ gt, gt ∈ GrantTypes p → gt ∈ validGrantTypes;
  rg_enabled : ∀ l gt, enabled = Some l → gt ∈ GrantTypes p → gt ∈ l;
  rg_method : TokenEndpointAuthMethod p ∈ [""; "none"; "client_secret_basic"; "client_secret_post"]
}.

Lemma ValidateCreateParams_ok url_parse p enabled :
  ValidateCreateParams url_parse p enabled = [] → registrable url_parse p enabled.
Proof.
  unfold ValidateCreateParams. rewrite !app_nil. intros (Hn & Hr & Hm & Hu & Hg & He & _ & Ha & _).
  pose proof (omap_nil _ _ Hg) as Hg'. split.
  - clear -Hn. unfold one in Hn. repeat case_bool_decide; try done. split; [done|lia].
  - unfold one in Hr. intros Hq. rewrite Hq in Hr. destruct (RedirectURIs p); [done|done].
  - clear -Hm. unfold one in Hm. case_bool_decide; [done|lia].
  - intros uri Hin. apply ValidateRedirectURI_safe. by apply (omap_nil _ _ Hu).
  - intros gt Hin. specialize (Hg' _ Hin). unfold ValidateGrantType in Hg'. by case_bool_decide.
  - intros l gt -> Hin. unfold checkGrantTypesEnabled in He. specialize (omap_nil _ _ He _ Hin) as H. simpl in H.
    rewrite (Hg' _ Hin) in H. by case_bool_decide.
  - case_bool_decide as Hne; [|rewrite Hne; left].
    unfold ValidateAuthMethod in Ha. case_bool_decide; [|done]. by right.
Qed.

End ClientValidation.
