(* ===== verification/Admin.v ===== *)
(** * internal/services/admin.go: administration of clients, users and tokens

    One definition per method of [AdminService].  An edit reads the row,
    changes it and writes it back under the optimistic lock of the store; a
    deletion checks, revokes and deletes in one transaction.  bcrypt, the
    enabled grant types and the bounds of the audit feed are arguments of the
    service, as they are of its constructor; the audit feed is read from the
    rows of its table ([events]). *)

From stdpp Require Import pretty.
From S2P Require Import Prelude GoStrings ScopeSet Act Domain Db Effects Crypto Stores ClientValidation.

(** ** AuditStore.Query (sqlite/audit.go) *)

Module AuditStore.

(** A stored event: the row and its [created_at]. *)

Record Row := MkRow { row_action : string; row_event : Audit.Event; row_CreatedAt : Z }.

Record Filter := MkFilter {
  f_Action : string;
  f_ActorID : string;
  f_ClientID : string;
  f_Limit : Z;
  f_Offset : Z;
  f_SinceUnix : Z;
  f_UntilUnix : Z
}.

Definition matches (f : Filter) (r : Row) : bool :=
  andb (orb (bool_decide (f_Action f = "")) (bool_decide (row_action r = f_Action f)))
    (andb (orb (bool_decide (f_ActorID f = "")) (bool_decide (Audit.ActorID (row_event r) = f_ActorID f)))
      (andb (orb (bool_decide (f_ClientID f = "")) (bool_decide (Audit.ClientID (row_event r) = f_ClientID f)))
        (andb (orb (bool_decide (f_SinceUnix f <= 0)%Z)
                 (negb (SqlTime.text_lt (row_CreatedAt r) (f_SinceUnix f * SqlTime.nano))))
           (orb (bool_decide (f_UntilUnix f <= 0)%Z)
              (negb (SqlTime.text_lt (f_UntilUnix f * SqlTime.nano) (row_CreatedAt r))))))).

Definition newest_first (a b : Row) : Prop := SqlTime.text_lt (row_CreatedAt a) (row_CreatedAt b) = false.

#[global] Instance newest_first_dec : RelDecision newest_first.
Proof. intros a b. unfold newest_first. apply _. Defined.

(** OFFSET without LIMIT does not parse. *)

Definition Query (events : list Row) (f : Filter) : res (list Row) :=
  let rows := merge_sort newest_first (filter (λ r, matches f r = true) events) in
  if bool_decide (0 < f_Limit f)%Z then Ok (take (Z.to_nat (f_Limit f)) (drop (Z.to_nat (f_Offset f)) rows))
  else if bool_decide (0 < f_Offset f)%Z then Err EFault
  else Ok rows.

End AuditStore.

Module AdminService.

Record Wiring := MkWiring {
  has_machineTokens : bool;
  has_revocation : bool;
  has_txManager : bool;
  has_audit : bool
}.

Record CreateClientRequest := MkCreateClient {
  cc_Name : string;
  cc_RedirectURIs : list string;
  cc_GrantTypes : list string;
  cc_ResponseTypes : list string;
  cc_TokenEndpointAuthMethod : string;
  cc_Scope : string;
  cc_IsAgent : bool;
  cc_AgentDescription : string
}.

(** [None] is a nil pointer. *)

Record UpdateClientRequest := MkUpdateClient {
  uc_Name : option string;
  uc_RedirectURIs : option (list string);
  uc_GrantTypes : option (list string);
  uc_Scope : option string
}.

Record CreateUserRequest := MkCreateUser {
  cu_Email : string;
  cu_Name : string;
  cu_Password : string;
  cu_IsAdmin : bool
}.

Record UpdateUserRequest := MkUpdateUser { uu_Email : option string; uu_Name : option string }.

Record TokenView := MkTokenView {
  tv_JTI : string;
  tv_Type : string;
  tv_ClientID : string;
  tv_UserID : string;
  tv_Scope : string;
  tv_Resource : string;
  tv_Status : string;
  tv_CreatedAt : Z;
  tv_ExpiresAt : option Z
}.

Record AuditFilter := MkAuditFilter {
  af_Action : string;
  af_ActorID : string;
  af_ClientID : string;
  af_Since : option Z;
  af_Until : option Z;
  af_Limit : Z;
  af_Offset : Z
}.

Record DashboardStats := MkStats {
  TotalClients : nat;
  ActiveClients : nat;
  TotalUsers : nat;
  TokensIssuedToday : nat;
  TokensRevokedToday : nat
}.

Section service.
Variable s : Wiring.

(** [bcrypt.GenerateFromPassword]; [None] is its error. *)

Variable HashBcrypt : string → option string.

(** The enabled-grants provider: [None] is no provider; its own answer may be
    nil. *)

Variable grantsProvider : option (option (list string)).

(** The provider of the audit bounds (default and maximal lookback). *)

Variable auditQueryCfg : option (Z * Z).

Definition audit (a : Audit.Action) (clientID detail : string) : M unit :=
  record_audit (has_audit s) (Audit.NewEvent a "admin" clientID "" detail).

(** ** Clients *)

(** services/enabled_grants.go *)

Definition resolveEnabledGrants : M (option (list string)) :=
  match grantsProvider with
  | None => mret None
  | Some g => provider (λ _, g)
  end.

Definition validate (p : ClientValidation.CreateParams) : M unit :=
  enabled ← resolveEnabledGrants;
  up ← ask (λ e, url_parse (params e));
  ensure (bool_decide (length (ClientValidation.ValidateCreateParams up p enabled) = 0)) ErrInvalidClient.

Definition hashSecret (plain : string) : M string :=
  p ← ask params;
  match HashClientSecret p HashBcrypt plain with
  | Some h => mret h
  | None => throw EFault
  end.

Definition createParams (req : CreateClientRequest) : ClientValidation.CreateParams :=
  ClientValidation.Defaults
    (ClientValidation.MkParams (cc_Name req) (cc_RedirectURIs req) (cc_GrantTypes req) (cc_ResponseTypes req)
       (cc_TokenEndpointAuthMethod req) (cc_IsAgent req) (cc_AgentDescription req)).

Definition newClient (req : CreateClientRequest) (id hash : string) (now : Z) : Client.Client :=
  let p := createParams req in
  {| Client.ID := id;
     Client.SecretHash := hash;
     Client.Name := ClientValidation.Name p;
     Client.RedirectURIs := ClientValidation.RedirectURIs p;
     Client.GrantTypes := ClientValidation.GrantTypes p;
     Client.ResponseTypes := ClientValidation.ResponseTypes p;
     Client.TokenEndpointAuthMethod := ClientValidation.TokenEndpointAuthMethod p;
     Client.Status := Client.StatusActive;
     Client.RegistrationSource := Client.SourceAdmin;
     Client.CIMDURL := "";
     Client.ApplicationType := "";
     Client.Scope := cc_Scope req;
     Client.IsAgent := ClientValidation.IsAgent p;
     Client.AgentDescription := ClientValidation.AgentDescription p;
     Client.Version := 0;
     Client.IssuedAt := now;
     Client.UpdatedAt := now |}.

(** The client and its secret, empty for a public client.  The store sets the
    version of the row it is given. *)

Definition CreateClient (req : CreateClientRequest) : M (Client.Client * string) :=
  let p := createParams req in
  _ ← validate p;
  now ← time_Now;
  id ← GenerateRandomString;
  sh ← (if bool_decide (ClientValidation.TokenEndpointAuthMethod p ≠ "none")
        then plain ← GenerateRandomString; hash ← hashSecret plain; mret (plain, hash)
        else mret ("", ""));
  let c := newClient req id sh.2 now in
  _ ← ClientStore.Create c;
  _ ← audit Audit.ActionClientCreatedAdmin id ("name=" +:+ cc_Name req);
  mret (ClientStore.first_version c, sh.1).

Definition with_secret (hash : string) (now : Z) (c : Client.Client) : Client.Client :=
  Client.MkClient (Client.ID c) hash (Client.Name c) (Client.RedirectURIs c) (Client.GrantTypes c)
    (Client.ResponseTypes c) (Client.TokenEndpointAuthMethod c) (Client.Status c) (Client.RegistrationSource c)
    (Client.CIMDURL c) (Client.ApplicationType c) (Client.Scope c) (Client.IsAgent c) (Client.AgentDescription c)
    (Client.Version c) (Client.IssuedAt c) now.

Definition touched (now : Z) (c : Client.Client) : Client.Client := with_secret (Client.SecretHash c) now c.

Definition RotateClientSecret (clientID : string) : M (string * string) :=
  c ← ClientStore.GetByID clientID;
  _ ← ensure (negb (Client.IsPublic c)) ErrInvalidClient;
  plain ← GenerateRandomString;
  hash ← hashSecret plain;
  now ← time_Now;
  _ ← ClientStore.Update (with_secret hash now c);
  _ ← audit Audit.ActionClientSecretRotated clientID "";
  mret (clientID, plain).

Definition patched (req : UpdateClientRequest) (c : Client.Client) : Client.Client :=
  Client.MkClient (Client.ID c) (Client.SecretHash c) (default (Client.Name c) (uc_Name req))
    (default (Client.RedirectURIs c) (uc_RedirectURIs req)) (default (Client.GrantTypes c) (uc_GrantTypes req))
    (Client.ResponseTypes c) (Client.TokenEndpointAuthMethod c) (Client.Status c) (Client.RegistrationSource c)
    (Client.CIMDURL c) (Client.ApplicationType c) (default (Client.Scope c) (uc_Scope req)) (Client.IsAgent c)
    (Client.AgentDescription c) (Client.Version c) (Client.IssuedAt c) (Client.UpdatedAt c).

Definition params_of (c : Client.Client) : ClientValidation.CreateParams :=
  ClientValidation.MkParams (Client.Name c) (Client.RedirectURIs c) (Client.GrantTypes c) (Client.ResponseTypes c)
    (Client.TokenEndpointAuthMethod c) (Client.IsAgent c) (Client.AgentDescription c).

Definition UpdateClient (id : string) (req : UpdateClientRequest) : M Client.Client :=
  c ← ClientStore.GetByID id;
  let c1 := patched req c in
  _ ← validate (params_of c1);
  now ← time_Now;
  let c2 := touched now c1 in
  _ ← ClientStore.Update c2;
  _ ← audit Audit.ActionClientUpdated id "";
  mret c2.

Definition ListClients (status source : string) (limit offset : Z) : M (list Client.Client) :=
  ClientStore.List status source limit offset.

Definition GetClient (id : string) : M Client.Client :=
  r ← try (ClientStore.GetByID id);
  match r with
  | Ok c => mret c
  | Err ErrInvalidClient => throw ErrClientNotFound
  | Err x => throw x
  end.

(** The shape of the status changes: read, transition, write. *)

Definition SuspendClient (id : string) : M unit :=
  c ← ClientStore.GetByID id;
  now ← time_Now;
  match Client.Suspend now c with
  | inr x => throw x
  | inl c' =>
      _ ← ClientStore.Update c';
      audit Audit.ActionClientSuspended id ""
  end.

Definition RevokeClient (id : string) : M unit :=
  c ← ClientStore.GetByID id;
  now ← time_Now;
  _ ← ClientStore.Update (Client.Revoke now c);
  audit Audit.ActionClientRevoked id "".

Definition ReactivateClient (id : string) : M unit :=
  c ← ClientStore.GetByID id;
  now ← time_Now;
  match Client.Reactivate now c with
  | inr x => throw x
  | inl c' => ClientStore.Update c'
  end.

Definition bool_text (b : bool) : string := if b then "true" else "false".

(** [doDelete] *)

Definition clientDeletion (id : string) (force : bool) : M unit :=
  _ ← ClientStore.GetByID id;
  activeCount ← TokenStore.CountActiveByClientID id;
  machineCount ← (if has_machineTokens s then r ← MachineTokenStore.List id 1 0; mret r.2 else mret 0);
  let hasActiveTokens := orb (bool_decide (0 < activeCount)) (bool_decide (0 < machineCount)) in
  _ ← ensure (negb (andb hasActiveTokens (negb force))) ErrClientHasActiveTokens;
  _ ← when (andb force hasActiveTokens)
        (_ ← TokenStore.RevokeByClientID id;
         when (has_machineTokens s) (_ ← MachineTokenStore.RevokeByClientID id; mret tt));
  ClientStore.Delete id.

Definition DeleteClient (id : string) (force : bool) : M unit :=
  _ ← in_tx (has_txManager s) (clientDeletion id force);
  audit Audit.ActionClientDeleted id ("force=" +:+ bool_text force).

(** ** Tokens *)

Definition family_view (f : Family.Family) : TokenView :=
  MkTokenView (Family.ID f) "authorization_code" (Family.ClientID f) (Family.UserID f) (Family.Scope f)
    (Family.Resource f) (Family.status_text (Family.Status f)) (Family.CreatedAt f) None.

Definition machine_view (t : Machine.MachineToken) : TokenView :=
  MkTokenView (Machine.JTI t) "client_credentials" (Machine.ClientID t) "" (Scope.to_String (Machine.Scopes t))
    (Machine.Resource t) "active" (Machine.IssuedAt t) (Some (Machine.ExpiresAt t)).

(** The page and the total. *)

Definition ListTokens (clientID userID : string) (limit offset : Z) : M (list TokenView * nat) :=
  let limit := if bool_decide (limit <= 0)%Z then 50 else Z.to_nat limit in
  let offset := Z.to_nat offset in
  fams ← TokenStore.ListFamilies (TokenStore.MkFamilyFilter clientID userID "" limit offset);
  mts ← (if andb (has_machineTokens s) (bool_decide (userID = "")) then MachineTokenStore.List clientID limit offset
         else mret ([], 0));
  mret (fmap family_view fams.1 ++ fmap machine_view mts.1, fams.2 + mts.2).

Definition ListUserTokens (userID : string) (limit offset : Z) : M (list TokenView * nat) :=
  _ ← UserStore.GetByID userID;
  ListTokens "" userID limit offset.

Definition RevokeToken (jti : string) : M unit :=
  r ← try (TokenStore.GetFamily jti);
  match r with
  | Ok family =>
      _ ← TokenStore.RevokeFamily jti;
      _ ← when (has_revocation s) (_ ← try (RevocationStore.RevokeByFamily jti); mret tt);
      audit Audit.ActionTokenRevoked (Family.ClientID family) ("family=" +:+ jti)
  | Err _ =>
      if has_machineTokens s then
        mt ← MachineTokenStore.GetByJTI jti;
        match mt with
        | Some t =>
            _ ← MachineTokenStore.Revoke jti;
            audit Audit.ActionTokenRevoked (Machine.ClientID t) ("machine_jti=" +:+ jti)
        | None => throw ErrInvalidGrant
        end
      else throw ErrInvalidGrant
  end.

(** ** Users *)

Definition newUser (req : CreateUserRequest) (id hash : string) (now : Z) : User.User :=
  {| User.ID := id;
     User.Email := cu_Email req;
     User.Name := cu_Name req;
     User.PasswordHash := hash;
     User.IsAdmin := cu_IsAdmin req;
     User.Status := User.StatusActive;
     User.IsLocal := true;
     User.ProviderSub := "";
     User.Version := 0;
     User.CreatedAt := now;
     User.UpdatedAt := now |}.

Definition CreateUser (req : CreateUserRequest) : M User.User :=
  match HashBcrypt (cu_Password req) with
  | None => throw EFault
  | Some hash =>
      now ← time_Now;
      id ← GenerateRandomString;
      _ ← UserStore.Create (newUser req id hash now);
      _ ← audit Audit.ActionUserCreated "" ("user=" +:+ id);
      mret (UserStore.first_version (newUser req id hash now))
  end.

Definition ListUsers : M (list User.User) := UserStore.List.

Definition GetUser (id : string) : M User.User := UserStore.GetByID id.

Definition patched_user (req : UpdateUserRequest) (now : Z) (u : User.User) : User.User :=
  User.MkUser (User.ID u) (default (User.Email u) (uu_Email req)) (default (User.Name u) (uu_Name req))
    (User.PasswordHash u) (User.IsAdmin u) (User.Status u) (User.IsLocal u) (User.ProviderSub u)
    (User.Version u) (User.CreatedAt u) now.

Definition UpdateUser (id : string) (req : UpdateUserRequest) : M User.User :=
  u ← UserStore.GetByID id;
  now ← time_Now;
  _ ← UserStore.Update (patched_user req now u);
  _ ← audit Audit.ActionUserUpdated "" ("user=" +:+ id);
  mret (patched_user req now u).

Definition userDeletion (id : string) (force : bool) : M unit :=
  _ ← UserStore.GetByID id;
  r ← TokenStore.ListFamilies (TokenStore.MkFamilyFilter "" id "active" 1 0);
  _ ← ensure (negb (andb (bool_decide (0 < r.2)) (negb force))) ErrUserHasActiveTokens;
  _ ← when (bool_decide (0 < r.2)) (_ ← TokenStore.RevokeByUserID id; mret tt);
  UserStore.Delete id.

Definition DeleteUser (id : string) (force : bool) : M unit :=
  _ ← in_tx (has_txManager s) (userDeletion id force);
  audit Audit.ActionUserDeleted "" ("user=" +:+ id +:+ " force=" +:+ bool_text force).

Definition DisableUser (id : string) : M unit :=
  u ← UserStore.GetByID id;
  now ← time_Now;
  match User.Disable now u with
  | inr x => throw x
  | inl u' =>
      _ ← UserStore.Update u';
      audit Audit.ActionUserDisabled "" ("user=" +:+ id)
  end.

Definition EnableUser (id : string) : M unit :=
  u ← UserStore.GetByID id;
  now ← time_Now;
  match User.Enable now u with
  | inr x => throw x
  | inl u' => UserStore.Update u'
  end.

(** ** Force logout *)

Definition logoutPage : nat := 500.

(** The denylisting of the collected families; a failure is logged. *)

Fixpoint denylist_loop (familyIDs : list string) : M unit :=
  match familyIDs with
  | [] => mret tt
  | f :: rest => _ ← try (RevocationStore.RevokeByFamily f); denylist_loop rest
  end.

Definition ForceLogoutUser (id : string) : M nat :=
  _ ← UserStore.GetByID id;
  familyIDs ← (if has_revocation s
               then r ← TokenStore.ListFamilies (TokenStore.MkFamilyFilter "" id "active" logoutPage 0);
                    mret (fmap Family.ID r.1)
               else mret []);
  count ← TokenStore.RevokeByUserID id;
  _ ← when (has_revocation s) (denylist_loop familyIDs);
  _ ← audit Audit.ActionForceLogout "" ("user=" +:+ id +:+ " revoked=" +:+ pretty count);
  mret count.

(** ** The audit feed *)

Definition hour : Z := (3600 * SqlTime.nano)%Z.
Definition defaultAuditSinceWindow : Z := (24 * hour)%Z.
Definition maxAuditSinceWindow : Z := (30 * 24 * hour)%Z.
Definition defaultAuditQueryLimit : Z := 50.
Definition maxAuditQueryLimit : Z := 1000.
Definition maxAuditQueryOffset : Z := 100000.

(** [time.Time.Sub] saturates at the bounds of a 64-bit duration. *)

Definition time_Sub (t u : Z) : Z := (Z.max (- 2 ^ 63) (Z.min (2 ^ 63 - 1) (t - u)))%Z.

(** The configured bounds, a zero keeping the built-in one. *)

Definition auditBounds (resolved : option (Z * Z)) : Z * Z :=
  let '(dl, ml) := match resolved with
                   | None => (defaultAuditSinceWindow, maxAuditSinceWindow)
                   | Some (rd, rm) => (if bool_decide (0 < rd)%Z then rd else defaultAuditSinceWindow,
                                       if bool_decide (0 < rm)%Z then rm else maxAuditSinceWindow)
                   end in
  (if andb (bool_decide (0 < ml)%Z) (bool_decide (ml < dl)%Z) then ml else dl, ml).

Definition boundAuditSince (since : option Z) : M Z :=
  resolved ← (match auditQueryCfg with
              | None => mret None
              | Some c => c' ← provider (λ _, c); mret (Some c')
              end);
  let '(dl, ml) := auditBounds resolved in
  now ← time_Now;
  match since with
  | None => mret (now - dl)%Z
  | Some t =>
      if andb (bool_decide (0 < ml)%Z) (bool_decide (ml < time_Sub now t)%Z)
      then throw (EInvalidRequest "since exceeds the maximum audit lookback")
      else mret t
  end.

Definition boundAuditPage (limit offset : Z) : (Z * Z) + err :=
  let limit := if bool_decide (limit <= 0)%Z then defaultAuditQueryLimit else limit in
  if bool_decide (maxAuditQueryLimit < limit)%Z then inr (EInvalidRequest "limit exceeds the maximum") else
  let offset := if bool_decide (offset < 0)%Z then 0%Z else offset in
  if bool_decide (maxAuditQueryOffset < offset)%Z then inr (EInvalidRequest "offset exceeds the maximum")
  else inl (limit, offset).

(** The filter handed to the store. *)

Definition auditQuery (filter : AuditFilter) : M AuditStore.Filter :=
  since ← boundAuditSince (af_Since filter);
  match boundAuditPage (af_Limit filter) (af_Offset filter) with
  | inr x => throw x
  | inl (limit, offset) =>
      let f := AuditStore.MkFilter (af_Action filter) (af_ActorID filter) (af_ClientID filter) limit offset (Unix since) in
      match af_Until filter with
      | None => mret (f 0%Z)
      | Some until =>
          if bool_decide (until <= since)%Z then throw (EInvalidRequest "until must be after the effective since")
          else mret (f (Unix until))
      end
  end.

Definition QueryAudit (events : list AuditStore.Row) (filter : AuditFilter) : M (list AuditStore.Row) :=
  f ← auditQuery filter;
  query (λ _ _, AuditStore.Query events f).

(** ** Stats *)

(** The Unix time of the last midnight. *)

Definition dayStart (now : Z) : Z := (86400 * (SqlTime.sec now / 86400))%Z.

Definition GetStats : M DashboardStats :=
  totalClients ← ClientStore.Count "";
  activeClients ← ClientStore.Count "active";
  totalUsers ← UserStore.Count;
  now ← time_Now;
  tokensIssued ← TokenStore.CountIssuedSince (dayStart now);
  tokensRevoked ← TokenStore.CountRevokedSince (dayStart now);
  if has_machineTokens s then
    mtIssued ← MachineTokenStore.CountIssuedSince (dayStart now);
    mtRevoked ← MachineTokenStore.CountRevokedSince (dayStart now);
    mret (MkStats totalClients activeClients totalUsers (tokensIssued + mtIssued) (tokensRevoked + mtRevoked))
  else mret (MkStats totalClients activeClients totalUsers tokensIssued tokensRevoked).

End service.
End AdminService.
