(* ===== verification/Accounts.v ===== *)
(** * Client and user rows under concurrent edits

    [ClientStore.Update] and [UserStore.Update] write a row only over the
    version that was read.  This file gives the order such a table moves in
    ([lock_step]: a row is only replaced by a newer version, and a frozen row
    stays frozen), the rules to show that a computation which reads a row and
    writes it back guarantees the order ([Guarantees]), and the fact that the
    grants leave both tables alone ([Keeps]). *)

From S2P Require Import Prelude GoStrings ScopeSet Act Domain Db Effects Crypto Stores Order MintIssuer TokenService XAAStores ClientCredentials XAAServices JWTBearer BrokerIssuer ExchangeScopes TokenExchange ExchangeProofs.

(** ** Computations that write under a condition on the tables

    [Guarantees I S m]: run from tables that satisfy [I], while others move
    the tables by [S], every step of [m] is in [S]. *)

Definition Guarantees (I : DB → Prop) (S : relation DB) {A} (m : M A) : Prop :=
  ∀ e w r w', m e w = (r, w') → rely S e → I (w_db w) → ∃ l,
    w_steps w' = w_steps w ++ l ∧ history S (w_db w) l (w_db w').

Definition stable (I : DB → Prop) (S : relation DB) : Prop := ∀ d d', S d d' → I d → I d'.

Section guarantees.
Context {S : relation DB} `{HS : !PreOrder S}.
Implicit Types I J : DB → Prop.

Lemma guarantees_traced I {P A} (m : M A) : Traced S P m → Guarantees I S m.
Proof. intros Hm e w r w' H HR _. destruct (Hm _ _ _ _ H) as (l & a & Hl & _ & _ & _ & Hh). eauto. Qed.

Lemma guarantees_weaken I J {A} (m : M A) : (∀ d, I d → J d) → Guarantees J S m → Guarantees I S m.
Proof. intros HIJ Hm e w r w' H HR HI. by eapply Hm; auto. Qed.

Lemma guarantees_end I {A} (m : M A) e w r w' :
  Guarantees I S m → m e w = (r, w') → rely S e → I (w_db w) → S (w_db w) (w_db w').
Proof. intros Hm H HR HI. destruct (Hm _ _ _ _ H HR HI) as (l & _ & Hh). by apply history_end in Hh. Qed.

Lemma guarantees_bind I {A B} (m : M A) (k : A → M B) :
  stable I S → Guarantees I S m → (∀ a, Guarantees I S (k a)) → Guarantees I S (m ≫= k).
Proof.
  intros HI Hm Hk e w r w' H HR Hw. unfold mbind, M_bind in H.
  destruct (m e w) as [[a|x] w1] eqn:E; [|simplify_eq; by eapply Hm].
  destruct (Hm _ _ _ _ E HR Hw) as (l1 & Hl1 & Hh1).
  destruct (Hk a _ _ _ _ H HR) as (l2 & Hl2 & Hh2); [by eapply HI; [eapply history_end|]|].
  exists (l1 ++ l2). rewrite Hl2, Hl1, app_assoc. split; [done|]. by eapply history_app.
Qed.

(** A read remembers what it saw. *)

Lemma guarantees_read I {A B} (f : Z → DB → res A) (J : A → DB → Prop) (k : A → M B) :
  stable I S → (∀ t d a, I d → f t d = Ok a → J a d) → (∀ a, Guarantees (J a) S (k a)) →
  Guarantees I S (query f ≫= k).
Proof.
  intros HI HJ Hk e w r w' H HR Hw. unfold mbind, M_bind in H.
  destruct (query f e w) as [[a|x] w1] eqn:E.
  - pose proof E as (n & d & Hf & Hd & Hdb & Hrel)%query_seen.
    destruct (traced_query (S:=S) (P:=λ _, True) f _ _ _ _ E) as (l1 & _ & Hl1 & _ & _ & _ & Hh1). specialize (Hh1 HR).
    destruct (Hk a _ _ _ _ H HR) as (l2 & Hl2 & Hh2).
    { rewrite Hdb. eapply HJ; [|done]. eapply HI; [|done]. by apply (Hrel S). }
    exists (l1 ++ l2). rewrite Hl2, Hl1, app_assoc. split; [done|]. by eapply history_app.
  - simplify_eq. by eapply (guarantees_traced I (P:=λ _, True)); [apply traced_query|..].
Qed.

Lemma guarantees_store I {A} (f : Z → DB → res A * DB) :
  stable I S → (∀ t d, I d → S d (f t d).2) → Guarantees I S (store f).
Proof.
  intros HI Hf e w r w' H HR Hw. unfold store in H. destruct (fault e (w_tick w)); simplify_eq/=.
  - exists []. rewrite app_nil_r. split; [done|]. constructor. apply HR.
  - specialize (Hf (clock e (w_tick w)) (interfere e (w_tick w) (w_db w)) (HI _ _ (HR _ _) Hw)).
    destruct (f _ _) as [r0 d']; simplify_eq/=.
    exists [(interfere e (w_tick w) (w_db w), d')]. split; [done|]. repeat constructor; [apply HR|done|reflexivity].
Qed.

End guarantees.

(** ** Tables with an optimistic lock *)

Section versioned.
Context {A : Type} (tbl : DB → gmap string A) (ident : A → string) (ver : A → Z) (frozen : A → Prop).

Definition edited (a a' : A) : Prop := a' = a ∨ (ver a < ver a')%Z ∧ (frozen a → frozen a').

#[export] Instance edited_preorder : PreOrder edited.
Proof.
  split; [by left|]. intros a b c [->|[? ?]] [->|[? ?]]; unfold edited; eauto. right. split; [lia|auto].
Qed.

Lemma edited_same a b : edited a b → ver b = ver a → b = a.
Proof. intros [->|[? _]] ?; [done|lia]. Qed.

(** What may happen to the row [id]: it is not deleted, and only replaced by a
    newer version. *)

Definition lock_step (id : string) (d d' : DB) : Prop :=
  keyed ident (tbl d) →
  keyed ident (tbl d') ∧ ∀ a, tbl d !! id = Some a → ∃ a', tbl d' !! id = Some a' ∧ edited a a'.

#[export] Instance lock_step_preorder id : PreOrder (lock_step id).
Proof.
  split; [intros d ?; split; [done|]; intros a Ha; exists a; split; [done|reflexivity]|].
  intros x y z H1 H2 Hx. destruct (H1 Hx) as [Hy Ry]. destruct (H2 Hy) as [Hz Rz]. split; [done|].
  intros a Ha. destruct (Ry _ Ha) as (b & Hb & ?). destruct (Rz _ Hb) as (c & Hc & ?).
  exists c. split; [done|]. by etrans.
Qed.

Lemma keyed_stable id : stable (λ d, keyed ident (tbl d)) (lock_step id).
Proof. intros d d' H Hk. by apply H. Qed.

(** The row under the key [key] was read as [a]. *)

Definition has_read (id key : string) (a : A) (d : DB) : Prop :=
  keyed ident (tbl d) ∧ ident a = key ∧ (key = id → ∃ b, tbl d !! id = Some b ∧ edited a b).

Lemma has_read_stable id key a : stable (has_read id key a) (lock_step id).
Proof.
  intros d d' H (Hk & Hi & Hr). destruct (H Hk) as [Hk' Hr']. split_and!; [done|done|].
  intros ->. destruct (Hr eq_refl) as (b & Hb & He). destruct (Hr' _ Hb) as (c & Hc & ?).
  exists c. split; [done|]. by etrans.
Qed.

Lemma read_has id key a d : keyed ident (tbl d) → tbl d !! key = Some a → has_read id key a d.
Proof.
  intros Hk Ha. split_and!; [done|by apply Hk|]. intros <-. exists a. split; [done|reflexivity].
Qed.

(** Writing back over the version that was read. *)

Lemma write_back id key a a' b d d' :
  has_read id key a d → tbl d !! key = Some b → ver b = ver a → ident a' = key →
  (ver a < ver a')%Z → (frozen a → frozen a') → tbl d' = <[key := a']> (tbl d) → lock_step id d d'.
Proof.
  unfold lock_step. intros (Hk & Hi & Hr) Hb Hv Hi' Hlt Hf -> _. split; [by apply keyed_insert|].
  intros c Hc. destruct (decide (key = id)) as [->|Hne].
  - destruct (Hr eq_refl) as (b' & Hb' & He). simplify_eq. apply edited_same in He as ->; [|done].
    exists a'. rewrite lookup_insert_eq. split; [done|]. by right.
  - exists c. rewrite lookup_insert_ne by done. split; [done|reflexivity].
Qed.

Lemma insert_new id key a d d' :
  tbl d !! key = None → ident a = key → tbl d' = <[key := a]> (tbl d) → lock_step id d d'.
Proof.
  unfold lock_step. intros Hn Hi -> Hk. split; [by apply keyed_insert|]. intros c Hc.
  assert (key ≠ id) by (intros ->; congruence).
  exists c. rewrite lookup_insert_ne by done. split; [done|reflexivity].
Qed.

Lemma delete_other id key d d' : key ≠ id → tbl d' = delete key (tbl d) → lock_step id d d'.
Proof.
  unfold lock_step. intros Hne -> Hk. split; [intros k a ?%lookup_delete_Some; naive_solver|].
  intros c Hc. exists c. rewrite lookup_delete_ne by done. split; [done|reflexivity].
Qed.

End versioned.

Definition client_step : string → relation DB :=
  lock_step clients Client.ID Client.Version (λ c, Client.Status c = Client.StatusRevoked).

Definition user_step : string → relation DB := lock_step users User.ID User.Version (λ _, False).

#[export] Instance client_step_preorder id : PreOrder (client_step id).
Proof. apply lock_step_preorder. Qed.
#[export] Instance user_step_preorder id : PreOrder (user_step id).
Proof. apply lock_step_preorder. Qed.

(** ** Code that leaves a table alone *)

Class Keeps {A} (tbl : DB → A) (S : relation DB) : Prop := keeps d d' : tbl d' = tbl d → S d d'.

Class KeepsAccounts (S : relation DB) : Prop :=
  keeps_accounts d d' : clients d' = clients d → users d' = users d → S d d'.

#[export] Instance keeps_clients_accounts S : Keeps clients S → KeepsAccounts S.
Proof. intros H d d' Hc _. by apply H. Qed.
#[export] Instance keeps_users_accounts S : Keeps users S → KeepsAccounts S.
Proof. intros H d d' _ Hu. by apply H. Qed.

#[export] Instance keeps_client_step id : Keeps clients (client_step id).
Proof. intros d d' H Hk. rewrite H. split; [done|]. intros a Ha. exists a. split; [done|]. by left. Qed.
#[export] Instance keeps_user_step id : Keeps users (user_step id).
Proof. intros d d' H Hk. rewrite H. split; [done|]. intros a Ha. exists a. split; [done|]. by left. Qed.

(** [keep] proves [Traced S _ m] for an [S] that holds of every step which
    leaves the account tables alone: it follows the code, unfolding it. *)

Ltac head_of t := lazymatch t with ?f _ => head_of f | _ => t end.

Ltac keep_tables := first [apply keeps_accounts; reflexivity | apply keeps; reflexivity].

Ltac keep_store :=
  apply traced_store; intros ??; cbv zeta; repeat (case_match; simpl);
  first [keep_tables
        |unfold TokenStore.revoke_family_tables, TokenStore.revoke_family_row; simpl; repeat case_match; keep_tables].

Ltac keep_step :=
  lazymatch goal with
  | |- Traced _ _ (mbind _ _) => apply traced_bind; [|intros ?]
  | |- Traced _ _ (if ?b then _ else _) => destruct b
  | |- Traced _ _ (match ?x with _ => _ end) => destruct x eqn:?
  | |- Traced _ _ (let _ := _ in _) => cbv zeta
  | |- Traced _ _ (try _) => apply traced_try
  | |- Traced _ _ (when _ _) => apply traced_when
  | |- Traced _ _ (in_tx _ _) => apply traced_in_tx
  | |- Traced _ _ (record_audit _ _) => apply traced_audit; done
  | |- Traced _ _ (store _) => keep_store
  | |- Traced _ _ (query _) => apply traced_query
  | |- Traced _ _ ?m => first [solve [auto with guar_db nocore] | let h := head_of m in unfold h]
  end.

Ltac keep := repeat keep_step.

(** The code outside the repository that the token exchange calls. *)

Ltac keep_deps :=
  lazymatch goal with
  | |- Traced _ _ (BrokerIssuer.Encrypt _ _ _) => apply BrokerIssuer.traced_Encrypt; apply _
  | |- Traced _ _ (BrokerIssuer.Decrypt _ _ _) => apply BrokerIssuer.traced_Decrypt; apply _
  | |- Traced _ _ (TokenExchangeService.source_loop _ _) => by apply traced_source_loop
  | H : BrokerIssuer.Vend _ _ = Some ?f |- Traced _ _ (?f _ _ _ _) => eapply BrokerIssuer.traced_Vend; [apply _|exact H]
  | |- _ => keep_step
  end.

Section grants.
Context {S : relation DB} `{HS : !PreOrder S} {HK : KeepsAccounts S}.
Abbreviation any := (λ _ : Audit.Event, True).

Lemma keep_ExchangeCode s req : Traced S any (TokenService.ExchangeCode s req).
Proof. keep. Qed.

Lemma keep_RefreshToken s req : Traced S any (TokenService.RefreshToken s req).
Proof. keep. Qed.

Lemma keep_ClientCredentials s req : Traced S any (ClientCredentialsService.Exchange s req).
Proof. keep. Qed.

Lemma keep_fetch cache {HC : IDPJWKSCache.CacheDeps cache} uri : Traced S any (IDPJWKSCache.fetchJWKS cache uri).
Proof. by apply IDPJWKSCache.traced_fetchJWKS. Qed.

Lemma keep_JWTBearer s pol cache {HC : IDPJWKSCache.CacheDeps cache} req :
  Traced S any (JWTBearerService.GrantJWTBearer s pol cache req).
Proof. keep. Qed.

Lemma keep_Exchange s deps {HD : BrokerIssuer.BrokerDeps deps} req :
  Traced S any (TokenExchangeService.Exchange s deps req).
Proof. repeat keep_deps. Qed.

End grants.
