(* ===== verification/AdminProofs.v ===== *)
(** * What administrators do to the client and user rows

    Every operation of [AdminService] guarantees the order of the optimistic
    lock, and a successful edit of a client takes effect at one step, on the
    row that was there at that step. *)

From S2P Require Import Prelude GoStrings ScopeSet Act Domain Db Effects Crypto Stores Order ClientValidation Admin Accounts.
Import AdminService.

Abbreviation any_event := (λ _ : Audit.Event, True).

(** The operations of the service that write. *)

Inductive Op :=
  | OpCreateClient (req : CreateClientRequest) | OpRotateClientSecret (id : string)
  | OpUpdateClient (id : string) (req : UpdateClientRequest)
  | OpSuspendClient (id : string) | OpRevokeClient (id : string) | OpReactivateClient (id : string)
  | OpDeleteClient (id : string) (force : bool)
  | OpRevokeToken (jti : string)
  | OpCreateUser (req : CreateUserRequest) | OpUpdateUser (id : string) (req : UpdateUserRequest)
  | OpDisableUser (id : string) | OpEnableUser (id : string) | OpDeleteUser (id : string) (force : bool)
  | OpForceLogoutUser (id : string).

Section admin.
Context (s : Wiring) (HashBcrypt : string → option string) (grants : option (option (list string))).

Definition perform (op : Op) : M unit :=
  match op with
  | OpCreateClient req => _ ← CreateClient s HashBcrypt grants req; mret tt
  | OpRotateClientSecret id => _ ← RotateClientSecret s HashBcrypt id; mret tt
  | OpUpdateClient id req => _ ← UpdateClient s grants id req; mret tt
  | OpSuspendClient id => SuspendClient s id
  | OpRevokeClient id => RevokeClient s id
  | OpReactivateClient id => ReactivateClient id
  | OpDeleteClient id force => DeleteClient s id force
  | OpRevokeToken jti => RevokeToken s jti
  | OpCreateUser req => _ ← CreateUser s HashBcrypt req; mret tt
  | OpUpdateUser id req => _ ← UpdateUser s id req; mret tt
  | OpDisableUser id => DisableUser s id
  | OpEnableUser id => EnableUser id
  | OpDeleteUser id force => DeleteUser s id force
  | OpForceLogoutUser id => _ ← ForceLogoutUser s id; mret tt
  end.

(** ** The lock *)

Abbreviation client_read := (has_read clients Client.ID Client.Version (λ c, Client.Status c = Client.StatusRevoked)).
Abbreviation user_read := (has_read users User.ID User.Version (λ _, False)).

Lemma guarantees_ClientUpdate id key c c' :
  Client.ID c' = Client.ID c → Client.Version c' = Client.Version c →
  (Client.Status c = Client.StatusRevoked → Client.Status c' = Client.StatusRevoked) →
  Guarantees (client_read id key c) (client_step id) (ClientStore.Update c').
Proof.
  intros Hi Hv Hf. apply guarantees_store; [apply has_read_stable|]. intros t d Hr.
  pose proof Hr as (_ & Hkey & _). rewrite <-Hi in Hkey.
  destruct (clients d !! Client.ID c') as [b|] eqn:Hb; [|reflexivity]. case_bool_decide as Hvb; [|reflexivity].
  rewrite Hkey in *. eapply write_back; [exact Hr|exact Hb|congruence| | | |reflexivity]; simpl; [done|lia|done].
Qed.

Lemma guarantees_UserUpdate id key u u' :
  User.ID u' = User.ID u → User.Version u' = User.Version u →
  Guarantees (user_read id key u) (user_step id) (UserStore.Update u').
Proof.
  intros Hi Hv. apply guarantees_store; [apply has_read_stable|]. intros t d Hr.
  pose proof Hr as (_ & Hkey & _). rewrite <-Hi in Hkey.
  destruct (users d !! User.ID u') as [b|] eqn:Hb; [|reflexivity]. case_bool_decide as Hvb; [|reflexivity].
  case_match; [reflexivity|].
  rewrite Hkey in *. eapply write_back; [exact Hr|exact Hb|congruence| | | |reflexivity]; simpl; [done|lia|done].
Qed.

Lemma guarantees_ClientGet {B} id key (k : Client.Client → M B) :
  (∀ c, Guarantees (client_read id key c) (client_step id) (k c)) →
  Guarantees (λ d, keyed Client.ID (clients d)) (client_step id) (ClientStore.GetByID key ≫= k).
Proof.
  intros Hk. unfold ClientStore.GetByID. apply guarantees_read with (J := client_read id key); [apply keyed_stable| |done].
  intros t d c Hd Hc. destruct (clients d !! key) eqn:E; simplify_eq. by apply read_has.
Qed.

Lemma guarantees_UserGet {B} id key (k : User.User → M B) :
  (∀ u, Guarantees (user_read id key u) (user_step id) (k u)) →
  Guarantees (λ d, keyed User.ID (users d)) (user_step id) (UserStore.GetByID key ≫= k).
Proof.
  intros Hk. unfold UserStore.GetByID. apply guarantees_read with (J := user_read id key); [apply keyed_stable| |done].
  intros t d c Hd Hc. destruct (users d !! key) eqn:E; simplify_eq. by apply read_has.
Qed.

(** [guar]: follow the code after the read; the write uses its lemma and
    everything else keeps the table. *)

Ltac guar_step :=
  lazymatch goal with
  | |- Guarantees _ _ (match ?x with _ => _ end) => destruct x eqn:?
  | |- Guarantees _ _ (mbind _ _) => apply guarantees_bind; [apply has_read_stable| |intros ?]
  | |- Guarantees _ _ (ClientStore.Update _) => apply guarantees_ClientUpdate
  | |- Guarantees _ _ (UserStore.Update _) => apply guarantees_UserUpdate
  | |- Guarantees _ _ _ => apply (guarantees_traced _ (P:=any_event)); keep
  end.

Ltac guar := repeat guar_step.

Ltac transition :=
  unfold Client.Suspend, Client.Reactivate, User.Disable, User.Enable in *; case_bool_decide; simplify_eq/=; try done;
  intros; congruence.

Lemma guarantees_unit {B} I S `{!PreOrder S} (m : M B) :
  stable I S → Guarantees I S m → Guarantees I S (_ ← m; mret tt).
Proof. intros HI Hm. apply guarantees_bind; [done..|]. intros _. by apply (guarantees_traced _ (P:=any_event)), traced_ret. Qed.

(** Creation and deletion are single steps in the order. *)

Lemma traced_ClientCreate id c : Traced (client_step id) any_event (ClientStore.Create c).
Proof.
  apply traced_store. intros t d. case_bool_decide as Hn; [reflexivity|]. simpl.
  eapply insert_new; [by apply eq_None_not_Some| |reflexivity]. unfold ClientStore.first_version. by case_bool_decide.
Qed.

Lemma traced_ClientDelete id key : key ≠ id → Traced (client_step id) any_event (ClientStore.Delete key).
Proof.
  intros Hne. apply traced_store. intros t d. case_match; [|reflexivity]. by eapply delete_other.
Qed.

Lemma traced_UserCreate id u : Traced (user_step id) any_event (UserStore.Create u).
Proof.
  apply traced_store. intros t d. destruct (_ || _) eqn:Hn; [reflexivity|]. unbool.
  eapply insert_new; [by apply eq_None_not_Some| |reflexivity]. unfold UserStore.first_version. by case_bool_decide.
Qed.

Lemma traced_UserDelete id key : key ≠ id → Traced (user_step id) any_event (UserStore.Delete key).
Proof.
  intros Hne. apply traced_store. intros t d. case_match; [|reflexivity]. by eapply delete_other.
Qed.

Lemma traced_denylist_loop {S : relation DB} `{!PreOrder S, !KeepsAccounts S} l : Traced S any_event (denylist_loop l).
Proof. induction l; simpl; keep. Qed.

Ltac keep_admin :=
  lazymatch goal with
  | |- Traced _ _ (ClientStore.Create _) => first [apply traced_ClientCreate | keep_step]
  | |- Traced _ _ (ClientStore.Delete _) => first [apply traced_ClientDelete | keep_step]
  | |- Traced _ _ (UserStore.Create _) => first [apply traced_UserCreate | keep_step]
  | |- Traced _ _ (UserStore.Delete _) => first [apply traced_UserDelete | keep_step]
  | |- Traced _ _ (denylist_loop _) => apply traced_denylist_loop
  | |- _ => keep_step
  end.

(** Every operation, except the deletion of this very client, guarantees the
    order of the client table; and likewise for users. *)

Lemma perform_client id op :
  (∀ force, op ≠ OpDeleteClient id force) →
  Guarantees (λ d, keyed Client.ID (clients d)) (client_step id) (perform op).
Proof.
  intros Hop. destruct op; simpl; try (apply guarantees_unit; [apply _|apply keyed_stable|]).
  2,3,4,5,6: unfold RotateClientSecret, UpdateClient, SuspendClient, RevokeClient, ReactivateClient;
    apply guarantees_ClientGet; intros c; cbv zeta; guar; try done; transition.
  all: apply (guarantees_traced _ (P:=any_event)); repeat keep_admin. intros ->. by eapply Hop.
Qed.

Lemma perform_user id op :
  (∀ force, op ≠ OpDeleteUser id force) →
  Guarantees (λ d, keyed User.ID (users d)) (user_step id) (perform op).
Proof.
  intros Hop. destruct op; simpl; try (apply guarantees_unit; [apply _|apply keyed_stable|]).
  10,11,12: unfold UpdateUser, DisableUser, EnableUser;
    apply guarantees_UserGet; intros c; cbv zeta; guar; try done; transition.
  all: apply (guarantees_traced _ (P:=any_event)); repeat keep_admin. intros ->. by eapply Hop.
Qed.

End admin.

(** ** Edits are atomic *)

(** The step that replaces the row [c] under [id] by [c'], in its next
    version. *)

Definition row_write (id : string) (c c' : Client.Client) (d : DB) : DB * DB :=
  (d, set_clients (<[id := Client.set_row c' (Client.Version c + 1) (Client.IssuedAt c)]> (clients d)) d).

(** The run replaced [c], the row at that instant, by a [c'] with [Q c c'],
    and wrote no other client row. *)

Definition atomic_edit (id : string) (Q : Client.Client → Client.Client → Prop) (w w' : World) : Prop :=
  ∃ d c c', clients d !! id = Some c ∧ Q c c' ∧ seen w w' (row_write id c c' d) ∧
    ∀ x, seen w w' x → x = row_write id c c' d ∨ clients x.2 = clients x.1.

Definition same_clients (d d' : DB) : Prop := clients d' = clients d.

#[export] Instance same_clients_preorder : PreOrder same_clients.
Proof. split; [done|]. intros x y z. unfold same_clients. congruence. Qed.

#[export] Instance keeps_same_clients : Keeps clients same_clients.
Proof. by intros d d'. Qed.

Definition leaves_clients {A} (m : M A) : Prop :=
  ∀ S : relation DB, PreOrder S → Keeps clients S → Traced S any_event m.

Lemma leaves_extends {A} (m : M A) e w r w' : leaves_clients m → m e w = (r, w') → extends w w'.
Proof. intros Hm. eapply traced_extends, (Hm same_clients); apply _. Qed.

Lemma leaves_seen {A} (m : M A) e w r w' x :
  leaves_clients m → m e w = (r, w') → seen w w' x → clients x.2 = clients x.1.
Proof. intros Hm H Hx. by eapply (traced_seen _ _ _ _ _ _ (Hm same_clients _ _)). Qed.

(** The rest of an edit that has read [c]. *)

Definition Edits {A} (e : Env) (id : string) (c : Client.Client) (Q : Client.Client → Prop) (m : M A) : Prop :=
  ∀ w b w', m e w = (Ok b, w') → rely (client_step id) e →
    has_read clients Client.ID Client.Version (λ c, Client.Status c = Client.StatusRevoked) id id c (w_db w) →
    extends w w' ∧ atomic_edit id (λ c0 c', c0 = c ∧ Q c') w w'.

Lemma seen_app w w1 w2 x : extends w w1 → extends w1 w2 → seen w w2 x → seen w w1 x ∨ seen w1 w2 x.
Proof.
  intros [l1 H1] [l2 H2]. unfold seen. rewrite (own_steps_app _ _ _ H1), (own_steps_app _ _ _ H2).
  rewrite (own_steps_app w w2 (l1 ++ l2)); [by rewrite elem_of_app|]. by rewrite H2, H1, app_assoc.
Qed.

Lemma edits_update e id c c' :
  Client.ID c' = Client.ID c → Client.Version c' = Client.Version c → Edits e id c (λ x, x = c') (ClientStore.Update c').
Proof.
  intros Hi Hv w [] w' H HR Hr. unfold ClientStore.Update in H.
  pose proof H as (n & d & d' & Hd & _ & _ & HS)%store_seen.
  apply store_ok in H as (n' & d0 & d0' & -> & _ & H0 & ->).
  set (d1 := interfere e (w_tick w) (w_db w)) in *.
  assert (has_read clients Client.ID Client.Version (λ c, Client.Status c = Client.StatusRevoked) id id c d1)
    as (Hk & Hci & Hro) by (eapply has_read_stable; [apply HR|done]).
  rewrite Hi, Hci in H0. destruct (Hro eq_refl) as (b & Hb & He). rewrite Hb in H0.
  case_bool_decide as Hvb; [|done]. injection H0 as <-. rewrite Hv in Hvb. apply edited_same in He as ->; [|done].
  split; [apply extends_after|]. exists d1, c, c'. split; [done|]. split; [done|]. split.
  - unfold row_write. rewrite <-Hv. apply seen_after.
  - intros x. unfold seen. rewrite (own_steps_app _ _ [row_write id c c' d1]) by (unfold row_write; by rewrite <-Hv).
    rewrite list_elem_of_singleton. by left.
Qed.

Lemma edits_before {A B} e id c Q (m : M A) (k : A → M B) :
  leaves_clients m → (∀ a, (∃ w w', m e w = (Ok a, w')) → Edits e id c Q (k a)) → Edits e id c Q (m ≫= k).
Proof.
  intros Hm Hk w b w' H HR Hr. apply bind_ok in H as (a & w1 & H1 & H2).
  assert (client_step id (w_db w) (w_db w1)) as Hs.
  { destruct (Hm (client_step id) _ _ _ _ _ _ H1) as (l & _ & _ & _ & _ & _ & Hh). exact (history_end _ _ _ (Hh HR)). }
  destruct (Hk a ltac:(eauto) _ _ _ H2 HR (has_read_stable _ _ _ _ _ _ _ _ _ Hs Hr)) as (X & d & c0 & c' & Hc & HQ & Hw & Ho).
  pose proof (leaves_extends _ _ _ _ _ Hm H1) as X1. split; [by etrans|]. exists d, c0, c'. split; [done|]. split; [done|]. split.
  - by eapply seen_right.
  - intros x [Hx|Hx]%(seen_app _ _ _ _ X1 X); [|auto]. right. by eapply leaves_seen.
Qed.

Lemma edits_after {A B} e id c Q (m : M A) (k : A → M B) :
  Edits e id c Q m → (∀ a, leaves_clients (k a)) → Edits e id c Q (m ≫= k).
Proof.
  intros Hm Hk w b w' H HR Hr. apply bind_ok in H as (a & w1 & H1 & H2).
  destruct (Hm _ _ _ H1 HR Hr) as (X & d & c0 & c' & Hc & HQ & Hw & Ho).
  pose proof (leaves_extends _ _ _ _ _ (Hk a) H2) as X2. split; [by etrans|]. exists d, c0, c'. split; [done|]. split; [done|]. split.
  - by eapply seen_left.
  - intros x [Hx|Hx]%(seen_app _ _ _ _ X X2); [auto|]. right. by eapply (leaves_seen (k a)).
Qed.

Lemma edits_weaken {A} e id c (Q Q' : Client.Client → Prop) (m : M A) :
  (∀ x, Q x → Q' x) → Edits e id c Q m → Edits e id c Q' m.
Proof.
  intros HQ Hm w b w' H HR Hr. destruct (Hm _ _ _ H HR Hr) as (X & d & c0 & c' & Hc & [? ?] & ?).
  split; [done|]. exists d, c0, c'. naive_solver.
Qed.

Lemma edits_throw {A} e id c Q x : Edits e id c Q (throw x : M A).
Proof. by intros w b w' ?%throw_ok. Qed.

(** Reading the row first. *)

Lemma edits_read {A} id (Q : Client.Client → Client.Client → Prop) (k : Client.Client → M A) e w b w' :
  (∀ c, Edits e id c (Q c) (k c)) → rely (client_step id) e → keyed Client.ID (clients (w_db w)) →
  (ClientStore.GetByID id ≫= k) e w = (Ok b, w') → atomic_edit id Q w w'.
Proof.
  intros Hk HR Hw H. apply bind_ok in H as (c & w1 & H1 & H2).
  pose proof H1 as (n & d & Hd & Hs & Hdb & HS)%query_seen.
  assert (leaves_clients (ClientStore.GetByID id)) as HG by (intros S ??; apply traced_query).
  assert (keyed Client.ID (clients d)) as Hkd by (by apply (HS _ HR)).
  destruct (Hk c _ _ _ H2 HR) as (X & d' & c0 & c' & Hc & [-> HQ] & Hwr & Ho).
  { rewrite Hdb. destruct (clients d !! id) eqn:E; simplify_eq. by apply read_has. }
  pose proof (leaves_extends _ _ _ _ _ HG H1) as X1. exists d', c, c'. split; [done|]. split; [done|]. split.
  - by eapply seen_right.
  - intros x [Hx|Hx]%(seen_app _ _ _ _ X1 X); [|auto]. right. by eapply (leaves_seen (ClientStore.GetByID id)).
Qed.
