(* ===== verification/AdminOutcomes.v ===== *)
(** * What administrators get for a call

    A deletion happens as a whole or not at all; a forced logout reaches every
    family of the user; a rotated secret is the one that authenticates; the
    audit feed hands out bounded pages. *)

From S2P Require Import Prelude GoStrings ScopeSet Act Domain Db Effects Crypto Stores Order StoreOrder TokenService TokenProofs Scenario Introspection ClientCredentials MachineProofs MachineTheorems ClientValidation Admin Accounts AdminProofs AdminTheorems.
Import AdminService.

(** ** Deletion *)

Lemma delete_rows_ext `{Countable K} {A} (P Q : A → bool) (m : gmap K A) :
  (∀ a, P a = Q a) → delete_rows P m = delete_rows Q m.
Proof. intros H1. apply map_filter_ext. intros k a _. simpl. by rewrite H1. Qed.

(** Updating rows that go anyway makes no difference. *)

Lemma delete_updated `{Countable K} {A} (P Q : A → bool) (f : A → A) (m : gmap K A) :
  (∀ a, Q a = true → P a = true ∧ P (f a) = true) → delete_rows P (update_rows Q f m) = delete_rows P m.
Proof.
  intros HQ. apply map_eq. intros k. apply option_eq. intros a.
  rewrite !lookup_delete_rows, lookup_update_rows. destruct (m !! k) as [b|]; [|done]. simpl.
  destruct (Q b) eqn:Hb; [|naive_solver]. destruct (HQ _ Hb) as [H1 H2]. split; intros [[= <-] ?]; congruence.
Qed.

Lemma delete_families_updated (P Q : Family.Family → bool) (f : Family.Family → Family.Family) d :
  (∀ a, Q a = true → P a = true ∧ P (f a) = true) →
  delete_families P (set_families (update_rows Q f (token_families d)) d) = delete_families P d.
Proof.
  intros HQ.
  assert (∀ id, match update_rows Q f (token_families d) !! id with Some f => P f | None => false end =
                match token_families d !! id with Some f => P f | None => false end) as Hg.
  { intros id. rewrite lookup_update_rows. destruct (token_families d !! id) as [b|]; [|done]. simpl.
    destruct (Q b) eqn:Hb; [|done]. destruct (HQ _ Hb). congruence. }
  unfold delete_families, set_families, set_refresh, set_tracked. simpl. rewrite (delete_updated P Q f) by done.
  f_equal; apply delete_rows_ext; intros x; apply Hg.
Qed.

(** In a transaction nobody interferes. *)

Lemma quiet_step {A} (f : Z → DB → res A * DB) e w a w' :
  store f (quiet_env e) w = (Ok a, w') → f (clock e (w_tick w)) (w_db w) = (Ok a, w_db w').
Proof. intros (? & ? & ? & -> & -> & Hf & ->)%store_ok. exact Hf. Qed.

Lemma quiet_read {A} (f : Z → DB → res A) e w a w' :
  query f (quiet_env e) w = (Ok a, w') → w_db w' = w_db w ∧ f (clock e (w_tick w)) (w_db w) = Ok a.
Proof. intros [= ? ?]%quiet_step. done. Qed.

Lemma tx_one_step {A} (m : M A) e w a w' :
  with_tx m e w = (Ok a, w') → ∃ d w1,
    m (quiet_env e) (after w d []) = (Ok a, w1) ∧ own_steps w w' = [(d, w_db w1)].
Proof.
  unfold with_tx. destruct (fault e (w_tick w)); [done|].
  destruct (m (quiet_env e) _) as [[b|x] w1] eqn:Hm; [|done].
  destruct (fault e (w_tick w1)); [done|]. intros [= <- <-].
  exists (interfere e (w_tick w) (w_db w)), w1. split; [exact Hm|]. unfold own_steps. simpl. by rewrite drop_app_length.
Qed.

Lemma tx_no_step {A} (m : M A) e w x w' : with_tx m e w = (Err x, w') → own_steps w w' = [].
Proof.
  intros H. destruct (err_traced_tx (S:=λ _ _, False) m e w x w' H) as (l & Hl & Hf).
  rewrite (own_steps_app _ _ _ Hl). destruct l; [done|]. by inversion Hf.
Qed.

Lemma audit_steps b ev e w r w' : record_audit b ev e w = (r, w') → r = Ok tt ∧ w_steps w' = w_steps w.
Proof. unfold record_audit. destruct b; intros [= <- <-]; done. Qed.

Lemma tx_then_audit (m : M unit) b ev e w r w' :
  (with_tx m ≫= λ _, record_audit b ev) e w = (r, w') →
  match r with
  | Err _ => own_steps w w' = []
  | Ok _ => ∃ d w1, m (quiet_env e) (after w d []) = (Ok tt, w1) ∧ own_steps w w' = [(d, w_db w1)]
  end.
Proof.
  intros [(x & H & ->)|([] & w1 & H1 & H2)]%bind_cases; [by eapply tx_no_step|].
  apply audit_steps in H2 as [-> Hs]. apply tx_one_step in H1 as (d & w2 & Hm & Ho).
  exists d, w2. split; [done|]. unfold own_steps in *. by rewrite Hs.
Qed.

Lemma cascade_revoked_families id now d :
  ClientStore.cascade id
    (set_families (update_rows (λ f, andb (bool_decide (Family.ClientID f = id)) (Family.IsActive f)) (Family.Revoke now)
       (token_families d)) d) = ClientStore.cascade id d.
Proof.
  unfold ClientStore.cascade. rewrite <-(delete_families_updated (λ f, bool_decide (Family.ClientID f = id))
    (λ f, andb (bool_decide (Family.ClientID f = id)) (Family.IsActive f)) (Family.Revoke now)
    (set_clients (delete id (clients d)) d)); [done|].
  intros f Hf. unbool. split; by apply bool_decide_eq_true.
Qed.

Lemma cascade_revoked_machine id d :
  ClientStore.cascade id
    (set_machine (update_rows (λ t, andb (bool_decide (Machine.ClientID t = id)) (negb (Machine.Revoked t))) Machine.revoke
       (machine_tokens d)) d) = ClientStore.cascade id d.
Proof.
  unfold ClientStore.cascade at 1. simpl. rewrite delete_updated; [done|].
  intros t Ht. unbool. split; by apply bool_decide_eq_true.
Qed.

Lemma user_cascade_revoked id now d :
  UserStore.cascade id
    (set_families (update_rows (λ f, andb (bool_decide (Family.UserID f = id)) (Family.IsActive f)) (Family.Revoke now)
       (token_families d)) d) = UserStore.cascade id d.
Proof.
  unfold UserStore.cascade. rewrite <-(delete_families_updated (λ f, bool_decide (Family.UserID f = id))
    (λ f, andb (bool_decide (Family.UserID f = id)) (Family.IsActive f)) (Family.Revoke now)
    (set_users (delete id (users d)) d)); [done|].
  intros f Hf. unbool. split; by apply bool_decide_eq_true.
Qed.

(** Nothing active of a client, of a user. *)

Definition idle_client (s : Wiring) (id : string) (now : Z) (d : DB) : Prop :=
  (∀ k f, token_families d !! k = Some f → Family.ClientID f = id → Family.IsActive f = false) ∧
  (has_machineTokens s = true → ∀ k t, machine_tokens d !! k = Some t → MachineTokenStore.live_row id now t = false).

Definition idle_user (id : string) (d : DB) : Prop :=
  ∀ k f, token_families d !! k = Some f → Family.UserID f = id → Family.IsActive f = false.

Lemma count_rows_zero `{Countable K} {A} (P : A → bool) (m : gmap K A) :
  count_rows P m = 0 → ∀ k a, m !! k = Some a → P a = false.
Proof.
  unfold count_rows. intros H1%map_size_empty_inv k a Hk. apply not_true_is_false. intros HP.
  by eapply (map_filter_empty_not_lookup (λ kv : K * A, P kv.2 = true) m k a H1).
Qed.

Lemma live_rows_nil id now d :
  length (MachineTokenStore.live_rows id now d) = 0 → ∀ k t, machine_tokens d !! k = Some t →
  MachineTokenStore.live_row id now t = false.
Proof.
  intros H%nil_length_inv k t Hk. apply not_true_is_false. intros HP. apply (not_elem_of_nil t). rewrite <-H.
  unfold MachineTokenStore.live_rows. rewrite list_elem_of_filter, merge_sort_Permutation, list_elem_of_fmap.
  split; [done|]. exists (k, t). split; [done|]. by apply elem_of_map_to_list.
Qed.

Lemma family_rows_nil f d :
  length (TokenStore.family_rows f d) = 0 → ∀ k x, token_families d !! k = Some x → TokenStore.family_matches f x = false.
Proof.
  intros H%nil_length_inv k x Hk. apply not_true_is_false. intros HP. apply (not_elem_of_nil x). rewrite <-H.
  apply TokenStore.elem_of_family_rows. eauto.
Qed.

(** Revoking before deleting leaves no trace. *)

Lemma deletion_revokes s b id e w u w' :
  when b (_ ← TokenStore.RevokeByClientID id;
          when (has_machineTokens s) (_ ← MachineTokenStore.RevokeByClientID id; mret tt)) (quiet_env e) w = (Ok u, w') →
  ClientStore.cascade id (w_db w') = ClientStore.cascade id (w_db w).
Proof.
  destruct b; [|by intros [_ <-]%ret_ok]. simpl. intros H. mstep H. apply quiet_step in Hm as [= _ E1].
  unfold when in H. destruct (has_machineTokens s).
  - mstep H. apply ret_ok in H as [_ <-]. apply quiet_step in Hm as [= _ E2].
    rewrite <-E2, cascade_revoked_machine, <-E1. apply cascade_revoked_families.
  - apply ret_ok in H as [_ <-]. rewrite <-E1. apply cascade_revoked_families.
Qed.

(** The statements of a deletion, in the tables its transaction found. *)

Lemma clientDeletion_ok s id force e w w' :
  clientDeletion s id force (quiet_env e) w = (Ok tt, w') →
  is_Some (clients (w_db w) !! id) ∧ w_db w' = ClientStore.cascade id (w_db w) ∧
  (force = false → ∃ now, idle_client s id now (w_db w)).
Proof.
  unfold clientDeletion. intros H. mstep H. apply quiet_read in Hm as [E0 Hc].
  mstep H. apply quiet_read in Hm as [E1 [= Hcount]]. apply bind_ok in H as (mc & w2 & Hm & H).
  assert (w_db w2 = w_db w ∧ (has_machineTokens s = true → ∃ now, mc = length (MachineTokenStore.live_rows id now (w_db w))))
    as [E2 Hlive].
  { destruct (has_machineTokens s); [|apply ret_ok in Hm as [_ <-]; split; [congruence|done]].
    mstep Hm. apply ret_ok in Hm as [<- <-]. unfold MachineTokenStore.List in Hm0. mstep Hm0.
    unfold time_Now in Hm. injection Hm as <- <-.
    mstep Hm0. apply quiet_read in Hm as [E3 [= <-]]. mstep Hm0. apply quiet_read in Hm as [E4 _].
    apply ret_ok in Hm0 as [<- <-]. simpl in *. split; [congruence|]. intros _. eexists. by rewrite E1, E0. }
  mstep H. apply bind_ok in H as (u & w9 & Hr & H). apply deletion_revokes in Hr.
  apply quiet_step in H. destruct (clients (w_db w9) !! id); [|done]. injection H as H.
  split; [destruct (clients (w_db w) !! id); [eauto|done]|]. split; [congruence|]. intros ->.
  rewrite andb_true_r, negb_true_iff, orb_false_iff, !bool_decide_eq_false in Hm0. destruct Hm0 as [Ha Hmc].
  assert (∀ k f, token_families (w_db w) !! k = Some f → Family.ClientID f = id → Family.IsActive f = false) as Hf.
  { intros k f Hk Hid. rewrite <-E0 in Hk. assert (a0 = 0) as E by lia. rewrite <-Hcount in E.
    pose proof (count_rows_zero _ _ E _ _ Hk) as Hx. simpl in Hx. rewrite bool_decide_true in Hx; done. }
  destruct (has_machineTokens s) eqn:Hs; [|exists 0%Z; split; [done|congruence]].
  destruct (Hlive eq_refl) as [now ->]. exists now. split; [done|]. intros _. apply live_rows_nil. lia.
Qed.

Lemma userDeletion_ok id force e w w' :
  userDeletion id force (quiet_env e) w = (Ok tt, w') →
  is_Some (users (w_db w) !! id) ∧ w_db w' = UserStore.cascade id (w_db w) ∧ (force = false → idle_user id (w_db w)).
Proof.
  unfold userDeletion. intros H. mstep H. apply quiet_read in Hm as [E0 Hc].
  apply bind_ok in H as (r & w1 & Hl & H). unfold TokenStore.ListFamilies in Hl.
  mstep Hl. apply quiet_read in Hm as [E1 [= Hn]]. mstep Hl. apply quiet_read in Hm as [E2 _].
  apply ret_ok in Hl as [<- <-]. simpl in *. mstep H. apply bind_ok in H as (u & w9 & Hr & H).
  assert (UserStore.cascade id (w_db w9) = UserStore.cascade id (w_db w)) as E3.
  { rewrite <-E0, <-E1, <-E2. unfold when in Hr. case_bool_decide; [|by apply ret_ok in Hr as [_ <-]].
    mstep Hr. apply ret_ok in Hr as [_ <-]. apply quiet_step in Hm0 as [= _ <-]. apply user_cascade_revoked. }
  apply quiet_step in H. destruct (users (w_db w9) !! id); [|done]. injection H as H.
  split; [destruct (users (w_db w) !! id); [eauto|done]|]. split; [congruence|]. intros -> k f Hk Hid.
  rewrite andb_true_r, negb_true_iff, bool_decide_eq_false in Hm. assert (a0 = 0) as E by lia. rewrite <-Hn in E.
  rewrite <-E0 in Hk. pose proof (family_rows_nil _ _ E _ _ Hk) as Hx. unfold TokenStore.family_matches in Hx. simpl in Hx.
  rewrite (bool_decide_true (Family.UserID f = id)), orb_true_r in Hx by done. simpl in Hx.
  unfold Family.IsActive. destruct (Family.Status f); simpl in Hx; [done|done].
Qed.

(** A deletion happens as a whole or not at all, whatever fails and
    whoever interferes.  With the transaction manager wired, a [DeleteClient]
    or [DeleteUser] that answers an error wrote nothing.  One that answers
    success is a single step of the tables: the row that was there is gone
    with everything that references it (families, refresh tokens, tracked
    jtis, consent grants, and machine tokens or broker grants), and nothing
    else changed.  Unless the deletion was forced, nothing of the client or
    user was active in the very tables the step started from. *)
Theorem deletion_all_or_nothing s id force e w :
  has_txManager s = true →
  (∀ r w', DeleteClient s id force e w = (r, w') →
     match r with
     | Err _ => own_steps w w' = []
     | Ok _ => ∃ d, own_steps w w' = [(d, ClientStore.cascade id d)] ∧ is_Some (clients d !! id) ∧
                 (force = false → ∃ now, idle_client s id now d)
     end) ∧
  (∀ r w', DeleteUser s id force e w = (r, w') →
     match r with
     | Err _ => own_steps w w' = []
     | Ok _ => ∃ d, own_steps w w' = [(d, UserStore.cascade id d)] ∧ is_Some (users d !! id) ∧
                 (force = false → idle_user id d)
     end).
Proof.
  intros Htx. split; intros r w'; [unfold DeleteClient|unfold DeleteUser]; rewrite Htx; simpl;
    intros H%tx_then_audit; destruct r as [[]|]; try done; destruct H as (d & w1 & Hm & Ho).
  - destruct (clientDeletion_ok _ _ _ _ _ _ Hm) as (Hc & Hw & Hi). exists d. by rewrite Ho, Hw.
  - destruct (userDeletion_ok _ _ _ _ _ Hm) as (Hc & Hw & Hi). exists d. by rewrite Ho, Hw.
Qed.

(** ** Forced logout *)

Lemma traced_denylist l : Traced db_step any_event (denylist_loop l).
Proof. induction l; simpl; traced; done. Qed.

Lemma denylist_loop_run l : ∀ e w, fault_free e → rely db_step e → wf_db (w_db w) →
  ∃ w', denylist_loop l e w = (Ok tt, w') ∧ ∀ fid, fid ∈ l → family_denylisted (w_db w) (w_db w') fid.
Proof.
  induction l as [|f l IH]; intros e w Hff HR Hwf; simpl.
  { exists w. split; [done|]. intros fid H%not_elem_of_nil. done. }
  destruct (RevokeByFamily_run f e w Hff HR Hwf) as (w1 & H1 & Hf & Hwf1 & Hle1).
  destruct (IH e w1 Hff HR Hwf1) as (w2 & H2 & Hl). destruct (traced_db _ _ _ _ _ (traced_denylist l) H2 HR Hwf1) as [_ Hle2].
  exists w2. rewrite (bind_step _ _ _ _ _ _ (try_run _ _ _ _ _ H1)). split; [exact H2|].
  intros fid [->|Hin]%elem_of_cons.
  - by eapply family_denylisted_le, Hf.
  - by eapply family_denylisted_le, (Hl _ Hin).
Qed.

(** The parts of a forced logout. *)

Definition logoutFilter (id : string) : TokenStore.FamilyFilter := TokenStore.MkFamilyFilter "" id "active" logoutPage 0.

Lemma logout_ok s id e w n w' :
  ForceLogoutUser s id e w = (Ok n, w') → ∃ u ids w1 w2 w3 w4,
    UserStore.GetByID id e w = (Ok u, w1) ∧
    (if has_revocation s
     then r ← TokenStore.ListFamilies (logoutFilter id); mret (fmap Family.ID r.1) else mret []) e w1 = (Ok ids, w2) ∧
    TokenStore.RevokeByUserID id e w2 = (Ok n, w3) ∧
    when (has_revocation s) (denylist_loop ids) e w3 = (Ok tt, w4) ∧ w_db w' = w_db w4 ∧ w_steps w' = w_steps w4.
Proof.
  unfold ForceLogoutUser. intros H. apply bind_ok in H as (u & w1 & Hu & H).
  apply bind_ok in H as (ids & w2 & Hl & H). apply bind_ok in H as (n' & w3 & Hr & H).
  apply bind_ok in H as ([] & w4 & Hd & H). mstep H. apply ret_ok in H as [-> <-].
  exists u, ids, w1, w2, w3, w4. split; [exact Hu|]. split; [exact Hl|]. split; [exact Hr|]. split; [exact Hd|].
  unfold audit, record_audit in Hm. by destruct (has_audit s); simplify_eq.
Qed.

(** The families of the user in [d] are revoked in [d']. *)

Definition logged_out (id : string) (d d' : DB) : Prop :=
  ∀ k f, token_families d !! k = Some f → Family.UserID f = id → is_Some (token_families d' !! k) ∧ family_revoked d' k.

Lemma logged_out_le id d0 d d' d1 : db_le d0 d → db_le d' d1 → logged_out id d d' → logged_out id d0 d1.
Proof.
  intros H0 H1 H k f Hk Hu. destruct (le_families _ _ H0 _ _ Hk) as (f' & Hk' & Hf).
  assert (Family.UserID f' = id) as Hu' by (by destruct Hf as [->|[_ [? ->]]]).
  destruct (H _ _ Hk' Hu') as [[g Hg] Hr]. split; [|by eapply family_revoked_le].
  destruct (le_families _ _ H1 _ _ Hg) as (g' & ? & _). eauto.
Qed.

Lemma RevokeByUserID_ok id e w n w' :
  TokenStore.RevokeByUserID id e w = (Ok n, w') → rely db_step e → wf_db (w_db w) →
  logged_out id (w_db w) (w_db w').
Proof.
  intros H HR Hwf. apply store_ok in H as (now & d & d' & -> & -> & [= <- <-] & ->). simpl.
  destruct (HR (w_tick w) (w_db w) Hwf) as [_ Hle]. eapply logged_out_le; [exact Hle|reflexivity|].
  intros k f Hk Hu. simpl. split; [rewrite lookup_update_rows, Hk; by eexists|].
  intros f'. simpl. rewrite lookup_update_rows, Hk. simpl. rewrite (bool_decide_true (Family.UserID f = id)) by done.
  simpl. destruct (Family.IsActive f) eqn:Ha; by intros [= <-].
Qed.

Lemma traced_list_users s id : Traced db_step any_event
  (if has_revocation s
   then r ← TokenStore.ListFamilies (logoutFilter id); mret (fmap Family.ID r.1) else mret []).
Proof. unfold TokenStore.ListFamilies. destruct (has_revocation s); traced; done. Qed.

(** The ids collected are those of the active families, while a page holds
    them. *)

Lemma listed_ok id e w ids w' :
  (r ← TokenStore.ListFamilies (logoutFilter id); mret (fmap Family.ID r.1)) e w = (Ok ids, w') → ∃ d,
    w_db w' = d ∧ seen w w' (d, d) ∧
    (length (TokenStore.family_rows (logoutFilter id) d) <= logoutPage →
     ids = fmap Family.ID (TokenStore.family_rows (logoutFilter id) d)).
Proof.
  intros H. mstep H. apply ret_ok in H as [<- <-]. unfold TokenStore.ListFamilies in Hm. mstep Hm.
  apply bind_ok in Hm as (rows & w2 & H2 & Hm). apply ret_ok in Hm as [<- <-].
  assert (extends w w1) by (eapply (traced_extends (S:=db_step) (P:=any_event)); [apply traced_query|done]).
  assert (extends w1 w2) by (eapply (traced_extends (S:=db_step) (P:=any_event)); [apply traced_query|done]).
  apply query_seen in H2 as (now & d & [= <-] & Hs & -> & _). exists d. split; [done|]. split; [by eapply seen_right|].
  intros Hn. simpl. by rewrite drop_0, take_ge.
Qed.

Lemma refresh_refused_of ts req e w r w' k t f :
  rely db_step e → wf_db (w_db w) → refresh_tokens (w_db w) !! k = Some t →
  token_families (w_db w) !! Refresh.FamilyID t = Some f → Family.IsActive f = false →
  Refresh.TokenHash t = HashSHA256 (params e) (TokenService.RefreshTokenValue req) →
  TokenService.RefreshToken ts req e w = (r, w') → ∃ x, r = Err x.
Proof.
  intros HR Hwf Hk Hf Ha Hh H. destruct r as [resp|x]; [|eauto]. exfalso. pose proof H as Hrun.
  apply denied_ok, refreshToken_ok in H as (x & w1 & w2 & Hg & _ & _ & ? & ? & ?).
  destruct (rg_token _ _ _ _ _ Hg) as (d1 & k1 & Hd1 & Hk1 & Hh1).
  destruct (rg_family _ _ _ _ _ Hg) as (d2 & Hd2 & Hf2 & Ha2).
  assert (seen w w' (d1, d1)) as S1 by seen_tac. assert (seen w w' (d2, d2)) as S2 by seen_tac.
  destruct (seen_between _ _ _ _ _ _ (traced_RefreshToken ts req) Hrun HR Hwf S1) as (Hwf1 & _ & L1 & _).
  destruct (seen_between _ _ _ _ _ _ (traced_RefreshToken ts req) Hrun HR Hwf S2) as (_ & _ & L2 & _). simpl in *.
  destruct (le_refresh _ _ L1 _ _ Hk) as (t1 & Ht1 & Hle).
  assert (k1 = k) as ->.
  { eapply (wf_refresh_hash _ Hwf1 _ _ _ _ (Refresh.TokenHash t)); [exact Hk1|exact Ht1|congruence|].
    f_equal. by destruct (rt_le_static _ _ Hle). }
  simplify_eq. assert (Refresh.FamilyID (TokenService.rf_token x) = Refresh.FamilyID t) as Hfid
    by (by destruct Hle as [->|[_ [? ->]]]).
  destruct (le_families _ _ L2 _ _ Hf) as (f2 & Hf2' & Hle2). rewrite Hfid in Hf2. simplify_eq.
  destruct Hle2 as [E|[? _]]; congruence.
Qed.

(** C13: a forced logout reaches every session of the user.  Whatever fails
    and whoever interferes, when [ForceLogoutUser] answers success every
    family the user had is revoked, and every later request to refresh with a
    token of one of them is answered with an error.  When no call fails, and
    at most 500 families were active when they were listed, every access token
    tracked for one of those is on the denylist. *)
Theorem force_logout_reaches s id e w n w' :
  rely db_step e → wf_db (w_db w) → ForceLogoutUser s id e w = (Ok n, w') →
  logged_out id (w_db w) (w_db w') ∧
  (∀ ts req e2 w2 r w3 k t f, db_step (w_db w') (w_db w2) → rely db_step e2 →
     refresh_tokens (w_db w) !! k = Some t → token_families (w_db w) !! Refresh.FamilyID t = Some f → Family.UserID f = id →
     Refresh.TokenHash t = HashSHA256 (params e2) (TokenService.RefreshTokenValue req) →
     TokenService.RefreshToken ts req e2 w2 = (r, w3) → ∃ x, r = Err x) ∧
  (fault_free e → has_revocation s = true → ∃ d, seen w w' (d, d) ∧ db_le (w_db w) d ∧
     (length (TokenStore.family_rows (logoutFilter id) d) <= logoutPage →
      ∀ k f, token_families d !! k = Some f → Family.UserID f = id → Family.IsActive f = true →
        family_denylisted d (w_db w') k)).
Proof.
  intros HR Hwf H. apply logout_ok in H as (u & ids & w1 & w2 & w3 & w4 & H1 & H2 & H3 & H4 & Ew & Es).
  assert (Traced db_step any_event (UserStore.GetByID id)) as T1 by (traced; done).
  assert (Traced db_step any_event (TokenStore.RevokeByUserID id)) as T3 by apply traced_revoke_families_where.
  assert (Traced db_step any_event (when (has_revocation s) (denylist_loop ids))) as T4
    by (apply traced_when, traced_denylist).
  destruct (traced_db _ _ _ _ _ T1 H1 HR Hwf) as [Hwf1 L1].
  destruct (traced_db _ _ _ _ _ (traced_list_users s id) H2 HR Hwf1) as [Hwf2 L2].
  destruct (traced_db _ _ _ _ _ T3 H3 HR Hwf2) as [Hwf3 L3]. destruct (traced_db _ _ _ _ _ T4 H4 HR Hwf3) as [Hwf4 L4].
  pose proof (RevokeByUserID_ok _ _ _ _ _ H3 HR Hwf2) as Hout.
  assert (logged_out id (w_db w) (w_db w')) as Hlo by (rewrite Ew; eapply logged_out_le, Hout; [by etrans|done]).
  pose proof (traced_extends _ _ _ _ _ T1 H1). pose proof (traced_extends _ _ _ _ _ (traced_list_users s id) H2).
  pose proof (traced_extends _ _ _ _ _ T3 H3). pose proof (traced_extends _ _ _ _ _ T4 H4).
  assert (extends w4 w') by (exists []; by rewrite Es, app_nil_r).
  split; [done|]. split.
  - intros ts req e2 v r v' k t f Hs HR2 Hk Hf Hu Hh Hg. destruct (Hs ltac:(by rewrite Ew)) as [Hwf5 L5].
    destruct (logged_out_le _ _ _ _ _ ltac:(reflexivity) L5 Hlo _ _ Hf Hu) as [[g Hg'] Hr].
    assert (db_le (w_db w) (w_db v)) as L by (etrans; [|exact L5]; rewrite Ew; by do 3 (etrans; [eassumption|])).
    destruct (le_refresh _ _ L _ _ Hk) as (t' & Ht' & Hle).
    assert (Refresh.FamilyID t' = Refresh.FamilyID t) as E by (by destruct Hle as [->|[_ [? ->]]]).
    eapply (refresh_refused_of ts req e2 v r v' k t' g); [done|done|done|by rewrite E|by apply Hr| |done].
    rewrite <-Hh. by destruct (rt_le_static _ _ Hle).
  - intros Hff Hs. rewrite Hs in H2, H4. apply listed_ok in H2 as (d & <- & Hd & Hids). exists (w_db w2).
    split; [seen_tac|]. split; [by etrans|]. intros Hn k f Hk Hu Ha.
    destruct (denylist_loop_run ids e w3 Hff HR Hwf3) as (w5 & Hrun & Hden). simpl in H4. rewrite H4 in Hrun. injection Hrun as <-.
    rewrite Ew. eapply family_denylisted_le; [exact L3|reflexivity|]. apply Hden. rewrite (Hids Hn).
    apply list_elem_of_fmap. exists f. split; [by rewrite (wf_families_key _ Hwf2 _ _ Hk)|].
    apply TokenStore.elem_of_family_rows. split; [|eauto]. unfold TokenStore.family_matches. simpl.
    rewrite (bool_decide_true (Family.UserID f = id)), orb_true_r by done. unfold Family.IsActive in Ha. by destruct (Family.Status f).
Qed.

(** ** The audit feed *)

Section feed.
Context (cfg : option (Z * Z)).

(** The largest lookback, built in or configured. *)

Definition maxLookback : Z := (auditBounds cfg).2.

Lemma maxLookback_pos : (0 < maxLookback)%Z ∧ ((auditBounds cfg).1 <= maxLookback)%Z.
Proof.
  unfold maxLookback, auditBounds.
  assert (0 < maxAuditSinceWindow ∧ defaultAuditSinceWindow <= maxAuditSinceWindow)%Z as [Hp Hd] by done. revert Hp Hd.
  generalize maxAuditSinceWindow defaultAuditSinceWindow. intros m d Hp Hd.
  destruct cfg as [[rd rm]|]; repeat case_bool_decide; simpl; lia.
Qed.

Lemma boundAuditSince_ok since e w t w' :
  boundAuditSince cfg since e w = (Ok t, w') → (maxLookback < 2 ^ 63 - 1)%Z → ∃ n,
    (clock e n - t <= maxLookback)%Z ∧ (∀ x, since = Some x → t = x) ∧
    (since = None → t = clock e n - (auditBounds cfg).1)%Z.
Proof.
  unfold boundAuditSince. intros H Hml. apply bind_ok in H as (resolved & w1 & H1 & H).
  assert (resolved = cfg) as ->.
  { destruct cfg; [|by apply ret_ok in H1 as [<- _]].
    mstep H1. by apply ret_ok in H1 as [<- _]. }
  pose proof maxLookback_pos as [Hp Hd]. unfold maxLookback in *.
  destruct (auditBounds cfg) as [dl ml]. simpl in *. mstep H. injection Hm as <- <-. exists (w_tick w1).
  destruct since as [x|].
  - destruct (andb _ _) eqn:Hb; [by apply throw_ok in H|]. apply ret_ok in H as [<- _].
    rewrite bool_decide_true in Hb by done. simpl in Hb. apply bool_decide_eq_false in Hb. unfold time_Sub in Hb.
    split; [lia|]. split; [congruence|done].
  - apply ret_ok in H as [<- _]. split; [lia|]. split; [done|]. intros _. lia.
Qed.

Lemma boundAuditPage_ok limit offset l o :
  boundAuditPage limit offset = inl (l, o) →
  (0 < l <= maxAuditQueryLimit)%Z ∧ (0 <= o <= maxAuditQueryOffset)%Z ∧
  (l = limit ∨ (limit <= 0)%Z ∧ l = defaultAuditQueryLimit) ∧ (o = offset ∨ (offset < 0)%Z ∧ o = 0%Z).
Proof.
  unfold boundAuditPage, maxAuditQueryLimit, maxAuditQueryOffset, defaultAuditQueryLimit.
  intros H. repeat case_bool_decide; simplify_eq; lia.
Qed.

(** A row of a page. *)

Lemma query_row events f rows r :
  AuditStore.Query events f = Ok rows → r ∈ rows → r ∈ events ∧ AuditStore.matches f r = true.
Proof.
  unfold AuditStore.Query. intros H Hr.
  assert (r ∈ merge_sort AuditStore.newest_first (filter (λ r, AuditStore.matches f r = true) events)) as Hin.
  { repeat case_bool_decide; simplify_eq; [|done].
    apply list_elem_of_lookup in Hr as [i [Hi _]%lookup_take_Some]. rewrite lookup_drop in Hi. by eapply list_elem_of_lookup_2. }
  rewrite merge_sort_Permutation, list_elem_of_filter in Hin. naive_solver.
Qed.

Lemma matches_since f r :
  AuditStore.matches f r = true → (0 < AuditStore.f_SinceUnix f)%Z →
  (AuditStore.f_SinceUnix f * SqlTime.nano < AuditStore.row_CreatedAt r + SqlTime.nano)%Z.
Proof.
  unfold AuditStore.matches. intros H Hs. rewrite !andb_true_iff in H. destruct H as (_ & _ & _ & H & _).
  rewrite bool_decide_false in H by lia. simpl in H. apply negb_true_iff in H.
  apply Z.nle_gt. intros Hle. rewrite SqlTime.text_lt_of_lt in H; done.
Qed.

Lemma auditQuery_ok filter e w f w' :
  auditQuery cfg filter e w = (Ok f, w') → (maxLookback < 2 ^ 63 - 1)%Z → ∃ n since l o u,
    f = AuditStore.MkFilter (af_Action filter) (af_ActorID filter) (af_ClientID filter) l o (Unix since) u ∧
    boundAuditPage (af_Limit filter) (af_Offset filter) = inl (l, o) ∧
    (clock e n - maxLookback <= since)%Z ∧
    (∀ t, af_Since filter = Some t → since = t) ∧ (∀ u, af_Until filter = Some u → (since < u)%Z).
Proof.
  unfold auditQuery. intros H Hml. apply bind_ok in H as (since & w2 & Hs & H).
  destruct (boundAuditSince_ok _ _ _ _ _ Hs Hml) as (n & Hn & Hsome & _).
  destruct (boundAuditPage _ _) as [[l o]|]; [|by apply throw_ok in H].
  destruct (af_Until filter) as [u|].
  - case_bool_decide; [by apply throw_ok in H|]. apply ret_ok in H as [<- _]. exists n, since, l, o, (Unix u).
    split_and!; [done|done|lia|done|]. intros ? [= <-]. lia.
  - apply ret_ok in H as [<- _]. exists n, since, l, o, 0%Z. split_and!; [done|done|lia|done|done].
Qed.

(** The audit feed hands out bounded pages of recent rows and does not
    truncate silently.  When [QueryAudit] answers, the page has at most as many
    rows as asked for (50 when nothing was asked), never more than 1000, after
    skipping at most 100000; the window asked for was within the largest
    lookback and not empty; and every row is a recorded event that passes the
    filters and is not older than that lookback (up to the two seconds that
    whole seconds and the order of the stored texts blur).  A request beyond a
    bound is therefore an error. *)
Theorem audit_feed_bounded events filter e w rows w' :
  (maxLookback < 2 ^ 63 - 1)%Z → (∀ n, maxLookback + SqlTime.nano <= clock e n)%Z →
  QueryAudit cfg events filter e w = (Ok rows, w') → ∃ n since,
    (Z.of_nat (length rows) <= Z.min 1000 (if bool_decide (af_Limit filter <= 0)%Z then 50 else af_Limit filter))%Z ∧
    (af_Limit filter <= 1000)%Z ∧ (af_Offset filter <= 100000)%Z ∧
    (clock e n - maxLookback <= since)%Z ∧
    (∀ t, af_Since filter = Some t → since = t) ∧ (∀ u, af_Until filter = Some u → (since < u)%Z) ∧
    ∀ r, r ∈ rows → r ∈ events ∧ (clock e n - maxLookback - 2 * SqlTime.nano < AuditStore.row_CreatedAt r)%Z ∧
      (af_Action filter ≠ "" → AuditStore.row_action r = af_Action filter) ∧
      (af_ActorID filter ≠ "" → Audit.ActorID (AuditStore.row_event r) = af_ActorID filter) ∧
      (af_ClientID filter ≠ "" → Audit.ClientID (AuditStore.row_event r) = af_ClientID filter).
Proof.
  intros Hml Hclk H. unfold QueryAudit in H. apply bind_ok in H as (f & w1 & Hq & H).
  apply query_ok in H as (_ & _ & _ & _ & Hrows & _).
  destruct (auditQuery_ok _ _ _ _ _ Hq Hml) as (n & since & l & o & u & -> & Hpg & Hn & Hsince & Huntil).
  apply boundAuditPage_ok in Hpg as (Hl & Ho & Hl' & Ho'). unfold maxAuditQueryLimit, maxAuditQueryOffset, defaultAuditQueryLimit in *.
  exists n, since. split_and!; [| | |done|done|done|].
  - unfold AuditStore.Query in Hrows. simpl in Hrows. rewrite bool_decide_true in Hrows by lia. injection Hrows as <-.
    rewrite length_take. case_bool_decide; lia.
  - lia.
  - lia.
  - intros r Hr. destruct (query_row _ _ _ _ Hrows Hr) as [Hin Hm]. split; [done|]. split.
    + specialize (Hclk n). assert (0 < Unix since)%Z as Hu by (unfold Unix; apply Z.div_str_pos; unfold SqlTime.nano in *; lia).
      pose proof (matches_since _ _ Hm Hu) as Hx. simpl in Hx. unfold Unix in Hx.
      pose proof (Z.mul_div_le since SqlTime.nano ltac:(done)). pose proof (Z.mul_succ_div_gt since SqlTime.nano ltac:(done)). lia.
    + unfold AuditStore.matches in Hm. simpl in Hm. rewrite !andb_true_iff, !orb_true_iff, !bool_decide_eq_true in Hm. naive_solver.
Qed.

End feed.

(** ** Secrets *)

Lemma query_run {A} (f : Z → DB → res A) e w :
  fault_free e → ∃ now d, (∀ S, rely S e → S (w_db w) d) ∧ query f e w = (f now d, after w d [(d, d)]).
Proof.
  intros Hff. destruct (store_run (λ t d, (f t d, d)) e w Hff) as (now & d & Hd & Hst). exists now, d. by split.
Qed.

Lemma authenticate_run id secret e w c :
  fault_free e → rely same_clients e → clients (w_db w) !! id = Some c →
  ((∃ c', (TokenService.authenticateClient id secret e w).1 = Ok c') ↔ authentic (params e) c secret).
Proof.
  intros Hff HR Hc. unfold TokenService.authenticateClient, ClientStore.GetByID.
  destruct (query_run (λ _ d, match clients d !! id with Some c => Ok c | None => Err ErrInvalidClient end) e w Hff)
    as (now & d & Hd & Hq).
  pose proof (Hd _ HR) as E. unfold same_clients in E. rewrite E, Hc in Hq.
  rewrite (bind_step _ _ _ _ _ _ (try_run _ _ _ _ _ Hq)). unfold mbind, M_bind, ask. simpl. unfold authentic.
  destruct (Client.IsActive c), (Client.IsPublic c); simpl; repeat case_bool_decide; simpl;
    try (destruct (CompareClientSecret _ _ _)); simpl; split;
    try (by intros [? ?]); try (by intros (? & ?)); try (by intros (? & ? & ?)); intros; (done || by eexists).
Qed.

(** The row right after a rotation. *)

Lemma rotated_row s hb id e w i plain w' :
  rely (client_step id) e → keyed Client.ID (clients (w_db w)) →
  RotateClientSecret s hb id e w = (Ok (i, plain), w') → ∃ c, clients (w_db w') !! id = Some c ∧ i = id ∧
    HashClientSecret (params e) hb plain = Some (Client.SecretHash c).
Proof.
  intros HR Hk H. unfold RotateClientSecret in H. apply bind_ok in H as (c & w1 & H1 & H).
  apply query_seen in H1 as (_ & d & Hd & _ & _ & HS). pose proof (HS _ HR Hk) as [Hkd _].
  destruct (clients d !! id) as [c0|] eqn:Hc; simplify_eq. pose proof (Hkd _ _ Hc) as Hid.
  apply bind_ok in H as (u0 & w2 & Hp & H). clear Hp.
  apply bind_ok in H as (pl & w3 & _ & H). apply bind_ok in H as (hash & w4 & Hh & H).
  apply hashSecret_ok in Hh. apply bind_ok in H as (now & w5 & _ & H). apply bind_ok in H as (u & w6 & Hu & H).
  mstep H. apply ret_ok in H as [E <-]. injection E as <- <-.
  assert (w_db w0 = w_db w6) as -> by (by unfold audit, record_audit in Hm; destruct (has_audit s); simplify_eq).
  apply store_ok in Hu as (? & d2 & d2' & _ & _ & Hu & ->). simpl in *. rewrite Hid in Hu.
  destruct (clients d2 !! id); [|done]. case_bool_decide; [|done]. injection Hu as _ <-.
  eexists. simpl. rewrite lookup_insert_eq. split; [done|]. split; [done|]. exact Hh.
Qed.

(** After a rotation the new secret authenticates and nothing else does.
    With a pepper configured, once [RotateClientSecret] answered with a secret,
    and as long as the client rows stay as they are and no call fails, a
    request of this client authenticates exactly when the client is active and
    the secret it presents is not empty and has the digest of the one handed
    out: the old secret is refused (unless it collides), whatever interfered
    with the rotation. *)
Theorem rotation_replaces_the_secret s hb id e w i plain w' e2 w2 secret :
  rely (client_step id) e → keyed Client.ID (clients (w_db w)) →
  RotateClientSecret s hb id e w = (Ok (i, plain), w') →
  pepper (params e) ≠ "" → params e2 = params e → fault_free e2 → rely same_clients e2 →
  clients (w_db w2) = clients (w_db w') → ∃ c, clients (w_db w2) !! id = Some c ∧
    ((∃ c', (TokenService.authenticateClient id secret e2 w2).1 = Ok c') ↔
     Client.IsActive c = true ∧ secret ≠ "" ∧
     hmac_b64 (params e) (pepper (params e)) plain = hmac_b64 (params e) (pepper (params e)) secret).
Proof.
  intros HR Hk H Hp Hps Hff HR2 Hcl. destruct (rotated_row _ _ _ _ _ _ _ _ HR Hk H) as (c & Hc & _ & Hh).
  rewrite <-Hcl in Hc. exists c. split; [done|]. rewrite (authenticate_run _ _ _ _ _ Hff HR2 Hc). unfold authentic.
  assert (Client.IsPublic c = false) as Hpub.
  { unfold Client.IsPublic. apply bool_decide_eq_false. intros E. rewrite E in Hh. unfold HashClientSecret in Hh.
    by rewrite bool_decide_false in Hh. }
  rewrite Hpub, Hps, (CompareClientSecret_hmac _ _ _ _ _ Hp Hh). done.
Qed.

(** ** Runs *)

Module OutcomeRuns.
Import Scenario.

Definition deleted : res unit * World := DeleteClient AdminRuns.wired "svc" false env (MachineRuns.world None).

Definition peppered : Env :=
  MkEnv (fault env) (clock env) (rand env) (interfere env)
    (MkParams (sha256_hex (params env)) (sha256_b64url (params env)) (hmac_b64 (params env)) (bcrypt_ok (params env)) "pepper"
       (url_parse (params env)) (url_string (params env)) (jws_sign (params env)) (jws_open (params env))
       (proof_open (params env)) (jag_parse (params env)) (jag_verify (params env)))
    (Effects.config env).

Definition rotated : res (string * string) * World :=
  RotateClientSecret AdminRuns.wired AdminRuns.bcrypt "svc" peppered (MachineRuns.world None).

(** Sessions of [alice], each with a tracked access token; the first one has
    a refresh token. *)

Definition name (prefix : string) (n : nat) : string := prefix +:+ SqlTime.digits 4 (Z.of_nat n).

Definition family (n : nat) : Family.Family :=
  Family.MkFamily (name "f" n) "app" "alice" "read" "https://api" Family.FamilyActive
    (Z.of_nat n * SqlTime.nano) None (name "s" n).

Definition refresh : Refresh.RefreshToken :=
  Refresh.MkRefresh "t1" "f0000" "#rt" (start + 86400 * SqlTime.nano) None start.

Definition sessions (n : nat) : DB :=
  MkDB {["app" := app]} {["alice" := alice]} ∅ (list_to_map ((λ k, (name "f" k, family k)) <$> seq 0 n))
    {["t1" := refresh]} (list_to_map ((λ k, (name "j" k, (name "f" k, (start + 3600 * SqlTime.nano)%Z))) <$> seq 0 n))
    ∅ ∅ ∅ {["res1" := api]} ∅ ∅ ∅ ∅ ∅ ∅ empty_xaa ∅.

Definition logged_out_of (n : nat) : res nat * World := ForceLogoutUser AdminRuns.wired "alice" env (MkWorld (sessions n) 0 [] []).

Definition claims : AccessTokenClaims :=
  MkClaims "https://as" "alice" ["https://api"] "app" "read" "j0000" 1000 4600 1000 None None "" [].

(** Introspection of the access token of the first session. *)

Definition introspected (w : World) : res IntrospectionService.IntrospectResponse :=
  (IntrospectionService.IntrospectToken (IntrospectionService.MkWiring true true true true true true)
     (IntrospectionService.MkIntrospect "tok" "app" "sec") (env_with [("tok", claims)]) w).1.

Definition events : list AuditStore.Row :=
  (λ k, AuditStore.MkRow "token.revoked" (Audit.NewEvent Audit.ActionTokenRevoked "admin" "app" "" "") (Z.of_nat k * SqlTime.nano)%Z)
    <$> seq 0 3.

Definition feed_env : Env :=
  MkEnv (fault env) (λ _, (100 * 24 * 3600 * SqlTime.nano)%Z) (rand env) (interfere env) (params env) (Effects.config env).

Definition feed : res (list AuditStore.Row) * World :=
  QueryAudit None events (MkAuditFilter "" "" "" None None 0 0) feed_env world.

Definition refresh_req : TokenService.RefreshTokenRequest := TokenService.MkRefreshRequest "rt" "app" "sec" "" "" "" "" "".

End OutcomeRuns.


Lemma deletion_all_or_nothing_witness :
  OutcomeRuns.deleted.1 = Ok tt ∧ ∃ d, own_steps (MachineRuns.world None) OutcomeRuns.deleted.2 = [(d, ClientStore.cascade "svc" d)].
Proof.
  assert (OutcomeRuns.deleted.1 = Ok tt) as E by (by vm_compute). split; [exact E|].
  destruct (proj1 (deletion_all_or_nothing AdminRuns.wired "svc" false Scenario.env (MachineRuns.world None) eq_refl)
    (Ok tt) OutcomeRuns.deleted.2 (run_eq OutcomeRuns.deleted (Ok tt) E)) as (d & Hd & _).
  exists d. exact Hd.
Defined.

Lemma sessions_wf : wf_db (OutcomeRuns.sessions 1).
Proof.
  split; simpl; try done.
  - intros k a. rewrite lookup_insert_Some, lookup_empty. naive_solver.
  - intros k1 k2 a1 a2 v. rewrite !lookup_insert_Some, !lookup_empty. naive_solver.
  - intros k a. rewrite lookup_singleton_Some. by intros [<- <-].
  - intros k1 k2 a1 a2 v. rewrite !lookup_singleton_Some. naive_solver.
  - intros k t. rewrite lookup_singleton_Some. intros [<- <-]. exists (OutcomeRuns.family 0). by vm_compute.
  - intros j x. rewrite lookup_insert_Some, lookup_empty. intros [[<- <-]|[_ ?]]; [|done].
    exists (OutcomeRuns.family 0). by vm_compute.
Qed.

Lemma logged_out_of_1 : (OutcomeRuns.logged_out_of 1).1 = Ok 1.
Proof. by vm_compute. Qed.

Lemma force_logout_reaches_witness : ∃ x,
  (TokenService.RefreshToken (TokenService.MkWiring true true true true true true true) OutcomeRuns.refresh_req Scenario.env
     (OutcomeRuns.logged_out_of 1).2).1 = Err x.
Proof.
  destruct (force_logout_reaches AdminRuns.wired "alice" Scenario.env (MkWorld (OutcomeRuns.sessions 1) 0 [] []) 1
    (OutcomeRuns.logged_out_of 1).2 (Scenario.env_rely _ []) sessions_wf
    (run_eq (OutcomeRuns.logged_out_of 1) (Ok 1) logged_out_of_1)) as (_ & H & _).
  destruct (TokenService.RefreshToken _ _ _ _) as [r w3] eqn:Hr in |- *.
  destruct (H (TokenService.MkWiring true true true true true true true) OutcomeRuns.refresh_req Scenario.env (OutcomeRuns.logged_out_of 1).2 r w3 "t1" OutcomeRuns.refresh (OutcomeRuns.family 0)
    (reflexivity _) (Scenario.env_rely _ []) eq_refl eq_refl eq_refl eq_refl Hr) as [x ->]. by exists x.
Defined.

(** A forced logout stops at 500 sessions.  A user with 500 active
    sessions loses every access token; with 501, [ForceLogoutUser] still
    revokes 501 families and answers success, and the access token of the
    oldest session still introspects as active. *)
Theorem force_logout_stops_at_page :
  (OutcomeRuns.logged_out_of 500).1 = Ok 500 ∧
  OutcomeRuns.introspected (OutcomeRuns.logged_out_of 500).2 = Ok IntrospectionService.Inactive ∧
  (OutcomeRuns.logged_out_of 501).1 = Ok 501 ∧
  OutcomeRuns.introspected (OutcomeRuns.logged_out_of 501).2 =
    Ok (IntrospectionService.Active (IntrospectionService.activeResponse OutcomeRuns.claims)).
Proof. vm_compute. auto. Qed.

Lemma audit_feed_bounded_witness : ∃ rows, OutcomeRuns.feed.1 = Ok rows ∧ (Z.of_nat (length rows) <= 50)%Z.
Proof.
  assert (∃ rows, OutcomeRuns.feed.1 = Ok rows) as [rows E] by (vm_compute; eauto). exists rows. split; [exact E|].
  destruct (audit_feed_bounded None OutcomeRuns.events (MkAuditFilter "" "" "" None None 0 0) OutcomeRuns.feed_env Scenario.world
    rows OutcomeRuns.feed.2) as (n & since & Hl & _).
  - vm_compute. reflexivity.
  - intros n. vm_compute. discriminate.
  - exact (run_eq OutcomeRuns.feed (Ok rows) E).
  - exact Hl.
Defined.

Lemma rotation_replaces_the_secret_witness : ∃ c,
  (TokenService.authenticateClient "svc" "r0001" OutcomeRuns.peppered OutcomeRuns.rotated.2).1 = Ok c.
Proof.
  assert (OutcomeRuns.rotated.1 = Ok ("svc", "r0001")) as E by (by vm_compute).
  destruct (rotation_replaces_the_secret AdminRuns.wired AdminRuns.bcrypt "svc" OutcomeRuns.peppered (MachineRuns.world None)
    "svc" "r0001" OutcomeRuns.rotated.2 OutcomeRuns.peppered OutcomeRuns.rotated.2 "r0001") as (c & Hc & H).
  - intros n d. reflexivity.
  - exact svc_keyed.
  - exact (run_eq OutcomeRuns.rotated _ E).
  - discriminate.
  - reflexivity.
  - intros n. reflexivity.
  - intros n d. reflexivity.
  - reflexivity.
  - apply H. split; [|split; [discriminate|reflexivity]]. clear H E. revert Hc. vm_compute. by intros [= <-].
Defined.
