(* ===== verification/ResourceAdmin.v ===== *)
(** * Administration of resources, broker providers and issuances

    internal/services/resource_admin.go, broker_provider_admin.go and
    issuance_admin.go, one definition per method.  The fronting hooks are the
    ones of [FrontingService].  [encoding/json] and the secret encoder are
    arguments of the provider service. *)

From stdpp Require Import pretty.
From S2P Require Import Prelude GoStrings ScopeSet Act Domain Db Effects Crypto Stores Fronting.

(** The names of the fields a patch sets. *)

Definition touched_field {A} (o : option A) (name : list string) : list string :=
  match o with Some _ => name | None => [] end.

Module ResourceAdminService.

Record Wiring := MkWiring {
  has_fronting : bool;
  fronting_audit : bool;
  has_tx : bool;
  has_audit : bool
}.

(** Policy of a resource; a nil field of a patch is [None]. *)

Record Policy := MkPolicy {
  Exchange_AllowedClientIDs : list string;
  Runtime_ClientIDs : list string;
  Connect_AllowedReturnURLs : list string
}.

Record ResourcePatch := MkPatch {
  rp_Slug : option string;
  rp_URI : option string;
  rp_BackendKind : option Resource.BackendKind;
  rp_BrokerProviderID : option string;
  rp_DisplayName : option string;
  rp_Scopes : option (list Resource.ScopeDef);
  rp_Policy : option Policy
}.

Section service.
Variable s : Wiring.

Definition audit (a : Audit.Action) (clientID detail : string) : M unit :=
  record_audit (has_audit s) (Audit.NewEvent a "admin" clientID "" detail).

Definition List (f : ResourceStore.Filter) : M (list Resource.Resource) := ResourceStore.List f.

Definition GetByID (id : string) : M Resource.Resource := ResourceStore.GetByID id.

Definition GetBySlug (slug : string) : M Resource.Resource := ResourceStore.GetBySlug slug.

(** ** Checks *)

Definition validateBrokerProviderRef (kind : Resource.BackendKind) (providerID : string) : M unit :=
  if bool_decide (kind ≠ Resource.BackendBroker) then mret tt
  else if bool_decide (providerID = "") then throw (EInvalidRequest "broker resource must reference a broker provider")
  else
    r ← try (BrokerProviderStore.GetByID providerID);
    match r with
    | Ok _ => mret tt
    | Err ErrResourceNotFound => throw (EInvalidRequest "broker_provider_id does not exist")
    | Err x => throw x
    end.

Definition assertSlugAvailable (slug excludeID : string) : M unit :=
  r ← try (ResourceStore.GetBySlug slug);
  match r with
  | Err ErrResourceNotFound => mret tt
  | Err x => throw x
  | Ok existing => if bool_decide (Resource.ID existing = excludeID) then mret tt
                   else throw (EConflict "slug is already in use")
  end.

Definition knownClient (clientID : string) : M unit :=
  r ← try (ClientStore.GetByID clientID);
  match r with
  | Ok _ => mret tt
  | Err ErrInvalidClient => throw (EInvalidRequest "client_id does not exist")
  | Err x => throw x
  end.

Fixpoint validateClientIDList (ids : list string) : M unit :=
  match ids with
  | [] => mret tt
  | cid :: rest =>
      if bool_decide (cid = "") then throw (EInvalidRequest "list must not contain empty entries")
      else _ ← knownClient cid; validateClientIDList rest
  end.

Definition validatePolicyClients (r : Resource.Resource) : M unit :=
  _ ← validateClientIDList (Resource.AllowedClientIDs r);
  validateClientIDList (Resource.RuntimeClientIDs r).

Definition check (r : Resource.Resource) : M unit :=
  up ← ask (λ e, url_parse (params e));
  match Resource.Validate up r with
  | Some x => throw x
  | None => mret tt
  end.

Definition validateReturnURL (up : string → option URL) (returnURL : string) : option err :=
  if bool_decide (returnURL = "") then Some (EInvalidRequest "url is required")
  else if orb (orb (strings_HasPrefix returnURL "http://localhost:") (strings_HasPrefix returnURL "http://127.0.0.1:"))
            (orb (strings_HasPrefix returnURL "https://localhost:") (strings_HasPrefix returnURL "https://127.0.0.1:"))
  then None
  else match up returnURL with
       | None => Some (EInvalidRequest "url is not a valid URL")
       | Some u =>
           if bool_decide (url_Scheme u = "") then Some (EInvalidRequest "url must be absolute")
           else if negb (orb (bool_decide (url_Scheme u = "http")) (bool_decide (url_Scheme u = "https")))
           then Some (EInvalidRequest "url scheme must be http or https")
           else if bool_decide (url_Host u = "") then Some (EInvalidRequest "url must include a host")
           else None
       end.

(** ** Rows *)

Definition with_policy (r : Resource.Resource) (p : Policy) : Resource.Resource :=
  Resource.MkResource (Resource.ID r) (Resource.Slug r) (Resource.DisplayName r) (Resource.URI r) (Resource.Kind r)
    (Resource.BrokerProviderID r) (Resource.Scopes r) (Exchange_AllowedClientIDs p) (Runtime_ClientIDs p)
    (Connect_AllowedReturnURLs p) (Resource.CreatedAt r) (Resource.UpdatedAt r).

Definition policy_of (r : Resource.Resource) : Policy :=
  MkPolicy (Resource.AllowedClientIDs r) (Resource.RuntimeClientIDs r) (Resource.AllowedReturnURLs r).

Definition stripMintConnectPolicy (r : Resource.Resource) : Resource.Resource :=
  if Resource.IsMint r
  then with_policy r (MkPolicy (Resource.AllowedClientIDs r) (Resource.RuntimeClientIDs r) [])
  else r.

Definition stamped (r : Resource.Resource) (now : Z) : Resource.Resource :=
  Resource.MkResource (Resource.ID r) (Resource.Slug r) (Resource.DisplayName r) (Resource.URI r) (Resource.Kind r)
    (Resource.BrokerProviderID r) (Resource.Scopes r) (Resource.AllowedClientIDs r) (Resource.RuntimeClientIDs r)
    (Resource.AllowedReturnURLs r) (Resource.CreatedAt r) now.

(** The store replaces the slug of the row it is given by its normal form. *)

Definition canonical (r : Resource.Resource) : Resource.Resource :=
  match Resource.NormalizeSlug (Resource.Slug r) with
  | inl slug => ResourceStore.set_slug r slug (Resource.CreatedAt r)
  | inr _ => r
  end.

(** ** Create *)

Definition fresh (r : Resource.Resource) (id : string) (now : Z) : Resource.Resource :=
  Resource.MkResource id (Resource.Slug r) (Resource.DisplayName r) (Resource.URI r) (Resource.Kind r)
    (Resource.BrokerProviderID r) (Resource.Scopes r) (Resource.AllowedClientIDs r) (Resource.RuntimeClientIDs r)
    (Resource.AllowedReturnURLs r) now now.

Definition Create (r : Resource.Resource) : M Resource.Resource :=
  _ ← ensure (bool_decide (Resource.ID r = "")) (EInvalidRequest "id must not be supplied on create");
  match Resource.NormalizeSlug (Resource.Slug r) with
  | inr x => throw x
  | inl slug =>
      let r := ResourceStore.set_slug r slug (Resource.CreatedAt r) in
      _ ← check r;
      _ ← validateBrokerProviderRef (Resource.Kind r) (Resource.BrokerProviderID r);
      _ ← validatePolicyClients r;
      _ ← assertSlugAvailable (Resource.Slug r) "";
      now ← time_Now;
      id ← GenerateRandomString;
      let r := fresh (stripMintConnectPolicy r) id now in
      _ ← ResourceStore.Create r;
      _ ← audit Audit.ActionResourceCreated "" ("id=" +:+ id +:+ " slug=" +:+ Resource.Slug r);
      mret r
  end.

(** ** Patch *)

Definition touched (p : ResourcePatch) : list string :=
  touched_field (rp_Slug p) ["slug"] ++ touched_field (rp_URI p) ["uri"] ++
  touched_field (rp_BackendKind p) ["backend_kind"] ++ touched_field (rp_BrokerProviderID p) ["broker_provider_id"] ++
  touched_field (rp_DisplayName p) ["display_name"] ++ touched_field (rp_Scopes p) ["scopes"] ++
  touched_field (rp_Policy p) ["policy"].

Definition patched (p : ResourcePatch) (slug : string) (r : Resource.Resource) : Resource.Resource :=
  let pol := default (policy_of r) (rp_Policy p) in
  Resource.MkResource (Resource.ID r) slug (default (Resource.DisplayName r) (rp_DisplayName p))
    (default (Resource.URI r) (rp_URI p)) (default (Resource.Kind r) (rp_BackendKind p))
    (default (Resource.BrokerProviderID r) (rp_BrokerProviderID p)) (default (Resource.Scopes r) (rp_Scopes p))
    (Exchange_AllowedClientIDs pol) (Runtime_ClientIDs pol) (Connect_AllowedReturnURLs pol)
    (Resource.CreatedAt r) (Resource.UpdatedAt r).

(** The hooks of the fronting service, on a fresh read of the row. *)

Definition frontingHooks (id : string) (slugPatched : bool) (r : Resource.Resource) : M unit :=
  prev ← ResourceStore.GetByID id;
  _ ← when (andb slugPatched (bool_decide (Resource.Slug prev ≠ Resource.Slug r)))
        (deps ← FrontingService.ListForResource (Resource.Slug prev);
         ensure (bool_decide (deps = [])) (EInvalidRequest "cannot rename resource: fronting links reference the current slug"));
  FrontingService.ValidateResourceUpdate prev r.

Definition Patch (id : string) (p : ResourcePatch) : M Resource.Resource :=
  _ ← ensure (bool_decide (id ≠ "")) (EInvalidRequest "id is required");
  r0 ← ResourceStore.GetByID id;
  slug ← (match rp_Slug p with
          | None => mret (Resource.Slug r0)
          | Some v => match Resource.NormalizeSlug v with inl c => mret c | inr x => throw x end
          end);
  let r := patched p slug r0 in
  if bool_decide (touched p = []) then mret r else
  _ ← check r;
  _ ← when (orb (bool_decide (is_Some (rp_BackendKind p))) (bool_decide (is_Some (rp_BrokerProviderID p))))
        (validateBrokerProviderRef (Resource.Kind r) (Resource.BrokerProviderID r));
  _ ← when (bool_decide (is_Some (rp_Policy p))) (validatePolicyClients r);
  _ ← when (bool_decide (is_Some (rp_Slug p))) (assertSlugAvailable (Resource.Slug r) (Resource.ID r));
  _ ← when (has_fronting s) (frontingHooks id (bool_decide (is_Some (rp_Slug p))) r);
  now ← time_Now;
  let r := stamped (stripMintConnectPolicy r) now in
  _ ← ResourceStore.Update r;
  let r := canonical r in
  _ ← audit Audit.ActionResourcePatched ""
        ("id=" +:+ Resource.ID r +:+ " slug=" +:+ Resource.Slug r +:+ " fields=" +:+ strings_Join "," (touched p));
  mret r.

(** ** Delete *)

Definition doDelete (id slug : string) (cascade : bool) (dependents : list Link.FrontingLink) : M unit :=
  _ ← when (andb cascade (andb (negb (bool_decide (dependents = []))) (has_fronting s)))
        (_ ← FrontingService.CascadeDeleteForResource (fronting_audit s) slug "admin"; mret tt);
  ResourceStore.Delete id.

(** The links come with the error, too. *)

Definition DeleteWithCascade (id : string) (cascade : bool) : M (list Link.FrontingLink * res unit) :=
  if bool_decide (id = "") then mret ([], Err (EInvalidRequest "id is required")) else
  got ← try (ResourceStore.GetByID id);
  match got with
  | Err x => mret ([], Err x)
  | Ok r =>
      deps ← try (if has_fronting s then FrontingService.ListForResource (Resource.Slug r) else mret []);
      match deps with
      | Err x => mret ([], Err x)
      | Ok dependents =>
          let any := negb (bool_decide (dependents = [])) in
          if andb any (negb cascade) then mret (dependents, Err ErrResourceHasFrontingLinks) else
          done ← try (in_tx (has_tx s) (doDelete id (Resource.Slug r) cascade dependents));
          match done with
          | Err x => mret (dependents, Err x)
          | Ok _ =>
              _ ← audit Audit.ActionResourceDeleted ""
                    ("id=" +:+ id +:+ " slug=" +:+ Resource.Slug r +:+
                     (if andb cascade any then " cascaded_links=" +:+ pretty (length dependents) else ""));
              mret (dependents, Ok tt)
          end
      end
  end.

Definition Delete (id : string) : M unit :=
  r ← DeleteWithCascade id false;
  match r.2 with
  | Ok _ => mret tt
  | Err x => throw x
  end.

(** ** Policy lists *)

(** What follows the edit of one list: stamp, write, audit. *)

Definition savePolicy (r : Resource.Resource) (p : Policy) (a : Audit.Action) (what value : string) : M unit :=
  now ← time_Now;
  let r := stamped (with_policy r p) now in
  _ ← ResourceStore.Update r;
  let r := canonical r in
  audit a (Resource.ID r) ("slug=" +:+ Resource.Slug r +:+ " " +:+ what +:+ "=" +:+ value).

Fixpoint remove_first (x : string) (l : list string) : list string :=
  match l with
  | [] => []
  | y :: rest => if bool_decide (y = x) then rest else y :: remove_first x rest
  end.

Definition with_exchange (r : Resource.Resource) (l : list string) : Policy :=
  MkPolicy l (Resource.RuntimeClientIDs r) (Resource.AllowedReturnURLs r).

Definition with_runtime (r : Resource.Resource) (l : list string) : Policy :=
  MkPolicy (Resource.AllowedClientIDs r) l (Resource.AllowedReturnURLs r).

Definition with_connect (r : Resource.Resource) (l : list string) : Policy :=
  MkPolicy (Resource.AllowedClientIDs r) (Resource.RuntimeClientIDs r) l.

Definition AddAllowedClient (slug clientID : string) : M (list string) :=
  _ ← ensure (bool_decide (clientID ≠ "")) (EInvalidRequest "client_id is required");
  _ ← knownClient clientID;
  r ← ResourceStore.GetBySlug slug;
  if bool_decide (clientID ∈ Resource.AllowedClientIDs r) then mret (Resource.AllowedClientIDs r) else
  let l := Resource.AllowedClientIDs r ++ [clientID] in
  _ ← savePolicy r (with_exchange r l) Audit.ActionResourcePolicyExchangeAllowedClientAdded "client_id" clientID;
  mret l.

Definition RemoveAllowedClient (slug clientID : string) : M (list string) :=
  _ ← ensure (bool_decide (clientID ≠ "")) (EInvalidRequest "client_id is required");
  r ← ResourceStore.GetBySlug slug;
  if bool_decide (clientID ∉ Resource.AllowedClientIDs r) then mret (Resource.AllowedClientIDs r) else
  let l := remove_first clientID (Resource.AllowedClientIDs r) in
  _ ← savePolicy r (with_exchange r l) Audit.ActionResourcePolicyExchangeAllowedClientRemoved "client_id" clientID;
  mret l.

Definition ListAllowedClients (slug : string) : M (list string) :=
  r ← ResourceStore.GetBySlug slug; mret (Resource.AllowedClientIDs r).

Definition notMint (r : Resource.Resource) : M unit :=
  ensure (negb (Resource.IsMint r)) (EInvalidRequest "connect policy is not applicable to mint resources").

Definition AddAllowedReturnURL (slug returnURL : string) : M (list string) :=
  up ← ask (λ e, url_parse (params e));
  match validateReturnURL up returnURL with
  | Some x => throw x
  | None =>
      r ← ResourceStore.GetBySlug slug;
      _ ← notMint r;
      if bool_decide (returnURL ∈ Resource.AllowedReturnURLs r) then mret (Resource.AllowedReturnURLs r) else
      let l := Resource.AllowedReturnURLs r ++ [returnURL] in
      _ ← savePolicy r (with_connect r l) Audit.ActionResourcePolicyConnectAllowedReturnURLAdded "return_url" returnURL;
      mret l
  end.

Definition RemoveAllowedReturnURL (slug returnURL : string) : M (list string) :=
  _ ← ensure (bool_decide (returnURL ≠ "")) (EInvalidRequest "url is required");
  r ← ResourceStore.GetBySlug slug;
  _ ← notMint r;
  if bool_decide (returnURL ∉ Resource.AllowedReturnURLs r) then mret (Resource.AllowedReturnURLs r) else
  let l := remove_first returnURL (Resource.AllowedReturnURLs r) in
  _ ← savePolicy r (with_connect r l) Audit.ActionResourcePolicyConnectAllowedReturnURLRemoved "return_url" returnURL;
  mret l.

Definition ListAllowedReturnURLs (slug : string) : M (list string) :=
  r ← ResourceStore.GetBySlug slug; _ ← notMint r; mret (Resource.AllowedReturnURLs r).

Definition AddRuntimeClientID (slug clientID : string) : M (list string) :=
  _ ← ensure (bool_decide (clientID ≠ "")) (EInvalidRequest "client_id is required");
  _ ← knownClient clientID;
  r ← ResourceStore.GetBySlug slug;
  if bool_decide (clientID ∈ Resource.RuntimeClientIDs r) then mret (Resource.RuntimeClientIDs r) else
  let l := Resource.RuntimeClientIDs r ++ [clientID] in
  _ ← savePolicy r (with_runtime r l) Audit.ActionResourcePolicyRuntimeClientAdded "client_id" clientID;
  mret l.

Definition RemoveRuntimeClientID (slug clientID : string) : M (list string) :=
  _ ← ensure (bool_decide (clientID ≠ "")) (EInvalidRequest "client_id is required");
  r ← ResourceStore.GetBySlug slug;
  if bool_decide (clientID ∉ Resource.RuntimeClientIDs r) then mret (Resource.RuntimeClientIDs r) else
  let l := remove_first clientID (Resource.RuntimeClientIDs r) in
  _ ← savePolicy r (with_runtime r l) Audit.ActionResourcePolicyRuntimeClientRemoved "client_id" clientID;
  mret l.

Definition ListRuntimeClientIDs (slug : string) : M (list string) :=
  r ← ResourceStore.GetBySlug slug; mret (Resource.RuntimeClientIDs r).

End service.
End ResourceAdminService.

(** ** Broker providers *)

Module BrokerProviderAdminService.

Record BrokerProviderPatch := MkPatch {
  bp_Slug : option string;
  bp_DisplayName : option string;
  bp_Protocol : option string;
  bp_ConfigData : option string
}.

(** What the encoder answers: bytes for the column, or a reference. *)

Record EncodedSecret := MkEncoded { Data : string; Backend : string; Ref : string }.

(** The secret encoder of the deployment: provider id, value, reference and
    field. *)

Record Deps := MkDeps {
  has_audit : bool;
  Encode : string → string → string → string → M EncodedSecret;
  json_parse : string → option (gmap string json);    (* json.Unmarshal of an object, null is the empty one *)
  json_marshal : gmap string json → string
}.

Section service.
Variable s : Deps.

Definition audit (a : Audit.Action) (detail : string) : M unit :=
  record_audit (has_audit s) (Audit.NewEvent a "admin" "" "" detail).

Definition List : M (list Broker.BrokerProvider) := BrokerProviderStore.List.

Definition GetByID (id : string) : M Broker.BrokerProvider := BrokerProviderStore.GetByID id.

Definition GetBySlug (slug : string) : M Broker.BrokerProvider := BrokerProviderStore.GetBySlug slug.

(** The reference key and the field it stands for ([TrimSuffix "_ref"]). *)

Definition secretRefFields (protocol : string) : list (string * string) :=
  if bool_decide (protocol = "oauth") then [("client_secret_ref", "client_secret")]
  else if bool_decide (protocol = "service_account") then [("sa_key_ref", "sa_key")]
  else [].

Definition jsonString (v : option json) : option string :=
  match v with
  | None | Some JNull => Some ""
  | Some (JStr t) => Some t
  | Some _ => None
  end.

(** [(?i)_(secret|password)$], on ASCII keys. *)

Fixpoint strings_HasSuffix (x suffix : string) : bool :=
  orb (bool_decide (x = suffix)) (match x with EmptyString => false | String _ x' => strings_HasSuffix x' suffix end).

Definition rawSecretKey (key : string) : bool :=
  let k := Resource.strings_ToLower key in
  orb (strings_HasSuffix k "_secret") (strings_HasSuffix k "_password").

Definition raw_secret (kv : string * json) : bool :=
  andb (rawSecretKey kv.1) (match kv.2 with JStr t => bool_decide (t ≠ "") | _ => false end).

Definition assertNoRawSecretsRemain (m : gmap string json) : M unit :=
  ensure (negb (existsb raw_secret (map_to_list m))) (EInvalidRequest "config_data must not contain a literal value").

Definition with_config (p : Broker.BrokerProvider) (config data backend : string) : Broker.BrokerProvider :=
  Broker.MkProvider (Broker.ID p) (Broker.Slug p) (Broker.DisplayName p) (Broker.Protocol p) config data backend
    (Broker.p_CreatedAt p) (Broker.p_UpdatedAt p).

(** One field: the provider, the map and whether the map changed. *)

Definition routeField (key field : string) (st : Broker.BrokerProvider * gmap string json * bool)
    : M (Broker.BrokerProvider * gmap string json * bool) :=
  let '(p, m, mutated) := st in
  match jsonString (m !! key), jsonString (m !! field) with
  | None, _ | _, None => throw (EInvalidRequest "config_data field: expected a JSON string")
  | Some ref, Some value =>
      if andb (bool_decide (ref = "")) (bool_decide (value = "")) then mret st
      else if andb (bool_decide (ref ≠ "")) (bool_decide (value ≠ ""))
      then throw (EInvalidRequest "config_data fields are mutually exclusive")
      else
        r ← try (Encode s (Broker.ID p) value ref field);
        match r with
        | Err ErrSecretInputRejected => throw (EInvalidRequest "secret input not acceptable")
        | Err x => throw x
        | Ok enc =>
            if bool_decide (Data enc ≠ "")
            then mret (with_config p (Broker.ConfigData p) (Data enc) (Backend enc), delete key (delete field m), true)
            else
              let p := if bool_decide (Broker.EncSecretData p ≠ "") then with_config p (Broker.ConfigData p) "" "" else p in
              let '(m, mutated) := if bool_decide (Ref enc ≠ ref) then (<[key := JStr (Ref enc)]> m, true) else (m, mutated) in
              let '(m, mutated) := if bool_decide (value ≠ "") then (delete field m, true) else (m, mutated) in
              mret (p, m, mutated)
        end
  end.

Fixpoint routeFields (fields : list (string * string)) (st : Broker.BrokerProvider * gmap string json * bool)
    : M (Broker.BrokerProvider * gmap string json * bool) :=
  match fields with
  | [] => mret st
  | (key, field) :: rest => st' ← routeField key field st; routeFields rest st'
  end.

Definition routeSecretFields (p : Broker.BrokerProvider) : M Broker.BrokerProvider :=
  match json_parse s (Broker.ConfigData p) with
  | None => throw EFault
  | Some m0 =>
      r ← routeFields (secretRefFields (Broker.Protocol p)) (p, m0, false);
      let '(p, m, mutated) := r in
      let p := if mutated : bool then with_config p (json_marshal s m) (Broker.EncSecretData p) (Broker.EncSecretBackend p) else p in
      _ ← assertNoRawSecretsRemain m;
      mret p
  end.

Definition applyBrokerProviderDefaults (p : Broker.BrokerProvider) : Broker.BrokerProvider :=
  if bool_decide (Broker.ConfigData p = "") then with_config p "{}" (Broker.EncSecretData p) (Broker.EncSecretBackend p)
  else p.

(** The first byte that is not white space. *)

Fixpoint first_byte (x : string) : option Ascii.ascii :=
  match x with
  | EmptyString => None
  | String c x' => if is_space c then first_byte x' else Some c
  end.

Definition validateBrokerProviderStructural (p : Broker.BrokerProvider) : option err :=
  if bool_decide (Broker.DisplayName p = "") then Some (EInvalidRequest "display_name is required")
  else if bool_decide (Broker.Protocol p ∉ ["oauth"; "api_key"; "service_account"])
  then Some (EInvalidRequest "protocol must be oauth, api_key, or service_account")
  else if bool_decide (Broker.ConfigData p = "") then Some (EInvalidRequest "config_data must not be empty")
  else if bool_decide (first_byte (Broker.ConfigData p) ≠ Some (Ascii.ascii_of_nat 123))
  then Some (EInvalidRequest "config_data must be a JSON object")
  else match json_parse s (Broker.ConfigData p) with
       | None => Some (EInvalidRequest "config_data must be a valid JSON object")
       | Some _ => None
       end.

Definition structural (p : Broker.BrokerProvider) : M unit :=
  match validateBrokerProviderStructural p with
  | Some x => throw x
  | None => mret tt
  end.

Definition assertSlugAvailable (slug excludeID : string) : M unit :=
  r ← try (BrokerProviderStore.GetBySlug slug);
  match r with
  | Err ErrResourceNotFound => mret tt
  | Err x => throw x
  | Ok existing => if bool_decide (Broker.ID existing = excludeID) then mret tt
                   else throw (EConflict "slug is already in use")
  end.

Definition with_slug (p : Broker.BrokerProvider) (id slug : string) (createdAt updatedAt : Z) : Broker.BrokerProvider :=
  Broker.MkProvider id slug (Broker.DisplayName p) (Broker.Protocol p) (Broker.ConfigData p)
    (Broker.EncSecretData p) (Broker.EncSecretBackend p) createdAt updatedAt.

Definition Create (p : Broker.BrokerProvider) : M Broker.BrokerProvider :=
  _ ← ensure (bool_decide (Broker.ID p = "")) (EInvalidRequest "id must not be supplied on create");
  match Resource.NormalizeSlug (Broker.Slug p) with
  | inr x => throw x
  | inl slug =>
      let p := applyBrokerProviderDefaults (with_slug p "" slug (Broker.p_CreatedAt p) (Broker.p_UpdatedAt p)) in
      _ ← structural p;
      _ ← assertSlugAvailable slug "";
      now ← time_Now;
      id ← GenerateRandomString;
      p ← routeSecretFields (with_slug p id slug now now);
      _ ← BrokerProviderStore.Create p;
      _ ← audit Audit.ActionBrokerProviderCreated ("id=" +:+ id +:+ " slug=" +:+ slug);
      mret p
  end.

Definition touched (p : BrokerProviderPatch) : list string :=
  touched_field (bp_Slug p) ["slug"] ++ touched_field (bp_DisplayName p) ["display_name"] ++
  touched_field (bp_Protocol p) ["protocol"] ++ touched_field (bp_ConfigData p) ["config_data"].

Definition patched (pt : BrokerProviderPatch) (slug : string) (p : Broker.BrokerProvider) : Broker.BrokerProvider :=
  Broker.MkProvider (Broker.ID p) slug (default (Broker.DisplayName p) (bp_DisplayName pt))
    (default (Broker.Protocol p) (bp_Protocol pt)) (default (Broker.ConfigData p) (bp_ConfigData pt))
    (Broker.EncSecretData p) (Broker.EncSecretBackend p) (Broker.p_CreatedAt p) (Broker.p_UpdatedAt p).

Definition Patch (id : string) (pt : BrokerProviderPatch) : M Broker.BrokerProvider :=
  _ ← ensure (bool_decide (id ≠ "")) (EInvalidRequest "id is required");
  p0 ← BrokerProviderStore.GetByID id;
  slug ← (match bp_Slug pt with
          | None => mret (Broker.Slug p0)
          | Some v => match Resource.NormalizeSlug v with inl c => mret c | inr x => throw x end
          end);
  let p := patched pt slug p0 in
  if bool_decide (touched pt = []) then mret p else
  let p := applyBrokerProviderDefaults p in
  _ ← structural p;
  _ ← when (bool_decide (is_Some (bp_Slug pt))) (assertSlugAvailable slug (Broker.ID p));
  now ← time_Now;
  let p := with_slug p (Broker.ID p) slug (Broker.p_CreatedAt p) now in
  p ← (if bool_decide (is_Some (bp_ConfigData pt)) then routeSecretFields p else mret p);
  _ ← BrokerProviderStore.Update p;
  _ ← audit Audit.ActionBrokerProviderPatched
        ("id=" +:+ Broker.ID p +:+ " slug=" +:+ Broker.Slug p +:+ " fields=" +:+ strings_Join "," (touched pt));
  mret p.

Definition Delete (id : string) : M unit :=
  _ ← ensure (bool_decide (id ≠ "")) (EInvalidRequest "id is required");
  _ ← BrokerProviderStore.Delete id;
  audit Audit.ActionBrokerProviderDeleted ("id=" +:+ id).

End service.
End BrokerProviderAdminService.

(** ** Issuances *)

Module IssuanceAdminService.

Section service.
Variable has_audit : bool.

Definition required (v field : string) : M unit := ensure (bool_decide (v ≠ "")) (EInvalidRequest (field +:+ " is required")).

Definition ListForUser (userID : string) (since : Z) : M (list Issuance.Issuance) :=
  _ ← required userID "user_id"; IssuanceStore.ListForUser userID since.

Definition ListForActor (clientID : string) (since : Z) : M (list Issuance.Issuance) :=
  _ ← required clientID "client_id"; IssuanceStore.ListForActor clientID since.

Definition ListForResource (resourceID : string) (since : Z) : M (list Issuance.Issuance) :=
  _ ← required resourceID "resource_id"; IssuanceStore.ListForResource resourceID since.

Definition GetByID (id : string) : M Issuance.Issuance :=
  _ ← required id "id";
  i ← IssuanceStore.GetByID id;
  match i with
  | Some x => mret x
  | None => throw ErrIssuanceNotFound
  end.

Definition GetByJTI (jti : string) : M (option Issuance.Issuance) :=
  _ ← required jti "jti"; IssuanceStore.GetByJTI jti.

Definition Revoke (id : string) : M unit :=
  _ ← required id "id";
  row ← IssuanceStore.GetByID id;
  _ ← IssuanceStore.Revoke id;
  let get (f : Issuance.Issuance → string) := match row with Some i => f i | None => "" end in
  record_audit has_audit
    (Audit.NewEvent Audit.ActionIssuanceRevokedAdmin "admin" (get Issuance.ClientID) ""
       ("id=" +:+ id +:+ " subject_user_id=" +:+ get Issuance.SubjectUserID +:+
        " client_id=" +:+ get Issuance.ClientID +:+ " resource_id=" +:+ get Issuance.ResourceID)).

End service.
End IssuanceAdminService.
