(* ===== verification/Registry.v ===== *)
(** * The registry of resources stays well formed

    [Registry up d]: what the other services rely on when they read a resource
    row.  [Maintains I up Q m]: while others keep the invariant [I] of the
    tables, [m] keeps it at every store call it makes, and what it answers
    satisfies [Q].  The rules follow the code; then one lemma per store method
    that writes. *)

From S2P Require Import Prelude GoStrings ScopeSet Act Domain Db Effects Crypto Stores Order Fronting Accounts AdminProofs ResourceAdmin.

(** A row: it passes the domain's validation (which fixes the form of the
    slug, the kind, the URI and the scopes), and a mint resource has no connect
    policy. *)

Definition fine_row (up : string → option URL) (r : Resource.Resource) : Prop :=
  Resource.Validate up r = None ∧ (Resource.Kind r = Resource.BackendMint → Resource.AllowedReturnURLs r = []).

Definition has_slug (slug : string) (d : DB) : Prop := ∃ k r, resources d !! k = Some r ∧ Resource.Slug r = slug.

Record Registry (up : string → option URL) (d : DB) : Prop := {
  reg_key : keyed Resource.ID (resources d);
  reg_slug : unique_on (λ r, Some (Resource.Slug r)) (resources d);
  reg_rows : ∀ k r, resources d !! k = Some r → fine_row up r;
  reg_provider : ∀ k r, resources d !! k = Some r → Resource.Kind r = Resource.BackendBroker →
    is_Some (broker_providers d !! Resource.BrokerProviderID r);
  reg_providers_key : keyed Broker.ID (broker_providers d);
  reg_links : ∀ k l, fronting_links d !! k = Some l → has_slug (Link.SourceSlug l) d ∧ has_slug (Link.TargetSlug l) d
}.

(** ** Slugs *)

Lemma slug_char_lower b c : Resource.slug_char b c = true → Resource.lower_char c = c.
Proof.
  unfold Resource.slug_char, Resource.lower_char. intros H. rewrite bool_decide_false; [done|].
  rewrite !orb_true_iff, andb_true_iff, !bool_decide_eq_true in H. lia.
Qed.

Lemma all_chars_lower b s : Resource.all_chars (Resource.slug_char b) s = true → Resource.strings_ToLower s = s.
Proof.
  induction s as [|c s IH]; simpl; [done|]. intros [Hc Hs]%andb_true_iff.
  by rewrite (slug_char_lower _ _ Hc), (IH Hs).
Qed.

Lemma slug_match_lower s : Resource.slug_match s = true → Resource.strings_ToLower s = s.
Proof.
  destruct s as [|c s]; [done|]. unfold Resource.slug_match. intros [Hc [Hs _]%andb_true_iff]%andb_true_iff. simpl.
  by rewrite (slug_char_lower _ _ Hc), (all_chars_lower _ _ Hs).
Qed.

Lemma NormalizeSlug_match s t : Resource.NormalizeSlug s = inl t → Resource.slug_match t = true.
Proof. unfold Resource.NormalizeSlug. case_match; congruence. Qed.

Lemma match_NormalizeSlug s : Resource.slug_match s = true → Resource.NormalizeSlug s = inl s.
Proof. intros H. unfold Resource.NormalizeSlug. by rewrite (slug_match_lower _ H), H. Qed.

Lemma valid_slug up r : Resource.Validate up r = None → Resource.slug_match (Resource.Slug r) = true.
Proof. unfold Resource.Validate. case_bool_decide; [done|]. by destruct (Resource.slug_match _). Qed.

Lemma fine_slug up r : fine_row up r → Resource.NormalizeSlug (Resource.Slug r) = inl (Resource.Slug r).
Proof. intros [H _]. eapply match_NormalizeSlug, valid_slug, H. Qed.

(** Validation reads neither the key, nor the policy, nor the times. *)

Lemma Validate_ext up r r' :
  Resource.Slug r' = Resource.Slug r → Resource.Kind r' = Resource.Kind r →
  Resource.BrokerProviderID r' = Resource.BrokerProviderID r → Resource.URI r' = Resource.URI r →
  Resource.Scopes r' = Resource.Scopes r → Resource.Validate up r' = Resource.Validate up r.
Proof. unfold Resource.Validate. by intros -> -> -> -> ->. Qed.

(** ** Computations that maintain an invariant of the tables *)

Definition Maintains (I : DB → Prop) (up : string → option URL) {A} (Q : A → Prop) (m : M A) : Prop :=
  ∀ e w r w', url_parse (params e) = up → (∀ n d, I d → I (interfere e n d)) → I (w_db w) →
    m e w = (r, w') → ∃ l, w_steps w' = w_steps w ++ l ∧ Forall (λ x, I x.1 ∧ I x.2) l ∧
      I (w_db w') ∧ ∀ a, r = Ok a → Q a.

Definition keeps_inv (I : DB → Prop) (d d' : DB) : Prop := I d → I d'.

#[export] Instance keeps_inv_preorder I : PreOrder (keeps_inv I).
Proof. split; [intros d H; exact H|]. intros x y z H1 H2 H. by apply H2, H1. Qed.

Definition registry_tables (d : DB) := (resources d, broker_providers d, fronting_links d).

#[export] Instance keeps_registry up : Keeps registry_tables (keeps_inv (Registry up)).
Proof.
  intros d d' [= H1 H2 H3] []. split; unfold has_slug in *; rewrite ?H1, ?H2, ?H3; done.
Qed.

Section rules.
Context {I : DB → Prop} {up : string → option URL}.

Lemma maintains_traced {A P} (m : M A) : Traced (keeps_inv I) P m → Maintains I up (λ _, True) m.
Proof.
  intros Hm e w r w' Hup HR Hw H. destruct (Hm _ _ _ _ H) as (l & _ & Hl & _ & _ & _ & Hh).
  specialize (Hh HR). exists l. split; [done|]. split; [|split; [by apply (history_end _ _ _ Hh)|done]].
  apply Forall_forall. intros [x y] Hx. apply list_elem_of_lookup in Hx as [i Hi].
  destruct (history_lookup _ _ _ _ _ _ Hh Hi) as [H1 H2]. split; [by apply H1|by apply H2, H1].
Qed.

Lemma maintains_weaken {A} (Q Q' : A → Prop) (m : M A) :
  (∀ a, Q a → Q' a) → Maintains I up Q m → Maintains I up Q' m.
Proof.
  intros HQ Hm e w r w' Hup HR Hw H. destruct (Hm _ _ _ _ Hup HR Hw H) as (l & ? & ? & ? & ?).
  exists l. eauto 10.
Qed.

Lemma maintains_bind {A B} (Q : A → Prop) (Q' : B → Prop) (m : M A) (k : A → M B) :
  Maintains I up Q m → (∀ a, Q a → Maintains I up Q' (k a)) → Maintains I up Q' (m ≫= k).
Proof.
  intros Hm Hk e w r w' Hup HR Hw H. apply bind_cases in H as [(x & H & ->)|(a & w1 & H1 & H2)].
  - destruct (Hm _ _ _ _ Hup HR Hw H) as (l & ? & ? & ? & _). exists l. split_and!; done.
  - destruct (Hm _ _ _ _ Hup HR Hw H1) as (l1 & E1 & F1 & R1 & Qa).
    destruct (Hk a (Qa a eq_refl) _ _ _ _ Hup HR R1 H2) as (l2 & E2 & F2 & R2 & Qb).
    exists (l1 ++ l2). rewrite E2, E1, app_assoc. auto using Forall_app_2.
Qed.

Lemma maintains_pure {A} (Q : A → Prop) (m : M A) :
  (∀ e w, url_parse (params e) = up → (m e w).2 = w ∧ ∀ a, (m e w).1 = Ok a → Q a) → Maintains I up Q m.
Proof.
  intros Hm e w r w' Hup HR Hw H. destruct (Hm e w Hup) as [H1 H2]. rewrite H in *. simpl in *. subst w'.
  exists []. rewrite app_nil_r. eauto.
Qed.

Lemma maintains_ret {A} (Q : A → Prop) a : Q a → Maintains I up Q (mret a).
Proof. intros Ha. apply maintains_pure. intros e w _. split; [done|]. by intros b [= <-]. Qed.

Lemma maintains_throw {A} (Q : A → Prop) x : Maintains I up Q (throw x).
Proof. by apply maintains_pure. Qed.

Lemma maintains_ask {A} (f : Env → A) : Maintains I up (λ a, ∃ e, url_parse (params e) = up ∧ a = f e) (ask f).
Proof. apply maintains_pure. intros e w Hup. split; [done|]. intros a [= <-]. eauto. Qed.

Lemma maintains_ensure c x : Maintains I up (λ _, c = true) (ensure c x).
Proof. apply maintains_pure. intros e w _. unfold ensure. by destruct c. Qed.

Lemma maintains_try {A} (Q : A → Prop) (m : M A) :
  Maintains I up Q m → Maintains I up (λ r, ∀ a, r = Ok a → Q a) (try m).
Proof.
  intros Hm e w r w' Hup HR Hw H. unfold try in H. destruct (m e w) as [r0 w0] eqn:E. injection H as <- <-.
  destruct (Hm _ _ _ _ Hup HR Hw E) as (l & ? & ? & ? & HQ). exists l. split_and!; try done. intros ? [= <-]. done.
Qed.

Lemma maintains_when c m : (c = true → Maintains I up (λ _, True) m) → Maintains I up (λ _, True) (when c m).
Proof. unfold when. destruct c; [auto|]. intros _. by apply maintains_ret. Qed.

Lemma maintains_store {A} (Q : A → Prop) (f : Z → DB → res A * DB) :
  (∀ t d, I d → I (f t d).2 ∧ ∀ a, (f t d).1 = Ok a → Q a) → Maintains I up Q (store f).
Proof.
  intros Hf e w r w' Hup HR Hw H. unfold store in H. destruct (fault e (w_tick w)).
  - injection H as <- <-. exists []. split_and!; [done|done|by apply HR|done].
  - destruct (Hf (clock e (w_tick w)) _ (HR (w_tick w) _ Hw)) as [H1 H2].
    destruct (f _ _) as [r0 d']. injection H as <- <-. simpl in *.
    exists [(interfere e (w_tick w) (w_db w), d')]. split_and!; [done| |done|done]. apply Forall_singleton. split; [by apply HR|done].
Qed.

Lemma maintains_query {A} (Q : A → Prop) (f : Z → DB → res A) :
  (∀ t d a, I d → f t d = Ok a → Q a) → Maintains I up Q (query f).
Proof. intros Hf. apply maintains_store. simpl. eauto. Qed.

Lemma maintains_tx {A} (Q : A → Prop) (m : M A) b : Maintains I up Q m → Maintains I up Q (in_tx b m).
Proof.
  intros Hm. destruct b; [|done]. intros e w r w' Hup HR Hw H. simpl in H. unfold with_tx in H.
  set (d := interfere e (w_tick w) (w_db w)) in *. assert (I d) as Hd by (by apply HR).
  destruct (fault e (w_tick w)); [injection H as <- <-; exists []; by split_and!|].
  destruct (m (quiet_env e) (after w d [])) as [[a|x] w1] eqn:E.
  - destruct (Hm (quiet_env e) (after w d []) _ _ Hup (λ _ _ h, h) Hd E) as (l & _ & _ & H1 & HQ).
    destruct (fault e (w_tick w1)); injection H as <- <-.
    + exists []. rewrite app_nil_r. by split_and!.
    + exists [(d, w_db w1)]. split_and!; [done|by apply Forall_singleton|done|]. intros ? [= <-]. auto.
  - injection H as <- <-. exists []. rewrite app_nil_r. by split_and!.
Qed.

End rules.

(** ** The tables after each write *)

Lemma slug_taken_false r d :
  ResourceStore.slug_taken r d = false → ∀ k x, resources d !! k = Some x → Resource.Slug x = Resource.Slug r → Resource.ID x = Resource.ID r.
Proof.
  unfold ResourceStore.slug_taken. intros H k x Hx Hs. unbool. apply eq_None_not_Some in H.
  rewrite find_row_None in H. specialize (H _ _ Hx). apply andb_false_iff in H as [H|H]; unbool; congruence.
Qed.

Lemma slug_referenced_false slug d k l :
  ResourceStore.slug_referenced slug d = false → fronting_links d !! k = Some l →
  Link.SourceSlug l ≠ slug ∧ Link.TargetSlug l ≠ slug.
Proof.
  unfold ResourceStore.slug_referenced. intros H Hl. unbool. apply eq_None_not_Some in H.
  rewrite find_row_None in H. specialize (H _ _ Hl). by unbool.
Qed.

Lemma row_ok_provider r d :
  ResourceStore.row_ok r d = true → Resource.Kind r = Resource.BackendBroker →
  is_Some (broker_providers d !! Resource.BrokerProviderID r).
Proof. unfold ResourceStore.row_ok. intros H Hk. rewrite Hk in H. by unbool. Qed.

Lemma registry_put up r d :
  Registry up d → fine_row up r → ResourceStore.slug_taken r d = false → ResourceStore.row_ok r d = true →
  (∀ old, resources d !! Resource.ID r = Some old → Resource.Slug r ≠ Resource.Slug old →
     ResourceStore.slug_referenced (Resource.Slug old) d = false) →
  Registry up (set_resources (<[Resource.ID r := r]> (resources d)) d).
Proof.
  intros [Hk Hu Hr Hp Hpk Hl] Hf Ht Ho Href. split; simpl.
  - by apply keyed_insert.
  - apply unique_on_insert; [|done]. intros j b v Hne Hj [= <-] [= Heq].
    apply Hne. rewrite <-(Hk _ _ Hj). by eapply slug_taken_false.
  - intros k x. rewrite lookup_insert_Some. intros [[_ <-]|[_ Hx]]; eauto.
  - intros k x. rewrite lookup_insert_Some. intros [[_ <-]|[_ Hx]]; [by apply row_ok_provider|eauto].
  - done.
  - assert (∀ slug, has_slug slug d → (∀ old, resources d !! Resource.ID r = Some old → slug = Resource.Slug old → Resource.Slug r = slug) →
      has_slug slug (set_resources (<[Resource.ID r := r]> (resources d)) d)) as Hs.
    { intros slug (k & x & Hx & Hxs) Hold. destruct (decide (Resource.ID r = k)) as [<-|Hne].
      - exists (Resource.ID r), r. simpl. rewrite lookup_insert_eq. eauto.
      - exists k, x. simpl. by rewrite lookup_insert_ne. }
    intros k l Hkl. destruct (Hl _ _ Hkl) as [H1 H2].
    split; (apply Hs; [done|]); intros old Hold Heq; apply dec_stable; intros Hne;
      destruct (slug_referenced_false (Resource.Slug old) d k l) as [? ?]; eauto; try congruence;
      apply Href; [done|congruence|done|congruence].
Qed.

Lemma registry_remove up id r d :
  Registry up d → resources d !! id = Some r → ResourceStore.referenced r d = false →
  Registry up (set_resources (delete id (resources d)) d).
Proof.
  intros [Hk Hu Hr Hp Hpk Hl] Hd Href. unfold ResourceStore.referenced in Href.
  apply orb_false_iff in Href as [_ [_ [_ Href]%orb_false_iff]%orb_false_iff]. split; simpl.
  - intros k x [_ Hx]%lookup_delete_Some. eauto.
  - intros k1 k2 a1 a2 v [_ H1]%lookup_delete_Some [_ H2]%lookup_delete_Some. eauto.
  - intros k x [_ Hx]%lookup_delete_Some. eauto.
  - intros k x [_ Hx]%lookup_delete_Some. eauto.
  - done.
  - assert (∀ slug, has_slug slug d → slug ≠ Resource.Slug r → has_slug slug (set_resources (delete id (resources d)) d)) as Hs.
    { intros slug (k & x & Hx & <-) Hne. exists k, x. simpl. rewrite lookup_delete_ne; [done|]. intros <-. congruence. }
    intros k l Hkl. destruct (Hl _ _ Hkl) as [H1 H2]. destruct (slug_referenced_false _ _ _ _ Href Hkl). auto.
Qed.

Lemma registry_links up d t :
  Registry up d → (∀ k l, t !! k = Some l → has_slug (Link.SourceSlug l) d ∧ has_slug (Link.TargetSlug l) d) →
  Registry up (set_links t d).
Proof. intros [] Ht. by split. Qed.

Lemma registry_providers up d t :
  Registry up d → keyed Broker.ID t → (∀ k r, resources d !! k = Some r → Resource.Kind r = Resource.BackendBroker →
    is_Some (broker_providers d !! Resource.BrokerProviderID r) → is_Some (t !! Resource.BrokerProviderID r)) →
  Registry up (set_providers t d).
Proof. intros [] Hk Ht. split; simpl; eauto. Qed.

Lemma slug_row_exists slug d :
  find_row (λ r, bool_decide (Resource.Slug r = slug)) (resources d) ≠ None → has_slug slug d.
Proof.
  intros H. destruct (find_row _ _) as [r|] eqn:E; [|done]. apply find_row_Some in E as (k & Hk & Hs). unbool.
  by exists k, r.
Qed.

(** ** The store methods *)

Section stores.
Context {up : string → option URL}.
Abbreviation unit_ok := (λ _ : unit, True).

Lemma maintains_GetByID id : Maintains (Registry up) up (fine_row up) (ResourceStore.GetByID id).
Proof. apply maintains_query. intros t d r Hd H. case_match; simplify_eq. by eapply reg_rows. Qed.

Lemma maintains_GetBySlug slug : Maintains (Registry up) up (fine_row up) (ResourceStore.GetBySlug slug).
Proof.
  apply maintains_query. intros t d r Hd H. case_match eqn:E; simplify_eq.
  apply find_row_Some in E as (k & Hk & _). by eapply reg_rows.
Qed.

Lemma maintains_ResourceCreate r : fine_row up r → Maintains (Registry up) up unit_ok (ResourceStore.Create r).
Proof.
  intros Hf. unfold ResourceStore.Create. rewrite (fine_slug _ _ Hf). apply maintains_store. intros t d Hd.
  split; [|done]. repeat case_bool_decide; [done|]. cbv zeta. repeat case_match; try done. unbool. simpl.
  apply (registry_put up (ResourceStore.set_slug r (Resource.Slug r) (Resource.CreatedAt r))); try done.
  simpl. intros old Ho. destruct H. eauto.
Qed.

Lemma maintains_ResourceUpdate r : fine_row up r → Maintains (Registry up) up unit_ok (ResourceStore.Update r).
Proof.
  intros Hf. unfold ResourceStore.Update. rewrite (fine_slug _ _ Hf). apply maintains_store. intros t d Hd.
  split; [|done]. destruct (resources d !! Resource.ID r) as [old|] eqn:Ho; [|done]. cbv zeta.
  destruct (ResourceStore.slug_taken _ _) eqn:Ht; [done|]. destruct (ResourceStore.row_ok _ _) eqn:Hok; [|done].
  destruct (bool_decide _ && _) eqn:Hs; [done|]. simpl.
  apply (registry_put up (ResourceStore.set_slug r (Resource.Slug r) (Resource.CreatedAt old))); try done.
  simpl. intros old' Ho' Hne. simplify_eq. apply andb_false_iff in Hs as [Hs|Hs]; [by unbool|done].
Qed.

Lemma maintains_ResourceDelete id : Maintains (Registry up) up unit_ok (ResourceStore.Delete id).
Proof.
  apply maintains_store. intros t d Hd. split; [|done]. destruct (resources d !! id) eqn:E; [|done].
  case_match; [done|]. by eapply registry_remove.
Qed.

Lemma maintains_LinkCreate l : Maintains (Registry up) up unit_ok (FrontingLinkStore.Create l).
Proof.
  apply maintains_store. intros t d Hd. split; [|done]. cbv zeta. case_bool_decide; [done|].
  destruct (_ || _) eqn:E; [done|]. unbool. apply registry_links; [done|].
  intros k x. rewrite lookup_insert_Some. intros [[_ <-]|[_ Hx]]; [|by eapply reg_links].
  split; by apply slug_row_exists.
Qed.

Lemma maintains_LinkUpdate l : Maintains (Registry up) up unit_ok (FrontingLinkStore.Update l).
Proof.
  apply maintains_store. intros t d Hd. split; [|done]. cbv zeta. case_match eqn:E; [|done].
  apply registry_links; [done|].
  intros k x. rewrite lookup_insert_Some. intros [[_ <-]|[_ Hx]]; [|by eapply reg_links].
  simpl. by eapply (reg_links up).
Qed.

Lemma maintains_LinkDelete src tgt : Maintains (Registry up) up unit_ok (FrontingLinkStore.Delete src tgt).
Proof.
  apply maintains_store. intros t d Hd. split; [|done]. case_match; [|done]. apply registry_links; [done|].
  intros k x [_ Hx]%lookup_delete_Some. by eapply reg_links.
Qed.

Lemma maintains_LinkDeleteForResource slug : Maintains (Registry up) up (λ _ : nat, True) (FrontingLinkStore.DeleteForResource slug).
Proof.
  apply maintains_store. intros t d Hd. split; [|done]. apply registry_links; [done|].
  intros k x. unfold delete_rows. rewrite map_lookup_filter_Some. intros [Hx _]. by eapply reg_links.
Qed.

Lemma maintains_ProviderCreate p : Maintains (Registry up) up unit_ok (BrokerProviderStore.Create p).
Proof.
  unfold BrokerProviderStore.Create. case_match; [|apply maintains_throw]. cbv zeta. apply maintains_store.
  intros t d Hd. split; [|done]. repeat case_match; try done. apply registry_providers; [done| |].
  - apply keyed_insert; [done|by eapply reg_providers_key].
  - intros k r _ _ ?. apply lookup_insert_is_Some'. by right.
Qed.

Lemma maintains_ProviderUpdate p : Maintains (Registry up) up unit_ok (BrokerProviderStore.Update p).
Proof.
  unfold BrokerProviderStore.Update. case_match; [|apply maintains_throw]. cbv zeta. apply maintains_store.
  intros t d Hd. split; [|done]. repeat case_match; try done. apply registry_providers; [done| |].
  - apply keyed_insert; [done|by eapply reg_providers_key].
  - intros k r _ _ ?. apply lookup_insert_is_Some'. by right.
Qed.

Lemma maintains_ProviderDelete id : Maintains (Registry up) up unit_ok (BrokerProviderStore.Delete id).
Proof.
  apply maintains_store. intros t d Hd. split; [|done]. case_match; [|done].
  destruct (BrokerProviderStore.referenced id d) eqn:E; [done|]. unfold BrokerProviderStore.referenced in E.
  apply orb_false_iff in E as [E _]. unbool. apply eq_None_not_Some in E. rewrite find_row_None in E.
  apply registry_providers; [done| |].
  - intros k x [_ Hx]%lookup_delete_Some. by eapply reg_providers_key.
  - intros k r Hr _ ?. rewrite lookup_delete_ne; [done|]. intros Heq. specialize (E _ _ Hr). by unbool.
Qed.

End stores.
