(* ===== verification/ResourceAdminTheorems.v ===== *)
(** * Theorems about the administration of resources and providers

    Every operation keeps the registry well formed, under any interleaving;
    a deletion that cascades is all or nothing; the provider table never holds
    a literal secret; taking a client off the exchange list of a resource stops
    its exchanges, as long as the list does not become empty. *)

From S2P Require Import Prelude GoStrings ScopeSet Act Domain Db Effects Crypto Stores Order StoreOrder Scenario Fronting BrokerIssuer ExchangeScopes TokenExchange ExchangeProofs ExchangeTheorems Accounts AdminProofs AdminTheorems ResourceAdmin Registry.

(** ** The registry invariant *)

(** The operations that write, of the three services that share the tables. *)

Inductive RegOp :=
  | OpCreateResource (r : Resource.Resource)
  | OpPatchResource (id : string) (p : ResourceAdminService.ResourcePatch)
  | OpDeleteResource (id : string) (cascade : bool)
  | OpAddAllowedClient (slug cid : string) | OpRemoveAllowedClient (slug cid : string)
  | OpAddAllowedReturnURL (slug u : string) | OpRemoveAllowedReturnURL (slug u : string)
  | OpAddRuntimeClientID (slug cid : string) | OpRemoveRuntimeClientID (slug cid : string)
  | OpCreateProvider (p : Broker.BrokerProvider)
  | OpPatchProvider (id : string) (p : BrokerProviderAdminService.BrokerProviderPatch)
  | OpDeleteProvider (id : string)
  | OpCreateLink (fuel : nat) (l : Link.FrontingLink) (actor : string)
  | OpPatchLink (src tgt : string) (p : option (gmap string (list string))) (actor : string)
  | OpDeleteLink (src tgt actor : string).

(** The secret encoder uses none of the server's tables. *)

Class EncoderDeps (s : BrokerProviderAdminService.Deps) : Prop :=
  traced_Encode a b c d S P : PreOrder S → Traced S P (BrokerProviderAdminService.Encode s a b c d).

Section registry.
Context (s : ResourceAdminService.Wiring) (ps : BrokerProviderAdminService.Deps) `{HE : !EncoderDeps ps} (fa : bool).

Definition reg_perform (op : RegOp) : M unit :=
  match op with
  | OpCreateResource r => _ ← ResourceAdminService.Create s r; mret tt
  | OpPatchResource id p => _ ← ResourceAdminService.Patch s id p; mret tt
  | OpDeleteResource id cascade => _ ← ResourceAdminService.DeleteWithCascade s id cascade; mret tt
  | OpAddAllowedClient slug cid => _ ← ResourceAdminService.AddAllowedClient s slug cid; mret tt
  | OpRemoveAllowedClient slug cid => _ ← ResourceAdminService.RemoveAllowedClient s slug cid; mret tt
  | OpAddAllowedReturnURL slug u => _ ← ResourceAdminService.AddAllowedReturnURL s slug u; mret tt
  | OpRemoveAllowedReturnURL slug u => _ ← ResourceAdminService.RemoveAllowedReturnURL s slug u; mret tt
  | OpAddRuntimeClientID slug cid => _ ← ResourceAdminService.AddRuntimeClientID s slug cid; mret tt
  | OpRemoveRuntimeClientID slug cid => _ ← ResourceAdminService.RemoveRuntimeClientID s slug cid; mret tt
  | OpCreateProvider p => _ ← BrokerProviderAdminService.Create ps p; mret tt
  | OpPatchProvider id p => _ ← BrokerProviderAdminService.Patch ps id p; mret tt
  | OpDeleteProvider id => BrokerProviderAdminService.Delete ps id
  | OpCreateLink fuel l actor => _ ← FrontingService.Create fa fuel l actor; mret tt
  | OpPatchLink src tgt p actor => _ ← FrontingService.Patch fa src tgt p actor; mret tt
  | OpDeleteLink src tgt actor => FrontingService.Delete fa src tgt actor
  end.

Context {up : string → option URL}.

Lemma traced_routeFields {S P} `{!PreOrder S} fields st : Traced S P (BrokerProviderAdminService.routeFields ps fields st).
Proof.
  revert st. induction fields as [|[k f] l IH]; intros st; simpl; [apply traced_ret|]. apply traced_bind; [|apply IH].
  unfold BrokerProviderAdminService.routeField. traced; by apply traced_Encode.
Qed.

Lemma traced_validateClientIDList {S P} `{!PreOrder S} l : Traced S P (ResourceAdminService.validateClientIDList l).
Proof. induction l; simpl; [apply traced_ret|]. unfold ResourceAdminService.knownClient. traced. Qed.

Lemma traced_link_walk {S P} `{!PreOrder S} fuel src vis stack : Traced S P (FrontingService.walk fuel src vis stack).
Proof.
  revert vis stack. induction fuel as [|fuel IH]; intros vis [|n rest]; simpl; try apply traced_ret.
  traced.
Qed.

Lemma traced_record_cascade {S} `{!PreOrder S} b actor l : Traced S any_event (FrontingService.record_cascade b actor l).
Proof. induction l; simpl; [apply traced_ret|]. apply traced_bind; [by apply traced_audit|done]. Qed.

Ltac reads :=
  lazymatch goal with
  | |- Traced _ _ (BrokerProviderAdminService.routeFields _ _ _) => apply traced_routeFields
  | |- Traced _ _ (ResourceAdminService.validateClientIDList _) => apply traced_validateClientIDList
  | |- Traced _ _ (FrontingService.walk _ _ _ _) => apply traced_link_walk
  | |- Traced _ _ (FrontingService.record_cascade _ _ _) => apply traced_record_cascade
  | |- _ => keep_step
  end.

Lemma maintains_check r : Maintains (Registry up) up (λ _, Resource.Validate up r = None) (ResourceAdminService.check r).
Proof.
  unfold ResourceAdminService.check. eapply maintains_bind; [apply maintains_ask|].
  intros p (e & He & ->). rewrite He. case_match; [apply maintains_throw|by apply maintains_ret].
Qed.

(** [maint] follows the code: it remembers what a read row and a passed check
    mean, uses the lemma of the store method at a write, and [reads]
    everywhere else. *)

Ltac maint_step :=
  lazymatch goal with
  | |- Maintains _ _ _ (mbind _ (ResourceStore.GetByID _)) => eapply maintains_bind; [apply maintains_GetByID|intros ? ?]
  | |- Maintains _ _ _ (mbind _ (ResourceStore.GetBySlug _)) => eapply maintains_bind; [apply maintains_GetBySlug|intros ? ?]
  | |- Maintains _ _ _ (mbind _ (ResourceAdminService.check _)) => eapply maintains_bind; [apply maintains_check|intros ? ?]
  | |- Maintains _ _ _ (mbind _ (ensure _ _)) => eapply maintains_bind; [apply maintains_ensure|intros ? ?]
  | |- Maintains _ _ _ (mbind _ (ResourceAdminService.notMint _)) => eapply maintains_bind; [apply maintains_ensure|intros ? ?]
  | |- Maintains _ _ _ (mbind _ _) => eapply maintains_bind; [|intros ? ?]
  | |- Maintains _ _ _ (match ?x with _ => _ end) => destruct x eqn:?
  | |- Maintains _ _ _ (throw _) => apply maintains_throw
  | |- Maintains _ _ (λ _, True) (mret _) => by apply maintains_ret
  | |- Maintains _ _ _ (ResourceStore.Update _) => apply maintains_ResourceUpdate
  | |- Maintains _ _ _ (ResourceStore.Create _) => apply maintains_ResourceCreate
  | |- Maintains _ _ _ (ResourceStore.Delete _) => apply maintains_ResourceDelete
  | |- Maintains _ _ _ (BrokerProviderStore.Create _) => apply maintains_ProviderCreate
  | |- Maintains _ _ _ (BrokerProviderStore.Update _) => apply maintains_ProviderUpdate
  | |- Maintains _ _ _ (BrokerProviderStore.Delete _) => apply maintains_ProviderDelete
  | |- Maintains _ _ _ (FrontingLinkStore.Create _) => apply maintains_LinkCreate
  | |- Maintains _ _ _ (FrontingLinkStore.Update _) => apply maintains_LinkUpdate
  | |- Maintains _ _ _ (FrontingLinkStore.Delete _ _) => apply maintains_LinkDelete
  | |- Maintains _ _ _ (FrontingLinkStore.DeleteForResource _) => apply maintains_LinkDeleteForResource
  | |- Maintains _ _ _ (in_tx _ _) => apply maintains_tx
  | |- Maintains _ _ _ (when _ _) => apply maintains_when; intros ?
  | |- Maintains _ _ _ _ => eapply (maintains_traced (P:=any_event)); solve [repeat reads]
  end.

Ltac maint := repeat (cbv zeta; maint_step).

(** Rows that are fine after an edit. *)

Lemma fine_stripped r : Resource.Validate up r = None → fine_row up (ResourceAdminService.stripMintConnectPolicy r).
Proof.
  intros H. unfold ResourceAdminService.stripMintConnectPolicy, Resource.IsMint. by case_bool_decide.
Qed.

Lemma fine_stamped r now : fine_row up r → fine_row up (ResourceAdminService.stamped r now).
Proof. intros [H1 H2]. split; [|done]. rewrite <-H1. by apply Validate_ext. Qed.

Lemma fine_fresh r id now : fine_row up r → fine_row up (ResourceAdminService.fresh r id now).
Proof. intros [H1 H2]. split; [|done]. rewrite <-H1. by apply Validate_ext. Qed.

Lemma fine_with_policy r p :
  fine_row up r → (Resource.Kind r = Resource.BackendMint → ResourceAdminService.Connect_AllowedReturnURLs p = []) →
  fine_row up (ResourceAdminService.with_policy r p).
Proof. intros [H1 H2] Hp. split; [|done]. rewrite <-H1. by apply Validate_ext. Qed.

Lemma not_mint r : negb (Resource.IsMint r) = true → Resource.Kind r ≠ Resource.BackendMint.
Proof. unfold Resource.IsMint. intros H. by unbool. Qed.

Lemma maintains_savePolicy r p a what v :
  fine_row up r → (Resource.Kind r = Resource.BackendMint → ResourceAdminService.Connect_AllowedReturnURLs p = []) →
  Maintains (Registry up) up (λ _, True) (ResourceAdminService.savePolicy s r p a what v).
Proof.
  intros Hr Hp. unfold ResourceAdminService.savePolicy. maint. by apply fine_stamped, fine_with_policy.
Qed.

Lemma maintains_unit {A} (Q : A → Prop) (m : M A) : Maintains (Registry up) up Q m → Maintains (Registry up) up (λ _ : unit, True) (_ ← m; mret tt).
Proof. intros Hm. eapply maintains_bind; [exact Hm|]. intros ? _. by apply maintains_ret. Qed.

Lemma maintains_Create r : Maintains (Registry up) up (λ _, True) (ResourceAdminService.Create s r).
Proof. unfold ResourceAdminService.Create. maint. apply fine_fresh, fine_stripped. done. Qed.

Lemma maintains_Patch id p : Maintains (Registry up) up (λ _, True) (ResourceAdminService.Patch s id p).
Proof. unfold ResourceAdminService.Patch. maint. apply fine_stamped, fine_stripped. done. Qed.

Lemma maintains_DeleteWithCascade id c : Maintains (Registry up) up (λ _, True) (ResourceAdminService.DeleteWithCascade s id c).
Proof.
  assert (∀ slug deps, Maintains (Registry up) up (λ _, True) (ResourceAdminService.doDelete s id slug c deps)) as Hd.
  { intros slug deps. unfold ResourceAdminService.doDelete, FrontingService.CascadeDeleteForResource. maint. }
  unfold ResourceAdminService.DeleteWithCascade. maint.
  eapply maintains_weaken; [|apply maintains_try, maintains_tx, Hd]. done.
Qed.

Ltac policy :=
  maint; (apply maintains_savePolicy; [done|]); simpl; intros; cbv beta in *;
  match goal with
  | H : negb _ = true |- _ => by apply not_mint in H
  | H : fine_row _ _ |- _ => by apply H
  end.

Lemma maintains_reg_perform op : Maintains (Registry up) up (λ _, True) (reg_perform op).
Proof.
  destruct op; simpl; try (apply (maintains_unit (λ _, True))).
  - apply maintains_Create.
  - apply maintains_Patch.
  - apply maintains_DeleteWithCascade.
  - unfold ResourceAdminService.AddAllowedClient. policy.
  - unfold ResourceAdminService.RemoveAllowedClient. policy.
  - unfold ResourceAdminService.AddAllowedReturnURL. policy.
  - unfold ResourceAdminService.RemoveAllowedReturnURL. policy.
  - unfold ResourceAdminService.AddRuntimeClientID. policy.
  - unfold ResourceAdminService.RemoveRuntimeClientID. policy.
  - unfold BrokerProviderAdminService.Create. maint.
  - unfold BrokerProviderAdminService.Patch. maint.
  - unfold BrokerProviderAdminService.Delete. maint.
  - unfold FrontingService.Create. maint.
  - unfold FrontingService.Patch. maint.
  - unfold FrontingService.Delete. maint.
Qed.

End registry.

(** C14: the registry stays well formed.  Every resource row passes the domain
    validation, has a slug of its own in normal form, a broker resource points
    at an existing provider, a mint resource has no connect policy, and every
    fronting link joins slugs that exist.  Each writing operation of the
    resource, provider and fronting services keeps this, at every store call
    and whether it succeeds or not, provided the requests that run in between
    keep it. *)
Theorem registry_stays_well_formed s ps {HE : EncoderDeps ps} fa op e w r w' :
  let up := url_parse (params e) in
  (∀ n d, Registry up d → Registry up (interfere e n d)) → Registry up (w_db w) →
  reg_perform s ps fa op e w = (r, w') →
  Registry up (w_db w') ∧ ∀ x, seen w w' x → Registry up x.1 ∧ Registry up x.2.
Proof.
  intros up HR Hw H.
  destruct (maintains_reg_perform s ps fa op e w r w' eq_refl HR Hw H) as (l & Hl & Hf & Hw' & _).
  split; [done|]. intros x. unfold seen. rewrite (own_steps_app _ _ _ Hl). intros Hx. exact (proj1 (Forall_forall _ _) Hf x Hx).
Qed.

(** ** Taking a client off the exchange list *)

(** The resource is there, its list is not empty and the client is not on it. *)

Definition closed_to (slug cid : string) (d : DB) : Prop := ∃ k r,
  resources d !! k = Some r ∧ Resource.Slug r = slug ∧ Resource.AllowedClientIDs r ≠ [] ∧ cid ∉ Resource.AllowedClientIDs r.

#[export] Instance keeps_closed_to slug cid : Keeps resources (keeps_inv (closed_to slug cid)).
Proof. unfold Keeps, keeps_inv, closed_to. by intros d d' ->. Qed.

Lemma closed_operator r cid :
  Resource.AllowedClientIDs r ≠ [] → cid ∉ Resource.AllowedClientIDs r →
  ExchangeScopes.operatorAllowsClient (Resource.AllowedClientIDs r) cid = false.
Proof.
  intros Hn Hc. unfold ExchangeScopes.operatorAllowsClient, slices_Contains. rewrite !bool_decide_false; [done..|].
  intros ?%nil_length_inv. done.
Qed.

Section exchange.
Import TokenExchangeService.
Context (xs : Wiring) (deps : BrokerIssuer.Deps) {HD : BrokerIssuer.BrokerDeps deps}.

Lemma traced_Exchange_resources {S : relation DB} `{!PreOrder S, !Keeps resources S} req :
  Traced S any_event (Exchange xs deps req).
Proof. repeat keep_deps. Qed.

Lemma exchange_operator req e w resp w' :
  Exchange xs deps req e w = (Ok resp, w') → Resource req ≠ "" → ∃ t,
    resolved req t w w' ∧ ExchangeScopes.operatorAllowsClient (Resource.AllowedClientIDs t) (ClientID req) = true.
Proof.
  intros H Hr. apply Exchange_split in H as [(c & t & f & w1 & w2 & act & iss & Hm)|(a & t & w3 & _ & Ht & _ & _ & _ & Hd)]; [| |done..].
  - exists t. split; apply Hm.
  - exists t. split; [done|]. unfold dispatchBroker in Hd. by do 3 xstep Hd.
Qed.

(** While the resource is closed to the client, the exchange refuses it. *)

Lemma closed_exchange slug req e w r w' :
  slug ≠ "" → Resource req = slug → closed_to slug (ClientID req) (w_db w) →
  (∀ n d, closed_to slug (ClientID req) d → closed_to slug (ClientID req) (interfere e n d)) →
  Exchange xs deps req e w = (r, w') → ∃ x, r = Err x.
Proof.
  intros Hne Hs Hc HR H. destruct r as [resp|x]; [|eauto]. exfalso.
  destruct (exchange_operator _ _ _ _ _ H) as (t & (d & Hd & Hm) & Ho); [congruence|].
  assert (closed_to slug (ClientID req) d) as (k & r & Hk & Hrs & Hn & Hni).
  { apply (seen_from (S:=keeps_inv (closed_to slug (ClientID req))) (P:=any_event) _ _ _ _ _ (d, d)
      (traced_Exchange_resources req) H); [exact HR|done|done]. }
  assert (r ∈ ResourceStore.matching (Resource req) d) as Hin.
  { unfold ResourceStore.matching. apply list_elem_of_filter. split; [left; congruence|].
    apply list_elem_of_fmap. exists (k, r). split; [done|]. by apply elem_of_map_to_list. }
  rewrite Hm in Hin. apply list_elem_of_singleton in Hin as ->. by rewrite closed_operator in Ho.
Qed.

End exchange.

(** The tables after the list was edited. *)

Lemma removed_closes s slug cid e w l w' :
  let up := url_parse (params e) in
  (∀ n d, Registry up d → Registry up (interfere e n d)) → Registry up (w_db w) →
  ResourceAdminService.RemoveAllowedClient s slug cid e w = (Ok l, w') →
  l ≠ [] → cid ∉ l → closed_to slug cid (w_db w').
Proof.
  intros up HR Hw H Hn Hni. unfold ResourceAdminService.RemoveAllowedClient in H. mstep H.
  apply bind_ok in H as (r & w1 & Hg & H). apply query_ok in Hg as (_ & d & Hd & _ & Hg & ->).
  destruct (find_row _ _) as [r'|] eqn:Hf; [|done]. injection Hg as ->.
  apply find_row_Some in Hf as (k & Hk & Hs). unbool.
  assert (Registry up d) as Hreg by (subst d; by apply HR).
  case_bool_decide as Hin; [apply ret_ok in H as [<- <-]; by exists k, r|].
  apply bind_ok in H as (u & w2 & H & [<- <-]%ret_ok).
  unfold ResourceAdminService.savePolicy in H. mstep H. apply bind_ok in H as ([] & w3 & Hu & Ha).
  unfold ResourceAdminService.audit in Ha. apply record_audit_ok in Ha as (Ha & _). rewrite <-Ha.
  unfold ResourceStore.Update in Hu. simpl in Hu. rewrite (fine_slug _ _ (reg_rows _ _ Hreg _ _ Hk)) in Hu.
  apply store_ok in Hu as (? & d2 & d2' & _ & _ & Hu & ->). cbv zeta in Hu. repeat case_match; simplify_eq.
  exists (Resource.ID r). eexists. simpl. rewrite lookup_insert_eq. split; [done|]. done.
Qed.

(** Taking a client off a resource's exchange list takes effect.  Once
    [RemoveAllowedClient] answered with a list that is not empty and no longer
    holds the client (it removes the first occurrence only, and an empty list
    admits every client), and as long as other administrators do not put the
    client back, clear the list or remove the resource, every token exchange of
    this client for that resource is refused, with any subject token, on the
    mint and on the broker path, direct or fronted. *)
Theorem removed_client_cannot_exchange s slug cid e w l w' xs deps {HD : BrokerIssuer.BrokerDeps deps} req e2 w2 r w3 :
  (∀ n d, Registry (url_parse (params e)) d → Registry (url_parse (params e)) (interfere e n d)) →
  Registry (url_parse (params e)) (w_db w) →
  ResourceAdminService.RemoveAllowedClient s slug cid e w = (Ok l, w') → l ≠ [] → cid ∉ l →
  keeps_inv (closed_to slug cid) (w_db w') (w_db w2) → (∀ n d, closed_to slug cid d → closed_to slug cid (interfere e2 n d)) →
  TokenExchangeService.ClientID req = cid → TokenExchangeService.Resource req = slug → slug ≠ "" →
  TokenExchangeService.Exchange xs deps req e2 w2 = (r, w3) → ∃ x, r = Err x.
Proof.
  intros HR Hw H Hn Hni Hst HR2 <- Hs Hne Hx.
  eapply (closed_exchange xs deps slug); [done..| |exact HR2|exact Hx].
  apply Hst. by eapply removed_closes.
Qed.

(** ** Secrets of providers *)

Module ProviderSecrets.
Import BrokerProviderAdminService.

(** What [encoding/json] promises: an object that is written and read again is
    the same, and the empty object is empty. *)

Class JsonLaws (s : Deps) : Prop := {
  marshal_unmarshal m m' : json_parse s (json_marshal s m) = Some m' → m' = m;
  marshal_not_empty m : json_marshal s m ≠ "";
  empty_object m : json_parse s "{}" = Some m → m = ∅
}.

Section secrets.
Context (s : Deps) `{HE : !EncoderDeps s, HJ : !JsonLaws s} {up : string → option URL}.

(** No field that is named like a secret holds a literal value. *)

Definition clean_map (m : gmap string json) : Prop := ∀ k v, rawSecretKey k = true → m !! k = Some (JStr v) → v = "".

Definition clean (config : string) : Prop := ∀ m, json_parse s config = Some m → clean_map m.

(** The secret of the protocol is not in the configuration either. *)

Definition routed (p : Broker.BrokerProvider) : Prop := ∀ m key field,
  json_parse s (Broker.ConfigData p) = Some m → (key, field) ∈ secretRefFields (Broker.Protocol p) →
  jsonString (m !! field) = Some "".

Definition clean_table (d : DB) : Prop := ∀ k p, broker_providers d !! k = Some p → clean (Broker.ConfigData p).

#[export] Instance keeps_clean_table : Keeps broker_providers (keeps_inv clean_table).
Proof. unfold Keeps, keeps_inv, clean_table. by intros d d' ->. Qed.

Lemma clean_map_spec m : clean_map m ↔ existsb raw_secret (map_to_list m) = false.
Proof.
  rewrite <-not_true_iff_false, existsb_exists. split.
  - intros Hc ([k v] & Hin%list_elem_of_In%elem_of_map_to_list & Hr). unfold raw_secret in Hr. simpl in Hr. unbool.
    destruct v; try done. unbool. eauto.
  - intros Hn k v Hk Hm. apply dec_stable. intros Hv. apply Hn. exists (k, JStr v).
    split; [by apply list_elem_of_In, elem_of_map_to_list|]. unfold raw_secret. simpl. rewrite Hk. by apply bool_decide_eq_true.
Qed.

Lemma clean_empty : clean "{}".
Proof. intros m ->%empty_object k v _. by rewrite lookup_empty. Qed.

Lemma clean_stored p slug t : clean (Broker.ConfigData p) → clean (Broker.ConfigData (BrokerProviderStore.stored p slug t)).
Proof. simpl. unfold BrokerProviderStore.configDataString. case_bool_decide; [|done]. intros _. apply clean_empty. Qed.

Lemma clean_defaults p : clean (Broker.ConfigData p) → clean (Broker.ConfigData (applyBrokerProviderDefaults p)).
Proof. unfold applyBrokerProviderDefaults. case_bool_decide; [|done]. intros _. apply clean_empty. Qed.

(** Routing one field: the provider keeps its configuration and protocol, an
    unchanged map is the one that was read, and the field is empty or gone. *)

Definition route_inv (p0 : Broker.BrokerProvider) (m0 : gmap string json) (st : Broker.BrokerProvider * gmap string json * bool) : Prop :=
  Broker.ConfigData st.1.1 = Broker.ConfigData p0 ∧ Broker.Protocol st.1.1 = Broker.Protocol p0 ∧ (st.2 = false → st.1.2 = m0).

Lemma routeField_ok key field p0 m0 st e w st' w' :
  key ≠ field → route_inv p0 m0 st → routeField s key field st e w = (Ok st', w') →
  route_inv p0 m0 st' ∧ jsonString (st'.1.2 !! field) = Some "".
Proof.
  intros Hkf Hst H. destruct st as [[p m] mut]. unfold routeField in H.
  destruct (jsonString (m !! key)) as [ref|]; [|by apply throw_ok in H].
  destruct (jsonString (m !! field)) as [value|] eqn:Hv; [|by apply throw_ok in H].
  destruct (bool_decide (ref = "") && _) eqn:E1; [unbool; apply ret_ok in H as [<- _]; simpl; by subst|].
  destruct (bool_decide (ref ≠ "") && _); [by apply throw_ok in H|].
  mstep H. destruct a as [enc|x]; [|by destruct x; apply throw_ok in H].
  destruct Hst as (Hc & Hp & Hm0).
  destruct (bool_decide (Data enc ≠ "")).
  - apply ret_ok in H as [<- _]. simpl. split; [by split_and!|]. by rewrite lookup_delete_ne, lookup_delete_eq.
  - unfold route_inv. simpl in *.
    destruct (bool_decide (Broker.EncSecretData p ≠ "")), (bool_decide (Ref enc ≠ ref)), (bool_decide (value ≠ "")) eqn:Ev; unbool;
      apply ret_ok in H as [<- _]; simpl; (split; [by split_and!|]);
      rewrite ?lookup_delete_eq, ?lookup_insert_ne by done; rewrite ?Hv; by subst.
Qed.

Lemma fields_single protocol :
  secretRefFields protocol = [] ∨ ∃ key field, secretRefFields protocol = [(key, field)] ∧ key ≠ field.
Proof. unfold secretRefFields. repeat case_bool_decide; eauto 10. Qed.

Lemma routeFields_ok p m e w st' w' :
  routeFields s (secretRefFields (Broker.Protocol p)) (p, m, false) e w = (Ok st', w') →
  route_inv p m st' ∧ ∀ key field, (key, field) ∈ secretRefFields (Broker.Protocol p) → jsonString (st'.1.2 !! field) = Some "".
Proof.
  destruct (fields_single (Broker.Protocol p)) as [->|(key & field & -> & Hne)]; cbn [routeFields]; intros H.
  - apply ret_ok in H as [<- _]. split; [done|]. by intros ? ? ?%not_elem_of_nil.
  - mstep H. apply ret_ok in H as [<- _]. eapply routeField_ok in Hm as [? ?]; [|exact Hne|by split_and!].
    split; [done|]. by intros ? ? [= -> ->]%list_elem_of_singleton.
Qed.

Lemma routeSecretFields_ok p e w p' w' :
  routeSecretFields s p e w = (Ok p', w') → clean (Broker.ConfigData p') ∧ routed p'.
Proof.
  unfold routeSecretFields. destruct (json_parse s (Broker.ConfigData p)) as [m0|] eqn:Hp; [|by intros ?%throw_ok].
  intros H. apply bind_ok in H as ([[p1 m] mut] & w1 & H1 & H). apply routeFields_ok in H1 as [(Hc & Hpr & Hm) Hf]. simpl in *.
  apply bind_ok in H as (u & w2 & Hn & [<- _]%ret_ok). apply ensure_ok in Hn as [Hn _]. unbool. apply clean_map_spec in Hn.
  assert (∀ m', json_parse s (Broker.ConfigData (if mut then with_config p1 (json_marshal s m) (Broker.EncSecretData p1)
      (Broker.EncSecretBackend p1) else p1)) = Some m' → m' = m) as Hm'.
  { intros m'. destruct mut; simpl; [apply marshal_unmarshal|]. rewrite Hc, Hp, (Hm eq_refl). congruence. }
  split; [by intros m' ->%Hm'|]. intros m' key field ->%Hm' Hin. eapply Hf. rewrite <-Hpr. by destruct mut.
Qed.

Lemma maintains_routed p :
  Maintains clean_table up (λ p', clean (Broker.ConfigData p') ∧ routed p') (routeSecretFields s p).
Proof.
  intros e w r w' Hup HR Hw H.
  destruct (maintains_traced (P:=any_event) (routeSecretFields s p) ltac:(repeat lazymatch goal with
    | |- Traced _ _ (routeFields _ _ _) => apply traced_routeFields; apply _ | |- _ => keep_step end)
    e w r w' Hup HR Hw H) as (l & ? & ? & ? & _).
  exists l. split_and!; try done. intros a ->. by eapply routeSecretFields_ok.
Qed.

Lemma clean_insert id p d :
  clean_table d → clean (Broker.ConfigData p) → clean_table (set_providers (<[id := p]> (broker_providers d)) d).
Proof. intros Hd Hp k x. simpl. rewrite lookup_insert_Some. intros [[_ <-]|[_ Hx]]; [done|by eapply Hd]. Qed.

Lemma maintains_clean_Create p :
  clean (Broker.ConfigData p) → Maintains clean_table up (λ _, True) (BrokerProviderStore.Create p).
Proof.
  intros Hp. unfold BrokerProviderStore.Create. case_match; [|apply maintains_throw]. cbv zeta. apply maintains_store.
  intros t d Hd. split; [|done]. repeat case_match; try done. apply clean_insert; [done|by apply clean_stored].
Qed.

Lemma maintains_clean_Update p :
  clean (Broker.ConfigData p) → Maintains clean_table up (λ _, True) (BrokerProviderStore.Update p).
Proof.
  intros Hp. unfold BrokerProviderStore.Update. case_match; [|apply maintains_throw]. cbv zeta. apply maintains_store.
  intros t d Hd. split; [|done]. repeat case_match; try done. apply clean_insert; [done|by apply clean_stored].
Qed.

Lemma maintains_clean_Delete id : Maintains clean_table up (λ _, True) (BrokerProviderStore.Delete id).
Proof.
  apply maintains_store. intros t d Hd. split; [|done]. repeat case_match; try done.
  intros k x Hx. simpl in Hx. apply lookup_delete_Some in Hx as [_ Hx]. by eapply Hd.
Qed.

Lemma maintains_clean_GetByID id : Maintains clean_table up (λ p, clean (Broker.ConfigData p)) (BrokerProviderStore.GetByID id).
Proof. apply maintains_query. intros t d p Hd H. case_match; simplify_eq. by eapply Hd. Qed.

Ltac secret_step :=
  lazymatch goal with
  | |- Maintains _ _ _ (mbind _ (BrokerProviderStore.GetByID _)) => eapply maintains_bind; [apply maintains_clean_GetByID|intros ? ?]
  | |- Maintains _ _ _ (mbind _ (routeSecretFields _ _)) => eapply maintains_bind; [apply maintains_routed|intros ? [? ?]]
  | |- Maintains _ _ _ (mbind _ _) => eapply maintains_bind; [|intros ? ?]
  | |- Maintains _ _ _ (match ?x with _ => _ end) => destruct x eqn:?
  | |- Maintains _ _ _ (throw _) => apply maintains_throw
  | |- Maintains _ _ _ (BrokerProviderStore.Create _) => by apply maintains_clean_Create
  | |- Maintains _ _ _ (BrokerProviderStore.Update _) => by apply maintains_clean_Update
  | |- Maintains _ _ _ (BrokerProviderStore.Delete _) => by apply maintains_clean_Delete
  | |- Maintains _ _ _ (mret _) => by apply maintains_ret
  | |- Maintains _ _ _ (when _ _) => apply maintains_when; intros ?
  | |- Maintains _ _ _ _ => eapply (maintains_traced (P:=any_event)); solve [keep]
  end.

Lemma maintains_provider_Create p : Maintains clean_table up routed (Create s p).
Proof. unfold Create. repeat (cbv zeta; secret_step). Qed.

Lemma maintains_provider_Patch id pt :
  Maintains clean_table up (λ p, is_Some (bp_ConfigData pt) → routed p) (Patch s id pt).
Proof.
  unfold Patch. eapply maintains_bind; [apply maintains_ensure|intros _ _].
  eapply maintains_bind; [apply maintains_clean_GetByID|intros p0 Hp0].
  eapply maintains_bind with (Q := λ _, True); [repeat secret_step|]. intros slug _. cbv zeta.
  case_bool_decide as Ht.
  { apply maintains_ret. intros [c Hc]. unfold touched, touched_field in Ht. rewrite Hc in Ht.
    apply app_eq_nil in Ht as [_ [_ [_ Ht]%app_eq_nil]%app_eq_nil]. done. }
  do 3 (eapply maintains_bind with (Q := λ _, True); [solve [repeat secret_step]|intros ? _]).
  eapply maintains_bind with (Q := λ p, clean (Broker.ConfigData p) ∧ (is_Some (bp_ConfigData pt) → routed p)).
  - case_bool_decide as Hcfg; [eapply maintains_weaken; [|apply maintains_routed]; naive_solver|].
    apply maintains_ret. split; [|done]. simpl. apply clean_defaults. simpl. by rewrite (proj2 (eq_None_not_Some _) Hcfg).
  - intros p [Hc Hr]. repeat secret_step.
Qed.

Lemma maintains_provider_Delete id : Maintains clean_table up (λ _, True) (Delete s id).
Proof. unfold Delete. repeat secret_step. Qed.

End secrets.

(** C34: the provider table never holds a literal secret.  Whatever an
    administrator sends, and whatever runs in between, as long as it keeps the
    table clean, each operation of the service leaves every stored
    configuration without a literal value under a key that ends in [_secret]
    or [_password], at every store call; and the provider that [Create], or a
    [Patch] that sets the configuration, answers with does not have the secret
    of its protocol ([client_secret], [sa_key]) in its configuration: it went
    through the encoder. *)
Theorem no_literal_secret_stored s {HE : EncoderDeps s} {HJ : JsonLaws s} e w :
  (∀ n d, clean_table s d → clean_table s (interfere e n d)) → clean_table s (w_db w) →
  (∀ p r w', Create s p e w = (r, w') →
     clean_table s (w_db w') ∧ (∀ x, seen w w' x → clean_table s x.2) ∧ ∀ p', r = Ok p' → routed s p') ∧
  (∀ id pt r w', Patch s id pt e w = (r, w') →
     clean_table s (w_db w') ∧ (∀ x, seen w w' x → clean_table s x.2) ∧
     ∀ p', r = Ok p' → is_Some (bp_ConfigData pt) → routed s p') ∧
  (∀ id r w', Delete s id e w = (r, w') → clean_table s (w_db w') ∧ ∀ x, seen w w' x → clean_table s x.2).
Proof.
  intros HR Hw.
  assert (∀ w' l x, w_steps w' = w_steps w ++ l → Forall (λ y, clean_table s y.1 ∧ clean_table s y.2) l → seen w w' x →
    clean_table s x.2) as Hs.
  { intros w' l x Hl Hf. unfold seen. rewrite (own_steps_app _ _ _ Hl). intros Hx.
    exact (proj2 (proj1 (Forall_forall _ _) Hf x Hx)). }
  split_and!.
  - intros p r w' H. destruct (maintains_provider_Create s p e w r w' eq_refl HR Hw H) as (l & ? & ? & ? & ?). eauto 10.
  - intros id pt r w' H. destruct (maintains_provider_Patch s id pt e w r w' eq_refl HR Hw H) as (l & ? & ? & ? & ?). eauto 10.
  - intros id r w' H. destruct (maintains_provider_Delete s id e w r w' eq_refl HR Hw H) as (l & ? & ? & ? & _). eauto 10.
Qed.

End ProviderSecrets.

(** ** Runs *)

Module RegistryRuns.
Import Scenario.

(** [app] and [svc] may exchange for [api], which fronts the broker resource
    [git]. *)

Definition db : DB :=
  MkDB {["app" := ExchangeRuns.client "app"; "svc" := ExchangeRuns.client "svc"]} {["alice" := alice]} ∅ ∅ ∅ ∅ ∅ ∅
    {["j0" := ExchangeRuns.row "j0" ""]}
    {["res1" := ExchangeRuns.resource "res1" "api" ["app"; "svc"] ["svc"]; "res3" := ExchangeRuns.git]}
    {[("alice", "app", "res1") := ExchangeRuns.grant "g1" "res1" ["read"]]}
    {[("api", "git") := Link.MkLink "api" "git" {["read" := ["repo"]]} start "admin"]} ∅ ∅
    {["p1" := Broker.MkProvider "p1" "hub" "Hub" "oauth" "{}" "" "" start start]} ∅ empty_xaa ∅.

Definition world : World := MkWorld db 0 [] [].

Definition wired : ResourceAdminService.Wiring := ResourceAdminService.MkWiring true true true true.

Definition removed : res (list string) * World := ResourceAdminService.RemoveAllowedClient wired "api" "svc" ExchangeRuns.env world.

Definition exchange (w : World) : res TokenExchangeService.TokenExchangeResponse * World :=
  TokenExchangeService.Exchange ExchangeRuns.wired ExchangeRuns.deps (ExchangeRuns.request "st" "api" "svc" "read") ExchangeRuns.env w.

(** An encoder that keeps the secret in the database, and a codec for objects
    with one string. *)

Definition providers : BrokerProviderAdminService.Deps :=
  BrokerProviderAdminService.MkDeps true
    (λ _ value _ _, mret (BrokerProviderAdminService.MkEncoded ("enc:" +:+ value) "local" ""))
    (λ c, if bool_decide (c = "{}") then Some ∅
          else if bool_decide (c = "{secret}") then Some {["client_secret" := JStr "s"]} else None)
    (λ m, if bool_decide (size m = 0) then "{}" else "?").

#[global] Instance providers_encoder : EncoderDeps providers.
Proof. intros a b c d S P HS. apply traced_ret. Qed.

#[global] Instance providers_json : ProviderSecrets.JsonLaws providers.
Proof.
  split; simpl.
  - intros m m'. destruct (bool_decide (size m = 0)) eqn:Hm; [|done]. unbool. apply map_size_empty_inv in Hm as ->. by intros [= <-].
  - intros m. by case_bool_decide.
  - by intros m [= <-].
Qed.

Definition provider : Broker.BrokerProvider := Broker.MkProvider "" "Hub2" "Hub" "oauth" "{secret}" "" "" 0 0.

Definition created : res Broker.BrokerProvider * World := BrokerProviderAdminService.Create providers provider ExchangeRuns.env world.

End RegistryRuns.

Lemma run_registry : Registry (url_parse (params ExchangeRuns.env)) RegistryRuns.db.
Proof.
  assert (∀ k r, resources RegistryRuns.db !! k = Some r →
    (k, r) = ("res1", ExchangeRuns.resource "res1" "api" ["app"; "svc"] ["svc"]) ∨ (k, r) = ("res3", ExchangeRuns.git)) as Hr.
  { intros k r. simpl. rewrite lookup_insert_Some, lookup_singleton_Some. naive_solver. }
  split.
  - intros k r [[= -> ->]|[= -> ->]]%Hr; done.
  - intros k1 k2 r1 r2 v [[= -> ->]|[= -> ->]]%Hr [[= -> ->]|[= -> ->]]%Hr; simpl; congruence.
  - intros k r [[= -> ->]|[= -> ->]]%Hr; (split; [vm_compute; reflexivity|reflexivity]).
  - intros k r [[= -> ->]|[= -> ->]]%Hr; simpl; [done|]. intros _. eexists. reflexivity.
  - intros k p. simpl. rewrite lookup_singleton_Some. by intros [<- <-].
  - intros k l. simpl. rewrite lookup_singleton_Some. intros [<- <-]. simpl. split.
    + exists "res1". eexists. split; reflexivity.
    + exists "res3". eexists. split; reflexivity.
Qed.

Lemma registry_stays_well_formed_witness :
  Registry (url_parse (params ExchangeRuns.env))
    (w_db (reg_perform RegistryRuns.wired RegistryRuns.providers true (OpDeleteResource "res3" true) ExchangeRuns.env RegistryRuns.world).2) ∧
  resources (w_db (reg_perform RegistryRuns.wired RegistryRuns.providers true (OpDeleteResource "res3" true) ExchangeRuns.env RegistryRuns.world).2)
    !! "res3" = None.
Proof.
  split; [|vm_compute; reflexivity]. destruct (reg_perform _ _ _ _ _ _) as [r w'] eqn:H in |- *.
  exact (proj1 (registry_stays_well_formed RegistryRuns.wired RegistryRuns.providers true (OpDeleteResource "res3" true)
    ExchangeRuns.env RegistryRuns.world r w' (λ _ _ h, h) run_registry H)).
Defined.

Lemma run_removed : RegistryRuns.removed = (Ok ["app"], RegistryRuns.removed.2).
Proof. apply run_eq. by vm_compute. Qed.

Lemma removed_client_cannot_exchange_witness :
  (∃ resp, (RegistryRuns.exchange RegistryRuns.world).1 = Ok resp) ∧
  ∃ x, (RegistryRuns.exchange RegistryRuns.removed.2).1 = Err x.
Proof.
  split; [vm_compute; eauto|]. destruct (RegistryRuns.exchange RegistryRuns.removed.2) as [r w3] eqn:H in |- *.
  refine (removed_client_cannot_exchange RegistryRuns.wired "api" "svc" ExchangeRuns.env RegistryRuns.world ["app"] RegistryRuns.removed.2
    ExchangeRuns.wired ExchangeRuns.deps (ExchangeRuns.request "st" "api" "svc" "read") ExchangeRuns.env RegistryRuns.removed.2 r w3
    (λ _ _ h, h) run_registry run_removed _ _ (λ h, h) (λ _ _ h, h) eq_refl eq_refl _ H); [discriminate| |discriminate].
  intros Hin%list_elem_of_singleton. discriminate.
Defined.

Lemma no_literal_secret_stored_witness : ∃ p,
  RegistryRuns.created.1 = Ok p ∧ Broker.EncSecretData p = "enc:s" ∧ Broker.ConfigData p = "{}" ∧
  ProviderSecrets.routed RegistryRuns.providers p.
Proof.
  assert (∃ p, RegistryRuns.created.1 = Ok p ∧ Broker.EncSecretData p = "enc:s" ∧ Broker.ConfigData p = "{}")
    as (p & E & H1 & H2) by (vm_compute; eauto 10).
  exists p. split; [exact E|]. split; [done|]. split; [done|].
  destruct (ProviderSecrets.no_literal_secret_stored RegistryRuns.providers ExchangeRuns.env RegistryRuns.world (λ _ _ h, h)) as (H & _ & _).
  - intros k q. simpl. rewrite lookup_singleton_Some. intros [<- <-]. apply ProviderSecrets.clean_empty, _.
  - destruct (H RegistryRuns.provider (Ok p) RegistryRuns.created.2 (run_eq RegistryRuns.created (Ok p) E)) as (_ & _ & Hp). by apply Hp.
Defined.
