(* ===== verification/Runs.v ===== *)
(** * Runs that only read, and runs with one write *)

From S2P Require Import Prelude Domain Db Effects Stores Order Accounts AdminProofs.

(** Runs that only read. *)

Definition reads (w w' : World) : Prop := extends w w' ∧ ∀ x, seen w w' x → x.2 = x.1.

#[export] Instance reads_preorder : PreOrder reads.
Proof.
  split.
  - intros w. split; [reflexivity|]. intros x. unfold seen, own_steps. rewrite drop_all. by intros ?%not_elem_of_nil.
  - intros w w1 w2 [X1 H1] [X2 H2]. split; [by etrans|]. intros x [Hx|Hx]%(seen_app _ _ _ _ X1 X2); auto.
Qed.

Lemma reads_of {A} (m : M A) e w r w' : Traced (=) any_event m → m e w = (r, w') → reads w w'.
Proof.
  intros Hm H. split; [by eapply traced_extends|]. intros x Hx. symmetry. by eapply (traced_seen _ _ _ _ _ _ Hm H).
Qed.

(** [reads] by following the reading sub-runs. *)

Ltac reads_tac := solve [reflexivity | assumption | match goal with
  | H : reads ?w ?w1 |- reads ?w ?w2 => apply (PreOrder_Transitive w w1 w2 H); reads_tac end].

(** The run of a program that reads, takes one step and reads. *)

Definition one_write (w w' : World) (x : DB * DB) : Prop :=
  extends w w' ∧ seen w w' x ∧ ∀ y, seen w w' y → y = x ∨ y.2 = y.1.

Lemma one_write_between w w1 w2 w' x : reads w w1 → one_write w1 w2 x → reads w2 w' → one_write w w' x.
Proof.
  intros [X1 H1] (X & Hx & Ho) [X2 H2]. split; [by etrans; [|etrans]|]. split; [by apply (seen_sub w w1 w2 w' x)|].
  assert (extends w w2) as X12 by (by etrans).
  intros y [Hy|Hy]%(seen_app _ _ _ _ X12 X2); [|auto]. apply (seen_app _ _ _ _ X1 X) in Hy as [Hy|Hy]; auto.
Qed.

Lemma one_write_store {A} (f : Z → DB → res A * DB) e w a w' :
  store f e w = (Ok a, w') → ∃ d d', f (clock e (w_tick w)) d = (Ok a, d') ∧ one_write w w' (d, d') ∧ w_db w' = d' ∧
    d = interfere e (w_tick w) (w_db w).
Proof.
  intros (now & d & d' & -> & -> & Hf & ->)%store_ok. eexists _, d'. split; [exact Hf|].
  split; [|done]. split; [apply extends_after|]. split; [apply seen_after|].
  intros y. unfold seen. erewrite own_steps_app by reflexivity. rewrite list_elem_of_singleton. by left.
Qed.

(** Any step. *)

Definition anything (d d' : DB) : Prop := True.

#[export] Instance anything_preorder : PreOrder anything.
Proof. by split. Qed.
#[export] Instance keeps_anything {A} (tbl : DB → A) : Keeps tbl anything.
Proof. done. Qed.
