(* ===== verification/Connect.v ===== *)
(** * internal/services/connect.go: connecting a user to an upstream provider

    [StartConnect] records a pending state and sends the user to the provider;
    [CompleteConnect] consumes the state when the provider sends the user back,
    and stores the credential as a broker grant; [Disconnect] revokes it.

    The protocol adapters and the encryptor talk to upstream servers and key
    services, HMAC, base64 and the query string of a URL are Go's library:
    fields of [Deps].  [ConnectDeps] states what the service relies on. *)

From stdpp Require Import pretty.
From S2P Require Import Prelude GoStrings ScopeSet Act Domain Db Effects Crypto Stores Order StoreOrder BrokerIssuer.

(** [strings.TrimRight(s, "/")] *)

Fixpoint trim_slashes (s : string) : string :=
  match s with
  | EmptyString => ""
  | String c s' =>
      let t := trim_slashes s' in
      if andb (bool_decide (c = Ascii.ascii_of_nat 47)) (bool_decide (t = "")) then "" else String c t
  end.

(** [strings.SplitN(s, ".", 2)] with two parts. *)

Fixpoint cut_dot (s : string) : option (string * string) :=
  match s with
  | EmptyString => None
  | String c s' =>
      if bool_decide (c = Ascii.ascii_of_nat 46) then Some ("", s')
      else match cut_dot s' with Some (a, b) => Some (String c a, b) | None => None end
  end.

Fixpoint strings_drop (n : nat) (s : string) : string :=
  match n, s with
  | 0, _ => s
  | S n', String _ s' => strings_drop n' s'
  | S _, EmptyString => ""
  end.

Module ConnectService.

(** [output.BrokerProtocol] *)

Record BrokerProtocol := MkProtocol {
  BuildConnectURL : Broker.BrokerProvider → Resource.Resource → string → string → string → list string →
    M (string * option Pending.ConnectPendingState);     (* user, return URL, callback URL, scopes *)
  HandleCallback : Broker.BrokerProvider → Resource.Resource → string → string → Pending.ConnectPendingState →
    M (string * list string);                            (* code, callback URL, pending: credential and scopes *)
  Revoke : Broker.BrokerProvider → string → M unit
}.

Record ConnectConfig := MkConnectConfig { RedirectBaseURL : string; AllowedReturnURLs : list string }.

Record Deps := MkDeps {
  Lookup : string → option BrokerProtocol;
  Encrypt : string → string → M string;
  Decrypt : string → string → M string;
  DriverName : string;
  stateConfig : M string;                      (* the signing key *)
  connectConfig : M ConnectConfig;
  hmac_sha256 : string → string → string;      (* key, message *)
  b64url_encode : string → string;
  b64url_decode : string → option string;
  url_with_state : URL → string → option string;
    (* the text of the URL with its [state] parameter replaced; None without one *)
  has_audit : bool
}.

(** They use none of the server's tables and write no audit rows, and base64
    decodes what it encoded. *)

Class ConnectDeps (d : Deps) : Prop := {
  traced_build n a p r u ru cb sc S P : PreOrder S → Lookup d n = Some a → Traced S P (BuildConnectURL a p r u ru cb sc);
  traced_callback n a p r c cb st S P : PreOrder S → Lookup d n = Some a → Traced S P (HandleCallback a p r c cb st);
  traced_revoke n a p c S P : PreOrder S → Lookup d n = Some a → Traced S P (Revoke a p c);
  traced_encrypt a b S P : PreOrder S → Traced S P (Encrypt d a b);
  traced_decrypt a b S P : PreOrder S → Traced S P (Decrypt d a b);
  traced_state_config S P : PreOrder S → Traced S P (stateConfig d);
  traced_connect_config S P : PreOrder S → Traced S P (connectConfig d);
  b64url_round_trip x : b64url_decode d (b64url_encode d x) = Some x
}.

Record ConnectionMeta := MkMeta {
  Provider : string; ScopesGranted : list string; m_CreatedAt : Z; m_UpdatedAt : Z
}.

Record CompleteConnectResult := MkResult { Meta : ConnectionMeta; ReturnURL : string }.

Definition stateExpiry : Z := 10 * 60 * SqlTime.nano.

(** ** Return URLs *)

Definition loopbackWildcardPrefix (pattern : string) : option string :=
  if bool_decide (pattern = "http://localhost:*") then Some "http://localhost:"
  else if bool_decide (pattern = "https://localhost:*") then Some "https://localhost:"
  else if bool_decide (pattern = "http://127.0.0.1:*") then Some "http://127.0.0.1:"
  else if bool_decide (pattern = "https://127.0.0.1:*") then Some "https://127.0.0.1:"
  else None.

Definition is_digit (c : Ascii.ascii) : bool :=
  let n := Ascii.nat_of_ascii c in bool_decide (48 ≤ n ∧ n ≤ 57).

(** The loop over the digits: how many, and what follows them. *)

Fixpoint skip_digits (s : string) : nat * string :=
  match s with
  | String c s' => if is_digit c then let '(i, rest) := skip_digits s' in (S i, rest) else (0, s)
  | EmptyString => (0, "")
  end.

Definition matchReturnURL (pattern returnURL : string) : bool :=
  if bool_decide (pattern = returnURL) then true
  else match loopbackWildcardPrefix pattern with
       | None => false
       | Some prefix =>
           if negb (strings_HasPrefix returnURL prefix) then false
           else
             let rest := strings_drop (String.length prefix) returnURL in
             if bool_decide (rest = "") then false
             else
               let '(i, tail) := skip_digits rest in
               if bool_decide (i = 0) then false
               else match tail with
                    | EmptyString => true
                    | String c _ => bool_decide (c = Ascii.ascii_of_nat 47)
                    end
       end.

Section service.
Variable s : Deps.

(** A failing issuer provider is logged and read as the empty string. *)

Definition issuer : M string :=
  r ← try (provider (λ e, Issuer (config e)));
  match r with
  | Ok i => mret i
  | Err _ => mret ""
  end.

Definition matchesASelf (redirectBaseURL returnURL : string) : M bool :=
  i ← issuer;
  mret (existsb (λ b, andb (negb (bool_decide (b = ""))) (bool_decide (returnURL = b +:+ "/connections"))) [redirectBaseURL; i]).

Definition isReturnURLAllowed (redirectBaseURL returnURL : string) (allowedReturnURLs : list string)
    (target : Resource.Resource) : M bool :=
  if bool_decide (returnURL = "") then mret false else
  self ← matchesASelf redirectBaseURL returnURL;
  if self : bool then mret true
  else mret (orb (existsb (λ allowed, matchReturnURL allowed returnURL) (Resource.AllowedReturnURLs target))
               (existsb (λ allowed, matchReturnURL allowed returnURL) allowedReturnURLs)).

Definition callbackURL (redirectBaseURL providerSlug : string) : M string :=
  base ← (if bool_decide (redirectBaseURL = "") then issuer else mret redirectBaseURL);
  mret (if bool_decide (base = "") then "" else base +:+ "/connect/" +:+ providerSlug +:+ "/callback").

Definition singleBrokerResourceForProvider (providerID : string) : M Resource.Resource :=
  rows ← ResourceStore.List (ResourceStore.MkFilter (Some Resource.BackendBroker) providerID 0 0);
  match rows with
  | [] => throw ErrInvalidTarget
  | [r] => mret r
  | _ => throw ErrAmbiguousBrokerResource
  end.

(** ** State tokens *)

Definition computeStateHMAC (key stateID userID providerSlug returnURL : string) : string :=
  hmac_sha256 s key (stateID +:+ ":" +:+ userID +:+ ":" +:+ providerSlug +:+ ":" +:+ returnURL).

Definition resolveStateKey : M string :=
  key ← stateConfig s;
  if bool_decide (key = "") then throw (EOther "connect: empty state signing key") else mret key.

Definition generateStateToken (userID providerSlug returnURL : string) : M string :=
  key ← resolveStateKey;
  stateID ← GenerateRandomString;
  mret (stateID +:+ "." +:+ b64url_encode s (computeStateHMAC key stateID userID providerSlug returnURL)).

Definition verifyStateToken (stateToken userID providerSlug returnURL : string) : M bool :=
  key ← resolveStateKey;
  match cut_dot stateToken with
  | None => mret false
  | Some (stateID, enc) =>
      match b64url_decode s enc with
      | None => mret false
      | Some sig => mret (bool_decide (sig = computeStateHMAC key stateID userID providerSlug returnURL))
      end
  end.

Definition rebindStateInURL (up : string → option URL) (upstreamURL stateToken : string) : string :=
  match up upstreamURL with
  | None => upstreamURL
  | Some u => default upstreamURL (url_with_state s u stateToken)
  end.

(** ** StartConnect *)

Definition resolveConnectTarget (providerID resourceSlug : string) : M Resource.Resource :=
  if bool_decide (resourceSlug ≠ "") then
    target ← ResourceRegistry.Resolve resourceSlug;
    if Resource.IsBroker target then mret target else throw ErrInvalidTarget
  else singleBrokerResourceForProvider providerID.

Definition pendingRow (st : Pending.ConnectPendingState) (token userID providerID resourceID returnURL : string)
    (expires : option Z) : Pending.ConnectPendingState :=
  Pending.MkPending token userID providerID resourceID (Pending.CodeVerifier st) returnURL (Pending.Scopes st) expires.

Definition pendingExpiry (st : Pending.ConnectPendingState) : M (option Z) :=
  match Pending.ExpiresAt st with
  | Some t => mret (Some t)
  | None => now ← time_Now; mret (Some (now + stateExpiry)%Z)
  end.

Definition buildConnect (adapter : BrokerProtocol) (provider : Broker.BrokerProvider) (target : Resource.Resource)
    (userID returnURL callback : string) : M (string * Pending.ConnectPendingState) :=
  r ← try (BuildConnectURL adapter provider target userID returnURL callback (Resource.scope_names target));
  match r with
  | Err ErrNoConnectStep => throw ErrInvalidTarget
  | Err x => throw x
  | Ok (_, None) => throw (EOther "brokerproto adapter returned nil pending state")
  | Ok (u, Some st) => mret (u, st)
  end.

Definition StartConnect (userID providerSlug resourceSlug returnURL : string) : M string :=
  got ← try (BrokerProviderStore.GetBySlug providerSlug);
  match got with
  | Err ErrResourceNotFound => throw ErrServiceNotFound
  | Err x => throw x
  | Ok provider =>
      target ← resolveConnectTarget (Broker.ID provider) resourceSlug;
      cfg ← connectConfig s;
      let redirectBase := trim_slashes (RedirectBaseURL cfg) in
      allowed ← isReturnURLAllowed redirectBase returnURL (AllowedReturnURLs cfg) target;
      _ ← ensure allowed ErrInvalidReturnURL;
      match Lookup s (Broker.Protocol provider) with
      | None => throw ErrAdapterNotRegistered
      | Some adapter =>
          stateToken ← generateStateToken userID providerSlug returnURL;
          callback ← callbackURL redirectBase providerSlug;
          built ← buildConnect adapter provider target userID returnURL callback;
          expires ← pendingExpiry built.2;
          _ ← ConnectPendingStateStore.Insert
                (pendingRow built.2 stateToken userID (Broker.ID provider) (Resource.ID target) returnURL expires);
          up ← ask (λ e, url_parse (params e));
          mret (rebindStateInURL up built.1 stateToken)
      end
  end.

(** ** CompleteConnect *)

Definition no_resource : Resource.Resource :=
  Resource.MkResource "" "" "" "" (Resource.BackendUnknown "") "" [] [] [] [] 0 0.

Definition originatingResource (resourceID : string) : M Resource.Resource :=
  if bool_decide (resourceID = "") then mret no_resource
  else rp ← ResourceRegistry.GetWithProvider resourceID; mret rp.1.

Definition consumeState (userID stateToken : string) : M Pending.ConnectPendingState :=
  got ← try (ConnectPendingStateStore.Consume stateToken);
  match got with
  | Err ErrPendingStateNotFound => throw ErrStateNotFound
  | Err x => throw x
  | Ok pending =>
      if bool_decide (Pending.UserID pending ≠ userID) then throw ErrStateForeignUser else mret pending
  end.

Definition storeGrant (userID : string) (provider : Broker.BrokerProvider) (cred : string) (scopes : list string)
    : M Broker.BrokerGrant :=
  credEnc ← Encrypt s cred (BrokerIssuer.brokerOwnerContext userID (Broker.ID provider));
  now ← time_Now;
  id ← GenerateRandomString;
  BrokerGrantStore.Upsert (Broker.MkBrokerGrant id userID (Broker.ID provider) credEnc scopes (DriverName s) 0 now now None).

Definition CompleteConnect (userID stateToken code : string) : M CompleteConnectResult :=
  pending ← consumeState userID stateToken;
  provider ← BrokerProviderStore.GetByID (Pending.ProviderID pending);
  stateOK ← verifyStateToken stateToken userID (Broker.Slug provider) (Pending.ReturnURL pending);
  _ ← ensure stateOK ErrInvalidState;
  match Lookup s (Broker.Protocol provider) with
  | None => throw ErrAdapterNotRegistered
  | Some adapter =>
      res ← originatingResource (Pending.ResourceID pending);
      cfg ← connectConfig s;
      callback ← callbackURL (trim_slashes (RedirectBaseURL cfg)) (Broker.Slug provider);
      cs ← HandleCallback adapter provider res code callback pending;
      grant ← storeGrant userID provider cs.1 cs.2;
      _ ← record_audit (has_audit s)
            (Audit.NewEvent Audit.ActionBrokerGrantCreated userID "" ""
               ("provider=" +:+ Broker.Slug provider +:+ " grant_id=" +:+ Broker.g_ID grant +:+ " version=" +:+ pretty (Broker.Version grant)));
      mret (MkResult (MkMeta (Broker.Slug provider) (Broker.ScopesGranted grant) (Broker.CreatedAt grant) (Broker.UpdatedAt grant))
              (Pending.ReturnURL pending))
  end.

(** ** Disconnect *)

Definition revokeUpstream (userID : string) (provider : Broker.BrokerProvider) (credentialData : string) : M unit :=
  match Lookup s (Broker.Protocol provider) with
  | None => mret tt
  | Some adapter =>
      plain ← try (Decrypt s credentialData (BrokerIssuer.brokerOwnerContext userID (Broker.ID provider)));
      match plain with
      | Ok cred => _ ← try (Revoke adapter provider cred); mret tt
      | Err _ => mret tt
      end
  end.

Definition Disconnect (userID providerSlug : string) : M unit :=
  got ← try (BrokerProviderStore.GetBySlug providerSlug);
  match got with
  | Err ErrResourceNotFound => throw ErrConnectionNotFound
  | Err x => throw x
  | Ok provider =>
      grant ← BrokerGrantStore.Get userID (Broker.ID provider);
      match grant with
      | None => throw ErrConnectionNotFound
      | Some g =>
          _ ← BrokerGrantStore.Revoke (Broker.g_ID g);
          _ ← revokeUpstream userID provider (Broker.CredentialData g);
          record_audit (has_audit s)
            (Audit.NewEvent Audit.ActionBrokerGrantRevoked userID "" ""
               ("provider=" +:+ Broker.Slug provider +:+ " grant_id=" +:+ Broker.g_ID g))
      end
  end.

(** ** ListConnections *)

Fixpoint connection_metas (grants : list Broker.BrokerGrant) : M (list ConnectionMeta) :=
  match grants with
  | [] => mret []
  | g :: rest =>
      if Broker.IsRevoked g then connection_metas rest
      else
        p ← try (BrokerProviderStore.GetByID (Broker.BrokerProviderID g));
        metas ← connection_metas rest;
        match p with
        | Err _ => mret metas
        | Ok provider =>
            mret (MkMeta (Broker.Slug provider) (Broker.ScopesGranted g) (Broker.CreatedAt g) (Broker.UpdatedAt g) :: metas)
        end
  end.

Definition ListConnections (userID : string) : M (list ConnectionMeta) :=
  grants ← BrokerGrantStore.ListForUser userID; connection_metas grants.

End service.
End ConnectService.
