(* ===== verification/ConnectTheorems.v ===== *)
(** * Theorems about the connect flow

    Where a user can be sent back to; a state token is good for one callback,
    of the user and the provider it was made for; a started connect can be
    completed; a disconnected user gets nothing more from the provider. *)

From stdpp Require Import pretty.
From S2P Require Import Prelude GoStrings ScopeSet Act Domain Db Effects Crypto Stores Order StoreOrder TokenProofs Scenario MintIssuer BrokerIssuer Accounts AdminProofs AdminTheorems Runs Connect.
Import MintIssuer ConnectService.

(** ** Return URLs *)

(** A loopback URL with a port: [pre] ends in the colon. *)

Definition loopback_url (pre u : string) : Prop := ∃ port path,
  u = pre +:+ port +:+ path ∧ port ≠ "" ∧ Resource.all_chars is_digit port = true ∧
  (path = "" ∨ ∃ rest, path = String (Ascii.ascii_of_nat 47) rest).

Definition loopbacks : list string :=
  ["http://localhost:"; "https://localhost:"; "http://127.0.0.1:"; "https://127.0.0.1:"].

(** What an entry of an allow list admits. *)

Definition admits (pattern u : string) : Prop :=
  pattern = u ∨ ∃ pre, pre ∈ loopbacks ∧ pattern = pre +:+ "*" ∧ loopback_url pre u.

Lemma wildcard_spec pattern pre :
  loopbackWildcardPrefix pattern = Some pre ↔ pre ∈ loopbacks ∧ pattern = pre +:+ "*".
Proof.
  unfold loopbackWildcardPrefix, loopbacks. split.
  - repeat case_bool_decide; intros; simplify_eq; (split; [set_solver|done]).
  - intros [Hin ->]. repeat (apply elem_of_cons in Hin as [->|Hin]; [done|]). by apply not_elem_of_nil in Hin.
Qed.

Lemma HasPrefix_drop pre u :
  strings_HasPrefix u pre = true → u = pre +:+ strings_drop (String.length pre) u.
Proof.
  revert u. induction pre as [|c pre IH]; intros u; [done|]. destruct u as [|b u]; [done|].
  simpl. case_bool_decide; [|done]. intros Hu. subst. apply (f_equal (String b)). by apply IH.
Qed.

Lemma HasPrefix_app pre u : strings_HasPrefix (pre +:+ u) pre = true.
Proof. induction pre as [|c pre IH]; simpl; [done|]. by rewrite bool_decide_true. Qed.

Lemma drop_app pre u : strings_drop (String.length pre) (pre +:+ u) = u.
Proof. induction pre; simpl; done. Qed.

(** The digits that are skipped are as many as possible. *)

Lemma skip_digits_spec s i tail :
  skip_digits s = (i, tail) → ∃ port, s = port +:+ tail ∧ String.length port = i ∧ Resource.all_chars is_digit port = true.
Proof.
  revert i. induction s as [|c s IH]; simpl; intros i.
  - intros [= <- <-]. by exists "".
  - destruct (is_digit c) eqn:Hc; [|intros [= <- <-]; by exists ""].
    destruct (skip_digits s) as [j t]. intros [= <- <-]. destruct (IH j eq_refl) as (port & -> & <- & Hp).
    exists (String c port). simpl. by rewrite Hc.
Qed.

Lemma skip_digits_app port tail :
  Resource.all_chars is_digit port = true → (tail = "" ∨ ∃ rest, tail = String (Ascii.ascii_of_nat 47) rest) →
  skip_digits (port +:+ tail) = (String.length port, tail).
Proof.
  intros Hp Ht. induction port as [|c port IH]; simpl in *.
  - by destruct Ht as [->|[rest ->]].
  - apply andb_true_iff in Hp as [Hc Hp]. by rewrite Hc, IH.
Qed.

Lemma app_not_empty (a b : string) : a ≠ "" → a +:+ b ≠ "".
Proof. by destruct a. Qed.

Lemma matchReturnURL_spec pattern u : matchReturnURL pattern u = true ↔ admits pattern u.
Proof.
  unfold matchReturnURL, admits. case_bool_decide as Heq; [naive_solver|].
  destruct (loopbackWildcardPrefix pattern) as [pre|] eqn:Hw.
  - apply wildcard_spec in Hw as [Hin ->]. split.
    + destruct (strings_HasPrefix u pre) eqn:Hp; [|done]. simpl. intros H. right. exists pre. split; [done|]. split; [done|].
      apply HasPrefix_drop in Hp. set (rest := strings_drop (String.length pre) u) in *. case_bool_decide; [done|].
      destruct (skip_digits rest) as [i tail] eqn:Hs. apply skip_digits_spec in Hs as (port & Hr & Hi & Hd).
      case_bool_decide as Hz; [done|]. exists port, tail. rewrite Hr in Hp. split; [done|].
      split; [intros ->; by simpl in *; subst i|]. split; [done|]. destruct tail as [|c tail]; [by left|].
      apply bool_decide_eq_true in H. right. exists tail. by subst.
    + intros [?|(pre' & Hin' & Hpre & port & path & -> & Hne & Hd & Hp)]; [done|].
      assert (pre' = pre) as ->.
      { pose proof (proj2 (wildcard_spec _ _) (conj Hin' Hpre)) as E1.
        pose proof (proj2 (wildcard_spec _ _) (conj Hin eq_refl)) as E2. congruence. }
      rewrite HasPrefix_app. simpl. rewrite drop_app, bool_decide_false by (by apply app_not_empty).
      rewrite skip_digits_app by done. rewrite bool_decide_false by (by destruct port).
      destruct Hp as [->|[rest ->]]; [done|]. by apply bool_decide_eq_true.
  - split; [done|]. intros [?|(pre & Hin & -> & _)]; [done|]. by rewrite (proj2 (wildcard_spec _ _) (conj Hin eq_refl)) in Hw.
Qed.

(** What the code it calls leaves alone. *)

Ltac keep_connect :=
  lazymatch goal with
  | |- Traced _ _ (BuildConnectURL _ _ _ _ _ _ _) => eapply traced_build; [apply _|eassumption]
  | |- Traced _ _ (HandleCallback _ _ _ _ _ _) => eapply traced_callback; [apply _|eassumption]
  | |- Traced _ _ (ConnectService.Revoke _ _ _) => eapply traced_revoke; [apply _|eassumption]
  | |- Traced _ _ (Encrypt _ _ _) => apply traced_encrypt; apply _
  | |- Traced _ _ (Decrypt _ _ _) => apply traced_decrypt; apply _
  | |- Traced _ _ (stateConfig _) => apply traced_state_config; apply _
  | |- Traced _ _ (connectConfig _) => apply traced_connect_config; apply _
  | |- _ => keep_step
  end.

Ltac keeps_connect := repeat keep_connect.

Section steps.
Context (s : Deps) `{HD : !ConnectDeps s}.

Tactic Notation "rd" hyp(H) "as" ident(X) :=
  lazymatch type of H with
  | ?m ?e ?w = (?r, ?w') => assert (reads w w') as X by (refine (reads_of m e w r w' _ H); keeps_connect)
  end.

(** ** Return URLs that are allowed *)

Definition return_allowed (cfg : ConnectConfig) (issuer : string) (target : Resource.Resource) (u : string) : Prop :=
  u ≠ "" ∧ ((∃ b, b ∈ [trim_slashes (RedirectBaseURL cfg); issuer] ∧ b ≠ "" ∧ u = b +:+ "/connections") ∨
            ∃ pat, (pat ∈ Resource.AllowedReturnURLs target ∨ pat ∈ AllowedReturnURLs cfg) ∧ admits pat u).

Lemma existsb_admits l u : existsb (λ p, matchReturnURL p u) l = true ↔ ∃ p, p ∈ l ∧ admits p u.
Proof.
  rewrite existsb_exists. split.
  - intros (p & Hp%list_elem_of_In & Hm%matchReturnURL_spec). eauto.
  - intros (p & Hp & Hm). exists p. split; [by apply list_elem_of_In|by apply matchReturnURL_spec].
Qed.

Lemma issuer_ok e w i w' : issuer e w = (Ok i, w') → i = Issuer (config e) ∨ i = "" ∧ ∃ n, fault e n = true.
Proof.
  unfold issuer. intros H. mstep H. unfold provider in Hm. destruct (fault e (w_tick w)) eqn:E; simplify_eq/=;
    apply ret_ok in H as [<- _]; eauto.
Qed.

Lemma self_spec base i u :
  existsb (λ b, andb (negb (bool_decide (b = ""))) (bool_decide (u = b +:+ "/connections"))) [base; i] = true ↔
  ∃ b, b ∈ [base; i] ∧ b ≠ "" ∧ u = b +:+ "/connections".
Proof.
  rewrite existsb_exists. split.
  - intros (b & Hb%list_elem_of_In & H). unbool. eauto.
  - intros (b & Hb & Hn & Hu). exists b. split; [by apply list_elem_of_In|].
    by rewrite bool_decide_false, bool_decide_true.
Qed.

Lemma isReturnURLAllowed_ok cfg target u e w b w' :
  isReturnURLAllowed (trim_slashes (RedirectBaseURL cfg)) u (AllowedReturnURLs cfg) target e w = (Ok b, w') →
  (b = true → return_allowed cfg (Issuer (config e)) target u) ∧
  (fault_free e → return_allowed cfg (Issuer (config e)) target u → b = true).
Proof.
  unfold isReturnURLAllowed, matchesASelf. case_bool_decide as Hu.
  { intros [<- _]%ret_ok. split; [done|]. by intros _ [? _]. }
  intros H. mstep H. mstep Hm. apply ret_ok in Hm as [<- <-]. apply issuer_ok in Hm0.
  assert (∀ j, (∃ b, b ∈ [trim_slashes (RedirectBaseURL cfg); j] ∧ b ≠ "" ∧ u = b +:+ "/connections") →
     j = Issuer (config e) ∨ j = "" → ∃ b, b ∈ [trim_slashes (RedirectBaseURL cfg); Issuer (config e)] ∧ b ≠ "" ∧ u = b +:+ "/connections") as Hj.
  { intros j (c & Hc & ? & ?) [-> | ->]; [eauto|]. exists c. split; [|done].
    apply elem_of_cons in Hc as [->|Hc%list_elem_of_singleton]; [left|done]. }
  destruct (existsb _ [_; _]) eqn:Hs.
  - apply ret_ok in H as [<- _]. split; [|done]. intros _. split; [done|]. left. apply self_spec in Hs. eapply Hj; [done|].
    destruct Hm0 as [?|[? _]]; auto.
  - apply ret_ok in H as [<- _]. rewrite orb_true_iff, !existsb_admits. split.
    + intros [(p & ? & ?)|(p & ? & ?)]; (split; [done|]); right; eauto.
    + intros Hff [_ [Hb|(p & Hp & ?)]]; [|destruct Hp; eauto]. exfalso.
      destruct Hm0 as [->|(_ & n & Hn)]; [|by rewrite Hff in Hn]. apply self_spec in Hb. congruence.
Qed.

(** ** StartConnect *)

Definition token_of (key id userID providerSlug returnURL : string) : string :=
  id +:+ "." +:+ b64url_encode s (computeStateHMAC s key id userID providerSlug returnURL).

(** A started connect: the rows it was decided on, and the one row it added. *)

Record started (userID providerSlug returnURL : string) (e : Env) (w w' : World) (provider : Broker.BrokerProvider)
    (target : Resource.Resource) (row : Pending.ConnectPendingState) (url : string) : Prop := {
  st_provider : ∃ d k, seen w w' (d, d) ∧ broker_providers d !! k = Some provider ∧ Broker.Slug provider = providerSlug;
  st_target : ∃ d k, seen w w' (d, d) ∧ resources d !! k = Some target;
  st_broker : Resource.Kind target = Resource.BackendBroker;
  st_adapter : is_Some (Lookup s (Broker.Protocol provider));
  st_allowed : ∃ cfg w1 w2, connectConfig s e w1 = (Ok cfg, w2) ∧ return_allowed cfg (Issuer (config e)) target returnURL;
  st_token : ∃ key n w1 w2, stateConfig s e w1 = (Ok key, w2) ∧ key ≠ "" ∧
    Pending.ID row = token_of key (rand e n) userID providerSlug returnURL;
  st_row : Pending.UserID row = userID ∧ Pending.ProviderID row = Broker.ID provider ∧
    Pending.ResourceID row = Resource.ID target ∧ Pending.ReturnURL row = returnURL ∧ is_Some (Pending.ExpiresAt row);
  st_written : ∃ d, connect_states d !! Pending.ID row = None ∧
    one_write w w' (d, set_states (<[Pending.ID row := row]> (connect_states d)) d) ∧
    w_db w' = set_states (<[Pending.ID row := row]> (connect_states d)) d
}.

Lemma generateStateToken_ok u p r e w tok w' :
  generateStateToken s u p r e w = (Ok tok, w') → ∃ key n w1 w2,
    stateConfig s e w1 = (Ok key, w2) ∧ key ≠ "" ∧ tok = token_of key (rand e n) u p r.
Proof.
  unfold generateStateToken, resolveStateKey. intros H. mstep H. mstep Hm.
  case_bool_decide; [by apply throw_ok in Hm|]. apply ret_ok in Hm as [<- <-]. mstep H.
  unfold GenerateRandomString in Hm. simplify_eq. apply ret_ok in H as [<- _]. eauto 10.
Qed.

Lemma target_ok pid slug e w t w' :
  resolveConnectTarget pid slug e w = (Ok t, w') → Resource.Kind t = Resource.BackendBroker ∧
    ∃ d k, seen w w' (d, d) ∧ resources d !! k = Some t.
Proof.
  unfold resolveConnectTarget. case_bool_decide.
  - intros H1. mstep H1. destruct (Resource.IsBroker a) eqn:Hb; [|by apply throw_ok in H1].
    apply ret_ok in H1 as [<- <-]. unfold Resource.IsBroker in Hb. unbool. split; [done|].
    unfold ResourceRegistry.Resolve in Hm. mstep Hm. apply query_seen in Hm0 as (_ & d & Hd & Hs & _).
    rewrite bool_decide_false in Hd by done. injection Hd as <-.
    destruct (take 2 _) as [|x [|]] eqn:Ht; [by apply throw_ok in Hm| |by apply throw_ok in Hm].
    apply ret_ok in Hm as [-> <-]. exists d.
    assert (a ∈ ResourceStore.matching slug d) as Hin.
    { eapply (elem_of_submseteq [a]); [by apply list_elem_of_singleton|]. rewrite <-Ht. apply sublist_submseteq, sublist_take. }
    apply list_elem_of_filter in Hin as [_ Hin]. apply list_elem_of_fmap in Hin as ([k x] & -> & Hk%elem_of_map_to_list).
    eauto.
  - intros H1. unfold singleBrokerResourceForProvider in H1. mstep H1. apply query_seen in Hm as (_ & d & Hd & Hs & _).
    destruct a as [|x [|]]; [by apply throw_ok in H1| |by apply throw_ok in H1]. apply ret_ok in H1 as [-> <-].
    injection Hd as Hd. unfold ResourceStore.list_rows in Hd. simpl in Hd.
    assert (t ∈ filter (λ r, ResourceStore.matches (ResourceStore.MkFilter (Some Resource.BackendBroker) pid 0 0) r = true)
      (ResourceStore.by_slug d)) as Hin by (rewrite Hd; by left).
    apply list_elem_of_filter in Hin as [Hm (k & Hk)%ResourceStore.elem_of_by_slug].
    unfold ResourceStore.matches in Hm. simpl in Hm. unbool. split; [done|]. eauto.
Qed.

Lemma StartConnect_ok userID providerSlug resourceSlug returnURL e w url w' :
  StartConnect s userID providerSlug resourceSlug returnURL e w = (Ok url, w') →
  ∃ provider target row, started userID providerSlug returnURL e w w' provider target row url.
Proof.
  unfold StartConnect. intros H. apply bind_ok in H as (got & w1 & H1 & H). rd H1 as X1. apply try_ok in H1.
  destruct got as [p|x]; [|by destruct x; apply throw_ok in H].
  apply query_seen in H1 as (_ & d1 & Hd1 & Hs1 & _). destruct (find_row _ _) as [p'|] eqn:Hp; [|done]. injection Hd1 as ->.
  apply find_row_Some in Hp as (k1 & Hk1 & Hslug). unbool.
  apply bind_ok in H as (t & w2 & H2 & H). rd H2 as X2. apply target_ok in H2 as (Hb & d2 & k2 & Hs2 & Hk2).
  apply bind_ok in H as (cfg & w3 & H3 & H). rd H3 as X3. apply bind_ok in H as (b & w4 & H4 & H). rd H4 as X4.
  apply bind_ok in H as (u5 & w5 & H5 & H). apply ensure_ok in H5 as [-> <-].
  apply isReturnURLAllowed_ok in H4 as [Hall _]. specialize (Hall eq_refl).
  destruct (Lookup s (Broker.Protocol p)) as [a|] eqn:Ha; [|by apply throw_ok in H].
  apply bind_ok in H as (tok & w6 & H6 & H). rd H6 as X6. apply generateStateToken_ok in H6 as Htok.
  apply bind_ok in H as (cb & w7 & H7 & H). rd H7 as X7. apply bind_ok in H as (built & w8 & H8 & H). rd H8 as X8.
  apply bind_ok in H as (exp & w9 & H9 & H). rd H9 as X9. apply bind_ok in H as (u10 & w10 & H10 & H).
  apply bind_ok in H as (up & w11 & H11 & H). injection H11 as <- ->. apply ret_ok in H as [<- <-].
  exists p, t, (pendingRow built.2 tok userID (Broker.ID p) (Resource.ID t) returnURL exp).
  apply one_write_store in H10 as (d & d' & Hf & Ho & Hdb & _). repeat case_bool_decide; try done. injection Hf as <- <-.
  assert (extends w2 w11) as X by (eapply (one_write_between w2 w9 w11 w11); [reads_tac|exact Ho|reads_tac]).
  split; try done.
  - exists d1, k1. split; [|done]. apply (seen_sub w w w1 w11); [reflexivity|apply X1| |done]. by etrans; [apply X2|].
  - exists d2, k2. split; [|done]. by apply (seen_sub w w1 w2 w11); [apply X1|apply X2|..].
  - eauto.
  - simpl. unfold pendingExpiry in H9. repeat split. destruct (Pending.ExpiresAt built.2).
    + apply ret_ok in H9 as [<- _]. eauto.
    + mstep H9. apply ret_ok in H9 as [<- _]. eauto.
  - exists d. split; [by apply eq_None_not_Some|]. split; [|done].
    eapply one_write_between; [|exact Ho|]; reads_tac.
Qed.

(** ** CompleteConnect *)

Definition token_valid (key tok userID providerSlug returnURL : string) : Prop := ∃ id enc,
  cut_dot tok = Some (id, enc) ∧ b64url_decode s enc = Some (computeStateHMAC s key id userID providerSlug returnURL).

(** A completed connect: the state it consumed, what was checked, and the
    grant it stored. *)

Record completed (userID tok code : string) (e : Env) (w w' : World) (st : Pending.ConnectPendingState)
    (provider : Broker.BrokerProvider) (g : Broker.BrokerGrant) : Prop := {
  cp_consumed : ∃ d now, seen w w' (d, set_states (delete tok (connect_states d)) d) ∧
    connect_states d !! tok = Some st ∧ ConnectPendingStateStore.live now st = true;
  cp_user : Pending.UserID st = userID;
  cp_provider : ∃ d, seen w w' (d, d) ∧ broker_providers d !! Pending.ProviderID st = Some provider;
  cp_token : ∃ key w1 w2, stateConfig s e w1 = (Ok key, w2) ∧ key ≠ "" ∧
    token_valid key tok userID (Broker.Slug provider) (Pending.ReturnURL st);
  cp_credential : ∃ adapter res cb cred w1 w2 w3 w4,
    Lookup s (Broker.Protocol provider) = Some adapter ∧
    HandleCallback adapter provider res code cb st e w1 = (Ok (cred, Broker.ScopesGranted g), w2) ∧
    Encrypt s cred (BrokerIssuer.brokerOwnerContext userID (Broker.ID provider)) e w3 = (Ok (Broker.CredentialData g), w4);
  cp_active : Broker.RevokedAt g = None;
  cp_stored : ∃ d d', seen w w' (d, d') ∧ w_db w' = d' ∧
    d' = set_broker_grants (<[(userID, Broker.ID provider) := g]> (broker_grants d)) d
}.

Lemma consumeState_ok userID tok e w st w' :
  consumeState userID tok e w = (Ok st, w') → Pending.UserID st = userID ∧ ∃ d now,
    one_write w w' (d, set_states (delete tok (connect_states d)) d) ∧
    connect_states d !! tok = Some st ∧ ConnectPendingStateStore.live now st = true.
Proof.
  unfold consumeState. intros H. mstep H. destruct a as [st'|x]; [|by destruct x; apply throw_ok in H].
  case_bool_decide; [by apply throw_ok in H|]. apply ret_ok in H as [<- <-]. split; [first [done|by apply dec_stable]|].
  apply one_write_store in Hm as (d & d' & Hf & Ho & _). destruct (connect_states d !! tok) as [x|] eqn:Hx; [|done].
  destruct (ConnectPendingStateStore.live _ x) eqn:Hl; [|done]. injection Hf as -> <-. eauto 10.
Qed.

Lemma verifyStateToken_ok tok u p ru e w w' :
  verifyStateToken s tok u p ru e w = (Ok true, w') → ∃ key w1 w2,
    stateConfig s e w1 = (Ok key, w2) ∧ key ≠ "" ∧ token_valid key tok u p ru.
Proof.
  unfold verifyStateToken, resolveStateKey. intros H. mstep H. mstep Hm.
  case_bool_decide; [by apply throw_ok in Hm|]. apply ret_ok in Hm as [<- <-].
  destruct (cut_dot tok) as [[id enc]|] eqn:Hc; [|by apply ret_ok in H as [? _]].
  destruct (b64url_decode s enc) eqn:Hb; [|by apply ret_ok in H as [? _]].
  apply ret_ok in H as [H _]. apply bool_decide_eq_true in H. subst.
  eexists _, _, _. split; [exact Hm0|]. split; [done|]. by exists id, enc.
Qed.

Lemma storeGrant_ok u p cred scopes e w g w' :
  storeGrant s u p cred scopes e w = (Ok g, w') → Broker.ScopesGranted g = scopes ∧ Broker.RevokedAt g = None ∧
    (∃ w1 w2, Encrypt s cred (BrokerIssuer.brokerOwnerContext u (Broker.ID p)) e w1 = (Ok (Broker.CredentialData g), w2)) ∧
    ∃ d, one_write w w' (d, set_broker_grants (<[(u, Broker.ID p) := g]> (broker_grants d)) d) ∧
      w_db w' = set_broker_grants (<[(u, Broker.ID p) := g]> (broker_grants d)) d.
Proof.
  unfold storeGrant. intros H. apply bind_ok in H as (enc & w1 & H1 & H). rd H1 as X1.
  apply bind_ok in H as (now & w2 & H2 & H). rd H2 as X2. apply bind_ok in H as (id & w3 & H3 & H). rd H3 as X3.
  apply one_write_store in H as (d & d' & Hf & Ho & Hdb & _).
  destruct (bool_decide _ && _); [done|]. injection Hf as <- <-. unfold BrokerGrantStore.key in *. simpl in *.
  set (row := BrokerGrantStore.upsert_row _ _ _) in *.
  assert (Broker.ScopesGranted row = scopes ∧ Broker.RevokedAt row = None ∧ Broker.CredentialData row = enc) as (? & ? & Hc)
    by (subst row; unfold BrokerGrantStore.upsert_row; by destruct (broker_grants d !! _)).
  split_and!; [done|done|rewrite Hc; eauto|]. exists d. split; [|done].
  eapply one_write_between; [|exact Ho|reflexivity]. reads_tac.
Qed.

Lemma CompleteConnect_ok userID tok code e w res w' :
  CompleteConnect s userID tok code e w = (Ok res, w') → ∃ st provider g,
    completed userID tok code e w w' st provider g ∧ ReturnURL res = Pending.ReturnURL st ∧
    Meta res = MkMeta (Broker.Slug provider) (Broker.ScopesGranted g) (Broker.CreatedAt g) (Broker.UpdatedAt g).
Proof.
  unfold CompleteConnect. intros H. apply bind_ok in H as (st & w1 & H1 & H).
  apply consumeState_ok in H1 as (Hu & d1 & now1 & Ho1 & Hst & Hl).
  apply bind_ok in H as (p & w2 & H2 & H). rd H2 as X2. apply query_seen in H2 as (_ & d2 & Hd2 & Hs2 & _).
  destruct (broker_providers d2 !! _) as [p'|] eqn:Hp; [|done]. injection Hd2 as ->.
  apply bind_ok in H as (ok & w3 & H3 & H). rd H3 as X3. apply bind_ok in H as (u4 & w4 & H4 & H).
  apply ensure_ok in H4 as [-> <-]. apply verifyStateToken_ok in H3.
  destruct (Lookup s (Broker.Protocol p)) as [a|] eqn:Ha; [|by apply throw_ok in H].
  apply bind_ok in H as (r & w5 & H5 & H). rd H5 as X5. apply bind_ok in H as (cfg & w6 & H6 & H). rd H6 as X6.
  apply bind_ok in H as (cb & w7 & H7 & H). rd H7 as X7. apply bind_ok in H as ([cred sc] & w8 & H8 & H). rd H8 as X8.
  apply bind_ok in H as (g & w9 & H9 & H). apply storeGrant_ok in H9 as (Hsc & Hrev & (we1 & we2 & Henc) & d9 & Ho9 & Hdb9).
  apply bind_ok in H as (u10 & w10 & H10 & H). rd H10 as X10. apply ret_ok in H as [<- <-].
  assert (w_db w10 = w_db w9) as Hdb by (unfold record_audit in H10; by destruct (has_audit s); simplify_eq).
  simpl in *. subst sc. exists st, p, g. split; [|done].
  assert (extends w w1) as E1 by apply Ho1. assert (extends w2 w9) as E9.
  { etrans; [|apply Ho9]. assert (reads w2 w8) as [? _] by reads_tac. done. }
  assert (extends w9 w10) as E10 by apply X10. assert (extends w1 w2) as E2 by apply X2.
  assert (extends w2 w10) as E210 by (by etrans). assert (extends w1 w10) as E110 by (by etrans).
  split; try done.
  - exists d1, now1. split; [|done]. apply (seen_sub w w w1 w10); [reflexivity|done|done|apply Ho1].
  - exists d2. split; [|done]. by apply (seen_sub w w1 w2 w10).
  - eexists a, r, cb, cred, _, _, _, _. split_and!; [done|exact H8|exact Henc].
  - eexists d9, _. split; [|split; [rewrite Hdb; exact Hdb9|done]]. apply (seen_sub w w8 w9 w10); [|apply Ho9|done|apply Ho9].
    etrans; [exact E1|]. etrans; [exact E2|]. assert (reads w2 w8) as [? _] by reads_tac. done.
Qed.

End steps.

(** ** The theorems *)

(** A connect sends the user only to an allowed place.  When [StartConnect]
    answers, the return URL it recorded is the server's own connections page,
    or is admitted by an entry of the originating resource or of the
    deployment; and an entry admits a URL exactly when it is that URL, or when
    it is one of the four loopback wildcards and the URL is that prefix, a
    port of one or more digits and then nothing or a path.  The run adds
    exactly one pending state, for this user, provider and resource, with a
    token that was signed, and changes nothing else. *)
Theorem connect_return_url_allowed s {HD : ConnectDeps s} :
  (∀ pattern u, matchReturnURL pattern u = true ↔ admits pattern u) ∧
  ∀ userID providerSlug resourceSlug returnURL e w url w',
    StartConnect s userID providerSlug resourceSlug returnURL e w = (Ok url, w') →
    ∃ provider target row, started s userID providerSlug returnURL e w w' provider target row url.
Proof. split; [apply matchReturnURL_spec|]. intros *. apply StartConnect_ok, HD. Qed.

(** A token that is gone stays gone. *)

Definition gone_stays (tok : string) (d d' : DB) : Prop := connect_states d !! tok = None → connect_states d' !! tok = None.

#[export] Instance gone_stays_preorder tok : PreOrder (gone_stays tok).
Proof. split; [intros d H; exact H|]. intros x y z H1 H2 H. by apply H2, H1. Qed.

#[export] Instance keeps_gone_stays tok : Keeps connect_states (gone_stays tok).
Proof. intros d d' H. unfold gone_stays. by rewrite H. Qed.

Lemma consumed_once tok d0 dn g l1 l2 d d' :
  history (gone_stays tok) d0 g dn → merge l1 l2 g →
  (d, set_states (delete tok (connect_states d)) d) ∈ l1 → (d', set_states (delete tok (connect_states d')) d') ∈ l2 →
  is_Some (connect_states d !! tok) → is_Some (connect_states d' !! tok) → False.
Proof.
  intros Hh Hm Hx Hy Hsx Hsy. apply list_elem_of_lookup in Hx as [i Hx], Hy as [j Hy].
  destruct (merge_lookup _ _ _ _ _ _ _ Hm Hx Hy) as (i' & j' & Hne & Hi & Hj).
  assert (∀ q q' a b, q < q' → g !! q = Some (a, set_states (delete tok (connect_states a)) a) →
    g !! q' = Some (b, set_states (delete tok (connect_states b)) b) → is_Some (connect_states b !! tok) → False) as Hlt.
  { clear -Hh. intros q q' a b Hq Ha Hb [x Hs].
    pose proof (history_order _ _ _ q q' _ _ _ _ Hh Hq Ha Hb) as Hg. rewrite Hg in Hs; [done|].
    simpl. apply lookup_delete_eq. }
  destruct (decide (i' < j')); [by eapply (Hlt i' j')|]. eapply (Hlt j' i'); eauto. lia.
Qed.


(** ** Disconnect *)

(** The user has no active grant of the provider. *)

Definition disconnected (u pid : string) (d : DB) : Prop :=
  ∀ g, broker_grants d !! (u, pid) = Some g → Broker.IsRevoked g = true.

(** Nobody reconnects the user; a row keeps its id. *)

Definition link_step (u : string) (d d' : DB) : Prop := ∀ pid,
  (disconnected u pid d → disconnected u pid d') ∧
  ∀ g, broker_grants d !! (u, pid) = Some g → ∃ g', broker_grants d' !! (u, pid) = Some g' ∧ Broker.g_ID g' = Broker.g_ID g.

#[export] Instance link_step_preorder u : PreOrder (link_step u).
Proof.
  split; [intros d pid; split; eauto|]. intros x y z H1 H2 pid. destruct (H1 pid) as [Ha Hb], (H2 pid) as [Hc Hd].
  split; [auto|]. intros g (g1 & Hg1 & <-)%Hb. eauto.
Qed.

#[export] Instance keeps_link_step u : Keeps broker_grants (link_step u).
Proof. intros d d' H pid. unfold disconnected. rewrite H. eauto. Qed.

Section disconnect.
Context (s : Deps) `{HD : !ConnectDeps s}.

Lemma Disconnect_ok u slug e w w' :
  rely (link_step u) e → Disconnect s u slug e w = (Ok tt, w') → ∃ p d k,
    seen w w' (d, d) ∧ broker_providers d !! k = Some p ∧ Broker.Slug p = slug ∧ disconnected u (Broker.ID p) (w_db w').
Proof.
  intros HR H. unfold Disconnect in H. apply bind_ok in H as (got & w1 & H1 & H). apply try_ok in H1.
  destruct got as [p|x]; [|by destruct x; apply throw_ok in H].
  assert (Traced (link_step u) any_event (BrokerProviderStore.GetBySlug slug)) as T1 by apply traced_query.
  assert (extends w w1) as X0 by (by eapply traced_extends).
  assert (link_step u (w_db w) (w_db w1)) as S1.
  { destruct (T1 _ _ _ _ H1) as (? & _ & _ & _ & _ & _ & Hh). exact (history_end _ _ _ (Hh HR)). }
  apply query_seen in H1 as (_ & d1 & Hd1 & Hs1 & _). destruct (find_row _ _) as [p'|] eqn:Hp; [|done]. injection Hd1 as ->.
  apply find_row_Some in Hp as (k & Hk & Hslug). unbool.
  apply bind_ok in H as (got & w2 & H2 & H).
  assert (extends w1 w2) as X1 by (refine (traced_extends (P:=any_event) _ _ _ _ _ _ H2); apply (traced_query (S:=link_step u))).
  apply query_seen in H2 as (_ & d2 & Hd2 & _ & Hdb2 & _). injection Hd2 as Hd2.
  destruct got as [g|]; [|by apply throw_ok in H].
  destruct (broker_grants d2 !! (u, Broker.ID p)) as [g'|] eqn:Hg; [|done].
  destruct (Broker.IsRevoked g') eqn:Hrv; [done|]. injection Hd2 as ->.
  apply bind_ok in H as (u3 & w3 & H3 & H). pose proof H3 as H3'.
  apply one_write_store in H3 as (d3 & d3' & Hf & Ho & Hdb3 & Hd3). injection Hf as _ <-.
  assert (disconnected u (Broker.ID p) (w_db w3)) as Hdis.
  { rewrite Hdb3. intros x. simpl. rewrite lookup_update_rows, fmap_Some.
    assert (link_step u (w_db w2) d3) as HS by (subst d3; apply HR). rewrite Hdb2 in HS.
    destruct (proj2 (HS (Broker.ID p)) g Hg) as (g2 & Hg2 & Hid). intros (y & Hy & ->). simplify_eq.
    by rewrite bool_decide_true. }
  assert (Traced (link_step u) any_event (_ ← revokeUpstream s u p (Broker.CredentialData g);
    record_audit (has_audit s) (Audit.NewEvent Audit.ActionBrokerGrantRevoked u "" ""
      ("provider=" +:+ Broker.Slug p +:+ " grant_id=" +:+ Broker.g_ID g)))) as T4 by keeps_connect.
  destruct (T4 _ _ _ _ H) as (l & _ & Hl & _ & _ & _ & Hh).
  assert (extends w3 w') as X3 by (by exists l).
  exists p, d1, k. split.
  - apply (seen_sub w w w1 w'); [reflexivity|done| |done]. etrans; [exact X1|]. etrans; [apply Ho|done].
  - split_and!; [done|done|]. by apply (proj1 (history_end _ _ _ (Hh HR) (Broker.ID p))).
Qed.

End disconnect.

(** Vending a credential does not bring a revoked grant back. *)

Lemma link_rotate u g now d :
  link_step u d (set_broker_grants (update_rows (BrokerGrantStore.version_match g) (BrokerGrantStore.rotate_row now g) (broker_grants d)) d).
Proof.
  intros pid. unfold disconnected. simpl. split.
  - intros Hd x. rewrite lookup_update_rows, fmap_Some. intros (y & Hy & ->). specialize (Hd _ Hy). by case_match.
  - intros y Hy. eexists. rewrite lookup_update_rows, Hy. split; [done|]. simpl. by case_match.
Qed.

Lemma traced_Issue_link u deps {HB : BrokerIssuer.BrokerDeps deps} req : Traced (link_step u) any_event (BrokerIssuer.Issue deps req).
Proof.
  unfold BrokerIssuer.Issue, BrokerIssuer.persistRotated.
  repeat lazymatch goal with
  | |- Traced _ _ (BrokerGrantStore.UpdateWithVersion _) =>
      apply traced_store; intros ??; case_match; [reflexivity|apply link_rotate]
  | |- _ => keep_deps
  end.
Qed.

Lemma Issue_needs_grant deps {HB : BrokerIssuer.BrokerDeps deps} req e w resp w' p :
  BrokerIssuer.Issue deps req e w = (Ok resp, w') → ProviderOf req = Some p → ∃ d g,
    seen w w' (d, d) ∧ broker_grants d !! (SubjectUserID req, Broker.ID p) = Some g ∧ Broker.IsRevoked g = false.
Proof.
  intros H Hp. unfold BrokerIssuer.Issue in H. rewrite Hp in H. destruct (ResourceOf req) as [r|]; [|by apply throw_ok in H].
  destruct (negb _); [by apply throw_ok in H|]. apply bind_ok in H as (g & w1 & H1 & H).
  assert (extends w1 w') as X by (refine (traced_extends (S:=anything) (P:=any_event) _ _ _ _ _ _ H); repeat keep_deps).
  unfold BrokerIssuer.coveringGrant in H1. apply bind_ok in H1 as (og & w2 & H2 & H1).
  assert (w2 = w1) as ->.
  { destruct og; [|by apply throw_ok in H1]. destruct (BrokerIssuer.mapToUpstreamScopes _ _); [|by apply throw_ok in H1].
    case_bool_decide; [by apply throw_ok in H1|by apply ret_ok in H1 as [_ ->]]. }
  assert (extends w w1) as X1 by (refine (traced_extends (P:=any_event) _ _ _ _ _ _ H2); apply (traced_query (S:=anything))).
  apply query_seen in H2 as (_ & d & Hd & Hs & _). injection Hd as Hd. exists d.
  destruct (broker_grants d !! _) as [x|]; [|subst; by apply throw_ok in H1].
  destruct (Broker.IsRevoked x) eqn:Hx; [subst; by apply throw_ok in H1|]. exists x. split; [|done].
  by apply (seen_sub w w w1 w').
Qed.

(** A disconnected user gets nothing more from the provider.  When
    [Disconnect] answers success, the provider of that slug has no active
    grant of the user, whatever the upstream answered, and as long as the user
    does not connect again, every broker issuance for that user and provider
    fails, concurrent rotations of the credential included. *)
Theorem disconnect_cuts_off s {HD : ConnectDeps s} u slug e w w' :
  rely (link_step u) e → Disconnect s u slug e w = (Ok tt, w') → ∃ p d k,
    seen w w' (d, d) ∧ broker_providers d !! k = Some p ∧ Broker.Slug p = slug ∧
    disconnected u (Broker.ID p) (w_db w') ∧
    ∀ deps (HB : BrokerIssuer.BrokerDeps deps) req p2 e2 w2 r w3,
      link_step u (w_db w') (w_db w2) → rely (link_step u) e2 →
      SubjectUserID req = u → ProviderOf req = Some p2 → Broker.ID p2 = Broker.ID p →
      BrokerIssuer.Issue deps req e2 w2 = (r, w3) → ∃ x, r = Err x.
Proof.
  intros HR H. destruct (Disconnect_ok s u slug e w w' HR H) as (p & d & k & Hs & Hk & Hslug & Hdis).
  exists p, d, k. split_and!; try done. intros deps HB req p2 e2 w2 r w3 Hst HR2 Hu Hp2 Hid Hi.
  destruct r as [resp|x]; [|eauto]. exfalso.
  destruct (Issue_needs_grant deps req e2 w2 resp w3 p2 Hi Hp2) as (d2 & g & Hs2 & Hg & Hrv).
  pose proof (seen_from _ _ _ _ _ _ (traced_Issue_link u deps req) Hi HR2 Hs2) as HS.
  assert (disconnected u (Broker.ID p) d2) as Hd2 by (apply HS, Hst, Hdis).
  rewrite Hu, Hid in Hg. specialize (Hd2 _ Hg). congruence.
Qed.
