(* ===== verification/ConnectRoundTrip.v ===== *)
(** * A started connect can be completed

    Forward execution of the connect flow on a server whose other requests
    leave the rows it reads alone, and whose upstream and key services
    answer. *)

From stdpp Require Import pretty.
From S2P Require Import Prelude GoStrings ScopeSet Act Domain Db Effects Crypto Stores Order StoreOrder TokenProofs Scenario TokenTheorems MintIssuer BrokerIssuer ExchangeProofs ExchangeTheorems Accounts AdminProofs AdminTheorems ResourceAdmin Registry ResourceAdminTheorems Runs Connect ConnectTheorems.
Import ConnectService.

(** The rows a connect refers to. *)

Definition ref_tables (d : DB) := (users d, resources d, broker_providers d, broker_grants d).

Definition same_refs (d d' : DB) : Prop := ref_tables d' = ref_tables d.

#[export] Instance same_refs_preorder : PreOrder same_refs.
Proof. split; [done|]. intros x y z. unfold same_refs. congruence. Qed.
#[export] Instance keeps_same_refs : Keeps ref_tables same_refs.
Proof. by intros d d'. Qed.

Fixpoint no_dot (x : string) : bool :=
  match x with EmptyString => true | String c x' => andb (negb (bool_decide (c = Ascii.ascii_of_nat 46))) (no_dot x') end.

Lemma cut_dot_app a b : no_dot a = true → cut_dot (a +:+ "." +:+ b) = Some (a, b).
Proof.
  induction a as [|c a IH]; simpl; [done|]. intros [Hc Ha]%andb_true_iff. unbool.
  rewrite bool_decide_false by done. change ((a +:+ "." +:+ b)) with (String.append a (String.append "." b)) in *. by rewrite (IH Ha).
Qed.

(** The services outside answer, with this signing key. *)

Record answering (s : Deps) (key code : string) (e : Env) : Prop := {
  an_key : ∀ w, ∃ w1, stateConfig s e w = (Ok key, w1);
  an_config : ∀ w, ∃ c w1, connectConfig s e w = (Ok c, w1);
  an_callback : ∀ n a p r cb st w, Lookup s n = Some a → ∃ x w1, HandleCallback a p r code cb st e w = (Ok x, w1);
  an_encrypt : ∀ a b w, ∃ x w1, Encrypt s a b e w = (Ok x, w1)
}.

Definition alone_env (e : Env) : Prop := (∀ n, fault e n = false) ∧ ∀ n d, interfere e n d = d.

Section run.
Context (s : Deps) `{HD : !ConnectDeps s} (e : Env) (He : alone_env e).

Lemma run_store {A} (f : Z → DB → res A * DB) w :
  ∃ w', store f e w = ((f (clock e (w_tick w)) (w_db w)).1, w') ∧ w_db w' = (f (clock e (w_tick w)) (w_db w)).2.
Proof. destruct He as [Hf Hi]. unfold store. rewrite Hf, Hi. destruct (f _ _) eqn:E. eauto. Qed.

Lemma run_query {A} (f : Z → DB → res A) w :
  ∃ w', query f e w = (f (clock e (w_tick w)) (w_db w), w') ∧ w_db w' = w_db w.
Proof. destruct (run_store (λ t d, (f t d, d)) w) as (w' & H & Hd). eauto. Qed.

Lemma run_outside {A} (m : M A) w r w' : Traced (=) any_event m → m e w = (r, w') → w_db w' = w_db w.
Proof.
  intros Hm H. destruct (Hm _ _ _ _ H) as (l & _ & _ & _ & _ & _ & Hh). symmetry.
  apply (history_end (S:=eq) _ l). apply Hh. intros n d. symmetry. apply He.
Qed.

Lemma run_callbackURL base slug w : ∃ u w', callbackURL base slug e w = (Ok u, w') ∧ w_db w' = w_db w.
Proof.
  unfold callbackURL, issuer. destruct He as [Hf _]. case_bool_decide.
  - unfold mbind, M_bind, try, provider, mret, M_ret. rewrite Hf. simpl. eauto.
  - unfold mbind, M_bind, mret, M_ret. eauto.
Qed.

Lemma run_verify key id u p ru w :
  (∀ w, ∃ w1, stateConfig s e w = (Ok key, w1)) → key ≠ "" → no_dot id = true →
  ∃ w', verifyStateToken s (token_of s key id u p ru) u p ru e w = (Ok true, w') ∧ w_db w' = w_db w.
Proof.
  intros Hk Hne Hid. destruct (Hk w) as [w1 Hw1]. exists w1. split.
  - unfold verifyStateToken, resolveStateKey, token_of.
    rewrite (bind_step _ _ _ _ key w1); [|rewrite (bind_step _ _ _ _ _ _ Hw1); by rewrite bool_decide_false].
    rewrite cut_dot_app by done. rewrite b64url_round_trip. unfold mret, M_ret. by rewrite bool_decide_true.
  - eapply run_outside; [|exact Hw1]. apply traced_state_config; apply _.
Qed.

(** Storing the grant of a user and a provider that exist, under a new id. *)

Lemma run_storeGrant u p cred sc w :
  (∀ a b w, ∃ x w1, Encrypt s a b e w = (Ok x, w1)) → is_Some (users (w_db w) !! u) →
  is_Some (broker_providers (w_db w) !! Broker.ID p) →
  (∀ n k g, broker_grants (w_db w) !! k = Some g → Broker.g_ID g ≠ rand e n) →
  ∃ g w', storeGrant s u p cred sc e w = (Ok g, w') ∧ Broker.RevokedAt g = None ∧
    broker_grants (w_db w') !! (u, Broker.ID p) = Some g ∧ connect_states (w_db w') = connect_states (w_db w).
Proof.
  intros He' Hu Hp Hid. unfold storeGrant. destruct (He' cred (BrokerIssuer.brokerOwnerContext u (Broker.ID p)) w) as (enc & w1 & H1).
  rewrite (bind_step _ _ _ _ _ _ H1). assert (w_db w1 = w_db w) as E1.
  { eapply run_outside; [|exact H1]. apply traced_encrypt; apply _. }
  rewrite (bind_step _ _ _ _ _ _ (eq_refl : time_Now e w1 = _)).
  rewrite (bind_step _ _ _ _ _ _ (eq_refl : GenerateRandomString e _ = _)). unfold BrokerGrantStore.Upsert.
  match goal with |- context [store ?f e ?v] => destruct (run_store f v) as (w' & -> & Hdb) end.
  simpl in *. rewrite E1 in *. set (n := S (w_tick w1)) in *.
  assert (BrokerGrantStore.insert_refused (Broker.MkBrokerGrant (rand e n) u (Broker.ID p) enc sc (DriverName s) 0
    (clock e (w_tick w1)) (clock e (w_tick w1)) None) (w_db w) = false) as Hr.
  { unfold BrokerGrantStore.insert_refused. simpl. rewrite !orb_false_iff, !bool_decide_eq_false.
    split_and!; [by apply not_eq_None_Some..|]. intros [x Hx]. apply find_row_Some in Hx as (k & Hk & Hx). unbool.
    by eapply (Hid n). }
  rewrite Hr, andb_false_r in Hdb |- *. simpl in *. eexists _, w'. split; [reflexivity|]. rewrite Hdb. simpl.
  split_and!; [by unfold BrokerGrantStore.upsert_row; case_match| |done]. apply lookup_insert_eq.
Qed.

Lemma run_originating up rid w :
  Registry up (w_db w) → is_Some (resources (w_db w) !! rid) →
  ∃ r w', originatingResource rid e w = (Ok r, w') ∧ w_db w' = w_db w.
Proof.
  intros Hreg [r Hr]. unfold originatingResource. case_bool_decide; [unfold mret, M_ret; eauto|].
  unfold ResourceRegistry.GetWithProvider, ResourceStore.GetByID, BrokerProviderStore.GetByID.
  destruct (run_query (λ _ d, match resources d !! rid with Some r => Ok r | None => Err ErrResourceNotFound end) w)
    as (w1 & H1 & E1). rewrite Hr in H1.
  destruct (Resource.IsBroker r) eqn:Hb.
  - unfold Resource.IsBroker in Hb. unbool. destruct (reg_provider _ _ Hreg _ _ Hr Hb) as [q Hq].
    destruct (run_query (λ _ d, match broker_providers d !! Resource.BrokerProviderID r with Some p => Ok p | None => Err ErrResourceNotFound end) w1)
      as (w2 & H2 & E2). rewrite E1, Hq in H2. exists r, w2. split; [|congruence].
    rewrite (bind_step _ _ _ _ (r, Some q) w2); [done|]. rewrite (bind_step _ _ _ _ _ _ H1).
    unfold Resource.IsBroker. rewrite bool_decide_true by done. simpl. by rewrite (bind_step _ _ _ _ _ _ H2).
  - exists r, w1. split; [|done]. rewrite (bind_step _ _ _ _ (r, None) w1); [done|].
    rewrite (bind_step _ _ _ _ _ _ H1). by rewrite Hb.
Qed.

Lemma run_CompleteConnect up key id u ru code row p w :
  answering s key code e → Registry up (w_db w) → key ≠ "" → no_dot id = true →
  Pending.ID row = token_of s key id u (Broker.Slug p) ru → Pending.UserID row = u → Pending.ReturnURL row = ru →
  Pending.ProviderID row = Broker.ID p → is_Some (Lookup s (Broker.Protocol p)) →
  connect_states (w_db w) !! Pending.ID row = Some row → ConnectPendingStateStore.live (clock e (w_tick w)) row = true →
  broker_providers (w_db w) !! Broker.ID p = Some p → is_Some (resources (w_db w) !! Pending.ResourceID row) →
  is_Some (users (w_db w) !! u) → (∀ n k g, broker_grants (w_db w) !! k = Some g → Broker.g_ID g ≠ rand e n) →
  ∃ res g w', CompleteConnect s u (Pending.ID row) code e w = (Ok res, w') ∧ ReturnURL res = ru ∧
    connect_states (w_db w') !! Pending.ID row = None ∧
    broker_grants (w_db w') !! (u, Broker.ID p) = Some g ∧ Broker.RevokedAt g = None.
Proof.
  intros Han Hreg Hkey Hid Htok Hu Hru Hpid [a Ha] Hst Hl Hp Hres Husers Hfresh. unfold CompleteConnect.
  assert (∃ w1, consumeState u (Pending.ID row) e w = (Ok row, w1) ∧
    w_db w1 = set_states (delete (Pending.ID row) (connect_states (w_db w))) (w_db w)) as (w1 & H1 & E1).
  { unfold consumeState, ConnectPendingStateStore.Consume.
    match goal with |- context [store ?f] => destruct (run_store f w) as (w1 & H1 & E1) end.
    rewrite Hst, Hl in H1, E1. exists w1. split; [|done]. rewrite (bind_step _ _ _ _ _ _ (try_run _ _ _ _ _ H1)).
    simpl. by rewrite bool_decide_false by (by intros []). }
  rewrite (bind_step _ _ _ _ _ _ H1).
  assert (Registry up (w_db w1)) as Hreg1 by (rewrite E1; by destruct Hreg).
  destruct (run_query (λ _ d, match broker_providers d !! Pending.ProviderID row with Some p => Ok p | None => Err ErrResourceNotFound end) w1)
    as (w2 & H2 & E2). rewrite E1, Hpid in H2. simpl in H2. rewrite Hp in H2. unfold BrokerProviderStore.GetByID. rewrite Hpid.
  rewrite (bind_step _ _ _ _ _ _ H2).
  destruct (run_verify key id u (Broker.Slug p) ru w2 (an_key _ _ _ _ Han) Hkey Hid) as (w3 & H3 & E3).
  rewrite Hru, Htok. rewrite (bind_step _ _ _ _ _ _ H3). rewrite (bind_step _ _ _ _ _ _ (eq_refl : ensure true ErrInvalidState e w3 = _)).
  rewrite Ha.
  destruct (run_originating up (Pending.ResourceID row) w3) as (r & w4 & H4 & E4); [by rewrite E3, E2|by rewrite E3, E2, E1|].
  rewrite (bind_step _ _ _ _ _ _ H4).
  destruct (an_config _ _ _ _ Han w4) as (cfg & w5 & H5). rewrite (bind_step _ _ _ _ _ _ H5).
  assert (w_db w5 = w_db w4) as E5 by (eapply run_outside; [|exact H5]; apply traced_connect_config; apply _).
  destruct (run_callbackURL (trim_slashes (RedirectBaseURL cfg)) (Broker.Slug p) w5) as (cb & w6 & H6 & E6).
  rewrite (bind_step _ _ _ _ _ _ H6).
  destruct (an_callback _ _ _ _ Han _ a p r cb row w6 Ha) as (cs & w7 & H7). rewrite (bind_step _ _ _ _ _ _ H7).
  assert (w_db w7 = w_db w6) as E7 by (eapply run_outside; [|exact H7]; eapply traced_callback; [apply _|exact Ha]).
  assert (w_db w7 = w_db w1) as E71 by congruence.
  destruct (run_storeGrant u p cs.1 cs.2 w7 (an_encrypt _ _ _ _ Han)) as (g & w8 & H8 & Hg & Hgs & Hcs);
    [by rewrite E71, E1|rewrite E71, E1; simpl; by rewrite Hp|by rewrite E71, E1|].
  rewrite (bind_step _ _ _ _ _ _ H8).
  match goal with |- context [record_audit ?b ?ev] => destruct (audit_run b ev e w8) as (w9 & H9 & E9 & _) end.
  rewrite (bind_step _ _ _ _ _ _ H9). eexists _, g, w9. split; [reflexivity|]. simpl. rewrite E9, Hcs, E71, E1. simpl.
  split; [done|]. rewrite <-Htok. split; [apply lookup_delete_eq|done].
Qed.

End run.

(** ** The round trip *)

Lemma refs_after s {HD : ConnectDeps s} u ps rs ru e w r w' :
  rely same_refs e → StartConnect s u ps rs ru e w = (r, w') → same_refs (w_db w) (w_db w') ∧
    ∀ x, seen w w' x → same_refs (w_db w) x.1.
Proof.
  intros HR H. assert (Traced same_refs any_event (StartConnect s u ps rs ru)) as T by keeps_connect. split.
  - destruct (T _ _ _ _ H) as (l & _ & _ & _ & _ & _ & Hh). exact (history_end _ _ _ (Hh HR)).
  - intros x. by eapply (seen_from (S:=same_refs)).
Qed.


(** ** A run: alice connects to the hub and disconnects *)

Module ConnectRuns.
Import Scenario.

Definition adapter : BrokerProtocol :=
  MkProtocol (λ _ _ _ _ _ sc, mret ("https://up", Some (Pending.MkPending "" "" "" "" "verifier" "" sc None)))
    (λ _ _ code _ _, mret ("cred:" +:+ code, ["r"])) (λ _ _, mret tt).

Definition deps : Deps :=
  MkDeps (λ n, if bool_decide (n = "oauth") then Some adapter else None) (λ a _, mret ("e:" +:+ a)) (λ a _, mret a) "local"
    (mret "key") (mret (MkConnectConfig "https://as/" ["http://localhost:*"])) (λ k m, k +:+ "/" +:+ m) id Some
    (λ u st, Some (url_Host u +:+ "?state=" +:+ st)) true.

#[global] Instance deps_connect : ConnectDeps deps.
Proof.
  assert (∀ n a, Lookup deps n = Some a → a = adapter) as Hl by (intros n a; simpl; case_bool_decide; congruence).
  split; try done; intros; try (match goal with H : Lookup _ _ = _ |- _ => apply Hl in H as -> end); apply traced_ret.
Qed.

Definition env : Env := MkEnv (fault env) (clock env) (λ _, "rnd") (interfere env) (params env) (Effects.config env).

Definition url : string := "http://localhost:8080/done".

Definition start_run : res string * World := StartConnect deps "alice" "hub" "git" url env RegistryRuns.world.

Definition token : string := token_of deps "key" "rnd" "alice" "hub" url.

Definition complete_run (w : World) : res CompleteConnectResult * World := CompleteConnect deps "alice" token "code" env w.

Definition first : res CompleteConnectResult * World := complete_run start_run.2.
Definition again : res CompleteConnectResult * World := complete_run first.2.

Definition disconnect_run : res unit * World := Disconnect deps "alice" "hub" env first.2.

End ConnectRuns.

Lemma start_ok : ∃ u, ConnectRuns.start_run.1 = Ok u.
Proof. vm_compute. eauto. Qed.

Lemma first_ok : ∃ a, ConnectRuns.first.1 = Ok a.
Proof. vm_compute. eauto. Qed.

Lemma connect_rely S `{!PreOrder S} : rely S ConnectRuns.env.
Proof. intros n d. reflexivity. Qed.

Lemma traced_gone s {HD : ConnectDeps s} u tok code : Traced (gone_stays tok) any_event (CompleteConnect s u tok code).
Proof.
  repeat lazymatch goal with
  | |- Traced _ _ (ConnectPendingStateStore.Consume _) =>
      apply traced_store; intros ??; repeat case_match; try reflexivity; intros _; apply lookup_delete_eq
  | |- _ => keep_connect
  end.
Qed.

Lemma connect_return_url_allowed_witness :
  matchReturnURL "http://localhost:*" "http://localhost:evil" = false ∧ admits "http://localhost:*" ConnectRuns.url ∧
  ∃ u p t row, started ConnectRuns.deps "alice" "hub" ConnectRuns.url ConnectRuns.env RegistryRuns.world ConnectRuns.start_run.2 p t row u.
Proof.
  destruct (connect_return_url_allowed ConnectRuns.deps) as [Hm Hs]. split; [by vm_compute|]. split.
  - apply Hm. by vm_compute.
  - destruct start_ok as [u Hu]. exists u. exact (Hs _ _ _ _ _ _ _ _ (run_eq ConnectRuns.start_run (Ok u) Hu)).
Defined.


Lemma connect_answering : answering ConnectRuns.deps "key" "code" ConnectRuns.env.
Proof.
  split; intros; simpl; unfold mret, M_ret; eauto.
  assert (a = ConnectRuns.adapter) as -> by (revert H; simpl; case_bool_decide; congruence). simpl. unfold mret, M_ret. eauto.
Qed.

Definition recorded : Pending.ConnectPendingState :=
  Pending.MkPending ConnectRuns.token "alice" "p1" "res3" "verifier" ConnectRuns.url ["repo"]
    (Some (clock Scenario.env 4 + stateExpiry)%Z).

Lemma start_states : connect_states (w_db ConnectRuns.start_run.2) = {[ConnectRuns.token := recorded]}.
Proof. vm_compute. reflexivity. Qed.

Lemma start_registry : registry_tables (w_db ConnectRuns.start_run.2) = registry_tables RegistryRuns.db.
Proof. vm_compute. reflexivity. Qed.

Lemma start_users : users (w_db ConnectRuns.start_run.2) = {["alice" := Scenario.alice]}.
Proof. vm_compute. reflexivity. Qed.

Lemma start_grants : broker_grants (w_db ConnectRuns.start_run.2) = ∅.
Proof. by vm_compute. Qed.


Lemma disconnect_cuts_off_witness : ∃ p, Broker.Slug p = "hub" ∧ disconnected "alice" (Broker.ID p) (w_db ConnectRuns.disconnect_run.2).
Proof.
  assert (ConnectRuns.disconnect_run.1 = Ok tt) as H by (by vm_compute).
  destruct (disconnect_cuts_off ConnectRuns.deps "alice" "hub" ConnectRuns.env ConnectRuns.first.2 ConnectRuns.disconnect_run.2
    (connect_rely _) (run_eq ConnectRuns.disconnect_run (Ok tt) H)) as (p & d & k & _ & _ & Hs & Hd & _).
  exists p. split; [exact Hs|exact Hd].
Defined.

(** The originating resource need not belong to the provider: [StartConnect]
    for the provider [other] accepts [git], a resource of the provider [hub],
    and asks [other] for the scopes of [git]. *)

Module ForeignResource.

Definition other : Broker.BrokerProvider := Broker.MkProvider "p2" "other" "Other" "oauth" "{}" "" "" Scenario.start Scenario.start.

Definition world : World := MkWorld (set_providers (<["p2" := other]> (broker_providers RegistryRuns.db)) RegistryRuns.db) 0 [] [].

Definition started_for : res string * World :=
  StartConnect ConnectRuns.deps "alice" "other" "git" ConnectRuns.url ConnectRuns.env world.

End ForeignResource.

Example foreign_resource_accepted :
  (∃ u, ForeignResource.started_for.1 = Ok u) ∧
  ((λ st, (Pending.ProviderID st, Pending.ResourceID st, Pending.Scopes st)) <$>
     (map_to_list (connect_states (w_db ForeignResource.started_for.2))).*2) = [("p2", "res3", ["repo"])] ∧
  Resource.BrokerProviderID ExchangeRuns.git = "p1".
Proof. vm_compute. eauto. Qed.
