(* ===== verification/Registration.v ===== *)
(** * Registration and login

    internal/services/dcr.go and cimd.go (clients that register themselves),
    user_auth.go (local login), with the in-memory mode of
    internal/adapters/static/dcr_mode_provider.go and the uniform comparison of
    internal/crypto/bcrypt.go.  bcrypt itself, the providers and the fetcher of
    metadata documents are arguments. *)

From S2P Require Import Prelude GoStrings ScopeSet Act Domain Db Effects Crypto Stores ClientValidation Admin.

(** ** The registration mode *)

Module DCRModeProvider.

Record DCRMode := MkMode { Mode : string; ApprovedRedirects : list string }.

(** The state behind the mutex. *)

Record Provider := MkProvider { mode : string; approvedRedirects : list string }.

Definition NewDCRModeProvider (m : string) (approved : list string) : Provider := MkProvider m approved.

Definition Get (p : Provider) : DCRMode := MkMode (mode p) (approvedRedirects p).

(** Only the mode is applied. *)

Definition Set_ (p : Provider) (m : DCRMode) : Provider := MkProvider (Mode m) (approvedRedirects p).

End DCRModeProvider.

(** ** Grants without a user *)

Definition machineGrants : list string :=
  ["client_credentials"; "urn:ietf:params:oauth:grant-type:jwt-bearer"; "urn:ietf:params:oauth:grant-type:token-exchange"].

Definition delegatedGrants : list string := ["authorization_code"; "refresh_token"].

Definition isDelegatedOnly (grantTypes : list string) : bool :=
  negb (existsb (λ mg, hasGrantType grantTypes mg) machineGrants).

(** ** Application types (domain/client/entity.go) *)

Definition ApplicationTypeWeb : string := "web".
Definition ApplicationTypeNative : string := "native".

Definition ValidateApplicationType (t : string) : bool := bool_decide (t ∈ [""; ApplicationTypeWeb; ApplicationTypeNative]).

Definition EffectiveApplicationType (c : Client.Client) : string :=
  if bool_decide (Client.ApplicationType c = "") then ApplicationTypeWeb else Client.ApplicationType c.

(** ** Dynamic client registration *)

Module DCRService.

Record RegisterClientRequest := MkRegister {
  RedirectURIs : list string;
  ClientName : string;
  GrantTypes : list string;
  ResponseTypes : list string;
  TokenEndpointAuthMethod : string;
  ApplicationType : string;
  Agent : bool;
  AgentDescription : string
}.

(** An empty secret is an absent one: it comes with no expiry. *)

Record RegisterClientResponse := MkResponse {
  r_ClientID : string;
  r_ClientSecret : string;
  r_ClientIDIssuedAt : Z;
  r_ClientSecretExpiresAt : option Z;
  r_RedirectURIs : list string;
  r_ClientName : string;
  r_GrantTypes : list string;
  r_ResponseTypes : list string;
  r_TokenEndpointAuthMethod : string;
  r_ApplicationType : string;
  r_Scope : string;
  r_Agent : bool;
  r_AgentDescription : string
}.

Record Deps := MkDeps {
  modeProvider : M DCRModeProvider.DCRMode;
  grantsProvider : option (option (list string));
  oauthConfig : option string;          (* DefaultClientScope; None without a provider *)
  HashBcrypt : string → option string;
  has_audit : bool
}.

Section service.
Variable s : Deps.

Definition enforceMode (policy : DCRModeProvider.DCRMode) (req : RegisterClientRequest) : option err :=
  if bool_decide (DCRModeProvider.Mode policy = "open") then None
  else if bool_decide (DCRModeProvider.Mode policy = "approved_redirects") then
    (if forallb (slices_Contains (DCRModeProvider.ApprovedRedirects policy)) (RedirectURIs req) then None
     else Some ErrInvalidRedirectURI)
  else if bool_decide (DCRModeProvider.Mode policy = "admin_only") then Some ErrRegistrationDisabled
  else Some (EOther "unknown dcr mode").

Definition createParams (req : RegisterClientRequest) : ClientValidation.CreateParams :=
  ClientValidation.Defaults
    (ClientValidation.MkParams (ClientName req) (RedirectURIs req) (GrantTypes req) (ResponseTypes req)
       (TokenEndpointAuthMethod req) (Agent req) (AgentDescription req)).

(** The ceiling of a client that registers itself: none when one of its
    grants has no user behind it. *)

Definition defaultScope (grantTypes : list string) : M string :=
  match oauthConfig s with
  | Some sc => if isDelegatedOnly grantTypes then provider (λ _, sc) else mret ""
  | None => mret ""
  end.

Definition newClient (req : RegisterClientRequest) (id hash scope : string) (now : Z) : Client.Client :=
  let p := createParams req in
  {| Client.ID := id;
     Client.SecretHash := hash;
     Client.Name := ClientValidation.Name p;
     Client.RedirectURIs := ClientValidation.RedirectURIs p;
     Client.GrantTypes := ClientValidation.GrantTypes p;
     Client.ResponseTypes := ClientValidation.ResponseTypes p;
     Client.TokenEndpointAuthMethod := ClientValidation.TokenEndpointAuthMethod p;
     Client.Status := Client.StatusActive;
     Client.RegistrationSource := Client.SourceDCR;
     Client.CIMDURL := "";
     Client.ApplicationType := ApplicationType req;
     Client.Scope := scope;
     Client.IsAgent := ClientValidation.IsAgent p;
     Client.AgentDescription := ClientValidation.AgentDescription p;
     Client.Version := 0;
     Client.IssuedAt := now;
     Client.UpdatedAt := now |}.

Definition response (c : Client.Client) (plainSecret : string) (now : Z) : RegisterClientResponse :=
  MkResponse (Client.ID c) plainSecret (now / SqlTime.nano)%Z (if bool_decide (plainSecret ≠ "") then Some 0%Z else None)
    (Client.RedirectURIs c) (Client.Name c) (Client.GrantTypes c) (Client.ResponseTypes c)
    (Client.TokenEndpointAuthMethod c) (EffectiveApplicationType c) (Client.Scope c) (Client.IsAgent c)
    (Client.AgentDescription c).

Definition RegisterClient (req : RegisterClientRequest) : M RegisterClientResponse :=
  policy ← modeProvider s;
  match enforceMode policy req with
  | Some x => throw x
  | None =>
      _ ← ensure (ValidateApplicationType (ApplicationType req)) ErrInvalidClient;
      let p := createParams req in
      _ ← AdminService.validate (grantsProvider s) p;
      scope ← defaultScope (ClientValidation.GrantTypes p);
      now ← time_Now;
      id ← GenerateRandomString;
      sh ← (if bool_decide (ClientValidation.TokenEndpointAuthMethod p ≠ "none")
            then plain ← GenerateRandomString; hash ← AdminService.hashSecret (HashBcrypt s) plain; mret (plain, hash)
            else mret ("", ""));
      let c := newClient req id sh.2 scope now in
      _ ← ClientStore.Create c;
      _ ← record_audit (has_audit s) (Audit.NewEvent Audit.ActionClientRegistered "" id "" "source=dcr");
      mret (response c sh.1 now)
  end.

Definition GetMode : M string := policy ← modeProvider s; mret (DCRModeProvider.Mode policy).

End service.

(** [SetMode] hands the provider a mode without redirects. *)

Definition SetMode (p : DCRModeProvider.Provider) (mode : string) : DCRModeProvider.Provider :=
  DCRModeProvider.Set_ p (DCRModeProvider.MkMode mode []).

End DCRService.

(** ** Client ID metadata documents *)

Module CIMDService.

Record CIMDDocument := MkDocument {
  ClientID : string;
  RedirectURIs : list string;
  ClientName : string;
  GrantTypes : list string;
  ResponseTypes : list string;
  TokenEndpointAuthMethod : string
}.

Record Deps := MkDeps {
  cimdConfig : M bool;                                  (* Enabled *)
  modeProvider : M DCRModeProvider.DCRMode;
  Fetch : string → M CIMDDocument;
  grantsProvider : option (option (list string));
  oauthConfig : option string
}.

Section service.
Variable s : Deps.

Definition checkMode (policy : DCRModeProvider.DCRMode) : option err :=
  let mode := DCRModeProvider.Mode policy in
  if negb (bool_decide (mode ∈ ["open"; "approved_redirects"; "admin_only"])) then Some (EOther "unknown dcr mode")
  else if bool_decide (mode = "admin_only") then Some ErrRegistrationDisabled
  else None.

Definition checkRedirects (policy : DCRModeProvider.DCRMode) (doc : CIMDDocument) : bool :=
  if bool_decide (DCRModeProvider.Mode policy = "approved_redirects")
  then forallb (slices_Contains (DCRModeProvider.ApprovedRedirects policy)) (RedirectURIs doc)
  else true.

Definition updated (doc : CIMDDocument) (now : Z) (c : Client.Client) : Client.Client :=
  Client.MkClient (Client.ID c) (Client.SecretHash c) (ClientName doc) (RedirectURIs doc) (GrantTypes doc)
    (ResponseTypes doc) (TokenEndpointAuthMethod doc) (Client.Status c) (Client.RegistrationSource c)
    (Client.CIMDURL c) (Client.ApplicationType c) (if isDelegatedOnly (GrantTypes doc) then Client.Scope c else "")
    (Client.IsAgent c) (Client.AgentDescription c) (Client.Version c) (Client.IssuedAt c) now.

Definition newClient (clientID : string) (doc : CIMDDocument) (scope : string) (now : Z) : Client.Client :=
  Client.MkClient clientID "" (ClientName doc) (RedirectURIs doc) (GrantTypes doc) (ResponseTypes doc)
    (TokenEndpointAuthMethod doc) Client.StatusActive Client.SourceCIMD clientID "" scope false "" 0 now now.

Definition defaultScope (grantTypes : list string) : M string :=
  match oauthConfig s with
  | Some sc => if isDelegatedOnly grantTypes then provider (λ _, sc) else mret ""
  | None => mret ""
  end.

Definition VerifyCIMD (clientID : string) : M Client.Client :=
  enabled ← cimdConfig s;
  _ ← ensure enabled ErrRegistrationDisabled;
  policy ← modeProvider s;
  match checkMode policy with
  | Some x => throw x
  | None =>
      doc ← Fetch s clientID;
      grants ← AdminService.resolveEnabledGrants (grantsProvider s);
      _ ← ensure (ClientValidation.ValidateGrantTypesEnabled (GrantTypes doc) grants) ErrInvalidClient;
      _ ← ensure (checkRedirects policy doc) ErrInvalidRedirectURI;
      existing ← ClientStore.GetByCIMDURL clientID;
      now ← time_Now;
      match existing with
      | Some c => _ ← ClientStore.Update (updated doc now c); mret (updated doc now c)
      | None =>
          scope ← defaultScope (GrantTypes doc);
          _ ← ClientStore.Create (newClient clientID doc scope now);
          mret (ClientStore.first_version (newClient clientID doc scope now))
      end
  end.

End service.
End CIMDService.

(** ** Local login *)

Module UserAuthService.

Definition dummyBcryptHash : string := "$2a$12$9hJ4zxEv2lF/t.5TMcCUKeezsZZRUypa3rEeeU7uAh7CzEf8klN5u".

(** What [bcrypt.CompareHashAndPassword] answers; a hash it cannot parse costs
    no derivation. *)

Inductive Outcome := Match | Mismatch | Unusable.

#[global] Instance Outcome_eq_dec : EqDecision Outcome.
Proof. solve_decision. Defined.

Section service.
Variable derivable : string → bool.           (* bcrypt can derive against this hash *)
Variable has_audit : bool.

Definition CompareHashAndPassword (p : Params) (hash plaintext : string) : Outcome * nat :=
  if derivable hash then (if bcrypt_ok p hash plaintext then Match else Mismatch, 1) else (Unusable, 0).

(** The outcome, and the derivations it cost. *)

Definition CompareBcryptUniform (p : Params) (hash plaintext : string) : Outcome * nat :=
  let '(o, n) := CompareHashAndPassword p hash plaintext in
  if orb (bool_decide (o = Match)) (bool_decide (o = Mismatch)) then (o, n)
  else (Unusable, n + (CompareHashAndPassword p dummyBcryptHash plaintext).2).

Definition denyLogin (actorID reason : string) : M unit :=
  record_audit has_audit (Audit.NewEvent Audit.ActionUserLoginFailed actorID "" "" ("reason=" +:+ reason)).

(** What is known before the comparison; the empty string is no reason. *)

Definition denialReason (u : option User.User) : string :=
  match u with
  | None => "user_not_found"
  | Some u =>
      if negb (User.IsActive u) then "user_disabled"
      else if negb (User.IsLocal u) then "user_not_local"
      else ""
  end.

Definition hashToCompare (u : option User.User) : string :=
  match u with
  | Some u => if bool_decide (denialReason (Some u) = "") then User.PasswordHash u else dummyBcryptHash
  | None => dummyBcryptHash
  end.

Definition finalReason (reason : string) (o : Outcome) : string :=
  if bool_decide (reason ≠ "") then reason
  else match o with
       | Unusable => "unusable_stored_hash"
       | Mismatch => "invalid_credentials"
       | Match => ""
       end.

(** The answer and the number of key derivations that were spent on it.  A
    failing lookup answers its own error. *)

Definition authenticate (email password : string) : M (res User.User * nat) :=
  got ← try (UserStore.GetByEmail email);
  match (match got with
         | Ok u => inl (Some u)
         | Err ErrUserNotFound => inl None
         | Err x => inr x
         end) with
  | inr x => mret (Err x, 0)
  | inl u =>
      p ← ask params;
      let '(o, cost) := CompareBcryptUniform p (hashToCompare u) password in
      let reason := finalReason (denialReason u) o in
      match u with
      | Some u =>
          if bool_decide (reason ≠ "") then _ ← denyLogin (User.ID u) reason; mret (Err ErrInvalidCredentials, cost)
          else _ ← record_audit has_audit (Audit.NewEvent Audit.ActionUserLogin (User.ID u) "" "" ""); mret (Ok u, cost)
      | None => _ ← denyLogin "" reason; mret (Err ErrInvalidCredentials, cost)
      end
  end.

Definition Authenticate (email password : string) : M User.User :=
  rc ← authenticate email password;
  match rc.1 with
  | Ok u => mret u
  | Err x => throw x
  end.

Definition GetByID (id : string) : M User.User := UserStore.GetByID id.

Variable HashBcrypt : string → option string.

Definition newUser (email name hash : string) (isAdmin : bool) (id : string) (now : Z) : User.User :=
  User.MkUser id email name hash isAdmin User.StatusActive true "" 0 now now.

Definition CreateUser (email name password : string) (isAdmin : bool) : M User.User :=
  match HashBcrypt password with
  | None => throw EFault
  | Some hash =>
      now ← time_Now;
      id ← GenerateRandomString;
      _ ← UserStore.Create (newUser email name hash isAdmin id now);
      mret (UserStore.first_version (newUser email name hash isAdmin id now))
  end.

End service.
End UserAuthService.
