(* ===== verification/RegistrationTheorems.v ===== *)
(** * Theorems about registration and login

    Whatever a client sends about itself, the registration mode decides and a
    client that can act without a user starts with no scope at all; a denied
    login tells nothing but that it was denied. *)

From S2P Require Import Prelude GoStrings ScopeSet Act Domain Db Effects Crypto Stores Order StoreOrder TokenService TokenProofs Scenario ClientCredentials MachineProofs MachineTheorems ClientValidation Admin Accounts AdminProofs AdminTheorems AdminOutcomes ResourceAdmin Registry Runs Registration.

(** The providers and the fetcher use none of the server's tables. *)

Class DCRDeps (s : DCRService.Deps) : Prop :=
  traced_dcr_mode S P : PreOrder S → Traced S P (DCRService.modeProvider s).

Class CIMDDeps (s : CIMDService.Deps) : Prop := {
  traced_cimd_config S P : PreOrder S → Traced S P (CIMDService.cimdConfig s);
  traced_cimd_mode S P : PreOrder S → Traced S P (CIMDService.modeProvider s);
  traced_Fetch u S P : PreOrder S → Traced S P (CIMDService.Fetch s u)
}.

Ltac keep_registration :=
  lazymatch goal with
  | |- Traced _ _ (DCRService.modeProvider _) => apply traced_dcr_mode; apply _
  | |- Traced _ _ (CIMDService.cimdConfig _) => apply traced_cimd_config; apply _
  | |- Traced _ _ (CIMDService.modeProvider _) => apply traced_cimd_mode; apply _
  | |- Traced _ _ (CIMDService.Fetch _ _) => apply traced_Fetch; apply _
  | |- _ => keep_step
  end.

Tactic Notation "rd" hyp(H) "as" ident(X) :=
  lazymatch type of H with
  | ?m ?e ?w = (?r, ?w') => assert (reads w w') as X by (refine (reads_of m e w r w' _ H); repeat keep_registration)
  end.

(** ** What a registration writes *)

(** The client may act without a user. *)

Definition machine_client (c : Client.Client) : Prop := ∃ g, g ∈ machineGrants ∧ g ∈ Client.GrantTypes c.

(** The mode admits the client, its grants are enabled, and without a user it
    has no scope. *)

Record confined (policy : DCRModeProvider.DCRMode) (enabled : option (list string)) (c : Client.Client) : Prop := {
  cf_mode : DCRModeProvider.Mode policy = "open" ∨
    DCRModeProvider.Mode policy = "approved_redirects" ∧
    ∀ u, u ∈ Client.RedirectURIs c → u ∈ DCRModeProvider.ApprovedRedirects policy;
  cf_grants : ∀ l gt, enabled = Some l → gt ∈ Client.GrantTypes c → gt ∈ ClientValidation.validGrantTypes → gt ∈ l;
  cf_scope : machine_client c → Client.Scope c = ""
}.

(** One client row was written, as [c], and nothing else changed. *)

Definition one_client_written (c : Client.Client) (w w' : World) : Prop := ∃ d d',
  one_write w w' (d, d') ∧ w_db w' = d' ∧ ∃ row, clients d' = <[Client.ID c := row]> (clients d) ∧
    Client.Scope row = Client.Scope c ∧ Client.GrantTypes row = Client.GrantTypes c ∧
    Client.RedirectURIs row = Client.RedirectURIs c ∧ d' = set_clients (clients d') d.

Lemma isDelegatedOnly_spec l : isDelegatedOnly l = true ↔ ∀ g, g ∈ machineGrants → g ∉ l.
Proof.
  unfold isDelegatedOnly. rewrite negb_true_iff, <-not_true_iff_false, existsb_exists. split.
  - intros H g Hg Hl. apply H. exists g. split; [by apply list_elem_of_In|by apply hasGrantType_spec].
  - intros H (g & Hg%list_elem_of_In & Hl%hasGrantType_spec). by eapply H.
Qed.

Lemma machine_not_delegated c : machine_client c → isDelegatedOnly (Client.GrantTypes c) = false.
Proof. intros (g & Hg & Hc). apply not_true_iff_false. rewrite isDelegatedOnly_spec. intros H. by apply (H g). Qed.

Lemma forallb_contains l us : forallb (slices_Contains l) us = true ↔ ∀ u, u ∈ us → u ∈ l.
Proof.
  rewrite forallb_forall. split.
  - intros H u Hu. apply slices_Contains_spec, H. by apply list_elem_of_In.
  - intros H u Hu. apply slices_Contains_spec, H. by apply list_elem_of_In.
Qed.

(** A failing insert or update changes nothing. *)

Lemma create_err c e w x w' : ClientStore.Create c e w = (Err x, w') → reads w w'.
Proof.
  unfold ClientStore.Create, store. destruct (fault e (w_tick w)); [|case_bool_decide]; intros [= <- <-].
  - split; [apply extends_after|]. intros y. unfold seen. erewrite own_steps_app by reflexivity. by intros ?%not_elem_of_nil.
  - split; [apply extends_after|]. intros y. unfold seen. erewrite own_steps_app by reflexivity.
    by intros ->%list_elem_of_singleton.
Qed.

Lemma update_err c e w x w' : ClientStore.Update c e w = (Err x, w') → reads w w'.
Proof.
  unfold ClientStore.Update, store. destruct (fault e (w_tick w)); [intros [= <- <-]|].
  - split; [apply extends_after|]. intros y. unfold seen. erewrite own_steps_app by reflexivity. by intros ?%not_elem_of_nil.
  - set (d := interfere e (w_tick w) (w_db w)). intros H.
    assert (w' = after w d [(d, d)]) as -> by (repeat case_match; naive_solver).
    split; [apply extends_after|]. intros y. unfold seen. erewrite own_steps_app by reflexivity.
    by intros ->%list_elem_of_singleton.
Qed.

Lemma create_ok c e w u w' : ClientStore.Create c e w = (Ok u, w') → one_client_written c w w'.
Proof.
  intros (d & d' & Hf & Ho & Hdb & _)%one_write_store. case_bool_decide; [done|]. injection Hf as <- <-.
  eexists d, _. split; [exact Ho|]. split; [done|]. exists (ClientStore.first_version c). simpl.
  assert (Client.ID (ClientStore.first_version c) = Client.ID c ∧ Client.Scope (ClientStore.first_version c) = Client.Scope c ∧
    Client.GrantTypes (ClientStore.first_version c) = Client.GrantTypes c ∧
    Client.RedirectURIs (ClientStore.first_version c) = Client.RedirectURIs c) as (E1 & E2 & E3 & E4)
    by (unfold ClientStore.first_version; by case_bool_decide).
  done.
Qed.

Lemma update_ok c e w u w' : ClientStore.Update c e w = (Ok u, w') → one_client_written c w w'.
Proof.
  intros (d & d' & Hf & Ho & Hdb & _)%one_write_store. destruct (clients d !! Client.ID c) as [old|]; [|done].
  case_bool_decide; [|done]. injection Hf as <- <-. eexists d, _. split; [exact Ho|]. split; [done|].
  eexists. simpl. done.
Qed.

Lemma written_between c w w1 w2 w' :
  reads w w1 → one_client_written c w1 w2 → reads w2 w' → w_db w' = w_db w2 → one_client_written c w w'.
Proof.
  intros X1 (d & d' & Ho & Hdb & H) X2 Hw. exists d, d'. split; [by eapply one_write_between|]. split; [congruence|done].
Qed.

(** ** Dynamic registration *)

Section dcr.
Context (s : DCRService.Deps) `{HD : !DCRDeps s}.

Lemma enforceMode_ok policy req :
  DCRService.enforceMode policy req = None → DCRModeProvider.Mode policy = "open" ∨
    DCRModeProvider.Mode policy = "approved_redirects" ∧
    ∀ u, u ∈ DCRService.RedirectURIs req → u ∈ DCRModeProvider.ApprovedRedirects policy.
Proof.
  unfold DCRService.enforceMode. case_bool_decide; [by left|]. case_bool_decide; [|by case_bool_decide].
  destruct (forallb _ _) eqn:E; [|done]. intros _. right. split; [done|]. by apply forallb_contains.
Qed.

Lemma dcr_scope_ok grants e w sc w' :
  DCRService.defaultScope s grants e w = (Ok sc, w') → isDelegatedOnly grants = false → sc = "".
Proof.
  unfold DCRService.defaultScope. destruct (DCRService.oauthConfig s); [|by intros [<- _]%ret_ok].
  intros H Hd. rewrite Hd in H. by apply ret_ok in H as [<- _].
Qed.

Lemma RegisterClient_run req e w r w' :
  DCRService.RegisterClient s req e w = (r, w') →
  match r with
  | Err _ => reads w w'
  | Ok resp => ∃ c policy w1 w2, DCRService.modeProvider s e w1 = (Ok policy, w2) ∧
      confined policy (default None (DCRService.grantsProvider s)) c ∧ one_client_written c w w' ∧
      Client.ID c = DCRService.r_ClientID resp ∧ Client.GrantTypes c = DCRService.r_GrantTypes resp ∧
      Client.RegistrationSource c = Client.SourceDCR ∧
      ClientValidation.registrable (url_parse (params e)) (AdminService.params_of c) (default None (DCRService.grantsProvider s))
  end.
Proof.
  unfold DCRService.RegisterClient. intros H.
  apply bind_cases in H as [(x & H1 & ->)|(policy & w1 & H1 & H)]; [rd H1 as X1; reads_tac|]. rd H1 as X1.
  destruct (DCRService.enforceMode policy req) eqn:Hmode; [injection H as <- <-; reads_tac|]. apply enforceMode_ok in Hmode.
  apply bind_cases in H as [(x & H2 & ->)|(u2 & w2 & H2 & H)]; [apply ensure_err in H2 as (_ & _ & ->); reads_tac|].
  apply ensure_ok in H2 as [_ <-]. set (p := DCRService.createParams req) in *.
  apply bind_cases in H as [(x & H3 & ->)|(u3 & w3 & H3 & H)]; [rd H3 as X3; reads_tac|]. rd H3 as X3.
  apply accepted_params in H3 as Hreg.
  apply bind_cases in H as [(x & H4 & ->)|(scope & w4 & H4 & H)]; [rd H4 as X4; reads_tac|]. rd H4 as X4.
  apply bind_cases in H as [(x & H5 & ->)|(now & w5 & H5 & H)]; [rd H5 as X5; reads_tac|]. rd H5 as X5.
  apply bind_cases in H as [(x & H6 & ->)|(id & w6 & H6 & H)]; [rd H6 as X6; reads_tac|]. rd H6 as X6.
  apply bind_cases in H as [(x & H7 & ->)|(sh & w7 & H7 & H)]; [rd H7 as X7; reads_tac|]. rd H7 as X7.
  set (c := DCRService.newClient req id sh.2 scope now) in *.
  apply bind_cases in H as [(x & H8 & ->)|(u8 & w8 & H8 & H)]; [apply create_err in H8; reads_tac|].
  apply create_ok in H8. apply bind_cases in H as [(x & H9 & ->)|(u9 & w9 & H9 & H)].
  { unfold record_audit in H9. by destruct (DCRService.has_audit s). }
  rd H9 as X9. assert (w_db w9 = w_db w8) as E9 by (unfold record_audit in H9; destruct (DCRService.has_audit s); by simplify_eq).
  injection H as <- <-. exists c, policy, w, w1. split; [done|].
  assert (Client.GrantTypes c = ClientValidation.GrantTypes p ∧ Client.RedirectURIs c = DCRService.RedirectURIs req) as [Eg Er] by done.
  split; [|split; [eapply written_between; [|exact H8|exact X9|exact E9]; reads_tac|done]].
  split.
  - rewrite Er. done.
  - intros l gt Hl Hgt _. by eapply (ClientValidation.rg_enabled _ _ _ Hreg).
  - intros Hm%machine_not_delegated. by eapply dcr_scope_ok.
Qed.

End dcr.

(** ** Metadata documents *)

Section cimd.
Context (s : CIMDService.Deps) `{HD : !CIMDDeps s}.

Lemma checkMode_ok policy :
  CIMDService.checkMode policy = None → DCRModeProvider.Mode policy = "open" ∨ DCRModeProvider.Mode policy = "approved_redirects".
Proof.
  unfold CIMDService.checkMode. case_bool_decide as E; [|done]. simpl. case_bool_decide as E2; [done|]. intros _.
  rewrite !elem_of_cons, elem_of_nil in E. naive_solver.
Qed.

Lemma checkRedirects_ok policy doc :
  CIMDService.checkRedirects policy doc = true → DCRModeProvider.Mode policy = "approved_redirects" →
  ∀ u, u ∈ CIMDService.RedirectURIs doc → u ∈ DCRModeProvider.ApprovedRedirects policy.
Proof. unfold CIMDService.checkRedirects. intros H Hm. rewrite bool_decide_true in H by done. by apply forallb_contains. Qed.

Lemma enabled_ok l enabled gt x :
  ClientValidation.ValidateGrantTypesEnabled l enabled = true → enabled = Some x → gt ∈ l →
  gt ∈ ClientValidation.validGrantTypes → gt ∈ x.
Proof.
  unfold ClientValidation.ValidateGrantTypesEnabled. intros H -> Hgt Hv. unbool. apply nil_length_inv in H.
  unfold ClientValidation.checkGrantTypesEnabled in H. pose proof (ClientValidation.omap_nil _ _ H _ Hgt) as Hn. simpl in Hn.
  unfold ClientValidation.ValidateGrantType in Hn. repeat case_bool_decide; done.
Qed.

Lemma cimd_scope_ok grants e w sc w' :
  CIMDService.defaultScope s grants e w = (Ok sc, w') → isDelegatedOnly grants = false → sc = "".
Proof.
  unfold CIMDService.defaultScope. destruct (CIMDService.oauthConfig s); [|by intros [<- _]%ret_ok].
  intros H Hd. rewrite Hd in H. by apply ret_ok in H as [<- _].
Qed.

Lemma enabled_grants_ok enabled e w a w' :
  AdminService.resolveEnabledGrants enabled e w = (Ok a, w') → a = default None enabled.
Proof.
  unfold AdminService.resolveEnabledGrants. destruct enabled; [by intros [-> _]%provider_ok|by intros [<- _]%ret_ok].
Qed.

Lemma VerifyCIMD_run clientID e w r w' :
  CIMDService.VerifyCIMD s clientID e w = (r, w') →
  match r with
  | Err _ => reads w w'
  | Ok c => ∃ c' policy w1 w2, CIMDService.modeProvider s e w1 = (Ok policy, w2) ∧
      (∃ w3 w4, CIMDService.cimdConfig s e w3 = (Ok true, w4)) ∧
      confined policy (default None (CIMDService.grantsProvider s)) c' ∧ one_client_written c' w w' ∧ Client.ID c' = Client.ID c
  end.
Proof.
  unfold CIMDService.VerifyCIMD. intros H.
  apply bind_cases in H as [(x & H1 & ->)|(en & w1 & H1 & H)]; [rd H1 as X1; reads_tac|]. rd H1 as X1.
  apply bind_cases in H as [(x & H2 & ->)|(u2 & w2 & H2 & H)]; [apply ensure_err in H2 as (_ & _ & ->); reads_tac|].
  apply ensure_ok in H2 as [-> <-].
  apply bind_cases in H as [(x & H3 & ->)|(policy & w3 & H3 & H)]; [rd H3 as X3; reads_tac|]. rd H3 as X3.
  destruct (CIMDService.checkMode policy) eqn:Hmode; [injection H as <- <-; reads_tac|]. apply checkMode_ok in Hmode.
  apply bind_cases in H as [(x & H4 & ->)|(doc & w4 & H4 & H)]; [rd H4 as X4; reads_tac|]. rd H4 as X4.
  apply bind_cases in H as [(x & H5 & ->)|(grants & w5 & H5 & H)]; [rd H5 as X5; reads_tac|]. rd H5 as X5.
  apply bind_cases in H as [(x & H6 & ->)|(u6 & w6 & H6 & H)]; [apply ensure_err in H6 as (_ & _ & ->); reads_tac|].
  apply ensure_ok in H6 as [Hen <-]. apply enabled_grants_ok in H5 as ->.
  apply bind_cases in H as [(x & H7 & ->)|(u7 & w7 & H7 & H)]; [apply ensure_err in H7 as (_ & _ & ->); reads_tac|].
  apply ensure_ok in H7 as [Hred <-].
  apply bind_cases in H as [(x & H8 & ->)|(ex & w8 & H8 & H)]; [rd H8 as X8; reads_tac|]. rd H8 as X8.
  apply bind_cases in H as [(x & H9 & ->)|(now & w9 & H9 & H)]; [rd H9 as X9; reads_tac|]. rd H9 as X9.
  assert (∀ c, Client.GrantTypes c = CIMDService.GrantTypes doc → Client.RedirectURIs c = CIMDService.RedirectURIs doc →
    (isDelegatedOnly (CIMDService.GrantTypes doc) = false → Client.Scope c = "") →
    confined policy (default None (CIMDService.grantsProvider s)) c) as Hconf.
  { intros c Eg Er Hs. split.
    - rewrite Er. destruct Hmode as [?|Ha]; [by left|right]. split; [done|]. by apply checkRedirects_ok.
    - intros l gt Hl. rewrite Eg. by eapply enabled_ok.
    - intros Hm%machine_not_delegated. rewrite Eg in Hm. auto. }
  destruct ex as [c|].
  - apply bind_cases in H as [(x & H10 & ->)|(u10 & w10 & H10 & H)]; [apply update_err in H10; reads_tac|].
    injection H as <- <-. apply update_ok in H10. exists (CIMDService.updated doc now c), policy, w1, w3.
    split; [done|]. split; [eauto|]. split; [apply Hconf; simpl; try done; by intros ->|]. split; [|done].
    eapply written_between; [|exact H10|reflexivity|done]; reads_tac.
  - apply bind_cases in H as [(x & H10 & ->)|(sc & w10 & H10 & H)]; [rd H10 as X10; reads_tac|]. rd H10 as X10.
    apply bind_cases in H as [(x & H11 & ->)|(u11 & w11 & H11 & H)]; [apply create_err in H11; reads_tac|].
    injection H as <- <-. apply create_ok in H11. exists (CIMDService.newClient clientID doc sc now), policy, w1, w3.
    split; [done|]. split; [eauto|]. split; [apply Hconf; try done; intros Hd; by eapply cimd_scope_ok|].
    split; [eapply written_between; [|exact H11|reflexivity|done]; reads_tac|done].
Qed.

End cimd.

(** ** Clients that register themselves *)


(** Every row of the client is without scope. *)

Definition scopeless (id : string) (d : DB) : Prop := ∀ c, clients d !! id = Some c → Client.Scope c = "".

#[export] Instance keeps_scopeless id : Keeps clients (keeps_inv (scopeless id)).
Proof. intros d d' H Hd c. rewrite H. apply Hd. Qed.

Lemma registered_scopeless c policy enabled w w' :
  confined policy enabled c → one_client_written c w w' → machine_client c → scopeless (Client.ID c) (w_db w').
Proof.
  intros Hc (d & d' & _ & -> & row & Hcl & Hs & _) Hm c' Hc'. rewrite Hcl, lookup_insert_eq in Hc'. simplify_eq.
  rewrite Hs. by eapply cf_scope.
Qed.

Lemma scopeless_exchange s req e w r w' :
  scopeless (ClientCredentialsService.ClientID req) (w_db w) →
  rely (keeps_inv (scopeless (ClientCredentialsService.ClientID req))) e →
  ClientCredentialsService.Exchange s req e w = (r, w') →
  match r with
  | Err _ => True
  | Ok resp => ClientCredentialsService.Resource req = "" ∧ MachineIssue.RespScope resp = "" ∧
      machine_token e (w_db w') (MachineIssue.AccessToken resp) (ClientCredentialsService.ClientID req)
        (ClientCredentialsService.ClientID req) "" ∅ None
  end.
Proof.
  intros Hw HR H. destruct r as [resp|]; [|done]. pose proof H as (sc & w1 & Ha & X1 & X2 & Ht & Hrs)%exchange_parts.
  apply CCSteps.authorizeClient_ok in Ha as [(c & (_ & _ & d & Hd & Hc) & _ & Hsub) Hres _].
  assert (seen w w' (d, d)) as Hd' by seen_tac.
  pose proof (seen_from _ _ _ _ _ _ (keep_ClientCredentials (S:=keeps_inv (scopeless _)) s req) H HR Hd' Hw _ Hc) as Hs.
  rewrite Hs in Hsub. assert (sc = ∅) as -> by (apply set_eq; change (Scope.Parse "") with (∅ : gset string) in Hsub; set_solver).
  assert (ClientCredentialsService.Resource req = "") as E.
  { destruct (decide (ClientCredentialsService.Resource req = "")) as [|Hne]; [done|]. by destruct (Hres Hne). }
  rewrite E in Ht. done.
Qed.

(** A self-registered machine client gets nothing until an administrator
    grants it scopes.  A client that registered itself dynamically with a grant
    that works without a user may present its credentials at any later moment;
    as long as no one else has given it a scope, the client credentials grant
    refuses it or answers a token with no scope at all and no resource as its
    audience, and with a resource it always refuses. *)
Theorem self_registered_machine_powerless (s : DCRService.Deps) `{!DCRDeps s} req e w resp w1
    (t : MachineIssue.Wiring) cc e2 w2 r w3 :
  DCRService.RegisterClient s req e w = (Ok resp, w1) →
  (∃ g, g ∈ machineGrants ∧ g ∈ DCRService.r_GrantTypes resp) →
  ClientCredentialsService.ClientID cc = DCRService.r_ClientID resp →
  keeps_inv (scopeless (DCRService.r_ClientID resp)) (w_db w1) (w_db w2) →
  rely (keeps_inv (scopeless (DCRService.r_ClientID resp))) e2 →
  ClientCredentialsService.Exchange t cc e2 w2 = (r, w3) →
  match r with
  | Err _ => True
  | Ok tok => ClientCredentialsService.Resource cc = "" ∧ MachineIssue.RespScope tok = "" ∧
      machine_token e2 (w_db w3) (MachineIssue.AccessToken tok) (DCRService.r_ClientID resp) (DCRService.r_ClientID resp) "" ∅ None
  end.
Proof.
  intros Hreg Hg Hid Hk HR H. apply RegisterClient_run in Hreg as (c & policy & w4 & w5 & _ & Hc & Hw & Eid & Eg & _); [|apply _].
  rewrite <-Hid in *. eapply scopeless_exchange; [|exact HR|exact H]. apply Hk. rewrite <-Eid. eapply registered_scopeless; [done..|].
  destruct Hg as (g & ? & ?). exists g. by rewrite Eg.
Qed.

(** ** Local login *)

Section login.
Import UserAuthService.
Context (derivable : string → bool) (has_audit : bool) (dummy_derivable : derivable dummyBcryptHash = true).

(** Who may log in with a password. *)

Definition may_login (p : Params) (u : User.User) (password : string) : bool :=
  User.IsActive u && User.IsLocal u && derivable (User.PasswordHash u) && bcrypt_ok p (User.PasswordHash u) password.

Lemma uniform_cost p hash password : (CompareBcryptUniform derivable p hash password).2 = 1.
Proof.
  unfold CompareBcryptUniform, CompareHashAndPassword. rewrite dummy_derivable.
  destruct (derivable hash); [destruct (bcrypt_ok p hash password)|]; reflexivity.
Qed.

(** Everything an outsider can observe of a login, by what the lookup found. *)

Definition login_answer (p : Params) (found : res User.User) (password : string) : res User.User * nat :=
  match found with
  | Ok u => (if may_login p u password then Ok u else Err ErrInvalidCredentials, 1)
  | Err x => if bool_decide (x = ErrUserNotFound) then (Err ErrInvalidCredentials, 1) else (Err x, 0)
  end.

(** Why an account was denied, and what the audit trail says of a login. *)

Definition denial (u : User.User) : string :=
  if negb (User.IsActive u) then "user_disabled"
  else if negb (User.IsLocal u) then "user_not_local"
  else if negb (derivable (User.PasswordHash u)) then "unusable_stored_hash"
  else "invalid_credentials".

Definition login_trail (p : Params) (found : res User.User) (password : string) : list Audit.Event :=
  if negb has_audit then [] else
  match found with
  | Ok u => if may_login p u password then [Audit.NewEvent Audit.ActionUserLogin (User.ID u) "" "" ""]
            else [Audit.NewEvent Audit.ActionUserLoginFailed (User.ID u) "" "" ("reason=" +:+ denial u)]
  | Err x => if bool_decide (x = ErrUserNotFound)
             then [Audit.NewEvent Audit.ActionUserLoginFailed "" "" "" "reason=user_not_found"] else []
  end.

Lemma account_reason p u password :
  finalReason (denialReason (Some u)) (CompareBcryptUniform derivable p (hashToCompare (Some u)) password).1 =
  if may_login p u password then "" else denial u.
Proof.
  unfold may_login, hashToCompare, denialReason, denial.
  destruct (User.IsActive u); [|reflexivity]. destruct (User.IsLocal u); [|reflexivity].
  cbn [negb]. rewrite (bool_decide_true ("" = "")) by done. unfold CompareBcryptUniform, CompareHashAndPassword.
  destruct (derivable (User.PasswordHash u)); [|reflexivity].
  by destruct (bcrypt_ok p (User.PasswordHash u) password).
Qed.

Lemma denial_given u : denial u ≠ "".
Proof. unfold denial. by repeat case_match. Qed.

Lemma GetByEmail_audit email e w r w1 : UserStore.GetByEmail email e w = (r, w1) → w_audit w1 = w_audit w.
Proof.
  unfold UserStore.GetByEmail. case_bool_decide; [by intros [= <- <-]|]. unfold query, store. intros Hq.
  by repeat case_match; simplify_eq.
Qed.

Lemma login_run email password e w :
  let found := (UserStore.GetByEmail email e w).1 in
  ∃ w', authenticate derivable has_audit email password e w = (Ok (login_answer (params e) found password), w') ∧
    w_audit w' = w_audit w ++ login_trail (params e) found password.
Proof.
  unfold authenticate, try, mbind, M_bind. destruct (UserStore.GetByEmail email e w) as [got w1] eqn:Hg; simpl.
  apply GetByEmail_audit in Hg as <-. unfold login_answer, login_trail. destruct got as [u|x].
  - unfold ask. pose proof (account_reason (params e) u password) as Hr.
    pose proof (uniform_cost (params e) (hashToCompare (Some u)) password) as Hn.
    destruct (CompareBcryptUniform _ _ _ _) as [o n]. cbn [fst snd] in Hn, Hr. subst n. rewrite Hr. clear Hr.
    destruct (may_login _ _ _); [rewrite bool_decide_false by (intros Hx; by apply Hx)|
      rewrite bool_decide_true by apply denial_given]; eexists; (split; [reflexivity|]);
      destruct has_audit; simpl; rewrite ?app_nil_r; done.
  - case_bool_decide as Hx; [subst x|].
    + pose proof (uniform_cost (params e) (hashToCompare None) password) as Hn. unfold ask.
      destruct (CompareBcryptUniform _ _ _ _) as [o n]. cbn [fst snd] in Hn |- *. subst n. eexists. split; [reflexivity|].
      destruct has_audit; simpl; rewrite ?app_nil_r; done.
    + eexists w1. split; [by destruct x|]. destruct has_audit; simpl; by rewrite app_nil_r.
Qed.

Lemma authenticate_reads email password e w r w' :
  authenticate derivable has_audit email password e w = (r, w') → reads w w'.
Proof. intros H. refine (reads_of _ _ _ _ _ _ H). repeat keep_registration. Qed.

End login.

(** A denied login says only that it was denied.  Every login runs to an
    answer without changing a table.  Unless the lookup itself fails, it spends
    exactly one bcrypt derivation, and it admits the account with this email
    precisely when it is active, local, and its stored hash derives to the
    password; an unknown address, a disabled, federated or broken account and a
    wrong password all get the same error at the same cost, and only the reason
    in the audit trail tells them apart.  That the fixed hash compared against
    in place of a missing one can be derived is what the program checks when it
    starts. *)
Theorem login_uniform derivable has_audit email password e w :
  derivable UserAuthService.dummyBcryptHash = true →
  let found := (UserStore.GetByEmail email e w).1 in
  ∃ w', UserAuthService.authenticate derivable has_audit email password e w =
      (Ok (login_answer derivable (params e) found password), w') ∧ reads w w' ∧
    w_audit w' = w_audit w ++ login_trail derivable has_audit (params e) found password ∧
    (∀ u, (UserAuthService.Authenticate derivable has_audit email password e w).1 = Ok u ↔
      found = Ok u ∧ may_login derivable (params e) u password = true).
Proof.
  intros Hd found. destruct (login_run derivable has_audit Hd email password e w) as (w' & H & Ha).
  exists w'. split; [exact H|]. split; [by eapply authenticate_reads|]. split; [exact Ha|].
  intros u. unfold UserAuthService.Authenticate, mbind, M_bind. rewrite H. fold found. clear H Ha. clearbody found. unfold login_answer.
  destruct found as [v|x]; simpl; [|destruct (bool_decide _); simpl; split; naive_solver].
  destruct (may_login derivable (params e) v password) eqn:Hv; (split; [intros [= <-]|intros [[= <-] ?]]; first [done | congruence]).
Qed.

(** ** Concrete runs *)

Module RegistrationRuns.
Import Scenario.

Definition open_mode : M DCRModeProvider.DCRMode := provider (λ _, DCRModeProvider.MkMode "open" []).

Definition dcr : DCRService.Deps := DCRService.MkDeps open_mode None (Some "read write") AdminRuns.bcrypt true.

#[global] Instance dcr_deps : DCRDeps dcr.
Proof. intros S P HS. apply traced_provider. Qed.

Definition request (grants : list string) : DCRService.RegisterClientRequest :=
  DCRService.MkRegister ["https://bot/cb"] "Bot" grants ["code"] "client_secret_post" "" false "".

Definition registered (grants : list string) : res DCRService.RegisterClientResponse * World :=
  DCRService.RegisterClient dcr (request grants) env (MachineRuns.world None).

Definition bot : DCRService.RegisterClientResponse :=
  match (registered ["client_credentials"]).1 with
  | Ok r => r
  | Err _ => DCRService.MkResponse "" "" 0 None [] "" [] [] "" "" "" false ""
  end.

Definition credentials : ClientCredentialsService.ClientCredentialsRequest :=
  ClientCredentialsService.MkRequest (DCRService.r_ClientID bot) (DCRService.r_ClientSecret bot) "" "" "" "" "".

Definition exchanged : res MachineIssue.MachineResponse * World :=
  ClientCredentialsService.Exchange MachineRuns.wired credentials env (registered ["client_credentials"]).2.

Definition cimd : CIMDService.Deps :=
  CIMDService.MkDeps (provider (λ _, true)) (provider (λ _, DCRModeProvider.MkMode "approved_redirects" ["https://doc/cb"]))
    (λ _, mret (CIMDService.MkDocument "https://doc" ["https://doc/cb"] "Doc" ["authorization_code"] ["code"] "none"))
    (Some (Some ["authorization_code"])) (Some "read").

#[global] Instance cimd_deps : CIMDDeps cimd.
Proof. split; intros; [apply traced_provider|apply traced_provider|apply traced_ret]. Qed.

Definition verified : res Client.Client * World :=
  CIMDService.VerifyCIMD cimd "https://doc/client.json" env (MachineRuns.world None).

Definition derivable (h : string) : bool := bool_decide (h ≠ "").

Definition carol : User.User :=
  User.MkUser "carol" "c@x" "Carol" "bc:pw" false User.StatusActive true "" 1 start start.

Definition login_world : World := MkWorld (set_users {["carol" := carol]} (MachineRuns.db None)) 0 [] [].

Definition login (email password : string) : res User.User :=
  (UserAuthService.Authenticate derivable true email password env login_world).1.

End RegistrationRuns.

Lemma registered_bot : (RegistrationRuns.registered ["client_credentials"]).1 = Ok RegistrationRuns.bot.
Proof. by vm_compute. Qed.

Lemma registered_bot_id : DCRService.r_ClientID RegistrationRuns.bot = "r0002".
Proof. by vm_compute. Qed.

Lemma exchanged_empty :
  RegistrationRuns.exchanged.1 = Ok (MachineIssue.MkMachineResponse "jwt:r0008" "Bearer" 900 "").
Proof. by vm_compute. Qed.

Definition document_client : Client.Client :=
  match RegistrationRuns.verified.1 with Ok c => c | Err _ => MachineRuns.svc end.

Lemma verified_document : RegistrationRuns.verified.1 = Ok document_client.
Proof. by vm_compute. Qed.


Lemma self_registered_machine_powerless_witness :
  machine_token Scenario.env (w_db RegistrationRuns.exchanged.2) "jwt:r0008" (DCRService.r_ClientID RegistrationRuns.bot)
    (DCRService.r_ClientID RegistrationRuns.bot) "" ∅ None.
Proof.
  refine (proj2 (proj2 (self_registered_machine_powerless RegistrationRuns.dcr _ Scenario.env (MachineRuns.world None) _ _
    MachineRuns.wired RegistrationRuns.credentials Scenario.env (RegistrationRuns.registered ["client_credentials"]).2 _ _
    (run_eq _ _ registered_bot) _ eq_refl _ (Scenario.env_rely _ []) (run_eq RegistrationRuns.exchanged _ exchanged_empty)))).
  - exists "client_credentials". split; vm_compute; left.
  - intros H. exact H.
Defined.

Lemma login_uniform_witness :
  RegistrationRuns.login "c@x" "pw" = Ok RegistrationRuns.carol ∧
  ∃ w', UserAuthService.authenticate RegistrationRuns.derivable true "nobody@x" "pw" Scenario.env RegistrationRuns.login_world =
    (Ok (Err ErrInvalidCredentials, 1), w').
Proof.
  split.
  - destruct (login_uniform RegistrationRuns.derivable true "c@x" "pw" Scenario.env RegistrationRuns.login_world eq_refl)
      as (w' & _ & _ & _ & H). apply H. split; vm_compute; reflexivity.
  - destruct (login_uniform RegistrationRuns.derivable true "nobody@x" "pw" Scenario.env RegistrationRuns.login_world eq_refl)
      as (w' & H & _). exists w'. exact H.
Defined.
