(* ===== verification/Encoding.v ===== *)
(** * Text encodings of the Go standard library

    [base64.RawURLEncoding], [strconv.FormatInt] and [strconv.ParseInt] in base
    ten, [strings.SplitN] and [strings.Split] at one byte, [strings.TrimSpace],
    as the session cookie, the OIDC state and the HTTP headers use them, with
    their round trips. *)

From S2P Require Import Prelude GoStrings.

(** ** strings.SplitN at a byte *)

Fixpoint strings_Cut (sep : Ascii.ascii) (s : string) : option (string * string) :=
  match s with
  | EmptyString => None
  | String c s' =>
      if bool_decide (c = sep) then Some ("", s')
      else match strings_Cut sep s' with
           | Some (a, b) => Some (String c a, b)
           | None => None
           end
  end.

(** At most [n] parts, for a positive [n]; the last one is what is left. *)

Fixpoint strings_SplitN (sep : Ascii.ascii) (s : string) (n : nat) : list string :=
  match n with
  | 0 => []
  | 1 => [s]
  | S n' => match strings_Cut sep s with
            | Some (a, b) => a :: strings_SplitN sep b n'
            | None => [s]
            end
  end.

(** [strings.Split] at a byte. *)

Fixpoint strings_Split (sep : Ascii.ascii) (s : string) : list string :=
  match s with
  | EmptyString => [""]
  | String c s' =>
      if bool_decide (c = sep) then "" :: strings_Split sep s'
      else match strings_Split sep s' with
           | p :: ps => String c p :: ps
           | [] => [String c ""]
           end
  end.

(** [strings.TrimSpace] on the ASCII white space, and the first [n] bytes. *)

Fixpoint trim_left (s : string) : string :=
  match s with
  | String c s' => if is_space c then trim_left s' else s
  | EmptyString => ""
  end.

Fixpoint trim_right (s : string) : string :=
  match s with
  | EmptyString => ""
  | String c s' => let t := trim_right s' in if andb (bool_decide (t = "")) (is_space c) then "" else String c t
  end.

Definition strings_TrimSpace (s : string) : string := trim_right (trim_left s).

Fixpoint take_bytes (n : nat) (s : string) : string :=
  match n, s with
  | S n', String c s' => String c (take_bytes n' s')
  | _, _ => ""
  end.

Fixpoint free_of (sep : Ascii.ascii) (s : string) : bool :=
  match s with
  | EmptyString => true
  | String c s' => andb (bool_decide (c ≠ sep)) (free_of sep s')
  end.

Lemma free_of_app sep a b : free_of sep (a +:+ b) = andb (free_of sep a) (free_of sep b).
Proof. induction a as [|c a IH]; simpl; [done|]. by rewrite IH, andb_assoc. Qed.

Lemma Cut_app sep a b : free_of sep a = true → strings_Cut sep (a +:+ String sep b) = Some (a, b).
Proof.
  induction a as [|c a IH]; simpl; [by rewrite bool_decide_true|].
  intros [Hc Ha]%andb_true_iff. unbool. rewrite bool_decide_false by done. by rewrite IH.
Qed.

Lemma Cut_free sep s : free_of sep s = true → strings_Cut sep s = None.
Proof.
  induction s as [|c s IH]; simpl; [done|]. intros [Hc Hs]%andb_true_iff. unbool.
  rewrite bool_decide_false by done. by rewrite IH.
Qed.

Lemma Cut_inv sep s a b : strings_Cut sep s = Some (a, b) → s = a +:+ String sep b ∧ free_of sep a = true.
Proof.
  revert a. induction s as [|c s IH]; simpl; intros a; [done|]. case_bool_decide as Hc; [by intros [= <- <-]; subst|].
  destruct (strings_Cut sep s) as [[x y]|]; [|done]. intros [= <- <-]. destruct (IH x eq_refl) as [-> Hx].
  split; [done|]. simpl. by rewrite bool_decide_true, Hx.
Qed.

(** ** strconv *)

Definition ascii_of (n : nat) : Ascii.ascii := Ascii.ascii_of_nat n.
Definition byte_of (c : Ascii.ascii) : nat := Ascii.nat_of_ascii c.

Lemma byte_of_lt c : byte_of c < 256.
Proof. apply Ascii.nat_ascii_bounded. Qed.

Lemma byte_ascii n : n < 256 → byte_of (ascii_of n) = n.
Proof. apply Ascii.nat_ascii_embedding. Qed.

Lemma ascii_byte c : ascii_of (byte_of c) = c.
Proof. apply Ascii.ascii_nat_embedding. Qed.

Definition dec_digit (n : N) : Ascii.ascii := ascii_of (48 + N.to_nat (n mod 10)%N).

Fixpoint dec_digits (fuel : nat) (n : N) (acc : string) : string :=
  match fuel with
  | 0 => acc
  | S f => let acc' := String (dec_digit n) acc in
           if bool_decide ((n / 10)%N = 0%N) then acc' else dec_digits f (n / 10)%N acc'
  end.

#[global] Arguments ascii_of : simpl never.
#[global] Arguments byte_of : simpl never.
#[global] Arguments dec_digit : simpl never.

Definition strconv_FormatUint (n : N) : string := dec_digits (S (N.to_nat (N.size n))) n "".

Definition strconv_FormatInt (z : Z) : string :=
  if bool_decide (z < 0)%Z then String (ascii_of 45) (strconv_FormatUint (Z.to_N (- z)))
  else strconv_FormatUint (Z.to_N z).

Definition digit_of (c : Ascii.ascii) : option N :=
  let n := byte_of c in if bool_decide (48 ≤ n ∧ n ≤ 57) then Some (N.of_nat (n - 48)) else None.

Fixpoint parse_digits (acc : N) (s : string) : option N :=
  match s with
  | EmptyString => Some acc
  | String c s' => match digit_of c with
                   | Some d => parse_digits (acc * 10 + d)%N s'
                   | None => None
                   end
  end.

Definition parse_uint (s : string) : option N := if bool_decide (s = "") then None else parse_digits 0 s.

Definition int64_ok (z : Z) : bool := bool_decide (- 2 ^ 63 ≤ z < 2 ^ 63)%Z.

(** [strconv.ParseInt(s, 10, 64)]: an optional sign, digits, and the range of
    the type. *)

Definition strconv_ParseInt (s : string) : option Z :=
  let v := match s with
           | String c s' =>
               if bool_decide (c = ascii_of 45) then (λ n, (- Z.of_N n)%Z) <$> parse_uint s'
               else if bool_decide (c = ascii_of 43) then Z.of_N <$> parse_uint s'
               else Z.of_N <$> parse_uint s
           | EmptyString => None
           end in
  match v with
  | Some z => if int64_ok z then Some z else None
  | None => None
  end.

Lemma digit_dec n : digit_of (dec_digit n) = Some (n mod 10)%N.
Proof.
  unfold digit_of, dec_digit. pose proof (N.mod_lt n 10 ltac:(done)) as Hd. set (d := (n mod 10)%N) in *.
  rewrite byte_ascii by lia. rewrite bool_decide_true by lia. f_equal. lia.
Qed.

Lemma parse_dec fuel n s : (n < 2 ^ N.of_nat fuel)%N → fuel ≠ 0 → parse_digits 0 (dec_digits fuel n s) = parse_digits n s.
Proof.
  revert n s. induction fuel as [|f IH]; intros n s Hf Hz; [done|]. cbn [dec_digits].
  pose proof (N.div_mod n 10 ltac:(done)) as Hdm. rewrite Nat2N.inj_succ, N.pow_succ_r' in Hf. case_bool_decide as Hn.
  - cbn [parse_digits]. rewrite digit_dec. f_equal. lia.
  - destruct f as [|f].
    { exfalso. apply Hn, N.div_small. change (2 ^ N.of_nat 0)%N with 1%N in Hf. lia. }
    rewrite IH; [|apply N.Div0.div_lt_upper_bound; lia|done].
    cbn [parse_digits]. rewrite digit_dec. f_equal. lia.
Qed.

Lemma FormatUint_digits n : parse_digits 0 (strconv_FormatUint n) = Some n.
Proof.
  unfold strconv_FormatUint. rewrite parse_dec; [done| |lia]. rewrite Nat2N.inj_succ, N2Nat.id, N.pow_succ_r'.
  pose proof (N.size_gt n). lia.
Qed.

(** A digit is neither a sign nor a separator. *)

Definition is_digit_byte (c : Ascii.ascii) : bool := bool_decide (is_Some (digit_of c)).

Lemma free_of_dec sep fuel n acc :
  is_digit_byte sep = false → free_of sep acc = true → free_of sep (dec_digits fuel n acc) = true.
Proof.
  intros Hs. revert n acc. induction fuel as [|f IH]; intros n acc Ha; [done|]. cbn [dec_digits].
  assert (free_of sep (String (dec_digit n) acc) = true).
  { cbn [free_of]. rewrite Ha, bool_decide_true; [done|]. intros <-. unfold is_digit_byte in Hs.
    rewrite bool_decide_true in Hs by (rewrite digit_dec; eauto). done. }
  case_bool_decide; auto.
Qed.

Lemma FormatUint_free sep n : is_digit_byte sep = false → free_of sep (strconv_FormatUint n) = true.
Proof. intros Hs. by apply free_of_dec. Qed.

Lemma FormatInt_free sep z :
  is_digit_byte sep = false → sep ≠ ascii_of 45 → free_of sep (strconv_FormatInt z) = true.
Proof.
  intros Hs Hm. unfold strconv_FormatInt. case_bool_decide; [|by apply FormatUint_free].
  cbn [free_of]. rewrite bool_decide_true by congruence. by apply FormatUint_free.
Qed.

Lemma parse_uint_Format n : parse_uint (strconv_FormatUint n) = Some n.
Proof.
  unfold parse_uint. rewrite FormatUint_digits. rewrite bool_decide_false; [done|].
  unfold strconv_FormatUint. cbn [dec_digits]. case_bool_decide; [done|].
  generalize (n / 10)%N (String (dec_digit n) "") (ltac:(done) : String (dec_digit n) "" ≠ "").
  generalize (N.to_nat (N.size n)) as f. induction f as [|f IH]; intros m acc Ha; [done|].
  cbn [dec_digits]. case_bool_decide; [done|]. by apply IH.
Qed.

(** What is printed is read back. *)

Lemma ParseInt_Format z : int64_ok z = true → strconv_ParseInt (strconv_FormatInt z) = Some z.
Proof.
  intros Hz. unfold strconv_ParseInt, strconv_FormatInt. case_bool_decide as Hn.
  - rewrite bool_decide_true by done. rewrite parse_uint_Format. cbn [fmap option_fmap option_map].
    replace (- Z.of_N (Z.to_N (- z)))%Z with z by lia. by rewrite Hz.
  - pose proof (parse_uint_Format (Z.to_N z)) as Hp.
    pose proof (FormatUint_free (ascii_of 45) (Z.to_N z) eq_refl) as H1.
    pose proof (FormatUint_free (ascii_of 43) (Z.to_N z) eq_refl) as H2.
    destruct (strconv_FormatUint (Z.to_N z)) as [|c s]; [done|]. cbn [free_of] in H1, H2.
    apply andb_true_iff in H1 as [H1 _]. apply andb_true_iff in H2 as [H2 _]. unbool.
    rewrite !bool_decide_false by done. rewrite Hp. cbn [fmap option_fmap option_map].
    replace (Z.of_N (Z.to_N z)) with z by lia. by rewrite Hz.
Qed.

(** ** base64.RawURLEncoding *)

Definition b64_alphabet : string := "ABCDEFGHIJKLMNOPQRSTUVWXYZabcdefghijklmnopqrstuvwxyz0123456789-_".

Definition b64_char (n : nat) : Ascii.ascii := default (ascii_of 0) (String.get n b64_alphabet).

Fixpoint index_of (c : Ascii.ascii) (s : string) : option nat :=
  match s with
  | EmptyString => None
  | String x s' => if bool_decide (x = c) then Some 0 else S <$> index_of c s'
  end.

Definition b64_index (c : Ascii.ascii) : option nat := index_of c b64_alphabet.

(** Three bytes in four characters; the last group is cut short. *)

Fixpoint b64_encode (s : string) : string :=
  match s with
  | String a (String b (String c rest)) =>
      let x := byte_of a in let y := byte_of b in let z := byte_of c in
      String (b64_char (x / 4)) (String (b64_char (x mod 4 * 16 + y / 16))
        (String (b64_char (y mod 16 * 4 + z / 64)) (String (b64_char (z mod 64)) (b64_encode rest))))
  | String a (String b EmptyString) =>
      let x := byte_of a in let y := byte_of b in
      String (b64_char (x / 4)) (String (b64_char (x mod 4 * 16 + y / 16)) (String (b64_char (y mod 16 * 4)) ""))
  | String a EmptyString =>
      let x := byte_of a in String (b64_char (x / 4)) (String (b64_char (x mod 4 * 16)) "")
  | EmptyString => ""
  end.

(** The decoder skips line breaks, and does not look at the bits that are left
    over in the last group. *)

Fixpoint b64_values (s : string) : option (list nat) :=
  match s with
  | EmptyString => Some []
  | String c s' =>
      if bool_decide (c = ascii_of 10 ∨ c = ascii_of 13) then b64_values s'
      else match b64_index c, b64_values s' with
           | Some v, Some l => Some (v :: l)
           | _, _ => None
           end
  end.

Fixpoint b64_groups (l : list nat) : option string :=
  match l with
  | i :: j :: k :: m :: rest =>
      match b64_groups rest with
      | Some s => Some (String (ascii_of (i * 4 + j / 16)) (String (ascii_of (j mod 16 * 16 + k / 4))
                    (String (ascii_of (k mod 4 * 64 + m)) s)))
      | None => None
      end
  | [i; j; k] => Some (String (ascii_of (i * 4 + j / 16)) (String (ascii_of (j mod 16 * 16 + k / 4)) ""))
  | [i; j] => Some (String (ascii_of (i * 4 + j / 16)) "")
  | [_] => None
  | [] => Some ""
  end.

Definition b64_decode (s : string) : option string :=
  match b64_values s with
  | Some l => b64_groups l
  | None => None
  end.

#[global] Arguments b64_char : simpl never.

Fixpoint below (n : nat) : list nat := match n with 0 => [] | S m => m :: below m end.

Lemma below_spec n m : m < n → m ∈ below n.
Proof. induction n as [|n IH]; [lia|]. intros. simpl. destruct (decide (m = n)) as [->|]; [left|right; apply IH; lia]. Qed.

Definition b64_sound (n : nat) : bool :=
  andb (bool_decide (b64_index (b64_char n) = Some n))
    (negb (bool_decide (b64_char n = ascii_of 10 ∨ b64_char n = ascii_of 13))).

Lemma b64_sound_all : forallb b64_sound (below 64) = true.
Proof. by vm_compute. Qed.

Lemma b64_values_char n s : n < 64 → b64_values (String (b64_char n) s) = cons n <$> b64_values s.
Proof.
  intros Hn. pose proof (proj1 (forallb_forall _ _) b64_sound_all n (proj1 (list_elem_of_In _ _) (below_spec 64 n Hn))) as H.
  apply andb_true_iff in H as [H1 H2]. apply bool_decide_eq_true in H1. apply negb_true_iff in H2.
  cbn [b64_values]. rewrite H1, H2. by destruct (b64_values s).
Qed.

Lemma string_ind3 (P : string → Prop) :
  P "" → (∀ a, P (String a "")) → (∀ a b, P (String a (String b ""))) →
  (∀ a b c s, P s → P (String a (String b (String c s)))) → ∀ s, P s.
Proof.
  intros H0 H1 H2 H3. refine (fix go s := match s with
    | EmptyString => H0
    | String a EmptyString => H1 a
    | String a (String b EmptyString) => H2 a b
    | String a (String b (String c rest)) => H3 a b c rest (go rest)
    end).
Qed.


Lemma byte_1 c j : j < 16 → ascii_of (byte_of c / 4 * 4 + (byte_of c mod 4 * 16 + j) / 16) = c.
Proof.
  intros Hj. transitivity (ascii_of (byte_of c)); [f_equal|apply ascii_byte].
  replace (byte_of c mod 4 * 16 + j) with (j + byte_of c mod 4 * 16) by lia.
  rewrite Nat.div_add, (Nat.div_small j) by lia. pose proof (Nat.div_mod_eq (byte_of c) 4). lia.
Qed.

Lemma byte_2 x c k : k < 4 →
  ascii_of ((x * 16 + byte_of c / 16) mod 16 * 16 + (byte_of c mod 16 * 4 + k) / 4) = c.
Proof.
  intros Hk. transitivity (ascii_of (byte_of c)); [f_equal|apply ascii_byte].
  replace (byte_of c mod 16 * 4 + k) with (k + byte_of c mod 16 * 4) by lia.
  replace (x * 16 + byte_of c / 16) with (byte_of c / 16 + x * 16) by lia.
  rewrite Nat.div_add, (Nat.div_small k) by lia. rewrite Nat.Div0.mod_add.
  pose proof (byte_of_lt c). rewrite (Nat.mod_small (byte_of c / 16)) by (apply Nat.Div0.div_lt_upper_bound; lia).
  pose proof (Nat.div_mod_eq (byte_of c) 16). lia.
Qed.

Lemma byte_3 x c : ascii_of ((x * 4 + byte_of c / 64) mod 4 * 64 + byte_of c mod 64) = c.
Proof.
  transitivity (ascii_of (byte_of c)); [f_equal|apply ascii_byte].
  replace (x * 4 + byte_of c / 64) with (byte_of c / 64 + x * 4) by lia. rewrite Nat.Div0.mod_add.
  pose proof (byte_of_lt c). rewrite (Nat.mod_small (byte_of c / 64)) by (apply Nat.Div0.div_lt_upper_bound; lia).
  pose proof (Nat.div_mod_eq (byte_of c) 64). lia.
Qed.

Lemma div_lt_byte c k n : 256 ≤ k * n → byte_of c / k < n.
Proof. intros. apply Nat.Div0.div_lt_upper_bound. pose proof (byte_of_lt c). lia. Qed.

Lemma b64_roundtrip s : b64_decode (b64_encode s) = Some s.
Proof.
  unfold b64_decode. cut (∃ l, b64_values (b64_encode s) = Some l ∧ b64_groups l = Some s); [by intros (l & -> & ?)|].
  assert (∀ c, byte_of c / 4 < 64) as D4 by (intros; by apply div_lt_byte; lia).
  assert (∀ c, byte_of c / 16 < 16) as D16 by (intros; by apply div_lt_byte; lia).
  assert (∀ c, byte_of c / 64 < 4) as D64 by (intros; by apply div_lt_byte; lia).
  assert (∀ c, byte_of c mod 4 < 4) as M4 by (intros; by apply Nat.mod_upper_bound).
  assert (∀ c, byte_of c mod 16 < 16) as M16 by (intros; by apply Nat.mod_upper_bound).
  assert (∀ c, byte_of c mod 64 < 64) as M64 by (intros; by apply Nat.mod_upper_bound).
  induction s as [|a|a b|a b c s (l & Hl & Hg)] using string_ind3; cbn [b64_encode].
  - by exists [].
  - rewrite !b64_values_char by (specialize (D4 a); specialize (M4 a); lia). eexists. split; [reflexivity|].
    cbn [b64_groups fmap option_fmap option_map]. do 2 f_equal.
    rewrite <-(Nat.add_0_r (byte_of a mod 4 * 16)). apply byte_1. lia.
  - rewrite !b64_values_char by (specialize (D4 a); specialize (M4 a); specialize (D16 b); specialize (M16 b); lia).
    eexists. split; [reflexivity|]. cbn [b64_groups fmap option_fmap option_map]. rewrite byte_1 by done.
    rewrite <-(Nat.add_0_r (byte_of b mod 16 * 4)), byte_2 by lia. done.
  - rewrite !b64_values_char by (specialize (D4 a); specialize (M4 a); specialize (D16 b); specialize (M16 b);
      specialize (D64 c); specialize (M64 c); lia).
    rewrite Hl. eexists. split; [reflexivity|]. cbn [b64_groups fmap option_fmap option_map]. rewrite Hg.
    by rewrite byte_1, byte_2, byte_3.
Qed.

(** The text holds no separator. *)

Lemma b64_char_free sep n : n < 64 → b64_index sep = None → b64_char n ≠ sep.
Proof.
  intros Hn Hs <-. pose proof (proj1 (forallb_forall _ _) b64_sound_all n (proj1 (list_elem_of_In _ _) (below_spec 64 n Hn))) as H.
  apply andb_true_iff in H as [H1 _]. apply bool_decide_eq_true in H1. congruence.
Qed.

Lemma b64_encode_free sep s : b64_index sep = None → free_of sep (b64_encode s) = true.
Proof.
  intros Hs. assert (∀ n t, n < 64 → free_of sep t = true → free_of sep (String (b64_char n) t) = true) as Hc.
  { intros n t Hn Ht. cbn [free_of]. rewrite Ht, bool_decide_true; [done|by apply b64_char_free]. }
  assert (∀ c, byte_of c / 4 < 64) as D4 by (intros; by apply div_lt_byte; lia).
  assert (∀ c, byte_of c / 16 < 16) as D16 by (intros; by apply div_lt_byte; lia).
  assert (∀ c, byte_of c / 64 < 4) as D64 by (intros; by apply div_lt_byte; lia).
  assert (∀ c, byte_of c mod 4 < 4) as M4 by (intros; by apply Nat.mod_upper_bound).
  assert (∀ c, byte_of c mod 16 < 16) as M16 by (intros; by apply Nat.mod_upper_bound).
  assert (∀ c, byte_of c mod 64 < 64) as M64 by (intros; by apply Nat.mod_upper_bound).
  induction s as [|a|a b|a b c s IH] using string_ind3; cbn [b64_encode]; [done|..];
    try specialize (D4 a); try specialize (M4 a); try specialize (D16 b); try specialize (M16 b);
    try specialize (D64 c); try specialize (M64 c); repeat (apply Hc; [lia|]); done.
Qed.
