(* ===== verification/Lockout.v ===== *)
(** * The lockout of identities that fail to log in (api/shared/authlockout.go)

    The tracker as a state, one definition per method; the order in which Go
    ranges over the map is an argument.  Warnings are not modelled, the latch
    that limits them is. *)

From S2P Require Import Prelude GoStrings Encoding Domain Db.

Module Lockout.

Definition maxTrackedIdentities : Z := 250000.
Definition sweepInterval : Z := 60 * SqlTime.nano.
Definition MaxIdentityLen : nat := 254.
Definition defaultAuthLockout : Z := 15 * 60 * SqlTime.nano.
Definition defaultAuthFailWindow : Z := 10 * 60 * SqlTime.nano.

(** The zero [time.Time]: the first instant of year 1. *)

Definition zero_time : Z := -62135596800 * SqlTime.nano.

Record RateLimitConfig := MkRateLimit {
  AuthFailMax : Z;
  AuthFailWindow : Z;
  AuthLockout : Z;
  MaxTrackedIdentities : Z
}.

Record failState := MkFail {
  failCount : Z;
  firstFailure : Z;
  lockedUntil : Z
}.

Record Tracker := MkTracker {
  cfg : RateLimitConfig;
  states : gmap string failState;
  maxEntries : Z;
  refusingWarned : bool
}.

Definition NewAuthLockout (c : RateLimitConfig) : Tracker :=
  let maxEntries := if bool_decide (MaxTrackedIdentities c <= 0)%Z then maxTrackedIdentities else MaxTrackedIdentities c in
  MkTracker
    (MkRateLimit (AuthFailMax c)
       (if bool_decide (AuthFailWindow c <= 0)%Z then defaultAuthFailWindow else AuthFailWindow c)
       (if bool_decide (AuthLockout c <= 0)%Z then defaultAuthLockout else AuthLockout c)
       (MaxTrackedIdentities c))
    ∅ maxEntries false.

Definition with_states (a : Tracker) (st : gmap string failState) : Tracker :=
  MkTracker (cfg a) st (maxEntries a) (refusingWarned a).

Definition with_warned (a : Tracker) (b : bool) : Tracker := MkTracker (cfg a) (states a) (maxEntries a) b.

Definition lockoutKey (identity ip : string) : string :=
  let id := Resource.strings_ToLower (strings_TrimSpace identity) in
  let id := if bool_decide (MaxIdentityLen < String.length id) then take_bytes MaxIdentityLen id else id in
  id +:+ String Ascii.zero ip.

(** ** Eviction *)

Definition sampleSize : nat := 64.

(** The loop: the entries looked at so far, and the victim with its count. *)

Fixpoint sample (now : Z) (visited : nat) (best : option (string * Z)) (l : list (string * failState))
    : option (string * Z) * nat :=
  match l with
  | [] => (best, visited)
  | (key, v) :: rest =>
      let visited := S visited in
      if bool_decide (sampleSize < visited) then (best, visited)
      else if bool_decide (now < lockedUntil v)%Z then sample now visited best rest
      else sample now visited
             (match best with
              | None => Some (key, failCount v)
              | Some (_, lowest) => if bool_decide (failCount v < lowest)%Z then Some (key, failCount v) else best
              end) rest
  end.

(** The map without the victim, if there is one, and the number of entries
    visited. *)

Definition evictOneLocked (order : list (string * failState)) (now : Z) (st : gmap string failState)
    : option (gmap string failState) * nat :=
  let '(best, visited) := sample now 0 None order in
  (match best with Some (victim, _) => Some (delete victim st) | None => None end, visited).

(** ** The methods *)

(** One failure of a tracked identity that is not locked. *)

Definition counted (c : RateLimitConfig) (v : failState) (now : Z) : failState :=
  let v := if andb (bool_decide (0 < failCount v)%Z) (bool_decide (AuthFailWindow c < now - firstFailure v)%Z)
           then MkFail 0 (firstFailure v) (lockedUntil v) else v in
  let v := if bool_decide (failCount v = 0%Z) then MkFail 0 now (lockedUntil v) else v in
  MkFail (failCount v + 1) (firstFailure v) (lockedUntil v).

Definition countFailure (a : Tracker) (key : string) (v : failState) (now : Z) : (Z * bool) * Tracker :=
  if bool_decide (now < lockedUntil v)%Z then ((lockedUntil v, false), with_states a (<[key := v]> (states a)))
  else
    let v := counted (cfg a) v now in
    if bool_decide (AuthFailMax (cfg a) <= failCount v)%Z then
      let until := (now + AuthLockout (cfg a))%Z in
      ((until, true), with_states a (<[key := MkFail 0 (firstFailure v) until]> (states a)))
    else ((zero_time, false), with_states a (<[key := v]> (states a))).

Definition fresh : failState := MkFail 0 zero_time zero_time.

Definition RecordFailure (order : list (string * failState)) (a : Tracker) (identity ip : string) (now : Z)
    : (Z * bool) * Tracker :=
  if bool_decide (AuthFailMax (cfg a) <= 0)%Z then ((zero_time, false), a) else
  let key := lockoutKey identity ip in
  match states a !! key with
  | Some v => countFailure a key v now
  | None =>
      if bool_decide (maxEntries a <= Z.of_nat (size (states a)))%Z then
        match (evictOneLocked order now (states a)).1 with
        | Some st => countFailure (with_states a st) key fresh now
        | None => ((zero_time, false), with_warned a true)
        end
      else countFailure a key fresh now
  end.

Definition LockedUntil (a : Tracker) (identity ip : string) (now : Z) : Z * bool :=
  if bool_decide (AuthFailMax (cfg a) <= 0)%Z then (zero_time, false) else
  match states a !! lockoutKey identity ip with
  | Some v => if bool_decide (now < lockedUntil v)%Z then (lockedUntil v, true) else (zero_time, false)
  | None => (zero_time, false)
  end.

Definition Reset_ (a : Tracker) (identity ip : string) : Tracker :=
  with_states a (delete (lockoutKey identity ip) (states a)).

(** An entry that can still affect a decision. *)

Definition live (c : RateLimitConfig) (now : Z) (v : failState) : bool :=
  orb (bool_decide (now < lockedUntil v)%Z)
    (andb (bool_decide (0 < failCount v)%Z) (bool_decide (now - firstFailure v <= AuthFailWindow c)%Z)).

Definition sweep (a : Tracker) (now : Z) : Tracker :=
  MkTracker (cfg a) (filter (λ kv, live (cfg a) now kv.2 = true) (states a)) (maxEntries a) false.

(** ** The tracker as a state machine *)

Inductive op :=
  | OpFail (identity ip : string)
  | OpReset (identity ip : string)
  | OpSweep.

(** One call under the mutex.  The map is ranged over in any order. *)

Inductive step (now : Z) : Tracker → op → Tracker → Prop :=
  | step_fail a identity ip order r a' :
      order ≡ₚ map_to_list (states a) → RecordFailure order a identity ip now = (r, a') →
      step now a (OpFail identity ip) a'
  | step_reset a identity ip : step now a (OpReset identity ip) (Reset_ a identity ip)
  | step_sweep a : step now a OpSweep (sweep a now).

Record event := MkEvent { at_ : Z; before : Tracker; what : op; after : Tracker }.

(** The calls from the tracker [a] at the time [t], in the order in which they
    got the mutex; the clock does not run backwards. *)

Inductive history : Z → Tracker → list event → Prop :=
  | history_nil t a : history t a []
  | history_cons t a t' o a' l :
      (t <= t')%Z → step t' a o a' → history t' a' l → history t a (MkEvent t' a o a' :: l).

End Lockout.
