(* ===== verification/LockoutTheorems.v ===== *)
(** * Theorems about the lockout

    A lockout in force is never forgotten, the tracker stays within its bound,
    and the number of passwords that can be tried against one identity in a
    window is bounded whatever else is posted. *)

From S2P Require Import Prelude GoStrings Domain Db Lockout.
Import Lockout.

(** ** Well-formed trackers *)

Record wf_config (c : RateLimitConfig) : Prop := {
  wc_max : (1 <= AuthFailMax c)%Z;
  wc_window : (0 < AuthFailWindow c)%Z;
  wc_lockout : (0 < AuthLockout c)%Z
}.

(** Counts stay below the threshold: reaching it locks and starts over. *)

Record wf (a : Tracker) : Prop := {
  wf_cfg : wf_config (cfg a);
  wf_entries : (1 <= maxEntries a)%Z;
  wf_size : (Z.of_nat (size (states a)) <= maxEntries a)%Z;
  wf_counts : ∀ k v, states a !! k = Some v → (0 <= failCount v < AuthFailMax (cfg a))%Z
}.

Lemma wf_new c : (1 <= AuthFailMax c)%Z → wf (NewAuthLockout c).
Proof.
  intros Hc. unfold NewAuthLockout. split; simpl.
  - split; simpl; [done|..]; case_bool_decide; unfold defaultAuthFailWindow, defaultAuthLockout, SqlTime.nano in *; lia.
  - case_bool_decide; unfold maxTrackedIdentities in *; lia.
  - rewrite map_size_empty. case_bool_decide; unfold maxTrackedIdentities in *; lia.
  - intros k v. by rewrite lookup_empty.
Qed.

(** ** The sample *)

(** The victim is one of the entries, and is not locked. *)

Lemma sample_spec now l visited best k n vis :
  sample now visited best l = (Some (k, n), vis) →
  best = Some (k, n) ∨ ∃ v, (k, v) ∈ l ∧ (lockedUntil v <= now)%Z.
Proof.
  revert visited best. induction l as [|[k' v'] l IH]; intros visited best; simpl; [intros [= -> _]; by left|].
  case_bool_decide; [intros [= -> _]; by left|]. case_bool_decide as Hl.
  - intros [|(v & Hv & ?)]%IH; [by left|]. right. exists v. split; [by right|done].
  - intros [Hb|(v & Hv & ?)]%IH; [|right; exists v; split; [by right|done]].
    destruct best as [[kb lo]|]; [case_bool_decide|]; try (by left); injection Hb as <- <-;
      right; exists v'; (split; [left|lia]).
Qed.

Lemma evict_spec order now st st' :
  order ≡ₚ map_to_list st → (evictOneLocked order now st).1 = Some st' →
  ∃ k v, st !! k = Some v ∧ (lockedUntil v <= now)%Z ∧ st' = delete k st.
Proof.
  intros Ho. unfold evictOneLocked. destruct (sample now 0 None order) as [[[k n]|] vis] eqn:Hs; [|done].
  intros [= <-]. apply sample_spec in Hs as [|(v & Hv & ?)]; [done|]. exists k, v. split; [|done].
  apply elem_of_map_to_list. by rewrite <-Ho.
Qed.

(** The loop looks at a bounded number of entries. *)

Lemma sample_bounded now l visited best : visited ≤ sampleSize → (sample now visited best l).2 ≤ S sampleSize.
Proof.
  revert visited best. induction l as [|[k v] l IH]; intros visited best Hv; simpl; [lia|].
  case_bool_decide; simpl; [lia|]. case_bool_decide; apply IH; lia.
Qed.

(** ** One step *)

Definition locked (a : Tracker) (k : string) (now : Z) : Prop :=
  ∃ v, states a !! k = Some v ∧ (now < lockedUntil v)%Z.

#[export] Instance locked_dec a k now : Decision (locked a k now).
Proof.
  destruct (states a !! k) as [v|] eqn:Hv.
  - destruct (decide (now < lockedUntil v)%Z) as [Hl|Hl]; [left; by exists v|right]. intros (v' & ? & ?). by simplify_eq.
  - right. intros (v' & ? & ?). by simplify_eq.
Defined.

Definition counted_entry (c : RateLimitConfig) (v : failState) (now : Z) : failState :=
  if bool_decide (now < lockedUntil v)%Z then v
  else if bool_decide (AuthFailMax c <= failCount (counted c v now))%Z
  then MkFail 0 (firstFailure (counted c v now)) (now + AuthLockout c) else counted c v now.

Lemma countFailure_states a key v now :
  (countFailure a key v now).2 = with_states a (<[key := counted_entry (cfg a) v now]> (states a)).
Proof. unfold countFailure, counted_entry. by repeat case_bool_decide. Qed.

(** What a failure does to the map: the entry of its key is counted; a new key
    may cost the entry of an identity that is not locked, or not be admitted. *)

Inductive fail_effect (now : Z) (key : string) (a : Tracker) : Tracker → Prop :=
  | fe_known v : states a !! key = Some v →
      fail_effect now key a (with_states a (<[key := counted_entry (cfg a) v now]> (states a)))
  | fe_new : states a !! key = None → (Z.of_nat (size (states a)) < maxEntries a)%Z →
      fail_effect now key a (with_states a (<[key := counted_entry (cfg a) fresh now]> (states a)))
  | fe_evict k v : states a !! key = None → states a !! k = Some v → (lockedUntil v <= now)%Z →
      fail_effect now key a (with_states a (<[key := counted_entry (cfg a) fresh now]> (delete k (states a))))
  | fe_refused : states a !! key = None → fail_effect now key a (with_warned a true).

Lemma fail_effect_of order a identity ip now r a' :
  wf_config (cfg a) → order ≡ₚ map_to_list (states a) → RecordFailure order a identity ip now = (r, a') →
  fail_effect now (lockoutKey identity ip) a a'.
Proof.
  intros [Hm _ _] Ho. unfold RecordFailure. rewrite bool_decide_false by lia.
  assert (∀ b v, countFailure b (lockoutKey identity ip) v now = (r, a') →
    a' = with_states b (<[lockoutKey identity ip := counted_entry (cfg b) v now]> (states b))) as Hcf.
  { intros b v Hb. by rewrite <-countFailure_states, Hb. }
  destruct (states a !! lockoutKey identity ip) as [v|] eqn:Hk; [intros ->%Hcf; by constructor|].
  case_bool_decide as Hs.
  - destruct (evictOneLocked order now (states a)).1 as [st|] eqn:He.
    + intros Hr%Hcf. apply evict_spec in He as (k & v & ? & ? & ->); [|done]. rewrite Hr. by apply (fe_evict _ _ a k v).
    + intros [= <- <-]. by constructor.
  - intros ->%Hcf. apply fe_new; [done|lia].
Qed.

Lemma counted_bound c v now : wf_config c → (0 <= failCount v < AuthFailMax c)%Z →
  (0 <= failCount (counted_entry c v now) < AuthFailMax c)%Z.
Proof.
  intros [Hm Hw Hl] Hv. unfold counted_entry. case_bool_decide; [done|]. case_bool_decide as Hc; [simpl; lia|].
  unfold counted in *. repeat case_bool_decide; simpl in *; repeat case_bool_decide; simpl in *; lia.
Qed.

Lemma step_wf now a o a' : wf a → step now a o a' → wf a' ∧ cfg a' = cfg a ∧ maxEntries a' = maxEntries a.
Proof.
  intros [Hc Hn Hs Hk] Hst. destruct Hst as [a identity ip order r a' Ho H|a identity ip|a].
  - apply fail_effect_of in H; [|done..]. set (key := lockoutKey identity ip) in *.
    assert (0 <= failCount fresh < AuthFailMax (cfg a))%Z as Hf by (simpl; destruct Hc; lia).
    destruct H as [v Hv|Hv Hlt|k v Hv Hkv Hu|Hv]; (split; [|done]); split; simpl; try done.
    + rewrite map_size_insert_Some by eauto. done.
    + intros k0 v0 [[_ <-]|[_ ?]]%lookup_insert_Some; [by apply counted_bound, (Hk key)|by apply (Hk k0)].
    + rewrite map_size_insert_None by done. lia.
    + intros k0 v0 [[_ <-]|[_ ?]]%lookup_insert_Some; [by apply counted_bound|by apply (Hk k0)].
    + rewrite map_size_insert_None by (rewrite lookup_delete_None; by right). rewrite map_size_delete_Some by eauto.
      assert (size (states a) ≠ 0) by (intros Hz%map_size_empty_inv; by rewrite Hz, lookup_empty in Hkv). lia.
    + intros k0 v0 [[_ <-]|[_ [_ ?]%lookup_delete_Some]]%lookup_insert_Some; [by apply counted_bound|by apply (Hk k0)].
  - split; [|done]. split; simpl; try done.
    + etrans; [|exact Hs]. apply inj_le. apply map_subseteq_size, delete_subseteq.
    + intros k0 v0 [_ ?]%lookup_delete_Some. by apply (Hk k0).
  - split; [|done]. split; simpl; try done.
    + etrans; [|exact Hs]. apply inj_le. apply map_subseteq_size, map_filter_subseteq.
    + intros k0 v0 [? _]%map_lookup_filter_Some. by apply (Hk k0).
Qed.

(** ** One identity *)

(** The key a failure or a reset is about. *)

Definition about (o : op) : option string :=
  match o with
  | OpFail identity ip | OpReset identity ip => Some (lockoutKey identity ip)
  | OpSweep => None
  end.

Definition is_sweep (o : op) : bool := match o with OpSweep => true | _ => false end.

Definition is_fail (o : op) : bool := match o with OpFail _ _ => true | _ => false end.

(** What one call does to the entry of one key. *)

Inductive key_effect (now : Z) (a : Tracker) (k : string) (o : op) : option failState → Prop :=
  | ke_same : (about o = Some k → states a !! k = None) → key_effect now a k o (states a !! k)
  | ke_counted : about o = Some k → is_fail o = true →
      key_effect now a k o (Some (counted_entry (cfg a) (default fresh (states a !! k)) now))
  | ke_evicted v : about o ≠ Some k → is_fail o = true → states a !! k = Some v → (lockedUntil v <= now)%Z →
      key_effect now a k o None
  | ke_reset : about o = Some k → is_fail o = false → key_effect now a k o None
  | ke_swept v : o = OpSweep → states a !! k = Some v → live (cfg a) now v = false → key_effect now a k o None.

Lemma step_key now a o a' k : wf a → step now a o a' → key_effect now a k o (states a' !! k).
Proof.
  intros Hwf Hst. destruct Hst as [a identity ip order r a' Ho H|a identity ip|a].
  - apply fail_effect_of in H; [|apply Hwf|done]. set (key := lockoutKey identity ip) in *.
    destruct (decide (key = k)) as [<-|Hne].
    + destruct H as [v Hv|Hv Hlt|k' v Hv Hkv Hu|Hv]; simpl; rewrite ?lookup_insert_eq.
      * pose proof (ke_counted now a key (OpFail identity ip) eq_refl eq_refl) as Hc. by rewrite Hv in Hc.
      * pose proof (ke_counted now a key (OpFail identity ip) eq_refl eq_refl) as Hc. by rewrite Hv in Hc.
      * pose proof (ke_counted now a key (OpFail identity ip) eq_refl eq_refl) as Hc. by rewrite Hv in Hc.
      * by apply ke_same.
    + destruct H as [v Hv|Hv Hlt|k' v Hv Hkv Hu|Hv]; simpl; rewrite ?lookup_insert_ne by done;
        try (apply ke_same; intros [= ?]; done).
      destruct (decide (k' = k)) as [->|]; [rewrite lookup_delete_eq|rewrite lookup_delete_ne by done].
      * eapply ke_evicted; [intros [= ?]; done|done..].
      * apply ke_same. intros [= ?]. done.
  - simpl. destruct (decide (lockoutKey identity ip = k)) as [<-|Hne].
    + rewrite lookup_delete_eq. by apply ke_reset.
    + rewrite lookup_delete_ne by done. apply ke_same. intros [= ?]. done.
  - simpl. destruct (states a !! k) as [v|] eqn:Hv.
    + destruct (live (cfg a) now v) eqn:Hl.
      * assert (filter (λ kv, live (cfg a) now kv.2 = true) (states a) !! k = Some v) as -> by
          (apply map_lookup_filter_Some; done). rewrite <-Hv. by apply ke_same.
      * assert (filter (λ kv, live (cfg a) now kv.2 = true) (states a) !! k = None) as ->.
        { apply map_lookup_filter_None. right. intros v' Hv'. simplify_eq. simpl. by rewrite Hl. }
        by eapply ke_swept.
    + assert (filter (λ kv, live (cfg a) now kv.2 = true) (states a) !! k = None) as ->.
      { apply map_lookup_filter_None. by left. }
      rewrite <-Hv. by apply ke_same.
Qed.

(** ** A lockout in force *)

Lemma step_locked now a o a' k v :
  wf a → step now a o a' → states a !! k = Some v → (now < lockedUntil v)%Z →
  (∀ identity ip, o = OpReset identity ip → lockoutKey identity ip ≠ k) → states a' !! k = Some v.
Proof.
  intros Hwf Hst Hv Hl Hr. destruct (step_key _ _ _ _ k Hwf Hst) as [Hs|Ha Hf|v' Hn Hf Hv' Hu|Ha Hf|v' Ho Hv' Hd].
  - done.
  - rewrite Hv. simpl. unfold counted_entry. by rewrite bool_decide_true.
  - simplify_eq. lia.
  - destruct o as [identity ip|identity ip|]; try done. destruct (Hr identity ip eq_refl). by injection Ha.
  - simplify_eq. unfold live in Hd. by rewrite bool_decide_true in Hd.
Qed.

Lemma LockedUntil_locked a identity ip now v :
  wf a → states a !! lockoutKey identity ip = Some v → (now < lockedUntil v)%Z →
  LockedUntil a identity ip now = (lockedUntil v, true).
Proof.
  intros [[Hm _ _] _ _ _] Hv Hl. unfold LockedUntil. rewrite bool_decide_false by lia. rewrite Hv. by rewrite bool_decide_true.
Qed.

Lemma LockedUntil_true a identity ip now until :
  LockedUntil a identity ip now = (until, true) →
  ∃ v, states a !! lockoutKey identity ip = Some v ∧ lockedUntil v = until ∧ (now < until)%Z.
Proof.
  unfold LockedUntil. case_bool_decide; [done|]. destruct (states a !! _) as [v|]; [|done].
  case_bool_decide; [|done]. intros [= <-]. by exists v.
Qed.

(** ** Executing a history *)

Definition exec (now : Z) (a : Tracker) (o : op) : Tracker :=
  match o with
  | OpFail identity ip => (RecordFailure (map_to_list (states a)) a identity ip now).2
  | OpReset identity ip => Reset_ a identity ip
  | OpSweep => sweep a now
  end.

Lemma exec_step now a o : step now a o (exec now a o).
Proof. destruct o; simpl; try constructor. eapply step_fail; [reflexivity|apply surjective_pairing]. Qed.

Fixpoint replay (a : Tracker) (l : list (Z * op)) : list event :=
  match l with
  | [] => []
  | (now, o) :: l => MkEvent now a o (exec now a o) :: replay (exec now a o) l
  end.

Fixpoint in_order (t : Z) (l : list (Z * op)) : bool :=
  match l with
  | [] => true
  | (now, _) :: l => andb (bool_decide (t <= now)%Z) (in_order now l)
  end.

Lemma replay_history t a l : in_order t l = true → history t a (replay a l).
Proof.
  revert t a. induction l as [|[now o] l IH]; intros t a; simpl; [constructor|]. intros [Ht Hl]%andb_true_iff. unbool.
  econstructor; [done|apply exec_step|by apply IH].
Qed.

(** A tracker of two entries, three failures to a lockout, and two identities
    on it: [alice], locked after three failures, and [bob]. *)

Definition example_config : RateLimitConfig := MkRateLimit 3 (600 * SqlTime.nano) (900 * SqlTime.nano) 2.
Definition example_new : Tracker := NewAuthLockout example_config.
Definition alice : op := OpFail " Alice@example.com" "203.0.113.7".
Definition bob : op := OpFail "bob@example.com" "203.0.113.7".
Definition carol : op := OpFail "carol@example.com" "198.51.100.9".
Definition alice_key : string := lockoutKey "alice@example.com" "203.0.113.7".
Definition example_locked : Tracker := exec 2 (exec 1 (exec 0 example_new alice) alice) alice.
Definition example_after : list event := replay example_locked [(3, bob); (4, carol); (5, alice); (6, OpSweep)]%Z.

Lemma example_wf l : wf (foldl (λ a p, exec p.1 a p.2) example_new l).
Proof.
  assert (wf example_new) as H by (by apply wf_new). revert H. generalize example_new. induction l as [|[t o] l IH]; intros a H; [done|].
  simpl. apply IH. by apply (step_wf t a o); [|apply exec_step].
Qed.

(** C27: a lockout in force is never forgotten, and the tracker stays within its
    bound.  Whatever is posted, by anyone, and however the map is ranged over:
    from the moment an identity is reported locked until its deadline, every
    later question gets the same deadline, not extended by further attempts,
    unless this very identity is reset; and at no point are there more entries
    than the bound, which is at least one. *)
Theorem lockout_is_kept a t identity ip until l :
  wf a → history t a l → LockedUntil a identity ip t = (until, true) →
  (∀ ev id' ip', ev ∈ l → what ev = OpReset id' ip' → lockoutKey id' ip' ≠ lockoutKey identity ip) →
  ∀ ev, ev ∈ l →
    (Z.of_nat (size (states (after ev))) <= maxEntries a)%Z ∧
    ∀ now, (at_ ev < until)%Z → (now < until)%Z → LockedUntil (after ev) identity ip now = (until, true).
Proof.
  intros Hwf Hh (v & Hv & Hu & Ht)%LockedUntil_true Hr.
  assert ((t < until)%Z → states a !! lockoutKey identity ip = Some v) as Hk by done. clear Hv Ht. revert Hk.
  induction Hh as [t a|t a t' o a' l Hle Hst Hh IH]; intros Hk ev Hev; [by apply not_elem_of_nil in Hev|].
  pose proof (step_wf _ _ _ _ Hwf Hst) as (Hwf' & _ & Hn).
  assert ((t' < until)%Z → states a' !! lockoutKey identity ip = Some v) as Hk'.
  { intros Ht'. eapply step_locked; [exact Hwf|exact Hst|apply Hk; lia|lia|].
    intros id' ip' ->. by apply (Hr (MkEvent t' a (OpReset id' ip') a') id' ip'); [left|]. }
  apply elem_of_cons in Hev as [->|Hev]; simpl.
  - split; [rewrite <-Hn; apply Hwf'|]. intros now Ht' Hnow. rewrite <-Hu. apply LockedUntil_locked; [done|auto|lia].
  - rewrite <-Hn. refine (IH Hwf' _ Hk' ev Hev). intros ev' id' ip' He. apply Hr. by right.
Qed.

Lemma lockout_is_kept_witness :
  LockedUntil example_locked "alice@example.com" "203.0.113.7" 2 = ((2 + 900 * SqlTime.nano)%Z, true) ∧
  length example_after = 4 ∧
  ∀ ev, ev ∈ example_after →
    (Z.of_nat (size (states (after ev))) <= 2)%Z ∧
    ∀ now, (at_ ev < 2 + 900 * SqlTime.nano)%Z → (now < 2 + 900 * SqlTime.nano)%Z →
      LockedUntil (after ev) "alice@example.com" "203.0.113.7" now = ((2 + 900 * SqlTime.nano)%Z, true).
Proof.
  split; [by vm_compute|]. split; [done|].
  apply (lockout_is_kept example_locked 2 "alice@example.com" "203.0.113.7").
  - apply (example_wf [(0, alice); (1, alice); (2, alice)]%Z).
  - by apply replay_history.
  - by vm_compute.
  - intros ev id' ip' Hev Hw. exfalso. unfold example_after, replay in Hev.
    repeat (apply elem_of_cons in Hev as [->|Hev]; [done|]). by apply elem_of_nil in Hev.
Defined.

(** ** How many passwords can be tried *)

Section guesses.
Context (k : string).

(** A failed attempt at the identity while it was not locked out. *)

Definition guess (ev : event) : bool :=
  andb (is_fail (what ev)) (andb (bool_decide (about (what ev) = Some k)) (negb (bool_decide (locked (before ev) k (at_ ev))))).

(** The entry was dropped although it may have held failures that count: by a
    reset, or to make room for another identity. *)

Definition forgotten (ev : event) : bool :=
  andb (negb (is_sweep (what ev)))
    (andb (bool_decide (is_Some (states (before ev) !! k))) (negb (bool_decide (is_Some (states (after ev) !! k))))).

(** A guess that was not counted: every tracked identity that was looked at was
    locked. *)

Definition uncounted (ev : event) : bool :=
  andb (guess ev) (negb (bool_decide (is_Some (states (after ev) !! k)))).

Fixpoint count (P : event → bool) (l : list event) : Z :=
  match l with
  | [] => 0%Z
  | ev :: l => ((if P ev then 1 else 0) + count P l)%Z
  end.

Context (c : RateLimitConfig) (Hc : wf_config c) (t0 d : Z) (Hd : (d <= AuthFailWindow c ∧ d < AuthLockout c)%Z).

(** How many more guesses fit before [t0 + d]. *)

Definition budget (o : option failState) : Z :=
  match o with
  | None => AuthFailMax c
  | Some v =>
      if bool_decide (t0 + d < lockedUntil v)%Z then 0%Z
      else if bool_decide (failCount v = 0%Z) then AuthFailMax c
      else if bool_decide (t0 <= firstFailure v)%Z then (AuthFailMax c - failCount v)%Z
      else (2 * AuthFailMax c - 1 - failCount v)%Z
  end.

Definition counts_ok (v : failState) : Prop := (0 <= failCount v < AuthFailMax c)%Z.

Lemma budget_bounds o : (∀ v, o = Some v → counts_ok v) → (0 <= budget o <= 2 * AuthFailMax c - 1)%Z.
Proof.
  destruct Hc as [Hm _ _]. intros Ho. unfold budget. destruct o as [v|]; [|lia].
  specialize (Ho v eq_refl). unfold counts_ok in Ho. repeat case_bool_decide; lia.
Qed.

(** A counted guess costs one of the budget. *)

Lemma budget_counted v now :
  counts_ok v → (t0 <= now <= t0 + d)%Z → (lockedUntil v <= now)%Z →
  (budget (Some (counted_entry c v now)) + 1 <= budget (Some v))%Z.
Proof.
  destruct Hc as [Hm Hw Hl]. unfold counts_ok, budget, counted_entry. intros Hv Ht Hu.
  rewrite (bool_decide_false (now < lockedUntil v)%Z) by lia.
  rewrite (bool_decide_false (t0 + d < lockedUntil v)%Z) by lia.
  unfold counted. repeat (case_bool_decide; simpl in *; try lia).
Qed.

Lemma budget_fresh : budget (Some fresh) = AuthFailMax c ∨ (t0 + d < zero_time)%Z.
Proof. unfold budget. simpl. case_bool_decide; [by right|by left]. Qed.

#[local] Arguments budget : simpl never.
#[local] Arguments counted_entry : simpl never.

Lemma step_budget now a o a' :
  wf a → cfg a = c → step now a o a' → (t0 <= now <= t0 + d)%Z → (zero_time <= t0)%Z →
  let ev := MkEvent now a o a' in
  ((if guess ev then 1 else 0) + budget (states a' !! k) <=
    budget (states a !! k) + AuthFailMax c * (if forgotten ev then 1 else 0) + (if uncounted ev then 1 else 0))%Z.
Proof.
  intros Hwf Hcfg Hst Ht Hz ev.
  assert (∀ v, states a !! k = Some v → counts_ok v) as Hok by (intros v Hv; unfold counts_ok; rewrite <-Hcfg; by apply (wf_counts _ Hwf k)).
  pose proof (budget_bounds _ Hok) as Hb. destruct Hc as [Hm Hw Hl].
  pose proof (step_key _ _ _ _ k Hwf Hst) as Hke. assert (budget None = AuthFailMax c) as Hnone by done.
  remember (states a' !! k) as o' eqn:Ho'. unfold uncounted, forgotten. simpl. rewrite <-Ho'.
  destruct Hke as [Hs|Ha Hf|v Hn Hf Hv Hu|Ha Hf|v Ho Hv Hlv].
  - assert (negb (is_sweep o) && (bool_decide (is_Some (states a !! k)) && negb (bool_decide (is_Some (states a !! k)))) = false)
      as -> by (destruct (is_sweep o), (bool_decide _); reflexivity).
    unfold guess. simpl. destruct (is_fail o) eqn:Hf; simpl; [|lia].
    destruct (bool_decide (about o = Some k)) eqn:Ha; simpl; [|lia].
    unbool. rewrite (Hs Ha). rewrite (bool_decide_false (locked a k now)) by (intros (v & ? & _); rewrite (Hs Ha) in *; done).
    simpl. lia.
  - unfold guess. simpl. rewrite Hf, bool_decide_true by done. simpl.
    simpl. rewrite !andb_false_r. rewrite Hcfg.
    destruct (states a !! k) as [v|] eqn:Hv; simpl.
    + destruct (decide (locked a k now)) as [Hlk|Hlk].
      * rewrite (bool_decide_true (locked a k now)) by done. simpl. destruct Hlk as (v' & ? & ?). simplify_eq.
        unfold counted_entry. rewrite bool_decide_true by done. lia.
      * rewrite (bool_decide_false (locked a k now)) by done. simpl.
        assert (lockedUntil v <= now)%Z as Hu by (destruct (decide (now < lockedUntil v)%Z); [destruct Hlk; by exists v|lia]).
        pose proof (budget_counted v now (Hok v eq_refl) Ht Hu). lia.
    + rewrite bool_decide_false by (intros (v & ? & _); congruence). simpl.
      assert (counts_ok fresh) as Hf0 by (unfold counts_ok; simpl; lia).
      assert (lockedUntil fresh <= now)%Z as Hu by (simpl; lia).
      pose proof (budget_counted fresh now Hf0 Ht Hu). destruct budget_fresh; lia.
  - assert (guess ev = false) as ->.
    { unfold guess, ev. simpl. rewrite (bool_decide_false (about o = Some k)) by done. by rewrite andb_false_r. }
    rewrite Hv in Hb |- *. destruct o; [|done..]. simpl in *. lia.
  - assert (guess ev = false) as -> by (unfold guess, ev; simpl; by rewrite Hf).
    destruct (states a !! k) as [v|] eqn:Hv.
    + destruct o; [done| |done]. simpl in *. lia.
    + rewrite andb_false_r. simpl. lia.
  - subst o. assert (guess ev = false) as -> by done. rewrite Hv. simpl.
    assert (AuthFailMax c <= budget (Some v))%Z; [|simpl in *; lia].
    specialize (Hok v Hv). unfold counts_ok in Hok. unfold live in Hlv. apply orb_false_iff in Hlv as [H1 H2].
    unbool. apply andb_false_iff in H2. rewrite Hcfg in *. unfold budget. rewrite bool_decide_false by lia.
    destruct H2 as [H2|H2]; apply bool_decide_eq_false in H2; (case_bool_decide; [lia|]); [lia|].
    rewrite bool_decide_false by lia. lia.
Qed.

End guesses.

(** C28: the number of failures before a lockout is bounded.  In any stretch of
    time no longer than the failure window and shorter than the lockout, the
    failed attempts at one identity that are recorded while it is not locked
    out are at most twice the threshold less one, plus the threshold for each
    time its entry was dropped (by a successful login, or to make room for an
    identity that is not locked), plus the attempts that were not counted
    because every identity looked at was locked; whatever else is posted, and
    whatever order the map is ranged over in.  (Attempts whose password was
    already being compared when the lockout engaged come on top.) *)
Theorem lockout_bounds_guesses a t d k l :
  wf a → (zero_time <= t)%Z → (d <= AuthFailWindow (cfg a) ∧ d < AuthLockout (cfg a))%Z →
  history t a l → (∀ ev, ev ∈ l → (at_ ev <= t + d)%Z) →
  (count (guess k) l <= 2 * AuthFailMax (cfg a) - 1 +
    AuthFailMax (cfg a) * count (forgotten k) l + count (uncounted k) l)%Z.
Proof.
  intros Hwf Hz Hd Hh Hl. set (c := cfg a) in *. assert (wf_config c) as Hc by apply Hwf.
  assert (∀ v, states a !! k = Some v → counts_ok c v) as Hok by (intros v; apply (wf_counts _ Hwf)).
  cut (count (guess k) l <= budget c t d (states a !! k) + AuthFailMax c * count (forgotten k) l + count (uncounted k) l)%Z.
  { pose proof (budget_bounds c Hc t d (states a !! k) Hok). lia. }
  assert (∃ s, s = t ∧ (t <= s)%Z) as (s & Hs & Hts) by (exists t; split; [done|lia]). rewrite <-Hs in Hh. clear Hs.
  assert (cfg a = c) as Hcfg by done. clearbody c. clear Hok. revert Hts Hwf Hcfg Hl.
  induction Hh as [s a|s a t' o a' l Hle Hst Hh IH]; intros Hts Hwf Hcfg Hl; simpl.
  - pose proof (budget_bounds c Hc t d (states a !! k)) as Hb. rewrite <-Hcfg in Hb at 1.
    assert (0 <= budget c t d (states a !! k))%Z; [|lia]. apply budget_bounds; [done|]. intros v Hv. unfold counts_ok.
    rewrite <-Hcfg. by apply (wf_counts _ Hwf k).
  - pose proof (step_wf _ _ _ _ Hwf Hst) as (Hwf' & Hcfg' & _).
    assert (t' <= t + d)%Z as Ht' by (apply (Hl (MkEvent t' a o a')); left).
    pose proof (step_budget k c Hc t d Hd t' a o a' Hwf Hcfg Hst (conj (Z.le_trans _ _ _ Hts Hle) Ht') Hz) as Hb. simpl in Hb.
    assert (∀ ev, ev ∈ l → (at_ ev <= t + d)%Z) as Hl' by (intros ev Hev; apply Hl; by right).
    specialize (IH (Z.le_trans _ _ _ Hts Hle) Hwf' (eq_trans Hcfg' Hcfg) Hl'). lia.
Qed.

(** The entry of [alice] is given up for [carol], so four of her five attempts
    meet no lockout. *)

Definition example_history : list event :=
  replay example_new [(0, alice); (1, bob); (2, carol); (3, alice); (4, alice); (5, alice); (6, alice)]%Z.

Lemma lockout_bounds_guesses_witness :
  map (λ ev, guess alice_key ev) example_history = [true; false; false; true; true; true; false] ∧
  (count (guess alice_key) example_history <= 2 * 3 - 1 +
    3 * count (forgotten alice_key) example_history + count (uncounted alice_key) example_history)%Z.
Proof.
  split; [by vm_compute|].
  apply (lockout_bounds_guesses example_new 0 (600 * SqlTime.nano) alice_key example_history).
  - apply (example_wf []).
  - by vm_compute.
  - split; by vm_compute.
  - by apply replay_history.
  - intros ev Hev. unfold example_history, replay in Hev.
    repeat (apply elem_of_cons in Hev as [->|Hev]; [by vm_compute|]). by apply elem_of_nil in Hev.
Defined.
