(* ===== verification/WebSession.v ===== *)
(** * Browser sessions

    api/shared/session.go (the signed session cookie, CSRF tokens, the
    middleware), api/shared/redirect.go, and the session and state policies of
    ports/output.  The HMAC is an argument ([hmac], raw bytes); the providers of
    the secret, of the policy and of the mount path are arguments too. *)

From S2P Require Import Prelude GoStrings Domain Db Effects Encoding.

(** ** Redirects (redirect.go) *)

(** [path[:strings.IndexAny(path, "?#")]] *)

Fixpoint path_part (s : string) : string :=
  match s with
  | EmptyString => ""
  | String c s' => if bool_decide (byte_of c = 63 ∨ byte_of c = 35) then "" else String c (path_part s')
  end.

Fixpoint exists_byte (P : nat → bool) (s : string) : bool :=
  match s with
  | EmptyString => false
  | String c s' => orb (P (byte_of c)) (exists_byte P s')
  end.

Definition control_byte (n : nat) : bool := orb (bool_decide (n < 32)) (bool_decide (n = 127)).

Definition SafeRedirect (url_parse : string → option URL) (path fallback : string) : string :=
  if bool_decide (path = "") then fallback
  else if exists_byte control_byte path then fallback
  else if exists_byte (λ n, bool_decide (n = 92)) (path_part path) then fallback
  else if strings_HasPrefix path "//" then fallback
  else match url_parse path with
       | None => fallback
       | Some u =>
           if orb (bool_decide (url_Scheme u ≠ "")) (bool_decide (url_Host u ≠ "")) then fallback
           else if negb (strings_HasPrefix path "/") then fallback
           else path
       end.

(** Serving at the root, or a mount whose resolution may fail. *)

Definition ResolvePath (urls : option (string → M string)) (path : string) : M string :=
  match urls with
  | None => mret path
  | Some resolve => got ← try (resolve path); mret (match got with Ok p => p | Err _ => path end)
  end.

(** ** Cookies and their policy *)

Inductive SameSite := SameSiteUnset | SameSiteDefaultMode | SameSiteLaxMode | SameSiteStrictMode | SameSiteNoneMode.

#[global] Instance SameSite_eq_dec : EqDecision SameSite.
Proof. solve_decision. Defined.

Definition ParseSameSite (s : string) : SameSite :=
  let s := Resource.strings_ToLower s in
  if bool_decide (s = "strict") then SameSiteStrictMode
  else if bool_decide (s = "none") then SameSiteNoneMode
  else SameSiteLaxMode.

Record Cookie := MkCookie {
  ck_Name : string;
  ck_Value : string;
  ck_Path : string;
  ck_MaxAge : Z;
  ck_HttpOnly : bool;
  ck_Secure : bool;
  ck_SameSite : SameSite
}.

Record SessionConfig := MkSessionConfig {
  MaxAge : Z;
  Secure : bool;
  SameSite_ : SameSite;
  FailClosed : bool
}.

Definition DefaultSessionMaxAge : Z := 24 * 3600 * SqlTime.nano.

Definition EffectiveMaxAge (c : SessionConfig) : Z :=
  if bool_decide (MaxAge c <= 0)%Z then DefaultSessionMaxAge else MaxAge c.

Definition EffectiveSameSite (c : SessionConfig) : SameSite :=
  if bool_decide (SameSite_ c = SameSiteDefaultMode) then SameSiteLaxMode else SameSite_ c.

Definition CookieMaxAgeSeconds (d : Z) : Z :=
  if bool_decide (d <= 0)%Z then 0
  else (d / SqlTime.nano + (if bool_decide (d mod SqlTime.nano ≠ 0)%Z then 1 else 0))%Z.

(** ** The middleware *)

Module SessionMiddleware.

Record Deps := MkDeps {
  secrets : M string;
  cfg : M SessionConfig;
  CookieName : string;
  secureFloor : bool;
  users : option (string → M (option User.User));   (* GetByID; a store may answer neither user nor error *)
  urls : option (string → M string);
  hmac : string → string → string                   (* key, message: HMAC-SHA256 *)
}.

Definition errSecretUnavailable : err := EOther "session secret unavailable".
Definition errConfigUnavailable : err := EOther "session config unavailable".

Definition bar : Ascii.ascii := Ascii.ascii_of_nat 124.

Section middleware.
Variable m : Deps.

Definition config : M SessionConfig :=
  got ← try (cfg m);
  match got with Ok c => mret c | Err _ => throw errConfigUnavailable end.

Definition failClosed : M bool :=
  got ← try config;
  mret (match got with Ok c => FailClosed c | Err _ => true end).

Definition secureFor (c : SessionConfig) : bool := orb (Secure c) (secureFloor m).

Definition secret : M string :=
  got ← try (secrets m);
  match got with Ok s => mret s | Err _ => throw errSecretUnavailable end.

Definition sign (payload : string) : M string := s ← secret; mret (b64_encode (hmac m s payload)).

(** [userID|expiry|signature] *)

Definition payload (userID : string) (expiry : string) : string := userID +:+ String bar expiry.

Definition validateCookie (value : string) : M string :=
  match strings_SplitN bar value 3 with
  | [userID; expiryStr; sig] =>
      expected ← sign (payload userID expiryStr);
      _ ← ensure (bool_decide (sig = expected)) (EOther "invalid cookie signature");
      match strconv_ParseInt expiryStr with
      | None => throw (EOther "invalid expiry")
      | Some expiry =>
          now ← time_Now;
          _ ← ensure (negb (bool_decide (expiry < now / SqlTime.nano)%Z)) (EOther "cookie expired");
          mret userID
      end
  | _ => throw (EOther "invalid cookie format")
  end.

Definition cookiePath : M string := ResolvePath (urls m) "/".

Definition SetSessionCookie (userID : string) : M Cookie :=
  c ← config;
  let maxAge := EffectiveMaxAge c in
  now ← time_Now;
  let p := payload userID (strconv_FormatInt ((now + maxAge) / SqlTime.nano)) in
  sig ← sign p;
  path ← cookiePath;
  mret (MkCookie (CookieName m) (p +:+ String bar sig) path (CookieMaxAgeSeconds maxAge) true (secureFor c)
          (EffectiveSameSite c)).

Definition clearCookie : M Cookie :=
  got ← try config;
  path ← cookiePath;
  mret (match got with
        | Ok c => MkCookie (CookieName m) "" path (-1) true (secureFor c) (EffectiveSameSite c)
        | Err _ => MkCookie (CookieName m) "" path (-1) true (secureFloor m) SameSiteLaxMode
        end).

(** What the wrapped handler is called with: the user on the context, and the
    cookies already set; or the answer 500. *)

Inductive Wrapped :=
  | InternalError
  | Next (user : option string) (set : list Cookie).

Definition rejectCookie : M Wrapped := c ← clearCookie; mret (Next None [c]).

Definition Wrap (cookie : option string) : M Wrapped :=
  match cookie with
  | None | Some "" => mret (Next None [])
  | Some value =>
      got ← try (validateCookie value);
      match got with
      | Err x => if bool_decide (x = errSecretUnavailable) then mret InternalError else mret (Next None [])
      | Ok userID =>
          match users m with
          | None => mret (Next (Some userID) [])
          | Some lookup =>
              u ← try (lookup userID);
              match u with
              | Ok (Some u) => if User.IsActive u then mret (Next (Some userID) []) else rejectCookie
              | Err ErrUserNotFound => rejectCookie
              | Ok None | Err _ =>
                  closed ← failClosed;
                  if closed : bool then rejectCookie else mret (Next (Some userID) [])
              end
          end
      end
  end.

(** ** CSRF tokens and other signatures *)

Definition CSRFToken (cookieValue : string) : M string :=
  s ← secret; mret (b64_encode (hmac m (s +:+ "csrf") cookieValue)).

Definition ValidateCSRF (cookieValue token : string) : M bool :=
  expected ← CSRFToken cookieValue; mret (bool_decide (expected = token)).

Definition DeriveKey (s purpose : string) : string := hmac m s purpose.

Definition MACFor (purpose input : string) : M string :=
  s ← secret; mret (b64_encode (hmac m (DeriveKey s purpose) input)).

Definition VerifyMAC (purpose input mac : string) : M bool :=
  expected ← MACFor purpose input; mret (bool_decide (expected = mac)).

End middleware.
End SessionMiddleware.
