(* ===== verification/UserCache.v ===== *)
(** * The cache in front of the accounts

    adapters/cache/bounded.go and adapters/storage/user_cache.go: the bounded
    cache with an expiry per entry, and the user store that keeps what
    [GetByID] found in it.  A lookup is not atomic (load, query, store), so the
    store is modelled as a system of steps in which lookups, writes to the
    table and invalidations of many requests interleave; the order in which Go
    ranges over a map is an argument. *)

From S2P Require Import Prelude GoStrings Domain Db Effects Stores.

(** ** The bounded cache (adapters/cache/bounded.go) *)

Module BoundedCache.
Section cache.
Context {T : Type}.

Record ttlEntry := MkEntry { val : T; expiresAt : Z }.

Record Cache := MkCache { ttl : Z; maxSize : Z; m : gmap string ttlEntry }.

Definition NewMemoryTTLBounded (ttl maxSize : Z) : Cache := MkCache ttl maxSize ∅.

Definition with_m (c : Cache) (m' : gmap string ttlEntry) : Cache := MkCache (ttl c) (maxSize c) m'.

Definition Load (now : Z) (key : string) (c : Cache) : option T * Cache :=
  match m c !! key with
  | None => (None, c)
  | Some e =>
      if andb (bool_decide (0 < ttl c)%Z) (bool_decide (expiresAt e < now)%Z) then (None, with_m c (delete key (m c)))
      else (Some (val e), c)
  end.

(** The loop over the map, in the order [l]. *)

Fixpoint nearest (best : option (string * Z)) (l : list (string * ttlEntry)) : option (string * Z) :=
  match l with
  | [] => best
  | (k, e) :: rest =>
      nearest (match best with
               | None => Some (k, expiresAt e)
               | Some (_, oldest) => if bool_decide (expiresAt e < oldest)%Z then Some (k, expiresAt e) else best
               end) rest
  end.

Definition evictNearestExpiry (order : list (string * ttlEntry)) (c : Cache) : Cache :=
  match nearest None order with
  | Some (k, _) => with_m c (delete k (m c))
  | None => c
  end.

Definition Store (order : list (string * ttlEntry)) (now : Z) (key : string) (v : T) (c : Cache) : Cache :=
  let c' := if andb (negb (bool_decide (is_Some (m c !! key))))
                  (andb (bool_decide (0 < maxSize c)%Z) (bool_decide (maxSize c <= Z.of_nat (size (m c)))%Z))
            then evictNearestExpiry order c else c in
  with_m c' (<[key := MkEntry v (now + ttl c)%Z]> (m c')).

Definition Invalidate (key : string) (c : Cache) : Cache := with_m c (delete key (m c)).

End cache.
Arguments ttlEntry : clear implicits.
Arguments Cache : clear implicits.
End BoundedCache.

(** ** The cached user store (adapters/storage/user_cache.go) *)

Module cachedUserStore.

Record Entry := MkEntry { snapshot : option User.User; notFound : bool }.

(** A hit, and a miss: what the inner store answered becomes the answer, and
    the entry to store, if any. *)

Definition hit (e : Entry) : res User.User :=
  if notFound e then Err ErrUserNotFound
  else match snapshot e with
       | None => Err ErrStoreReturnedNoUser
       | Some u => Ok u
       end.

Definition miss (r : res (option User.User)) : res User.User * option Entry :=
  match r with
  | Ok None => (Err ErrStoreReturnedNoUser, None)
  | Ok (Some u) => (Ok u, Some (MkEntry (Some u) false))
  | Err ErrUserNotFound => (Err ErrUserNotFound, Some (MkEntry None true))
  | Err x => (Err x, None)
  end.

(** The tables, the cache, and the lookups between their query and their store:
    the id, the entry, and when the row was read. *)

Record Sys := MkSys {
  db : DB;
  cache : BoundedCache.Cache Entry;
  flight : list (string * Entry * Z)
}.

Inductive label :=
  | LWrite                                        (* a write to the tables becomes visible *)
  | LInvalidate (id : string)                     (* after Update or Delete *)
  | LHit (id : string) (r : res User.User)        (* GetByID answers from the cache *)
  | LMiss (id : string)                           (* GetByID found no entry *)
  | LRead (id : string) (r : res User.User)       (* GetByID answers from the store *)
  | LStore (id : string).                         (* and caches what it read *)

Section steps.

(** How long a lookup may take between its query and its store. *)

Context (delay : Z).

Inductive step (now : Z) : Sys → label → Sys → Prop :=
  | step_write s d : step now s LWrite (MkSys d (cache s) (flight s))
  | step_invalidate s id : step now s (LInvalidate id) (MkSys (db s) (BoundedCache.Invalidate id (cache s)) (flight s))
  | step_hit s id e c : BoundedCache.Load now id (cache s) = (Some e, c) →
      step now s (LHit id (hit e)) (MkSys (db s) c (flight s))
  | step_miss s id c : BoundedCache.Load now id (cache s) = (None, c) →
      step now s (LMiss id) (MkSys (db s) c (flight s))
  | step_fault s id x : x ≠ ErrUserNotFound → step now s (LRead id (miss (Err x)).1) s
  | step_read s id r e : r = (match Db.users (db s) !! id with Some u => Ok (Some u) | None => Err ErrUserNotFound end) →
      (miss r).2 = Some e → step now s (LRead id (miss r).1) (MkSys (db s) (cache s) ((id, e, now) :: flight s))
  | step_store s id e t l1 l2 order : flight s = l1 ++ (id, e, t) :: l2 → (now <= t + delay)%Z →
      order ≡ₚ map_to_list (BoundedCache.m (cache s)) →
      step now s (LStore id) (MkSys (db s) (BoundedCache.Store order now id e (cache s)) (l1 ++ l2)).

Record event := MkEvent { at_ : Z; what : label; sys : Sys }.   (* the state it leaves *)

(** The steps of a stretch of time, from a state to a state. *)

Inductive run : Z → Sys → list event → Z → Sys → Prop :=
  | run_nil t s : run t s [] t s
  | run_cons t s t' l s' evs t'' s'' :
      (t <= t')%Z → step t' s l s' → run t' s' evs t'' s'' → run t s (MkEvent t' l s' :: evs) t'' s''.

(** The process starts with an empty cache. *)

Definition boot (ttl maxSize : Z) (d : DB) : Sys := MkSys d (BoundedCache.NewMemoryTTLBounded ttl maxSize) [].

End steps.
End cachedUserStore.
