(* ===== verification/WebSessionTheorems.v ===== *)
(** * Theorems about browser sessions

    Redirects stay on the server, the session cookie is read back until it
    expires and cannot be made by anyone else, and the middleware puts a user on
    a request only for such a cookie. *)

From S2P Require Import Prelude GoStrings Domain Db Effects Order Encoding Stores Accounts Runs Scenario Registry Admin AdminTheorems WebSession.

(** ** Redirects *)

(** The start of the URL parser of a browser (WHATWG), against a base that is
    http or https: leading controls and spaces are stripped, tabs and line
    breaks removed; a scheme, or two slashes of either kind, leave the origin. *)

Fixpoint strip_leading (s : string) : string :=
  match s with
  | String c s' => if bool_decide (byte_of c <= 32) then strip_leading s' else s
  | EmptyString => ""
  end.

Fixpoint remove_breaks (s : string) : string :=
  match s with
  | String c s' => if bool_decide (byte_of c = 9 ∨ byte_of c = 10 ∨ byte_of c = 13) then remove_breaks s' else String c (remove_breaks s')
  | EmptyString => ""
  end.

Definition alpha (n : nat) : bool := bool_decide ((65 <= n ∧ n <= 90) ∨ (97 <= n ∧ n <= 122)).
Definition scheme_byte (n : nat) : bool := orb (alpha n) (bool_decide ((48 <= n ∧ n <= 57) ∨ n = 43 ∨ n = 45 ∨ n = 46)).

Fixpoint scheme_rest (s : string) : bool :=
  match s with
  | String c s' => if bool_decide (byte_of c = 58) then true else andb (scheme_byte (byte_of c)) (scheme_rest s')
  | EmptyString => false
  end.

Definition any_slash (c : Ascii.ascii) : bool := bool_decide (byte_of c = 47 ∨ byte_of c = 92).

Definition leaves_origin (s : string) : bool :=
  match remove_breaks (strip_leading s) with
  | String a (String b s') => orb (andb (any_slash a) (any_slash b)) (andb (alpha (byte_of a)) (scheme_rest (String b s')))
  | _ => false
  end.

Lemma byte_inj c n : n < 256 → byte_of c = n → c = ascii_of n.
Proof. intros _ <-. by rewrite ascii_byte. Qed.

Lemma prefix_slash s : strings_HasPrefix s "/" = true → ∃ s', s = String (ascii_of 47) s'.
Proof. destruct s as [|c s]; [done|]. cbn [strings_HasPrefix]. case_bool_decide as H; [|done]. intros _. exists s. by rewrite <-H. Qed.

Lemma no_breaks s : exists_byte control_byte s = false → remove_breaks s = s.
Proof.
  induction s as [|c s IH]; simpl; [done|]. intros [Hc Hs]%orb_false_iff. unfold control_byte in Hc.
  apply orb_false_iff in Hc as [Hc _]. unbool. rewrite bool_decide_false by lia. by rewrite IH.
Qed.

Lemma rooted_stays s :
  exists_byte control_byte s = false → exists_byte (λ n, bool_decide (n = 92)) (path_part s) = false →
  strings_HasPrefix s "//" = false → strings_HasPrefix s "/" = true → leaves_origin s = false.
Proof.
  intros Hc Hb Hs (s' & ->)%prefix_slash. unfold leaves_origin. simpl.
  rewrite no_breaks by (cbn [exists_byte] in Hc; by apply orb_false_iff in Hc as [_ Hc]).
  destruct s' as [|b s']; [done|]. rewrite orb_false_r. apply bool_decide_false.
  intros [H|H]; apply byte_inj in H; try lia; subst b; done.
Qed.

(** What is accepted, given back as it is. *)

Definition accepted_target (url_parse : string → option URL) (path : string) : bool :=
  andb (strings_HasPrefix path "/") (andb (negb (strings_HasPrefix path "//"))
    (andb (negb (exists_byte control_byte path)) (andb (negb (exists_byte (λ n, bool_decide (n = 92)) (path_part path)))
      match url_parse path with
      | Some u => andb (bool_decide (url_Scheme u = "")) (bool_decide (url_Host u = ""))
      | None => false
      end))).

Lemma SafeRedirect_cases url_parse path fallback :
  SafeRedirect url_parse path fallback = (if accepted_target url_parse path then path else fallback).
Proof.
  unfold SafeRedirect, accepted_target. case_bool_decide as Hp; [by subst|].
  destruct (exists_byte control_byte path), (exists_byte _ (path_part path)), (strings_HasPrefix path "//"),
    (strings_HasPrefix path "/"); simpl; rewrite ?andb_false_r; try done; destruct (url_parse path) as [u|]; try done;
    repeat case_bool_decide; done.
Qed.

(** A redirect never leaves the server.  Whatever is asked for, and however
    the URL parser of the library reads it, the target that the login, the OIDC
    callback and the connect flow redirect to is a rooted path without control
    bytes, which the URL parser of a browser resolves on the same origin; and a
    target is given back as it is when it is such a path without a backslash
    before its query. *)
Theorem safe_redirect_stays url_parse path :
  let r := SafeRedirect url_parse path "/" in
  leaves_origin r = false ∧ strings_HasPrefix r "/" = true ∧ exists_byte control_byte r = false ∧
  r = (if accepted_target url_parse path then path else "/").
Proof.
  cbv zeta. rewrite SafeRedirect_cases. destruct (accepted_target url_parse path) eqn:H; [|done].
  unfold accepted_target in H. rewrite !andb_true_iff, !negb_true_iff in H. destruct H as (H1 & H2 & H3 & H4 & _).
  split; [by apply rooted_stays|done].
Qed.

(** ** The session cookie *)

Import SessionMiddleware.

(** The secret is one key, or cannot be resolved; the tables play no part. *)

Definition one_key (m : Deps) (key : string) : Prop := ∀ e w r w',
  secrets m e w = (r, w') → (r = Ok key ∨ ∃ x, r = Err x) ∧ w_tick w ≤ w_tick w' ∧ w_db w' = w_db w.

Section cookie.
Context (m : Deps) (key : string) (Hkey : one_key m key).

Definition signature (userID expiry : string) : string := b64_encode (hmac m key (payload userID expiry)).

Definition cookie_value (userID expiry : string) : string := payload userID expiry +:+ String bar (signature userID expiry).

Lemma sign_run p e w r w' :
  sign m p e w = (r, w') →
  (r = Ok (b64_encode (hmac m key p)) ∨ r = Err errSecretUnavailable) ∧ w_tick w ≤ w_tick w' ∧ w_db w' = w_db w.
Proof.
  unfold sign, secret, mbind, M_bind, mret, M_ret, try, throw. destruct (secrets m e w) as [r1 w1] eqn:Hs.
  destruct (Hkey _ _ _ _ Hs) as ([->|[x ->]] & ? & ?); intros [= <- <-]; auto.
Qed.

Lemma payload_app userID expiry t : payload userID expiry +:+ t = userID +:+ String bar (expiry +:+ t).
Proof. unfold payload. by rewrite string_app_assoc. Qed.

(** The cookie is taken apart where it was put together. *)

Lemma cookie_parts userID expiry sig :
  free_of bar userID = true → free_of bar expiry = true →
  strings_SplitN bar (payload userID expiry +:+ String bar sig) 3 = [userID; expiry; sig].
Proof. intros Hu He. rewrite payload_app. cbn [strings_SplitN]. by rewrite !Cut_app. Qed.

Lemma validate_run userID z e w r w' :
  free_of bar userID = true → int64_ok z = true →
  validateCookie m (cookie_value userID (strconv_FormatInt z)) e w = (r, w') →
  r = Err errSecretUnavailable ∨
  ∃ n, w_tick w ≤ n ∧ r = (if bool_decide (z < clock e n / SqlTime.nano)%Z then Err (EOther "cookie expired") else Ok userID).
Proof.
  intros Hu Hz. unfold validateCookie, cookie_value. rewrite cookie_parts by (done || by apply FormatInt_free).
  intros [(x & (Hx & _)%sign_run & ->)|(expected & w1 & (Hs & Ht & _)%sign_run & H)]%bind_cases; [left; naive_solver|].
  right. destruct Hs as [[= ->]|]; [|done]. fold (signature userID (strconv_FormatInt z)) in H.
  rewrite (bind_step _ _ _ _ () w1) in H by (by rewrite bool_decide_true). rewrite ParseInt_Format in H by done.
  rewrite (bind_step _ _ _ _ (clock e (w_tick w1)) (after w1 (w_db w1) [])) in H by done.
  exists (w_tick w1). split; [done|]. unfold ensure, throw, mbind, M_bind, mret, M_ret in H.
  case_bool_decide; simpl in H; congruence.
Qed.

(** What a valid cookie is. *)

Definition signed_cookie (value userID : string) (z : Z) : Prop := ∃ expiry,
  value = cookie_value userID expiry ∧ free_of bar userID = true ∧ free_of bar expiry = true ∧ strconv_ParseInt expiry = Some z.

Lemma split3_inv s a b c : strings_SplitN bar s 3 = [a; b; c] →
  s = payload a b +:+ String bar c ∧ free_of bar a = true ∧ free_of bar b = true.
Proof.
  cbn [strings_SplitN]. destruct (strings_Cut bar s) as [[x t]|] eqn:H1; [|done].
  destruct (strings_Cut bar t) as [[y u]|] eqn:H2; [|done]. intros [= <- <- <-].
  apply Cut_inv in H1 as [-> ?]. apply Cut_inv in H2 as [-> ?]. by rewrite payload_app.
Qed.

Lemma validateCookie_ok value userID e w w' :
  validateCookie m value e w = (Ok userID, w') →
  w_db w' = w_db w ∧ ∃ z n, signed_cookie value userID z ∧ w_tick w ≤ n ∧ (clock e n / SqlTime.nano <= z)%Z.
Proof.
  unfold validateCookie. destruct (strings_SplitN bar value 3) as [|a [|b [|c [|]]]] eqn:Hs; try (intros []%throw_ok).
  apply split3_inv in Hs as (-> & Ha & Hb). intros H. mstep H. apply sign_run in Hm as (Hm & Ht & Hd).
  destruct Hm as [[= ->]|]; [|done]. mstep H. unbool. destruct (strconv_ParseInt b) as [z|] eqn:Hz; [|by apply throw_ok in H].
  mstep H. injection Hm0 as <- Hw0. mstep H. apply ret_ok in H as [-> <-]. unbool.
  split; [by subst|]. exists z, (w_tick w1). split; [exists b; by subst c|]. split; [done|lia].
Qed.

End cookie.

Lemma SetSessionCookie_ok m key userID e w c w' :
  one_key m key → SetSessionCookie m userID e w = (Ok c, w') →
  ck_HttpOnly c = true ∧ (secureFloor m = true → ck_Secure c = true) ∧
  ∃ n cf wa wb, cfg m e wa = (Ok cf, wb) ∧ ck_MaxAge c = CookieMaxAgeSeconds (EffectiveMaxAge cf) ∧
    ck_Value c = cookie_value m key userID (strconv_FormatInt ((clock e n + EffectiveMaxAge cf) / SqlTime.nano)).
Proof.
  intros Hkey H. unfold SetSessionCookie in H. mstep H. mstep H. injection Hm0 as <- _. mstep H.
  apply (sign_run m key Hkey) in Hm0 as [[[= ->]|] _]; [|done]. mstep H. apply ret_ok in H as [<- _]. simpl.
  unfold config in Hm. mstep Hm. destruct a1 as [cf|]; [|by apply throw_ok in Hm]. apply ret_ok in Hm as [-> _].
  split; [done|]. split; [unfold secureFor; intros ->; apply orb_true_r|]. by exists (w_tick w0), a, w, w4.
Qed.

Lemma effective_positive cf : (0 < EffectiveMaxAge cf)%Z.
Proof. unfold EffectiveMaxAge, DefaultSessionMaxAge, SqlTime.nano. case_bool_decide; lia. Qed.

Lemma max_age_rounds_up d : (0 < d)%Z →
  (0 < CookieMaxAgeSeconds d)%Z ∧ (d <= CookieMaxAgeSeconds d * SqlTime.nano < d + SqlTime.nano)%Z.
Proof.
  intros Hd. unfold CookieMaxAgeSeconds. rewrite bool_decide_false by lia. unfold SqlTime.nano.
  pose proof (Z.div_mod d 1000000000). pose proof (Z.mod_pos_bound d 1000000000). case_bool_decide; lia.
Qed.

(** The session cookie is read back.  A cookie that was set is hidden from
    scripts, secure when the deployment is, and kept by the browser for a
    positive number of whole seconds, the lifetime rounded up; sent back at any
    time, to any process with the same secret, it is that user until the second
    of its expiry has passed, and refused as expired afterwards; or the secret
    cannot be resolved, which is told apart.  Instants and lifetimes have 64
    bits. *)
Theorem session_round_trip m key userID e w c w1 :
  one_key m key → free_of bar userID = true →
  (∀ n, int64_ok (clock e n) = true) → (∀ wa cf wb, cfg m e wa = (Ok cf, wb) → int64_ok (MaxAge cf) = true) →
  SetSessionCookie m userID e w = (Ok c, w1) →
  ck_HttpOnly c = true ∧ (secureFloor m = true → ck_Secure c = true) ∧
  ∃ n maxAge, let z := ((clock e n + maxAge) / SqlTime.nano)%Z in
    (0 < ck_MaxAge c)%Z ∧ (maxAge <= ck_MaxAge c * SqlTime.nano < maxAge + SqlTime.nano)%Z ∧
    ∀ e' w2 r w3, validateCookie m (ck_Value c) e' w2 = (r, w3) →
      r = Err errSecretUnavailable ∨
      ∃ n', w_tick w2 ≤ n' ∧ r = (if bool_decide (z < clock e' n' / SqlTime.nano)%Z then Err (EOther "cookie expired") else Ok userID).
Proof.
  intros Hkey Hu Hclock Hcfg H. apply (SetSessionCookie_ok _ key) in H as (? & ? & n & cf & wa & wb & Hc & Hma & Hv); [|done].
  split; [done|]. split; [done|]. exists n, (EffectiveMaxAge cf). cbv zeta. rewrite Hma.
  pose proof (effective_positive cf) as Hp. pose proof (max_age_rounds_up _ Hp) as [? ?]. split; [done|]. split; [done|].
  intros e' w2 r w3. rewrite Hv. apply validate_run; [done..|]. specialize (Hclock n). apply Hcfg in Hc.
  unfold int64_ok in *. unbool. apply bool_decide_eq_true.
  assert (EffectiveMaxAge cf < 2 ^ 63)%Z by (unfold EffectiveMaxAge, DefaultSessionMaxAge, SqlTime.nano in *; case_bool_decide; lia).
  unfold SqlTime.nano in *. split; [apply Z.div_le_lower_bound|apply Z.div_lt_upper_bound]; lia.
Qed.

(** ** The middleware *)

Definition policy_open (m : Deps) (e : Env) : Prop := ∃ wa wb c, cfg m e wa = (Ok c, wb) ∧ FailClosed c = false.

Lemma failClosed_false m e w w' : failClosed m e w = (Ok false, w') → policy_open m e.
Proof.
  unfold failClosed, config. intros H. mstep H. destruct a as [c|]; apply ret_ok in H as [H _]; [|done].
  mstep Hm. destruct a; [|by apply throw_ok in Hm]. apply ret_ok in Hm as [-> _]. by exists w, w1, c.
Qed.

Lemma reject_anonymous m e w u set w' : rejectCookie m e w = (Ok (Next (Some u) set), w') → False.
Proof. unfold rejectCookie. intros H. mstep H. by apply ret_ok in H as [H _]. Qed.

(** What the store said of the user that is let through. *)

Definition vouched (m : Deps) (e : Env) (u : string) (w : World) : Prop :=
  match users m with
  | None => True
  | Some lookup => ∃ wa r wb, w_db wa = w_db w ∧ lookup u e wa = (r, wb) ∧
      ((∃ usr, r = Ok (Some usr) ∧ User.IsActive usr = true) ∨
       (r = Ok None ∨ ∃ x, r = Err x ∧ x ≠ ErrUserNotFound) ∧ policy_open m e)
  end.

Lemma Wrap_admits m key cookie e w u set w' :
  one_key m key → Wrap m cookie e w = (Ok (Next (Some u) set), w') →
  ∃ value z n, cookie = Some value ∧ signed_cookie m key value u z ∧ w_tick w ≤ n ∧
    (clock e n / SqlTime.nano <= z)%Z ∧ vouched m e u w.
Proof.
  intros Hkey H. unfold Wrap in H.
  destruct cookie as [value|]; [destruct value as [|x s]|]; try (by apply ret_ok in H as [H _]).
  set (value := String x s) in *. mstep H.
  destruct a as [userID|y]; [|case_bool_decide; by apply ret_ok in H as [H _]].
  apply (validateCookie_ok m key Hkey) in Hm as (Hd & z & n & Hs & Hn & Hz).
  cut (userID = u ∧ vouched m e u w); [intros [-> ?]; by exists value, z, n|]. unfold vouched.
  destruct (users m) as [lookup|]; [|apply ret_ok in H as [[= ->] _]; done]. mstep H.
  assert (∀ r, r = Ok None ∨ (∃ x, r = Err x ∧ x ≠ ErrUserNotFound) → lookup userID e w0 = (r, w1) →
    (closed ← failClosed m; if closed : bool then rejectCookie m else mret (Next (Some userID) [])) e w1 =
      (Ok (Next (Some u) set), w') → userID = u ∧ ∃ wa r wb, w_db wa = w_db w ∧ lookup u e wa = (r, wb) ∧
      ((∃ usr, r = Ok (Some usr) ∧ User.IsActive usr = true) ∨
       (r = Ok None ∨ ∃ x, r = Err x ∧ x ≠ ErrUserNotFound) ∧ policy_open m e)) as Hopen.
  { intros r Hr Hl Hc. mstep Hc. destruct a0; [by apply reject_anonymous in Hc|]. apply ret_ok in Hc as [[= <-] _].
    split; [done|]. exists w0, r, w1. split; [done|]. split; [done|]. right. split; [done|]. by eapply failClosed_false. }
  destruct a as [[usr|]|y].
  - destruct (User.IsActive usr) eqn:Ha; [|by apply reject_anonymous in H]. apply ret_ok in H as [[= ->] _].
    split; [done|]. exists w0, (Ok (Some usr)), w1. split; [done|]. split; [done|]. left. by exists usr.
  - eapply Hopen; [by left|exact Hm|exact H].
  - destruct (decide (y = ErrUserNotFound)) as [->|Hy]; [by apply reject_anonymous in H|].
    eapply Hopen; [right; by exists y|exact Hm|]. destruct y; done.
Qed.

Lemma cookiePath_ok m e w : ∃ p w', cookiePath m e w = (Ok p, w').
Proof.
  unfold cookiePath, ResolvePath. destruct (urls m) as [f|]; [|by exists "/", w].
  unfold mbind, M_bind, mret, M_ret, try. destruct (f "/" e w) as [[p|x] w']; by eexists _, w'.
Qed.

Lemma rejectCookie_ok m e w : ∃ out w', rejectCookie m e w = (Ok out, w') ∧ out ≠ InternalError.
Proof.
  unfold rejectCookie, clearCookie, mbind, M_bind, mret, M_ret, try. destruct (config m e w) as [r w1].
  destruct (cookiePath_ok m e w1) as (p & w2 & ->). by eexists _, w2.
Qed.

Lemma failClosed_ok m e w : ∃ b w', failClosed m e w = (Ok b, w').
Proof. unfold failClosed, mbind, M_bind, mret, M_ret, try. destruct (config m e w) as [r w1]. by eexists _, w1. Qed.

(** Every request is answered, and only an unresolvable secret gets the 500. *)

Lemma Wrap_answers m cookie e w : ∃ out w', Wrap m cookie e w = (Ok out, w') ∧
  (out = InternalError → ∃ value w1, cookie = Some value ∧ validateCookie m value e w = (Err errSecretUnavailable, w1)).
Proof.
  unfold Wrap. destruct cookie as [[|x s]|]; try (by eexists _, w). set (value := String x s).
  unfold mbind, M_bind, mret, M_ret, try. destruct (validateCookie m value e w) as [[userID|y] w1] eqn:Hv.
  2:{ case_bool_decide; eexists _, w1; (split; [done|]); intros; [|done]. subst. by exists value, w1. }
  destruct (users m) as [lookup|]; [|by eexists _, w1]. destruct (lookup userID e w1) as [r w2].
  assert (∃ out w', match failClosed m e w2 with
    | (Ok a, w'0) => (if a : bool then rejectCookie m else λ (_ : Env) (w : World), (Ok (Next (Some userID) []), w)) e w'0
    | (Err x0, w'0) => (Err x0, w'0) end = (Ok out, w') ∧ out ≠ InternalError) as (out & w' & Hfc & Ho).
  { destruct (failClosed_ok m e w2) as (b & w3 & ->). destruct b; [apply rejectCookie_ok|by eexists _, w3]. }
  destruct (rejectCookie_ok m e w2) as (out' & w'' & Hr & Ho').
  destruct r as [[usr|]|y].
  - destruct (User.IsActive usr); [by eexists _, w2|]. by exists out', w''.
  - by exists out, w'.
  - destruct (decide (y = ErrUserNotFound)) as [->|Hy]; [by exists out', w''|].
    exists out, w'. split; [|done]. by destruct y.
Qed.

(** C29: the middleware.  Every request goes on to its handler, but for an
    unresolvable secret, which is a 500 and never an anonymous request.  A
    handler sees a user only if the request carried a cookie with the signature
    of the server's key over this user and an expiry that the clock had not
    passed, and the store either showed the account active, or did not tell
    while the operator's policy, read for this request, is to stay open. *)
Theorem session_admits m key cookie e w :
  one_key m key →
  ∃ out w', Wrap m cookie e w = (Ok out, w') ∧
    match out with
    | InternalError => ∃ value w1, cookie = Some value ∧ validateCookie m value e w = (Err errSecretUnavailable, w1)
    | Next None _ => True
    | Next (Some u) _ => ∃ value z n, cookie = Some value ∧ signed_cookie m key value u z ∧ w_tick w ≤ n ∧
        (clock e n / SqlTime.nano <= z)%Z ∧ vouched m e u w
    end.
Proof.
  intros Hkey. destruct (Wrap_answers m cookie e w) as (out & w' & H & Ho). exists out, w'. split; [done|].
  destruct out as [|[u|] set]; [by apply Ho| |done]. by eapply Wrap_admits.
Qed.

(** ** Disabled accounts *)

Section disabled.
Import AdminService.

(** The store as it is, without the cache. *)

Definition raw_users (id : string) : M (option User.User) := u ← UserStore.GetByID id; mret (Some u).

Definition inactive (uid : string) (d : DB) : Prop := ∀ u, Db.users d !! uid = Some u → User.IsActive u = false.

Definition users_keyed (d : DB) : Prop := keyed User.ID (Db.users d).

Lemma disabled_is_inactive (s : Wiring) uid e w w1 :
  rely (keeps_inv users_keyed) e → users_keyed (w_db w) → DisableUser s uid e w = (Ok tt, w1) → inactive uid (w_db w1).
Proof.
  intros HR Hk H. unfold DisableUser in H. mstep H. apply query_ok in Hm as (n1 & d1 & Hd1 & _ & Hu & ->).
  destruct (Db.users d1 !! uid) as [u0|] eqn:Hu0; [injection Hu as ->|done].
  assert (User.ID a = uid) as Hid by (apply (HR (w_tick w) (w_db w) Hk); by rewrite <-Hd1).
  mstep H. unfold User.Disable in H. case_bool_decide; [by apply throw_ok in H|]. mstep H.
  apply store_ok in Hm0 as (n2 & d2 & d3 & _ & _ & Hf & Hw2). simpl in Hf. rewrite Hid in Hf.
  destruct (Db.users d2 !! uid); [|done]. case_bool_decide; [|done]. destruct (UserStore.taken _ d2); [done|].
  injection Hf as _ <-. assert (w_db w1 = w_db w2) as ->.
  { unfold audit, record_audit in H. injection H as <-. by destruct (has_audit s). }
  subst w2. intros v Hv. unfold after, set_users in Hv. simpl in Hv. by apply lookup_insert_Some in Hv as [[_ <-]|[Hne _]].
Qed.

(** C30: a disabled account is out at once.  After an administrator disabled an
    account, whatever cookie is presented and whatever fails, no request reaches
    a handler as this user, as long as nobody enables the account again, the
    middleware reads the store itself, and the operator's policy is to fail
    closed. *)
Theorem disabled_user_is_out (s : Wiring) m key uid e w w1 cookie e2 w2 r w3 :
  rely (keeps_inv users_keyed) e → users_keyed (w_db w) → DisableUser s uid e w = (Ok tt, w1) →
  keeps_inv (inactive uid) (w_db w1) (w_db w2) → rely (keeps_inv (inactive uid)) e2 →
  one_key m key → users m = Some raw_users → (∀ wa c wb, cfg m e2 wa = (Ok c, wb) → FailClosed c = true) →
  Wrap m cookie e2 w2 = (r, w3) → ∀ u set, r = Ok (Next (Some u) set) → u ≠ uid.
Proof.
  intros HR Hk Hdis Hlater HR2 Hkey Hraw Hclosed H u set -> ->.
  assert (inactive uid (w_db w2)) as Hin by (by apply Hlater; eapply disabled_is_inactive).
  apply (Wrap_admits m key) in H as (value & z & n & _ & _ & _ & _ & Hv); [|done].
  unfold vouched in Hv. rewrite Hraw in Hv. destruct Hv as (wa & r & wb & Hwa & Hl & [(usr & -> & Ha)|[_ (wc & wd & c & Hc & Hf)]]).
  - unfold raw_users in Hl. mstep Hl. apply ret_ok in Hl as [[= <-] _].
    apply query_ok in Hm as (t & d & -> & _ & Hu & _). destruct (Db.users _ !! uid) as [u|] eqn:Hu'; [|done].
    injection Hu as ->. apply (HR2 (w_tick wa)) in Hu'; [congruence|by rewrite Hwa].
  - rewrite (Hclosed wc c wd Hc) in Hf. done.
Qed.

End disabled.

(** ** A browser and an account *)

Module SessionRuns.
Import Scenario.

Definition deps : Deps :=
  MkDeps (mret "key") (mret (MkSessionConfig (3600 * SqlTime.nano) false SameSiteUnset true)) "session" true (Some raw_users) None
    (λ k s, k +:+ "/" +:+ s).

Lemma deps_key : one_key deps "key".
Proof. intros e w r w' [= <- <-]. auto. Qed.

Definition env : Env :=
  MkEnv (λ _, false) (λ _, start) (λ _, "r") (λ _ d, d) (toy_params []) Scenario.config.

Definition issued : res Cookie * World := SetSessionCookie deps "alice" env world.
Definition cookie : string := cookie_value deps "key" "alice" "4600".

Definition disabled : res unit * World := AdminService.DisableUser (AdminService.MkWiring true true true true) "alice" env world.

Lemma world_keyed : users_keyed (w_db world).
Proof. intros k u. simpl. rewrite lookup_singleton_Some. by intros [<- <-]. Qed.

End SessionRuns.

Lemma cookie_issued : ck_Value <$> (match SessionRuns.issued.1 with Ok c => Some c | Err _ => None end) = Some SessionRuns.cookie.
Proof. by vm_compute. Qed.

Lemma session_round_trip_witness :
  ∃ c w1, SessionRuns.issued = (Ok c, w1) ∧ ck_Value c = SessionRuns.cookie ∧ ck_HttpOnly c = true ∧ ck_Secure c = true.
Proof.
  destruct SessionRuns.issued as [[c|] w1] eqn:H; [|by vm_compute in H]. exists c, w1. split; [done|].
  assert (ck_Value c = SessionRuns.cookie) as Hv by (pose proof cookie_issued as Hc; rewrite H in Hc; by injection Hc).
  split; [done|].
  destruct (session_round_trip SessionRuns.deps "key" "alice" SessionRuns.env Scenario.world c w1 SessionRuns.deps_key eq_refl)
    as (? & Hs & n & a & _ & _ & Hr).
  - done.
  - intros wa cf wb [= <- <-]. done.
  - exact H.
  - split; [done|]. by apply Hs.
Defined.

Lemma session_admits_witness :
  ∃ w', Wrap SessionRuns.deps (Some SessionRuns.cookie) SessionRuns.env Scenario.world = (Ok (Next (Some "alice") []), w') ∧
    vouched SessionRuns.deps SessionRuns.env "alice" Scenario.world.
Proof.
  destruct (session_admits SessionRuns.deps "key" (Some SessionRuns.cookie) SessionRuns.env Scenario.world SessionRuns.deps_key)
    as (out & w' & H & Ho).
  pose proof (f_equal fst H) as Hout. vm_compute in Hout. injection Hout as <-. exists w'. split; [done|].
  by destruct Ho as (value & z & n & _ & _ & _ & _ & Hv).
Defined.

Lemma disabled_user_is_out_witness :
  SessionRuns.disabled.1 = Ok tt ∧
  ∀ cookie u set w3, Wrap SessionRuns.deps cookie SessionRuns.env SessionRuns.disabled.2 = (Ok (Next (Some u) set), w3) → u ≠ "alice".
Proof.
  split; [by vm_compute|]. intros cookie u set w3 H.
  refine (disabled_user_is_out (AdminService.MkWiring true true true true) SessionRuns.deps "key" "alice" SessionRuns.env Scenario.world
    SessionRuns.disabled.2 cookie SessionRuns.env SessionRuns.disabled.2 _ w3 _ SessionRuns.world_keyed _ _ _ SessionRuns.deps_key
    eq_refl _ H u set eq_refl).
  - intros n d. exact (λ x, x).
  - by apply run_eq.
  - exact (λ x, x).
  - intros n d. exact (λ x, x).
  - intros wa c wb [= <- <-]. done.
Defined.
