(* ===== verification/UserCacheTheorems.v ===== *)
(** * Theorems about the cache in front of the accounts

    However lookups, writes and invalidations interleave, the cache stays
    within its bound, and an account that is disabled or deleted stops being
    answered as active after the lifetime of an entry and of a lookup. *)

From S2P Require Import Prelude GoStrings Domain Db Effects Stores Scenario UserCache.
Import BoundedCache cachedUserStore.

(** ** The bounded cache *)

Section bounded.
Context {T : Type}.
Implicit Types (c : Cache T) (e : ttlEntry T).

Lemma nearest_spec best (l : list (string * ttlEntry T)) k z :
  nearest best l = Some (k, z) → (∃ z', best = Some (k, z')) ∨ ∃ e, (k, e) ∈ l.
Proof.
  revert best. induction l as [|[k' e'] l IH]; intros best; simpl; [intros ->; left; by exists z|].
  intros [(z' & Hb)|(e & He)]%IH; [|right; exists e; by right].
  destruct best as [[kb lo]|]; [case_bool_decide|]; simplify_eq; eauto; right; exists e'; left.
Qed.

Lemma nearest_some best (l : list (string * ttlEntry T)) : is_Some best ∨ l ≠ [] → is_Some (nearest best l).
Proof.
  revert best. induction l as [|[k e] l IH]; intros best [H|H]; simpl; [done|done|apply IH..]; left.
  - destruct H as [[kb lo] ->]. case_bool_decide; eauto.
  - destruct best as [[kb lo]|]; [case_bool_decide|]; eauto.
Qed.

Definition bounded c : Prop := (0 < maxSize c)%Z → (Z.of_nat (size (m c)) <= maxSize c)%Z.

Lemma evict_size order c : order ≡ₚ map_to_list (m c) → m c ≠ ∅ →
  S (size (m (evictNearestExpiry order c))) = size (m c).
Proof.
  intros Ho Hm. unfold evictNearestExpiry.
  destruct (nearest_some None order) as [[k z] Hk].
  { right. intros ->. apply Permutation_nil_l in Ho. by apply Hm, map_to_list_empty_iff. }
  rewrite Hk. simpl. apply nearest_spec in Hk as [[? ?]|[e He]]; [done|].
  rewrite Ho in He. apply elem_of_map_to_list in He. rewrite map_size_delete_Some by eauto.
  assert (size (m c) ≠ 0) by (by apply map_size_non_empty_iff). lia.
Qed.

Lemma evict_lookup order c k e : m (evictNearestExpiry order c) !! k = Some e → m c !! k = Some e.
Proof. unfold evictNearestExpiry. destruct (nearest None order) as [[k' z]|]; [|done]. simpl. by intros [_ ?]%lookup_delete_Some. Qed.

Lemma evict_params order c : maxSize (evictNearestExpiry order c) = maxSize c ∧ ttl (evictNearestExpiry order c) = ttl c.
Proof. unfold evictNearestExpiry. by destruct (nearest None order) as [[k z]|]. Qed.

Lemma Store_bounded order now k v c : order ≡ₚ map_to_list (m c) → bounded c → bounded (Store order now k v c).
Proof.
  intros Ho Hb. unfold Store, bounded in *. destruct (evict_params order c) as [E _].
  destruct (decide (is_Some (m c !! k))) as [Hk|Hk].
  { rewrite bool_decide_true by done. simpl. by rewrite map_size_insert_Some. }
  rewrite (bool_decide_false (is_Some _)) by done. simpl. rewrite <-eq_None_not_Some in Hk.
  case_bool_decide as Hp; simpl; [|intros; lia]. case_bool_decide as Hs; simpl.
  - rewrite E. intros _. assert (m c ≠ ∅) as Hne by (intros Hm; rewrite Hm, map_size_empty in Hs; lia).
    pose proof (evict_size order c Ho Hne). rewrite map_size_insert_None; [specialize (Hb Hp); lia|].
    destruct (m (evictNearestExpiry order c) !! k) as [e|] eqn:He; [|done]. apply evict_lookup in He. congruence.
  - rewrite map_size_insert_None by done. lia.
Qed.

Lemma Store_lookup order now k v c k' e :
  m (Store order now k v c) !! k' = Some e → (k' = k ∧ e = BoundedCache.MkEntry v (now + ttl c)) ∨ m c !! k' = Some e.
Proof.
  unfold Store. destruct (evict_params order c) as [_ E]. case_match; simpl; rewrite ?E;
    (intros [[-> <-]|[_ ?]]%lookup_insert_Some; [by left|right]); [by eapply evict_lookup|done].
Qed.

Lemma Load_lookup now k c r c' : Load now k c = (r, c') →
  ttl c' = ttl c ∧ maxSize c' = maxSize c ∧ (∀ k' e, m c' !! k' = Some e → m c !! k' = Some e) ∧ (bounded c → bounded c') ∧
  ∀ v, r = Some v → ∃ e, m c !! k = Some e ∧ val e = v ∧ ((0 < ttl c)%Z → (now <= expiresAt e)%Z).
Proof.
  unfold Load. destruct (m c !! k) as [e|] eqn:Hk; [|by intros [= <- <-]]. destruct (_ && _) eqn:Hx; intros [= <- <-]; simpl.
  - split; [done|]. split; [done|]. split; [by intros k' e' [_ ?]%lookup_delete_Some|]. split; [|done].
    unfold bounded. simpl. intros H Hp. specialize (H Hp). rewrite map_size_delete_Some by eauto. lia.
  - do 4 (split; [done|]). intros v [= <-]. exists e. split; [done|]. split; [done|]. intros Ht.
    apply andb_false_iff in Hx as [Hx|Hx]; apply bool_decide_eq_false in Hx; lia.
Qed.

End bounded.

(** ** Steps *)

Section staleness.
Context (delay tt_ : Z) (Htt : (0 < tt_)%Z).

(** What a time [t] bounds: entries last at most a lifetime from now, and rows
    in flight were read by now. *)

Record wf (t : Z) (s : Sys) : Prop := {
  wf_ttl : ttl (cache s) = tt_;
  wf_size : bounded (cache s);
  wf_expiry : ∀ k e, m (cache s) !! k = Some e → (expiresAt e <= t + tt_)%Z;
  wf_flight : ∀ x, x ∈ flight s → (x.2 <= t)%Z
}.

Lemma wf_later t t' s : (t <= t')%Z → wf t s → wf t' s.
Proof.
  intros Ht [H1 H2 H3 H4]. split; [done..| |].
  - intros k e He. specialize (H3 k e He). lia.
  - intros x Hx. specialize (H4 x Hx). lia.
Qed.

Lemma cache_step_wf now s l s' : wf now s → step delay now s l s' → wf now s'.
Proof.
  intros [H1 H2 H3 H4] Hst. destruct Hst as [s d|s id|s id e c Hl|s id c Hl|s id x|s id r e Hr He|s id e t l1 l2 order Hf Hn Ho].
  - by split.
  - split; simpl; [done| | |done].
    + intros Hp. specialize (H2 Hp). simpl. rewrite map_size_delete. destruct (m (cache s) !! id); simpl; lia.
    + intros k e [_ He]%lookup_delete_Some. by eapply H3.
  - apply Load_lookup in Hl as (E1 & E2 & Hl & Hb & _). split; simpl; [congruence|auto|eauto|done].
  - apply Load_lookup in Hl as (E1 & E2 & Hl & Hb & _). split; simpl; [congruence|auto|eauto|done].
  - by split.
  - split; simpl; [done..|]. intros y [->|Hy]%elem_of_cons; [simpl; lia|by apply H4].
  - assert (∀ y, y ∈ l1 ++ l2 → y ∈ flight s) as Hfl by (intros y; rewrite Hf, !elem_of_app, elem_of_cons; tauto).
    split; simpl.
    + unfold Store. destruct (evict_params order (cache s)) as [_ E]. by case_match; simpl; rewrite ?E.
    + by apply Store_bounded.
    + intros k e' [[-> ->]|Hk]%Store_lookup; [simpl; lia|by eapply H3].
    + intros y Hy. by apply H4, Hfl.
Qed.

(** ** An account that is out *)

Context (uid : string) (since : Z).

Definition out (d : DB) : Prop := ∀ u, Db.users d !! uid = Some u → User.IsActive u = false.

Definition out_entry (e : Entry) : Prop := ∀ u, snapshot e = Some u → User.IsActive u = false.

Record gone (s : Sys) : Prop := {
  gone_out : out (db s);
  gone_cache : ∀ e, m (cache s) !! uid = Some e → out_entry (val e) ∨ (expiresAt e <= since + delay + tt_)%Z;
  gone_flight : ∀ e t, (uid, e, t) ∈ flight s → out_entry e ∨ (t <= since)%Z
}.

(** What a lookup of the account may answer. *)

Definition answer_ok (now : Z) (l : label) : Prop :=
  match l with
  | LRead id (Ok u) => id = uid → User.IsActive u = false
  | LHit id (Ok u) => id = uid → (since + delay + tt_ < now)%Z → User.IsActive u = false
  | _ => True
  end.

Lemma miss_out d r e u : r = (match Db.users d !! uid with Some u => Ok (Some u) | None => Err ErrUserNotFound end) →
  out d → miss r = (u, Some e) → out_entry e ∧ ∀ v, u = Ok v → User.IsActive v = false.
Proof.
  intros -> Ho. destruct (Db.users d !! uid) as [v|] eqn:Hv; simpl; intros [= <- <-]; [|done].
  split; intros x [= <-]; by apply Ho.
Qed.

Lemma step_gone now s l s' :
  wf now s → gone s → step delay now s l s' → out (db s') → gone s' ∧ answer_ok now l.
Proof.
  intros [H1 H2 H3 H4] [G1 G2 G3] Hst Hout. destruct Hst as [s d|s id|s id e c Hl|s id c Hl|s id x Hx|s id r e Hr He|s id e t l1 l2 order Hf Hn Ho].
  - by split; [split|].
  - split; [split; simpl; [done| |done]|done]. intros e [_ He]%lookup_delete_Some. by apply G2.
  - apply Load_lookup in Hl as (E1 & E2 & Hl & Hb & Hv). split; [split; simpl; [done| |done]; intros e' He'; by apply G2, Hl|].
    destruct (Hv e eq_refl) as (te & Hte & <- & Hexp). simpl. destruct (hit (val te)) as [u|] eqn:Hh; [|done]. intros -> Hlate.
    rewrite H1 in Hexp. destruct (G2 te Hte) as [Hoe|Hlt]; [|specialize (Hexp Htt); lia].
    unfold hit in Hh. destruct (notFound (val te)); [done|]. destruct (snapshot (val te)) eqn:Hs; [|done]. injection Hh as <-. by apply Hoe.
  - apply Load_lookup in Hl as (E1 & E2 & Hl & Hb & Hv). split; [split; simpl; [done| |done]; intros e' He'; by apply G2, Hl|done].
  - split; [by split|]. simpl. by destruct x.
  - destruct (miss r) as [u oe] eqn:Hm. simpl in He. subst oe. destruct (decide (id = uid)) as [->|Hne].
    + destruct (miss_out _ _ _ _ Hr G1 Hm) as [Hoe Hu]. split; [split; simpl; [done..|]|simpl; destruct u; auto].
      intros e' t [Heq|Hin]%elem_of_cons; [injection Heq as -> ->; by left|by apply G3].
    + split; [split; simpl; [done..|]|simpl; by destruct u].
      intros e' t [Heq|Hin]%elem_of_cons; [by injection Heq as <- _ _|by apply G3].
  - assert (∀ y, y ∈ l1 ++ l2 → y ∈ flight s) as Hfl by (intros y; rewrite Hf, !elem_of_app, elem_of_cons; tauto).
    split; [split; simpl; [done| |]|done].
    + intros e' [[-> ->]|Hk]%Store_lookup; [|by apply G2]. simpl.
      destruct (G3 e t) as [?|?]; [rewrite Hf; apply elem_of_app; right; left|by left|right; lia].
    + intros e' t' Hin. by apply G3, Hfl.
Qed.

Lemma run_gone t s evs t' s' :
  run delay t s evs t' s' → wf t s → gone s → (∀ ev, ev ∈ evs → out (db (sys ev))) →
  ∀ ev, ev ∈ evs → answer_ok (at_ ev) (what ev) ∧ bounded (cache (sys ev)).
Proof.
  induction 1 as [t s|t s t' l s' evs t'' s'' Ht Hst Hr IH]; intros Hw Hg Ho ev Hev; [by apply elem_of_nil in Hev|].
  apply (wf_later t t') in Hw; [|done]. assert (out (db s')) as Ho' by (apply (Ho (MkEvent t' l s')); left).
  destruct (step_gone _ _ _ _ Hw Hg Hst Ho') as [Hg' Ha]. pose proof (cache_step_wf _ _ _ _ Hw Hst) as Hw'.
  apply elem_of_cons in Hev as [->|Hev]; [split; [done|apply Hw']|]. apply IH; [done..| |done]. intros ev' Hev'. apply Ho. by right.
Qed.

End staleness.

Lemma run_wf delay tt_ t s evs t' s' : run delay t s evs t' s' → wf tt_ t s → wf tt_ t' s'.
Proof.
  induction 1 as [|t s t' l s' evs t'' s'' Ht Hst Hr IH]; intros Hw; [done|]. apply IH.
  eapply cache_step_wf; [by eapply wf_later|done].
Qed.

Lemma boot_wf tt_ max d t : wf tt_ t (boot tt_ max d).
Proof.
  split; simpl; [done| | |].
  - intros Hp. simpl in *. rewrite map_size_empty. lia.
  - intros k e. by rewrite lookup_empty.
  - intros x Hx. by apply elem_of_nil in Hx.
Qed.

(** C31: the cache keeps a session alive no longer than its lifetime.  From a
    start with an empty cache, whatever lookups, writes and invalidations of any
    number of requests did before, once an account is disabled or deleted, and
    stays so, a lookup that goes to the store never answers it as active, and a
    lookup that is answered by the cache never does after the lifetime of an
    entry and the time one lookup may take between its query and its store;
    and the cache never holds more than its bound. *)
Theorem cache_bounds_staleness delay lifetime max d t0 before since s after now s' uid :
  (0 < lifetime)%Z → (0 <= delay)%Z → run delay t0 (boot lifetime max d) before since s → run delay since s after now s' →
  out uid (db s) → (∀ ev, ev ∈ after → out uid (db (sys ev))) →
  ∀ ev, ev ∈ after →
    bounded (cache (sys ev)) ∧
    match what ev with
    | LRead id (Ok u) => id = uid → User.IsActive u = false
    | LHit id (Ok u) => id = uid → (since + delay + lifetime < at_ ev)%Z → User.IsActive u = false
    | _ => True
    end.
Proof.
  intros Hl Hdl Hb Ha Ho Hout ev Hev. pose proof (run_wf _ _ _ _ _ _ _ Hb (boot_wf lifetime max d t0)) as Hw.
  assert (gone delay lifetime uid since s) as Hg.
  { split; [done| |].
    - intros e He. right. pose proof (wf_expiry _ _ _ Hw _ _ He). lia.
    - intros e t Hin. right. exact (wf_flight _ _ _ Hw _ Hin). }
  destruct (run_gone _ _ Hl _ _ _ _ _ _ _ Ha Hw Hg Hout ev Hev) as [H1 H2]. by split.
Qed.

(** ** The window that the bound allows for

    A lookup reads the row, the account is disabled and the entry invalidated,
    and the lookup then stores what it read: the account is answered as active
    until the entry expires. *)

Module CacheRuns.

Definition disabled_db : DB := set_users {["alice" := User.set_status Scenario.alice User.StatusDisabled 11]} Scenario.db.
Definition stale : Entry := cachedUserStore.MkEntry (Some Scenario.alice) false.

Definition s0 : Sys := boot 60 1 Scenario.db.
Definition s1 : Sys := MkSys Scenario.db (cache s0) [("alice", stale, 10%Z)].
Definition s2 : Sys := MkSys disabled_db (cache s0) [("alice", stale, 10%Z)].
Definition s3 : Sys := MkSys disabled_db (Invalidate "alice" (cache s0)) [("alice", stale, 10%Z)].
Definition s4 : Sys := MkSys disabled_db (Store [] 13 "alice" stale (cache s3)) [].
Definition s5 : Sys := MkSys disabled_db (Load 74 "alice" (cache s4)).2 [].

Definition before : list event := [MkEvent 10 (LRead "alice" (Ok Scenario.alice)) s1; MkEvent 11 LWrite s2].
Definition after : list event :=
  [MkEvent 12 (LInvalidate "alice") s3; MkEvent 13 (LStore "alice") s4; MkEvent 20 (LHit "alice" (Ok Scenario.alice)) s4;
   MkEvent 74 (LMiss "alice") s5].

Lemma run_before : run 5 0 s0 before 11 s2.
Proof.
  eapply run_cons; [done|by apply (step_read 5 10 s0 "alice" (Ok (Some Scenario.alice)) stale)|]. eapply run_cons; [done|exact (step_write 5 11 s1 disabled_db)|]. apply run_nil.
Qed.

Lemma run_after : run 5 11 s2 after 74 s5.
Proof.
  eapply run_cons; [done|exact (step_invalidate 5 12 s2 "alice")|]. eapply run_cons; [done|by apply (step_store 5 13 s3 "alice" stale 10 [] [] [])|].
  eapply run_cons; [done|by apply (step_hit 5 20 s4 "alice" stale (cache s4))|].
  eapply run_cons; [done|by apply (step_miss 5 74 s4 "alice" (cache s5))|]. apply run_nil.
Qed.

End CacheRuns.

Lemma cache_bounds_staleness_witness :
  MkEvent 20 (LHit "alice" (Ok Scenario.alice)) CacheRuns.s4 ∈ CacheRuns.after ∧
  ∀ ev, ev ∈ CacheRuns.after →
    bounded (cache (sys ev)) ∧
    match what ev with
    | LRead id (Ok u) => id = "alice" → User.IsActive u = false
    | LHit id (Ok u) => id = "alice" → (11 + 5 + 60 < at_ ev)%Z → User.IsActive u = false
    | _ => True
    end.
Proof.
  assert (∀ ev, ev ∈ CacheRuns.after → db (sys ev) = CacheRuns.disabled_db) as Hdb.
  { intros ev Hev. unfold CacheRuns.after in Hev. repeat (apply elem_of_cons in Hev as [->|Hev]; [done|]). by apply elem_of_nil in Hev. }
  assert (out "alice" CacheRuns.disabled_db) as Ho by (intros u; by intros [= <-]).
  split; [right; right; left|].
  apply (cache_bounds_staleness 5 60 1 Scenario.db 0 CacheRuns.before 11 CacheRuns.s2 CacheRuns.after 74 CacheRuns.s5 "alice");
    [done|done|exact CacheRuns.run_before|exact CacheRuns.run_after|done|]. intros ev Hev. by rewrite Hdb.
Defined.
