(* ===== verification/OIDC.v ===== *)
(** * Federated login

    adapters/static/state_codec.go (the signed state), services/oidc.go
    (accounts of an upstream identity provider) and api/public/oauth/oidc.go
    (the two endpoints).  The identity provider, the URL builder and the
    providers of keys and policies are arguments; pages are their status and
    message, and a redirect is the target given to [http.Redirect]. *)

From S2P Require Import Prelude GoStrings Domain Db Effects Crypto Stores Admin Encoding WebSession.

(** ** The state *)

Record State := MkState {
  s_Redirect : string;
  s_Nonce : string;
  s_Verifier : string;
  s_BrowserNonce : string;
  s_IssuedAt : Z
}.

Module StateCodec.

Definition bar : Ascii.ascii := SessionMiddleware.bar.

Section codec.
Variable config : M string.                    (* StateCodecConfigProvider *)
Variable hmac : string → string → string.

Definition resolveKey : M string :=
  key ← config;
  _ ← ensure (negb (bool_decide (key = ""))) (EOther "state codec: empty key");
  mret key.

Definition sign (key payload : string) : string := b64_encode (hmac key payload).

Fixpoint join (l : list string) : string :=
  match l with
  | [] => ""
  | [a] => a
  | a :: l' => a +:+ String bar (join l')
  end.

Definition payload5 (s : State) : string :=
  join [s_Redirect s; s_Nonce s; s_Verifier s; s_BrowserNonce s; strconv_FormatInt (s_IssuedAt s / SqlTime.nano)].

Definition Encode (s : State) : M string :=
  key ← resolveKey;
  mret (b64_encode (payload5 s +:+ String bar (sign key (payload5 s)))).

Definition Decode (b : string) : M State :=
  key ← resolveKey;
  match b64_decode b with
  | None => throw (EOther "state codec: base64 decode")
  | Some raw =>
      match strings_SplitN bar raw 6 with
      | [redirect; nonce; verifier; browserNonce; tsStr; gotSig] =>
          _ ← ensure (bool_decide (gotSig = sign key (join [redirect; nonce; verifier; browserNonce; tsStr])))
                (EOther "state codec: signature mismatch");
          match strconv_ParseInt tsStr with
          | None => throw (EOther "state codec: invalid timestamp")
          | Some ts => mret (MkState redirect nonce verifier browserNonce (ts * SqlTime.nano))
          end
      | _ => throw (EOther "state codec: expected 6 fields")
      end
  end.

End codec.
End StateCodec.

(** ** Accounts of the identity provider (services/oidc.go) *)

Module OIDCFacade.

Record OIDCTokenResult := MkResult { Subject : string; Email : string; Name : string }.

(** [ExchangeCode code nonce verifier], [AuthorizationURL state nonce challenge]. *)

Record Deps := MkDeps {
  ExchangeCode : string → string → string → M OIDCTokenResult;
  AuthorizationURL : string → string → string → M string;
  has_audit : bool
}.

Section service.
Variable f : Deps.

Definition loginFailed (actorID detail : string) : M unit :=
  record_audit (has_audit f) (Audit.NewEvent Audit.ActionUserOIDCLoginFailed actorID "" "" detail).

(** The version is the one [Create] gives. *)

Definition provisionUser (result : OIDCTokenResult) : M User.User :=
  now ← time_Now;
  id ← GenerateRandomString;
  mret {| User.ID := id; User.Email := Email result; User.Name := Name result; User.PasswordHash := "";
          User.IsAdmin := false; User.Status := User.StatusActive; User.IsLocal := false;
          User.ProviderSub := Subject result; User.Version := 0; User.CreatedAt := now; User.UpdatedAt := now |}.

Definition with_profile (u : User.User) (email name : string) (now : Z) : User.User :=
  {| User.ID := User.ID u; User.Email := email; User.Name := name; User.PasswordHash := User.PasswordHash u;
     User.IsAdmin := User.IsAdmin u; User.Status := User.Status u; User.IsLocal := User.IsLocal u;
     User.ProviderSub := User.ProviderSub u; User.Version := User.Version u; User.CreatedAt := User.CreatedAt u;
     User.UpdatedAt := now |}.

Definition changed (new old : string) : string := if bool_decide (new = "") then old else new.

Definition already_exists (r : res unit) : bool := match r with Err ErrUserAlreadyExists => true | _ => false end.

(** The account was found: its status, and what changed upstream. *)

Definition signIn (result : OIDCTokenResult) (u : User.User) : M User.User :=
  if negb (User.IsActive u) then
    _ ← loginFailed (User.ID u) "user disabled";
    throw ErrOIDCAuthFailed
  else
    now ← time_Now;
    let u1 := with_profile u (changed (Email result) (User.Email u)) (changed (Name result) (User.Name u)) now in
    got ← try (UserStore.Update u1);
    done ← (if andb (already_exists got) (negb (bool_decide (User.Email u1 = User.Email u)))
            then let u2 := with_profile u1 (User.Email u) (User.Name u1) now in
                 got ← try (UserStore.Update u2); mret (got, u2)
            else mret (got, u1));
    match done.1 with
    | Ok _ => mret done.2
    | Err x => _ ← loginFailed (User.ID u) "reason=store_error"; throw x
    end.

(** A new account, or the one that a concurrent first sign-in created. *)

Definition provision (result : OIDCTokenResult) : M (User.User * bool) :=
  nu ← provisionUser result;
  got ← try (UserStore.Create nu);
  match got with
  | Ok _ => mret (UserStore.first_version nu, true)
  | Err x =>
      raced ← (if bool_decide (x = ErrUserAlreadyExists)
               then existing ← try (UserStore.GetByProviderSub false (Subject result));
                    mret (match existing with Ok u => Some u | Err _ => None end)
               else mret None);
      match raced with
      | Some u => mret (u, false)
      | None =>
          if bool_decide (x = ErrUserAlreadyExists) then
            _ ← loginFailed "" ("reason=email_in_use provider_sub=" +:+ Subject result);
            throw ErrOIDCEmailInUse
          else
            _ ← loginFailed "" ("reason=store_error provider_sub=" +:+ Subject result);
            throw x
      end
  end.

Definition AuthenticateOIDC (code nonce codeVerifier : string) : M User.User :=
  got ← try (ExchangeCode f code nonce codeVerifier);
  match got with
  | Err ErrOIDCUnavailable => throw ErrOIDCUnavailable
  | Err _ => _ ← loginFailed "" "code exchange failed"; throw ErrOIDCAuthFailed
  | Ok result =>
      found ← try (UserStore.GetByProviderSub false (Subject result));
      p ← match found with
          | Ok u => mret (u, false)
          | Err ErrUserNotFound => provision result
          | Err x =>
              _ ← loginFailed "" ("reason=store_error provider_sub=" +:+ Subject result);
              throw x
          end;
      u ← (if (p.2 : bool) then mret p.1 else signIn result p.1);
      _ ← record_audit (has_audit f) (Audit.NewEvent Audit.ActionUserOIDCLogin (User.ID u) "" "" "");
      mret u
  end.

End service.
End OIDCFacade.

(** ** The endpoints (api/public/oauth/oidc.go) *)

Module oidcHandler.

Definition oidcStateCookieName : string := "authserver_oidc_state".
Definition oidcStateClockSkew : Z := - (60 * SqlTime.nano).
Definition DefaultOIDCStateMaxAge : Z := 10 * 60 * SqlTime.nano.

Definition EffectiveStateMaxAge (maxAge : Z) : Z := if bool_decide (maxAge <= 0)%Z then DefaultOIDCStateMaxAge else maxAge.

Record Handler := MkHandler {
  oidc : OIDCFacade.Deps;
  session : SessionMiddleware.Deps;
  codecKey : M string;
  Resolve : string → M string;                (* URLBuilder *)
  stateCfg : M Z                              (* OIDCStateConfigProvider: MaxAge *)
}.

Inductive Answer :=
  | ErrorPage (status : nat) (msg loginURL : string)
  | PlainError (status : nat)
  | RedirectTo (status : nat) (target : string).

(** What the browser gets: the cookies set, in order, and the answer. *)

Record Response := MkResponse { cookies : list Cookie; answer : Answer }.

Section handler.
Variable h : Handler.

Definition path (p : string) : M string := ResolvePath (Some (Resolve h)) p.

Definition page (set : list Cookie) (status : nat) (msg : string) : M Response :=
  url ← path "/login"; mret (MkResponse set (ErrorPage status msg url)).

Definition unavailable (set : list Cookie) : M Response :=
  page set 500 "Sign-in is temporarily unavailable. Please try again later.".

Definition expired : M Response := page [] 400 "Invalid or expired state. Please try again.".

Definition setOIDCStateCookie (nonce : string) (maxAge : Z) (policy : SessionConfig) : M Cookie :=
  p ← path "/";
  mret (MkCookie oidcStateCookieName nonce p (CookieMaxAgeSeconds maxAge) true
          (orb (Secure policy) (SessionMiddleware.secureFloor (session h))) (EffectiveSameSite policy)).

Definition clearOIDCStateCookie : M Cookie :=
  got ← try (SessionMiddleware.config (session h));
  p ← path "/";
  mret (match got with
        | Ok c => MkCookie oidcStateCookieName "" p (-1) true
                    (orb (Secure c) (SessionMiddleware.secureFloor (session h))) (EffectiveSameSite c)
        | Err _ => MkCookie oidcStateCookieName "" p (-1) true (SessionMiddleware.secureFloor (session h)) SameSiteLaxMode
        end).

Definition hmac : string → string → string := SessionMiddleware.hmac (session h).

Definition handleOIDCStart (redirect : string) : M Response :=
  let redirect := if bool_decide (redirect = "") then "/" else redirect in
  nonce ← GenerateRandomString;
  verifier ← GenerateRandomString;
  challenge ← ask (λ e, sha256_b64url (params e) verifier);
  cfg ← try (stateCfg h);
  match cfg with
  | Err _ => unavailable []
  | Ok maxAge =>
      policy ← try (SessionMiddleware.config (session h));
      match policy with
      | Err _ => unavailable []
      | Ok policy =>
          browserNonce ← GenerateRandomString;
          c ← setOIDCStateCookie browserNonce (EffectiveStateMaxAge maxAge) policy;
          now ← time_Now;
          state ← try (StateCodec.Encode (codecKey h) hmac (MkState redirect nonce verifier browserNonce now));
          match state with
          | Err _ | Ok "" => page [c] 500 "Authentication failed. Please try again."
          | Ok state =>
              url ← try (OIDCFacade.AuthorizationURL (oidc h) state nonce challenge);
              match url with
              | Err _ => unavailable [c]
              | Ok url => mret (MkResponse [c] (RedirectTo 302 url))
              end
          end
      end
  end.

(** The query of the callback. *)

Record Callback := MkCallback { q_error : string; q_code : string; q_state : string }.

(** The user is who the identity provider says. *)

Definition finish (burned : Cookie) (redirect : string) (u : User.User) : M Response :=
  set ← try (SessionMiddleware.SetSessionCookie (session h) (User.ID u));
  match set with
  | Err _ => unavailable [burned]
  | Ok c =>
      up ← ask (λ e, url_parse (params e));
      dest ← try (Resolve h (SafeRedirect up redirect "/"));
      match dest with
      | Err _ => mret (MkResponse [burned; c] (PlainError 500))
      | Ok dest => mret (MkResponse [burned; c] (RedirectTo 303 dest))
      end
  end.

Definition emailInUse : string :=
  "The email address your identity provider shared is already used by another account on this server, so this sign-in cannot be completed. Ask an administrator to resolve the conflict.".

Definition refuse (burned : Cookie) (x : err) : M Response :=
  match x with
  | ErrOIDCUnavailable => unavailable [burned]
  | ErrOIDCEmailInUse => page [burned] 409 emailInUse
  | ErrOIDCAuthFailed => page [burned] 401 "Authentication failed. Please try again."
  | _ => unavailable [burned]
  end.

Definition handleOIDCCallback (q : Callback) (stateCookie : option string) : M Response :=
  if negb (bool_decide (q_error q = "")) then page [] 400 "Authentication failed. Please try again." else
  if orb (bool_decide (q_code q = "")) (bool_decide (q_state q = "")) then page [] 400 "Missing authorization code or state." else
  decoded ← try (StateCodec.Decode (codecKey h) hmac (q_state q));
  match decoded with
  | Err _ => expired
  | Ok state =>
      cfg ← try (stateCfg h);
      match cfg with
      | Err _ => unavailable []
      | Ok maxAge =>
          now ← time_Now;
          let age := AdminService.time_Sub now (s_IssuedAt state) in
          if orb (bool_decide (EffectiveStateMaxAge maxAge < age)%Z) (bool_decide (age < oidcStateClockSkew)%Z) then expired else
          if negb (bool_decide (stateCookie = Some (s_BrowserNonce state))) then expired else
          burned ← clearOIDCStateCookie;
          got ← try (OIDCFacade.AuthenticateOIDC (oidc h) (q_code q) (s_Nonce state) (s_Verifier state));
          match got with
          | Ok u => finish burned (s_Redirect state) u
          | Err x => refuse burned x
          end
      end
  end.

End handler.
End oidcHandler.
