(* ===== verification/OIDCTheorems.v ===== *)
(** * Theorems about federated login

    The signed state is read back exactly when its fields hold no separator;
    a sign-in reaches the account of the provider's subject and no other; the
    callback signs in only the browser that started, in time. *)

From S2P Require Import Prelude GoStrings Domain Db Effects Crypto Stores Order Accounts Scenario Admin AdminTheorems Encoding WebSession WebSessionTheorems OIDC.

(** ** Separators *)

Fixpoint count_of (sep : Ascii.ascii) (s : string) : nat :=
  match s with
  | EmptyString => 0
  | String c s' => (if bool_decide (c = sep) then 1 else 0) + count_of sep s'
  end.

Lemma count_free sep s : count_of sep s = 0 ↔ free_of sep s = true.
Proof. induction s as [|c s IH]; simpl; [done|]. rewrite andb_true_iff, <-IH. repeat case_bool_decide; naive_solver lia. Qed.

Lemma count_app sep a b : count_of sep (a +:+ b) = count_of sep a + count_of sep b.
Proof. induction a as [|c a IH]; [done|]. cbn [count_of]. change (String c a +:+ b) with (String c (a +:+ b)). cbn [count_of]. lia. Qed.

Lemma Cut_some sep s : count_of sep s ≠ 0 → ∃ a b, strings_Cut sep s = Some (a, b) ∧ count_of sep s = S (count_of sep b).
Proof.
  induction s as [|c s IH]; simpl; [done|]. case_bool_decide as Hc; simpl; [by exists "", s|].
  intros (a & b & -> & Hb)%IH. exists (String c a), b. done.
Qed.

(** Cut at the first [n] separators, the rest holds the others. *)

Lemma SplitN_rest sep n s : n ≤ count_of sep s →
  ∃ l g, strings_SplitN sep s (S n) = l ++ [g] ∧ length l = n ∧ count_of sep g = count_of sep s - n.
Proof.
  revert s. induction n as [|n IH]; intros s Hn; [exists [], s; split; [done|]; split; [done|lia]|].
  destruct (Cut_some sep s) as (a & b & Hc & Hs); [lia|].
  destruct (IH b) as (l & g & Hl & Hlen & Hg); [lia|]. exists (a :: l), g.
  change (strings_SplitN sep s (S (S n))) with
    (match strings_Cut sep s with Some (a, b) => a :: strings_SplitN sep b (S n) | None => [s] end).
  rewrite Hc, Hl. split; [done|]. simpl. split; lia.
Qed.

(** ** The state codec *)

Section codec.
Import StateCodec.
Context (config : M string) (hmac : string → string → string) (key : string).
Context (Hkey : ∀ e w r w', config e w = (r, w') → r = Ok key ∨ ∃ x, r = Err x).

(** No field holds the separator. *)

Definition plain_fields (s : State) : bool :=
  andb (free_of bar (s_Redirect s)) (andb (free_of bar (s_Nonce s)) (andb (free_of bar (s_Verifier s)) (free_of bar (s_BrowserNonce s)))).

(** The state with its instant cut to the second. *)

Definition to_second (s : State) : State :=
  MkState (s_Redirect s) (s_Nonce s) (s_Verifier s) (s_BrowserNonce s) (s_IssuedAt s / SqlTime.nano * SqlTime.nano).

Lemma sign_free p : free_of bar (sign hmac key p) = true.
Proof. by apply b64_encode_free. Qed.

Lemma stamp_free z : free_of bar (strconv_FormatInt z) = true.
Proof. by apply FormatInt_free. Qed.

Lemma count_payload s : count_of bar (payload5 s) =
  4 + count_of bar (s_Redirect s) + count_of bar (s_Nonce s) + count_of bar (s_Verifier s) + count_of bar (s_BrowserNonce s).
Proof.
  unfold payload5, join. rewrite !count_app. cbn [count_of]. rewrite !count_app. cbn [count_of]. rewrite !count_app. cbn [count_of].
  rewrite !count_app. cbn [count_of]. rewrite (bool_decide_true (bar = bar)) by done.
  rewrite (proj2 (count_free bar (strconv_FormatInt _)) (stamp_free _)). lia.
Qed.

Lemma plain_count s : plain_fields s = true ↔
  count_of bar (s_Redirect s) + count_of bar (s_Nonce s) + count_of bar (s_Verifier s) + count_of bar (s_BrowserNonce s) = 0.
Proof. unfold plain_fields. rewrite !andb_true_iff, <-!count_free. lia. Qed.

Lemma resolveKey_run e w r w' : resolveKey config e w = (r, w') → (r = Ok key ∧ key ≠ "") ∨ ∃ x, r = Err x.
Proof.
  unfold resolveKey. intros [(x & _ & ->)|(k & w1 & Hk & H)]%bind_cases; [by right; exists x|].
  apply Hkey in Hk as [[= ->]|[x ?]]; [|done].
  unfold mbind, M_bind, ensure, throw, mret, M_ret in H. case_bool_decide; simpl in H; injection H as <- <-; eauto.
Qed.

(** What [Decode] makes of the wire. *)

Definition decoded (s : State) : res State :=
  if plain_fields s then Ok (to_second s) else Err (EOther "state codec: signature mismatch").

Lemma app_cons_assoc a c b t : (a +:+ String c b) +:+ t = a +:+ String c (b +:+ t).
Proof. by rewrite string_app_assoc. Qed.

Lemma split_plain s sig : plain_fields s = true →
  strings_SplitN bar (payload5 s +:+ String bar sig) 6 =
    [s_Redirect s; s_Nonce s; s_Verifier s; s_BrowserNonce s; strconv_FormatInt (s_IssuedAt s / SqlTime.nano); sig].
Proof.
  unfold plain_fields. rewrite !andb_true_iff. intros (H1 & H2 & H3 & H4).
  unfold payload5, join. rewrite !app_cons_assoc. cbn [strings_SplitN].
  rewrite Cut_app, Cut_app, Cut_app, Cut_app, Cut_app; [done|apply stamp_free|done..].
Qed.

(** With a separator in a field, a separator is left where the signature is
    expected. *)

Lemma split_not_plain s sig : plain_fields s = false → free_of bar sig = true →
  ∃ p1 p2 p3 p4 p5 g, strings_SplitN bar (payload5 s +:+ String bar sig) 6 = [p1; p2; p3; p4; p5; g] ∧ free_of bar g = false.
Proof.
  intros Hp Hs. assert (6 ≤ count_of bar (payload5 s +:+ String bar sig)) as Hc.
  { rewrite count_app. cbn [count_of]. rewrite (bool_decide_true (bar = bar)) by done. rewrite count_payload.
    destruct (decide (count_of bar (s_Redirect s) + count_of bar (s_Nonce s) + count_of bar (s_Verifier s) +
      count_of bar (s_BrowserNonce s) = 0)) as [H|]; [apply plain_count in H; congruence|lia]. }
  destruct (SplitN_rest bar 5 _ ltac:(by apply (Nat.le_trans _ 6); [lia|exact Hc])) as (l & g & Hl & Hlen & Hg).
  destruct l as [|p1 [|p2 [|p3 [|p4 [|p5 [|]]]]]]; try done. exists p1, p2, p3, p4, p5, g. split; [exact Hl|].
  apply not_true_iff_false. rewrite <-count_free. lia.
Qed.

Lemma Decode_run s b e w r w' :
  int64_ok (s_IssuedAt s / SqlTime.nano) = true →
  b = b64_encode (payload5 s +:+ String bar (sign hmac key (payload5 s))) →
  Decode config hmac b e w = (r, w') → (∃ x, resolveKey config e w = (Err x, w') ∧ r = Err x) ∨ r = decoded s.
Proof.
  intros Hz -> [(x & Hx & ->)|(k & w1 & Hk & H)]%bind_cases; [left; by exists x|].
  right. apply resolveKey_run in Hk as [[[= ->] _]|[x ?]]; [|done]. rewrite b64_roundtrip in H. unfold decoded.
  destruct (plain_fields s) eqn:Hp.
  - rewrite split_plain in H by done. rewrite (bind_step _ _ _ _ () w1) in H by (by rewrite bool_decide_true).
    rewrite ParseInt_Format in H by done. unfold mret, M_ret in H. by injection H as <- _.
  - destruct (split_not_plain s _ Hp (sign_free (payload5 s))) as (p1 & p2 & p3 & p4 & p5 & g & Hl & Hg).
    rewrite Hl in H. rewrite (bind_stop _ _ _ _ (EOther "state codec: signature mismatch") w1) in H; [by injection H as <- _|].
    unfold ensure. rewrite bool_decide_false; [done|]. intros ->. by rewrite sign_free in Hg.
Qed.

Lemma Encode_run s e w b w' : Encode config hmac s e w = (Ok b, w') →
  key ≠ "" ∧ b = b64_encode (payload5 s +:+ String bar (sign hmac key (payload5 s))).
Proof.
  unfold Encode. intros H. mstep H. apply ret_ok in H as [<- _]. apply resolveKey_run in Hm as [[[= ->] ?]|[x ?]]; done.
Qed.

(** The state of a federated login comes back as it was sent.  What [Encode]
    signs, [Decode] with the same key gives back, to the second, exactly when
    no field holds the separator; when one does (the redirect is whatever the
    browser asked for) the state is refused as tampered with, and never read
    as other fields; whatever the hash is, and unless the key cannot be
    resolved. *)
Theorem state_round_trip s e w b w' e' w2 r w3 :
  int64_ok (s_IssuedAt s / SqlTime.nano) = true →
  Encode config hmac s e w = (Ok b, w') → Decode config hmac b e' w2 = (r, w3) →
  (∃ x, resolveKey config e' w2 = (Err x, w3) ∧ r = Err x) ∨
  r = (if plain_fields s then Ok (to_second s) else Err (EOther "state codec: signature mismatch")).
Proof. intros Hz [_ Hb]%Encode_run. by apply Decode_run. Qed.

(** Only what carries the signature of the key is decoded. *)

Lemma Decode_ok b s e w w' : Decode config hmac b e w = (Ok s, w') →
  ∃ ts, strconv_ParseInt ts = Some (s_IssuedAt s / SqlTime.nano)%Z ∧
    let p := join [s_Redirect s; s_Nonce s; s_Verifier s; s_BrowserNonce s; ts] in
    b64_decode b = Some (p +:+ String bar (sign hmac key p)).
Proof.
  unfold Decode. intros H. mstep H. apply resolveKey_run in Hm as [[[= ->] _]|[x ?]]; [|done].
  destruct (b64_decode b) as [raw|]; [|by apply throw_ok in H].
  cbn [strings_SplitN] in H.
  destruct (strings_Cut bar raw) as [[p1 r1]|] eqn:H1; [|by apply throw_ok in H].
  destruct (strings_Cut bar r1) as [[p2 r2]|] eqn:H2; [|by apply throw_ok in H].
  destruct (strings_Cut bar r2) as [[p3 r3]|] eqn:H3; [|by apply throw_ok in H].
  destruct (strings_Cut bar r3) as [[p4 r4]|] eqn:H4; [|by apply throw_ok in H].
  destruct (strings_Cut bar r4) as [[p5 g]|] eqn:H5; [|by apply throw_ok in H].
  mstep H. unbool. destruct (strconv_ParseInt p5) as [ts|] eqn:Hts; [|by apply throw_ok in H].
  apply ret_ok in H as [<- _]. exists p5. simpl. rewrite Z.div_mul by done. split; [done|].
  apply Cut_inv in H1 as [-> _], H2 as [-> _], H3 as [-> _], H4 as [-> _], H5 as [-> _]. subst g. cbn [join].
  by rewrite !app_cons_assoc.
Qed.

End codec.

(** ** Accounts *)

Section accounts.
Import OIDCFacade.

Definition same_account (v v' : User.User) : Prop :=
  User.PasswordHash v' = User.PasswordHash v ∧ User.IsAdmin v' = User.IsAdmin v ∧ User.Status v' = User.Status v ∧
  User.IsLocal v' = User.IsLocal v ∧ User.ProviderSub v' = User.ProviderSub v.

(** What a sign-in of the subject [sub] does to the accounts: none goes away;
    only the federated account of this very subject changes, in its email, its
    name and its times. *)

Definition own_account (sub : string) (s : DB * DB) : Prop := ∀ id v, Db.users s.1 !! id = Some v →
  ∃ v', Db.users s.2 !! id = Some v' ∧ (v' = v ∨ User.IsLocal v = false ∧ User.ProviderSub v = sub ∧ same_account v v').

(** The other requests: rows are stored under their ids, an account keeps its
    provider and subject, and a change of a row is a change of its version. *)

Record well_run (e : Env) : Prop := {
  wr_keyed : ∀ n d, users_keyed d → users_keyed (interfere e n d);
  wr_owner : ∀ n d id u u', Db.users d !! id = Some u → Db.users (interfere e n d) !! id = Some u' →
    User.IsLocal u' = User.IsLocal u ∧ User.ProviderSub u' = User.ProviderSub u ∧ (User.Version u' = User.Version u → u' = u)
}.

(** The account that the subject signs in to. *)

Definition account_of (sub : string) (u : User.User) (d : DB) : Prop :=
  User.IsLocal u = false ∧ User.ProviderSub u = sub ∧ Db.users d !! User.ID u = Some u.

Definition signed_in (sub : string) (u : User.User) (d : DB) : Prop :=
  User.IsLocal u = false ∧ User.ProviderSub u = sub ∧ User.IsActive u = true ∧
  ∃ v, Db.users d !! User.ID u = Some v ∧ User.IsLocal v = false ∧ User.ProviderSub v = sub ∧ User.IsActive v = true.

(** A part of a run: its steps, and the tables it leaves. *)

Record part (e : Env) (sub : string) (w w' : World) : Prop := {
  part_steps : ∃ l, w_steps w' = w_steps w ++ l ∧ Forall (own_account sub) l;
  part_keyed : users_keyed (w_db w')
}.

Context (e : Env) (He : well_run e).

Lemma part_refl sub w : users_keyed (w_db w) → part e sub w w.
Proof. split; [|done]. exists []. by rewrite app_nil_r. Qed.

Lemma part_trans sub w w1 w2 : part e sub w w1 → part e sub w1 w2 → part e sub w w2.
Proof.
  intros [(l1 & H1 & F1) _] [(l2 & H2 & F2) K]. split; [|done]. exists (l1 ++ l2).
  rewrite H2, H1, app_assoc. split; [done|]. by apply Forall_app.
Qed.

Lemma own_refl sub d : own_account sub (d, d).
Proof. intros id v Hv. exists v. auto. Qed.

Lemma part_quiet sub w w' : w_db w' = w_db w → w_steps w' = w_steps w → users_keyed (w_db w) → part e sub w w'.
Proof. intros Hd Hs Hk. split; [exists []; by rewrite app_nil_r|by rewrite Hd]. Qed.

(** One store call, from what its body does. *)

Lemma part_store {A} sub (f : Z → DB → res A * DB) w r w' :
  store f e w = (r, w') → users_keyed (w_db w) →
  (∀ t d, users_keyed d → (∃ n, d = interfere e n (w_db w)) → own_account sub (d, (f t d).2) ∧ users_keyed (f t d).2) →
  part e sub w w'.
Proof.
  intros H Hk Hf. unfold store in H. set (d := interfere e (w_tick w) (w_db w)) in *.
  assert (users_keyed d) as Hkd by (by apply He).
  destruct (fault e (w_tick w)).
  { injection H as <- <-. split; [|done]. exists []. split; [done|constructor]. }
  destruct (Hf (clock e (w_tick w)) d Hkd ltac:(by eexists)) as [Ho Hk']. destruct (f _ d) as [r0 d']. injection H as <- <-.
  split; [|done]. exists [(d, d')]. split; [done|]. by constructor.
Qed.

Lemma part_query {A} sub (f : Z → DB → res A) w r w' :
  query f e w = (r, w') → users_keyed (w_db w) → part e sub w w'.
Proof. intros H Hk. eapply part_store; [exact H|done|]. intros t d Hd _. split; [apply own_refl|done]. Qed.

(** An update of a row that was read. *)

Lemma insert_own sub d u u1 :
  account_of sub u d → same_account u u1 → User.ID u1 = User.ID u → users_keyed d →
  own_account sub (d, set_users (<[User.ID u := u1]> (Db.users d)) d) ∧
  users_keyed (set_users (<[User.ID u := u1]> (Db.users d)) d).
Proof.
  intros (Hl & Hs & Hu) Hsame Hid Hk. split.
  - intros id v Hv. cbn [fst snd] in *. change (Db.users (set_users ?t d)) with t.
    destruct (decide (id = User.ID u)) as [->|Hne].
    + exists u1. rewrite lookup_insert_eq. split; [done|]. right. simplify_eq. done.
    + exists v. rewrite lookup_insert_ne by done. auto.
  - unfold users_keyed. change (Db.users (set_users ?t d)) with t. by apply keyed_insert.
Qed.

Lemma Update_run sub u u1 w r w' :
  UserStore.Update u1 e w = (r, w') → users_keyed (w_db w) → account_of sub u (w_db w) →
  User.ID u1 = User.ID u → User.Version u1 = User.Version u → same_account u u1 →
  part e sub w w' ∧
  match r with
  | Ok _ => ∃ v, Db.users (w_db w') !! User.ID u = Some v ∧ User.Status v = User.Status u ∧
      User.IsLocal v = false ∧ User.ProviderSub v = sub
  | Err x => x = ErrUserAlreadyExists → account_of sub u (w_db w')
  end.
Proof.
  intros H Hk Ha Hid Hv Hsame. assert (∀ n old, Db.users (interfere e n (w_db w)) !! User.ID u = Some old →
    User.Version old = User.Version u1 → old = u) as Hold.
  { intros n old Ho Hvo. destruct Ha as (_ & _ & Hu). apply (wr_owner _ He n _ _ _ _ Hu Ho). congruence. }
  split.
  - eapply part_store; [exact H|done|]. intros t d Hkd (n & ->). rewrite Hid.
    destruct (Db.users _ !! User.ID u) as [old|] eqn:Ho; [|split; [apply own_refl|done]].
    case_bool_decide as Hvo; [|split; [apply own_refl|done]]. destruct (UserStore.taken _ _); [split; [apply own_refl|done]|].
    assert (old = u) as -> by (by eapply Hold). apply insert_own; [|exact Hsame|done|done]. by destruct Ha as (? & ? & _).
  - unfold UserStore.Update, store in H. destruct (fault e (w_tick w)); [by injection H as <- <-|]. rewrite Hid in H.
    destruct (Db.users _ !! User.ID u) as [old|] eqn:Ho; [|by injection H as <- <-].
    case_bool_decide as Hvo; [|by injection H as <- <-]. assert (old = u) as -> by (by eapply Hold).
    destruct Ha as (Hl & Hs & Hu). destruct Hsame as (_ & _ & Hst & Hl' & Hs').
    destruct (UserStore.taken _ _); injection H as <- <-.
    + intros _. split; [done|]. split; [done|exact Ho].
    + eexists. split; [apply lookup_insert_eq|]. simpl. split; [done|]. split; congruence.
Qed.

Lemma GetByProviderSub_run sub w r w' :
  UserStore.GetByProviderSub false sub e w = (r, w') → users_keyed (w_db w) →
  part e sub w w' ∧ ∀ u, r = Ok u → account_of sub u (w_db w').
Proof.
  intros H Hk. split; [by eapply part_query|]. intros u ->.
  apply query_ok in H as (t & d & -> & _ & H & ->). destruct (find_row _ _) as [u'|] eqn:Hf; [|done]. injection H as ->.
  apply find_row_Some in Hf as (k & Hu & Hp). apply andb_true_iff in Hp as [H1 H2]. unbool.
  split; [done|]. split; [done|]. rewrite (wr_keyed _ He _ _ Hk _ _ Hu). done.
Qed.

Section service.
Context (f : Deps).

Lemma part_audit sub b ev w r w' : record_audit b ev e w = (r, w') → users_keyed (w_db w) → r = Ok tt ∧ part e sub w w' ∧ w_db w' = w_db w.
Proof.
  intros H Hk. injection H as <- <-. assert (w_db (if b then MkWorld (w_db w) (w_tick w) (w_audit w ++ [ev]) (w_steps w) else w) = w_db w) as Hd by (by destruct b).
  split; [done|]. split; [apply part_quiet; [done|by destruct b|done]|done].
Qed.

Lemma fail_run {A} sub actor detail x w r w' :
  (_ ← loginFailed f actor detail; throw x : M A) e w = (r, w') → users_keyed (w_db w) → part e sub w w' ∧ r = Err x.
Proof.
  intros H Hk. apply bind_cases in H as [(y & H & _)|(a & w1 & H & Ht)]; [done|].
  eapply part_audit in H as (_ & Hp & _); [|done]. injection Ht as <- <-. eauto.
Qed.

Lemma signIn_run sub result u w r w' :
  signIn f result u e w = (r, w') → users_keyed (w_db w) → account_of sub u (w_db w) →
  part e sub w w' ∧ ∀ u', r = Ok u' → signed_in sub u' (w_db w').
Proof.
  intros H Hk Ha. unfold signIn in H. destruct (User.IsActive u) eqn:Hact; simpl in H.
  2:{ eapply (fail_run sub) in H as [? ->]; [|done]. by split. }
  apply bind_cases in H as [(y & H & _)|(now & w1 & H1 & H)]; [done|]. injection H1 as _ <-.
  set (w1 := after w (w_db w) []) in *. assert (part e sub w w1) as P1 by (by apply part_quiet; [|simpl; rewrite app_nil_r|]).
  apply bind_cases in H as [(y & H1 & _)|(got & w2 & H1 & H)]; [by apply try_not_err in H1|]. apply try_ok in H1.
  eapply (Update_run sub u) in H1 as [P2 H1]; [|done|exact Ha|done..].
  pose proof (part_trans _ _ _ _ P1 P2) as P12.
  assert (∀ u2 (u3 : res unit) w3 (r3 : res User.User), part e sub w w3 → User.ID u2 = User.ID u → User.Status u2 = User.Status u → User.IsLocal u2 = User.IsLocal u →
    User.ProviderSub u2 = User.ProviderSub u →
    match u3 with Ok _ => ∃ v, Db.users (w_db w3) !! User.ID u = Some v ∧ User.Status v = User.Status u ∧ User.IsLocal v = false ∧ User.ProviderSub v = sub
      | Err _ => True end →
    (match u3 with Ok _ => mret u2 | Err x => _ ← loginFailed f (User.ID u) "reason=store_error"; throw x end) e w3 = (r3, w') →
    part e sub w w' ∧ ∀ u', r3 = Ok u' → signed_in sub u' (w_db w')) as Hend.
  { intros u2 u3 w3 r3 P3 I1 I2 I3 I4 Hu3 He3. destruct u3 as [()|x].
    - injection He3 as <- <-. split; [done|]. intros u' [= <-]. destruct Ha as (? & ? & _). destruct Hu3 as (v & ? & ? & ? & ?).
      unfold signed_in, User.IsActive in *. unbool. split; [congruence|]. split; [congruence|]. split; [apply bool_decide_true; congruence|].
      exists v. split; [congruence|]. split; [done|]. split; [done|]. apply bool_decide_true. congruence.
    - eapply (fail_run sub) in He3 as [? ->]; [|apply P3]. split; [by eapply part_trans|done]. }
  destruct (already_exists got && _) eqn:Hagain.
  - apply andb_true_iff in Hagain as [Hx _]. destruct got as [|[]]; try done. specialize (H1 eq_refl).
    apply bind_cases in H as [(y & H2 & _)|(done_ & w3 & H2 & H)].
    { apply bind_cases in H2 as [(z & H2 & _)|(got & w3 & H2 & H3)]; [by apply try_not_err in H2|done]. }
    mstep H2. apply ret_ok in H2 as [<- <-]. simpl in H.
    eapply (Update_run sub u) in Hm as [P3 H3]; [|apply P12|exact H1|done..].
    eapply Hend; [by eapply part_trans| | | | | |exact H]; try done. destruct a; [exact H3|done].
  - apply bind_cases in H as [(y & H2 & _)|(done_ & w3 & H2 & H)]; [done|]. apply ret_ok in H2 as [<- <-]. simpl in H.
    eapply Hend; [exact P12| | | | | |exact H]; try done. destruct got; [exact H1|done].
Qed.

Lemma Create_run sub nu w r w' :
  UserStore.Create nu e w = (r, w') → users_keyed (w_db w) → User.IsLocal nu = false → User.ProviderSub nu = sub →
  User.IsActive nu = true →
  part e sub w w' ∧ (r = Ok tt → signed_in sub (UserStore.first_version nu) (w_db w')).
Proof.
  intros H Hk Hl Hs Ha. split.
  - eapply part_store; [exact H|done|]. intros t d Hkd _. cbv beta. case_match eqn:Ho; [split; [apply own_refl|done]|].
    apply orb_false_iff in Ho as [Ho _]. unbool. split.
    + intros id v Hv. cbn [fst snd] in *. change (Db.users (set_users ?t d)) with t. exists v.
      rewrite lookup_insert_ne; [auto|]. intros <-. destruct Ho. by exists v.
    + unfold users_keyed. change (Db.users (set_users ?t d)) with t. apply keyed_insert; [|done].
      unfold UserStore.first_version. by destruct (bool_decide (User.Version nu = 0%Z)).
  - intros ->. apply store_ok in H as (t & d & d' & _ & _ & H & ->). case_match; [done|]. injection H as <-.
    assert (∀ v, v = UserStore.first_version nu → User.ID v = User.ID nu ∧ User.IsLocal v = false ∧ User.ProviderSub v = sub ∧
      User.IsActive v = true) as Hv.
    { intros v ->. unfold UserStore.first_version. destruct (bool_decide (User.Version nu = 0%Z)); (split; [done|]; split; [exact Hl|]; split; [exact Hs|exact Ha]). }
    destruct (Hv _ eq_refl) as (I1 & I2 & I3 & I4). split; [done|]. split; [done|]. split; [done|].
    eexists. split; [|done]. rewrite I1. simpl. apply lookup_insert_eq.
Qed.

Lemma provision_run result w r w' :
  provision f result e w = (r, w') → users_keyed (w_db w) →
  part e (Subject result) w w' ∧ ∀ u b, r = Ok (u, b) →
    if b : bool then signed_in (Subject result) u (w_db w') else account_of (Subject result) u (w_db w').
Proof.
  intros H Hk. unfold provision in H.
  apply bind_cases in H as [(y & H & _)|(nu & w1 & H1 & H)]; [done|].
  injection H1 as <- <-. set (nu := {| User.ID := _ |}) in *. set (w1 := after (after w _ _) _ _) in *.
  assert (part e (Subject result) w w1) as P1 by (by apply part_quiet; [|simpl; rewrite !app_nil_r|]).
  apply bind_cases in H as [(y & H1 & _)|(got & w2 & H1 & H)]; [by apply try_not_err in H1|]. apply try_ok in H1.
  eapply (Create_run (Subject result)) in H1 as [P2 H1]; [|done..]. pose proof (part_trans _ _ _ _ P1 P2) as P12.
  destruct got as [()|x].
  { injection H as <- <-. split; [done|]. intros u b [= <- <-]. auto. }
  clear H1. apply bind_cases in H as [(y & H1 & _)|(raced & w3 & H1 & H)].
  { case_bool_decide; [|done]. apply bind_cases in H1 as [(z & H1 & _)|(a & w3 & H1 & H3)]; [by apply try_not_err in H1|done]. }
  assert (part e (Subject result) w2 w3 ∧ ∀ u, raced = Some u → account_of (Subject result) u (w_db w3)) as [P3 Hraced].
  { case_bool_decide; [|injection H1 as <- <-; split; [apply part_refl, P2|done]].
    mstep H1. apply ret_ok in H1 as [<- <-]. apply GetByProviderSub_run in Hm as [P3 Hu]; [|apply P2].
    split; [done|]. intros u Hr. destruct a; [|done]. injection Hr as ->. by apply Hu. }
  pose proof (part_trans _ _ _ _ P12 P3) as P13. destruct raced as [u|].
  - injection H as <- <-. split; [done|]. intros u' b [= <- <-]. auto.
  - case_bool_decide; (eapply (fail_run (Subject result)) in H as [P4 ->]; [|apply P3]); (split; [by eapply part_trans|done]).
Qed.

(** The code exchange neither reads nor writes the tables. *)

Definition external {A} (m : M A) : Prop := ∀ e w r w', m e w = (r, w') → w_db w' = w_db w ∧ w_steps w' = w_steps w.

Context (Hex : ∀ code nonce verifier, external (ExchangeCode f code nonce verifier)).

(** C32: a federated sign-in reaches the account of the provider's subject and no
    other.  Whatever email and name the identity provider asserts, and however
    other requests interleave: every write leaves every account in place, and
    changes only the account of this provider's subject, never its password,
    role, status, provider or subject; and when the user is signed in, it is an
    active account of this very subject.  Without an answer of the identity
    provider nothing is written and nobody is signed in. *)
Theorem federated_account code nonce verifier w r w' :
  AuthenticateOIDC f code nonce verifier e w = (r, w') → users_keyed (w_db w) →
  match (ExchangeCode f code nonce verifier e w).1 with
  | Err x => r = Err (if bool_decide (x = ErrOIDCUnavailable) then ErrOIDCUnavailable else ErrOIDCAuthFailed) ∧ w_steps w' = w_steps w
  | Ok result =>
      (∃ l, w_steps w' = w_steps w ++ l ∧ Forall (own_account (Subject result)) l) ∧
      match r with Ok u => signed_in (Subject result) u (w_db w') | Err _ => True end
  end.
Proof.
  intros H Hk. unfold AuthenticateOIDC in H. unfold mbind at 1, M_bind at 1, try at 1 in H.
  destruct (ExchangeCode f code nonce verifier e w) as [r0 w1] eqn:Hx. destruct (Hex _ _ _ _ _ _ _ Hx) as [Hd Hs]. simpl.
  destruct r0 as [result|x].
  2:{ assert ((_ ← loginFailed f "" "code exchange failed"; throw ErrOIDCAuthFailed : M User.User) e w1 = (r, w') →
        x ≠ ErrOIDCUnavailable →
        r = Err (if bool_decide (x = ErrOIDCUnavailable) then ErrOIDCUnavailable else ErrOIDCAuthFailed) ∧ w_steps w' = w_steps w) as Hf.
      { intros [= <- <-] ?. split; [by rewrite bool_decide_false|]. by destruct (has_audit f). }
      destruct (decide (x = ErrOIDCUnavailable)) as [->|Hu]; [injection H as <- <-; done|].
      apply Hf; [|done]. by destruct x. }
  set (sub := Subject result) in *. assert (part e sub w w1) as P1 by (by apply part_quiet).
  apply bind_cases in H as [(y & H1 & _)|(found & w2 & H1 & H)]; [by apply try_not_err in H1|]. apply try_ok in H1.
  apply (GetByProviderSub_run sub) in H1 as [P2 Hfound]; [|apply P1]. pose proof (part_trans _ _ _ _ P1 P2) as P12.
  cut (part e sub w w' ∧ ∀ u, r = Ok u → signed_in sub u (w_db w')).
  { intros [[Hsteps _] Hr]. split; [done|]. destruct r; [by apply Hr|done]. }
  assert (∀ rp wp, (match found with Ok u => mret (u, false) | Err ErrUserNotFound => provision f result
      | Err x => _ ← loginFailed f "" ("reason=store_error provider_sub=" +:+ Subject result); throw x end) e w2 = (rp, wp) →
    part e sub w2 wp ∧ ∀ u b, rp = Ok (u, b) → if b : bool then signed_in sub u (w_db wp) else account_of sub u (w_db wp)) as Hp.
  { intros rp wp Hrp. destruct found as [u|x].
    - injection Hrp as <- <-. split; [apply part_refl, P2|]. intros u' b [= <- <-]. by apply Hfound.
    - destruct (decide (x = ErrUserNotFound)) as [->|]; [apply provision_run; [done|apply P2]|].
      destruct x; try done; (eapply (fail_run sub) in Hrp as [P3 ->]; [by split|apply P2]). }
  apply bind_cases in H as [(y & H1 & ->)|([u b] & w3 & H1 & H)]; [apply Hp in H1 as [P3 _]; split; [by eapply part_trans|done]|].
  apply Hp in H1 as [P3 Hu]. specialize (Hu u b eq_refl). pose proof (part_trans _ _ _ _ P12 P3) as P13. simpl in H.
  apply bind_cases in H as [(y & H1 & ->)|(u' & w4 & H1 & H)].
  - destruct b; [done|]. eapply (signIn_run sub) in H1 as [P4 _]; [|apply P3|exact Hu]. split; [by eapply part_trans|done].
  - assert (part e sub w3 w4 ∧ signed_in sub u' (w_db w4)) as [P4 Hu'].
    { destruct b; [injection H1 as <- <-; split; [apply part_refl, P3|done]|].
      eapply (signIn_run sub) in H1 as [P4 Hr]; [|apply P3|exact Hu]. split; [done|by apply Hr]. }
    apply bind_cases in H as [(y & H2 & _)|([] & w5 & H2 & H)]; [done|]. injection H as <- <-.
    eapply (part_audit sub) in H2 as (_ & P5 & Hdb); [|apply P4].
    split; [eapply part_trans; [exact P13|]; by eapply part_trans|]. intros v [= <-]. by rewrite Hdb.
Qed.

End service.
End accounts.

(** ** The callback *)

Section callback.
Import oidcHandler.
Context (h : Handler) (skey ckey : string) (Hs : one_key (session h) skey).
Context (Hc : ∀ e w r w', codecKey h e w = (r, w') → r = Ok ckey ∨ ∃ x, r = Err x).

(** A signed state, of this server, for this browser, and in time. *)

Definition signed_state (b : string) (s : State) : Prop := ∃ ts, strconv_ParseInt ts = Some (s_IssuedAt s / SqlTime.nano)%Z ∧
  let p := StateCodec.join [s_Redirect s; s_Nonce s; s_Verifier s; s_BrowserNonce s; ts] in
  b64_decode b = Some (p +:+ String StateCodec.bar (StateCodec.sign (hmac h) ckey p)).

Definition in_time (e : Env) (s : State) : Prop := ∃ n wa maxAge wb, stateCfg h e wa = (Ok maxAge, wb) ∧
  (oidcStateClockSkew <= AdminService.time_Sub (clock e n) (s_IssuedAt s) <= EffectiveStateMaxAge maxAge)%Z.

(** The session cookie of the user, and where the browser goes. *)

Definition logged_in (e : Env) (s : State) (u : User.User) (r : Response) : Prop := ∃ burned c expiry,
  cookies r = [burned; c] ∧ ck_MaxAge burned = (-1)%Z ∧ ck_Value c = cookie_value (session h) skey (User.ID u) expiry ∧
  (answer r = PlainError 500 ∨ ∃ wa dest wb, Resolve h (SafeRedirect (url_parse (params e)) (s_Redirect s) "/") e wa = (Ok dest, wb) ∧
    answer r = RedirectTo 303 dest).

Definition not_logged_in (r : Response) : Prop :=
  (cookies r = [] ∨ ∃ burned, cookies r = [burned] ∧ ck_MaxAge burned = (-1)%Z) ∧
  ∃ status msg url, answer r = ErrorPage status msg url.

Lemma path_run p e w : ∃ q w', path h p e w = (Ok q, w').
Proof. unfold path, ResolvePath, mbind, M_bind, mret, M_ret, try. destruct (Resolve h p e w) as [[q|x] w']; by eexists _, w'. Qed.

Lemma page_run set status msg e w : ∃ url w', page h set status msg e w = (Ok (MkResponse set (ErrorPage status msg url)), w').
Proof. unfold page. destruct (path_run "/login" e w) as (q & w' & Hq). exists q, w'. unfold mbind, M_bind. by rewrite Hq. Qed.

Lemma page_out set status msg e w :
  set = [] ∨ (∃ burned, set = [burned] ∧ ck_MaxAge burned = (-1)%Z) →
  ∃ resp w', page h set status msg e w = (Ok resp, w') ∧ not_logged_in resp.
Proof. intros Hset. destruct (page_run set status msg e w) as (url & w' & H). eexists _, w'. split; [exact H|]. split; [done|]. by eexists _, _, _. Qed.

Lemma burn_run e w : ∃ c w', clearOIDCStateCookie h e w = (Ok c, w') ∧ ck_MaxAge c = (-1)%Z.
Proof.
  unfold clearOIDCStateCookie, mbind, M_bind, mret, M_ret, try. destruct (SessionMiddleware.config (session h) e w) as [r w1].
  destruct (path_run "/" e w1) as (q & w2 & ->). eexists _, w2. split; [done|]. by destruct r.
Qed.

Lemma refuse_out burned x e w : ck_MaxAge burned = (-1)%Z →
  ∃ resp w', refuse h burned x e w = (Ok resp, w') ∧ not_logged_in resp.
Proof.
  intros Hb. assert ([burned] = [] ∨ (∃ b, [burned] = [b] ∧ ck_MaxAge b = (-1)%Z)) as Hset by (right; by exists burned).
  unfold refuse, unavailable. destruct x; by apply page_out.
Qed.

Lemma finish_out burned s u e w : ck_MaxAge burned = (-1)%Z →
  ∃ resp w', finish h burned (s_Redirect s) u e w = (Ok resp, w') ∧ (not_logged_in resp ∨ logged_in e s u resp).
Proof.
  intros Hb. assert ([burned] = [] ∨ (∃ b, [burned] = [b] ∧ ck_MaxAge b = (-1)%Z)) as Hset by (right; by exists burned).
  unfold finish, mbind, M_bind, mret, M_ret, try, ask.
  destruct (SessionMiddleware.SetSessionCookie (session h) (User.ID u) e w) as [[c|x] w1] eqn:Hc1.
  2:{ unfold unavailable. destruct (page_out [burned] 500 "Sign-in is temporarily unavailable. Please try again later." e w1 Hset) as (resp & w' & H & ?).
      exists resp, w'. split; [exact H|by left]. }
  apply (SetSessionCookie_ok _ skey) in Hc1 as (_ & _ & n & cf & wa & wb & _ & _ & Hv); [|exact Hs].
  destruct (Resolve h _ e w1) as [[dest|x] w2] eqn:Hr; eexists _, w2; (split; [done|]); right;
    (eexists burned, c, _; split; [done|]; split; [done|]; split; [exact Hv|]); [right|by left].
  by exists w1, dest, w2.
Qed.


End callback.

(** ** A federated login *)

Module OIDCRuns.
Import Scenario oidcHandler.

Definition bob_result : OIDCFacade.OIDCTokenResult := OIDCFacade.MkResult "sub-1" "bob@idp" "Bob".

(** The provider's authorization URL is the state itself. *)

Definition idp : OIDCFacade.Deps := OIDCFacade.MkDeps (λ _ _ _, mret bob_result) (λ state _ _, mret state) true.

Definition codec_key : M string := mret "codec-key".

Lemma codec_key_one e w r w' : codec_key e w = (r, w') → r = Ok "codec-key" ∨ ∃ x, r = Err x.
Proof. intros [= <- <-]. by left. Qed.

Definition mac (k s : string) : string := k +:+ s.

Definition handler : Handler :=
  MkHandler idp SessionRuns.deps codec_key (λ p, mret ("/auth" +:+ p)) (mret 0%Z).

Definition env : Env := SessionRuns.env.

Definition started : res Response * World := handleOIDCStart handler "/oauth/authorize?client_id=app" env world.

Definition sent : string := match started.1 with Ok (MkResponse _ (RedirectTo _ url)) => url | _ => "" end.

Definition back (state : string) (cookie : option string) : res Response * World :=
  handleOIDCCallback handler (MkCallback "" "code" state) cookie env started.2.

Definition came_back : res Response * World := back sent (Some "r").

Definition summary (r : res Response * World) : option (nat * nat) :=
  match r.1 with
  | Ok (MkResponse l (RedirectTo n _)) => Some (length l, n)
  | Ok (MkResponse l (ErrorPage n _ _)) | Ok (MkResponse l (PlainError n)) => Some (length l, n)
  | Err _ => None
  end.

Lemma idp_external code nonce verifier : external (OIDCFacade.ExchangeCode idp code nonce verifier).
Proof. by intros e w r w2 [= <- <-]. Qed.

Lemma env_well_run : well_run env.
Proof. split; [done|]. intros n d id u u' H1 H2. simpl in H2. rewrite H1 in H2. by injection H2 as <-. Qed.

End OIDCRuns.

(** The browser that started is signed in; another one, a state that was
    tampered with, and a redirect with a separator are not. *)

Lemma federated_login_runs :
  OIDCRuns.summary OIDCRuns.started = Some (1, 302) ∧ OIDCRuns.summary OIDCRuns.came_back = Some (2, 303) ∧
  OIDCRuns.summary (OIDCRuns.back OIDCRuns.sent (Some "other")) = Some (0, 400) ∧
  OIDCRuns.summary (OIDCRuns.back (OIDCRuns.sent +:+ "AA") (Some "r")) = Some (0, 400).
Proof. by vm_compute. Qed.

(** Two first sign-ins of one identity without an email: the second loses the
    insertion to the first, and the read that would find the account of the
    first fails.  The user is told that an email is in use. *)

Module RacedSignIn.

Definition no_email : OIDCFacade.Deps := OIDCFacade.MkDeps (λ _ _ _, mret (OIDCFacade.MkResult "sub-1" "" "Bob")) (λ state _ _, mret state) true.

Definition first : User.User :=
  User.MkUser "u1" "" "Bob" "" false User.StatusActive false "sub-1" 1 Scenario.start Scenario.start.

Definition env (lookup_fails : bool) : Env :=
  MkEnv (λ n, andb lookup_fails (bool_decide (n = 4))) (λ _, Scenario.start) (λ _, "u2")
    (λ n d, if bool_decide (n = 3) then set_users (<["u1" := first]> (Db.users d)) d else d) (params OIDCRuns.env) Scenario.config.

Definition signed (lookup_fails : bool) : res User.User :=
  (OIDCFacade.AuthenticateOIDC no_email "code" "n" "v" (env lookup_fails) Scenario.world).1.

End RacedSignIn.

Lemma raced_sign_in :
  (match RacedSignIn.signed false with Ok u => Some (User.ID u) | Err _ => None end) = Some "u1" ∧
  RacedSignIn.signed true = Err ErrOIDCEmailInUse.
Proof. by vm_compute. Qed.


Lemma state_round_trip_witness :
  ∃ b, StateCodec.Encode OIDCRuns.codec_key OIDCRuns.mac (MkState "/x" "n" "v" "b" 1500000000000) Scenario.env Scenario.world = (Ok b, Scenario.world) ∧
    StateCodec.Decode OIDCRuns.codec_key OIDCRuns.mac b Scenario.env Scenario.world =
      (Ok (MkState "/x" "n" "v" "b" 1500000000000), Scenario.world) ∧
  ∃ b', StateCodec.Encode OIDCRuns.codec_key OIDCRuns.mac (MkState "/x?a|b" "n" "v" "b" 1500000000000) Scenario.env Scenario.world = (Ok b', Scenario.world) ∧
    (StateCodec.Decode OIDCRuns.codec_key OIDCRuns.mac b' Scenario.env Scenario.world).1 = Err (EOther "state codec: signature mismatch").
Proof.
  eexists. split; [reflexivity|]. split; [by vm_compute|]. eexists. split; [reflexivity|].
  destruct (state_round_trip OIDCRuns.codec_key OIDCRuns.mac "codec-key" OIDCRuns.codec_key_one
    (MkState "/x?a|b" "n" "v" "b" 1500000000000) Scenario.env Scenario.world _ _ Scenario.env Scenario.world _ _
    ltac:(by vm_compute) eq_refl (surjective_pairing _)) as [(x & Hx & _)|Hr].
  - by vm_compute in Hx.
  - exact Hr.
Defined.

Lemma federated_account_witness :
  ∃ u w', OIDCFacade.AuthenticateOIDC OIDCRuns.idp "code" "n" "v" OIDCRuns.env Scenario.world = (Ok u, w') ∧
    User.Email u = "bob@idp" ∧ signed_in "sub-1" u (w_db w').
Proof.
  destruct (OIDCFacade.AuthenticateOIDC OIDCRuns.idp "code" "n" "v" OIDCRuns.env Scenario.world) as [r w'] eqn:H.
  pose proof (f_equal fst H) as Hr. vm_compute in Hr. subst r. eexists _, w'. split; [reflexivity|]. split; [done|].
  pose proof (federated_account OIDCRuns.env OIDCRuns.env_well_run OIDCRuns.idp OIDCRuns.idp_external "code" "n" "v" Scenario.world _ w' H
    SessionRuns.world_keyed) as Hf.
  change (OIDCFacade.ExchangeCode OIDCRuns.idp "code" "n" "v" OIDCRuns.env Scenario.world) with
    (Ok OIDCRuns.bob_result, Scenario.world) in Hf. exact (proj2 Hf).
Defined.
