(* ===== verification/Login.v ===== *)
(** * The login page

    api/public/oauth/login.go: the login form with its nonce cookie and CSRF
    token, the password login with the lockout, and the logout.  A page is its
    status and the data its template gets.  The lockout tracker is shared by
    all requests of the process: a handler gets it, and what the others do to
    it between the question and the record is an argument ([meanwhile]). *)

From S2P Require Import Prelude GoStrings Domain Db Effects Stores Encoding Lockout WebSession.
Import Lockout.

Module loginHandler.

Definition loginNonceCookieName : string := "authserver_login_nonce".
Definition loginNoncePurpose : string := "login-nonce".
Definition loginNonceMaxAge : Z := 12 * 3600 * SqlTime.nano.

Record LoginDisplay := MkDisplay { DisplayName : string; ShowLocalLogin : bool }.

Record Handler := MkHandler {
  auth : string → string → M (res User.User * nat);   (* Authenticate, and the derivations it cost *)
  session : SessionMiddleware.Deps;
  display : M LoginDisplay;
  Resolve : string → M string;                         (* URLBuilder *)
  has_audit : bool;
  URLQueryEscaper : string → string;
  FormatRFC3339 : Z → string                           (* in the zone of the server *)
}.

(** The data of the template, and its status and Retry-After. *)

Record LoginPage := MkPage {
  Status : nat;
  Error : string;
  Redirect : string;
  ShowForm : bool;
  CSRF : string;
  OIDCDisplayName : string;
  OIDCStartURL : string;
  FormAction : string;
  RetryAfter : string
}.

Inductive Answer :=
  | Page (p : LoginPage)
  | Plain (status : nat)
  | RedirectTo (status : nat) (target : string).

Record Response := MkResponse { cookies : list Cookie; answer : Answer }.

Record Request := MkRequest {
  form_ok : bool;                 (* ParseForm, within 64 KB *)
  email : string;
  password : string;
  redirect : string;
  csrf_token : string;
  nonceCookie : option string;
  ip : string
}.

Section handler.
Variable h : Handler.

Definition internal (set : list Cookie) : Response := MkResponse set (Plain 500).

Definition loginNoncePath : M string := ResolvePath (Some (Resolve h)) "/".

Definition setLoginNonceCookie (value : string) (policy : SessionConfig) : M Cookie :=
  p ← loginNoncePath;
  mret (MkCookie loginNonceCookieName value p (CookieMaxAgeSeconds loginNonceMaxAge) true
          (orb (Secure policy) (SessionMiddleware.secureFloor (session h))) (EffectiveSameSite policy)).

Definition clearLoginNonceCookie : M Cookie :=
  got ← try (SessionMiddleware.config (session h));
  p ← loginNoncePath;
  mret (match got with
        | Ok c => MkCookie loginNonceCookieName "" p (-1) true
                    (orb (Secure c) (SessionMiddleware.secureFloor (session h))) (EffectiveSameSite c)
        | Err _ => MkCookie loginNonceCookieName "" p (-1) true (SessionMiddleware.secureFloor (session h)) SameSiteLaxMode
        end).

Definition parseLoginNonce (raw : string) : M (string * bool) :=
  match strings_Split SessionMiddleware.bar raw with
  | [nonce; mac] =>
      if orb (bool_decide (nonce = "")) (bool_decide (mac = "")) then mret ("", false)
      else minted ← SessionMiddleware.VerifyMAC (session h) loginNoncePurpose nonce mac;
           mret (nonce, minted)
  | _ => mret ("", false)
  end.

(** The nonce, and the cookie that was set for it, if a new one was minted. *)

Definition mintNonce : M (string * list Cookie) :=
  nonce ← GenerateRandomString;
  mac ← SessionMiddleware.MACFor (session h) loginNoncePurpose nonce;
  policy ← SessionMiddleware.config (session h);
  c ← setLoginNonceCookie (nonce +:+ String SessionMiddleware.bar mac) policy;
  mret (nonce, [c]).

Definition ensureLoginNonce (cookie : option string) : M (string * list Cookie) :=
  match cookie with
  | None | Some "" => mintNonce
  | Some raw =>
      p ← parseLoginNonce raw;
      if (p.2 : bool) then mret (p.1, []) else mintNonce
  end.

(** The token; a cookie stays set when the token then fails. *)

Definition csrfForRequest (cookie : option string) : M (res string * list Cookie) :=
  got ← try (ensureLoginNonce cookie);
  match got with
  | Err x => mret (Err x, [])
  | Ok (nonce, set) => token ← try (SessionMiddleware.CSRFToken (session h) nonce); mret (token, set)
  end.

(** What GET and a rejected POST render. *)

Definition renderForm (status : nat) (error redirect retryAfter : string) (disp : LoginDisplay) (cookie : option string) : M Response :=
  csrf ← (if ShowLocalLogin disp then csrfForRequest cookie else mret (Ok "", []));
  match csrf.1 with
  | Err _ => mret (internal csrf.2)
  | Ok token =>
      start ← (if bool_decide (DisplayName disp = "") then mret (Ok "")
               else try (Resolve h ("/oidc/start?redirect=" +:+ URLQueryEscaper h redirect)));
      match start with
      | Err _ => mret (internal csrf.2)
      | Ok start =>
          action ← ResolvePath (Some (Resolve h)) "/login";
          mret (MkResponse csrf.2
                  (Page (MkPage status error redirect (ShowLocalLogin disp) token (DisplayName disp) start action retryAfter)))
      end
  end.

Definition handleGetLogin (redirect : string) (cookie : option string) : M Response :=
  disp ← try (display h);
  match disp with
  | Err _ => mret (internal [])
  | Ok disp => renderForm 200 "" redirect "" disp cookie
  end.

(** Whole seconds until the deadline, at least one. *)

Definition retryAfterSeconds (until now : Z) : string :=
  let secs := (- ((- (until - now)) / SqlTime.nano))%Z in
  strconv_FormatInt (if bool_decide (secs < 1)%Z then 1 else secs).

Definition recordLockout (ip : string) (until : Z) : M unit :=
  record_audit (has_audit h) (Audit.NewEvent Audit.ActionAuthLockedOut "" "" ip ("until=" +:+ FormatRFC3339 h until)).

(** What the request leaves: the response, the tracker, and the bcrypt
    derivations it cost. *)

Record Served := MkServed { response : Response; tracker : option Tracker; cost : nat }.

Definition rejected (req : Request) (disp : LoginDisplay) (msg : string) : M Response :=
  renderForm 422 msg (redirect req) "" disp (nonceCookie req).

Definition invalidRequest : string := "Invalid request. Please try again.".
Definition invalidCredentials : string := "Invalid email or password".
Definition tooManyAttempts : string := "Too many failed attempts. Please try again later.".

(** A form with the token of a nonce that this server minted for the browser;
    otherwise the response that rejects it. *)

Definition checkForm (req : Request) (disp : LoginDisplay) : M (option Response) :=
  if negb (form_ok req) then r ← rejected req disp "Invalid form data"; mret (Some r) else
  match nonceCookie req with
  | None | Some "" => r ← rejected req disp invalidRequest; mret (Some r)
  | Some raw =>
      p ← try (parseLoginNonce raw);
      match p with
      | Err _ => mret (Some (internal []))
      | Ok (_, false) => r ← rejected req disp invalidRequest; mret (Some r)
      | Ok (nonce, true) =>
          valid ← try (SessionMiddleware.ValidateCSRF (session h) nonce (csrf_token req));
          match valid with
          | Err _ => mret (Some (internal []))
          | Ok false => r ← rejected req disp invalidRequest; mret (Some r)
          | Ok true => mret None
          end
      end
  end.

(** The credentials are right. *)

Definition admit_user (req : Request) (u : User.User) : M Response :=
  set ← try (SessionMiddleware.SetSessionCookie (session h) (User.ID u));
  match set with
  | Err _ => mret (internal [])
  | Ok c =>
      up ← ask (λ e, url_parse (params e));
      dest ← try (Resolve h (SafeRedirect up (redirect req) "/"));
      match dest with
      | Err _ => mret (internal [c])
      | Ok dest => mret (MkResponse [c] (RedirectTo 303 dest))
      end
  end.

(** Authentication, and what it does to the tracker. *)

Definition attempt (req : Request) (disp : LoginDisplay) (lock : option Tracker)
    (order : list (string * failState)) : M Served :=
  got ← auth h (email req) (password req);
  match got.1 with
  | Err ErrInvalidCredentials =>
      lock' ← match lock with
              | None => mret None
              | Some a =>
                  now ← time_Now;
                  let '((until, engaged), a') := RecordFailure order a (email req) (ip req) now in
                  _ ← when engaged (recordLockout (ip req) until);
                  mret (Some a')
              end;
      r ← rejected req disp invalidCredentials;
      mret (MkServed r lock' got.2)
  | Err _ => mret (MkServed (internal []) lock got.2)
  | Ok u =>
      r ← admit_user req u;
      mret (MkServed r (match lock with None => None | Some a => Some (Reset_ a (email req) (ip req)) end) got.2)
  end.

Definition handlePostLogin (req : Request) (lock : option Tracker) (meanwhile : Tracker → Tracker)
    (order : list (string * failState)) : M Served :=
  disp ← try (display h);
  match disp with
  | Err _ => mret (MkServed (internal []) lock 0)
  | Ok disp =>
      if negb (ShowLocalLogin disp) then mret (MkServed (MkResponse [] (Plain 404)) lock 0) else
      bad ← checkForm req disp;
      match bad with
      | Some r => mret (MkServed r lock 0)
      | None =>
          if bool_decide (MaxIdentityLen < String.length (email req))
          then r ← rejected req disp invalidCredentials; mret (MkServed r lock 0)
          else
            now ← time_Now;
            match (match lock with
                   | None => None
                   | Some a => let '(until, locked) := LockedUntil a (email req) (ip req) now in
                               if locked then Some until else None
                   end) with
            | Some until =>
                now ← time_Now;
                r ← renderForm 429 tooManyAttempts (redirect req) (retryAfterSeconds until now) disp (nonceCookie req);
                mret (MkServed r lock 0)
            | None => attempt req disp (match lock with None => None | Some a => Some (meanwhile a) end) order
            end
      end
  end.

Definition handlePostLogout : M Response :=
  c ← SessionMiddleware.clearCookie (session h);
  n ← clearLoginNonceCookie;
  target ← ResolvePath (Some (Resolve h)) "/login";
  mret (MkResponse [c; n] (RedirectTo 303 target)).

End handler.
End loginHandler.
