(* ===== verification/LoginTheorems.v ===== *)
(** * Theorems about the login page

    A password is tried only for a form of this server, for an identity that
    is not locked out; the tracker takes at most one step per request; and the
    form that was shown is the form that is accepted. *)

From S2P Require Import Prelude GoStrings Domain Db Effects Stores Order Runs Scenario Encoding Lockout LockoutTheorems Registration RegistrationTheorems WebSession WebSessionTheorems OIDCTheorems Login.
Import Lockout loginHandler.

(** ** Answers *)

(** Nothing but the form, or an error, with at most a new nonce. *)

Definition shown (r : Response) : Prop :=
  (∀ c, c ∈ cookies r → ck_Name c = loginNonceCookieName) ∧ ∀ n t, answer r ≠ RedirectTo n t.

Section login.
Context (h : Handler) (skey : string) (Hs : one_key (session h) skey).

Lemma path_total p e w : ∃ q w', ResolvePath (Some (Resolve h)) p e w = (Ok q, w').
Proof. unfold ResolvePath, mbind, M_bind, mret, M_ret, try. destruct (Resolve h p e w) as [[q|x] w']; by eexists _, w'. Qed.

Definition nonce_cookies (l : list Cookie) : Prop := ∀ c, c ∈ l → ck_Name c = loginNonceCookieName.

Lemma nonce_cookies_nil : nonce_cookies [].
Proof. intros c Hc. by apply elem_of_nil in Hc. Qed.

Lemma mintNonce_out e w nonce l w' : mintNonce h e w = (Ok (nonce, l), w') → nonce_cookies l.
Proof.
  unfold mintNonce. intros H. mstep H. mstep H. mstep H. mstep H. apply ret_ok in H as [[= <- <-] _].
  unfold setLoginNonceCookie in Hm2. mstep Hm2. apply ret_ok in Hm2 as [<- _]. by intros c ->%list_elem_of_singleton.
Qed.

Lemma ensureLoginNonce_out cookie e w nonce l w' : ensureLoginNonce h cookie e w = (Ok (nonce, l), w') → nonce_cookies l.
Proof.
  unfold ensureLoginNonce. destruct cookie as [[|x s]|]; try apply mintNonce_out. intros H. mstep H.
  destruct a as [n []]; simpl in H; [|by eapply mintNonce_out]. apply ret_ok in H as [[= <- <-] _]. apply nonce_cookies_nil.
Qed.

Lemma csrf_total cookie e w : ∃ t l w', csrfForRequest h cookie e w = (Ok (t, l), w') ∧ nonce_cookies l.
Proof.
  unfold csrfForRequest, mbind, M_bind, mret, M_ret, try. destruct (ensureLoginNonce h cookie e w) as [[[nonce l]|x] w1] eqn:Hn.
  - destruct (SessionMiddleware.CSRFToken (session h) nonce e w1) as [t w2]. exists t, l, w2. split; [done|]. by eapply ensureLoginNonce_out.
  - exists (Err x), [], w1. split; [done|apply nonce_cookies_nil].
Qed.

Lemma renderForm_total status error redir retry disp cookie e w :
  ∃ r w', renderForm h status error redir retry disp cookie e w = (Ok r, w') ∧ shown r ∧
    (answer r = Plain 500 ∨ ∃ p, answer r = Page p ∧ Status p = status ∧ Error p = error ∧ RetryAfter p = retry).
Proof.
  unfold renderForm.
  assert (∃ t l w1, (if ShowLocalLogin disp then csrfForRequest h cookie else mret (Ok "", [])) e w = (Ok (t, l), w1) ∧ nonce_cookies l)
    as (t & l & w1 & H & Hl).
  { destruct (ShowLocalLogin disp); [apply csrf_total|]. exists (Ok ""), [], w. split; [done|apply nonce_cookies_nil]. }
  rewrite (bind_step _ _ _ _ _ _ H). simpl. destruct t as [t|x]; [|eexists _, w1; split; [done|]; split; [done|by left]].
  assert (∃ st w2, (if bool_decide (DisplayName disp = "") then mret (Ok "")
    else try (Resolve h ("/oidc/start?redirect=" +:+ URLQueryEscaper h redir))) e w1 = (Ok st, w2)) as (st & w2 & Hst).
  { case_bool_decide; [by eexists _, w1|]. unfold try. destruct (Resolve h _ e w1) as [st w2]. by exists st, w2. }
  rewrite (bind_step _ _ _ _ _ _ Hst). destruct st as [st|x]; [|eexists _, w2; split; [done|]; split; [done|by left]].
  destruct (path_total "/login" e w2) as (a & w3 & Ha). rewrite (bind_step _ _ _ _ _ _ Ha).
  eexists _, w3. split; [done|]. split; [done|]. right. by eexists.
Qed.

Lemma rejected_total req disp msg e w :
  ∃ r w', rejected h req disp msg e w = (Ok r, w') ∧ shown r.
Proof. destruct (renderForm_total 422 msg (redirect req) "" disp (nonceCookie req) e w) as (r & w' & ? & ? & _). by exists r, w'. Qed.

Lemma internal_shown l : nonce_cookies l → shown (internal l).
Proof. done. Qed.

(** ** The form *)

(** The MAC of a nonce, and the token of the form shown with it. *)

Definition nonce_mac (nonce : string) : string :=
  b64_encode (SessionMiddleware.hmac (session h) (SessionMiddleware.DeriveKey (session h) skey loginNoncePurpose) nonce).
Definition form_token (nonce : string) : string := b64_encode (SessionMiddleware.hmac (session h) (skey +:+ "csrf") nonce).

Definition own_form (req : Request) : Prop := form_ok req = true ∧ ∃ nonce raw,
  nonceCookie req = Some raw ∧ strings_Split SessionMiddleware.bar raw = [nonce; nonce_mac nonce] ∧ csrf_token req = form_token nonce.

Lemma secret_run e w r w' : SessionMiddleware.secret (session h) e w = (r, w') → r = Ok skey ∨ ∃ x, r = Err x.
Proof.
  unfold SessionMiddleware.secret, mbind, M_bind, mret, M_ret, try, throw. destruct (SessionMiddleware.secrets (session h) e w) as [r1 w1] eqn:H.
  destruct (Hs _ _ _ _ H) as ([->|[x ->]] & _); intros [= <- <-]; eauto.
Qed.

Lemma VerifyMAC_run nonce mac e w b w' : SessionMiddleware.VerifyMAC (session h) loginNoncePurpose nonce mac e w = (Ok b, w') →
  b = bool_decide (nonce_mac nonce = mac).
Proof.
  unfold SessionMiddleware.VerifyMAC, SessionMiddleware.MACFor. intros H. mstep H. apply ret_ok in H as [<- _].
  mstep Hm. apply ret_ok in Hm as [<- _]. by apply secret_run in Hm0 as [[= ->]|[x ?]].
Qed.

Lemma ValidateCSRF_run nonce token e w b w' : SessionMiddleware.ValidateCSRF (session h) nonce token e w = (Ok b, w') →
  b = bool_decide (form_token nonce = token).
Proof.
  unfold SessionMiddleware.ValidateCSRF, SessionMiddleware.CSRFToken. intros H. mstep H. apply ret_ok in H as [<- _].
  mstep Hm. apply ret_ok in Hm as [<- _]. by apply secret_run in Hm0 as [[= ->]|[x ?]].
Qed.

Lemma parseLoginNonce_ok raw nonce e w w' : parseLoginNonce h raw e w = (Ok (nonce, true), w') →
  strings_Split SessionMiddleware.bar raw = [nonce; nonce_mac nonce].
Proof.
  unfold parseLoginNonce. intros H. destruct (strings_Split _ raw) as [|n [|mac [|]]]; try (by apply ret_ok in H as [H _]).
  destruct (_ || _); [by apply ret_ok in H as [H _]|]. mstep H. apply ret_ok in H as [[= <- ->] _].
  apply VerifyMAC_run in Hm. symmetry in Hm. apply bool_decide_eq_true in Hm. by subst mac.
Qed.

Lemma checkForm_total req disp e w : ∃ o w', checkForm h req disp e w = (Ok o, w') ∧
  match o with Some r => shown r | None => own_form req end.
Proof.
  unfold checkForm. assert (∀ msg w0, ∃ o w', (r ← rejected h req disp msg; mret (Some r)) e w0 = (Ok o, w') ∧
    match o with Some r => shown r | None => own_form req end) as Hrej.
  { intros msg w0. destruct (rejected_total req disp msg e w0) as (r & w' & H & ?). exists (Some r), w'.
    rewrite (bind_step _ _ _ _ _ _ H). done. }
  destruct (form_ok req) eqn:Hf; simpl; [|apply Hrej]. destruct (nonceCookie req) as [[|x s]|] eqn:Hn; try apply Hrej.
  set (raw := String x s) in *. unfold mbind at 1, M_bind at 1, try at 1.
  destruct (parseLoginNonce h raw e w) as [[[nonce []]|y] w1] eqn:Hp.
  - unfold mbind at 1, M_bind at 1, try at 1.
    destruct (SessionMiddleware.ValidateCSRF (session h) nonce (csrf_token req) e w1) as [[[]|y] w2] eqn:Hv; [| apply Hrej|].
    + exists None, w2. split; [done|]. split; [done|]. exists nonce, raw. split; [done|].
      apply parseLoginNonce_ok in Hp. apply ValidateCSRF_run in Hv. symmetry in Hv. apply bool_decide_eq_true in Hv. done.
    + eexists _, w2. split; [done|]. apply internal_shown, nonce_cookies_nil.
  - apply Hrej.
  - eexists _, w1. split; [done|]. apply internal_shown, nonce_cookies_nil.
Qed.

(** ** The password login *)

(** A request on which no password was tried. *)

Definition not_tried (lock : option Tracker) (sv : Served) : Prop :=
  cost sv = 0 ∧ tracker sv = lock ∧ shown (response sv).

(** What a tried password leaves: the session of the user and a tracker without
    the identity; the form again and a tracker that counted the failure; or a
    server error and the tracker as it was. *)

Definition tried (e : Env) (req : Request) (lock : option Tracker) (r : res User.User) (sv : Served) : Prop :=
  match r with
  | Ok u =>
      tracker sv = (λ a, Reset_ a (email req) (ip req)) <$> lock ∧
      (response sv = internal [] ∨
       ∃ c expiry, cookies (response sv) = [c] ∧ ck_Value c = cookie_value (session h) skey (User.ID u) expiry ∧
         (answer (response sv) = Plain 500 ∨ ∃ wa dest wb,
           Resolve h (SafeRedirect (url_parse (params e)) (redirect req) "/") e wa = (Ok dest, wb) ∧
           answer (response sv) = RedirectTo 303 dest))
  | Err ErrInvalidCredentials =>
      shown (response sv) ∧
      match lock with
      | None => tracker sv = None
      | Some a => ∃ now a', tracker sv = Some a' ∧ step now a (OpFail (email req) (ip req)) a'
      end
  | Err _ => response sv = internal [] ∧ tracker sv = lock
  end.

(** Authentication answers, with the derivations it cost. *)

Definition auth_answers : Prop := ∀ em pw e w, ∃ p w', auth h em pw e w = (Ok p, w').

Lemma admit_total req u e w : ∃ r w', admit_user h req u e w = (Ok r, w') ∧
  (r = internal [] ∨
   ∃ c expiry, cookies r = [c] ∧ ck_Value c = cookie_value (session h) skey (User.ID u) expiry ∧
     (answer r = Plain 500 ∨ ∃ wa dest wb,
       Resolve h (SafeRedirect (url_parse (params e)) (redirect req) "/") e wa = (Ok dest, wb) ∧ answer r = RedirectTo 303 dest)).
Proof.
  unfold admit_user, mbind, M_bind, mret, M_ret, try, ask.
  destruct (SessionMiddleware.SetSessionCookie (session h) (User.ID u) e w) as [[c|x] w1] eqn:Hc; [|eexists _, w1; split; [done|by left]].
  apply (SetSessionCookie_ok _ skey) in Hc as (_ & _ & n & cf & wa & wb & _ & _ & Hv); [|exact Hs].
  destruct (Resolve h _ e w1) as [[dest|x] w2] eqn:Hr; eexists _, w2; (split; [done|]); right; eexists c, _;
    (split; [done|]); (split; [exact Hv|]); [right|by left]. by exists w1, dest, w2.
Qed.

Lemma attempt_total req disp lock order e w :
  auth_answers → (∀ a, lock = Some a → order ≡ₚ map_to_list (states a)) →
  ∃ sv w', attempt h req disp lock order e w = (Ok sv, w') ∧
    ∃ r wb, auth h (email req) (password req) e w = (Ok (r, cost sv), wb) ∧ tried e req lock r sv.
Proof.
  intros Ha Ho. unfold attempt. destruct (Ha (email req) (password req) e w) as ([r n] & w1 & H).
  rewrite (bind_step _ _ _ _ _ _ H). simpl. destruct r as [u|x].
  - destruct (admit_total req u e w1) as (r & w2 & Hr & Hout). rewrite (bind_step _ _ _ _ _ _ Hr).
    eexists _, w2. split; [done|]. exists (Ok u), w1. split; [done|]. split; [by destruct lock|exact Hout].
  - destruct (decide (x = ErrInvalidCredentials)) as [->|Hx].
    2:{ exists (MkServed (internal []) lock n), w1. split; [by destruct x|]. exists (Err x), w1. split; [done|]. by destruct x. }
    destruct lock as [a|].
    + destruct (RecordFailure order a (email req) (ip req) (clock e (w_tick w1))) as [[until engaged] a'] eqn:Hf.
      set (w2 := Effects.after w1 (w_db w1) []).
      assert (∃ w3, when engaged (recordLockout h (ip req) until) e w2 = (Ok (), w3)) as [w3 Hw3].
      { destruct engaged; [|by exists w2]. by eexists. }
      assert ((now ← time_Now;
        let '((until, engaged), a') := RecordFailure order a (email req) (ip req) now in
        _ ← when engaged (recordLockout h (ip req) until);
        mret (Some a')) e w1 = (Ok (Some a'), w3)) as Hl.
      { rewrite (bind_step _ _ _ _ (clock e (w_tick w1)) w2) by done. rewrite Hf. by rewrite (bind_step _ _ _ _ _ _ Hw3). }
      destruct (rejected_total req disp invalidCredentials e w3) as (r & w4 & Hr & Hsh).
      exists (MkServed r (Some a') n), w4. split.
      * rewrite (bind_step _ _ _ _ _ _ Hl). by rewrite (bind_step _ _ _ _ _ _ Hr).
      * exists (Err ErrInvalidCredentials), w1. split; [done|]. split; [done|]. exists (clock e (w_tick w1)), a'.
        split; [done|]. eapply step_fail; [by apply Ho|exact Hf].
    + destruct (rejected_total req disp invalidCredentials e w1) as (r & w4 & Hr & Hsh).
      eexists (MkServed r None n), w4. split; [unfold mbind, M_bind, mret, M_ret; by rewrite Hr|].
      exists (Err ErrInvalidCredentials), w1. done.
Qed.

(** What the tracker said of the identity when it was asked. *)

Definition not_locked (e : Env) (req : Request) (lock : option Tracker) : Prop :=
  ∃ n, match lock with Some a => (LockedUntil a (email req) (ip req) (clock e n)).2 = false | None => True end.

(** C26: the password login.  Every request is answered.  A password is compared,
    and costs a derivation, only when the form carries a nonce with the MAC of
    this server and the token that goes with it, the address is not overlong,
    and the tracker did not report it locked; then a wrong password is one
    counted failure in the tracker, a right one drops the identity from it and
    sets the session cookie of that user with a safe redirect, and a failing
    store is neither.  Every other request costs no derivation, leaves the
    tracker as it was and shows a form or an error. *)
Theorem password_login_gates req lock meanwhile order e w :
  auth_answers → (∀ a, lock = Some a → order ≡ₚ map_to_list (states (meanwhile a))) →
  ∃ sv w', handlePostLogin h req lock meanwhile order e w = (Ok sv, w') ∧
    (not_tried lock sv ∨
     own_form req ∧ String.length (email req) ≤ MaxIdentityLen ∧ not_locked e req lock ∧
     ∃ r wa wb, auth h (email req) (password req) e wa = (Ok (r, cost sv), wb) ∧ tried e req (meanwhile <$> lock) r sv).
Proof.
  intros Ha Ho. unfold handlePostLogin. unfold mbind at 1, M_bind at 1, try at 1.
  assert (∀ r w', shown r → ∃ sv w'', (mret (MkServed r lock 0) : M Served) e w' = (Ok sv, w'') ∧ (not_tried lock sv ∨
     own_form req ∧ String.length (email req) ≤ MaxIdentityLen ∧ not_locked e req lock ∧
     ∃ r wa wb, auth h (email req) (password req) e wa = (Ok (r, cost sv), wb) ∧ tried e req (meanwhile <$> lock) r sv)) as Hno.
  { intros r w' Hr. eexists _, w'. split; [done|]. by left. }
  destruct (display h e w) as [[disp|x] w1]; [|apply Hno, internal_shown, nonce_cookies_nil].
  destruct (ShowLocalLogin disp); simpl; [|apply Hno; split; [apply nonce_cookies_nil|done]].
  destruct (checkForm_total req disp e w1) as (o & w2 & Hf & Ho2). rewrite (bind_step _ _ _ _ _ _ Hf).
  destruct o as [r|]; [by apply Hno|]. case_bool_decide as Hlen.
  { destruct (rejected_total req disp invalidCredentials e w2) as (r & w3 & Hr & ?). rewrite (bind_step _ _ _ _ _ _ Hr). by apply Hno. }
  rewrite (bind_step _ _ _ _ (clock e (w_tick w2)) (Effects.after w2 (w_db w2) [])) by done.
  match goal with |- context [match ?b with Some _ => _ | None => _ end] => destruct b as [until|] eqn:Hlock end.
  - rewrite (bind_step _ _ _ _ _ _ (eq_refl : time_Now e _ = (Ok _, _))).
    match goal with |- context [renderForm _ ?st ?er ?rd ?ra ?di ?ck] =>
      edestruct (renderForm_total st er rd ra di ck) as (r & w3 & Hr & Hsh & _) end.
    rewrite (bind_step _ _ _ _ _ _ Hr). by apply Hno.
  - destruct (attempt_total req disp (match lock with None => None | Some a => Some (meanwhile a) end) order e (Effects.after w2 (w_db w2) []))
      as (sv & w3 & Hsv & r & wb & Hau & Ht); [done| |].
    { intros a Hla. destruct lock as [a0|]; [|done]. injection Hla as <-. by apply Ho. }
    exists sv, w3. split; [done|]. right. split; [done|]. split; [lia|]. split.
    + exists (w_tick w2). destruct lock as [a|]; [|done]. destruct (LockedUntil _ _ _ _) as [until []]; done.
    + exists r, (Effects.after w2 (w_db w2) []), wb. split; [done|]. by destruct lock.
Qed.

End login.

(** ** The form that was shown is accepted *)

Lemma Split_free sep b : free_of sep b = true → strings_Split sep b = [b].
Proof.
  induction b as [|c b IH]; [done|]. cbn [free_of strings_Split]. intros [Hc Hb]%andb_true_iff. unbool.
  rewrite bool_decide_false by done. by rewrite IH.
Qed.

Lemma Split_two sep a b : free_of sep a = true → free_of sep b = true → strings_Split sep (a +:+ String sep b) = [a; b].
Proof.
  intros Ha Hb. induction a as [|c a IH].
  - change ("" +:+ String sep b) with (String sep b). cbn [strings_Split]. rewrite bool_decide_true by done. by rewrite Split_free.
  - change (String c a +:+ String sep b) with (String c (a +:+ String sep b)). cbn [free_of strings_Split] in *.
    apply andb_true_iff in Ha as [Hc Ha]. unbool. rewrite bool_decide_false by done. by rewrite IH.
Qed.

Section form.
Context (h : Handler) (skey : string) (Hs : one_key (session h) skey).
Context (Hres : ∀ e w, ∃ w', SessionMiddleware.secrets (session h) e w = (Ok skey, w')).
Context (Hmac : ∀ k s, SessionMiddleware.hmac (session h) k s ≠ "").

Definition drawable (e : Env) : Prop := ∀ n, free_of SessionMiddleware.bar (rand e n) = true ∧ rand e n ≠ "".

Lemma secret_total e w : ∃ w', SessionMiddleware.secret (session h) e w = (Ok skey, w').
Proof.
  destruct (Hres e w) as (w' & H). exists w'. unfold SessionMiddleware.secret, mbind, M_bind, mret, M_ret, try. by rewrite H.
Qed.

Lemma VerifyMAC_total nonce mac e w : ∃ w', SessionMiddleware.VerifyMAC (session h) loginNoncePurpose nonce mac e w =
  (Ok (bool_decide (nonce_mac h skey nonce = mac)), w').
Proof.
  destruct (secret_total e w) as (w' & H). exists w'.
  unfold SessionMiddleware.VerifyMAC, SessionMiddleware.MACFor, mbind, M_bind, mret, M_ret. by rewrite H.
Qed.

Lemma ValidateCSRF_total nonce token e w : ∃ w', SessionMiddleware.ValidateCSRF (session h) nonce token e w =
  (Ok (bool_decide (form_token h skey nonce = token)), w').
Proof.
  destruct (secret_total e w) as (w' & H). exists w'.
  unfold SessionMiddleware.ValidateCSRF, SessionMiddleware.CSRFToken, mbind, M_bind, mret, M_ret. by rewrite H.
Qed.

(** A cookie value of this server, for the nonce. *)

Definition minted (raw nonce : string) : Prop :=
  raw ≠ "" ∧ nonce ≠ "" ∧ strings_Split SessionMiddleware.bar raw = [nonce; nonce_mac h skey nonce].

Lemma b64_nonempty s : s ≠ "" → b64_encode s ≠ "".
Proof. by destruct s as [|a [|b [|c s]]]. Qed.

Lemma parse_minted raw nonce e w : minted raw nonce → ∃ w', parseLoginNonce h raw e w = (Ok (nonce, true), w').
Proof.
  intros (_ & Hn & Hr). unfold parseLoginNonce. rewrite Hr.
  rewrite !bool_decide_false by (done || apply b64_nonempty, Hmac). simpl.
  destruct (VerifyMAC_total nonce (nonce_mac h skey nonce) e w) as (w' & H). exists w'.
  rewrite (bind_step _ _ _ _ _ _ H). by rewrite bool_decide_true.
Qed.

Lemma checkForm_minted req disp raw nonce e w :
  form_ok req = true → nonceCookie req = Some raw → minted raw nonce → csrf_token req = form_token h skey nonce →
  ∃ w', checkForm h req disp e w = (Ok None, w').
Proof.
  intros Hf Hc Hm Ht. unfold checkForm. rewrite Hf, Hc. simpl.
  destruct (parse_minted raw nonce e w Hm) as (w1 & H1). destruct Hm as (Hraw & _). destruct raw as [|x s]; [done|].
  rewrite (bind_step _ _ _ _ _ _ (try_run _ _ _ _ _ H1)).
  destruct (ValidateCSRF_total nonce (csrf_token req) e w1) as (w2 & H2). rewrite (bind_step _ _ _ _ _ _ (try_run _ _ _ _ _ H2)).
  exists w2. by rewrite bool_decide_true.
Qed.

Lemma parse_is_minted raw nonce e w w' : raw ≠ "" → parseLoginNonce h raw e w = (Ok (nonce, true), w') → minted raw nonce.
Proof.
  intros Hraw H. pose proof H as Hsp. apply (parseLoginNonce_ok h skey Hs) in Hsp. split; [done|]. split; [|done].
  unfold parseLoginNonce in H. rewrite Hsp in H. intros ->. by apply ret_ok in H as [H _].
Qed.

(** The cookie that the browser has after the response. *)

Definition kept (cookie : option string) (l : list Cookie) : option string :=
  match l with [c] => Some (ck_Value c) | _ => cookie end.

Lemma ensure_minted cookie e w nonce l w' : drawable e → ensureLoginNonce h cookie e w = (Ok (nonce, l), w') →
  ∃ raw, kept cookie l = Some raw ∧ minted raw nonce.
Proof.
  intros Hd. assert (∀ w0, mintNonce h e w0 = (Ok (nonce, l), w') → ∃ raw, kept cookie l = Some raw ∧ minted raw nonce) as Hmint.
  { intros w0 H. unfold mintNonce in H. mstep H. injection Hm as <- _. mstep H. mstep H. mstep H. apply ret_ok in H as [[= <- <-] _].
    unfold setLoginNonceCookie in Hm1. mstep Hm1. apply ret_ok in Hm1 as [<- _]. eexists. split; [done|]. cbn [ck_Value].
    unfold SessionMiddleware.MACFor in Hm. mstep Hm. apply ret_ok in Hm as [<- _].
    apply (secret_run h skey Hs) in Hm1 as [[= ->]|[x ?]]; [|done].
    destruct (Hd (w_tick w0)) as [Hf Hne]. split; [by destruct (rand e (w_tick w0))|]. split; [done|].
    apply Split_two; [done|]. by apply b64_encode_free. }
  unfold ensureLoginNonce. destruct cookie as [[|x s]|]; try apply Hmint. intros H. mstep H.
  destruct a as [n []]; simpl in H; [|by eapply Hmint]. apply ret_ok in H as [[= <- <-] _].
  exists (String x s). split; [done|]. by eapply parse_is_minted.
Qed.

(** The login form works.  Whatever nonce cookie the browser came with, its
    own, one that was tampered with, or none: the form that GET shows, posted
    back with the cookie that the browser then has, passes the check of POST,
    at any later time and on any process with the same secret; and a cookie of
    this server is kept, so that a second tab does not invalidate the first. *)
Theorem login_form_round_trip redir cookie e w r p w' :
  drawable e → handleGetLogin h redir cookie e w = (Ok r, w') → answer r = Page p → ShowForm p = true →
  (∀ raw nonce, cookie = Some raw → minted raw nonce → kept cookie (cookies r) = cookie) ∧
  ∀ req disp e' w2, form_ok req = true → nonceCookie req = kept cookie (cookies r) → csrf_token req = CSRF p →
    ∃ w3, checkForm h req disp e' w2 = (Ok None, w3).
Proof.
  intros Hd H Hp Hshow. unfold handleGetLogin in H. mstep H. destruct a as [disp|x]; [|apply ret_ok in H as [<- _]; done].
  unfold renderForm in H. mstep H. destruct a as [t l]. simpl in H.
  destruct t as [token|x]; [|apply ret_ok in H as [<- _]; done].
  mstep H. destruct a as [start|x]; [|apply ret_ok in H as [<- _]; done].
  mstep H. apply ret_ok in H as [<- _]. simpl in *. injection Hp as <-. simpl in *. rewrite Hshow in Hm0.
  unfold csrfForRequest in Hm0. mstep Hm0. destruct a0 as [[nonce l']|x]; [|apply ret_ok in Hm0 as [[= ?] _]; done].
  mstep Hm0. apply ret_ok in Hm0 as [[= -> <-] _].
  destruct (ensure_minted cookie e _ nonce l' _ Hd Hm3) as (raw & Hk & Hmin). split.
  - intros raw' nonce' -> Hmin'. destruct (parse_minted raw' nonce' e w0 Hmin') as (wp & Hpm). unfold ensureLoginNonce in Hm3.
    destruct Hmin' as (Hne & _). destruct raw' as [|y s]; [done|].
    rewrite (bind_step _ _ _ _ _ _ Hpm) in Hm3. by apply ret_ok in Hm3 as [[= _ <-] _].
  - intros req disp' e' wq Hf Hc Ht. eapply checkForm_minted; [done|by rewrite Hc|exact Hmin|]. rewrite Ht.
    unfold SessionMiddleware.CSRFToken in Hm4. mstep Hm4. apply ret_ok in Hm4 as [<- _].
    by apply (secret_run h skey Hs) in Hm0 as [[= ->]|[x ?]].
Qed.

End form.

(** ** A browser logs in *)

Module LoginRuns.
Import Scenario.

Definition deps : SessionMiddleware.Deps :=
  SessionMiddleware.MkDeps (mret "key") (mret (MkSessionConfig 0 false SameSiteLaxMode true)) "session" true None None
    (λ k s, k +:+ "/" +:+ s).

Lemma login_deps_key : one_key deps "key".
Proof. intros e w r w' [= <- <-]. auto. Qed.

Lemma deps_secret e w : ∃ w', SessionMiddleware.secrets deps e w = (Ok "key", w').
Proof. by exists w. Qed.

Lemma deps_mac k s : SessionMiddleware.hmac deps k s ≠ "".
Proof. by destruct k. Qed.

Definition handler : Handler :=
  MkHandler (UserAuthService.authenticate RegistrationRuns.derivable true) deps (mret (MkDisplay "" true)) (λ p, mret ("/as" +:+ p)) true
    (λ s, s) (λ _, "2026-01-01T00:00:00Z").

Lemma auth_ok : auth_answers handler.
Proof.
  intros em pw e w. destruct (login_run RegistrationRuns.derivable true eq_refl em pw e w) as (w' & H & _). by eexists _, w'.
Qed.

Lemma env_draws : drawable SessionRuns.env.
Proof. intros n. by split. Qed.

Definition shown_form : res Response * World := handleGetLogin handler "/consent" None SessionRuns.env RegistrationRuns.login_world.

Definition form_cookie : option string := match shown_form.1 with Ok r => kept None (cookies r) | Err _ => None end.
Definition form_csrf : string := match shown_form.1 with Ok (MkResponse _ (Page p)) => CSRF p | _ => "" end.

Definition request (password csrf : string) : Request :=
  MkRequest true "c@x" password "/consent" csrf form_cookie "203.0.113.7".

Definition post (password csrf : string) (a : Tracker) : res Served * World :=
  handlePostLogin handler (request password csrf) (Some a) (λ a, a) (map_to_list (states a)) SessionRuns.env shown_form.2.

Definition empty : Tracker := NewAuthLockout example_config.
Definition failed (n : nat) : Tracker :=
  Nat.iter n (λ a, match (post "wrong" form_csrf a).1 with Ok sv => default a (tracker sv) | Err _ => a end) empty.

Definition summary (r : res Served * World) : option (nat * nat * nat) :=
  match r.1 with
  | Ok sv => Some (match answer (response sv) with Page p => Status p | Plain n => n | RedirectTo n _ => n end, cost sv,
      match tracker sv with Some a => size (states a) | None => 0 end)
  | Err _ => None
  end.

End LoginRuns.

(** The right password, a wrong one, a form with another token, and the right
    password after three wrong ones. *)

Lemma login_runs :
  LoginRuns.summary (LoginRuns.post "pw" LoginRuns.form_csrf LoginRuns.empty) = Some (303, 1, 0) ∧
  LoginRuns.summary (LoginRuns.post "no" LoginRuns.form_csrf LoginRuns.empty) = Some (422, 1, 1) ∧
  LoginRuns.summary (LoginRuns.post "pw" "forged" LoginRuns.empty) = Some (422, 0, 0) ∧
  LoginRuns.summary (LoginRuns.post "pw" LoginRuns.form_csrf (LoginRuns.failed 3)) = Some (429, 0, 1).
Proof. by vm_compute. Qed.

(** The question and the record are two calls: a request that asked before the
    lockout engaged still has its password compared, and when it is right the
    user is in and the lockout is gone. *)

Lemma login_in_flight :
  (LockedUntil (LoginRuns.failed 3) "c@x" "203.0.113.7" Scenario.start).2 = true ∧
  LoginRuns.summary (handlePostLogin LoginRuns.handler (LoginRuns.request "pw" LoginRuns.form_csrf) (Some LoginRuns.empty)
    (λ _, LoginRuns.failed 3) [] SessionRuns.env LoginRuns.shown_form.2) = Some (303, 1, 0).
Proof. by vm_compute. Qed.

Lemma password_login_gates_witness :
  LoginRuns.summary (LoginRuns.post "pw" LoginRuns.form_csrf LoginRuns.empty) = Some (303, 1, 0) ∧
  own_form LoginRuns.handler "key" (LoginRuns.request "pw" LoginRuns.form_csrf).
Proof.
  assert (LoginRuns.summary (LoginRuns.post "pw" LoginRuns.form_csrf LoginRuns.empty) = Some (303, 1, 0)) as Hsum by (by vm_compute).
  split; [exact Hsum|].
  destruct (password_login_gates LoginRuns.handler "key" LoginRuns.login_deps_key (LoginRuns.request "pw" LoginRuns.form_csrf)
    (Some LoginRuns.empty) (λ a, a) (map_to_list (states LoginRuns.empty)) SessionRuns.env LoginRuns.shown_form.2 LoginRuns.auth_ok
    ltac:(by intros a [= <-])) as (sv & w' & H & [(Hc & _)|(Hown & _)]); [exfalso|exact Hown].
  change (LoginRuns.post "pw" LoginRuns.form_csrf LoginRuns.empty = (Ok sv, w')) in H. unfold LoginRuns.summary in Hsum.
  rewrite H in Hsum. simpl in Hsum. rewrite Hc in Hsum. clear -Hsum. discriminate.
Defined.

Lemma login_form_round_trip_witness :
  ∃ r p w', LoginRuns.shown_form = (Ok r, w') ∧ answer r = Page p ∧
  ∃ w3, checkForm LoginRuns.handler (LoginRuns.request "pw" (CSRF p)) (MkDisplay "" true) Scenario.env w' = (Ok None, w3).
Proof.
  destruct LoginRuns.shown_form as [[r|] w'] eqn:H; [|by vm_compute in H].
  assert (∃ p, answer r = Page p ∧ ShowForm p = true) as (p & Hp & Hf).
  { pose proof (f_equal fst H) as Hr. vm_compute in Hr. injection Hr as <-. by eexists. }
  exists r, p, w'. split; [reflexivity|]. split; [exact Hp|].
  destruct (login_form_round_trip LoginRuns.handler "key" LoginRuns.login_deps_key LoginRuns.deps_secret LoginRuns.deps_mac "/consent" None
    SessionRuns.env RegistrationRuns.login_world r p w' LoginRuns.env_draws H Hp Hf) as [_ Hcheck].
  apply Hcheck; [reflexivity| |reflexivity]. unfold LoginRuns.request, LoginRuns.form_cookie. rewrite H. reflexivity.
Defined.
