(* ===== verification/Ssrf.v ===== *)
(** * Addresses that are not dialled (internal/ssrf/transport.go)

    An address has 4 or 16 bytes ([net.IP]); a network is a prefix under a
    mask.  DNS resolution is an argument: what the resolver answers for a name. *)

From S2P Require Import Prelude GoStrings Encoding.

(** ** net.IP *)

Module Net.

Inductive IP := V4 (a : Z) | V6 (a : Z).

#[global] Instance IP_eq_dec : EqDecision IP.
Proof. solve_decision. Defined.

(** The value fits the bytes. *)

Definition ip_ok (ip : IP) : Prop :=
  match ip with V4 a => (0 <= a < 2 ^ 32)%Z | V6 a => (0 <= a < 2 ^ 128)%Z end.

(** [ip.To4]: also the IPv4-mapped IPv6 addresses. *)

Definition To4 (ip : IP) : option Z :=
  match ip with
  | V4 a => Some a
  | V6 a => if bool_decide (Z.shiftr a 32 = 65535)%Z then Some (Z.land a (Z.ones 32)) else None
  end.

(** The form that [Contains] and [Equal] compare. *)

Definition canonical (ip : IP) : IP := match To4 ip with Some a => V4 a | None => ip end.

Record IPNet := MkNet { net_IP : IP; net_bits : Z }.

(** The mask of the first [n] of [w] bits. *)

Definition CIDRMask (n w : Z) : Z := Z.shiftl (Z.ones n) (w - n).

Definition Contains (n : IPNet) (ip : IP) : bool :=
  match net_IP n, canonical ip with
  | V4 p, V4 a => bool_decide (Z.land p (CIDRMask (net_bits n) 32) = Z.land a (CIDRMask (net_bits n) 32))
  | V6 p, V6 a => bool_decide (Z.land p (CIDRMask (net_bits n) 128) = Z.land a (CIDRMask (net_bits n) 128))
  | _, _ => false
  end.

(** [a.b.c.d], and an address given by its first two groups of 16 bits. *)

Definition ip4 (a b c d : Z) : IP := V4 (((a * 256 + b) * 256 + c) * 256 + d).
Definition ip6 (g h rest : Z) : IP := V6 ((g * 65536 + h) * 2 ^ 96 + rest).

(** The byte at index [i] of a 4-byte and of a 16-byte address. *)

Definition byte4 (a i : Z) : Z := Z.land (Z.shiftr a (24 - 8 * i)) 255.
Definition byte16 (a i : Z) : Z := Z.land (Z.shiftr a (120 - 8 * i)) 255.

Definition IsLoopback (ip : IP) : bool :=
  match canonical ip with
  | V4 a => bool_decide (byte4 a 0 = 127%Z)
  | V6 a => bool_decide (a = 1%Z)
  end.

Definition IsPrivate (ip : IP) : bool :=
  match canonical ip with
  | V4 a =>
      orb (bool_decide (byte4 a 0 = 10%Z))
        (orb (andb (bool_decide (byte4 a 0 = 172%Z)) (bool_decide (Z.land (byte4 a 1) 0xf0 = 16%Z)))
             (andb (bool_decide (byte4 a 0 = 192%Z)) (bool_decide (byte4 a 1 = 168%Z))))
  | V6 a => bool_decide (Z.land (byte16 a 0) 0xfe = 0xfc%Z)
  end.

Definition IsLinkLocalUnicast (ip : IP) : bool :=
  match canonical ip with
  | V4 a => andb (bool_decide (byte4 a 0 = 169%Z)) (bool_decide (byte4 a 1 = 254%Z))
  | V6 a => andb (bool_decide (byte16 a 0 = 0xfe%Z)) (bool_decide (Z.land (byte16 a 1) 0xc0 = 0x80%Z))
  end.

Definition IsLinkLocalMulticast (ip : IP) : bool :=
  match canonical ip with
  | V4 a => andb (bool_decide (byte4 a 0 = 224%Z)) (andb (bool_decide (byte4 a 1 = 0%Z)) (bool_decide (byte4 a 2 = 0%Z)))
  | V6 a => andb (bool_decide (byte16 a 0 = 0xff%Z)) (bool_decide (Z.land (byte16 a 1) 0x0f = 0x02%Z))
  end.

Definition IsUnspecified (ip : IP) : bool :=
  match canonical ip with V4 a | V6 a => bool_decide (a = 0%Z) end.

(** [net.SplitHostPort]: the port after the last colon, the host in brackets or
    without a colon. *)

Definition lbracket : Ascii.ascii := ascii_of 91.
Definition rbracket : Ascii.ascii := ascii_of 93.
Definition colon : Ascii.ascii := ascii_of 58.

Fixpoint last_cut (sep : Ascii.ascii) (s : string) : option (string * string) :=
  match s with
  | EmptyString => None
  | String c s' =>
      match last_cut sep s' with
      | Some (a, b) => Some (String c a, b)
      | None => if bool_decide (c = sep) then Some ("", s') else None
      end
  end.

Definition no_brackets (s : string) : bool := andb (free_of lbracket s) (free_of rbracket s).

Definition plain_host (host port : string) : option (string * string) :=
  if andb (free_of colon host) (andb (no_brackets host) (no_brackets port)) then Some (host, port) else None.

Definition SplitHostPort (hostport : string) : option (string * string) :=
  match last_cut colon hostport with
  | None => None
  | Some (before, port) =>
      match before with
      | String c r =>
          if bool_decide (c = lbracket) then
            match strings_Cut rbracket r with
            | Some (host, "") => if andb (free_of lbracket host) (no_brackets port) then Some (host, port) else None
            | _ => None
            end
          else plain_host before port
      | EmptyString => plain_host before port
      end
  end.

(** [net.JoinHostPort] *)

Definition JoinHostPort (host port : string) : string :=
  if free_of colon host then host +:+ ":" +:+ port else "[" +:+ host +:+ "]:" +:+ port.

End Net.
Import Net.

Module Ssrf.

Definition privateNetworks : list IPNet :=
  [MkNet (ip4 127 0 0 0) 8; MkNet (ip4 10 0 0 0) 8; MkNet (ip4 172 16 0 0) 12; MkNet (ip4 192 168 0 0) 16;
   MkNet (ip4 169 254 0 0) 16; MkNet (ip4 0 0 0 0) 8;
   MkNet (ip4 100 64 0 0) 10; MkNet (ip4 192 0 0 0) 24; MkNet (ip4 192 0 2 0) 24; MkNet (ip4 198 18 0 0) 15;
   MkNet (ip4 198 51 100 0) 24; MkNet (ip4 203 0 113 0) 24; MkNet (ip4 224 0 0 0) 4; MkNet (ip4 240 0 0 0) 4;
   MkNet (ip6 0 0 1) 128; MkNet (ip6 0xfc00 0 0) 7; MkNet (ip6 0xfe80 0 0) 10;
   MkNet (ip6 0 0 0) 128; MkNet (ip6 0x2001 0x0db8 0) 32; MkNet (ip6 0xff00 0 0) 8].

(** [None] is the nil [net.IP]. *)

Definition IsPrivateIP (ip : option IP) : bool :=
  match ip with
  | None => false
  | Some ip => existsb (λ n, Contains n ip) privateNetworks
  end.

(** What the resolver answers: no answer, or a list of addresses. *)

Record safeConfig := MkSafe {
  allowPrivate : bool;
  resolver : string → option (list IP)
}.

Definition Option_ : Type := safeConfig → safeConfig.
Definition AllowPrivate : Option_ := λ c, MkSafe true (resolver c).
Definition withResolver (r : string → option (list IP)) : Option_ := λ c, MkSafe (allowPrivate c) r.

(** The configuration the transport closes over. *)

Definition NewSafeTransport (DefaultResolver : string → option (list IP)) (opts : list Option_) : safeConfig :=
  fold_left (λ cfg opt, opt cfg) opts (MkSafe false DefaultResolver).

(** What the dialer is asked for: the address as it came, or one IP. *)

Inductive Target := Name (addr : string) | Address (ip : IP) (port : string).

#[global] Instance Target_eq_dec : EqDecision Target.
Proof. solve_decision. Defined.

Definition DialContext (cfg : safeConfig) (addr : string) : option Target :=
  if allowPrivate cfg then Some (Name addr) else
  match SplitHostPort addr with
  | None => None
  | Some (host, port) =>
      match resolver cfg host with
      | None | Some [] => None
      | Some (ip :: ips) =>
          if existsb (λ a, IsPrivateIP (Some a)) (ip :: ips) then None else Some (Address ip port)
      end
  end.

End Ssrf.
