(* ===== verification/SsrfTheorems.v ===== *)
(** * Theorems about the addresses that are not dialled

    The list of networks is a list of address blocks, first to last; a
    filtering transport connects to an address outside them which the resolver
    answered for the host, and to nothing else. *)

From S2P Require Import Prelude GoStrings Encoding Ssrf.
Import Net Ssrf.

(** ** The networks as intervals *)

Section intervals.
Local Open Scope Z_scope.

(** Equal under the mask is equal quotient, hence an interval. *)

Lemma land_mask w n a : 0 <= n <= w → 0 <= a < 2 ^ w → Z.land a (CIDRMask n w) = a / 2 ^ (w - n) * 2 ^ (w - n).
Proof.
  intros Hn Ha. unfold CIDRMask. rewrite <-Z.shiftl_mul_pow2, <-Z.shiftr_div_pow2 by lia.
  apply Z.bits_inj'. intros i Hi. rewrite Z.land_spec. destruct (Z.lt_decidable i (w - n)) as [Hlt|Hge].
  - rewrite !Z.shiftl_spec_low by lia. apply andb_false_r.
  - rewrite !Z.shiftl_spec by lia. rewrite Z.shiftr_spec by lia. replace (i - (w - n) + (w - n)) with i by lia.
    destruct (Z.lt_decidable i w) as [Hiw|Hiw].
    + rewrite Z.ones_spec_low by lia. apply andb_true_r.
    + rewrite Z.ones_spec_high by lia. rewrite andb_false_r. symmetry. apply Z.testbit_false; [lia|].
      rewrite Z.div_small; [done|]. split; [lia|]. apply (Z.lt_le_trans _ (2 ^ w)); [lia|]. apply Z.pow_le_mono_r; lia.
Qed.

Lemma masked_interval w n p a :
  0 <= n <= w → 0 <= p < 2 ^ w → 0 <= a < 2 ^ w → p mod 2 ^ (w - n) = 0 →
  (Z.land p (CIDRMask n w) = Z.land a (CIDRMask n w) ↔ p <= a <= p + (2 ^ (w - n) - 1)).
Proof.
  intros Hn Hp Ha Hm. rewrite !land_mask by done. set (s := 2 ^ (w - n)) in *. assert (0 < s) by (apply Z.pow_pos_nonneg; lia).
  pose proof (Z.div_mod p s ltac:(lia)). pose proof (Z.div_mod a s ltac:(lia)). pose proof (Z.mod_pos_bound a s ltac:(lia)).
  split; intros.
  - nia.
  - f_equal. assert (p / s = a / s) as ->; [|done]. apply (Z.div_unique a s _ (a - s * (p / s))); lia.
Qed.

Definition width (ip : IP) : Z := match ip with V4 _ => 32 | V6 _ => 128 end.
Definition value (ip : IP) : Z := match ip with V4 a | V6 a => a end.

(** A network in normal form: no address bit outside the mask. *)

Definition net_ok (n : IPNet) : bool :=
  let w := width (net_IP n) in
  bool_decide (0 <= net_bits n <= w ∧ 0 <= value (net_IP n) < 2 ^ w ∧ value (net_IP n) mod 2 ^ (w - net_bits n) = 0).

(** A block: the first and the last address. *)

Definition block_of (n : IPNet) : IP * IP :=
  match net_IP n with
  | V4 a => (V4 a, V4 (a + (2 ^ (32 - net_bits n) - 1)))
  | V6 a => (V6 a, V6 (a + (2 ^ (128 - net_bits n) - 1)))
  end.

Definition within (b : IP * IP) (ip : IP) : Prop :=
  match b, ip with
  | (V4 lo, V4 hi), V4 a | (V6 lo, V6 hi), V6 a => lo <= a <= hi
  | _, _ => False
  end.

Lemma canonical_ok ip : ip_ok ip → ip_ok (canonical ip).
Proof.
  unfold canonical, To4, ip_ok. destruct ip as [a|a]; [done|]. intros Ha. case_bool_decide; [|done].
  rewrite Z.land_ones by done. apply Z.mod_pos_bound. done.
Qed.

Lemma Contains_block n ip : net_ok n = true → ip_ok ip → Contains n ip = true ↔ within (block_of n) (canonical ip).
Proof.
  unfold net_ok, Contains, block_of. intros Hn%bool_decide_eq_true Hip%canonical_ok. destruct Hn as (Hb & Hv & Hm).
  destruct (net_IP n) as [p|p], (canonical ip) as [a|a]; simpl in *; try done; rewrite bool_decide_eq_true; by apply masked_interval.
Qed.

End intervals.

(** ** The blocks *)

(** The last address of a 16-byte block that starts with [g:h]. *)

Definition ip6_ff (g h : Z) : IP := ip6 g h (2 ^ 96 - 1).

Definition blocks : list (IP * IP) :=
  [(ip4 127 0 0 0, ip4 127 255 255 255);
   (ip4 10 0 0 0, ip4 10 255 255 255);
   (ip4 172 16 0 0, ip4 172 31 255 255);
   (ip4 192 168 0 0, ip4 192 168 255 255);
   (ip4 169 254 0 0, ip4 169 254 255 255);
   (ip4 0 0 0 0, ip4 0 255 255 255);
   (ip4 100 64 0 0, ip4 100 127 255 255);
   (ip4 192 0 0 0, ip4 192 0 0 255);
   (ip4 192 0 2 0, ip4 192 0 2 255);
   (ip4 198 18 0 0, ip4 198 19 255 255);
   (ip4 198 51 100 0, ip4 198 51 100 255);
   (ip4 203 0 113 0, ip4 203 0 113 255);
   (ip4 224 0 0 0, ip4 239 255 255 255);
   (ip4 240 0 0 0, ip4 255 255 255 255);
   (ip6 0 0 1, ip6 0 0 1);
   (ip6 0xfc00 0 0, ip6_ff 0xfdff 0xffff);
   (ip6 0xfe80 0 0, ip6_ff 0xfebf 0xffff);
   (ip6 0 0 0, ip6 0 0 0);
   (ip6 0x2001 0x0db8 0, ip6_ff 0x2001 0x0db8);
   (ip6 0xff00 0 0, ip6_ff 0xffff 0xffff)].

Lemma networks_ok : forallb net_ok privateNetworks = true.
Proof. by vm_compute. Qed.

Lemma networks_blocks : block_of <$> privateNetworks = blocks.
Proof. by vm_compute. Qed.

(** Outside every block, written the 4-byte way where there is one. *)

Definition public (ip : IP) : Prop := ∀ b, b ∈ blocks → ¬ within b (canonical ip).

Lemma IsPrivateIP_blocks ip : ip_ok ip →
  IsPrivateIP (Some ip) = true ↔ ∃ b, b ∈ blocks ∧ within b (canonical ip).
Proof.
  intros Hip. unfold IsPrivateIP. rewrite existsb_exists, <-networks_blocks. pose proof (proj1 (forallb_forall _ _) networks_ok) as Hok. split.
  - intros (n & Hn & Hc). exists (block_of n). split; [by apply list_elem_of_fmap; exists n; rewrite list_elem_of_In|].
    by apply (Contains_block n); [apply Hok|..].
  - intros (b & (n & -> & Hn)%list_elem_of_fmap & Hw). rewrite list_elem_of_In in Hn.
    exists n. split; [done|]. by apply (Contains_block n); [apply Hok|..].
Qed.

Lemma not_private ip : ip_ok ip → IsPrivateIP (Some ip) = false ↔ public ip.
Proof.
  intros Hip. pose proof (IsPrivateIP_blocks ip Hip) as Hb. unfold public. split.
  - intros Hf b Hin Hw. rewrite (proj2 Hb) in Hf by eauto. done.
  - intros Hp. apply not_true_is_false. intros (b & Hin & Hw)%Hb. by eapply Hp.
Qed.

(** ** The checks on a literal

    Every address [net/netip]'s predicates call local is in a block, written
    either way. *)

Lemma byte4_div a i : (0 <= i <= 3)%Z → byte4 a i = (a / 2 ^ (24 - 8 * i) mod 256)%Z.
Proof. intros. unfold byte4. change 255%Z with (Z.ones 8). by rewrite Z.land_ones, Z.shiftr_div_pow2 by lia. Qed.

Lemma byte16_div a i : (0 <= i <= 15)%Z → byte16 a i = (a / 2 ^ (120 - 8 * i) mod 256)%Z.
Proof. intros. unfold byte16. change 255%Z with (Z.ones 8). by rewrite Z.land_ones, Z.shiftr_div_pow2 by lia. Qed.

(** A mask on a byte is an interval, by inspection of the 256 of them. *)

Lemma byte_mask m v lo hi :
  forallb (λ b, implb (bool_decide (Z.land b m = v)) (bool_decide (lo <= b <= hi)%Z)) (seqZ 0 256) = true →
  ∀ a k, (0 <= a)%Z → (0 <= k)%Z → Z.land (a / 2 ^ k mod 256) m = v → (lo <= a / 2 ^ k mod 256 <= hi)%Z.
Proof.
  intros H a k Ha Hk Hv. rewrite forallb_forall in H. pose proof (Z.mod_pos_bound (a / 2 ^ k) 256 ltac:(lia)).
  specialize (H (a / 2 ^ k mod 256)%Z). rewrite <-list_elem_of_In, elem_of_seqZ in H. specialize (H ltac:(lia)).
  rewrite bool_decide_true in H by done. simpl in H. by apply bool_decide_eq_true in H.
Qed.

Definition literal_local (ip : IP) : bool :=
  orb (IsLoopback ip) (orb (IsPrivate ip) (orb (orb (IsLinkLocalUnicast ip) (IsLinkLocalMulticast ip)) (IsUnspecified ip))).

Ltac in_block i := exists (nth i blocks (V4 0, V4 0)); split; [apply (proj2 (list_elem_of_In _ _)), nth_In; vm_compute; lia|].

Lemma v4_bytes a : (0 <= a < 2 ^ 32)%Z →
  ∃ b0 b1 b2 b3, (0 <= b0 < 256 ∧ 0 <= b1 < 256 ∧ 0 <= b2 < 256 ∧ 0 <= b3 < 256)%Z ∧
    V4 a = ip4 b0 b1 b2 b3 ∧ byte4 a 0 = b0 ∧ byte4 a 1 = b1 ∧ byte4 a 2 = b2.
Proof.
  intros Ha. exists (a / 2 ^ 24)%Z, (a / 2 ^ 16 mod 256)%Z, (a / 2 ^ 8 mod 256)%Z, (a mod 256)%Z.
  rewrite !byte4_div by lia. pose proof (Z.div_lt_upper_bound a (2 ^ 24) 256 ltac:(lia) ltac:(lia)).
  pose proof (Z.div_pos a (2 ^ 24) ltac:(lia) ltac:(lia)).
  change (24 - 8 * 0)%Z with 24%Z. rewrite (Z.mod_small (a / 2 ^ 24)) by lia.
  repeat split; try (by apply Z.mod_pos_bound); [done..|].
  unfold ip4. f_equal. pose proof (Z.div_mod a 256 ltac:(lia)). pose proof (Z.div_mod (a / 256) 256 ltac:(lia)).
  pose proof (Z.div_mod (a / 256 / 256) 256 ltac:(lia)). rewrite !Z.div_div in * by lia. change (256 * 256)%Z with (2 ^ 16)%Z in *.
  change (2 ^ 16 * 256)%Z with (2 ^ 24)%Z in *. change (2 ^ 8)%Z with 256%Z. lia.
Qed.

Lemma literal_v4 a : (0 <= a < 2 ^ 32)%Z → literal_local (V4 a) = true → ∃ b, b ∈ blocks ∧ within b (V4 a).
Proof.
  intros (b0 & b1 & b2 & b3 & (H0 & H1 & H2 & H3) & E & E0 & E1 & E2)%v4_bytes.
  unfold literal_local, IsLoopback, IsPrivate, IsLinkLocalUnicast, IsLinkLocalMulticast, IsUnspecified. change (canonical (V4 a)) with (V4 a). cbv iota.
  rewrite E, E0, E1, E2. rewrite !orb_true_iff, !andb_true_iff, !bool_decide_eq_true.
  intros [H|[[H|[[Ha Hb]|[Ha Hb]]]|[[[Ha Hb]|(Ha & Hb & Hc)]|H]]].
  - in_block 0. simpl. lia.
  - in_block 1. simpl. lia.
  - in_block 2. pose proof (byte_mask 0xf0 16 16 31 ltac:(by vm_compute) b1 0 ltac:(lia) ltac:(lia)) as Hm.
    rewrite Z.div_1_r, Z.mod_small in Hm by lia. specialize (Hm Hb). simpl. lia.
  - in_block 3. simpl. lia.
  - in_block 4. simpl. lia.
  - in_block 12. simpl. lia.
  - unfold ip4 in E. simplify_eq. in_block 5. simpl. lia.
Qed.

Lemma v6_bytes a : (0 <= a < 2 ^ 128)%Z →
  ∃ b0 b1 r, (0 <= b0 < 256 ∧ 0 <= b1 < 256 ∧ 0 <= r < 2 ^ 112)%Z ∧
    a = ((b0 * 256 + b1) * 2 ^ 112 + r)%Z ∧ byte16 a 0 = b0 ∧ byte16 a 1 = b1.
Proof.
  intros Ha. exists (a / 2 ^ 120)%Z, (a / 2 ^ 112 mod 256)%Z, (a mod 2 ^ 112)%Z.
  rewrite !byte16_div by lia. pose proof (Z.div_lt_upper_bound a (2 ^ 120) 256 ltac:(lia) ltac:(lia)).
  pose proof (Z.div_pos a (2 ^ 120) ltac:(lia) ltac:(lia)).
  change (120 - 8 * 0)%Z with 120%Z. rewrite (Z.mod_small (a / 2 ^ 120)) by lia.
  repeat split; try (by apply Z.mod_pos_bound); [done..|].
  pose proof (Z.div_mod a (2 ^ 112) ltac:(lia)). pose proof (Z.div_mod (a / 2 ^ 112) 256 ltac:(lia)) as Hd.
  rewrite Z.div_div in Hd by lia. change (2 ^ 112 * 256)%Z with (2 ^ 120)%Z in Hd. lia.
Qed.

Lemma literal_v6 a : (0 <= a < 2 ^ 128)%Z → canonical (V6 a) = V6 a → literal_local (V6 a) = true → ∃ b, b ∈ blocks ∧ within b (V6 a).
Proof.
  intros (b0 & b1 & r & (H0 & H1 & H2) & E & E0 & E1)%v6_bytes Hc.
  unfold literal_local, IsLoopback, IsPrivate, IsLinkLocalUnicast, IsLinkLocalMulticast, IsUnspecified. rewrite Hc. cbv iota.
  rewrite E0, E1. rewrite !orb_true_iff, !andb_true_iff, !bool_decide_eq_true.
  assert (∀ m v lo hi x, (0 <= x < 256)%Z → forallb (λ b, implb (bool_decide (Z.land b m = v)) (bool_decide (lo <= b <= hi)%Z)) (seqZ 0 256) = true →
    Z.land x m = v → (lo <= x <= hi)%Z) as Hmask.
  { intros m v lo hi x Hx Hf. pose proof (byte_mask m v lo hi Hf x 0 ltac:(lia) ltac:(lia)) as Hm. by rewrite Z.div_1_r, Z.mod_small in Hm by lia. }
  intros [H|[H|[[[Ha Hb]|[Ha Hb]]|H]]].
  - in_block 14. simpl. lia.
  - in_block 15. apply (Hmask _ _ 252 253)%Z in H; [|done|by vm_compute]. simpl. lia.
  - in_block 16. apply (Hmask _ _ 128 191)%Z in Hb; [|done|by vm_compute]. simpl. lia.
  - in_block 19. simpl. lia.
  - in_block 17. simpl. lia.
Qed.

Lemma canonical_idem ip : canonical (canonical ip) = canonical ip.
Proof. unfold canonical. destruct (To4 ip) as [a|] eqn:E; [done|]. by rewrite E. Qed.

Lemma literal_local_private ip : ip_ok ip → literal_local ip = true → IsPrivateIP (Some ip) = true.
Proof.
  intros Hok Hl. apply IsPrivateIP_blocks; [done|].
  assert (literal_local (canonical ip) = true) as Hl'.
  { revert Hl. unfold literal_local, IsLoopback, IsPrivate, IsLinkLocalUnicast, IsLinkLocalMulticast, IsUnspecified. by rewrite canonical_idem. }
  pose proof (canonical_ok _ Hok) as Ho. destruct (canonical ip) as [a|a] eqn:Hc; [by apply literal_v4|apply literal_v6; [done| |done]].
  by rewrite <-Hc, canonical_idem.
Qed.

(** ** host:port *)

Lemma last_cut_free sep s : free_of sep s = true → last_cut sep s = None.
Proof.
  induction s as [|c s IH]; [done|]. cbn [free_of last_cut]. intros [Hc Hs]%andb_true_iff.
  rewrite IH by done. apply bool_decide_eq_true in Hc. by rewrite bool_decide_false.
Qed.

Lemma last_cut_app sep a b : free_of sep b = true → last_cut sep (a +:+ String sep b) = Some (a, b).
Proof.
  intros Hb. induction a as [|c a IH].
  - change ("" +:+ String sep b) with (String sep b). cbn [last_cut]. by rewrite last_cut_free, bool_decide_true.
  - change (String c a +:+ String sep b) with (String c (a +:+ String sep b)). cbn [last_cut]. by rewrite IH.
Qed.

Lemma Split_Join host port : no_brackets host = true → no_brackets port = true → free_of colon port = true →
  SplitHostPort (JoinHostPort host port) = Some (host, port).
Proof.
  intros Hh Hp Hc. pose proof (proj1 (andb_true_iff _ _) Hh) as [Hl Hr]. unfold JoinHostPort, SplitHostPort.
  destruct (free_of colon host) eqn:Hf.
  - change (host +:+ ":" +:+ port) with (host +:+ String colon port). rewrite last_cut_app by done.
    assert (plain_host host port = Some (host, port)) as Hph by (unfold plain_host; by rewrite Hf, Hh, Hp).
    destruct host as [|c r]; [done|]. cbn [free_of] in Hl. apply andb_true_iff in Hl as [Hcl _].
    apply bool_decide_eq_true in Hcl. by rewrite bool_decide_false.
  - replace ("[" +:+ host +:+ "]:" +:+ port) with (String lbracket (host +:+ "]") +:+ String colon port).
    2: { change (String lbracket (host +:+ "]") +:+ String colon port) with (String lbracket ((host +:+ "]") +:+ String colon port)).
         rewrite string_app_assoc. done. }
    rewrite last_cut_app by done. rewrite bool_decide_true by done. change "]" with (String rbracket "").
    by rewrite Cut_app, Hl, Hp.
Qed.

(** ** The dial *)

Lemma DialContext_public R addr t :
  (∀ host ips ip, R host = Some ips → ip ∈ ips → ip_ok ip) → DialContext (NewSafeTransport R []) addr = Some t →
  ∃ ip port, t = Address ip port ∧ ip_ok ip ∧ public ip.
Proof.
  intros Hok. unfold DialContext. cbn [NewSafeTransport fold_left allowPrivate resolver].
  destruct (SplitHostPort addr) as [[host port]|]; [|done]. destruct (R host) as [[|ip ips]|] eqn:HR; [done| |done].
  destruct (existsb _ _) eqn:He; [done|]. intros [= <-]. exists ip, port. split; [done|].
  assert (ip_ok ip) as Hi by (eapply Hok; [done|left]). split; [done|]. apply not_private; [done|].
  apply not_true_is_false. intros Hp. cbn [existsb] in He. by rewrite Hp in He.
Qed.

(** C25: For every address list the resolver may answer, a transport made
    without [AllowPrivate] dials [host:port] exactly when every one of the
    addresses lies outside the twenty blocks (an IPv4-mapped address counts
    as the address it maps), and it dials the first of them: that address
    itself, which is not resolved again.  For no string at all does it hand
    the dialer a name or an address of a block, and any address that
    [net.IP]'s own predicates call loopback, private, link-local or
    unspecified is in a block. *)
Theorem filtering_dial_is_public R host port :
  (∀ h ips ip, R h = Some ips → ip ∈ ips → ip_ok ip) →
  no_brackets host = true → no_brackets port = true → free_of colon port = true →
  (∀ t, DialContext (NewSafeTransport R []) (JoinHostPort host port) = Some t ↔
        ∃ ip ips, t = Address ip port ∧ R host = Some (ip :: ips) ∧ Forall public (ip :: ips)) ∧
  (∀ addr t, DialContext (NewSafeTransport R []) addr = Some t → ∃ ip port', t = Address ip port' ∧ public ip) ∧
  (∀ ip, ip_ok ip → literal_local ip = true → ¬ public ip).
Proof.
  intros Hok Hh Hp Hc. split; [intros t; split|split].
  - unfold DialContext. cbn [NewSafeTransport fold_left allowPrivate resolver]. rewrite Split_Join by done.
    destruct (R host) as [[|ip ips]|] eqn:HR; [done| |done]. destruct (existsb _ _) eqn:He; [done|]. intros [= <-].
    exists ip, ips. split; [done|]. split; [done|]. rewrite Forall_forall. intros a Ha. apply not_private; [by eapply Hok|].
    apply not_true_is_false. intros Hpr. enough (existsb (λ a, IsPrivateIP (Some a)) (ip :: ips) = true) by congruence.
    apply existsb_exists. exists a. by rewrite <-list_elem_of_In.
  - intros (ip & ips & -> & HR & Hall). unfold DialContext. cbn [NewSafeTransport fold_left allowPrivate resolver].
    rewrite Split_Join, HR by done. destruct (existsb _ _) eqn:He; [|done]. apply existsb_exists in He as (a & Ha & Hpr).
    rewrite <-list_elem_of_In in Ha. rewrite Forall_forall in Hall. specialize (Hall a Ha). apply not_private in Hall; [congruence|by eapply Hok].
  - intros addr t Hd. destruct (DialContext_public R addr t Hok Hd) as (ip & port' & -> & _ & Hpub). eauto.
  - intros ip Hi Hl Hpub. apply literal_local_private in Hl; [|done]. apply not_private in Hpub; [congruence|done].
Qed.

(** ** Runs *)

Module DialRuns.

(** A resolver: one public name, one with a private address among its
    addresses, and literals. *)

Definition resolve (host : string) : option (list IP) :=
  if bool_decide (host = "client.example") then Some [ip4 93 184 216 34; ip6 0x2606 0x2800 1]
  else if bool_decide (host = "rebind.example") then Some [ip4 93 184 216 34; ip6 0 0 (0xffff * 2 ^ 32 + 0x7f000001)]
  else None.

Lemma resolve_ok h ips ip : resolve h = Some ips → ip ∈ ips → ip_ok ip.
Proof.
  unfold resolve. case_bool_decide; [|case_bool_decide; [|done]]; intros [= <-];
    intros [->|[->|Hn]%elem_of_cons]%elem_of_cons; try (by apply not_elem_of_nil in Hn); vm_compute; split; congruence.
Qed.

End DialRuns.

Lemma filtering_dial_is_public_witness :
  DialContext (NewSafeTransport DialRuns.resolve []) "client.example:443" = Some (Address (ip4 93 184 216 34) "443") ∧
  (∀ t, DialContext (NewSafeTransport DialRuns.resolve []) "rebind.example:443" = Some t → False) ∧
  DialContext (NewSafeTransport DialRuns.resolve [AllowPrivate]) "rebind.example:443" = Some (Name "rebind.example:443").
Proof.
  split; [by vm_compute|]. split; [|by vm_compute]. intros t Ht.
  destruct (filtering_dial_is_public DialRuns.resolve "rebind.example" "443" DialRuns.resolve_ok eq_refl eq_refl eq_refl) as [H _].
  apply (proj1 (H t)) in Ht as (ip & ips & _ & [= <- <-] & Hall). apply Forall_cons in Hall as [_ Hall].
  apply Forall_cons in Hall as [Hm _]. apply (Hm (ip4 127 0 0 0, ip4 127 255 255 255)); [left|]. vm_compute. split; congruence.
Defined.

(** The translation prefix of RFC 6052 is no block: a name with an address
    that embeds [10.0.0.1] in [64:ff9b::/96] is dialled. *)

Lemma nat64_of_private_is_dialled :
  DialContext (NewSafeTransport (λ _, Some [ip6 0x64 0xff9b 0x0a000001]) []) "client.example:443" =
  Some (Address (ip6 0x64 0xff9b 0x0a000001) "443").
Proof. by vm_compute. Qed.
