(* ===== verification/CIMDFetcher.v ===== *)
(** * Fetching client ID metadata documents

    internal/adapters/cimd: the gates on a document URL, the validation of a
    document, the lifetime of a cached one, the two bounded caches, and
    [Fetch] with its shared flights as a system of steps in which calls,
    flights and connections of many requests interleave.  [net/url], JSON,
    [net.ParseIP], the HTTP date and the server that answers are arguments; the
    dial is that of [Ssrf]. *)

From S2P Require Import Prelude GoStrings Encoding Domain Db Effects Crypto Stores ClientValidation Registration Ssrf.
Import Net.

Module Fetcher.

Definition maxCIMDBodySize : Z := 2 ^ 20.
Definition minCacheTTL : Z := 60 * SqlTime.nano.
Definition maxCacheEntries : nat := 1024.
Definition negativeCacheTTL : Z := 30 * SqlTime.nano.
Definition maxNegativeCacheEntries : nat := 1024.
Definition maxConcurrentFetches : nat := 16.
Definition maxAcquireWait : Z := 2 * SqlTime.nano.

(** ** Data *)

Record CIMDFetchConfig := MkFetchConfig {
  RequireHTTPS : bool;
  AllowPrivateAddresses : bool;
  CacheTTL : Z;
  FetchTimeout : Z
}.

Abbreviation CIMDDocument := CIMDService.CIMDDocument.

(** An error wraps one of the two errors of the domain, and perhaps
    [errFetchCapacity] or the context's error. *)

Inductive Sentinel := ErrCIMDFetchFailed | ErrCIMDInvalid.
Inductive Cause := Detail (msg : string) | errFetchCapacity | CtxDone.
Record FetchError := MkError { sentinel : Sentinel; cause : Cause }.

#[global] Instance Sentinel_eq_dec : EqDecision Sentinel.
Proof. solve_decision. Defined.
#[global] Instance Cause_eq_dec : EqDecision Cause.
Proof. solve_decision. Defined.
#[global] Instance FetchError_eq_dec : EqDecision FetchError.
Proof. solve_decision. Defined.

Definition failed (msg : string) : FetchError := MkError ErrCIMDFetchFailed (Detail msg).
Definition invalid (msg : string) : FetchError := MkError ErrCIMDInvalid (Detail msg).

Definition result : Type := CIMDDocument + FetchError.

(** ** The gates on the URL *)

Definition fetchKey (docURL : string) (allowPrivateAddresses : bool) : string :=
  if allowPrivateAddresses then "unfiltered" +:+ docURL else "filtered" +:+ docURL.

Definition slash : Ascii.ascii := ascii_of 47.

Definition dot_segment (seg : string) : bool := bool_decide (seg ∈ [""; "."; ".."]).

Definition hasMeaningfulPath (path : string) : bool :=
  if bool_decide (path = "") then false
  else existsb (λ seg, negb (dot_segment seg)) (strings_Split slash (strings_TrimPrefix path "/")).

Section gates.
Variable ParseIP : string → option IP.

Definition validateURLSafety (parsed : URL) (allowPrivate : bool) : option FetchError :=
  if allowPrivate then None else
  let host := url_Hostname parsed in
  if strings_EqualFold host "localhost" then Some (failed "loopback address rejected") else
  match ParseIP host with
  | None => None
  | Some ip =>
      if IsLoopback ip then Some (failed "loopback address rejected")
      else if IsPrivate ip then Some (failed "private network address rejected")
      else if orb (IsLinkLocalUnicast ip) (IsLinkLocalMulticast ip) then Some (failed "link-local address rejected")
      else if IsUnspecified ip then Some (failed "unspecified address rejected")
      else None
  end.

Variable url_parse : string → option URL.

(** [Fetch] up to the cache: the error it returns, if any. *)

Definition checkURL (docURL : string) (cfg : CIMDFetchConfig) : option FetchError :=
  match url_parse docURL with
  | None => Some (failed "parse")
  | Some parsed =>
      if andb (RequireHTTPS cfg) (negb (bool_decide (url_Scheme parsed = "https"))) then Some (failed "HTTPS required")
      else if andb (negb (bool_decide (url_Scheme parsed = "https"))) (negb (bool_decide (url_Scheme parsed = "http")))
      then Some (failed "unsupported scheme")
      else if negb (hasMeaningfulPath (url_Path parsed)) then Some (invalid "client_id URL must contain a path component")
      else validateURLSafety parsed (AllowPrivateAddresses cfg)
  end.

End gates.

(** ** The document *)

Definition validateDocument (url_parse : string → option URL) (doc : CIMDDocument) (fetchURL : string) : option FetchError :=
  if bool_decide (CIMDService.ClientID doc = "") then Some (invalid "missing client_id")
  else if negb (bool_decide (CIMDService.ClientID doc = fetchURL)) then Some (invalid "client_id does not match fetch URL")
  else if bool_decide (CIMDService.ClientName doc = "") then Some (invalid "missing client_name")
  else if bool_decide (length (CIMDService.RedirectURIs doc) = 0) then Some (invalid "missing redirect_uris")
  else match omap (ClientValidation.ValidateRedirectURI url_parse) (CIMDService.RedirectURIs doc) with
       | [] => None
       | _ :: _ => Some (invalid "invalid redirect_uri")
       end.

Definition applyDefaults (doc : CIMDDocument) : CIMDDocument :=
  CIMDService.MkDocument (CIMDService.ClientID doc) (CIMDService.RedirectURIs doc) (CIMDService.ClientName doc)
    (if bool_decide (length (CIMDService.GrantTypes doc) = 0) then ClientValidation.DefaultGrantTypes else CIMDService.GrantTypes doc)
    (if bool_decide (length (CIMDService.ResponseTypes doc) = 0) then ["code"] else CIMDService.ResponseTypes doc)
    (if bool_decide (CIMDService.TokenEndpointAuthMethod doc = "") then "none" else CIMDService.TokenEndpointAuthMethod doc).

Definition isJSONContentType (ct : string) : bool :=
  let ct := Resource.strings_ToLower (strings_TrimSpace ct) in
  orb (strings_HasPrefix ct "application/json") (strings_HasPrefix ct "application/client-id+json").

(** ** The lifetime of a cached document *)

Record Header := MkHeader { ContentType : string; CacheControl : string; Expires : string }.

Definition comma : Ascii.ascii := ascii_of 44.

Definition splitCacheControl (v : string) : list string :=
  if bool_decide (v = "") then []
  else filter (λ p, p ≠ "") (strings_TrimSpace <$> strings_Split comma (Resource.strings_ToLower v)).

(** An [int64] after an overflow, and a difference of times, which saturates. *)

Definition wrap64 (z : Z) : Z := ((z + 2 ^ 63) mod 2 ^ 64 - 2 ^ 63)%Z.
Definition time_Until (t now : Z) : Z := Z.max (- 2 ^ 63) (Z.min (2 ^ 63 - 1) (t - now)).

Definition clamp (configTTL d : Z) : Z := Z.min (Z.max d minCacheTTL) configTTL.

Definition forbids (d : string) : bool := bool_decide (d = "no-store" ∨ d = "no-cache").

(** What the first well-formed [max-age] says, if there is one. *)

Fixpoint max_age (directives : list string) : option Z :=
  match directives with
  | [] => None
  | d :: ds =>
      if strings_HasPrefix d "max-age=" then
        match strconv_ParseInt (strings_TrimPrefix d "max-age=") with
        | Some secs => if bool_decide (secs < 0)%Z then max_age ds else Some secs
        | None => max_age ds
        end
      else max_age ds
  end.

(** [None]: the document is not cached. *)

Definition cacheLifetime (ParseTime : string → option Z) (now : Z) (h : Header) (configTTL : Z) : option Z :=
  let directives := splitCacheControl (CacheControl h) in
  if existsb forbids directives then None else
  match max_age directives with
  | Some secs =>
      if bool_decide (secs = 0%Z) then None else Some (clamp configTTL (wrap64 (secs * SqlTime.nano)))
  | None =>
      if bool_decide (Expires h ≠ "") then
        match ParseTime (Expires h) with
        | None => None
        | Some t => if bool_decide (time_Until t now <= 0)%Z then None else Some (clamp configTTL (time_Until t now))
        end
      else Some configTTL
  end.

(** ** The bounded maps *)

Section evict.
Context {V : Type} (expiresAt : V → Z).

(** The loop over the map, in the order [l]: the key to delete. *)

Fixpoint victim (now : Z) (soonest : option (string * Z)) (l : list (string * V)) : option string :=
  match l with
  | [] => fst <$> soonest
  | (k, e) :: rest =>
      let exp := expiresAt e in
      if bool_decide (exp < now)%Z then Some k
      else victim now
             (match soonest with
              | None => Some (k, exp)
              | Some (_, soonestAt) => if bool_decide (exp < soonestAt)%Z then Some (k, exp) else soonest
              end) rest
  end.

Definition evictOneLocked (order : list (string * V)) (now : Z) (m : gmap string V) : gmap string V :=
  match victim now None order with Some k => delete k m | None => m end.

(** Room is made for a key that is new to a full map. *)

Definition put (bound : nat) (order : list (string * V)) (now : Z) (key : string) (e : V) (m : gmap string V) : gmap string V :=
  <[key := e]> (if andb (negb (bool_decide (is_Some (m !! key)))) (bool_decide (bound ≤ size m))
                then evictOneLocked order now m else m).

(** A lookup refuses an entry past its expiry. *)

Definition get (now : Z) (key : string) (m : gmap string V) : option V :=
  match m !! key with
  | Some e => if bool_decide (expiresAt e < now)%Z then None else Some e
  | None => None
  end.

End evict.

(** ** One outbound request *)

Record Response := MkResponse {
  StatusCode : Z;
  header : Header;
  Body : string;
  bodyErr : bool                                  (* the body breaks off after these bytes *)
}.

(** The policy of a request, from its context, picks the transport. *)

Definition permissive (allowPrivateKey : option bool) : bool :=
  match allowPrivateKey with Some allow => allow | None => false end.

Definition transport (allow : bool) : list Ssrf.Option_ := if allow then [Ssrf.AllowPrivate] else [].

(** A connection of one of the two transports, and what was dialled for it. *)

Record Conn := MkConn { c_permissive : bool; c_addr : string; c_peer : Ssrf.Target }.

#[global] Instance Conn_eq_dec : EqDecision Conn.
Proof. solve_decision. Defined.

Section response.
Variables (url_parse : string → option URL) (Unmarshal : string → option CIMDDocument).

(** [doFetch], from the response to the document. *)

Definition readDocument (docURL : string) (resp : Response) : result :=
  if negb (bool_decide (StatusCode resp = 200%Z)) then inr (failed "HTTP status")
  else if negb (isJSONContentType (ContentType (header resp))) then inr (invalid "expected JSON content-type")
  else if bool_decide (maxCIMDBodySize < Z.of_nat (String.length (Body resp)))%Z then inr (failed "response body exceeds maximum size")
  else if bodyErr resp then inr (failed "read body")
  else match Unmarshal (Body resp) with
       | None => inr (invalid "invalid JSON")
       | Some doc =>
           match validateDocument url_parse doc docURL with
           | Some e => inr e
           | None => inl (applyDefaults doc)
           end
       end.

End response.

Definition shouldNegativeCache (e : FetchError) : bool := negb (bool_decide (cause e = errFetchCapacity)).
Definition shed : FetchError := MkError ErrCIMDFetchFailed errFetchCapacity.
Definition canceled : FetchError := MkError ErrCIMDFetchFailed CtxDone.

(** ** The state *)

Record cacheEntry := MkCacheEntry { doc : CIMDDocument; doc_expiresAt : Z }.
Record failureEntry := MkFailure { err_ : FetchError; err_expiresAt : Z }.

(** Where the one execution of a flight is. *)

Inductive Phase :=
  | Starting                                      (* before the closure looks into the document cache *)
  | Rechecking                                    (* before it looks into the failure cache *)
  | Acquiring (since : Z)
  | Fetching                                      (* with a slot, from here *)
  | Storing (d : CIMDDocument) (ttl : Z)
  | Releasing (r : result)                        (* to here *)
  | Recording (e : FetchError)
  | Returning (r : result).

Record Flight := MkFlight { f_url : string; f_cfg : CIMDFetchConfig; f_phase : Phase }.

(** Where a call of [Fetch] is, after the gates. *)

Inductive Stage :=
  | Looking                                       (* before it looks into the document cache *)
  | Missed                                        (* before it looks into the failure cache *)
  | Joining
  | Waiting
  | Received (r : result).

Record Caller := MkCaller { c_url : string; c_cfg : CIMDFetchConfig; c_stage : Stage }.

Definition f_key (f : Flight) : string := fetchKey (f_url f) (AllowPrivateAddresses (f_cfg f)).
Definition c_key (c : Caller) : string := fetchKey (c_url c) (AllowPrivateAddresses (c_cfg c)).

(** The fetcher, the calls in progress, and the connections of its transports. *)

Record Sys := MkSys {
  cache : gmap string cacheEntry;
  failures : gmap string failureEntry;
  sf : gmap string Flight;
  sem : nat;
  callers : gmap nat Caller;
  conns : list Conn
}.

Definition New : Sys := MkSys ∅ ∅ ∅ 0 ∅ [].

Definition with_caller (c : nat) (ca : Caller) (s : Sys) : Sys :=
  MkSys (cache s) (failures s) (sf s) (sem s) (<[c := ca]> (callers s)) (conns s).
Definition without_caller (c : nat) (s : Sys) : Sys :=
  MkSys (cache s) (failures s) (sf s) (sem s) (delete c (callers s)) (conns s).
Definition with_flight (f : Flight) (sem' : nat) (s : Sys) : Sys :=
  MkSys (cache s) (failures s) (<[f_key f := f]> (sf s)) sem' (callers s) (conns s).

Definition at_stage (ca : Caller) (st : Stage) : Caller := MkCaller (c_url ca) (c_cfg ca) st.
Definition at_phase (f : Flight) (ph : Phase) : Flight := MkFlight (f_url f) (f_cfg f) ph.

(** The closure, once [doFetch] has returned. *)

Definition fetched (r : result) : Phase :=
  match r with
  | inl d => Returning (inl d)
  | inr e => if shouldNegativeCache e then Recording e else Returning (inr e)
  end.

Definition getCached (now : Z) (key : string) (s : Sys) : option CIMDDocument := doc <$> get doc_expiresAt now key (cache s).
Definition getCachedFailure (now : Z) (key : string) (s : Sys) : option FetchError := err_ <$> get err_expiresAt now key (failures s).

Definition putCache (order : list (string * cacheEntry)) (now : Z) (key : string) (d : CIMDDocument) (ttl : Z) (s : Sys) : Sys :=
  MkSys (put doc_expiresAt maxCacheEntries order now key (MkCacheEntry d (now + ttl)) (cache s)) (failures s) (sf s) (sem s) (callers s) (conns s).

Definition putFailure (order : list (string * failureEntry)) (now : Z) (key : string) (e : FetchError) (s : Sys) : Sys :=
  MkSys (cache s) (put err_expiresAt maxNegativeCacheEntries order now key (MkFailure e (now + negativeCacheTTL)) (failures s))
    (sf s) (sem s) (callers s) (conns s).

(** The end of a flight: the key is free again and everyone who waits on it
    gets the result. *)

Definition deliver (key : string) (r : result) (ca : Caller) : Caller :=
  match c_stage ca with
  | Waiting => if bool_decide (c_key ca = key) then at_stage ca (Received r) else ca
  | _ => ca
  end.

Definition finish (key : string) (r : result) (s : Sys) : Sys :=
  MkSys (cache s) (failures s) (delete key (sf s)) (sem s) (deliver key r <$> callers s) (conns s).

(** ** The steps *)

Inductive label :=
  | LCall (c : nat)                                                          (* the gates let the call pass *)
  | LAnswer (c : nat) (url : string) (cfg : CIMDFetchConfig) (r : result)     (* Fetch returns *)
  | LLook                                                                    (* a cache had no answer *)
  | LJoin (c : nat)                                                          (* DoChan *)
  | LRequest (key : string)                                                  (* a slot is taken *)
  | LDial (conn : Conn)
  | LResponse (url : string) (allow : bool) (conn : Conn) (resp : Response)
  | LNoResponse (key : string)
  | LStore (key : string)
  | LRelease (key : string)
  | LRecord (key : string)
  | LShed (key : string)
  | LFinish (key : string)
  | LClose.

Section steps.
Variables (ParseIP : string → option IP) (url_parse : string → option URL) (Unmarshal : string → option CIMDDocument)
  (ParseTime : string → option Z) (dial_addr : URL → string).

(** What DNS answers, at each time. *)

Variable resolve : Z → string → option (list IP).

Definition deadline (since : Z) (cfg : CIMDFetchConfig) (now : Z) : Prop :=
  (since + maxAcquireWait <= now)%Z ∨ (0 < FetchTimeout cfg ∧ since + FetchTimeout cfg <= now)%Z.

(** What follows a response that was read. *)

Definition responded (f : Flight) (now : Z) (resp : Response) : Phase :=
  match readDocument url_parse Unmarshal (f_url f) resp with
  | inl d =>
      match cacheLifetime ParseTime now (header resp) (CacheTTL (f_cfg f)) with
      | Some ttl => Storing d ttl
      | None => Releasing (inl d)
      end
  | inr e => Releasing (inr e)
  end.

(** A call of [Fetch]. *)

Inductive call_step (now : Z) (s : Sys) : label → Sys → Prop :=
  | call_refused c url cfg e : callers s !! c = None → checkURL ParseIP url_parse url cfg = Some e →
      call_step now s (LAnswer c url cfg (inr e)) s
  | call_enters c url cfg : callers s !! c = None → checkURL ParseIP url_parse url cfg = None →
      call_step now s (LCall c) (with_caller c (MkCaller url cfg Looking) s)
  | call_hit c ca d : callers s !! c = Some ca → c_stage ca = Looking → getCached now (c_key ca) s = Some d →
      call_step now s (LAnswer c (c_url ca) (c_cfg ca) (inl d)) (without_caller c s)
  | call_miss c ca : callers s !! c = Some ca → c_stage ca = Looking → getCached now (c_key ca) s = None →
      call_step now s LLook (with_caller c (at_stage ca Missed) s)
  | call_fails c ca e : callers s !! c = Some ca → c_stage ca = Missed → getCachedFailure now (c_key ca) s = Some e →
      call_step now s (LAnswer c (c_url ca) (c_cfg ca) (inr e)) (without_caller c s)
  | call_goes_on c ca : callers s !! c = Some ca → c_stage ca = Missed → getCachedFailure now (c_key ca) s = None →
      call_step now s LLook (with_caller c (at_stage ca Joining) s)
  | call_joins c ca f : callers s !! c = Some ca → c_stage ca = Joining → sf s !! c_key ca = Some f →
      call_step now s (LJoin c) (with_caller c (at_stage ca Waiting) s)
  | call_starts c ca : callers s !! c = Some ca → c_stage ca = Joining → sf s !! c_key ca = None →
      call_step now s (LJoin c)
        (with_caller c (at_stage ca Waiting) (with_flight (MkFlight (c_url ca) (c_cfg ca) Starting) (sem s) s))
  | call_returns c ca r : callers s !! c = Some ca → c_stage ca = Received r →
      call_step now s (LAnswer c (c_url ca) (c_cfg ca) r) (without_caller c s)
  | call_leaves c ca : callers s !! c = Some ca → (c_stage ca = Waiting ∨ ∃ r, c_stage ca = Received r) →
      call_step now s (LAnswer c (c_url ca) (c_cfg ca) (inr canceled)) (without_caller c s).

(** The flight of a key, in its own goroutine. *)

Inductive flight_step (now : Z) (s : Sys) (key : string) (f : Flight) : label → Sys → Prop :=
  | flight_hit d : f_phase f = Starting → getCached now key s = Some d →
      flight_step now s key f LLook (with_flight (at_phase f (Returning (inl d))) (sem s) s)
  | flight_miss : f_phase f = Starting → getCached now key s = None →
      flight_step now s key f LLook (with_flight (at_phase f Rechecking) (sem s) s)
  | flight_fails e : f_phase f = Rechecking → getCachedFailure now key s = Some e →
      flight_step now s key f LLook (with_flight (at_phase f (Returning (inr e))) (sem s) s)
  | flight_goes_on : f_phase f = Rechecking → getCachedFailure now key s = None →
      flight_step now s key f LLook (with_flight (at_phase f (Acquiring now)) (sem s) s)
  | flight_acquires since : f_phase f = Acquiring since → sem s < maxConcurrentFetches →
      flight_step now s key f (LRequest key) (with_flight (at_phase f Fetching) (S (sem s)) s)
  | flight_shed since : f_phase f = Acquiring since → deadline since (f_cfg f) now →
      flight_step now s key f (LShed key) (with_flight (at_phase f (fetched (inr shed))) (sem s) s)
  | flight_response conn u resp : f_phase f = Fetching → conn ∈ conns s → url_parse (f_url f) = Some u →
      c_permissive conn = permissive (Some (AllowPrivateAddresses (f_cfg f))) → c_addr conn = dial_addr u →
      flight_step now s key f (LResponse (f_url f) (AllowPrivateAddresses (f_cfg f)) conn resp)
        (with_flight (at_phase f (responded f now resp)) (sem s) s)
  | flight_no_response e : f_phase f = Fetching → sentinel e = ErrCIMDFetchFailed → cause e ≠ errFetchCapacity →
      flight_step now s key f (LNoResponse key) (with_flight (at_phase f (Releasing (inr e))) (sem s) s)
  | flight_stores d ttl order : f_phase f = Storing d ttl → order ≡ₚ map_to_list (cache s) →
      flight_step now s key f (LStore key)
        (putCache order now (f_key f) d ttl (with_flight (at_phase f (Releasing (inl d))) (sem s) s))
  | flight_releases r : f_phase f = Releasing r →
      flight_step now s key f (LRelease key) (with_flight (at_phase f (fetched r)) (pred (sem s)) s)
  | flight_records e order : f_phase f = Recording e → order ≡ₚ map_to_list (failures s) →
      flight_step now s key f (LRecord key)
        (putFailure order now key e (with_flight (at_phase f (Returning (inr e))) (sem s) s))
  | flight_ends r : f_phase f = Returning r → flight_step now s key f (LFinish key) (finish key r s).

Inductive step (now : Z) (s : Sys) : label → Sys → Prop :=
  | step_call l s' : call_step now s l s' → step now s l s'
  | step_flight key f l s' : sf s !! key = Some f → flight_step now s key f l s' → step now s l s'
  | step_dial allow addr t :
      Ssrf.DialContext (Ssrf.NewSafeTransport (resolve now) (transport allow)) addr = Some t →
      step now s (LDial (MkConn allow addr t))
        (MkSys (cache s) (failures s) (sf s) (sem s) (callers s) (MkConn allow addr t :: conns s))
  | step_close l1 conn l2 : conns s = l1 ++ conn :: l2 →
      step now s LClose (MkSys (cache s) (failures s) (sf s) (sem s) (callers s) (l1 ++ l2)).

(** What happened since the process started, the latest event first. *)

Record event := MkEvent { at_ : Z; before : Sys; what : label; after : Sys }.

Inductive history : Z → list event → Sys → Prop :=
  | history_boot t : history t [] New
  | history_step t tr s t' l s' : history t tr s → (t <= t')%Z → step t' s l s' →
      history t' (MkEvent t' s l s' :: tr) s'.

End steps.

End Fetcher.
