(* ===== verification/CIMDFetcherTheorems.v ===== *)
(** * Theorems about the metadata document fetcher

    However calls, flights and connections interleave: a document is only
    answered to a call whose own gates it passes and, where the call filters
    addresses, after it came from a public address; the caches and the number
    of outbound requests are bounded. *)

From S2P Require Import Prelude GoStrings Encoding Domain Db Effects Stores ClientValidation Registration Ssrf SsrfTheorems CIMDFetcher.
Import Net Fetcher.

(** ** Keys, documents, lifetimes *)

Lemma fetchKey_inj url1 url2 a1 a2 : fetchKey url1 a1 = fetchKey url2 a2 → url1 = url2 ∧ a1 = a2.
Proof. unfold fetchKey. destruct a1, a2; simpl; intros; simplify_eq; done. Qed.

(** A document that stands for the client at [url]. *)

Record document_ok (url_parse : string → option URL) (url : string) (d : CIMDDocument) : Prop := {
  doc_id : CIMDService.ClientID d = url;
  doc_name : CIMDService.ClientName d ≠ "";
  doc_redirects : CIMDService.RedirectURIs d ≠ [] ∧
    ∀ uri, uri ∈ CIMDService.RedirectURIs d → ClientValidation.safe_redirect url_parse uri;
  doc_defaults : CIMDService.GrantTypes d ≠ [] ∧ CIMDService.ResponseTypes d ≠ [] ∧ CIMDService.TokenEndpointAuthMethod d ≠ ""
}.

Lemma validateDocument_ok url_parse doc url : validateDocument url_parse doc url = None →
  CIMDService.ClientID doc = url ∧ CIMDService.ClientName doc ≠ "" ∧ CIMDService.RedirectURIs doc ≠ [] ∧
  ∀ uri, uri ∈ CIMDService.RedirectURIs doc → ClientValidation.safe_redirect url_parse uri.
Proof.
  unfold validateDocument. intros H. case_all. unbool. split_and!; [done|done|by intros E; rewrite E in *|].
  intros uri Hin. apply ClientValidation.ValidateRedirectURI_safe. by eapply ClientValidation.omap_nil.
Qed.

Lemma readDocument_ok url_parse Unmarshal url resp d :
  readDocument url_parse Unmarshal url resp = inl d → document_ok url_parse url d ∧ StatusCode resp = 200%Z.
Proof.
  unfold readDocument. intros H. destruct (negb (bool_decide (StatusCode resp = 200%Z))) eqn:Hs; [done|]. unbool.
  repeat (case_match; [done|]). destruct (Unmarshal _) as [d0|]; [|done].
  destruct (validateDocument _ _ _) eqn:Hv; [done|]. injection H as <-.
  apply validateDocument_ok in Hv as (Hv1 & Hv2 & Hv3 & Hv4). split; [|done]. split; simpl; [done..|].
  repeat case_bool_decide; split_and!; try done; by intros E; rewrite E in *.
Qed.

Lemma clamp_bounds ttl d : (clamp ttl d <= ttl ∧ (minCacheTTL <= ttl → minCacheTTL <= clamp ttl d))%Z.
Proof. unfold clamp. lia. Qed.

(** However the server answers, an overflowing [max-age] and a date past
    the range of a duration included, a document is cached for no longer than
    the configured lifetime and, unless that lifetime itself is shorter, for at
    least a minute; it is not cached at all when a directive forbids it,
    wherever in the field that directive stands, when the first usable
    [max-age] is zero, or when without one [Expires] is unreadable or past. *)
Theorem cacheLifetime_bounds ParseTime now h ttl :
  match cacheLifetime ParseTime now h ttl with
  | Some d =>
      (d <= ttl ∧ (minCacheTTL <= ttl → minCacheTTL <= d))%Z ∧
      (∀ x, x ∈ splitCacheControl (CacheControl h) → x ≠ "no-store" ∧ x ≠ "no-cache") ∧
      max_age (splitCacheControl (CacheControl h)) ≠ Some 0%Z
  | None =>
      (∃ x, x ∈ splitCacheControl (CacheControl h) ∧ (x = "no-store" ∨ x = "no-cache")) ∨
      max_age (splitCacheControl (CacheControl h)) = Some 0%Z ∨
      max_age (splitCacheControl (CacheControl h)) = None ∧ Expires h ≠ "" ∧
        ∀ t, ParseTime (Expires h) = Some t → (t <= now)%Z
  end.
Proof.
  unfold cacheLifetime. destruct (existsb forbids _) eqn:He.
  { left. apply existsb_exists in He as (x & Hx & Hf). exists x. rewrite list_elem_of_In. unfold forbids in Hf. unbool. done. }
  assert (∀ x, x ∈ splitCacheControl (CacheControl h) → x ≠ "no-store" ∧ x ≠ "no-cache") as Hall.
  { intros x Hx. assert (forbids x = false) as Hf.
    { apply not_true_is_false. intros Ht. enough (existsb forbids (splitCacheControl (CacheControl h)) = true) by congruence.
      apply existsb_exists. exists x. by rewrite <-list_elem_of_In. }
    unfold forbids in Hf. apply bool_decide_eq_false in Hf. tauto. }
  destruct (max_age _) as [secs|].
  - case_bool_decide as Hs; [right; left; congruence|]. split; [apply clamp_bounds|]. split; [done|congruence].
  - case_bool_decide as Hx; [|split; [lia|done]]. destruct (ParseTime _) as [t|] eqn:Hp; [|right; right; done].
    case_bool_decide as Hu; [|split; [apply clamp_bounds|done]]. right; right. split; [done|]. split; [done|].
    intros t' [= <-]. unfold time_Until in Hu. lia.
Qed.

(** ** The bounded maps *)

Section evict.
Context {V : Type} (expiresAt : V → Z).
Implicit Types (m : gmap string V) (order : list (string * V)).

Lemma victim_spec now best order k :
  victim expiresAt now best order = Some k → (∃ z, best = Some (k, z)) ∨ ∃ e, (k, e) ∈ order.
Proof.
  revert best. induction order as [|[k' e'] l IH]; intros best; simpl.
  { destruct best as [[kb z]|]; simpl; intros [= <-]. left. by exists z. }
  destruct (bool_decide (expiresAt e' < now)%Z); [intros [= <-]; right; exists e'; left|].
  intros [(z & Hb)|(e & He)]%IH; [|right; exists e; by right].
  destruct best as [[kb lo]|]; [destruct (bool_decide (expiresAt e' < lo)%Z)|]; simplify_eq; eauto; right; exists e'; left.
Qed.

Lemma victim_some now best order : is_Some best ∨ order ≠ [] → is_Some (victim expiresAt now best order).
Proof.
  revert best. induction order as [|[k e] l IH]; intros best; simpl; [intros [[x ->]|]; by eauto|]. intros H.
  destruct (bool_decide (expiresAt e < now)%Z); [by eauto|]. apply IH. left.
  destruct best as [[kb lo]|]; [|by eauto]. destruct (bool_decide (expiresAt e < lo)%Z); by eauto.
Qed.

Lemma evictOne_size order now m : order ≡ₚ map_to_list m → m ≠ ∅ → S (size (evictOneLocked expiresAt order now m)) = size m.
Proof.
  intros Ho Hm. unfold evictOneLocked. destruct (victim_some now None order) as [k Hk].
  { right. intros ->. apply Permutation_nil_l in Ho. by apply Hm, map_to_list_empty_iff. }
  rewrite Hk. apply victim_spec in Hk as [[? ?]|[e He]]; [done|]. rewrite Ho in He. apply elem_of_map_to_list in He.
  rewrite map_size_delete_Some by eauto. assert (size m ≠ 0) by (by apply map_size_non_empty_iff). lia.
Qed.

Lemma evictOne_lookup order now m k e : evictOneLocked expiresAt order now m !! k = Some e → m !! k = Some e.
Proof. unfold evictOneLocked. case_match; [|done]. by intros [_ ?]%lookup_delete_Some. Qed.

Lemma put_size bound order now key e m : order ≡ₚ map_to_list m → 0 < bound → size m ≤ bound →
  size (put expiresAt bound order now key e m) ≤ bound.
Proof.
  intros Ho Hb Hs. unfold put. destruct (m !! key) as [e0|] eqn:Hk.
  { rewrite bool_decide_true by eauto. simpl. by rewrite map_size_insert_Some. }
  rewrite (bool_decide_false (is_Some _)) by (intros [? ?]; done). simpl. case_bool_decide as Hf.
  - assert (m ≠ ∅) as Hne by (intros ->; rewrite map_size_empty in Hf; lia). pose proof (evictOne_size order now m Ho Hne).
    rewrite map_size_insert_None; [lia|]. destruct (evictOneLocked _ _ _ _ !! key) eqn:E; [|done]. apply evictOne_lookup in E. congruence.
  - rewrite map_size_insert_None by done. lia.
Qed.

Lemma put_lookup bound order now key e m k e' :
  put expiresAt bound order now key e m !! k = Some e' → (k = key ∧ e' = e) ∨ m !! k = Some e'.
Proof.
  unfold put. intros [[-> <-]|[_ H]]%lookup_insert_Some; [by left|right]. case_match; [by eapply evictOne_lookup|done].
Qed.

(** An entry is only lost to a full map. *)

Lemma put_keeps bound order now key e m k e' : m !! k = Some e' → k ≠ key →
  put expiresAt bound order now key e m !! k = Some e' ∨ put expiresAt bound order now key e m !! k = None ∧ bound ≤ size m.
Proof.
  intros Hk Hne. unfold put. rewrite !lookup_insert_ne by done. case_match eqn:Hb; [|by left]. unbool.
  unfold evictOneLocked. case_match; [|by left]. destruct (decide (k = s)) as [->|]; [right; by rewrite lookup_delete_eq|left; by rewrite lookup_delete_ne].
Qed.

Lemma get_some now key m e : get expiresAt now key m = Some e ↔ m !! key = Some e ∧ (now <= expiresAt e)%Z.
Proof. unfold get. destruct (m !! key); [case_bool_decide|]; split; naive_solver lia. Qed.

End evict.

(** ** Where a document comes from *)

Section provenance.
Context (ParseIP : string → option IP) (url_parse : string → option URL) (Unmarshal : string → option CIMDDocument)
  (ParseTime : string → option Z) (dial_addr : URL → string) (resolve : Z → string → option (list IP)).

Hypothesis resolve_ok : ∀ t h ips ip, resolve t h = Some ips → ip ∈ ips → ip_ok ip.

#[local] Abbreviation step := (Fetcher.step ParseIP url_parse Unmarshal ParseTime dial_addr resolve).
#[local] Abbreviation history := (Fetcher.history ParseIP url_parse Unmarshal ParseTime dial_addr resolve).
#[local] Abbreviation checkURL := (Fetcher.checkURL ParseIP url_parse).

(** A connection of the filtering transport leads to a public address. *)

Definition conn_ok (conn : Conn) : Prop :=
  c_permissive conn = false → ∃ ip port, c_peer conn = Ssrf.Address ip port ∧ public ip.

(** [d] was read, for [url] under the address policy [allow], from a response
    to a request that went out under that policy. *)

Definition served (tr : list event) (url : string) (allow : bool) (d : CIMDDocument) : Prop :=
  ∃ ev conn resp, ev ∈ tr ∧ what ev = LResponse url allow conn resp ∧ c_permissive conn = allow ∧ conn_ok conn ∧
    (∃ u, url_parse url = Some u ∧ c_addr conn = dial_addr u) ∧ readDocument url_parse Unmarshal url resp = inl d.

Lemma served_later ev tr url allow d : served tr url allow d → served (ev :: tr) url allow d.
Proof. intros (e & conn & resp & He & H). exists e, conn, resp. split; [by right|done]. Qed.

(** The document a flight will return, once it has one. *)

Definition phase_doc (ph : Phase) : option CIMDDocument :=
  match ph with
  | Storing d _ | Releasing (inl d) | Returning (inl d) => Some d
  | _ => None
  end.

Definition stage_doc (st : Stage) : option CIMDDocument :=
  match st with Received (inl d) => Some d | _ => None end.

Record Sound (tr : list event) (s : Sys) : Prop := {
  sound_conns : ∀ conn, conn ∈ conns s → conn_ok conn;
  sound_cache : ∀ k e, cache s !! k = Some e → ∃ url allow, k = fetchKey url allow ∧ served tr url allow (doc e);
  sound_key : ∀ k f, sf s !! k = Some f → f_key f = k;
  sound_flight : ∀ k f d, sf s !! k = Some f → phase_doc (f_phase f) = Some d →
    served tr (f_url f) (AllowPrivateAddresses (f_cfg f)) d;
  sound_gates : ∀ c ca, callers s !! c = Some ca → checkURL (c_url ca) (c_cfg ca) = None;
  sound_caller : ∀ c ca d, callers s !! c = Some ca → stage_doc (c_stage ca) = Some d →
    served tr (c_url ca) (AllowPrivateAddresses (c_cfg ca)) d
}.

(** The parts of a state that a step leaves alone. *)

Lemma Sound_later ev tr s : Sound tr s → Sound (ev :: tr) s.
Proof.
  intros [H1 H2 H3 H4 H5 H6]. split; [done| |done| |done|].
  - intros k e He. destruct (H2 k e He) as (url & allow & -> & H). eauto using served_later.
  - intros k f d Hf Hd. eapply served_later, H4; done.
  - intros c ca d Hc Hd. eapply served_later, H6; done.
Qed.

Lemma Sound_caller tr s c ca : Sound tr s → checkURL (c_url ca) (c_cfg ca) = None →
  (∀ d, stage_doc (c_stage ca) = Some d → served tr (c_url ca) (AllowPrivateAddresses (c_cfg ca)) d) → Sound tr (with_caller c ca s).
Proof.
  intros [H1 H2 H3 H4 H5 H6] Hg Hd. split; simpl; [done..| |].
  - intros c' ca' [[-> <-]|[_ H]]%lookup_insert_Some; [done|by eapply H5].
  - intros c' ca' d [[-> <-]|[_ H]]%lookup_insert_Some; [by apply Hd|by eapply H6].
Qed.

Lemma Sound_leave tr s c : Sound tr s → Sound tr (without_caller c s).
Proof.
  intros [H1 H2 H3 H4 H5 H6]. split; simpl; [done..| |].
  - intros c' ca' [_ H]%lookup_delete_Some. by eapply H5.
  - intros c' ca' d [_ H]%lookup_delete_Some. by eapply H6.
Qed.

Lemma Sound_with_flight tr s f n : Sound tr s →
  (∀ d, phase_doc (f_phase f) = Some d → served tr (f_url f) (AllowPrivateAddresses (f_cfg f)) d) → Sound tr (with_flight f n s).
Proof.
  intros [H1 H2 H3 H4 H5 H6] Hd. split; simpl; [done..| | |done|done].
  - intros k f' [[<- <-]|[_ H]]%lookup_insert_Some; [done|by eapply H3].
  - intros k f' d [[<- <-]|[_ H]]%lookup_insert_Some; [by apply Hd|by eapply H4].
Qed.

(** A cached answer is for the call that gets it. *)

Lemma getCached_served tr s now url allow d : Sound tr s → getCached now (fetchKey url allow) s = Some d → served tr url allow d.
Proof.
  intros Hs. unfold getCached. intros (e & He & ->)%fmap_Some. apply get_some in He as [He _].
  destruct (sound_cache _ _ Hs _ _ He) as (url' & allow' & [-> ->]%fetchKey_inj & H). done.
Qed.

Lemma call_step_sound now s l s' tr : Sound tr s → call_step ParseIP url_parse now s l s' → Sound tr s'.
Proof.
  intros Hs Hst. destruct Hst; try done; try by apply Sound_leave.
  - by apply Sound_caller.
  - apply Sound_caller; [done|by apply (sound_gates _ _ Hs c ca)|done].
  - apply Sound_caller; [done|by apply (sound_gates _ _ Hs c ca)|done].
  - apply Sound_caller; [done|by apply (sound_gates _ _ Hs c ca)|done].
  - apply Sound_caller; [by apply Sound_with_flight|by apply (sound_gates _ _ Hs c ca)|done].
Qed.

Lemma flight_step_sound now s key f l s' tr ev : Sound tr s → sf s !! key = Some f →
  flight_step url_parse Unmarshal ParseTime dial_addr now s key f l s' → what ev = l → Sound (ev :: tr) s'.
Proof.
  intros Hs Hf Hst Hev. pose proof (sound_key _ _ Hs _ _ Hf) as Hk.
  pose proof (λ d, sound_flight _ _ Hs _ _ d Hf) as Hd. apply (Sound_later ev) in Hs as Hs1.
  destruct Hst as [d E H|E H|e E H|E H|since E H|since E H|conn u resp E Hin Hu Hp Ha|e E H1 H2|d ttl order E H|r E|e order E H|r E];
    rewrite ?E in Hd; try (by apply Sound_with_flight).
  - apply Sound_with_flight; [done|]. intros d' [= <-]. apply served_later. eapply getCached_served; [done|]. by rewrite <-Hk in H.
  - apply Sound_with_flight; [done|]. intros d. simpl. unfold responded. intros Hph.
    exists ev, conn, resp. split; [left|]. split; [done|]. simpl in Hp. split; [done|]. split; [by apply (sound_conns _ _ Hs)|]. split; [by eauto|].
    simpl. destruct (readDocument _ _ _ _) as [d'|e]; [|done]. destruct (cacheLifetime _ _ _ _); simpl in Hph; congruence.
  - assert (served (ev :: tr) (f_url f) (AllowPrivateAddresses (f_cfg f)) d) as Hsv by (by apply served_later, Hd).
    assert (Sound (ev :: tr) (with_flight (at_phase f (Releasing (inl d))) (sem s) s)) as [H1 H2 H3 H4 H5 H6].
    { apply Sound_with_flight; [done|]. by intros d' [= <-]. }
    split; simpl; [done| |done..].
    intros k e [[-> ->]|He]%put_lookup; [by eexists _, _|by eapply H2].
  - apply Sound_with_flight; [done|]. intros d. destruct r as [d'|e]; simpl; [|by case_match]. intros [= <-]. by apply served_later, Hd.
  - assert (Sound (ev :: tr) (with_flight (at_phase f (Returning (inr e))) (sem s) s)) as [H1 H2 H3 H4 H5 H6] by (by apply Sound_with_flight).
    by split.
  - destruct Hs1 as [H1 H2 H3 H4 H5 H6]. split; simpl; [done|done| | | |].
    + intros k f' [_ H]%lookup_delete_Some. by eapply H3.
    + intros k f' d [_ H]%lookup_delete_Some. by eapply H4.
    + intros c ca (ca0 & <- & Hc)%lookup_fmap_Some. apply H5 in Hc. unfold deliver. repeat case_match; done.
    + intros c ca d (ca0 & <- & Hc)%lookup_fmap_Some. pose proof (H6 c ca0 d Hc) as Hca. unfold deliver.
      destruct (c_stage ca0) eqn:Es; try (rewrite Es; done). case_bool_decide as Hkey; [|by rewrite Es].
      simpl. intros Hr. destruct r as [d'|]; [|done]. injection Hr as ->. rewrite <-Hk in Hkey.
      apply fetchKey_inj in Hkey as [-> ->]. by apply served_later, Hd.
Qed.

Lemma step_sound now s l s' tr : Sound tr s → step now s l s' → Sound (MkEvent now s l s' :: tr) s'.
Proof.
  intros Hs Hst. destruct Hst as [l s' Hc|key f l s' Hf Hst|allow addr t Hd|l1 conn l2 Hc].
  - apply Sound_later. by eapply call_step_sound.
  - by eapply flight_step_sound.
  - apply Sound_later. destruct Hs as [H1 H2 H3 H4 H5 H6]. split; simpl; [|done..].
    intros conn [->|Hin]%elem_of_cons; [|by apply H1]. unfold conn_ok. simpl. intros ->. simpl in Hd.
    eapply DialContext_public in Hd as (ip & port & -> & _ & Hpub); [by eauto|]. intros. by eapply resolve_ok.
  - apply Sound_later. destruct Hs as [H1 H2 H3 H4 H5 H6]. split; simpl; [|done..].
    intros c Hin. apply H1. rewrite Hc. rewrite elem_of_app, elem_of_cons. apply elem_of_app in Hin. tauto.
Qed.

Lemma history_sound t tr s : history t tr s → Sound tr s.
Proof.
  induction 1 as [t|t tr s t' l s' _ IH Ht Hst]; [|by eapply step_sound].
  split; simpl; try done; intros *; by rewrite ?lookup_empty, ?elem_of_nil.
Qed.

(** An event of a history, with the history before it. *)

Lemma history_event t tr1 ev tr2 s : history t (tr1 ++ ev :: tr2) s →
  history (at_ ev) (ev :: tr2) (after ev) ∧ step (at_ ev) (before ev) (what ev) (after ev) ∧
  ∃ t0, history t0 tr2 (before ev) ∧ (t0 <= at_ ev)%Z.
Proof.
  revert t s. induction tr1 as [|ev' tr1 IH]; intros t s H; inversion H; subst; simpl; [|by eapply IH].
  split; [done|]. split; [done|]. eauto.
Qed.

Lemma answer_served t tr1 ev tr2 s c url cfg d :
  history t (tr1 ++ ev :: tr2) s → what ev = LAnswer c url cfg (inl d) →
  checkURL url cfg = None ∧ served tr2 url (AllowPrivateAddresses cfg) d.
Proof.
  intros (_ & Hst & t0 & Hh & _)%history_event Hev. apply history_sound in Hh. rewrite Hev in Hst.
  inversion Hst as [l s' Hc|key f l s' Hf Hfl| |]; subst; [|by inversion Hfl]. inversion Hc; subst.
  - split; [by eapply sound_gates|]. by eapply getCached_served.
  - split; [by eapply sound_gates|]. eapply sound_caller; [done..|]. by match goal with H : c_stage _ = _ |- _ => rewrite H end.
Qed.

(** C24: In every run of the fetcher, whenever a call of [Fetch] for a URL
    returns a document, the URL passed the gates of that very call; the
    document names this URL as its client, has a name and redirect URIs that
    are all safe, and the defaults filled in; and it was read, before, from a
    response that came over a connection to the URL's own host and port, of the
    transport which this call's address policy picks.  For a call that filters addresses the connection
    was dialled to an address outside the private blocks, whatever a call that
    does not filter fetched, cached or had in flight for the same URL. *)
Theorem answered_documents_are_served t tr1 ev tr2 s c url cfg d :
  history t (tr1 ++ ev :: tr2) s → what ev = LAnswer c url cfg (inl d) →
  checkURL url cfg = None ∧ document_ok url_parse url d ∧
  ∃ ev0 conn resp, ev0 ∈ tr2 ∧ what ev0 = LResponse url (AllowPrivateAddresses cfg) conn resp ∧
    readDocument url_parse Unmarshal url resp = inl d ∧ c_permissive conn = AllowPrivateAddresses cfg ∧
    (∃ u, url_parse url = Some u ∧ c_addr conn = dial_addr u) ∧
    (AllowPrivateAddresses cfg = false → ∃ ip port, c_peer conn = Ssrf.Address ip port ∧ public ip).
Proof.
  intros Hh Hev. destruct (answer_served _ _ _ _ _ _ _ _ _ Hh Hev) as [Hg (ev0 & conn & resp & H1 & H2 & H3 & H4 & H6 & H5)].
  split; [done|]. split; [by eapply readDocument_ok|]. exists ev0, conn, resp. do 5 (split; [done|]). intros Ha. apply H4. congruence.
Qed.

(** ** What the fetcher promises to the registration *)

(** A fetcher, as [CIMDService] calls it, whose documents are well formed. *)

Class LawfulFetcher (F : string → M CIMDDocument) : Prop :=
  fetch_lawful : ∀ url e w d w', F url e w = (Ok d, w') → document_ok url_parse url d.

(** The results are answers of this fetcher. *)

Definition answers_of (cfg : CIMDFetchConfig) (F : string → M CIMDDocument) : Prop :=
  ∀ url e w d w', F url e w = (Ok d, w') →
    ∃ t tr1 ev tr2 s c, history t (tr1 ++ ev :: tr2) s ∧ what ev = LAnswer c url cfg (inl d).

#[global] Instance fetcher_lawful cfg F : answers_of cfg F → LawfulFetcher F.
Proof.
  intros HF url e w d w' (t & tr1 & ev & tr2 & s & c & Hh & Hev)%HF.
  destruct (answer_served _ _ _ _ _ _ _ _ _ Hh Hev) as [_ (ev0 & conn & resp & _ & _ & _ & _ & _ & Hd)].
  by eapply readDocument_ok.
Qed.

End provenance.

(** With a fetcher that keeps its promise, [VerifyCIMD] on a URL, whether
    it registers a client or updates the one it finds, returns a client whose
    redirect URIs are those of the document at that URL: at least one, each
    https or on the user's own machine and without a fragment; it has a name
    and grant and response types, and a new one is identified by the URL. *)
Theorem verified_client_is_documented url_parse (s : CIMDService.Deps) `{!LawfulFetcher url_parse (CIMDService.Fetch s)} clientID e w c w' :
  CIMDService.VerifyCIMD s clientID e w = (Ok c, w') →
  Client.RedirectURIs c ≠ [] ∧ (∀ uri, uri ∈ Client.RedirectURIs c → ClientValidation.safe_redirect url_parse uri) ∧
  Client.Name c ≠ "" ∧ Client.GrantTypes c ≠ [] ∧ Client.ResponseTypes c ≠ [] ∧
  ∃ d, document_ok url_parse clientID d ∧ Client.RedirectURIs c = CIMDService.RedirectURIs d ∧
    (CIMDService.ClientID d = Client.ID c ∨ ∃ c0 now, c = CIMDService.updated d now c0).
Proof.
  unfold CIMDService.VerifyCIMD. intros H.
  mstep H. mstep H. mstep H. destruct (CIMDService.checkMode _); [by apply throw_ok in H|].
  mstep H.
  match goal with Hf : CIMDService.Fetch s _ _ _ = _ |- _ => apply (fetch_lawful url_parse) in Hf as Hd end. mstep H. mstep H. mstep H. mstep H. mstep H.
  pose proof Hd as [Hid Hname [Hne Hsafe] (Hg & Hr & _)].
  match type of H with context [match ?x with Some _ => _ | None => _ end] => destruct x as [c0|] end.
  - mstep H. apply ret_ok in H as [<- _]. simpl. do 5 (split; [done|]). eexists. split; [done|]. split; [done|]. right. by eexists _, _.
  - mstep H. mstep H. apply ret_ok in H as [<- _]. simpl. do 5 (split; [done|]). eexists. split; [done|]. split; [done|]. by left.
Qed.
