(* ===== verification/CIMDFetcherProgress.v ===== *)
(** * The metadata document fetcher under load

    At most sixteen requests are out at a time and one per URL and policy, the
    caches do not outgrow their bounds, a failure keeps its URL quiet, and no
    call waits on what other calls hold. *)

From S2P Require Import Prelude GoStrings Encoding Domain Db Effects Stores ClientValidation Registration Ssrf SsrfTheorems CIMDFetcher CIMDFetcherTheorems.
Import Net Fetcher.

(** ** Flights that hold a slot *)

Definition holds (f : Flight) : bool :=
  match f_phase f with Fetching | Storing _ _ | Releasing _ => true | _ => false end.

Definition slots (m : gmap string Flight) : nat := size (filter (λ kf, holds kf.2 = true) m).

Definition one_slot (f : Flight) : nat := if holds f then 1 else 0.

Lemma slots_delete m k f : m !! k = Some f → slots m = slots (delete k m) + one_slot f.
Proof.
  intros Hk. unfold slots, one_slot. rewrite map_filter_delete. rewrite <-(insert_delete_id m k f) at 1 by done.
  destruct (holds f) eqn:Hf.
  - rewrite map_filter_insert_True by done. rewrite map_size_insert_None; [|by rewrite map_lookup_filter, lookup_delete_eq].
    rewrite map_filter_delete. lia.
  - rewrite map_filter_insert_False by (simpl; congruence). rewrite delete_delete_eq, map_filter_delete. lia.
Qed.

Lemma slots_insert_new m k f : m !! k = None → slots (<[k := f]> m) = slots m + one_slot f.
Proof. intros Hk. rewrite (slots_delete _ k f) by apply lookup_insert_eq. by rewrite delete_insert_id. Qed.

Lemma slots_insert m k f f' : m !! k = Some f → slots (<[k := f']> m) + one_slot f = slots m + one_slot f'.
Proof.
  intros Hk. rewrite (slots_delete (<[k := f']> m) k f') by apply lookup_insert_eq.
  rewrite delete_insert_eq. rewrite (slots_delete m k f) by done. lia.
Qed.

Section load.
Context (ParseIP : string → option IP) (url_parse : string → option URL) (Unmarshal : string → option CIMDDocument)
  (ParseTime : string → option Z) (dial_addr : URL → string) (resolve : Z → string → option (list IP)).

#[local] Abbreviation step := (Fetcher.step ParseIP url_parse Unmarshal ParseTime dial_addr resolve).
#[local] Abbreviation history := (Fetcher.history ParseIP url_parse Unmarshal ParseTime dial_addr resolve).

Record Within (s : Sys) : Prop := {
  within_key : ∀ k f, sf s !! k = Some f → f_key f = k;
  within_sem : slots (sf s) = sem s;
  within_slots : sem s ≤ maxConcurrentFetches;
  within_cache : size (cache s) ≤ maxCacheEntries;
  within_failures : size (failures s) ≤ maxNegativeCacheEntries;
  within_waiting : ∀ c ca, callers s !! c = Some ca → c_stage ca = Waiting → is_Some (sf s !! c_key ca)
}.

(** A flight moves to another phase and takes or returns a slot. *)

Lemma Within_phase s key f ph n : Within s → sf s !! key = Some f → n ≤ maxConcurrentFetches →
  n + one_slot f = sem s + one_slot (at_phase f ph) → Within (with_flight (at_phase f ph) n s).
Proof.
  intros [H1 H2 H3 H4 H5 H6] Hf Hn Hs. pose proof (H1 _ _ Hf) as Hk. split; simpl; try done.
  - intros k f' [[<- <-]|[_ H]]%lookup_insert_Some; [done|by apply H1].
  - change (f_key (at_phase f ph)) with (f_key f). rewrite Hk. pose proof (slots_insert _ _ _ (at_phase f ph) Hf). lia.
  - intros c ca Hc Hw. destruct (H6 c ca Hc Hw) as [f' Hf'].
    destruct (decide (f_key (at_phase f ph) = c_key ca)) as [->|]; [rewrite lookup_insert_eq; by eauto|rewrite lookup_insert_ne by done; by eauto].
Qed.

Lemma Within_caller s c ca : Within s → (c_stage ca = Waiting → is_Some (sf s !! c_key ca)) → Within (with_caller c ca s).
Proof. intros [H1 H2 H3 H4 H5 H6] Hw. split; simpl; [done..|]. intros c' ca' [[-> <-]|[_ H]]%lookup_insert_Some; [done|by eapply H6]. Qed.

Lemma Within_leave s c : Within s → Within (without_caller c s).
Proof. intros [H1 H2 H3 H4 H5 H6]. split; simpl; [done..|]. intros c' ca' [_ H]%lookup_delete_Some. by eapply H6. Qed.

Lemma Within_maps s ch fl : Within s → size ch ≤ maxCacheEntries → size fl ≤ maxNegativeCacheEntries →
  Within (MkSys ch fl (sf s) (sem s) (callers s) (conns s)).
Proof. by intros [H1 H2 H3 H4 H5 H6]. Qed.

Lemma flight_step_within now s key f l s' : Within s → sf s !! key = Some f →
  flight_step url_parse Unmarshal ParseTime dial_addr now s key f l s' → Within s'.
Proof.
  intros Hw Hf Hst. pose proof (within_slots _ Hw). pose proof (within_sem _ Hw) as Hsem.
  pose proof (slots_delete _ _ _ Hf) as Hdel. pose proof (within_key _ Hw _ _ Hf) as Hk.
  assert (∀ ph n, n ≤ maxConcurrentFetches → n + one_slot f = sem s + one_slot (at_phase f ph) → Within (with_flight (at_phase f ph) n s)) as Hph.
  { intros. by eapply Within_phase. }
  unfold one_slot at 1, holds at 1 in Hph. unfold one_slot, holds in Hdel.
  destruct Hst as [d E H'|E H'|e E H'|E H'|since E H'|since E H'|conn u resp E Hin Hu Hp Ha|e E H1 H2|d ttl order E H'|r E|e order E H'|r E];
    rewrite E in Hdel, Hph.
  - by apply Hph.
  - by apply Hph.
  - by apply Hph.
  - by apply Hph.
  - apply Hph; unfold maxConcurrentFetches, one_slot, holds in *; simpl; lia.
  - by apply Hph.
  - apply Hph; [done|]. unfold one_slot, holds, responded. simpl. repeat case_match; simplify_eq/=; done.
  - by apply Hph.
  - apply (Within_maps (with_flight _ _ _)); [by apply Hph| |apply (within_failures _ Hw)].
    apply put_size; [done|unfold maxCacheEntries; lia|apply (within_cache _ Hw)].
  - apply Hph; [lia|]. destruct r; simpl; [|case_match]; unfold one_slot, holds; simpl; lia.
  - apply (Within_maps (with_flight _ _ _)); [by apply Hph|apply (within_cache _ Hw)|].
    apply put_size; [done|unfold maxNegativeCacheEntries; lia|apply (within_failures _ Hw)].
  - destruct Hw as [H1 H2 H3 H4 H5 H6]. split; simpl; [|lia|done..|].
    + intros k f' [_ ?]%lookup_delete_Some. by apply H1.
    + intros c ca (ca0 & <- & Hc)%lookup_fmap_Some Hs. unfold deliver in *.
      destruct (c_stage ca0) eqn:Es; try congruence. case_bool_decide as Hkey; [done|]. rewrite lookup_delete_ne by congruence. by eapply H6.
Qed.

Lemma step_within now s l s' : Within s → step now s l s' → Within s'.
Proof.
  intros Hw Hst. destruct Hst as [l s' Hc|key f l s' Hf Hst|allow addr t Hd|l1 conn l2 Hc].
  - destruct Hc; try done; try (by apply Within_leave);
      try (apply Within_caller; [done|]; intros Hs; simpl in Hs; (discriminate Hs || by eauto)).
    { apply Within_caller; [|intros _; simpl; rewrite lookup_insert_eq; by eexists].
      destruct Hw as [H1' H2' H3' H4' H5' H6']. split; simpl; try done.
      - intros k f' [[<- <-]|[_ Hk]]%lookup_insert_Some; [done|by apply H1'].
      - rewrite slots_insert_new by done. unfold one_slot, holds. simpl. lia.
      - intros c' ca' Hc' Hw'. destruct (H6' _ _ Hc' Hw') as [f' Hf']. 
        rewrite lookup_insert_ne; [by eexists|]. unfold f_key, c_key in *. simpl. congruence. }
  - by eapply flight_step_within.
  - by destruct Hw.
  - by destruct Hw.
Qed.

Lemma history_within t tr s : history t tr s → Within s.
Proof.
  induction 1 as [t|t tr s t' l s' _ IH Ht Hst]; [|by eapply step_within]. split; simpl; try done.
  all: rewrite ?map_size_empty; unfold maxConcurrentFetches, maxCacheEntries, maxNegativeCacheEntries; lia.
Qed.

(** In every state the fetcher can reach, no more than sixteen outbound
    requests hold a slot, counted over the flights themselves; a request that
    goes out now is the only one in progress for its URL and address policy;
    and neither cache holds more than 1024 entries. *)
Theorem fetches_are_bounded t tr s : history t tr s →
  slots (sf s) ≤ 16 ∧ size (cache s) ≤ 1024 ∧ size (failures s) ≤ 1024 ∧
  ∀ t' key s', step t' s (LRequest key) s' →
    ∃ f, sf s !! key = Some f ∧ f_key f = key ∧ holds f = false ∧ slots (sf s') = S (slots (sf s)) ∧ slots (sf s') ≤ 16.
Proof.
  intros Hw%history_within. pose proof Hw as [H1 H2 H3 H4 H5 H6]. rewrite H2. split; [done|]. split; [done|]. split; [done|].
  intros t' key s' Hst. pose proof (step_within _ _ _ _ Hw Hst) as [_ H2' H3' _ _ _]. rewrite H2'.
  inversion Hst as [l sx Hc|k f l sx Hf Hfl| |]; subst; [inversion Hc|]. inversion Hfl; subst. exists f. split; [done|].
  split; [by apply H1|]. simpl in *. unfold holds. match goal with H : f_phase f = _ |- _ => rewrite H end. done.
Qed.

(** ** A failure keeps its URL quiet *)

(** The phases in which a flight has not decided to go out. *)

Definition early (ph : Phase) : bool := match ph with Starting | Rechecking | Returning _ => true | _ => false end.

(** Until [x], a failure of [key] stands in the cache and no flight of [key]
    gets past it. *)

Definition quiet (key : string) (x t : Z) (s : Sys) : Prop :=
  (∃ e, failures s !! key = Some e ∧ (x <= err_expiresAt e)%Z) ∧
  ∀ f, sf s !! key = Some f → early (f_phase f) = true ∨ (x < t)%Z.

(** [ev] pushed the failure of [key] out of a full cache. *)

Definition evicts (key : string) (ev : event) : Prop :=
  is_Some (failures (before ev) !! key) ∧ failures (after ev) !! key = None ∧ maxNegativeCacheEntries ≤ size (failures (before ev)).

Lemma quiet_later key x t t' s : (t <= t')%Z → quiet key x t s → quiet key x t' s.
Proof. intros Ht [He Hf]. split; [done|]. intros f H. destruct (Hf f H); [by left|right; lia]. Qed.

Lemma quiet_with_flight key x t s f n : quiet key x t s → (f_key f = key → early (f_phase f) = true ∨ (x < t)%Z) →
  quiet key x t (with_flight f n s).
Proof. intros [He Hf] H. split; [done|]. simpl. intros f' [[? <-]|[_ Hf']]%lookup_insert_Some; [by apply H|by apply Hf]. Qed.

Lemma quiet_flight key x t s k f l s' : Within s → quiet key x t s → sf s !! k = Some f →
  (t + negativeCacheTTL < x → False)%Z →
  flight_step url_parse Unmarshal ParseTime dial_addr t s k f l s' → quiet key x t s' ∨ evicts key (MkEvent t s l s').
Proof.
  intros Hw Hq Hf Hx Hst. pose proof (within_key _ Hw _ _ Hf) as Hk. pose proof Hq as [(e0 & He0 & Hx0) Hall].
  assert (∀ ph, (k = key → early ph = true ∨ early (f_phase f) = false) → ∀ n, quiet key x t (with_flight (at_phase f ph) n s)) as Hgo.
  { intros ph Hph n. apply quiet_with_flight; [done|]. change (f_key (at_phase f ph)) with (f_key f). rewrite Hk. intros ->.
    destruct (Hph eq_refl) as [?|Hn]; [by left|]. destruct (Hall f Hf) as [H|?]; [congruence|by right]. }
  destruct Hst as [d E H'|E H'|e E H'|E H'|since E H'|since E H'|conn u resp E Hin Hu Hp Ha|e E H1 H2|d ttl order E H'|r E|e order E H'|r E];
    rewrite E in Hgo; try (left; by apply Hgo; auto).
  - left. apply quiet_with_flight; [done|]. change (f_key (at_phase f (Acquiring t))) with (f_key f). rewrite Hk. intros ->. right.
    unfold getCachedFailure, get in H'. rewrite He0 in H'. case_bool_decide; [lia|done].
  - pose proof (Hgo (Returning (inr e)) (λ _, or_introl eq_refl) (sem s)) as [_ Hret]. destruct (decide (k = key)) as [->|Hne].
    + left. split; [|exact Hret]. simpl.
      unfold put. rewrite lookup_insert_eq. eexists. split; [done|]. simpl. lia.
    + assert (key ≠ k) as Hne' by congruence.
      destruct (put_keeps err_expiresAt maxNegativeCacheEntries order t k (MkFailure e (t + negativeCacheTTL)) _ _ _ He0 Hne') as [Hp|[Hp Hs]].
      * left. split; [by exists e0|exact Hret].
      * right. split; [by exists e0|]. done.
  - left. split; [by exists e0|]. simpl. intros f' [_ H]%lookup_delete_Some. by apply Hall.
Qed.

Lemma step_quiet key x t s l s' : Within s → quiet key x t s → (t + negativeCacheTTL < x → False)%Z →
  step t s l s' → quiet key x t s' ∨ evicts key (MkEvent t s l s').
Proof.
  intros Hw Hq Hx Hst. destruct Hst as [l s' Hc|k f l s' Hf Hst|allow addr u Hd|l1 conn l2 Hc]; [left|by eapply quiet_flight|by left|by left].
  destruct Hc; try exact Hq. apply (quiet_with_flight _ _ _ _ (MkFlight (c_url ca) (c_cfg ca) Starting) (sem s)); [done|by left].
Qed.

Lemma record_quiet key t s s' : Within s → step t s (LRecord key) s' → quiet key (t + negativeCacheTTL) t s'.
Proof.
  intros Hw Hst. inversion Hst as [l sx Hc|k f l sx Hf Hfl| |]; subst; [inversion Hc|]. inversion Hfl; subst.
  split; simpl; [unfold put; rewrite lookup_insert_eq; eexists; split; [done|simpl; lia]|].
  intros f' Hf'. rewrite (within_key _ Hw _ _ Hf : f_key (at_phase f _) = key) in Hf'. rewrite lookup_insert_eq in Hf'.
  injection Hf' as <-. by left.
Qed.

Lemma cooled tr1 t ev0 tr2 s key : history t (tr1 ++ ev0 :: tr2) s → what ev0 = LRecord key →
  (at_ ev0 <= t)%Z ∧ (quiet key (at_ ev0 + negativeCacheTTL) t s ∨ ∃ ev, ev ∈ tr1 ∧ evicts key ev).
Proof.
  revert t s. induction tr1 as [|ev tr1 IH]; intros t s Hh Hev; inversion Hh as [|t0 tr s0 t' l s' Hh0 Ht Hst]; subst; simpl in *.
  - split; [lia|]. left. rewrite Hev in Hst. eapply record_quiet; [by eapply history_within|done].
  - destruct (IH _ _ Hh0 Hev) as [Ht0 [Hq|(e & He & Hx)]].
    + split; [lia|]. apply (quiet_later _ _ _ t) in Hq; [|done].
      destruct (step_quiet _ _ _ _ _ _ (history_within _ _ _ Hh0) Hq ltac:(lia) Hst) as [|]; [by left|right].
      eexists. split; [left|done].
    + split; [lia|]. right. exists e. split; [by right|done].
Qed.

(** Once a failed fetch is recorded, the next outbound request for the
    same URL under the same address policy goes out more than thirty seconds
    later, unless the record was pushed out of a cache that held 1024 other
    failures in the meantime: neither calls that looked before the record was
    made, nor a flight that starts after it, slip through. *)
Theorem failure_keeps_quiet t tr1 ev1 tr2 ev0 tr3 s key :
  history t (tr1 ++ ev1 :: tr2 ++ ev0 :: tr3) s → what ev0 = LRecord key → what ev1 = LRequest key →
  (at_ ev0 + negativeCacheTTL < at_ ev1)%Z ∨ ∃ ev, ev ∈ tr2 ∧ evicts key ev.
Proof.
  intros (_ & Hst & t0 & Hh & Ht)%history_event H0 H1. pose proof (history_within _ _ _ Hh) as Hw.
  destruct (cooled _ _ _ _ _ _ Hh H0) as [_ [[_ Hq]|?]]; [left|by right]. rewrite H1 in Hst.
  inversion Hst as [l sx Hc|k f l sx Hf Hfl| |]; subst; [inversion Hc|]. inversion Hfl; subst.
  destruct (Hq f Hf) as [He|?]; [|lia]. match goal with H : f_phase f = _ |- _ => by rewrite H in He end.
Qed.

(** ** Every call can be answered *)

(** How many steps of its own a flight is from its end. *)

Definition rank (ph : Phase) : nat :=
  match ph with
  | Starting => 6 | Rechecking => 5 | Fetching | Storing _ _ => 4 | Releasing _ => 3 | Acquiring _ => 2 | Recording _ => 2 | Returning _ => 1
  end.

(** Within its own goroutine a flight always has a step, which needs no slot
    that is not free, no server and no other flight. *)

Lemma flight_progress t s key f : Within s → sf s !! key = Some f → (∀ r, f_phase f ≠ Returning r) →
  ∃ t' l s' f', (t <= t')%Z ∧ step t' s l s' ∧ sf s' !! key = Some f' ∧ rank (f_phase f') < rank (f_phase f) ∧ callers s' = callers s.
Proof.
  intros Hw Hf Hr. pose proof (within_key _ Hw _ _ Hf) as Hk.
  assert (∀ ph n, sf (with_flight (at_phase f ph) n s) !! key = Some (at_phase f ph)) as Hat.
  { intros. simpl. change (f_key (at_phase f ph)) with (f_key f). by rewrite Hk, lookup_insert_eq. }
  destruct (f_phase f) as [| |since| |d ttl|r|e|r] eqn:E.
  - destruct (getCached t key s) as [d|] eqn:Hc; exists t; eexists _, _, _; (split; [lia|]);
      (split; [eapply step_flight; [done|by econstructor]|]); (split; [apply Hat|]); simpl; split; done || lia.
  - destruct (getCachedFailure t key s) as [e|] eqn:Hc; exists t; eexists _, _, _; (split; [lia|]);
      (split; [eapply step_flight; [done|by econstructor]|]); (split; [apply Hat|]); simpl; split; done || lia.
  - exists (Z.max t (since + maxAcquireWait)). eexists _, _, _. split; [lia|].
    split; [eapply step_flight; [done|eapply flight_shed; [done|left; lia]]|]. split; [apply Hat|]. simpl. split; done || lia.
  - exists t. eexists _, _, _. split; [lia|].
    split; [eapply step_flight; [done|eapply (flight_no_response _ _ _ _ _ _ _ _ (failed "")); done]|]. split; [apply Hat|]. simpl. split; done || lia.
  - exists t. eexists _, _, _. split; [lia|].
    split; [eapply step_flight; [done|by eapply flight_stores]|]. split; [apply (Hat _ (sem s))|]. simpl. split; done || lia.
  - exists t. eexists _, _, _. split; [lia|].
    split; [eapply step_flight; [done|by eapply flight_releases]|]. split; [apply Hat|]. destruct r; simpl; [|case_match]; simpl; split; done || lia.
  - exists t. eexists _, _, _. split; [lia|].
    split; [eapply step_flight; [done|by eapply flight_records]|]. split; [apply (Hat _ (sem s))|]. simpl. split; done || lia.
  - by destruct (Hr r).
Qed.

Lemma flight_finishes n t tr s key f : rank (f_phase f) ≤ n → history t tr s → sf s !! key = Some f →
  ∃ t' tr' s' r, history t' (tr' ++ tr) s' ∧ (t <= t')%Z ∧ callers s' = deliver key r <$> callers s ∧ length tr' ≤ n.
Proof.
  revert t tr s f. induction n as [|n IH]; intros t tr s f Hn Hh Hf; [destruct (f_phase f); simpl in Hn; lia|].
  assert ((∃ r, f_phase f = Returning r) ∨ ∀ r, f_phase f ≠ Returning r) as [[r Hr]|Hr] by (destruct (f_phase f); eauto).
  - exists t, [MkEvent t s (LFinish key) (finish key r s)], (finish key r s), r. split; [|split_and!; simpl; [lia|done|lia]].
    eapply history_step; [done|lia|]. eapply step_flight; [done|]. by constructor.
  - destruct (flight_progress t s key f (history_within _ _ _ Hh) Hf) as (t1 & l & s1 & f1 & Ht & Hst & Hf1 & Hrank & Hcs); [done|].
    assert (history t1 (MkEvent t1 s l s1 :: tr) s1) as Hh1 by (by eapply history_step).
    destruct (IH t1 _ s1 f1 ltac:(lia) Hh1 Hf1) as (t' & tr' & s' & r & Hh' & Ht' & Hc' & Hlen).
    exists t', (tr' ++ [MkEvent t1 s l s1]), s', r. rewrite <-app_assoc. split; [done|]. split; [lia|]. split; [by rewrite Hc', Hcs|].
    rewrite length_app. simpl. lia.
Qed.

(** What a call that is answered was given: its flight's result, or a cached
    one. *)

Definition given (c : nat) (ca : Caller) (ev : event) (r : result) : Prop :=
  callers (before ev) !! c = Some (at_stage ca (Received r)) ∨
  (∃ d, getCached (at_ ev) (c_key ca) (before ev) = Some d ∧ r = inl d) ∨
  (∃ e, getCachedFailure (at_ ev) (c_key ca) (before ev) = Some e ∧ r = inr e).

Definition answerable (n : nat) (t : Z) (tr : list event) (c : nat) (ca : Caller) : Prop :=
  ∃ t' tr' ev s' r, history t' (ev :: tr' ++ tr) s' ∧ (t <= at_ ev)%Z ∧ what ev = LAnswer c (c_url ca) (c_cfg ca) r ∧
    given c ca ev r ∧ length tr' ≤ n.

Lemma received_answerable t tr s c ca r : history t tr s → callers s !! c = Some (at_stage ca (Received r)) → answerable 0 t tr c ca.
Proof.
  intros Hh Hc. exists t, [], (MkEvent t s (LAnswer c (c_url ca) (c_cfg ca) r) (without_caller c s)), (without_caller c s), r.
  split; [|split; [simpl; lia|split; [done|split; [by left|simpl; lia]]]].
  eapply history_step; [done|lia|]. apply step_call. by apply (call_returns _ _ _ _ c (at_stage ca (Received r)) r).
Qed.

(** A step, and the rest. *)

Lemma answerable_step n t tr s t' l s' c ca : history t tr s → (t <= t')%Z → step t' s l s' →
  answerable n t' (MkEvent t' s l s' :: tr) c ca → answerable (S n) t tr c ca.
Proof.
  intros Hh Ht Hst (t2 & tr' & ev & s2 & r & H1 & H2 & H3 & H4 & H5).
  exists t2, (tr' ++ [MkEvent t' s l s']), ev, s2, r. rewrite <-app_assoc. split; [done|]. split; [lia|]. split; [done|]. split; [done|].
  rewrite length_app. simpl. lia.
Qed.

Lemma waiting_answerable t tr s c ca : history t tr s → callers s !! c = Some (at_stage ca Waiting) → answerable 6 t tr c ca.
Proof.
  intros Hh Hc. destruct (within_waiting _ (history_within _ _ _ Hh) _ _ Hc eq_refl) as [f Hf].
  destruct (flight_finishes 6 t tr s (c_key ca) f) as (t' & tr' & s' & r & Hh' & Ht & Hcs & Hlen); [destruct (f_phase f); simpl; lia|done|done|].
  assert (callers s' !! c = Some (at_stage ca (Received r))) as Hc'.
  { rewrite Hcs, lookup_fmap, Hc. simpl. unfold deliver. simpl. by rewrite bool_decide_true. }
  destruct (received_answerable _ _ _ _ _ _ Hh' Hc') as (t2 & tr2 & ev & s2 & r2 & H1 & H2 & H3 & H4 & H5).
  exists t2, (tr2 ++ tr'), ev, s2, r2. rewrite <-app_assoc. split; [done|]. split; [lia|]. split; [done|]. split; [done|].
  rewrite length_app. lia.
Qed.

Lemma joining_answerable t tr s c ca : history t tr s → callers s !! c = Some (at_stage ca Joining) → answerable 7 t tr c ca.
Proof.
  intros Hh Hc. destruct (sf s !! c_key ca) as [f|] eqn:Hf.
  - eapply (answerable_step _ _ _ _ t); [done|lia|apply step_call; by eapply call_joins|].
    eapply waiting_answerable; [eapply history_step; [done|lia|apply step_call; by eapply call_joins]|]. exact (lookup_insert_eq _ _ _).
  - eapply (answerable_step _ _ _ _ t); [done|lia|apply step_call; by eapply call_starts|].
    eapply waiting_answerable; [eapply history_step; [done|lia|apply step_call; by eapply call_starts]|]. exact (lookup_insert_eq _ _ _).
Qed.

Lemma missed_answerable t tr s c ca : history t tr s → callers s !! c = Some (at_stage ca Missed) → answerable 8 t tr c ca.
Proof.
  intros Hh Hc. destruct (getCachedFailure t (c_key ca) s) as [e|] eqn:He.
  - exists t, [], (MkEvent t s (LAnswer c (c_url ca) (c_cfg ca) (inr e)) (without_caller c s)), (without_caller c s), (inr e).
    split; [|split; [simpl; lia|split; [done|split; [right; right; by exists e|simpl; lia]]]].
    eapply history_step; [done|lia|]. apply step_call. by apply (call_fails _ _ _ _ c (at_stage ca Missed) e).
  - eapply (answerable_step _ _ _ _ t); [done|lia|apply step_call; by eapply call_goes_on|].
    eapply joining_answerable; [eapply history_step; [done|lia|apply step_call; by eapply call_goes_on]|]. exact (lookup_insert_eq _ _ _).
Qed.

Lemma looking_answerable t tr s c ca : history t tr s → callers s !! c = Some (at_stage ca Looking) → answerable 9 t tr c ca.
Proof.
  intros Hh Hc. destruct (getCached t (c_key ca) s) as [d|] eqn:Hd.
  - exists t, [], (MkEvent t s (LAnswer c (c_url ca) (c_cfg ca) (inl d)) (without_caller c s)), (without_caller c s), (inl d).
    split; [|split; [simpl; lia|split; [done|split; [right; left; by exists d|simpl; lia]]]].
    eapply history_step; [done|lia|]. apply step_call. by apply (call_hit _ _ _ _ c (at_stage ca Looking) d).
  - eapply (answerable_step _ _ _ _ t); [done|lia|apply step_call; by eapply call_miss|].
    eapply missed_answerable; [eapply history_step; [done|lia|apply step_call; by eapply call_miss]|]. exact (lookup_insert_eq _ _ _).
Qed.

(** Wherever the fetcher is, a call in progress can be answered within
    ten more steps, all of them its own or its flight's, by its flight's
    result or a cached one: also when every slot is taken and no server ever
    answers, since a flight that waits for a slot gives up and one whose
    request fails returns.  No call waits for something another one holds. *)
Theorem every_call_is_answered t tr s c ca : history t tr s → callers s !! c = Some ca →
  ∃ t' tr' ev s' r, history t' (ev :: tr' ++ tr) s' ∧ (t <= at_ ev)%Z ∧ what ev = LAnswer c (c_url ca) (c_cfg ca) r ∧
    given c ca ev r ∧ length tr' ≤ 9.
Proof.
  intros Hh Hc. destruct ca as [url cfg st]. set (ca := MkCaller url cfg st) in *.
  assert (∀ n, n ≤ 9 → answerable n t tr c ca → answerable 9 t tr c ca) as Hle.
  { intros n Hn (t' & tr' & ev & s' & r & H1 & H2 & H3 & H4 & H5). exists t', tr', ev, s', r. do 4 (split; [done|]). lia. }
  destruct st as [| | | |r].
  - by apply (looking_answerable t tr s c ca).
  - apply (Hle 8); [lia|]. by apply (missed_answerable t tr s c ca).
  - apply (Hle 7); [lia|]. by apply (joining_answerable t tr s c ca).
  - apply (Hle 6); [lia|]. by apply (waiting_answerable t tr s c ca).
  - apply (Hle 0); [lia|]. by apply (received_answerable t tr s c ca r).
Qed.
End load.
