(* ===== verification/CIMDFetcherRuns.v ===== *)
(** * Runs of the metadata document fetcher

    A filtering call that fetches a document, a second one that finds it in the
    cache, a failing fetch and the retry after it, and what the gates and the
    lifetime let through. *)

From S2P Require Import Prelude GoStrings Encoding Domain Db Effects Stores ClientValidation Registration Scenario MachineTheorems Ssrf SsrfTheorems CIMDFetcher CIMDFetcherTheorems CIMDFetcherProgress.
Import Net Fetcher Scenario.

Module FetchRuns.

Definition site : string := "https://client.example/app.json".
Definition parse (s : string) : option URL :=
  if bool_decide (s = site) then Some (MkURL "https" "client.example" "client.example" "/app.json" "" "" "")
  else if bool_decide (s = "https://client.example/cb") then Some (MkURL "https" "client.example" "client.example" "/cb" "" "" "")
  else None.

Definition document : CIMDDocument := CIMDService.MkDocument site ["https://client.example/cb"] "App" [] [] "".
Definition Unmarshal (b : string) : option CIMDDocument := if bool_decide (b = "{doc}") then Some document else None.
Definition ParseIP (s : string) : option IP := None.
Definition ParseTime (s : string) : option Z := None.
Definition dial_addr (u : URL) : string := JoinHostPort (url_Hostname u) "443".
Definition resolve (t : Z) (h : string) : option (list IP) := DialRuns.resolve h.

Lemma resolver_accepts t h ips ip : resolve t h = Some ips → ip ∈ ips → ip_ok ip.
Proof. apply DialRuns.resolve_ok. Qed.

Abbreviation history := (Fetcher.history ParseIP parse Unmarshal ParseTime dial_addr resolve).
Abbreviation step := (Fetcher.step ParseIP parse Unmarshal ParseTime dial_addr resolve).

Definition cfg : CIMDFetchConfig := MkFetchConfig true false (3600 * SqlTime.nano) (5 * SqlTime.nano).
Definition flight (ph : Phase) : Flight := MkFlight site cfg ph.
Definition key : string := fetchKey site false.
Definition conn : Conn := MkConn false "client.example:443" (Ssrf.Address (ip4 93 184 216 34) "443").
Definition response : Response := MkResponse 200 (MkHeader "application/json" "max-age=300" "") "{doc}" false.
Definition answer : CIMDDocument := applyDefaults document.

(** Forward: the history so far, and the next step. *)

Lemma and_then {t tr s t' l s'} : history t tr s → (t <= t')%Z → step t' s l s' → history t' (MkEvent t' s l s' :: tr) s'.
Proof. intros Hh Ht Hs. by eapply history_step. Qed.

Lemma of_call {t s l s'} : call_step ParseIP parse t s l s' → step t s l s'.
Proof. apply step_call. Qed.

Lemma of_flight {t s f l s'} : sf s !! key = Some f → flight_step parse Unmarshal ParseTime dial_addr t s key f l s' → step t s l s'.
Proof. apply step_flight. Qed.

Ltac go H u tac :=
  match type of H with Fetcher.history _ _ _ _ _ _ ?t _ ?s =>
    let Hs := fresh in let Ht := fresh in
    eassert (step u s _ _) as Hs by tac; assert (t <= u)%Z as Ht by (vm_compute; congruence);
    apply (and_then H Ht) in Hs; clear H Ht; rename Hs into H
  end.
Ltac computed := first [vm_compute; reflexivity | discriminate | vm_compute; lia].
Tactic Notation "call" hyp(H) constr(u) uconstr(c) := go H u ltac:(eapply of_call; eapply c; computed).
Tactic Notation "fly" hyp(H) constr(u) uconstr(ph) uconstr(c) :=
  go H u ltac:(eapply (of_flight (f := flight ph)); [vm_compute; reflexivity|eapply c; computed]).

(** Call [c] arrives at [u], and starts a flight that gets a slot. *)

Ltac request H u c :=
  call H u (call_enters _ _ _ _ c site cfg);
  call H u (call_miss _ _ _ _ c (MkCaller site cfg Looking));
  call H u (call_goes_on _ _ _ _ c (MkCaller site cfg Missed));
  call H u (call_starts _ _ _ _ c (MkCaller site cfg Joining));
  fly H u Starting flight_miss;
  fly H u Rechecking flight_goes_on;
  fly H u (Acquiring u) (flight_acquires _ _ _ _ _ _ _ _ u).

Lemma requesting : ∃ ev tr s, history 0 (ev :: tr) s ∧ what ev = LRequest key ∧ callers s !! 1 = Some (MkCaller site cfg Waiting).
Proof.
  pose proof (history_boot ParseIP parse Unmarshal ParseTime dial_addr resolve 0) as H. request H 0%Z 1.
  eexists _, _, _. split; [exact H|]. done.
Qed.

(** It gets a document, which is stored and answered, and which call 2 finds
    in the cache a minute later. *)

Lemma answered : ∃ ev tr s, history (60 * SqlTime.nano) (ev :: tr) s ∧ what ev = LAnswer 2 site cfg (inl answer).
Proof.
  pose proof (history_boot ParseIP parse Unmarshal ParseTime dial_addr resolve 0) as H. request H 0%Z 1.
  go H 0%Z ltac:(eapply (step_dial _ _ _ _ _ _ _ _ false "client.example:443" (Ssrf.Address (ip4 93 184 216 34) "443")); vm_compute; reflexivity).
  go H 0%Z ltac:(eapply (of_flight (f := flight Fetching)); [vm_compute; reflexivity|];
    eapply (flight_response _ _ _ _ _ _ _ _ conn _ response); [reflexivity|left|reflexivity..]).
  fly H 0%Z (Storing answer (300 * SqlTime.nano)) (flight_stores _ _ _ _ _ _ _ _ answer _ []).
  fly H 0%Z (Releasing (inl answer)) flight_releases.
  fly H 0%Z (Returning (inl answer)) flight_ends.
  call H 0%Z (call_returns _ _ _ _ 1 (MkCaller site cfg (Received (inl answer)))).
  call H (60 * SqlTime.nano)%Z (call_enters _ _ _ _ 2 site cfg).
  call H (60 * SqlTime.nano)%Z (call_hit _ _ _ _ 2 (MkCaller site cfg Looking) answer).
  eexists _, _, _. split; [exact H|]. done.
Qed.

(** The request fails, and the next one goes out 31 seconds later. *)

Lemma retried : ∃ ev1 tr2 ev0 tr3 s, history (31 * SqlTime.nano) (ev1 :: tr2 ++ ev0 :: tr3) s ∧
  what ev0 = LRecord key ∧ what ev1 = LRequest key.
Proof.
  pose proof (history_boot ParseIP parse Unmarshal ParseTime dial_addr resolve 0) as H. request H 0%Z 1.
  fly H 0%Z Fetching (flight_no_response _ _ _ _ _ _ _ _ (failed "HTTP status")).
  fly H 0%Z (Releasing (inr (failed "HTTP status"))) flight_releases.
  fly H 0%Z (Recording (failed "HTTP status")) (flight_records _ _ _ _ _ _ _ _ (failed "HTTP status") []).
  fly H 0%Z (Returning (inr (failed "HTTP status"))) flight_ends.
  call H 0%Z (call_returns _ _ _ _ 1 (MkCaller site cfg (Received (inr (failed "HTTP status"))))).
  request H (31 * SqlTime.nano)%Z 2.
  match type of H with history _ (?e1 :: ?e2 :: ?e3 :: ?e4 :: ?e5 :: ?e6 :: ?e7 :: ?e8 :: ?e9 :: ?e0 :: ?tr3) ?s =>
    exists e1, [e2; e3; e4; e5; e6; e7; e8; e9], e0, tr3, s end.
  split; [exact H|]. done.
Qed.

(** A fetcher for the registration whose one document is that answer. *)

Definition fetch (url : string) : M CIMDDocument := if bool_decide (url = site) then mret answer else throw (EOther "fetch").

#[global] Instance fetch_answers : LawfulFetcher parse fetch.
Proof.
  apply (fetcher_lawful ParseIP parse Unmarshal ParseTime dial_addr resolve resolver_accepts cfg).
  intros url e w d w'. unfold fetch. case_bool_decide as Hu; [|by intros ?%throw_ok]. intros [<- _]%ret_ok. subst url.
  destruct answered as (ev & tr & s & Hh & Hev). by exists (60 * SqlTime.nano)%Z, [], ev, tr, s, 2.
Qed.

Definition cimd : CIMDService.Deps :=
  CIMDService.MkDeps (provider (λ _, true)) (provider (λ _, DCRModeProvider.MkMode "open" [])) fetch
    (Some (Some ["authorization_code"; "refresh_token"])) (Some "read").

Definition verified : res Client.Client * World := CIMDService.VerifyCIMD cimd site env (MachineRuns.world None).
Definition client : Client.Client := ClientStore.first_version (CIMDService.newClient site answer "read" (start + 4)).
End FetchRuns.

Lemma answered_documents_are_served_witness :
  ∃ ev tr s, FetchRuns.history (60 * SqlTime.nano) (ev :: tr) s ∧ what ev = LAnswer 2 FetchRuns.site FetchRuns.cfg (inl FetchRuns.answer) ∧
    CIMDService.ClientName FetchRuns.answer = "App" ∧ CIMDService.GrantTypes FetchRuns.answer = ["authorization_code"; "refresh_token"] ∧
    ∃ ev0 conn resp, ev0 ∈ tr ∧ what ev0 = LResponse FetchRuns.site false conn resp ∧ ∃ ip port, c_peer conn = Ssrf.Address ip port ∧ public ip.
Proof.
  destruct FetchRuns.answered as (ev & tr & s & Hh & Hev). exists ev, tr, s. split; [done|]. split; [done|]. split; [done|]. split; [done|].
  destruct (answered_documents_are_served FetchRuns.ParseIP FetchRuns.parse FetchRuns.Unmarshal FetchRuns.ParseTime FetchRuns.dial_addr
    FetchRuns.resolve FetchRuns.resolver_accepts (60 * SqlTime.nano) [] ev tr s 2 FetchRuns.site FetchRuns.cfg FetchRuns.answer Hh Hev)
    as (_ & _ & ev0 & conn & resp & H1 & H2 & _ & _ & _ & H3).
  exists ev0, conn, resp. split; [done|]. split; [done|]. by apply H3.
Defined.

Lemma fetches_are_bounded_witness :
  ∃ ev tr s, FetchRuns.history 0 (ev :: tr) s ∧ what ev = LRequest FetchRuns.key ∧ slots (sf s) ≤ 16.
Proof.
  destruct FetchRuns.requesting as (ev & tr & s & Hh & Hev & _). exists ev, tr, s. split; [done|]. split; [done|].
  apply (fetches_are_bounded FetchRuns.ParseIP FetchRuns.parse FetchRuns.Unmarshal FetchRuns.ParseTime FetchRuns.dial_addr FetchRuns.resolve
    0 (ev :: tr) s Hh).
Defined.

Lemma failure_keeps_quiet_witness :
  ∃ ev1 tr2 ev0 tr3 s, FetchRuns.history (31 * SqlTime.nano) (ev1 :: tr2 ++ ev0 :: tr3) s ∧ what ev0 = LRecord FetchRuns.key ∧
    what ev1 = LRequest FetchRuns.key ∧
    ((at_ ev0 + negativeCacheTTL < at_ ev1)%Z ∨ ∃ ev, ev ∈ tr2 ∧ evicts FetchRuns.key ev).
Proof.
  destruct FetchRuns.retried as (ev1 & tr2 & ev0 & tr3 & s & Hh & H0 & H1). exists ev1, tr2, ev0, tr3, s.
  split; [done|]. split; [done|]. split; [done|].
  apply (failure_keeps_quiet FetchRuns.ParseIP FetchRuns.parse FetchRuns.Unmarshal FetchRuns.ParseTime FetchRuns.dial_addr FetchRuns.resolve
    (31 * SqlTime.nano) [] ev1 tr2 ev0 tr3 s FetchRuns.key Hh H0 H1).
Defined.

Lemma every_call_is_answered_witness :
  ∃ tr s, FetchRuns.history 0 tr s ∧ callers s !! 1 = Some (MkCaller FetchRuns.site FetchRuns.cfg Waiting) ∧
  ∃ t' tr' ev s' r, FetchRuns.history t' (ev :: tr' ++ tr) s' ∧ what ev = LAnswer 1 FetchRuns.site FetchRuns.cfg r.
Proof.
  destruct FetchRuns.requesting as (ev & tr & s & Hh & _ & Hc). exists (ev :: tr), s. split; [done|]. split; [done|].
  destruct (every_call_is_answered FetchRuns.ParseIP FetchRuns.parse FetchRuns.Unmarshal FetchRuns.ParseTime FetchRuns.dial_addr FetchRuns.resolve
    0 (ev :: tr) s 1 _ Hh Hc) as (t' & tr' & ev' & s' & r & H1 & _ & H2 & _). by exists t', tr', ev', s', r.
Defined.

Lemma verified_client_is_documented_witness :
  FetchRuns.verified.1 = Ok FetchRuns.client ∧ Client.ID FetchRuns.client = FetchRuns.site ∧
  ∀ uri, uri ∈ Client.RedirectURIs FetchRuns.client → ClientValidation.safe_redirect FetchRuns.parse uri.
Proof.
  assert (FetchRuns.verified.1 = Ok FetchRuns.client) as Hv by (by vm_compute). split; [done|]. split; [done|].
  destruct FetchRuns.verified as [r w'] eqn:E. simpl in Hv. subst r.
  apply (verified_client_is_documented FetchRuns.parse FetchRuns.cimd FetchRuns.site env (MachineRuns.world None) _ w' E).
Defined.

(** A path with a name in it still leads back to the origin: what RFC 3986
    §5.2.4 leaves of the segments of [/app/..] is nothing. *)

Fixpoint remove_dot_segments (out segs : list string) : list string :=
  match segs with
  | [] => out
  | seg :: rest =>
      if bool_decide (seg = "." ∨ seg = "") then remove_dot_segments out rest
      else if bool_decide (seg = "..") then remove_dot_segments (tail out) rest
      else remove_dot_segments (seg :: out) rest
  end.

Lemma dotdot_path_is_the_origin :
  hasMeaningfulPath "/app/.." = true ∧ remove_dot_segments [] (strings_Split slash "app/..") = [].
Proof. by vm_compute. Qed.

(** A longer [max-age] is kept for a shorter time, once the nanoseconds
    overflow. *)

Lemma max_age_overflow ParseTime now :
  cacheLifetime ParseTime now (MkHeader "" "max-age=9223372036" "") (3600 * SqlTime.nano) = Some (3600 * SqlTime.nano)%Z ∧
  cacheLifetime ParseTime now (MkHeader "" "max-age=9223372037" "") (3600 * SqlTime.nano) = Some minCacheTTL.
Proof. by vm_compute. Qed.
