(* ===== verification/ResourceServer.v ===== *)
(** * The access-token check of a resource server

    api/shared/bearer.go and jwt_middleware.go: the credential of a request,
    the URL a DPoP proof is bound to, and the middleware that admits a Bearer
    or DPoP token.  The JWKS, the issuer and the clock may fail or move between
    its steps; the replay store is the one of the token endpoint. *)

From S2P Require Import Prelude GoStrings Encoding Act Domain Db Effects Crypto Stores.

Module Shared.

(** The parts of an [http.Request] these functions read. *)

Record Request := MkRequest {
  Method : string;
  Host : string;
  Path : string;
  TLS : bool;
  Authorization : string;
  XForwardedProto : string;
  DPoP : string
}.

Definition bearerPrefix : string := "Bearer ".
Definition dpopPrefix : string := "DPoP ".

Fixpoint drop_bytes (n : nat) (s : string) : string :=
  match n, s with
  | S n', String _ s' => drop_bytes n' s'
  | _, _ => s
  end.

(** [len(auth) >= len(prefix) && strings.EqualFold(auth[:len(prefix)], prefix)] *)

Definition has_scheme (auth prefix : string) : bool :=
  andb (bool_decide (String.length prefix ≤ String.length auth))
    (strings_EqualFold (take_bytes (String.length prefix) auth) prefix).

Definition ExtractBearerToken (r : Request) : string :=
  if bool_decide (Authorization r = "") then ""
  else if has_scheme (Authorization r) bearerPrefix then drop_bytes (String.length bearerPrefix) (Authorization r)
  else "".

Definition ExtractAuthToken (r : Request) : string * string :=
  let auth := Authorization r in
  if bool_decide (auth = "") then ("", "")
  else if has_scheme auth bearerPrefix then (drop_bytes (String.length bearerPrefix) auth, "Bearer")
  else if has_scheme auth dpopPrefix then (drop_bytes (String.length dpopPrefix) auth, "DPoP")
  else ("", "").

Definition RequestURL (r : Request) : string :=
  (if bool_decide (XForwardedProto r ≠ "") then XForwardedProto r else if TLS r then "https" else "http")
  +:+ "://" +:+ Host r +:+ Path r.

End Shared.

(** ** DPoP helpers (crypto/dpop.go, crypto/jwt.go) *)

Definition ComputeATH (p : Params) (accessToken : string) : string := sha256_b64url p accessToken.

Definition IsDPoPBound (claims : AccessTokenClaims) : bool :=
  match c_Cnf claims with Some m => bool_decide (is_Some (m !! "jkt")) | None => false end.

Definition HasAudience (claims : AccessTokenClaims) (aud : string) : bool := bool_decide (aud ∈ c_Audience claims).

Module JWTMiddleware.
Import Shared.

Definition errInvalidToken : string := "invalid_token".
Definition errInvalidDPoPProof : string := "invalid_dpop_proof".
Definition maxDPoPProofJTILen : nat := 255.
Definition defaultProofLifetime : Z := 60 * SqlTime.nano.

Record Deps := MkDeps {
  jwks : M unit;                                (* BuildJWKS *)
  issuerProvider : M string;
  dpop : option Z;                              (* a positive proof lifetime, if one is configured *)
  audience : string;
  proofStore : bool;
  errText : err → string                        (* Error() *)
}.

(** A configured lifetime that is not positive is no configuration. *)

Definition lifetime_config (ProofLifetime : Z) : option Z := if bool_decide (0 < ProofLifetime)%Z then Some ProofLifetime else None.

(** [None] is the panic at construction. *)

Definition NewResourceJWTMiddleware (jwks : M unit) (issuer : M string) (aud : string) (store : bool) (ProofLifetime : Z)
    (text : err → string) : option Deps :=
  if bool_decide (aud = "") then None
  else if negb store then None
  else Some (MkDeps jwks issuer (lifetime_config ProofLifetime) aud true text).

Definition NewJWTMiddleware (jwks : M unit) (issuer : M string) (text : err → string) : Deps :=
  MkDeps jwks issuer None "" false text.

Definition WithDPoP (ProofLifetime : Z) (m : Deps) : Deps :=
  MkDeps (jwks m) (issuerProvider m) (lifetime_config ProofLifetime) (audience m) (proofStore m) (errText m).
Definition WithAudience (aud : string) (m : Deps) : Deps :=
  MkDeps (jwks m) (issuerProvider m) (dpop m) aud (proofStore m) (errText m).
Definition WithDPoPProofStore (m : Deps) : Deps :=
  MkDeps (jwks m) (issuerProvider m) (dpop m) (audience m) true (errText m).

(** ** The challenge *)

(** The bytes that may stand in a quoted string, and the bound on them; the
    text is ASCII. *)

Definition challenge_byte (c : Ascii.ascii) : bool :=
  let n := byte_of c in
  negb (orb (orb (bool_decide (n = 34)) (bool_decide (n = 92))) (orb (bool_decide (n < 32)) (bool_decide (n = 127)))).

Fixpoint keep_bytes (room : nat) (s : string) : string :=
  match room, s with
  | S n, String c s' => if challenge_byte c then String c (keep_bytes n s') else keep_bytes room s'
  | _, _ => ""
  end.

Definition sanitizeChallengeText (s : string) : string := keep_bytes 160 s.

(** A double quote. *)

Definition dq : string := String (ascii_of 34) "".

Definition authChallenge (bound : bool) (dpopErr description : string) : string :=
  if bool_decide (dpopErr = "") then (if bound then "DPoP" else "Bearer, DPoP") else
  let challenge := "DPoP error=" +:+ dq +:+ dpopErr +:+ dq in
  if bound then
    if bool_decide (description ≠ "")
    then challenge +:+ ", error_description=" +:+ dq +:+ sanitizeChallengeText description +:+ dq
    else challenge
  else "Bearer error=" +:+ dq +:+ errInvalidToken +:+ dq +:+ ", " +:+ challenge.

(** ** The check *)

Inductive Outcome :=
  | Next (claims : AccessTokenClaims)                        (* the handler runs with these claims *)
  | Unauthorized (challenge code description : string)
  | InternalError.

Section middleware.
Variable m : Deps.

Definition proofLifetime : Z := default defaultProofLifetime (dpop m).

Definition expectedJKT (claims : AccessTokenClaims) : string :=
  match c_Cnf claims with
  | Some cnf => match cnf !! "jkt" with Some (JStr j) => j | _ => "" end
  | None => ""
  end.

(** [None] when the binding holds, the code and the text of the error
    otherwise. *)

Definition validateDPoPBinding (r : Request) (rawToken : string) (claims : AccessTokenClaims) (scheme : string)
    : M (option (string * string)) :=
  if negb (bool_decide (scheme = "DPoP"))
  then mret (Some (errInvalidToken, "DPoP-bound token must use DPoP authorization scheme"))
  else if bool_decide (DPoP r = "")
  then mret (Some (errInvalidDPoPProof, "DPoP proof header required when using the DPoP authorization scheme"))
  else
  p ← ask params;
  now ← time_Now;
  match ValidateProof p now (DPoP r) (Method r) (RequestURL r) "" (ComputeATH p rawToken) proofLifetime with
  | inr x => mret (Some (errInvalidDPoPProof, "DPoP proof validation failed: " +:+ errText m x))
  | inl result =>
      if andb (IsDPoPBound claims) (negb (bool_decide (d_JKT result = expectedJKT claims)))
      then mret (Some (errInvalidDPoPProof, "DPoP proof key does not match token binding"))
      else if bool_decide (maxDPoPProofJTILen < String.length (d_JTI result))
      then mret (Some (errInvalidDPoPProof, "DPoP proof jti exceeds 255 bytes"))
      else if proofStore m then
        now' ← time_Now;
        got ← try (DPoPNonceStore.ConsumeJTI (d_JTI result) (now' + proofLifetime * 2)%Z);
        mret (match got with
              | Ok _ => None
              | Err x => Some (errInvalidDPoPProof, "DPoP proof replay detected: " +:+ errText m x)
              end)
      else mret None
  end.

(** After the signature, the issuer and the lifetime of the token. *)

Definition admit_token (r : Request) (rawToken scheme : string) (claims : AccessTokenClaims) : M Outcome :=
  let bound := IsDPoPBound claims in
  if andb (bool_decide (audience m ≠ "")) (negb (HasAudience claims (audience m)))
  then mret (Unauthorized (authChallenge bound errInvalidToken "audience mismatch") errInvalidToken
               "token audience does not match this resource")
  else if orb bound (bool_decide (scheme = "DPoP")) then
    failed ← validateDPoPBinding r rawToken claims scheme;
    mret (match failed with
          | Some (code, text) => Unauthorized (authChallenge bound code text) code text
          | None => Next claims
          end)
  else mret (Next claims).

Definition credential (r : Request) : string * string :=
  let '(rawToken, scheme) := ExtractAuthToken r in
  if bool_decide (rawToken = "") then
    let legacy := ExtractBearerToken r in
    if bool_decide (legacy ≠ "") then (legacy, "Bearer") else ("", scheme)
  else (rawToken, scheme).

Definition Wrap (r : Request) : M Outcome :=
  let '(rawToken, scheme) := credential r in
  if bool_decide (rawToken = "")
  then mret (Unauthorized (authChallenge false "" "") errInvalidToken "access token required") else
  got ← try (issuerProvider m);
  match got with
  | Err _ => mret InternalError
  | Ok issuer =>
      got ← try (jwks m);
      match got with
      | Err _ => mret (Unauthorized (authChallenge false errInvalidToken "") errInvalidToken "token validation unavailable")
      | Ok _ =>
          p ← ask params;
          now ← time_Now;
          match VerifyAccessTokenWithIssuer p now rawToken issuer with
          | None => mret (Unauthorized (authChallenge false errInvalidToken "") errInvalidToken "invalid or expired token")
          | Some claims => admit_token r rawToken scheme claims
          end
      end
  end.

End middleware.
End JWTMiddleware.
