(* ===== verification/ResourceServerTheorems.v ===== *)
(** * Theorems about the access-token check of a resource server

    What an admitted request was checked for, that one DPoP proof admits one
    request here or at the token endpoint, what a refusal leaves behind, and
    that a good proof is admitted. *)

From S2P Require Import Prelude GoStrings Encoding Act Domain Db Effects Crypto Stores Order StoreOrder Accounts AdminProofs Runs MintIssuer TokenService TokenProofs Scenario TokenTheorems ResourceServer.
Import Shared JWTMiddleware.

(** ** The challenge is one header value *)

Fixpoint all_bytes (P : Ascii.ascii → bool) (s : string) : bool :=
  match s with
  | EmptyString => true
  | String c s' => andb (P c) (all_bytes P s')
  end.

Definition printable (c : Ascii.ascii) : bool := negb (orb (bool_decide (byte_of c < 32)) (bool_decide (byte_of c = 127))).

Lemma all_bytes_app P a b : all_bytes P (a +:+ b) = andb (all_bytes P a) (all_bytes P b).
Proof. induction a as [|c a IH]; simpl; [done|]. by rewrite IH, andb_assoc. Qed.

Lemma keep_bytes_ok n s : all_bytes challenge_byte (keep_bytes n s) = true ∧ String.length (keep_bytes n s) ≤ n.
Proof.
  revert n. induction s as [|c s IH]; intros n; destruct n as [|n]; cbn [keep_bytes]; try (split; [done|simpl; lia]).
  destruct (challenge_byte c) eqn:Hc; [|apply (IH (S n))]. destruct (IH n) as [H1 H2]. simpl. rewrite Hc. split; [done|lia].
Qed.

Lemma sanitized_printable s : all_bytes printable (sanitizeChallengeText s) = true.
Proof.
  destruct (keep_bytes_ok 160 s) as [H _]. unfold sanitizeChallengeText. revert H.
  generalize (keep_bytes 160 s). intros t. induction t as [|c t IH]; [done|]. simpl. intros [Hc Ht]%andb_true_iff.
  rewrite (IH Ht), andb_true_r. unfold challenge_byte, printable in *.
  rewrite !negb_orb, !andb_true_iff in Hc. rewrite negb_orb. destruct Hc as [_ [-> ->]]. done.
Qed.

(** The challenge that goes out for an error, with any text: no byte in it ends
    the header line, and the text cannot close its quotes. *)

Lemma challenge_is_one_line bound code text :
  code = errInvalidToken ∨ code = errInvalidDPoPProof → all_bytes printable (authChallenge bound code text) = true.
Proof.
  intros Hc. assert (all_bytes printable code = true ∧ code ≠ "") as [Hp Hne] by (destruct Hc as [-> | ->]; by vm_compute).
  unfold authChallenge. rewrite bool_decide_false by done. destruct bound; [case_bool_decide|];
    rewrite !all_bytes_app, Hp, ?sanitized_printable; by vm_compute.
Qed.

(** ** The proof *)

Record proof_ok (p : Params) (now : Z) (r : Request) (tok : string) (life : Z) (pr : DPoPClaims) : Prop := {
  pf_open : proof_open p (DPoP r) = Some pr;
  pf_jti : d_JTI pr ≠ "";
  pf_htm : strings_EqualFold (d_HTM pr) (Method r) = true;
  pf_htu : validateHTU p (d_HTU pr) (RequestURL r) = true;
  pf_fresh : (Z.abs (now - d_IAT pr * SqlTime.nano) <= life)%Z;
  pf_ath : ComputeATH p tok ≠ "" → d_ATH pr = ComputeATH p tok
}.

Lemma ValidateProof_ok p now r tok life pr :
  ValidateProof p now (DPoP r) (Method r) (RequestURL r) "" (ComputeATH p tok) life = inl pr → proof_ok p now r tok life pr.
Proof.
  unfold ValidateProof. destruct (proof_open p (DPoP r)) as [c|] eqn:Ho; [|done].
  repeat (case_match; [done|]). intros [= ->]. unbool. split; try done; [by apply Z.nlt_ge|].
  intros Hne. match goal with H : andb (bool_decide (ComputeATH _ _ ≠ "")) _ = false |- _ => rename H into Ha end.
  rewrite bool_decide_true in Ha by done. simpl in Ha. unbool. done.
Qed.

(** One step of the run claimed the jti. *)

Definition claims_jti (w w' : World) (j : string) : Prop :=
  ∃ st, seen w w' st ∧ dpop_jtis st.1 !! j = None ∧ is_Some (dpop_jtis st.2 !! j).

Lemma ConsumeJTI_claims j x e w w' : DPoPNonceStore.ConsumeJTI j x e w = (Ok (), w') → claims_jti w w' j.
Proof.
  intros (now & d & d' & Hf & Hs & _)%store_seen. destruct (dpop_jtis d !! j) eqn:Hj; [done|]. injection Hf as Hd.
  exists (d, d'). split; [done|]. split; [done|]. simpl. rewrite <-Hd. simpl. rewrite lookup_insert_eq. by eexists.
Qed.

Lemma ConsumeJTI_refused j t x e w w' : DPoPNonceStore.ConsumeJTI j t e w = (Err x, w') → reads w w'.
Proof.
  intros H. split; [by eapply (traced_extends (S:=db_step) (P:=any_event)); [apply traced_ConsumeJTI|]|].
  revert H. unfold DPoPNonceStore.ConsumeJTI, store. destruct (fault _ _).
  - intros [= _ <-]. intros y. unfold seen. erewrite own_steps_app by reflexivity. by intros ?%not_elem_of_nil.
  - destruct (dpop_jtis _ !! j); intros [= _ <-]. intros y. unfold seen. erewrite own_steps_app by reflexivity.
    by intros ->%list_elem_of_singleton.
Qed.

Class MiddlewareDeps (m : Deps) : Prop := {
  jwks_reads (S : relation DB) `{!PreOrder S} : Traced S any_event (jwks m);
  issuer_reads (S : relation DB) `{!PreOrder S} : Traced S any_event (issuerProvider m)
}.

Section middleware.
Context (m : Deps) `{!MiddlewareDeps m}.

Lemma binding_run r tok claims scheme e w res w' :
  validateDPoPBinding m r tok claims scheme e w = (res, w') →
  match res with
  | Err _ => False
  | Ok (Some (code, _)) => reads w w' ∧ (code = errInvalidToken ∧ scheme ≠ "DPoP" ∨ code = errInvalidDPoPProof)
  | Ok None =>
      extends w w' ∧ scheme = "DPoP" ∧ DPoP r ≠ "" ∧ ∃ pr n, proof_ok (params e) (clock e n) r tok (proofLifetime m) pr ∧
        (IsDPoPBound claims = true → d_JKT pr = expectedJKT claims) ∧ String.length (d_JTI pr) ≤ maxDPoPProofJTILen ∧
        (proofStore m = true → claims_jti w w' (d_JTI pr))
  end.
Proof.
  unfold validateDPoPBinding. case_bool_decide as Hs; simpl; [|intros [= <- <-]; split; [reflexivity|by left]].
  case_bool_decide as Hd; [intros [= <- <-]; split; [reflexivity|by right]|]. intros H.
  erewrite bind_step in H by reflexivity. apply bind_cases in H as [(x & H & _)|(now & w1 & Ht & H)]; [done|].
  assert (reads w w1) as R1 by (eapply reads_of; [apply traced_now|exact Ht]). injection Ht as Ht _.
  destruct (ValidateProof _ _ _ _ _ _ _ _) as [pr|x] eqn:Hv; [|injection H as <- <-; split; [done|by right]].
  apply ValidateProof_ok in Hv. rewrite <-Ht in Hv.
  destruct (andb (IsDPoPBound claims) _) eqn:Hb; [injection H as <- <-; split; [done|by right]|].
  assert (IsDPoPBound claims = true → d_JKT pr = expectedJKT claims) as Hkey by (intros Hbd; rewrite Hbd in Hb; simpl in Hb; by unbool).
  case_bool_decide as Hlen; [injection H as <- <-; split; [done|by right]|]. apply not_lt in Hlen.
  destruct (proofStore m).
  - apply bind_cases in H as [(x & H & _)|(now' & w2 & Ht' & H)]; [done|].
    assert (reads w1 w2) as R2 by (eapply reads_of; [apply traced_now|exact Ht']).
    apply bind_cases in H as [(x & H & _)|(got & w3 & Hc & H)]; [by unfold try in H; destruct (DPoPNonceStore.ConsumeJTI _ _ _ _)|].
    apply try_ok in Hc. injection H as <- <-. destruct got as [[]|x].
    + assert (extends w2 w3) as X3 by (eapply (traced_extends (S:=db_step) (P:=any_event)); [apply traced_ConsumeJTI|exact Hc]).
      assert (reads w w2) as R by (by etrans). split; [etrans; [apply R|done]|]. split; [done|]. split; [done|].
      exists pr, (w_tick w). split; [done|]. split; [done|]. split; [done|]. intros _.
      apply ConsumeJTI_claims in Hc as (st & Hst & H0 & H1). exists st. split; [|done].
      by apply (seen_sub w w2 w3 w3 st); [apply R|done|reflexivity|].
    + split; [|by right]. etrans; [exact R1|]. etrans; [exact R2|]. by eapply ConsumeJTI_refused.
  - injection H as <- <-. split; [apply R1|]. split; [done|]. split; [done|]. exists pr, (w_tick w). by split_and!.
Qed.

(** What a refusal says. *)

Definition proper_challenge (ch code : string) : Prop :=
  all_bytes printable ch = true ∧ (code = errInvalidToken ∨ code = errInvalidDPoPProof).

(** What the token of a request was verified against: the answer of the issuer
    provider in this run, at an instant of this run. *)

Definition verified_here (claims : AccessTokenClaims) (tok : string) e w : Prop :=
  ∃ iss w1 n, issuerProvider m e w = (Ok iss, w1) ∧ VerifyAccessTokenWithIssuer (params e) (clock e n) tok iss = Some claims.

(** The proof that came with the token. *)

Definition proof_presented (r : Request) (claims : AccessTokenClaims) (tok : string) e w w' : Prop :=
  ∃ pr n, proof_ok (params e) (clock e n) r tok (proofLifetime m) pr ∧
    (IsDPoPBound claims = true → d_JKT pr = expectedJKT claims) ∧ String.length (d_JTI pr) ≤ maxDPoPProofJTILen ∧
    (proofStore m = true → claims_jti w w' (d_JTI pr)).

Lemma admit_run r tok scheme claims e w res w' :
  admit_token m r tok scheme claims e w = (res, w') →
  match res with
  | Ok (Next c) => c = claims ∧ extends w w' ∧ (audience m ≠ "" → audience m ∈ c_Audience claims) ∧
      (IsDPoPBound claims = true ∨ scheme = "DPoP" → scheme = "DPoP" ∧ proof_presented r claims tok e w w')
  | Ok (Unauthorized ch code _) => reads w w' ∧ proper_challenge ch code
  | _ => False
  end.
Proof.
  unfold admit_token. destruct (andb (bool_decide (audience m ≠ "")) _) eqn:Haud.
  { intros [= <- <-]. split; [done|]. split; [|by left]. apply challenge_is_one_line. by left. }
  assert (audience m ≠ "" → audience m ∈ c_Audience claims) as Ha.
  { intros Hne. rewrite bool_decide_true in Haud by done. simpl in Haud. unfold HasAudience in Haud. by unbool. }
  destruct (orb (IsDPoPBound claims) _) eqn:Hneed; intros H.
  - apply bind_cases in H as [(x & H & ->)|(failed & w1 & H & Hr)]; [by apply binding_run in H|].
    apply binding_run in H. destruct failed as [[code text]|]; injection Hr as <- <-.
    + destruct H as [H Hc]. assert (code = errInvalidToken ∨ code = errInvalidDPoPProof) by naive_solver.
      split; [done|]. split; [|done]. by apply challenge_is_one_line.
    + destruct H as (X & Hs & _ & pr & n & H). do 3 (split; [done|]). intros _. split; [done|]. by exists pr, n.
  - injection H as <- <-. split; [done|]. split; [reflexivity|]. split; [done|]. apply orb_false_iff in Hneed as [Hb Hs].
    rewrite Hb. unbool. by intros [].
Qed.

Lemma Wrap_run r e w res w' :
  Wrap m r e w = (res, w') →
  match res with
  | Ok (Next claims) =>
      extends w w' ∧ ∃ tok scheme, credential r = (tok, scheme) ∧ tok ≠ "" ∧ verified_here claims tok e w ∧
        (audience m ≠ "" → audience m ∈ c_Audience claims) ∧
        (IsDPoPBound claims = true ∨ scheme = "DPoP" → scheme = "DPoP" ∧ proof_presented r claims tok e w w')
  | Ok (Unauthorized ch code _) => reads w w' ∧ proper_challenge ch code
  | Ok InternalError => reads w w' ∧ ∃ x, issuerProvider m e w = (Err x, w')
  | Err _ => False
  end.
Proof.
  assert (∀ b c t, c = errInvalidToken ∨ c = errInvalidDPoPProof → ∀ v v', reads v v' → reads v v' ∧ proper_challenge (authChallenge b c t) c) as Hout.
  { intros b c t Hc v v' R. split; [done|]. split; [|done]. by apply challenge_is_one_line. }
  unfold Wrap. destruct (credential r) as [tok scheme] eqn:Hcred. case_bool_decide as Htok.
  { intros [= <- <-]. split; [done|]. split; [by vm_compute|by left]. }
  intros H. apply bind_cases in H as [(x & H & _)|(got & w1 & H1 & H)]; [by apply try_not_err in H|].
  apply try_ok in H1. assert (reads w w1) as R1 by (eapply reads_of; [apply (issuer_reads (=))|exact H1]).
  destruct got as [iss|x]; [|injection H as <- <-; split; [done|by exists x]].
  apply bind_cases in H as [(x & H & _)|(got & w2 & H2 & H)]; [by apply try_not_err in H|].
  apply try_ok in H2. assert (reads w w2) as R2 by (etrans; [exact R1|]; eapply reads_of; [apply (jwks_reads (=))|exact H2]).
  destruct got as [[]|x]; [|injection H as <- <-; apply Hout; [by left|done]].
  erewrite bind_step in H by reflexivity. apply bind_cases in H as [(x & H & _)|(now & w3 & H3 & H)]; [done|].
  assert (reads w w3) as R3 by (etrans; [exact R2|]; eapply reads_of; [apply traced_now|exact H3]). injection H3 as Hnow _.
  destruct (VerifyAccessTokenWithIssuer _ _ _ _) as [claims|] eqn:Hv; [|injection H as <- <-; apply Hout; [by left|done]].
  apply admit_run in H. destruct res as [[c|ch code d|]|]; [| |done|done].
  - destruct H as (-> & X & Ha & Hp). split; [etrans; [apply R3|done]|]. exists tok, scheme. do 2 (split; [done|]).
    split; [exists iss, w1, (w_tick w2); split; [done|]; by rewrite Hnow|]. split; [done|]. intros [Hs (pr & n & ? & ? & ? & Hj)]%Hp.
    split; [done|]. exists pr, n. do 3 (split; [done|]). intros (st & Hst & Hj')%Hj. exists st. split; [|done].
    by apply (seen_sub w w3 w' w' st); [apply R3|done|reflexivity|].
  - destruct H as [R Hc]. split; [|done]. by etrans.
Qed.
End middleware.

(** C22: Every request to the middleware is answered.  A handler runs only for
    a request whose token verified against the issuer resolved in this run; the
    audience of the token names this resource when one is configured; a token
    bound to a key came under the DPoP scheme, and whatever came under that
    scheme has a fresh proof, of this method, this URL and this very token, by
    the key the token is bound to, whose jti this run entered in the replay
    store.  A refusal changes no table, and its challenge is one header line
    with a code of the two specifications; a 500 is a failed issuer lookup. *)
Theorem admitted_request_is_checked m `{!MiddlewareDeps m} r e w res w' :
  Wrap m r e w = (res, w') →
  match res with
  | Ok (Next claims) =>
      extends w w' ∧ ∃ tok scheme, credential r = (tok, scheme) ∧ tok ≠ "" ∧ verified_here m claims tok e w ∧
        (audience m ≠ "" → audience m ∈ c_Audience claims) ∧
        (IsDPoPBound claims = true ∨ scheme = "DPoP" → scheme = "DPoP" ∧ proof_presented m r claims tok e w w')
  | Ok (Unauthorized ch code _) => reads w w' ∧ proper_challenge ch code
  | Ok InternalError => reads w w' ∧ ∃ x, issuerProvider m e w = (Err x, w')
  | Err _ => False
  end.
Proof. apply Wrap_run, _. Qed.

(** ** One proof, one request *)

Lemma traced_Wrap m r : MiddlewareDeps m → Traced db_step any_event (Wrap m r).
Proof.
  intros [Hj Hi]. unfold Wrap, admit_token, validateDPoPBinding.
  pose proof (Hj db_step _) as Hj'. pose proof (Hi db_step _) as Hi'. traced.
Qed.

Lemma traced_endpoint_proof s p mth u h : Traced db_step any_event (TokenService.validateDPoP s p mth u h).
Proof. unfold TokenService.validateDPoP. traced. Qed.

Lemma admitted_claims m `{!MiddlewareDeps m} r e w cl w' c :
  Wrap m r e w = (Ok (Next cl), w') → proofStore m = true → (credential r).2 = "DPoP" →
  proof_open (params e) (DPoP r) = Some c → claims_jti w w' (d_JTI c).
Proof.
  intros (_ & tok & scheme & Hc & _ & _ & _ & Hp)%Wrap_run Hs Hd Ho; [|done]. rewrite Hc in Hd. simpl in Hd. subst scheme.
  destruct (Hp (or_intror eq_refl)) as (_ & pr & n & Hpr & _ & _ & Hj).
  assert (pr = c) as -> by (pose proof (pf_open _ _ _ _ _ _ Hpr); congruence). by apply Hj.
Qed.

Lemma jti_claimed_once j d0 dn g w1 w1' w2 w2' :
  wf_db d0 → history db_step d0 g dn → merge (own_steps w1 w1') (own_steps w2 w2') g →
  claims_jti w1 w1' j → claims_jti w2 w2' j → False.
Proof.
  intros Hwf Hh Hm (x & Hx & Hx1 & Hx2) (y & Hy & Hy1 & Hy2).
  eapply (claimed_once dpop_jtis j d0 dn g _ _ x y); eauto. by intros ?? [].
Qed.

(** C23: A DPoP proof buys one request.  A resource server with a replay store
    admits a request under the DPoP scheme.  Another request with a proof of
    the same jti, at this or another resource server or at the token endpoint
    on the same tables, however the store calls of the two and of other
    requests interleave (each a step of the security order): the resource
    server does not run its handler, and the token endpoint answers an error. *)
Theorem proof_buys_one_request m1 `{!MiddlewareDeps m1} r1 e1 w1 cl1 w1' c1 e2 w2 w2' c2 p2 d0 dn g :
  Wrap m1 r1 e1 w1 = (Ok (Next cl1), w1') → proofStore m1 = true → (credential r1).2 = "DPoP" →
  proof_open (params e1) (DPoP r1) = Some c1 → proof_open (params e2) p2 = Some c2 → d_JTI c1 = d_JTI c2 →
  wf_db d0 → history db_step d0 g dn → merge (own_steps w1 w1') (own_steps w2 w2') g →
  (∀ m2 r2 o, MiddlewareDeps m2 → proofStore m2 = true → (credential r2).2 = "DPoP" → DPoP r2 = p2 →
     Wrap m2 r2 e2 w2 = (Ok o, w2') → ∀ cl, o ≠ Next cl) ∧
  (∀ s mth u h r, TokenService.has_dpop s = true → DPoPEnabled (config e2) = true →
     TokenService.validateDPoP s p2 mth u h e2 w2 = (r, w2') → ∃ x, r = Err x).
Proof.
  intros H1 Hs1 Hd1 Ho1 Ho2 Hj Hwf Hh Hm. pose proof (admitted_claims _ _ _ _ _ _ _ H1 Hs1 Hd1 Ho1) as C1. split.
  - intros m2 r2 o ? Hs2 Hd2 <- H2 cl ->. pose proof (admitted_claims _ _ _ _ _ _ _ H2 Hs2 Hd2 Ho2) as C2.
    rewrite <-Hj in C2. by eapply jti_claimed_once.
  - intros s mth u h r Hd Hen H2. destruct r as [k|x]; [exfalso|by eauto].
    apply validateDPoP_ok in H2 as (c & st & n & Hc & _ & _ & Hst & Hst1 & Hst2); [|done|done].
    assert (c = c2) as -> by congruence. rewrite <-Hj in Hst1, Hst2. eapply jti_claimed_once; eauto. by exists st.
Qed.

(** ** A good request gets through *)

Definition good_proof (m : Deps) (e : Env) (r : Request) (tok : string) (claims : AccessTokenClaims) : Prop :=
  DPoP r ≠ "" ∧ ∃ pr, proof_open (params e) (DPoP r) = Some pr ∧
    (∀ n, ValidateProof (params e) (clock e n) (DPoP r) (Method r) (RequestURL r) "" (ComputeATH (params e) tok) (proofLifetime m) = inl pr) ∧
    (IsDPoPBound claims = true → d_JKT pr = expectedJKT claims) ∧ String.length (d_JTI pr) ≤ maxDPoPProofJTILen.

Lemma binding_good m e w r tok claims pr :
  fault_free e → DPoP r ≠ "" →
  (∀ n, ValidateProof (params e) (clock e n) (DPoP r) (Method r) (RequestURL r) "" (ComputeATH (params e) tok) (proofLifetime m) = inl pr) →
  (IsDPoPBound claims = true → d_JKT pr = expectedJKT claims) → String.length (d_JTI pr) ≤ maxDPoPProofJTILen →
  (∀ n, dpop_jtis (interfere e n (w_db w)) !! d_JTI pr = None) →
  ∃ w', validateDPoPBinding m r tok claims "DPoP" e w = (Ok None, w').
Proof.
  intros Hf Hd Hv Hkey Hlen Hfresh. unfold validateDPoPBinding. rewrite (bool_decide_true (_ = _)) by done.
  rewrite (bool_decide_false (DPoP r = "")) by done. cbv beta iota delta [negb].
  do 2 (erewrite bind_step by reflexivity; cbv beta). rewrite Hv.
  assert (andb (IsDPoPBound claims) (negb (bool_decide (d_JKT pr = expectedJKT claims))) = false) as E.
  { destruct (IsDPoPBound claims); [|done]. simpl. rewrite bool_decide_true by auto. done. }
  unfold negb in E. rewrite E. rewrite (bool_decide_false (_ < _)) by lia. destruct (proofStore m); [|by eexists].
  erewrite bind_step by reflexivity. cbv beta.
  match goal with |- context [try ?c] => destruct (c e (after (after w (w_db w) []) (w_db w) [])) as [res w1] eqn:Hc end.
  erewrite bind_step by (apply try_run; exact Hc). unfold DPoPNonceStore.ConsumeJTI, store in Hc. rewrite Hf in Hc.
  cbn [after w_db w_tick] in Hc. rewrite Hfresh in Hc. injection Hc as <- _. by eexists.
Qed.

(** While nothing fails, a verified token for this audience is let through:
    as a bearer token unless it is bound, or with a good proof whose jti is in
    no row of the replay store. *)
Theorem good_request_admitted m r e w w1 w2 iss claims tok scheme :
  fault_free e → credential r = (tok, scheme) → tok ≠ "" →
  issuerProvider m e w = (Ok iss, w1) → jwks m e w1 = (Ok tt, w2) →
  (∀ n, VerifyAccessTokenWithIssuer (params e) (clock e n) tok iss = Some claims) →
  (audience m ≠ "" → audience m ∈ c_Audience claims) →
  (scheme ≠ "DPoP" ∧ IsDPoPBound claims = false ∨
   scheme = "DPoP" ∧ good_proof m e r tok claims ∧
     ∀ n c, proof_open (params e) (DPoP r) = Some c → dpop_jtis (interfere e n (w_db w2)) !! d_JTI c = None) →
  ∃ w', Wrap m r e w = (Ok (Next claims), w').
Proof.
  intros Hf Hc Ht Hi Hk Hv Ha Hp. unfold Wrap. rewrite Hc, bool_decide_false by done.
  do 2 (erewrite bind_step by (by apply try_run); cbv beta iota).
  do 2 (erewrite bind_step by reflexivity; cbv beta). rewrite Hv. unfold admit_token.
  assert (andb (bool_decide (audience m ≠ "")) (negb (HasAudience claims (audience m))) = false) as ->.
  { case_bool_decide as Hne; [|done]. simpl. unfold HasAudience. rewrite bool_decide_true by auto. done. }
  destruct Hp as [[Hs Hb]|(-> & (Hd & pr & Ho & Hvp & Hkey & Hlen) & Hfresh)].
  { rewrite Hb, bool_decide_false by done. by eexists. }
  rewrite orb_true_r. destruct (binding_good m e (after w2 (w_db w2) []) r tok claims pr) as [w' Hb]; try done.
  { intros n. by apply Hfresh. }
  erewrite bind_step by exact Hb. by eexists.
Qed.

(** ** Concrete requests *)

Module ResourceRuns.

Definition claims : AccessTokenClaims :=
  MkClaims "https://as" "alice" ["https://api"] "app" "read" "j1" 1000 5000 1000 (Some {["jkt" := JStr "thumb"]}) None "" [].

Definition presented : DPoPClaims := MkDPoPClaims "pj" "GET" "https://api/items" 1000 "" "~tok" "thumb".

Definition primitives : Params :=
  let q := Scenario.toy_params [("tok", claims)] in
  {| sha256_hex := sha256_hex q; sha256_b64url := sha256_b64url q; hmac_b64 := hmac_b64 q; bcrypt_ok := bcrypt_ok q;
     pepper := pepper q; url_parse := url_parse q; url_string := url_string q; jws_sign := jws_sign q; jws_open := jws_open q;
     proof_open := λ s, if bool_decide (s = "proof") then Some presented else None;
     jag_parse := jag_parse q; jag_verify := jag_verify q |}.

Definition env : Env :=
  {| fault := λ _, false; clock := λ _, Scenario.start; rand := rand Scenario.env; interfere := λ _ d, d;
     params := primitives; Effects.config := Scenario.config |}.

Definition issuer : M string := provider (λ e, Issuer (Effects.config e)).
Definition keys : M unit := mret tt.

Definition server : Deps :=
  default (NewJWTMiddleware keys issuer (λ _, "")) (NewResourceJWTMiddleware keys issuer "https://api" true 0 (λ _, "replayed")).

#[export] Instance server_deps : MiddlewareDeps server.
Proof. split; intros; [apply traced_ret|apply traced_provider]. Qed.

Definition request (auth : string) : Request := MkRequest "GET" "api" "/items" true auth "" "proof".

Definition first : res Outcome * World := Wrap server (request "dpop tok") env Scenario.world.
Definition again : res Outcome * World := Wrap server (request "DPoP tok") env first.2.
Definition at_token_endpoint : res string * World := TokenService.validateDPoP Runs.wired "proof" "GET" "https://api/items" "" env first.2.

(** Admitted, replayed, and a bound token under the Bearer scheme. *)

Example first_is_admitted : first.1 = Ok (Next claims).
Proof. vm_compute. reflexivity. Qed.

Example again_is_a_replay :
  again.1 = Ok (Unauthorized ("DPoP error=" +:+ dq +:+ errInvalidDPoPProof +:+ dq +:+ ", error_description=" +:+ dq
    +:+ "DPoP proof replay detected: replayed" +:+ dq) errInvalidDPoPProof "DPoP proof replay detected: replayed").
Proof. vm_compute. reflexivity. Qed.

Example downgrade_is_refused :
  (Wrap server (request "Bearer tok") env Scenario.world).1 =
  Ok (Unauthorized ("DPoP error=" +:+ dq +:+ errInvalidToken +:+ dq +:+ ", error_description=" +:+ dq
    +:+ "DPoP-bound token must use DPoP authorization scheme" +:+ dq) errInvalidToken
    "DPoP-bound token must use DPoP authorization scheme").
Proof. vm_compute. reflexivity. Qed.

Lemma first_run : Wrap server (request "dpop tok") env Scenario.world = (Ok (Next claims), first.2).
Proof. rewrite <-first_is_admitted. apply surjective_pairing. Qed.

Lemma undisturbed : rely db_step env.
Proof. intros n d. reflexivity. Qed.

(** Whatever follows the first run on its tables, the two make a history. *)

Lemma after_first {A} (m : M A) : Traced db_step any_event m →
  history db_step (w_db Scenario.world) (own_steps Scenario.world first.2 ++ own_steps first.2 (m env first.2).2) (w_db (m env first.2).2).
Proof.
  intros Hm. eapply runs_history; [apply traced_Wrap, _|exact Hm|exact undisturbed|exact first_run|apply surjective_pairing].
Qed.

End ResourceRuns.

#[export] Existing Instance ResourceRuns.server_deps.

Lemma admitted_request_is_checked_witness :
  proof_presented ResourceRuns.server (ResourceRuns.request "dpop tok") ResourceRuns.claims "tok" ResourceRuns.env Scenario.world
    ResourceRuns.first.2.
Proof.
  destruct (admitted_request_is_checked ResourceRuns.server (ResourceRuns.request "dpop tok") ResourceRuns.env Scenario.world
    (Ok (Next ResourceRuns.claims)) ResourceRuns.first.2 ResourceRuns.first_run) as (_ & tok & scheme & Hc & _ & _ & _ & Hp).
  assert ((tok, scheme) = ("tok", "DPoP")) as [= -> ->] by (rewrite <-Hc; vm_compute; reflexivity).
  by destruct (Hp (or_intror eq_refl)).
Defined.

Lemma proof_buys_one_request_witness :
  (∃ o, ResourceRuns.again.1 = Ok o ∧ ∀ cl, o ≠ Next cl) ∧ ∃ x, ResourceRuns.at_token_endpoint.1 = Err x.
Proof.
  split.
  - assert (∃ o, ResourceRuns.again.1 = Ok o) as [o Ho] by (eexists; vm_compute; reflexivity).
    assert (Wrap ResourceRuns.server (ResourceRuns.request "DPoP tok") ResourceRuns.env ResourceRuns.first.2
      = (Ok o, ResourceRuns.again.2)) as H2 by (rewrite <-Ho; apply surjective_pairing).
    exists o. split; [exact Ho|].
    destruct (proof_buys_one_request ResourceRuns.server (ResourceRuns.request "dpop tok") ResourceRuns.env Scenario.world
      ResourceRuns.claims ResourceRuns.first.2 ResourceRuns.presented ResourceRuns.env ResourceRuns.first.2 ResourceRuns.again.2
      ResourceRuns.presented "proof" (w_db Scenario.world) _ _ ResourceRuns.first_run eq_refl eq_refl eq_refl eq_refl eq_refl
      Scenario.wf (ResourceRuns.after_first _ (traced_Wrap _ _ _)) (merge_app _ _)) as [H _].
    exact (H ResourceRuns.server (ResourceRuns.request "DPoP tok") o _ eq_refl eq_refl eq_refl H2).
  - destruct (proof_buys_one_request ResourceRuns.server (ResourceRuns.request "dpop tok") ResourceRuns.env Scenario.world
      ResourceRuns.claims ResourceRuns.first.2 ResourceRuns.presented ResourceRuns.env ResourceRuns.first.2
      ResourceRuns.at_token_endpoint.2 ResourceRuns.presented "proof" (w_db Scenario.world) _ _ ResourceRuns.first_run
      eq_refl eq_refl eq_refl eq_refl eq_refl Scenario.wf
      (ResourceRuns.after_first _ (traced_endpoint_proof Runs.wired "proof" "GET" "https://api/items" "")) (merge_app _ _)) as [_ H].
    exact (H Runs.wired "GET" "https://api/items" "" _ eq_refl eq_refl (surjective_pairing _)).
Defined.

Lemma good_request_admitted_witness :
  ∃ w', Wrap ResourceRuns.server (ResourceRuns.request "DPoP tok") ResourceRuns.env Scenario.world = (Ok (Next ResourceRuns.claims), w').
Proof.
  eapply (good_request_admitted ResourceRuns.server (ResourceRuns.request "DPoP tok") ResourceRuns.env Scenario.world
    _ _ "https://as" ResourceRuns.claims "tok" "DPoP" (λ _, eq_refl) eq_refl ltac:(done) eq_refl eq_refl).
  - intros n. vm_compute. reflexivity.
  - intros _. by left.
  - right. split; [done|]. split; [|intros n c [= <-]; vm_compute; reflexivity]. split; [done|]. exists ResourceRuns.presented.
    split; [reflexivity|]. split; [intros n; vm_compute; reflexivity|]. split; [intros _; vm_compute; reflexivity|vm_compute; lia].
Defined.
