(* ===== verification/UrlValues.v ===== *)
(** * Query strings and Basic credentials of the Go standard library

    [url.QueryEscape], [url.QueryUnescape], [url.Values], [url.ParseQuery] and
    [base64.StdEncoding], as the OAuth handlers use them, with their round
    trips. *)

From S2P Require Import Prelude GoStrings Encoding.

(** ** Escaping *)

Definition hex_digits : string := "0123456789ABCDEF".

Definition hex_char (n : nat) : Ascii.ascii := default (ascii_of 0) (String.get n hex_digits).

(** [ishex] and [unhex]: both cases. *)

Definition unhex (c : Ascii.ascii) : option nat :=
  let n := byte_of c in
  if andb (bool_decide (48 ≤ n)) (bool_decide (n ≤ 57)) then Some (n - 48)
  else if andb (bool_decide (97 ≤ n)) (bool_decide (n ≤ 102)) then Some (n - 97 + 10)
  else if andb (bool_decide (65 ≤ n)) (bool_decide (n ≤ 70)) then Some (n - 65 + 10)
  else None.

(** Letters, digits and [-_.~] stand for themselves. *)

Definition unreserved (c : Ascii.ascii) : bool :=
  let n := byte_of c in
  orb (orb (andb (bool_decide (97 ≤ n)) (bool_decide (n ≤ 122))) (andb (bool_decide (65 ≤ n)) (bool_decide (n ≤ 90))))
    (orb (andb (bool_decide (48 ≤ n)) (bool_decide (n ≤ 57)))
       (orb (orb (bool_decide (n = 45)) (bool_decide (n = 95))) (orb (bool_decide (n = 46)) (bool_decide (n = 126))))).

Fixpoint url_QueryEscape (s : string) : string :=
  match s with
  | EmptyString => ""
  | String c s' =>
      if unreserved c then String c (url_QueryEscape s')
      else if bool_decide (byte_of c = 32) then String (ascii_of 43) (url_QueryEscape s')
      else String (ascii_of 37) (String (hex_char (byte_of c / 16)) (String (hex_char (byte_of c mod 16)) (url_QueryEscape s')))
  end.

Fixpoint url_QueryUnescape (s : string) : option string :=
  match s with
  | EmptyString => Some ""
  | String c s' =>
      if bool_decide (byte_of c = 37) then
        match s' with
        | String a (String b t) =>
            match unhex a, unhex b with
            | Some x, Some y => String (ascii_of (16 * x + y)) <$> url_QueryUnescape t
            | _, _ => None
            end
        | _ => None
        end
      else if bool_decide (byte_of c = 43) then String (ascii_of 32) <$> url_QueryUnescape s'
      else String c <$> url_QueryUnescape s'
  end.

(** ** url.Values *)

Abbreviation Values := (gmap string (list string)).

Definition Values_Get (v : Values) (key : string) : string := default "" (v !! key ≫= head).

Definition Values_Set (key value : string) (v : Values) : Values := <[key := [value]]> v.

Definition Values_Add (v : Values) (kv : string * string) : Values :=
  <[kv.1 := default [] (v !! kv.1) ++ [kv.2]]> v.

Definition amp : Ascii.ascii := ascii_of 38.
Definition equals : Ascii.ascii := ascii_of 61.

(** The keys in byte order. *)

Definition key_le (a b : string * list string) : Prop := String.leb a.1 b.1 = true.

#[global] Instance key_le_dec : RelDecision key_le.
Proof. intros a b. unfold key_le. apply _. Defined.

Definition encode_pair (kv : string * string) : string :=
  url_QueryEscape kv.1 +:+ String equals (url_QueryEscape kv.2).

Definition pairs_of (E : list (string * list string)) : list (string * string) :=
  mjoin ((λ kl, (λ x, (kl.1, x)) <$> kl.2) <$> E).

Definition values_pairs (v : Values) : list (string * string) := pairs_of (merge_sort key_le (map_to_list v)).

Fixpoint join_amp (l : list string) : string :=
  match l with
  | [] => ""
  | [x] => x
  | x :: l' => x +:+ String amp (join_amp l')
  end.

Definition Values_Encode (v : Values) : string := join_amp (encode_pair <$> values_pairs v).

(** One [key=value]; a pair that does not unescape is dropped, as
    [url.URL.Query] drops it. *)

Definition parse_pair (s : string) : option (string * string) :=
  if bool_decide (s = "") then None
  else if negb (free_of (ascii_of 59) s) then None
  else
    let '(k, v) := match strings_Cut equals s with Some kv => kv | None => (s, "") end in
    match url_QueryUnescape k, url_QueryUnescape v with
    | Some k', Some v' => Some (k', v')
    | _, _ => None
    end.

Definition add_pair (v : Values) (s : string) : Values :=
  match parse_pair s with Some kv => Values_Add v kv | None => v end.

Definition url_ParseQuery (query : string) : Values := foldl add_pair ∅ (strings_Split amp query).

(** ** base64.StdEncoding *)

Fixpoint map_bytes (f : Ascii.ascii → Ascii.ascii) (s : string) : string :=
  match s with EmptyString => "" | String c s' => String (f c) (map_bytes f s') end.

(** The two alphabets differ in their last two characters. *)

Definition to_std (c : Ascii.ascii) : Ascii.ascii :=
  if bool_decide (byte_of c = 45) then ascii_of 43 else if bool_decide (byte_of c = 95) then ascii_of 47 else c.

Definition of_std (c : Ascii.ascii) : Ascii.ascii :=
  if bool_decide (byte_of c = 43) then ascii_of 45
  else if bool_decide (byte_of c = 47) then ascii_of 95
  else if orb (bool_decide (byte_of c = 45)) (bool_decide (byte_of c = 95)) then ascii_of 0
  else c.

Definition pad (n : nat) : string :=
  match n mod 4 with 2 => "==" | 3 => "=" | _ => "" end.

Definition std_encode (s : string) : string :=
  let t := b64_encode s in map_bytes to_std t +:+ pad (String.length t).

Fixpoint drop_breaks (s : string) : string :=
  match s with
  | EmptyString => ""
  | String c s' => if bool_decide (c = ascii_of 10 ∨ c = ascii_of 13) then drop_breaks s' else String c (drop_breaks s')
  end.

(** At most two characters of padding at the end; one anywhere else is in no
    alphabet. *)

Fixpoint strip_pad (s : string) : string :=
  match s with
  | EmptyString => ""
  | String c s' =>
      if andb (bool_decide (byte_of c = 61)) (bool_decide (s' = "" ∨ s' = "=")) then "" else String c (strip_pad s')
  end.

Definition std_decode (s : string) : option string :=
  let t := drop_breaks s in
  if bool_decide (String.length t mod 4 ≠ 0) then None else b64_decode (map_bytes of_std (strip_pad t)).

(** ** Round trips *)

Lemma byte_cases (P : Ascii.ascii → bool) : forallb (λ n, P (ascii_of n)) (below 256) = true → ∀ c, P c = true.
Proof.
  intros H c. rewrite <-(ascii_byte c). apply (proj1 (forallb_forall _ _) H (byte_of c)), list_elem_of_In, below_spec, byte_of_lt.
Qed.

Definition escaped_back (c : Ascii.ascii) : bool :=
  if unreserved c then negb (orb (bool_decide (byte_of c = 37)) (bool_decide (byte_of c = 43)))
  else andb (bool_decide (unhex (hex_char (byte_of c / 16)) = Some (byte_of c / 16)))
         (bool_decide (unhex (hex_char (byte_of c mod 16)) = Some (byte_of c mod 16))).

Lemma escaped_back_all c : escaped_back c = true.
Proof. revert c. apply byte_cases. by vm_compute. Qed.

Lemma QueryUnescape_Escape s : url_QueryUnescape (url_QueryEscape s) = Some s.
Proof.
  induction s as [|c s IH]; [done|]. cbn [url_QueryEscape]. pose proof (escaped_back_all c) as Hc. unfold escaped_back in Hc.
  destruct (unreserved c).
  - apply negb_true_iff, orb_false_iff in Hc as [H1 H2]. cbn [url_QueryUnescape]. rewrite H1, H2, IH. done.
  - apply andb_true_iff in Hc as [H1 H2]. unbool. case_bool_decide as H32.
    + cbn [url_QueryUnescape]. rewrite (byte_ascii 43) by lia. rewrite bool_decide_false, bool_decide_true by done.
      rewrite IH. cbn. by rewrite <-H32, ascii_byte.
    + cbn [url_QueryUnescape]. rewrite (byte_ascii 37) by lia. rewrite bool_decide_true by done. rewrite H1, H2, IH. cbn [fmap option_fmap option_map].
      rewrite <-Nat.div_mod_eq, ascii_byte. done.
Qed.

(** A separator that is not among the characters of an escaped text. *)

Definition separator (sep : Ascii.ascii) : bool :=
  forallb (λ n, let c := ascii_of n in
    andb (orb (negb (unreserved c)) (bool_decide (c ≠ sep)))
      (andb (bool_decide (hex_char (n / 16) ≠ sep)) (bool_decide (hex_char (n mod 16) ≠ sep)))) (below 256)
  && bool_decide (ascii_of 43 ≠ sep) && bool_decide (ascii_of 37 ≠ sep).

Lemma QueryEscape_free sep s : separator sep = true → free_of sep (url_QueryEscape s) = true.
Proof.
  intros [[Hb Hp]%andb_true_iff Hq]%andb_true_iff. induction s as [|c s IH]; [done|]. cbn [url_QueryEscape].
  pose proof (proj1 (forallb_forall _ _) Hb (byte_of c) (proj1 (list_elem_of_In _ _) (below_spec 256 _ (byte_of_lt c)))) as H.
  cbn beta zeta in H. rewrite ascii_byte in H. apply andb_true_iff in H as [H1 [H2 H3]%andb_true_iff].
  destruct (unreserved c); [|destruct (bool_decide (byte_of c = 32))]; cbn [free_of]; rewrite IH, ?Hp, ?Hq, ?H2, ?H3; [|done..].
  simpl in H1. by rewrite H1.
Qed.

Lemma amp_separates : separator amp = true. Proof. by vm_compute. Qed.
Lemma equals_separates : separator equals = true. Proof. by vm_compute. Qed.
Lemma semicolon_separates : separator (ascii_of 59) = true. Proof. by vm_compute. Qed.

Lemma encode_pair_free sep kv : separator sep = true → sep ≠ equals → free_of sep (encode_pair kv) = true.
Proof.
  intros Hs Hne. unfold encode_pair. rewrite free_of_app. cbn [free_of]. rewrite !QueryEscape_free by done.
  by rewrite bool_decide_true.
Qed.

Lemma parse_encode_pair kv : parse_pair (encode_pair kv) = Some kv.
Proof.
  unfold parse_pair. rewrite bool_decide_false; [|unfold encode_pair; by destruct (url_QueryEscape _)].
  rewrite encode_pair_free by (by vm_compute). cbn [negb]. unfold encode_pair.
  rewrite Cut_app by (apply QueryEscape_free, equals_separates). rewrite !QueryUnescape_Escape. by destruct kv.
Qed.

Lemma Split_app sep a b : free_of sep a = true → strings_Split sep (a +:+ String sep b) = a :: strings_Split sep b.
Proof.
  induction a as [|c a IH]; simpl; [by rewrite bool_decide_true|]. intros [Hc Ha]%andb_true_iff. unbool.
  rewrite bool_decide_false by done. by rewrite IH.
Qed.

Lemma Split_single sep a : free_of sep a = true → strings_Split sep a = [a].
Proof.
  induction a as [|c a IH]; simpl; [done|]. intros [Hc Ha]%andb_true_iff. unbool.
  rewrite bool_decide_false by done. by rewrite IH.
Qed.

Lemma Split_join l : l ≠ [] → Forall (λ x, free_of amp x = true) l → strings_Split amp (join_amp l) = l.
Proof.
  intros Hne H. induction H as [|x l Hx H IH]; [done|]. destruct l as [|y l]; [by apply Split_single|].
  change (join_amp (x :: y :: l)) with (x +:+ String amp (join_amp (y :: l))). rewrite Split_app by done. by rewrite IH.
Qed.

Lemma ParseQuery_join l : url_ParseQuery (join_amp (encode_pair <$> l)) = foldl Values_Add ∅ l.
Proof.
  unfold url_ParseQuery. destruct (decide (l = [])) as [->|Hne]; [done|].
  rewrite Split_join; [|by destruct l|].
  - generalize (∅ : Values). induction l as [|kv l IH]; intros v; [done|]. cbn [fmap list_fmap foldl].
    unfold add_pair at 2. rewrite parse_encode_pair. destruct (decide (l = [])) as [->|]; [done|]. by apply IH.
  - apply Forall_fmap, Forall_forall. intros kv _. apply encode_pair_free; [apply amp_separates|by vm_compute].
Qed.

(** What a list of pairs adds up to. *)

Definition values_of (k : string) (l : list (string * string)) : list string := snd <$> filter (λ kv, kv.1 = k) l.

Lemma values_of_cons k a b l : values_of k ((a, b) :: l) = if decide (a = k) then b :: values_of k l else values_of k l.
Proof. unfold values_of. rewrite filter_cons. by destruct (decide (a = k)), (decide ((a, b).1 = k)). Qed.

Lemma foldl_Add l v k : (foldl Values_Add v l) !! k =
  if decide (values_of k l = []) then v !! k else Some (default [] (v !! k) ++ values_of k l).
Proof.
  revert v. induction l as [|[a b] l IH]; intros v; [done|]. cbn [foldl]. rewrite IH, values_of_cons. unfold Values_Add.
  cbn [fst snd]. destruct (decide (a = k)) as [->|Hne].
  - rewrite lookup_insert_eq. cbn [default id]. rewrite (decide_False (P:=_ :: _ = [])) by done.
    case_decide as He; [by rewrite He|]. by rewrite <-app_assoc.
  - by rewrite lookup_insert_ne by done.
Qed.

Lemma values_of_app k l1 l2 : values_of k (l1 ++ l2) = values_of k l1 ++ values_of k l2.
Proof. unfold values_of. by rewrite filter_app, fmap_app. Qed.

Lemma values_of_own k l : values_of k ((λ x, (k, x)) <$> l) = l.
Proof.
  unfold values_of. induction l as [|x l IH]; [done|]. cbn [fmap list_fmap]. rewrite filter_cons_True by done.
  cbn [fmap list_fmap snd]. by f_equal.
Qed.

Lemma values_of_other k j l : j ≠ k → values_of k ((λ x, (j, x)) <$> l) = [].
Proof.
  intros Hne. unfold values_of. induction l as [|x l IH]; [done|]. cbn [fmap list_fmap]. by rewrite filter_cons_False.
Qed.

Lemma values_of_join k E : NoDup E.*1 → values_of k (pairs_of E) =
  default [] ((list_to_map E : Values) !! k).
Proof.
  induction E as [|[j l] E IH]; [done|]. intros [Hj HE]%NoDup_cons. change (pairs_of ((j, l) :: E)) with (((λ x, (j, x)) <$> l) ++ pairs_of E).
  rewrite values_of_app, IH by done. cbn [list_to_map foldr fst snd uncurry]. destruct (decide (j = k)) as [->|Hne].
  - rewrite values_of_own, lookup_insert_eq. rewrite (not_elem_of_list_to_map_1 _ _ Hj). cbn. by rewrite app_nil_r.
  - by rewrite values_of_other, lookup_insert_ne.
Qed.

(** What [Encode] writes, [ParseQuery] reads back; a key without a value is
    not written. *)

Lemma ParseQuery_Encode v : (∀ k l, v !! k = Some l → l ≠ []) → url_ParseQuery (Values_Encode v) = v.
Proof.
  intros Hv. apply map_eq. intros k. unfold Values_Encode. rewrite ParseQuery_join, foldl_Add, lookup_empty.
  unfold values_pairs. set (E := merge_sort key_le (map_to_list v)).
  assert (E ≡ₚ map_to_list v) as HE by apply merge_sort_Permutation.
  assert (NoDup E.*1) as HN by (rewrite HE; apply NoDup_fst_map_to_list).
  rewrite values_of_join by done. rewrite (list_to_map_proper (M:=gmap string) E (map_to_list v)) by done. rewrite list_to_map_to_list.
  destruct (v !! k) as [l|] eqn:Hk; cbn; [|done]. destruct (decide (l = [])) as [->|]; [|done]. by destruct (Hv k [] Hk).
Qed.

Lemma ParseQuery_inhabited q k l : url_ParseQuery q !! k = Some l → l ≠ [].
Proof.
  unfold url_ParseQuery. assert (∀ L (v : Values), (∀ l', v !! k = Some l' → l' ≠ []) → ∀ l', foldl add_pair v L !! k = Some l' → l' ≠ []) as H.
  { induction L as [|s L IH]; intros v Hv l' Hl; [by apply (Hv l')|]. apply (IH (add_pair v s)); [|done].
    unfold add_pair. destruct (parse_pair s) as [[a b]|]; [|done]. unfold Values_Add. cbn. intros l''.
    destruct (decide (a = k)) as [->|]; [rewrite lookup_insert_eq; intros [= <-]; by destruct (default _ _)|].
    rewrite lookup_insert_ne by done. apply Hv. }
  apply H. by intros ?.
Qed.

(** ** base64 with padding *)

Lemma of_to_std t : free_of (ascii_of 43) t = true → free_of (ascii_of 47) t = true → map_bytes of_std (map_bytes to_std t) = t.
Proof.
  induction t as [|c t IH]; [done|]. cbn [free_of map_bytes]. intros [H1 T1]%andb_true_iff [H2 T2]%andb_true_iff. rewrite IH by done.
  f_equal. unbool.
  assert (∀ c, orb (orb (bool_decide (c = ascii_of 43)) (bool_decide (c = ascii_of 47))) (bool_decide (of_std (to_std c) = c)) = true) as H
    by (apply byte_cases; by vm_compute).
  specialize (H c). rewrite !bool_decide_false in H by done. simpl in H. by apply bool_decide_eq_true in H.
Qed.

Definition plain (c : Ascii.ascii) : bool :=
  negb (orb (bool_decide (c = ascii_of 10 ∨ c = ascii_of 13)) (bool_decide (byte_of c = 61))).

Fixpoint plain_text (t : string) : bool :=
  match t with EmptyString => true | String c t' => andb (plain c) (plain_text t') end.

Lemma drop_breaks_app a b : plain_text a = true → drop_breaks (a +:+ b) = a +:+ drop_breaks b.
Proof.
  induction a as [|c a IH]; [done|]. cbn [plain_text]. intros [Hc Ha]%andb_true_iff. apply negb_true_iff, orb_false_iff in Hc as [Hc _].
  change (String c a +:+ b) with (String c (a +:+ b)). cbn [drop_breaks]. rewrite Hc, IH by done. done.
Qed.

Lemma strip_pad_app a b : plain_text a = true → strip_pad (a +:+ b) = a +:+ strip_pad b.
Proof.
  induction a as [|c a IH]; [done|]. cbn [plain_text]. intros [Hc Ha]%andb_true_iff. apply negb_true_iff, orb_false_iff in Hc as [_ Hc].
  change (String c a +:+ b) with (String c (a +:+ b)). cbn [strip_pad]. rewrite Hc, IH by done. done.
Qed.

Lemma to_std_plain t : free_of (ascii_of 10) t = true → free_of (ascii_of 13) t = true → free_of (ascii_of 61) t = true →
  plain_text (map_bytes to_std t) = true.
Proof.
  induction t as [|c t IH]; [done|]. cbn [free_of map_bytes plain_text].
  intros [H1 T1]%andb_true_iff [H2 T2]%andb_true_iff [H3 T3]%andb_true_iff. rewrite IH by done. rewrite andb_true_r. unbool.
  assert (∀ c, orb (orb (bool_decide (c = ascii_of 10)) (bool_decide (c = ascii_of 13))) (orb (bool_decide (c = ascii_of 61)) (plain (to_std c))) = true) as H
    by (apply byte_cases; by vm_compute).
  specialize (H c). rewrite !bool_decide_false in H by done. exact H.
Qed.

Lemma length_map_bytes f t : String.length (map_bytes f t) = String.length t.
Proof. induction t as [|c t IH]; [done|]. cbn. by rewrite IH. Qed.

Lemma length_encode s : String.length (b64_encode s) mod 4 ≠ 1.
Proof.
  induction s as [|a|a b|a b c s IH] using string_ind3; [by cbv..|]. cbn [b64_encode String.length].
  change (S (S (S (S (String.length (b64_encode s)))))) with (4 + String.length (b64_encode s)).
  replace (4 + String.length (b64_encode s)) with (String.length (b64_encode s) + 1 * 4) by lia. by rewrite Nat.Div0.mod_add.
Qed.

Lemma pad_completes n : n mod 4 ≠ 1 → (n + String.length (pad n)) mod 4 = 0 ∧ drop_breaks (pad n) = pad n ∧ strip_pad (pad n) = "".
Proof.
  intros H1. pose proof (Nat.mod_upper_bound n 4 ltac:(lia)) as H4. unfold pad. rewrite Nat.Div0.add_mod.
  destruct (n mod 4) as [|[|[|[|]]]] eqn:E; [done|done|done|done|lia].
Qed.

Lemma std_roundtrip s : std_decode (std_encode s) = Some s.
Proof.
  pose proof (pad_completes _ (length_encode s)) as (Hlen & Hbr & Hst). unfold std_encode, std_decode.
  set (t := b64_encode s) in *.
  assert (plain_text (map_bytes to_std t) = true) as Hp by (apply to_std_plain; by apply b64_encode_free).
  rewrite drop_breaks_app, Hbr by done. rewrite bool_decide_false.
  - rewrite strip_pad_app, Hst by done.
    rewrite string_app_nil_r, of_to_std by (by apply b64_encode_free). apply b64_roundtrip.
  - assert (∀ a b, String.length (a +:+ b) = String.length a + String.length b) as Hl
      by (induction a as [|? ? IH]; intros; [done|]; simpl; by rewrite <-IH).
    rewrite Hl, length_map_bytes, Hlen. tauto.
Qed.
