(* ===== verification/Endpoints.v ===== *)
(** * The OAuth endpoints

    api/public/oauth (authorize, token, revoke, introspect, register, consent
    and the DPoP nonce header), connection/consent_url.go and shared/errors.go:
    how requests become calls of the services, and answers and errors become
    responses.  A response is the data that is written, a page the data its
    template gets; a form is what [ParseForm] makes of the body. *)

From S2P Require Import Prelude GoStrings Encoding UrlValues Domain Db Effects Crypto Stores TokenService ClientCredentials JWTBearer TokenExchange Authorize Introspection Revocation Connect WebSession Registration Ssrf ResourceServer.

Module Endpoints.

(** ** Requests and responses *)

Record HttpRequest := MkHttp {
  head : Shared.Request;
  URLString : string;                    (* r.URL.String() *)
  Query : Values;
  Form : option Values;                  (* None: ParseForm failed *)
  User : option string;                  (* UserIDFromContext *)
  SessionCookie : option string
}.

Record tokenResponseDTO := MkTokenDTO {
  dto_AccessToken : string;
  dto_TokenType : string;
  dto_ExpiresIn : Z;
  dto_RefreshToken : string;
  dto_Scope : string
}.

Record tokenExchangeResponseDTO := MkExchangeDTO {
  xdto_AccessToken : string;
  xdto_IssuedTokenType : string;
  xdto_TokenType : string;
  xdto_ExpiresIn : Z;
  xdto_Scope : string
}.

Record consentPageData := MkConsentPage {
  FormAction : string;
  View : ConsentService.ConsentView;
  CSRFToken : string;
  RedirectHost : string;
  RedirectIsLoopback : bool
}.

(** [basic] is the Basic challenge of a 401; the remaining members of the
    problem document follow from the status, the code and the text. *)

Inductive Response :=
  | ErrorPage (status : nat) (title message : string)
  | RedirectInternal (location : string)
  | Redirect (location : string)           (* both 303 See Other *)
  | OAuthError (status : nat) (basic : bool) (code description consentURL cause : string)
  | TokenBody (b : tokenResponseDTO)
  | ExchangeBody (b : tokenExchangeResponseDTO)
  | ConsentPage (d : consentPageData)
  | Introspected (r : IntrospectionService.IntrospectResponse)
  | Registered (r : DCRService.RegisterClientResponse)
  | StatusOK
  | NotFound.

Definition WriteOAuthError (status : nat) (code description : string) : Response :=
  OAuthError status false code description "" "".

(** ** Errors as the handlers read them *)

(** [domain.IsError] *)

Definition IsError (x : err) : bool :=
  match x with
  | EOther _ | EFault | ErrStoreReturnedNoUser | ErrNoConnectStep | ErrSecretInputRejected
  | ErrUpstreamInvalidGrant | ErrUpstreamUnavailable | ErrUpstreamScopeDowngrade => false
  | _ => true
  end.

Definition FeatureDisabledError (feature configKey : string) : string :=
  "feature " +:+ feature +:+ " is disabled (set " +:+ configKey +:+ " to enable)".

(** [Error()]: the message of a consent error is its own, any other one is the
    argument [text]. *)

Definition error_text (text : err → string) (x : err) : string :=
  match x with
  | ConsentRequiredError provider resource _ _ _ =>
      "Authorize access to " +:+ (if bool_decide (resource = "") then provider else resource)
  | _ => text x
  end.

(** ** Consent URLs (consent_url.go) *)

Definition ConsentURL (base providerSlug resourceSlug : string) : string :=
  let base := trim_slashes base in
  if bool_decide (base = "") then "" else
  let q := if bool_decide (resourceSlug ≠ "") then Values_Set "resource" resourceSlug ∅ else ∅ in
  base +:+ "/connect/" +:+ providerSlug +:+ "?" +:+ Values_Encode (Values_Set "return_url" (base +:+ "/connections") q).

Definition ReconsentURL (base resourceSlug scope : string) : string :=
  let base := trim_slashes base in
  if bool_decide (base = "") then "" else
  let q := if bool_decide (resourceSlug ≠ "") then Values_Set "resource" resourceSlug ∅ else ∅ in
  let q := if bool_decide (scope ≠ "") then Values_Set "scope" scope q else q in
  if bool_decide (size q = 0) then base +:+ "/authorize" else base +:+ "/authorize?" +:+ Values_Encode q.

(** ** Client authentication *)

Definition FormValue (r : HttpRequest) (key : string) : string := Values_Get (default ∅ (Form r)) key.

Definition colon : Ascii.ascii := ascii_of 58.

Definition basic_credentials (auth : string) : option (string * string) :=
  if strings_HasPrefix auth "Basic " then
    match std_decode (Shared.drop_bytes 6 auth) with
    | None => None
    | Some decoded =>
        match strings_SplitN colon decoded 2 with
        | [id; sec] =>
            match url_QueryUnescape id, url_QueryUnescape sec with
            | Some id', Some sec' => Some (id', sec')
            | _, _ => Some ("", "")
            end
        | _ => None
        end
    end
  else None.

Definition ExtractClientAuth (r : HttpRequest) : string * string :=
  default (FormValue r "client_id", FormValue r "client_secret") (basic_credentials (Shared.Authorization (head r))).

Definition extractDPoPInfo (r : HttpRequest) : string * string * string :=
  if bool_decide (Shared.DPoP (head r) = "") then ("", "", "")
  else (Shared.DPoP (head r), Shared.Method (head r), Shared.RequestURL (head r)).

(** ** Authorization responses *)

Definition with_RawQuery (q : string) (u : URL) : URL :=
  MkURL (url_Scheme u) (url_Host u) (url_Hostname u) (url_Path u) q (url_Fragment u) (url_Rest u).

Definition with_state (state : string) (q : Values) : Values :=
  if bool_decide (state ≠ "") then Values_Set "state" state q else q.

Definition code_response (code state iss : string) (q : Values) : Values :=
  Values_Set "iss" iss (with_state state (Values_Set "code" code q)).

Definition error_response (errCode description state iss : string) (q : Values) : Values :=
  Values_Set "iss" iss (with_state state (Values_Set "error_description" description (Values_Set "error" errCode q))).

Definition redirect_to (p : Params) (redirectURI : string) (response : Values → Values) : Response :=
  match url_parse p redirectURI with
  | None => ErrorPage 500 "Error" "Invalid redirect URI"
  | Some u => Redirect (url_string p (with_RawQuery (Values_Encode (response (url_ParseQuery (url_RawQuery u)))) u))
  end.

Definition redirectWithCode (p : Params) (redirectURI code state iss : string) : Response :=
  redirect_to p redirectURI (code_response code state iss).

Definition redirectWithError (p : Params) (redirectURI state errCode description iss : string) : Response :=
  redirect_to p redirectURI (error_response errCode description state iss).

(** ** The handlers *)

Record Deps := MkDeps {
  issuerProvider : option (M string);
  urls : option (string → M string);
  Error_ : err → string;                                   (* the messages of the errors *)
  cimd : option (string → M Client.Client);
  session : SessionMiddleware.Deps;
  has_tx : bool;
  has_audit : bool;
  token : option ((TokenService.ExchangeCodeRequest → M TokenService.TokenResponse) *
                  (TokenService.RefreshTokenRequest → M TokenService.TokenResponse));
  clientCreds : option (ClientCredentialsService.ClientCredentialsRequest → M MachineIssue.MachineResponse);
  tokenExchange : option (TokenExchangeService.TokenExchangeRequest → M TokenExchangeService.TokenExchangeResponse);
  jwtBearer : option (JWTBearerService.JWTBearerRequest → M MachineIssue.MachineResponse);
  revoke : RevocationService.RevokeRequest → M unit;
  introspect : IntrospectionService.IntrospectRequest → M IntrospectionService.IntrospectResponse;
  oauthConfig : option (M bool);                           (* IntrospectionEnabled *)
  dcr : DCRService.RegisterClientRequest → M DCRService.RegisterClientResponse;
  ParseIP : string → option Net.IP;
  Quote : string → string                                  (* %q *)
}.

Section handlers.
Variable h : Deps.

(** [inr] is the page that was written instead. *)

Definition resolveIssuer : M (string + Response) :=
  match issuerProvider h with
  | None => mret (inr (ErrorPage 500 "Error" "The authorization server is misconfigured."))
  | Some Issuer =>
      got ← try Issuer;
      mret (match got with
            | Err _ => inr (ErrorPage 500 "Error" "The authorization server could not resolve its issuer.")
            | Ok iss =>
                if bool_decide (iss = "") then inr (ErrorPage 500 "Error" "The authorization server has no issuer configured.")
                else inl iss
            end)
  end.

Definition internal (path : string) : M Response := p ← ResolvePath (urls h) path; mret (RedirectInternal p).

Definition internal_error : string := "an internal error occurred".

Definition handleAuthorizeError (p : Params) (req : AuthorizeService.AuthorizeRequest) (x : err) (iss : string) : Response :=
  match x with
  | ErrInvalidClient => ErrorPage 400 "Invalid Client" "The client_id is not recognized."
  | ErrInvalidRedirectURI => ErrorPage 400 "Invalid Redirect URI" "The redirect_uri does not match the client registration."
  | ErrClientSuspended => ErrorPage 403 "Client Suspended" "This client has been suspended."
  | ErrInvalidGrant | errMappedUserInactive =>
      ErrorPage 400 "Authorization Error" "The requested grant type or response type is not supported."
  | ErrConsentResourceNotMint =>
      ErrorPage 400 "Invalid Resource" "Consent is only available for MCP resources, not upstream broker resources."
  | ErrResourceNotFound =>
      ErrorPage 400 "Unknown Resource" "The requested resource is not registered with this authorization server."
  | ErrAmbiguousResource =>
      ErrorPage 400 "Ambiguous Resource"
        "The resource identifier matches more than one resource. Use the resource slug to disambiguate."
  | _ =>
      let desc := if IsError x then error_text (Error_ h) x else internal_error in
      if bool_decide (AuthorizeService.RedirectURI req ≠ "")
      then redirectWithError p (AuthorizeService.RedirectURI req) (AuthorizeService.State req)
             (if IsError x then ErrorCode x else "server_error") desc iss
      else ErrorPage 400 "Authorization Error" desc
  end.

Definition authorize_request (r : HttpRequest) : AuthorizeService.AuthorizeRequest :=
  let q := Values_Get (Query r) in
  AuthorizeService.MkAuthorize (q "client_id") (q "redirect_uri") (q "response_type") (q "scope") (q "state") (q "resource")
    (q "code_challenge") (q "code_challenge_method") (default "" (User r)).

Definition handleAuthorize (r : HttpRequest) : M Response :=
  let req := authorize_request r in
  got ← resolveIssuer;
  match got with
  | inr page => mret page
  | inl iss =>
      p ← ask params;
      started ← try (AuthorizeService.StartAuthorization (cimd h) req);
      match started with
      | Err x => mret (handleAuthorizeError p req x iss)
      | Ok result =>
          if AuthorizeService.LoginRequired result then internal ("/login?redirect=" +:+ url_QueryEscape (URLString r))
          else if AuthorizeService.ConsentRequired result
          then internal ("/consent?session_id=" +:+ url_QueryEscape (Session.ID (AuthorizeService.Session result)))
          else
            completed ← try (AuthorizeService.CompleteAuthorization (Session.ID (AuthorizeService.Session result)));
            mret (match completed with
                  | Err _ => redirectWithError p (AuthorizeService.RedirectURI req) (AuthorizeService.State req)
                               "server_error" "authorization failed" iss
                  | Ok c => redirectWithCode p (AuthorizeService.c_RedirectURI c) (AuthorizeService.c_Code c)
                              (AuthorizeService.c_State c) iss
                  end)
      end
  end.

(** ** Consent *)

Definition IsLoopbackRedirectURI (p : Params) (uri : string) : bool :=
  match url_parse p uri with
  | None => false
  | Some u =>
      orb (strings_EqualFold (url_Hostname u) "localhost")
        (match ParseIP h (url_Hostname u) with Some ip => Net.IsLoopback ip | None => false end)
  end.

Definition RedirectURIHost (p : Params) (uri : string) : string :=
  match url_parse p uri with Some u => url_Host u | None => "" end.

(** The pages for the errors of the consent service; [other] for the rest. *)

Definition consent_error (x : err) (other : Response) : Response :=
  match x with
  | ErrConsentResourceNotMint =>
      ErrorPage 400 "Invalid Resource" "Consent is only available for MCP resources, not upstream broker resources."
  | ErrResourceNotFound =>
      ErrorPage 400 "Unknown Resource" "The requested resource is not registered with this authorization server."
  | ErrAmbiguousResource =>
      ErrorPage 400 "Ambiguous Resource"
        "The resource identifier matches more than one resource. Use the resource slug to disambiguate."
  | _ => other
  end.

Definition handleGetConsent (r : HttpRequest) : M Response :=
  let sessionID := Values_Get (Query r) "session_id" in
  if bool_decide (sessionID = "") then mret (ErrorPage 400 "Missing Session" "No session_id provided.") else
  match User r with
  | None => internal ("/login?redirect=" +:+ url_QueryEscape (URLString r))
  | Some _ =>
      got ← try (ConsentService.GetPendingConsent sessionID);
      match got with
      | Err x => mret (consent_error x (ErrorPage 400 "Invalid Session" "The authorization session is invalid or expired."))
      | Ok view =>
          csrf ← match SessionCookie r with
                 | None => mret (Ok "")
                 | Some cookie => try (SessionMiddleware.CSRFToken (session h) cookie)
                 end;
          match csrf with
          | Err _ => mret (ErrorPage 500 "Internal Error" "Could not render the consent page. Please try again.")
          | Ok csrfToken =>
              p ← ask params;
              action ← ResolvePath (urls h) "/consent";
              mret (ConsentPage (MkConsentPage action view csrfToken (RedirectURIHost p (ConsentService.RedirectURI view))
                                   (IsLoopbackRedirectURI p (ConsentService.RedirectURI view))))
          end
      end
  end.

Definition csrf_failed : Response := ErrorPage 403 "Invalid Request" "CSRF validation failed. Please try again.".

(** After the gates. *)

Definition decideConsent (r : HttpRequest) (userID : string) : M Response :=
  let sessionID := FormValue r "session_id" in
  if bool_decide (FormValue r "action" = "deny") then
    _ ← try (ConsentService.DenyConsent (has_audit h) sessionID userID);
    mret (ErrorPage 200 "Access Denied" "You denied access to the application.")
  else
    let approvedScopes := default [] (default ∅ (Form r) !! "scopes") in
    if bool_decide (length approvedScopes = 0) then
      mret (ErrorPage 400 "No Permissions Selected"
        "You must approve at least one permission to continue. Use the Deny button if you do not want to grant access.")
    else
      got ← resolveIssuer;
      match got with
      | inr _ => mret (ErrorPage 500 "Error" "The authorization server could not resolve its issuer.")
      | inl iss =>
          got ← try (ConsentService.GrantConsent (has_tx h) (has_audit h)
                       (ConsentService.MkGrantConsent sessionID userID approvedScopes
                          (bool_decide (FormValue r "remember" = "on"))));
          match got with
          | Err x => mret (consent_error x (ErrorPage 400 "Consent Error" "Failed to process consent. The session may have expired."))
          | Ok result =>
              p ← ask params;
              mret (redirectWithCode p (ConsentService.r_RedirectURI result) (ConsentService.r_Code result)
                      (ConsentService.r_State result) iss)
          end
      end.

Definition handlePostConsent (r : HttpRequest) : M Response :=
  match Form r with
  | None => mret (ErrorPage 400 "Invalid Form" "Could not parse form data.")
  | Some _ =>
      match User r with
      | None => mret (ErrorPage 401 "Not Authenticated" "Please log in first.")
      | Some userID =>
          match SessionCookie r with
          | None => mret csrf_failed
          | Some cookie =>
              valid ← try (SessionMiddleware.ValidateCSRF (session h) cookie (FormValue r "csrf_token"));
              match valid with
              | Err _ => mret (ErrorPage 500 "Internal Error" "Could not validate the request. Please try again.")
              | Ok false => mret csrf_failed
              | Ok true => decideConsent r userID
              end
          end
      end
  end.

(** ** The token endpoint *)

Definition server_error : Response := WriteOAuthError 500 "server_error" "internal error".
Definition invalid_client (description : string) : Response := OAuthError 401 true "invalid_client" description "" "".

(** The URL that a consent error points to: a connect at the provider, or a
    new consent here; none when the issuer cannot be resolved. *)

Definition consent_url (issuer : res string) (provider resource cause : string) (missing : list string) : string :=
  match issuer with
  | Err _ => ""
  | Ok base =>
      if bool_decide (provider ≠ "") then ConsentURL base provider resource
      else if bool_decide (resource ≠ "") then
        ReconsentURL base resource (if bool_decide (cause = CauseScopeInsufficient) then strings_Join " " missing else "")
      else ""
  end.

Definition token_error (x : err) : Response :=
  let text := error_text (Error_ h) x in
  match x with
  | ErrInvalidClient | ErrClientSuspended => invalid_client text
  | ErrUnauthorizedClient => WriteOAuthError 400 "unauthorized_client" text
  | ErrCodeConsumed | ErrInvalidGrant | errMappedUserInactive | ErrSessionExpired | ErrFamilyRevoked | ErrReuseRevocationFailed =>
      WriteOAuthError 400 "invalid_grant" text
  | ErrInvalidPKCE => WriteOAuthError 400 "invalid_grant" "PKCE verification failed"
  | ErrInvalidScope => WriteOAuthError 400 "invalid_scope" text
  | ErrDPoPInvalidProof | ErrDPoPReplay => WriteOAuthError 400 "invalid_dpop_proof" text
  | ErrDPoPNonceRequired | ErrDPoPNonceMismatch => WriteOAuthError 400 "use_dpop_nonce" text
  | ErrTokenExchangeNotAuthorized => WriteOAuthError 403 "access_denied" text
  | ErrTokenExchangeChainTooDeep => WriteOAuthError 400 "invalid_request" text
  | ErrAssertionInvalid | ErrAssertionExpired | ErrAssertionIssuerUntrusted | ErrAssertionAudienceMismatch
  | ErrAssertionTypeMismatch | ErrAssertionReplay | ErrIDPDisabled => WriteOAuthError 400 "invalid_grant" text
  | ErrAssertionClientMismatch => invalid_client text
  | ErrAssertionPolicyDenied => WriteOAuthError 403 "access_denied" text
  | _ => if IsError x then WriteOAuthError 400 (ErrorCode x) text else server_error
  end.

Definition writeTokenError (x : err) : M Response :=
  match x with
  | ConsentRequiredError provider resource cause _ missing =>
      issuer ← match issuerProvider h with None => mret (Ok "") | Some Issuer => try Issuer end;
      mret (OAuthError 400 false "consent_required" (error_text (Error_ h) x)
              (consent_url issuer provider resource cause missing)
              (if bool_decide (cause = "") then CauseConsentMissing else cause))
  | _ => mret (token_error x)
  end.

(** [None] is the nil service. *)

Definition unconfigured : Response := WriteOAuthError 500 "server_error" "token service not configured".
Definition disabled (feature configKey : string) : Response :=
  WriteOAuthError 400 "unsupported_grant_type" (FeatureDisabledError feature configKey).

(** [resp, err := service(ctx, req)], and the body of the answer. *)

Definition answer {A} (service : M A) (body : A → Response) : M Response :=
  got ← try service;
  match got with
  | Ok resp => mret (body resp)
  | Err x => writeTokenError x
  end.

Definition writeTokenResponse (r : TokenService.TokenResponse) : Response :=
  TokenBody (MkTokenDTO (TokenService.resp_AccessToken r) (TokenService.resp_TokenType r) (TokenService.resp_ExpiresIn r)
               (TokenService.resp_RefreshToken r) (TokenService.resp_Scope r)).

Definition machine_body (r : MachineIssue.MachineResponse) : Response :=
  TokenBody (MkTokenDTO (MachineIssue.AccessToken r) (MachineIssue.TokenType r) (MachineIssue.ExpiresIn r) "" (MachineIssue.RespScope r)).

Definition exchange_body (r : TokenExchangeService.TokenExchangeResponse) : Response :=
  ExchangeBody (MkExchangeDTO (TokenExchangeService.x_AccessToken r) (TokenExchangeService.x_IssuedTokenType r)
                  (TokenExchangeService.x_TokenType r) (TokenExchangeService.x_ExpiresIn r) (TokenExchangeService.x_Scope r)).

Definition handleAuthCodeExchange (r : HttpRequest) : M Response :=
  match token h with
  | None => mret unconfigured
  | Some (ExchangeCode, _) =>
      let '(clientID, clientSecret) := ExtractClientAuth r in
      let '(dpopProof, dpopMethod, dpopURL) := extractDPoPInfo r in
      answer (ExchangeCode (TokenService.MkExchangeCode (FormValue r "code") (FormValue r "code_verifier") clientID clientSecret
                (FormValue r "redirect_uri") (FormValue r "resource") dpopProof dpopMethod dpopURL)) writeTokenResponse
  end.

Definition handleRefreshToken (r : HttpRequest) : M Response :=
  match token h with
  | None => mret unconfigured
  | Some (_, RefreshToken) =>
      let '(clientID, clientSecret) := ExtractClientAuth r in
      let '(dpopProof, dpopMethod, dpopURL) := extractDPoPInfo r in
      answer (RefreshToken (TokenService.MkRefreshRequest (FormValue r "refresh_token") clientID clientSecret
                (FormValue r "scope") (FormValue r "resource") dpopProof dpopMethod dpopURL)) writeTokenResponse
  end.

Definition handleClientCredentials (r : HttpRequest) : M Response :=
  match clientCreds h with
  | None => mret (disabled "client_credentials" "client_credentials.enabled=true")
  | Some Exchange =>
      let '(clientID, clientSecret) := ExtractClientAuth r in
      let '(dpopProof, dpopMethod, dpopURL) := extractDPoPInfo r in
      answer (Exchange (ClientCredentialsService.MkRequest clientID clientSecret (FormValue r "scope") (FormValue r "resource")
                dpopProof dpopMethod dpopURL)) machine_body
  end.

Definition handleTokenExchange (r : HttpRequest) : M Response :=
  match tokenExchange h with
  | None => mret (disabled "token_exchange" "token_exchange.enabled=true")
  | Some Exchange =>
      let '(clientID, clientSecret) := ExtractClientAuth r in
      let '(dpopProof, dpopMethod, dpopURL) := extractDPoPInfo r in
      answer (Exchange (TokenExchangeService.MkExchange (FormValue r "subject_token") (FormValue r "subject_token_type")
                (FormValue r "actor_token") (FormValue r "actor_token_type") (FormValue r "scope") (FormValue r "resource")
                clientID clientSecret dpopProof dpopMethod dpopURL)) exchange_body
  end.

Definition handleJWTBearer (r : HttpRequest) : M Response :=
  match jwtBearer h with
  | None => mret (disabled "jwt_bearer" "xaa.enabled=true")
  | Some GrantJWTBearer =>
      let '(clientID, clientSecret) := ExtractClientAuth r in
      let '(dpopProof, dpopMethod, dpopURL) := extractDPoPInfo r in
      answer (GrantJWTBearer (JWTBearerService.MkRequest (FormValue r "assertion") clientID clientSecret (FormValue r "scope")
                (FormValue r "resource") dpopProof dpopMethod dpopURL)) machine_body
  end.

Definition invalid_form : Response := WriteOAuthError 400 "invalid_request" "invalid form body".

Definition handleToken (r : HttpRequest) : M Response :=
  match Form r with
  | None => mret invalid_form
  | Some _ =>
      let grantType := FormValue r "grant_type" in
      if bool_decide (grantType = "authorization_code") then handleAuthCodeExchange r
      else if bool_decide (grantType = "refresh_token") then handleRefreshToken r
      else if bool_decide (grantType = "client_credentials") then handleClientCredentials r
      else if bool_decide (grantType = "urn:ietf:params:oauth:grant-type:token-exchange") then handleTokenExchange r
      else if bool_decide (grantType = "urn:ietf:params:oauth:grant-type:jwt-bearer") then handleJWTBearer r
      else mret (WriteOAuthError 400 "unsupported_grant_type"
                   ("grant_type " +:+ Quote h grantType +:+ " is not supported"))
  end.

(** The [DPoP-Nonce] header in front of the token endpoint; the issue of a
    nonce is an argument. *)

Definition DPoPNonceMiddleware (IssueNonce : M string) (next : HttpRequest → M Response) (r : HttpRequest) : M (option string * Response) :=
  if bool_decide (Shared.DPoP (head r) ≠ "") then
    got ← try IssueNonce;
    resp ← next r;
    mret (match got with Ok nonce => if bool_decide (nonce ≠ "") then Some nonce else None | Err _ => None end, resp)
  else
    resp ← next r; mret (None, resp).

(** ** Revocation, introspection, registration *)

Definition token_required : Response := WriteOAuthError 400 "invalid_request" "token parameter is required".

Definition handleRevoke (r : HttpRequest) : M Response :=
  match Form r with
  | None => mret invalid_form
  | Some _ =>
      let tok := FormValue r "token" in
      if bool_decide (tok = "") then mret token_required else
      let '(clientID, clientSecret) := ExtractClientAuth r in
      got ← try (revoke h (RevocationService.MkRevokeRequest tok clientID clientSecret));
      mret (match got with
            | Err ErrInvalidClient => invalid_client (error_text (Error_ h) ErrInvalidClient)
            | _ => StatusOK
            end)
  end.

Definition introspection_open : M bool :=
  match oauthConfig h with
  | None => mret true
  | Some cfg => got ← try cfg; mret (match got with Ok b => b | Err _ => false end)
  end.

Definition handleIntrospect (r : HttpRequest) : M Response :=
  opened ← introspection_open;
  if negb opened then mret NotFound else
  match Form r with
  | None => mret invalid_form
  | Some _ =>
      let tok := FormValue r "token" in
      if bool_decide (tok = "") then mret token_required else
      let '(clientID, clientSecret) := ExtractClientAuth r in
      got ← try (introspect h (IntrospectionService.MkIntrospect tok clientID clientSecret));
      mret (match got with
            | Ok resp => Introspected resp
            | Err ErrInvalidClient => invalid_client "client authentication failed"
            | Err _ => server_error
            end)
  end.

Definition writeRegisterError (x : err) : Response :=
  match x with
  | ErrRegistrationDisabled => WriteOAuthError 403 "access_denied" "registration is disabled"
  | ErrClientSuspended => WriteOAuthError 403 "access_denied" "client is suspended"
  | ErrInvalidRedirectURI => WriteOAuthError 400 "invalid_redirect_uri" "redirect_uri not allowed"
  | ErrInvalidClient => WriteOAuthError 400 "invalid_client_metadata" (error_text (Error_ h) x)
  | _ => if IsError x then WriteOAuthError 400 (ErrorCode x) "request validation failed" else server_error
  end.

(** [None]: the body is no JSON of this shape. *)

Definition handleRegister (body : option DCRService.RegisterClientRequest) : M Response :=
  match body with
  | None => mret (WriteOAuthError 400 "invalid_request" "invalid JSON body")
  | Some req =>
      got ← try (dcr h req);
      mret (match got with Ok resp => Registered resp | Err x => writeRegisterError x end)
  end.

End handlers.
End Endpoints.
