(* ===== verification/EndpointsTheorems.v ===== *)
(** * What the OAuth endpoints send out

    Client credentials in a Basic header are read back; an authorization
    response goes to a destination that an active client registered, with the
    issuer of this server; a consent needs the user and their CSRF token; what
    an internal failure says reaches nobody. *)

From S2P Require Import Prelude GoStrings Encoding UrlValues Act Domain Db Effects Crypto Stores Order StoreOrder TokenService Introspection Accounts AdminProofs Runs Authorize AuthorizeTheorems WebSession ResourceServer Endpoints Scenario.
Import Endpoints.

(** ** Client authentication *)

(** What a client writes (RFC 6749, section 2.3.1). *)

Definition basic_header (id secret : string) : string :=
  "Basic " +:+ std_encode (url_QueryEscape id +:+ String colon (url_QueryEscape secret)).

Lemma drop_own_bytes a b : Shared.drop_bytes (String.length a) (a +:+ b) = b.
Proof. induction a as [|c a IH]; simpl; [by destruct b|done]. Qed.

Lemma has_own_prefix a b : strings_HasPrefix (a +:+ b) a = true.
Proof. induction a as [|c a IH]; simpl; [by destruct b|]. by rewrite ?bool_decide_true, ?IH by done. Qed.

Lemma basic_credentials_header id secret : basic_credentials (basic_header id secret) = Some (id, secret).
Proof.
  unfold basic_credentials, basic_header. rewrite has_own_prefix. change 6 with (String.length "Basic ").
  rewrite drop_own_bytes, std_roundtrip. cbn [strings_SplitN]. rewrite Cut_app by (by apply QueryEscape_free; vm_compute).
  by rewrite !QueryUnescape_Escape.
Qed.

(** C21: Client credentials are read as they were sent.  Any id and secret that
    a client puts in a Basic header, escaped as RFC 6749 has it, come out as
    they were, whatever the form says besides; and what comes out is never a
    mixture: both parts are the header's, or both are the form's, the latter
    only when the header holds no credentials. *)
Theorem client_credentials_read_back r :
  (∀ id secret, Shared.Authorization (head r) = basic_header id secret → ExtractClientAuth r = (id, secret)) ∧
  (ExtractClientAuth r = (FormValue r "client_id", FormValue r "client_secret") ∧
     basic_credentials (Shared.Authorization (head r)) = None ∨
   basic_credentials (Shared.Authorization (head r)) = Some (ExtractClientAuth r)).
Proof.
  split; [intros id secret Hh; unfold ExtractClientAuth; by rewrite Hh, basic_credentials_header|].
  unfold ExtractClientAuth. destruct (basic_credentials _) as [[a b]|]; [by right|by left].
Qed.

(** ** The query of a response *)

Definition response_at (p : Params) (uri : string) (response : Values → Values) (loc : string) : Prop :=
  ∃ u raw, url_parse p uri = Some u ∧ loc = url_string p (with_RawQuery raw u) ∧
    url_ParseQuery raw = response (url_ParseQuery (url_RawQuery u)).

Definition nonempty_values (v : Values) : Prop := ∀ k l, v !! k = Some l → l ≠ [].

Lemma nonempty_Set k x v : nonempty_values v → nonempty_values (Values_Set k x v).
Proof. intros Hv j l. unfold Values_Set. rewrite lookup_insert_Some. intros [[_ <-]|[_ Hl]]; [done|by eapply Hv]. Qed.

Lemma nonempty_state st v : nonempty_values v → nonempty_values (with_state st v).
Proof. unfold with_state. case_bool_decide; [apply nonempty_Set|done]. Qed.

Lemma redirect_response p uri response :
  (∀ q, nonempty_values q → nonempty_values (response q)) →
  match redirect_to p uri response with
  | Redirect loc => response_at p uri response loc
  | ErrorPage _ _ _ => url_parse p uri = None
  | _ => False
  end.
Proof.
  intros Hr. unfold redirect_to. destruct (url_parse p uri) as [u|] eqn:Hu; [|done]. eexists u, _. split; [done|]. split; [done|].
  apply ParseQuery_Encode, Hr. intros k l. apply ParseQuery_inhabited.
Qed.

Lemma nonempty_code code st iss q : nonempty_values q → nonempty_values (code_response code st iss q).
Proof. intros. by apply nonempty_Set, nonempty_state, nonempty_Set. Qed.

Lemma nonempty_error ec d st iss q : nonempty_values q → nonempty_values (error_response ec d st iss q).
Proof. intros. by apply nonempty_Set, nonempty_state, nonempty_Set, nonempty_Set. Qed.

(** ** Triples that carry an invariant of the tables

    [ensures I p m Q E]: from tables in [I] that others keep in [I], the run
    of [m] ends in [I], with an answer in [Q] or an error in [E]. *)

Definition keeping (I : DB → Prop) (d d' : DB) : Prop := I d → I d'.

#[export] Instance keeping_preorder I : PreOrder (keeping I).
Proof. split; [by intros ??|]. intros d1 d2 d3 H1 H2 H. by apply H2, H1. Qed.

Definition ensures (I : DB → Prop) (p : Params) {A} (m : M A) (Q : A → Prop) (E : err → Prop) : Prop :=
  ∀ e w r w', m e w = (r, w') → params e = p → rely (keeping I) e → I (w_db w) →
    I (w_db w') ∧ match r with Ok a => Q a | Err x => E x end.

Section ensures.
Context {I : DB → Prop} {p : Params}.

Lemma ensures_ret {A} (a : A) (Q : A → Prop) E : Q a → ensures I p (mret a) Q E.
Proof. by intros Ha e w r w' [= <- <-]. Qed.

Lemma ensures_throw {A} x (Q : A → Prop) (E : err → Prop) : E x → ensures I p (throw x) Q E.
Proof. by intros Ha e w r w' [= <- <-]. Qed.

Lemma ensures_bind {A B} (m : M A) (k : A → M B) (Q : A → Prop) (R : B → Prop) E :
  ensures I p m Q E → (∀ a, Q a → ensures I p (k a) R E) → ensures I p (m ≫= k) R E.
Proof.
  intros Hm Hk e w r w' [(x & H & ->)|(a & w1 & H1 & H)]%bind_cases Hp HR Hw; [by apply (Hm _ _ _ _ H)|].
  destruct (Hm _ _ _ _ H1 Hp HR Hw) as [Hw1 Ha]. by apply (Hk a Ha _ _ _ _ H).
Qed.

Lemma ensures_weaken {A} (m : M A) (Q Q' : A → Prop) (E E' : err → Prop) :
  ensures I p m Q E → (∀ a, Q a → Q' a) → (∀ x, E x → E' x) → ensures I p m Q' E'.
Proof. intros Hm HQ HE e w r w' H Hp HR Hw. destruct (Hm _ _ _ _ H Hp HR Hw) as [Hw' Hr]. split; [done|]. destruct r; auto. Qed.

Lemma ensures_seq {A B} (m : M A) (k : A → M B) (Q : A → Prop) (R : B → Prop) (E E' : err → Prop) :
  ensures I p m Q E → (∀ x, E x → E' x) → (∀ a, Q a → ensures I p (k a) R E') → ensures I p (m ≫= k) R E'.
Proof. intros Hm HE Hk. apply (ensures_bind _ _ Q); [by apply (ensures_weaken _ _ _ _ _ Hm)|done]. Qed.

(** [got ← try m; match got with … end] *)

Lemma ensures_try {A B} (m : M A) (k : res A → M B) (Q : A → Prop) (R : B → Prop) (E E' : err → Prop) :
  ensures I p m Q E → (∀ a, Q a → ensures I p (k (Ok a)) R E') → (∀ x, E x → ensures I p (k (Err x)) R E') →
  ensures I p (try m ≫= k) R E'.
Proof.
  intros Hm Ha Hx e w r w' [(x & H & _)|(a & w1 & H1 & H)]%bind_cases Hp HR Hw; [by apply try_not_err in H|].
  apply try_ok in H1. destruct (Hm _ _ _ _ H1 Hp HR Hw) as [Hw1 Hr].
  destruct a as [a|x]; [by apply (Ha a Hr _ _ _ _ H)|by apply (Hx x Hr _ _ _ _ H)].
Qed.

Lemma ensures_traced {P A} (m : M A) : Traced (keeping I) P m → ensures I p m (λ _, True) (λ _, True).
Proof.
  intros Hm e w r w' H _ HR Hw. destruct (Hm _ _ _ _ H) as (l & a & _ & _ & _ & _ & Hh).
  split; [by apply (history_end _ _ _ (Hh HR))|by destruct r].
Qed.

Lemma ensures_check b x (E : err → Prop) : (b = false → E x) → ensures I p (ensure b x) (λ _, b = true) E.
Proof. unfold ensure. destruct b; intros; [by apply ensures_ret|by apply ensures_throw, H]. Qed.

Lemma ensures_params : ensures I p (ask params) (λ q, q = p) (λ _, False).
Proof. intros e w r w' [= <- <-] Hp _ Hw. by rewrite Hp. Qed.

Lemma ensures_query {A} (f : Z → DB → res A) (Q : A → Prop) (E : err → Prop) :
  E EFault → (∀ t d, I d → match f t d with Ok a => Q a | Err x => E x end) → ensures I p (query f) Q E.
Proof.
  intros HF Hf e w r w' H Hp HR Hw. unfold query, store in H. destruct (fault e (w_tick w)); injection H as <- <-; simpl.
  - split; [by apply (HR _ _)|done].
  - assert (I (interfere e (w_tick w) (w_db w))) by (by apply (HR _ _)). split; [done|]. by apply Hf.
Qed.

Lemma ensures_now : ensures I p time_Now (λ _, True) (λ _, False).
Proof. intros e w r w' [= <- <-] _ _ Hw. done. Qed.

Lemma ensures_random : ensures I p GenerateRandomString (λ _, True) (λ _, False).
Proof. intros e w r w' [= <- <-] _ _ Hw. done. Qed.
End ensures.

(** ** Where responses go *)

(** The destinations [Good] cover what the active clients registered and where
    the pending sessions lead. *)

Record confined (p : Params) (Good : string → Prop) (d : DB) : Prop := {
  cf_clients : ∀ id c uri, clients d !! id = Some c → Client.IsActive c = true →
    Client.HasRedirectURI (url_parse p) c uri = true → Good uri;
  cf_sessions : ∀ id x, auth_sessions d !! id = Some x → Good (Session.RedirectURI x)
}.

Definition covered_client (p : Params) (Good : string → Prop) (c : Client.Client) : Prop :=
  Client.IsActive c = true → ∀ uri, Client.HasRedirectURI (url_parse p) c uri = true → Good uri.

(** What the handlers call besides the stores only reads; a document that
    registers a client registers it for destinations in [Good]. *)

Class EndpointDeps (h : Deps) : Prop := {
  issuer_quiet (S : relation DB) `{!PreOrder S} f : issuerProvider h = Some f → Traced S any_event f;
  urls_quiet (S : relation DB) `{!PreOrder S} f path : urls h = Some f → Traced S any_event (f path);
  secret_quiet (S : relation DB) `{!PreOrder S} : Traced S any_event (SessionMiddleware.secrets (session h))
}.

Definition CIMDConfined (h : Deps) (p : Params) (Good : string → Prop) : Prop :=
  ∀ f url, cimd h = Some f → ensures (confined p Good) p (f url) (covered_client p Good) (λ _, True).

Section confined.
Context (h : Deps) `{!EndpointDeps h} (p : Params) (Good : string → Prop).
Hypothesis cimd_confined : CIMDConfined h p Good.

#[local] Abbreviation kept := (ensures (confined p Good) p).

Lemma confined_same d d' : clients d' = clients d → auth_sessions d' = auth_sessions d → confined p Good d → confined p Good d'.
Proof. intros Hc Hs [H1 H2]. split; [by rewrite Hc|by rewrite Hs]. Qed.

Lemma confined_session d k x : Good (Session.RedirectURI x) → confined p Good d →
  confined p Good (set_sessions (<[k := x]> (auth_sessions d)) d).
Proof.
  intros Hx [H1 H2]. split; [done|]. simpl. intros id y [[-> <-]|[_ Hy]]%lookup_insert_Some; [done|by eapply H2].
Qed.

Lemma kept_lookup id : kept (AuthorizeService.lookupClient (cimd h) id) (covered_client p Good) (λ x, x = ErrInvalidClient).
Proof.
  unfold AuthorizeService.lookupClient. apply (ensures_try _ _ (covered_client p Good) _ (λ _, True)).
  - apply ensures_query; [done|]. intros t d Hd. destruct (clients d !! id) as [c|] eqn:Hc; [|done].
    intros Ha uri. by eapply (cf_clients _ _ _ Hd).
  - intros c Hc. by apply ensures_ret.
  - intros _ _. destruct (_ || _); [|by apply ensures_throw].
    apply (ensures_try _ _ (λ o, match o with Some c => covered_client p Good c | None => True end) _ (λ _, True)).
    + apply ensures_query; [done|]. intros t d Hd. destruct (find_row _ _) as [c|] eqn:Hc; [|done].
      apply find_row_Some in Hc as (k & Hk & _). intros Ha uri. by eapply (cf_clients _ _ _ Hd).
    + intros [c|] Hr; [by apply ensures_ret|]. destruct (cimd h) as [f|] eqn:Hf; [|by apply ensures_throw].
      apply (ensures_try _ _ _ _ _ _ (cimd_confined f id Hf)); intros; [by apply ensures_ret|by apply ensures_throw].
    + intros. by apply ensures_throw.
Qed.

Lemma kept_read {A} (m : M A) : Traced (keeping (confined p Good)) any_event m → kept m (λ _, True) (λ _, True).
Proof. apply ensures_traced. Qed.

Lemma kept_create x : Good (Session.RedirectURI x) → kept (SessionStore.Create x) (λ _, True) (λ _, True).
Proof.
  intros Hx. apply (kept_read (SessionStore.Create x)), traced_store. intros t d.
  repeat (case_bool_decide; [reflexivity|]). simpl. intros Hd. by apply confined_session.
Qed.

(** Errors that come before the destination was checked get a page. *)

Definition early (x : err) : Prop :=
  x = ErrInvalidGrant ∨ x = ErrInvalidClient ∨ x = ErrClientSuspended ∨ x = ErrInvalidRedirectURI.

Lemma kept_start req : kept (AuthorizeService.StartAuthorization (cimd h) req) (λ _, Good (AuthorizeService.RedirectURI req))
  (λ x, early x ∨ Good (AuthorizeService.RedirectURI req)).
Proof.
  unfold AuthorizeService.StartAuthorization.
  eapply ensures_bind; [apply ensures_check; intros _; left; by left|intros ? _].
  eapply ensures_seq; [apply kept_lookup|intros x ->; left; right; by left|intros c Hc].
  eapply ensures_bind; [apply ensures_check; intros _; left; right; right; by left|intros ? Ha].
  eapply ensures_seq; [apply ensures_params|done|intros q ->].
  eapply ensures_bind; [apply ensures_check; intros _; left; by repeat right|intros ? Hu]. specialize (Hc Ha _ Hu).
  assert (∀ {A B} (m : M A) (k : A → M B), Traced (keeping (confined p Good)) any_event m →
    (∀ a, kept (k a) (λ _, Good (AuthorizeService.RedirectURI req)) (λ x, early x ∨ Good (AuthorizeService.RedirectURI req))) →
    kept (m ≫= k) (λ _, Good (AuthorizeService.RedirectURI req)) (λ x, early x ∨ Good (AuthorizeService.RedirectURI req))) as Hread.
  { intros A B m k Hm Hk. eapply ensures_seq; [by apply kept_read|by right|by intros]. }
  apply Hread; [apply traced_ensure|intros _]. apply Hread; [apply traced_ensure|intros _].
  apply Hread; [apply traced_resolveResource|intros rr]. apply Hread; [apply traced_effectiveScope|intros sc].
  apply Hread; [apply traced_consentNeeded|intros cr]. apply Hread; [apply traced_now|intros now].
  apply Hread; [apply traced_rand|intros id]. eapply ensures_seq; [by apply kept_create|by right|intros ? _].
  by apply ensures_ret.
Qed.

Lemma kept_session id : kept (SessionStore.GetByID id) (λ x, Good (Session.RedirectURI x)) (λ _, True).
Proof.
  apply ensures_query; [done|]. intros t d Hd. destruct (auth_sessions d !! id) eqn:Hx; [|done]. by eapply (cf_sessions _ _ _ Hd).
Qed.

Lemma traced_code id c sc : Traced (keeping (confined p Good)) any_event (SessionStore.UpdateCodeHashAndScope id c sc).
Proof.
  apply traced_store. intros t d. destruct (auth_sessions d !! id) as [x|] eqn:Hx; [|reflexivity].
  destruct (negb _); [reflexivity|]. case_bool_decide; [reflexivity|]. simpl. intros Hd. apply confined_session; [|done].
  by apply (cf_sessions _ _ _ Hd id x).
Qed.

Lemma kept_complete id : kept (AuthorizeService.CompleteAuthorization id) (λ c, Good (AuthorizeService.c_RedirectURI c)) (λ _, True).
Proof.
  unfold AuthorizeService.CompleteAuthorization. eapply ensures_seq; [apply kept_session|done|intros x Hx].
  do 4 (eapply ensures_seq; [apply kept_read; traced|done|intros ? _]).
  eapply ensures_seq; [apply kept_read, traced_code|done|intros _ _]. by apply ensures_ret.
Qed.

Lemma traced_persist req x r l c sc : Traced (keeping (confined p Good)) any_event (ConsentService.persistAndCode req x r l c sc).
Proof.
  unfold ConsentService.persistAndCode. apply traced_bind; [|intros; apply traced_code].
  destruct r as [r|]; [|apply traced_ret]. do 2 (apply traced_bind; [traced|intros ?]).
  apply traced_store. intros t d. cbv beta zeta. do 2 (case_match; [reflexivity|]). intros Hd. by eapply confined_same; [..|exact Hd].
Qed.

Lemma kept_grant tx au req : kept (ConsentService.GrantConsent tx au req) (λ r, Good (ConsentService.r_RedirectURI r)) (λ _, True).
Proof.
  unfold ConsentService.GrantConsent. eapply ensures_seq; [apply kept_session|done|intros x Hx].
  do 4 (eapply ensures_seq; [apply kept_read; traced|done|intros ? _]). cbv zeta.
  eapply ensures_seq; [apply kept_read; traced|done|intros ? _].
  do 3 (eapply ensures_seq; [apply kept_read; traced|done|intros ? _]).
  eapply ensures_seq; [apply kept_read, traced_in_tx, traced_persist|done|intros ? _].
  eapply ensures_seq; [apply kept_read; by apply traced_audit|done|intros ? _]. by apply ensures_ret.
Qed.
(** *** The handlers *)

Context (Iss : string → Prop).
Hypothesis issuers : ∀ f e w iss w', issuerProvider h = Some f → f e w = (Ok iss, w') → Iss iss.

(** A page, a path of this server, or an authorization response: a code or an
    error in the query of a good destination, with an issuer of this server. *)

Definition front_answer (o : Response) : Prop :=
  match o with
  | Redirect loc => ∃ uri st iss, Good uri ∧ Iss iss ∧ iss ≠ "" ∧
      ((∃ code, response_at p uri (code_response code st iss) loc) ∨
       (∃ ec d, response_at p uri (error_response ec d st iss) loc))
  | RedirectInternal _ | ErrorPage _ _ _ => True
  | _ => False
  end.

Lemma front_redirect uri st iss response :
  Good uri → Iss iss → iss ≠ "" →
  (∃ code, response = code_response code st iss) ∨ (∃ ec d, response = error_response ec d st iss) →
  front_answer (redirect_to p uri response).
Proof.
  intros Hg Hi Hne Hr. assert (∀ q, nonempty_values q → nonempty_values (response q)) as Hq.
  { destruct Hr as [[c ->]|(ec & d & ->)]; intros q; [apply nonempty_code|apply nonempty_error]. }
  pose proof (redirect_response p uri response Hq) as H. destruct (redirect_to p uri response) as [| |loc| | | | | | | |]; try done.
  exists uri, st, iss. do 3 (split; [done|]). destruct Hr as [[c ->]|(ec & d & ->)]; [left|right]; eauto.
Qed.

Lemma kept_issuer : kept (resolveIssuer h)
  (λ r, match r with inl iss => Iss iss ∧ iss ≠ "" | inr page => front_answer page end) (λ _, False).
Proof.
  unfold resolveIssuer. destruct (issuerProvider h) as [f|] eqn:Hf; [|by apply ensures_ret].
  apply (ensures_try _ _ Iss _ (λ _, True)).
  - intros e w r w' H Hp HR Hw. destruct (kept_read f (issuer_quiet _ f Hf) _ _ _ _ H Hp HR Hw) as [Hw' _].
    split; [done|]. destruct r; [|done]. by eapply issuers.
  - intros iss Hi. apply ensures_ret. by case_bool_decide.
  - intros x _. by apply ensures_ret.
Qed.

Lemma kept_internal path : kept (internal h path) front_answer (λ _, False).
Proof.
  unfold internal, ResolvePath. destruct (urls h) as [f|] eqn:Hf.
  - apply (ensures_seq _ _ (λ _, True) _ (λ _, False)); [|done|intros q _; by apply ensures_ret].
    apply (ensures_try _ _ (λ _, True) _ (λ _, True)); [by apply kept_read, (urls_quiet _ f)|..]; intros; by apply ensures_ret.
  - apply (ensures_seq _ _ (λ _, True) _ (λ _, False)); [by apply ensures_ret|done|intros q _; by apply ensures_ret].
Qed.

Lemma early_page req x iss : early x → front_answer (handleAuthorizeError h p req x iss).
Proof. by intros [-> | [-> | [-> | ->]]]. Qed.

Lemma late_answer req x iss : Good (AuthorizeService.RedirectURI req) → Iss iss → iss ≠ "" →
  front_answer (handleAuthorizeError h p req x iss).
Proof.
  intros Hg Hi Hne. unfold handleAuthorizeError, redirectWithError.
  destruct x; try done; (case_bool_decide; [|done]); (eapply front_redirect; [done..|]); right; eauto.
Qed.

Lemma kept_authorize r : kept (handleAuthorize h r) front_answer (λ _, False).
Proof.
  unfold handleAuthorize. cbv zeta. eapply ensures_seq; [apply kept_issuer|done|intros [iss|page] Hi; [|by apply ensures_ret]].
  destruct Hi as [Hi Hne]. eapply ensures_seq; [apply ensures_params|done|intros q ->].
  apply (ensures_try _ _ _ _ _ _ (kept_start _)).
  - intros res Hg. destruct (AuthorizeService.LoginRequired res); [apply kept_internal|].
    destruct (AuthorizeService.ConsentRequired res); [apply kept_internal|].
    apply (ensures_try _ _ _ _ _ _ (kept_complete _)).
    + intros c Hc. apply ensures_ret. eapply front_redirect; [done..|]. left. eauto.
    + intros _ _. apply ensures_ret. eapply front_redirect; [done..|]. right. eauto.
  - intros x [Hx|Hg]; apply ensures_ret; [by apply early_page|by apply late_answer].
Qed.

Lemma kept_decide r u : kept (decideConsent h r u) front_answer (λ _, False).
Proof.
  unfold decideConsent. cbv zeta. case_bool_decide.
  - apply (ensures_try _ _ (λ _, True) _ (λ _, True)); [|intros; by apply ensures_ret..].
    apply kept_read. unfold ConsentService.DenyConsent. traced; try done. apply traced_store. intros t d Hd. simpl.
    destruct Hd as [H1 H2]. split; [done|]. simpl. intros k x [_ Hx]%lookup_delete_Some. by eapply H2.
  - case_bool_decide; [by apply ensures_ret|].
    eapply ensures_seq; [apply kept_issuer|done|intros [iss|page] Hi; [|by apply ensures_ret]]. destruct Hi as [Hi Hne].
    apply (ensures_try _ _ _ _ _ _ (kept_grant _ _ _)).
    + intros g Hg. eapply ensures_seq; [apply ensures_params|done|intros q ->]. apply ensures_ret.
      eapply front_redirect; [done..|]. left. eauto.
    + intros x _. apply ensures_ret. unfold consent_error. by destruct x.
Qed.

Lemma traced_csrf {S : relation DB} `{!PreOrder S} cookie tok :
  Traced S any_event (SessionMiddleware.ValidateCSRF (session h) cookie tok).
Proof.
  unfold SessionMiddleware.ValidateCSRF, SessionMiddleware.CSRFToken, SessionMiddleware.secret.
  pose proof (secret_quiet (h:=h) S). traced.
Qed.

Lemma kept_consent r : kept (handlePostConsent h r) front_answer (λ _, False).
Proof.
  unfold handlePostConsent. destruct (Form r); [|by apply ensures_ret]. destruct (User r) as [u|]; [|by apply ensures_ret].
  destruct (SessionCookie r) as [cookie|]; [|by apply ensures_ret].
  apply (ensures_try _ _ (λ _, True) _ (λ _, True)); [apply kept_read, traced_csrf|intros [] _; [apply kept_decide|by apply ensures_ret]|].
  intros. by apply ensures_ret.
Qed.
End confined.

(** C18: An authorization response goes where an active client registered it to
    go.  Take any set of destinations that covers what the active clients of
    the tables registered and where the pending sessions lead, and that the
    other requests and the documents of self-registering clients respect.
    Whatever is requested and whatever fails, the authorization endpoint and
    the consent form answer with a page, a path of this server, or a redirect
    to one of these destinations, whose query is the destination's own with a
    code or an error, the state, and a non-empty issuer that the issuer provider
    answered; and the tables are covered afterwards. *)
Theorem authorization_responses_stay_registered h `{!EndpointDeps h} Good Iss e w :
  rely (keeping (confined (params e) Good)) e → confined (params e) Good (w_db w) → CIMDConfined h (params e) Good →
  (∀ f e' w1 iss w2, issuerProvider h = Some f → f e' w1 = (Ok iss, w2) → Iss iss) →
  (∀ r res w', handleAuthorize h r e w = (res, w') →
     confined (params e) Good (w_db w') ∧ ∃ o, res = Ok o ∧ front_answer (params e) Good Iss o) ∧
  (∀ r res w', handlePostConsent h r e w = (res, w') →
     confined (params e) Good (w_db w') ∧ ∃ o, res = Ok o ∧ front_answer (params e) Good Iss o).
Proof.
  intros HR Hw Hc Hi. split; intros r res w' H.
  - destruct (kept_authorize h (params e) Good Hc Iss Hi r _ _ _ _ H eq_refl HR Hw) as [Hw' Ho].
    split; [done|]. destruct res as [o|]; [by exists o|done].
  - destruct (kept_consent h (params e) Good Iss Hi r _ _ _ _ H eq_refl HR Hw) as [Hw' Ho].
    split; [done|]. destruct res as [o|]; [by exists o|done].
Qed.

(** ** Consent needs the user *)

(** The form carries the token of this browser's session, under the secret of
    the server. *)

Definition gated (h : Deps) (r : HttpRequest) (u : string) (e : Env) (w : World) : Prop :=
  ∃ cookie key w1, User r = Some u ∧ SessionCookie r = Some cookie ∧
    SessionMiddleware.secrets (session h) e w = (Ok key, w1) ∧
    FormValue r "csrf_token" = b64_encode (SessionMiddleware.hmac (session h) (key +:+ "csrf") cookie).

Definition approval (r : HttpRequest) (u : string) : ConsentService.GrantConsentRequest :=
  ConsentService.MkGrantConsent (FormValue r "session_id") u (default [] (default ∅ (Form r) !! "scopes"))
    (bool_decide (FormValue r "remember" = "on")).

Lemma csrf_valid h cookie tok e w w' :
  SessionMiddleware.ValidateCSRF (session h) cookie tok e w = (Ok true, w') →
  ∃ key w1, SessionMiddleware.secrets (session h) e w = (Ok key, w1) ∧
    tok = b64_encode (SessionMiddleware.hmac (session h) (key +:+ "csrf") cookie).
Proof.
  unfold SessionMiddleware.ValidateCSRF, SessionMiddleware.CSRFToken, SessionMiddleware.secret. intros H.
  mstep H. apply ret_ok in H as [Ht _]. unbool. mstep Hm. apply ret_ok in Hm as [Ha _]. mstep Hm0.
  destruct a1 as [key|x]; [|by apply throw_ok in Hm0]. apply ret_ok in Hm0 as [<- _]. exists key, w2. split; [done|congruence].
Qed.

Section consent.
Context (h : Deps) `{!EndpointDeps h}.

Lemma issuer_run e w r w' : resolveIssuer h e w = (r, w') → reads w w' ∧
  match r with
  | Ok (inl iss) => iss ≠ "" ∧ ∃ f w1, issuerProvider h = Some f ∧ f e w = (Ok iss, w1)
  | Ok (inr _) => True
  | Err _ => False
  end.
Proof.
  unfold resolveIssuer. destruct (issuerProvider h) as [f|] eqn:Hf; [|by intros [= <- <-]].
  intros [(x & H & _)|(got & w1 & H1 & H)]%bind_cases; [by apply try_not_err in H|]. apply try_ok in H1. injection H as <- <-.
  split; [eapply reads_of; [by apply (issuer_quiet (=) f)|exact H1]|]. destruct got as [iss|x]; [|done].
  case_bool_decide; [done|]. split; [done|]. eauto.
Qed.

Lemma decide_run r u e w res w' : decideConsent h r u e w = (res, w') → ∃ o, res = Ok o ∧ ∀ loc, o = Redirect loc →
  ∃ wa wb g iss, reads w wa ∧ (∃ f w1, issuerProvider h = Some f ∧ f e w = (Ok iss, w1)) ∧ iss ≠ "" ∧
    ConsentService.ApprovedScopes (approval r u) ≠ [] ∧ FormValue r "action" ≠ "deny" ∧
    ConsentService.GrantConsent (has_tx h) (has_audit h) (approval r u) e wa = (Ok g, wb) ∧
    response_at (params e) (ConsentService.r_RedirectURI g)
      (code_response (ConsentService.r_Code g) (ConsentService.r_State g) iss) loc.
Proof.
  unfold decideConsent. cbv zeta. case_bool_decide as Hd.
  { intros [(x & H & _)|(got & w1 & _ & H)]%bind_cases; [by apply try_not_err in H|]. injection H as <- <-. by eexists. }
  case_bool_decide as Hl; [intros [= <- <-]; by eexists|]. intros H.
  apply bind_cases in H as [(x & H & _)|(got & w1 & H1 & H)]; [by apply issuer_run in H as []|].
  apply issuer_run in H1 as [R1 Hi]. destruct got as [iss|page]; [|injection H as <- <-; by eexists].
  apply bind_cases in H as [(x & H & _)|(g & w2 & H2 & H)]; [by apply try_not_err in H|]. apply try_ok in H2.
  destruct g as [g|x]; [|injection H as <- <-; eexists; split; [done|]; intros loc; by destruct x].
  erewrite bind_step in H by reflexivity. injection H as <- <-. eexists. split; [done|]. intros loc Hloc.
  destruct Hi as [Hne Hi]. exists w1, w2, g, iss. split; [done|]. split; [done|]. split; [done|].
  split; [by intros Hn; apply Hl; unfold approval in Hn; simpl in Hn; rewrite Hn|]. split; [done|]. split; [exact H2|].
  pose proof (redirect_response (params e) (ConsentService.r_RedirectURI g)
    (code_response (ConsentService.r_Code g) (ConsentService.r_State g) iss) (nonempty_code _ _ _)) as Hr.
  unfold redirectWithCode in Hloc. rewrite Hloc in Hr. exact Hr.
Qed.
End consent.


(** ** What a failure says *)

Definition with_text (t : err → string) (h : Deps) : Deps :=
  MkDeps (issuerProvider h) (urls h) t (cimd h) (session h) (has_tx h) (has_audit h) (token h) (clientCreds h) (tokenExchange h)
    (jwtBearer h) (revoke h) (introspect h) (oauthConfig h) (dcr h) (ParseIP h) (Quote h).

Section text.
Context (h : Deps) (t1 t2 : err → string).
Hypothesis agree : ∀ x, IsError x = true → t1 x = t2 x.

Lemma domain_text x : IsError x = true → error_text t1 x = error_text t2 x.
Proof. intros Hx. unfold error_text. destruct x; auto. Qed.

Lemma authorize_error_text p req x iss :
  handleAuthorizeError (with_text t1 h) p req x iss = handleAuthorizeError (with_text t2 h) p req x iss.
Proof.
  unfold handleAuthorizeError. destruct (IsError x) eqn:Hx; [|by destruct x].
  cbn [with_text Error_]. by rewrite (domain_text x Hx).
Qed.

Lemma token_error_text x : token_error (with_text t1 h) x = token_error (with_text t2 h) x.
Proof.
  unfold token_error. destruct (IsError x) eqn:Hx; [|by destruct x]. cbn [with_text Error_]. by rewrite (domain_text x Hx).
Qed.

Lemma bind_ext {A B} (m : M A) (k1 k2 : A → M B) e w : (∀ a w1, k1 a e w1 = k2 a e w1) → (m ≫= k1) e w = (m ≫= k2) e w.
Proof. intros Hk. unfold mbind, M_bind. by destruct (m e w) as [[a|x] w1]. Qed.

Lemma write_error_text x e w : writeTokenError (with_text t1 h) x e w = writeTokenError (with_text t2 h) x e w.
Proof. unfold writeTokenError. destruct x; try done; by rewrite token_error_text. Qed.

Lemma answer_text {A} (m : M A) body e w : answer (with_text t1 h) m body e w = answer (with_text t2 h) m body e w.
Proof. apply bind_ext. intros [a|x] w1; [done|apply write_error_text]. Qed.

Lemma authorize_text r e w : handleAuthorize (with_text t1 h) r e w = handleAuthorize (with_text t2 h) r e w.
Proof.
  unfold handleAuthorize. cbv zeta. apply bind_ext. intros [iss|page] w1; [|done]. apply bind_ext. intros p w2.
  apply bind_ext. intros [res|x] w3; [done|]. by rewrite authorize_error_text.
Qed.

Lemma token_text r e w : handleToken (with_text t1 h) r e w = handleToken (with_text t2 h) r e w.
Proof.
  unfold handleToken. destruct (Form r); [|done]. cbv zeta.
  repeat (case_bool_decide; [unfold handleAuthCodeExchange, handleRefreshToken, handleClientCredentials, handleTokenExchange,
    handleJWTBearer; cbn [with_text token clientCreds tokenExchange jwtBearer]; repeat case_match; [..]; try done; apply answer_text|]).
  done.
Qed.

Lemma revoke_text r e w : handleRevoke (with_text t1 h) r e w = handleRevoke (with_text t2 h) r e w.
Proof.
  unfold handleRevoke. destruct (Form r); [|done]. cbv zeta. case_bool_decide; [done|]. destruct (ExtractClientAuth r).
  apply bind_ext. intros [u|x] w1; [done|]. cbn [with_text Error_]. by rewrite (domain_text ErrInvalidClient eq_refl).
Qed.

Lemma register_text body e w : handleRegister (with_text t1 h) body e w = handleRegister (with_text t2 h) body e w.
Proof.
  unfold handleRegister. destruct body; [|done]. apply bind_ext. intros [u|x] w1; [done|]. unfold writeRegisterError.
  destruct x; try done. cbn [with_text Error_]. by rewrite (domain_text ErrInvalidClient eq_refl).
Qed.
End text.


(** The status, the challenge and the code of a refusal at the token endpoint
    go together: 401 exactly with [invalid_client] and the Basic challenge, 500
    exactly for an internal failure. *)
Theorem refusal_classes h x :
  ∃ st basic code d, token_error h x = OAuthError st basic code d "" "" ∧ st ∈ [400; 401; 403; 500] ∧
    (basic = true ↔ st = 401) ∧ (st = 401 ↔ code = "invalid_client") ∧ (st = 500 ↔ IsError x = false).
Proof.
  unfold token_error, invalid_client, server_error, WriteOAuthError.
  destruct x; do 4 eexists; (split; [reflexivity|]); (split; [set_solver|]); repeat split; done.
Qed.

(** ** Concrete requests *)

Module EndpointRuns.

Definition primitives : Params :=
  let q := Scenario.toy_params [] in
  {| sha256_hex := sha256_hex q; sha256_b64url := sha256_b64url q; hmac_b64 := hmac_b64 q; bcrypt_ok := bcrypt_ok q;
     pepper := pepper q; url_parse := url_parse q; url_string := λ u, url_Host u +:+ "?" +:+ url_RawQuery u;
     jws_sign := jws_sign q; jws_open := jws_open q; proof_open := proof_open q;
     jag_parse := jag_parse q; jag_verify := jag_verify q |}.

Definition env : Env :=
  {| fault := λ _, false; clock := clock Scenario.env; rand := rand Scenario.env; interfere := λ _ d, d;
     params := primitives; Effects.config := Scenario.config |}.

Definition issuer : M string := mret "https://as".

Definition server : Deps :=
  MkDeps (Some issuer) None (λ _, "refused") None
    (SessionMiddleware.MkDeps (mret "key") (mret (MkSessionConfig 0 false SameSiteLaxMode true)) "session" true None None (λ k s, k +:+ s))
    true true (Some (TokenService.ExchangeCode FrontRuns.wired, TokenService.RefreshToken FrontRuns.wired)) None None None
    (λ _, mret tt) (λ _, mret IntrospectionService.Inactive) None (λ _, throw ErrRegistrationDisabled) (λ _, None) (λ s, s).

#[export] Instance server_deps : EndpointDeps server.
Proof.
  split; intros; simplify_eq/=; apply traced_ret.
Qed.

Definition nobody : Shared.Request := Shared.MkRequest "GET" "as" "/oauth/authorize" true "" "" "".

Definition values (l : list (string * string)) : Values := foldl Values_Add ∅ l.

Definition asked (scope : string) : HttpRequest :=
  MkHttp nobody "/oauth/authorize" (values [("client_id", "app"); ("redirect_uri", "https://app/cb"); ("response_type", "code");
    ("scope", scope); ("state", "st 1"); ("resource", "api"); ("code_challenge", "~ch"); ("code_challenge_method", "S256")])
    None (Some "alice") None.

Definition posted (scopes : list (string * string)) : HttpRequest :=
  MkHttp nobody "/consent" ∅ (Some (values ([("session_id", "s1"); ("action", "allow"); ("csrf_token", b64_encode "keycsrfcookie")] ++ scopes)))
    (Some "alice") (Some "cookie").

Definition refused : res Response * World := handleAuthorize server (asked "admin") env Scenario.world.
Definition consented : res Response * World := handlePostConsent server (posted [("scopes", "read")]) env Scenario.world.

(** A scope outside the ceiling is refused at the client; a consent asks for
    one; a code goes to the client; a posted consent without the token is a
    page. *)

Example refused_at_the_client :
  refused.1 = Ok (Redirect "https://app/cb?error=invalid_scope&error_description=refused&iss=https%3A%2F%2Fas&state=st+1").
Proof. vm_compute. reflexivity. Qed.

Example consent_page_next : ∃ id, (handleAuthorize server (asked "read") env Scenario.world).1 = Ok (RedirectInternal ("/consent?session_id=" +:+ id)).
Proof. eexists. vm_compute. reflexivity. Qed.

Example unknown_client_gets_a_page :
  (handleAuthorize server (MkHttp nobody "" (values [("client_id", "app"); ("redirect_uri", "https://evil/cb"); ("response_type", "code")])
     None None None) env Scenario.world).1
  = Ok (ErrorPage 400 "Invalid Redirect URI" "The redirect_uri does not match the client registration.").
Proof. vm_compute. reflexivity. Qed.

Example consented_code : ∃ code, consented.1 = Ok (Redirect ("https://app/cb?code=" +:+ code +:+ "&iss=https%3A%2F%2Fas&state=st")).
Proof. eexists (String _ (String _ (String _ (String _ (String _ ""))))). vm_compute. reflexivity. Qed.

(** The target that a consent error names for a new consent is no route of
    this server, whose authorization endpoint is at [/oauth/authorize]. *)

Example reconsent_target : ReconsentURL "https://as/" "api" "read" = "https://as/authorize?resource=api&scope=read".
Proof. vm_compute. reflexivity. Qed.

(** A store that says where it is. *)

Definition noisy (x : err) : string := match x with EFault => "dial tcp 10.0.0.7:5432" | _ => "refused" end.

Definition only (uri : string) : Prop := uri = "https://app/cb".

Lemma scenario_confined : confined (params env) only (w_db Scenario.world).
Proof.
  split.
  - intros id c uri. simpl. intros [_ <-]%lookup_singleton_Some _. unfold Client.HasRedirectURI. simpl. unfold Client.matchesLoopbackRedirect.
    cbn [url_parse primitives Scenario.toy_params url_Hostname]. rewrite orb_false_r. change (Client.isLoopback "https://app/cb") with false.
    cbn. rewrite orb_false_r. intros H. apply bool_decide_eq_true in H. by symmetry.
  - intros id x. simpl. by intros [_ <-]%lookup_singleton_Some.
Qed.

End EndpointRuns.

#[export] Existing Instance EndpointRuns.server_deps.

Lemma authorization_responses_stay_registered_witness :
  (∃ o, EndpointRuns.refused.1 = Ok o ∧ front_answer (params EndpointRuns.env) EndpointRuns.only (λ i, i = "https://as") o) ∧
  (∃ o, EndpointRuns.consented.1 = Ok o ∧ front_answer (params EndpointRuns.env) EndpointRuns.only (λ i, i = "https://as") o).
Proof.
  destruct (authorization_responses_stay_registered EndpointRuns.server EndpointRuns.only (λ i, i = "https://as") EndpointRuns.env
    Scenario.world) as [H1 H2].
  - intros n d Hd. exact Hd.
  - apply EndpointRuns.scenario_confined.
  - intros f url Hf. discriminate Hf.
  - intros f e' w1 iss w2 [= <-] [= <- _]. reflexivity.
  - split.
    + exact (proj2 (H1 (EndpointRuns.asked "admin") _ _ (surjective_pairing EndpointRuns.refused))).
    + exact (proj2 (H2 (EndpointRuns.posted [("scopes", "read")]) _ _ (surjective_pairing EndpointRuns.consented))).
Defined.



Lemma client_credentials_read_back_witness :
  ExtractClientAuth (MkHttp (Shared.MkRequest "POST" "as" "/oauth/token" true (basic_header "app 1" "p:%+") "" "") "" ∅
    (Some (EndpointRuns.values [("client_id", "other"); ("client_secret", "x")])) None None) = ("app 1", "p:%+").
Proof.
  destruct (client_credentials_read_back (MkHttp (Shared.MkRequest "POST" "as" "/oauth/token" true (basic_header "app 1" "p:%+") "" "") "" ∅
    (Some (EndpointRuns.values [("client_id", "other"); ("client_secret", "x")])) None None)) as [H _].
  by apply H.
Defined.
